(* ===== verification/_CoqProject ===== *)
-Q . S2P
Prelude.v
Decimal.v
Riscv.v
State.v
Boot.v
Spinlock.v
ProcTable.v
Machine.v
SpinlockSpec.v
CString.v
Kalloc.v
Vm.v
VmSpec.v
UserMem.v
Printf.v
Sched.v
Interleave.v
SleepRace.v
SchedSpec.v
Sleeplock.v
SleeplockSpec.v
FsDefs.v
Virtio.v
Bio.v
BioSpec.v
DiskSpec.v
CacheSpec.v
Frame.v
Log.v
LogSpec.v
Fs.v
Pipe.v
PipeSpec.v
Console.v
File.v
Proc.v
Exec.v
Syscall.v
SyscallSpec.v
Sysfile.v
Trap.v
User.v
Ulib.v
UlibSpec.v
Umalloc.v
UmallocSpec.v
PrintfSpec.v
CrashSpec.v
TxnSpec.v
AllocSpec.v
InodeSpec.v
FileSpec.v
TransSpec.v
WriteSpec.v
DinodeSpec.v
ReadSpec.v
FsDemo.v
Mkfs.v
MkfsSpec.v
MkfsImage.v
Llmhelper.v
Init.v
Workload.v
Grind.v
StressSpec.v
Usertests.v
UsertestsSpec.v
AdvicePath.v
Grep.v
Tools.v
Sh.v
ShSpec.v
ShParse.v
