(* ===== verification/Prelude.v ===== *)
(** * Verification of xv6-riscv with the LLM-advised scheduler

    The program is the xv6 teaching kernel for RISC-V (src/xv6/kernel) with its
    user programs (src/xv6/user), extended by a scheduler that takes advice.
    The kernel prints a log of the process table on the console
    ([log_scheduling_state] of proc.c); an agent outside the system reads it
    and types advice lines [ADVICE:PID=<n>...] on the console; the first user
    process (init.c) routes those lines through a pipe to llmhelper.c, which
    calls the system call [set_llm_advice]; the scheduler of proc.c runs the
    advised process first, as long as the advice is fresh.  Everything else is
    a round-robin Unix: processes with page tables, a file system with a
    write-ahead log on a virtio disk, pipes, a console.

    ** Conventions

    - Integers are [Z]; every conversion to a C type is written out with [u8],
      [u16], [u32], [u64], [i32], [i64] below.  Signed overflow, undefined in
      C, wraps as on the hardware.
    - The kernel state is one record [kernel] (State.v): a hart (control
      registers, [struct cpu] array, spinlocks), physical memory as a map from
      addresses to bytes, and the global variables of the kernel's files.
      Page tables, trap frames, free pages and buffers for user data live in
      physical memory; structures reached only through typed pointers (the
      process table, inodes, buffers, pipes, files) are records in tables, a
      pointer to one being its index, and a pipe keeping its page's address.
    - Kernel code is written in a monad (State.v): [M A] maps a state to
      [Ret] a value and a state, [Panic] with its message, [Switch] (a call of
      swtch, with the continuation that runs when the thread is entered
      again), [Spin] (the lock is held by another hart), [Ub] (a wild pointer)
      or [NoFuel].  One thread runs at a time and loses the hart only at a
      [Switch]; what other harts and interrupts do to shared data is what
      happens between the state a [Switch] hands out and the state its
      continuation gets, on which the theorems quantify.  Where the order of
      the actions of two harts is the point (Interleave.v), a function is
      written as the tree of its atomic actions, proved to denote the function,
      and a step relation lets any hart run its next action.
    - Loops that are not over a table carry fuel.  Where the bound is a
      function of the arguments the fuel is that bound; the loops that wait
      for a condition by sleeping take [S patience] rounds, [patience] being a
      parameter; polling of a device register takes at most [POLL_FUEL]
      rounds; a page table has three levels, so [freewalk] needs depth 3.
    - Code that is not C under src/ is a parameter: the addresses the linker
      fixes (class [Image]), the values device registers return and what the
      disk does (class [Device]).
    - User programs (User.v) are trees of system calls; [exec_user] runs one
      against an environment that answers the calls.  An endless loop is cut
      after a number of rounds that is a parameter; the theorems hold for
      every number that covers the input.

    ** Files

    - Prelude.v: integers, bytes, record updates, shared lemmas.
      Decimal.v: positional numbers.
    - Riscv.v: riscv.h, param.h, memlayout.h.  State.v: the data structures
      (spinlock.h, sleeplock.h, proc.h, file.h, buf.h, fs.h, virtio.h) and the
      monad.  Boot.v: the zeroed state.
    - Spinlock.v: spinlock.c, with SpinlockSpec.v.  ProcTable.v: loops over
      the process table.  Machine.v: a concrete state for evaluation.
    - CString.v: string.c.  Kalloc.v: kalloc.c, and the interface
      [PageAllocator] that the page-table theorems use.
    - Vm.v: vm.c, with VmSpec.v (page tables as trees, walk, mappages) and
      UserMem.v (copyin, copyout).
    - Printf.v: printf.c, uart.c and consputc, with PrintfSpec.v.
    - Sched.v: the scheduling half of proc.c, with SchedSpec.v.  Interleave.v:
      harts that run side by side, one atomic action at a time; SleepRace.v:
      sleep against wakeup on another hart.  Proc.v: the other half of proc.c
      (allocproc, kfork, kexit, kwait, userinit, growproc).
    - Sleeplock.v, Virtio.v, Bio.v, Log.v, FsDefs.v, Fs.v, Pipe.v (with
      PipeSpec.v), Console.v, File.v, Exec.v: the C files of those names.
    - Syscall.v: syscall.c and sysproc.c, with SyscallSpec.v.  Sysfile.v:
      sysfile.c.  Trap.v: trap.c, plic.c, start.c and main.c.
    - User.v: user programs.  Ulib.v: ulib.c and the user printf.c.
      Llmhelper.v, Init.v: the programs of the advice path, with AdvicePath.v.
    - Grep.v, Tools.v: grep.c and the small tools (cat, echo, wc, ls and the
      like).  Sh.v: sh.c, with ShSpec.v (the parser) and ShParse.v (printed
      commands, and what running them does).
    - The file system is verified in layers, each file stating what the layer
      below it means to the one above: SleeplockSpec.v (sleeplock.c); BioSpec.v
      (the buffer cache as a list in order of use); Frame.v (which calls leave
      which part of the state alone) and LogSpec.v (log.c under interleaving);
      DiskSpec.v (virtio_disk.c against a device that honours the protocol, and the
      triples [cwp] for code that waits and may be stopped anywhere);
      CacheSpec.v (bread, bwrite, brelse as operations on a view of the blocks);
      CrashSpec.v (commit and recovery); TxnSpec.v (operations inside a
      transaction: [txn], [op], the class [Session]); AllocSpec.v (the
      bitmap), InodeSpec.v (bmap), FileSpec.v (readi, writei, iupdate),
      TransSpec.v (begin_op, end_op, ilock, iunlock around them), WriteSpec.v
      (filewrite), DinodeSpec.v (the dinode on the disk), ReadSpec.v (fileread).
      FsDemo.v is a small disk on which they are evaluated.
    - Umalloc.v: umalloc.c, with UmallocSpec.v (the circular free list as blocks
      in the order of their addresses).  UlibSpec.v: triples for user programs
      ([always]) and what the user printf prints.
    - Workload.v: cpubound.c, iobound.c, mixed.c.  Grind.v: stressfs.c,
      logstress.c, forktest.c, dorphan.c, forphan.c, grind.c.  StressSpec.v: what
      these programs do.
    - Usertests.v: the tests of usertests.c on files, pipes and processes and their
      driver, with UsertestsSpec.v (what the exit status of the driver says).
    - Mkfs.v: mkfs/mkfs.c on the host, with MkfsSpec.v (the blocks of one file
      while it grows, [holds]) and MkfsImage.v (the files of the image, [built], and
      the file system that is left for the kernel, [file_system]).

    ** Theorems

    - Scheduling (SchedSpec.v): the scheduler refines its policy for every
      behaviour of the processes, honours fresh advice, is fair otherwise;
      sleep loses no wakeup, in whatever order its actions and those of a
      waker on another hart interleave; wakeup, kkill and the per-tick
      accounting change exactly what they should; when advice expires.
    - Advice (AdvicePath.v, SyscallSpec.v, PrintfSpec.v): from a line typed on
      the console to the system call and to the scheduler's choice, and back
      from the process table to a log that can be parsed.
    - Memory (Kalloc.v, VmSpec.v, UserMem.v, CString.v): the page allocator is
      a stack of pages, mappages extends the translation by exactly the
      pages asked for, copyin and copyout move exactly the user's bytes.
    - Locks (SpinlockSpec.v) and pipes (PipeSpec.v): critical sections nest
      and misuse panics; a pipe is a bounded queue, pipewrite and piperead
      are its operations or block.
    - Disk and cache (DiskSpec.v, BioSpec.v, SleeplockSpec.v): the driver
      moves one block and gives its descriptors back; the cache refines a list in
      order of use, caches no block twice and locks what it hands out.
    - Log (LogSpec.v, CrashSpec.v): no interleaving of operations overflows
      the log; a commit, and recovery itself, are atomic with respect to crashes.
    - Files (AllocSpec.v to ReadSpec.v): balloc takes the first free block;
      bmap keeps files in order; what begin_op; iupdate; end_op leaves on
      the disk, ilock loads again; fileread delivers the bytes of the file;
      filewrite writes them, transaction by transaction, atomically with respect to crashes; what is written is what is read.
      These compose every layer from the program's memory to the disk.
    - Shell and tools (ShSpec.v, ShParse.v, Grep.v): the parser ends inside its
      arrays and reads back what was printed, the nodes run as the
      system calls of the command; grep matches as its patterns are read.
    - User allocator (UmallocSpec.v): malloc returns blocks that nobody else has,
      or null only when no free block fits and sbrk refuses; free gives back exactly their bytes, and one after the other restores the list.
    - Image (MkfsImage.v): what mkfs writes satisfies the premises of the theorems
      on files: regions apart, an empty log, a bitmap that marks just what is in use,
      and under each inode the bytes of the host file.

    ** Assumptions of the file-system theorems

    One process uses the file system while a commit, a recovery or a
    transaction runs; other processes may run whenever it waits, on anything but
    the buffers, the log, the inodes and what the process owns (class [Own]: its
    memory, open files, kernel stack and page table).  The device is a parameter
    [serve] of which [device_ok] states the virtio block protocol; a request is carried
    out as a whole.  A crash keeps what is on the disk and nothing else.  The
    superblock is that of a disk whose regions do not overlap ([geometry]), and a
    file's blocks are different blocks in use ([file_ok], [meta_used]), which the
    operations preserve.  A transaction of [filewrite] needs at most 25 of the 30
    buffers by [remaining_chunk].

    ** Not modelled

    The assembly files (a context switch is [Switch], traps start in C); the
    message and endless loop of panic; the TLB and memory ordering;
    register accessors of riscv.h nothing calls.  mkfs's
    messages, its arguments and host files that fail after they are open; in
    the shell, malloc is taken to succeed (its own theorems are in UmallocSpec.v);
    the tests of usertests.c that pass addresses to the kernel, since a system call
    of User.v receives the bytes of its buffer.
    The Python agent runs on the host, outside the system. *)

From stdpp Require Export base tactics list gmap strings functions option.
From Stdlib Require Export ZArith Lia.

#[global] Open Scope Z_scope.

(** ** Machine integers

    A w-bit integer is a [Z]; the wrap-around of the C type is written out
    with the functions below.  [uN] is the conversion to the unsigned type,
    [iN] the conversion to the signed two's complement type. *)

Definition u8 (x : Z) : Z := x mod 2 ^ 8.
Definition u16 (x : Z) : Z := x mod 2 ^ 16.
Definition u32 (x : Z) : Z := x mod 2 ^ 32.
Definition u64 (x : Z) : Z := x mod 2 ^ 64.
Definition i8 (x : Z) : Z := (x + 2 ^ 7) mod 2 ^ 8 - 2 ^ 7.
Definition i16 (x : Z) : Z := (x + 2 ^ 15) mod 2 ^ 16 - 2 ^ 15.
Definition i32 (x : Z) : Z := (x + 2 ^ 31) mod 2 ^ 32 - 2 ^ 31.
Definition i64 (x : Z) : Z := (x + 2 ^ 63) mod 2 ^ 64 - 2 ^ 63.

#[global] Arguments i64 : simpl never.
#[global] Arguments u8 : simpl never.
#[global] Arguments u16 : simpl never.
#[global] Arguments u32 : simpl never.
#[global] Arguments u64 : simpl never.
#[global] Arguments i8 : simpl never.
#[global] Arguments i16 : simpl never.
#[global] Arguments i32 : simpl never.

(** C truth values. *)
Definition Z_of_bool (b : bool) : Z := if b then 1 else 0.
Definition truth (x : Z) : bool := negb (x =? 0).

(** ** Byte strings *)

(** The bytes of a C string literal, without the final NUL. *)
Definition str (s : string) : list Z :=
  (λ a, Z.of_N (Ascii.N_of_ascii a)) <$> String.list_ascii_of_string s.

(** A character constant. *)
Definition chr (s : string) : Z := default 0 (head (str s)).

(** Little-endian representation of integers, as the target stores them. *)
Fixpoint le_bytes (n : nat) (z : Z) : list Z :=
  match n with
  | O => []
  | S n => z mod 256 :: le_bytes n (z / 256)
  end.

Fixpoint le_val (l : list Z) : Z :=
  match l with
  | [] => 0
  | b :: l => b + 256 * le_val l
  end.

(** Overwrite the bytes of [l] from index [i] on with [l'] (a C array written
    in place: what falls outside the array is dropped). *)
Definition splice {A} (i : nat) (l' l : list A) : list A :=
  take i l ++ take (length l - i) l' ++ drop (i + length l') l.

(** The part of [l] from index [i], [n] elements long. *)
Definition slice {A} (i n : nat) (l : list A) : list A := take n (drop i l).

(** ** Record updates *)

Class Setter {R T : Type} (proj : R → T) := set : (T → T) → R → R.
#[global] Arguments set {R T} proj {_} f r.

Declare Scope kern_scope.
Delimit Scope kern_scope with kern.
#[warnings="-postfix-notation-not-level-1"]
Notation "x <| proj := v |>" := (set proj (λ _, v) x)
  (at level 12, left associativity, format "x  <| proj  :=  v |>") : kern_scope.
#[warnings="-postfix-notation-not-level-1"]
Notation "x <| proj ::= f |>" := (set proj f x)
  (at level 12, left associativity, format "x  <| proj  ::=  f |>") : kern_scope.
#[global] Open Scope kern_scope.

(** ** Generic lemmas *)

Create HintDb kern.

Ltac bdestruct_step :=
  match goal with
  | |- context [bool_decide ?P] => destruct (bool_decide_reflect P)
  | H : context [bool_decide ?P] |- _ => destruct (bool_decide_reflect P)
  | |- context [Z.ltb ?a ?b] => destruct (Z.ltb_spec a b)
  | H : context [Z.ltb ?a ?b] |- _ => destruct (Z.ltb_spec a b)
  | |- context [Z.leb ?a ?b] => destruct (Z.leb_spec a b)
  | H : context [Z.leb ?a ?b] |- _ => destruct (Z.leb_spec a b)
  | |- context [Z.eqb ?a ?b] => destruct (Z.eqb_spec a b)
  | H : context [Z.eqb ?a ?b] |- _ => destruct (Z.eqb_spec a b)
  end.

Lemma u32_small x : 0 ≤ x < 2 ^ 32 → u32 x = x.
Proof. intros. by apply Z.mod_small. Qed.
Lemma u64_small x : 0 ≤ x < 2 ^ 64 → u64 x = x.
Proof. intros. by apply Z.mod_small. Qed.
Lemma u8_small x : 0 ≤ x < 2 ^ 8 → u8 x = x.
Proof. intros. by apply Z.mod_small. Qed.
Lemma i32_small x : - 2 ^ 31 ≤ x < 2 ^ 31 → i32 x = x.
Proof. intros. unfold i32. rewrite Z.mod_small; lia. Qed.
Lemma u32_range x : 0 ≤ u32 x < 2 ^ 32.
Proof. apply Z.mod_pos_bound. lia. Qed.
Lemma u64_range x : 0 ≤ u64 x < 2 ^ 64.
Proof. apply Z.mod_pos_bound. lia. Qed.
Lemma i32_range x : - 2 ^ 31 ≤ i32 x < 2 ^ 31.
Proof. unfold i32. pose proof (Z.mod_pos_bound (x + 2 ^ 31) (2 ^ 32)). lia. Qed.

Lemma length_le_bytes n z : length (le_bytes n z) = n.
Proof. revert z. induction n as [|n IH]; intros z; simpl; [done|]. by rewrite IH. Qed.

Lemma le_val_bytes n z : 0 ≤ z < 256 ^ Z.of_nat n → le_val (le_bytes n z) = z.
Proof.
  revert z. induction n as [|n IH]; intros z Hz; simpl.
  - simpl in Hz. lia.
  - rewrite Nat2Z.inj_succ, Z.pow_succ_r in Hz by lia.
    rewrite IH; [pose proof (Z.div_mod z 256); lia|].
    split; [apply Z.div_pos; lia | apply Z.div_lt_upper_bound; lia].
Qed.

Lemma length_splice {A} i (l' l : list A) : length (splice i l' l) = length l.
Proof. unfold splice. rewrite !length_app, !length_take, length_drop. lia. Qed.

Lemma testbit_above n x i : 0 ≤ n → 0 ≤ x < 2 ^ n → n ≤ i → Z.testbit x i = false.
Proof.
  intros Hn Hx Hi. destruct (decide (x = 0)) as [->|]; [apply Z.bits_0|].
  apply Z.bits_above_log2; [lia|]. apply Z.log2_lt_pow2; [lia|].
  apply Z.lt_le_trans with (2 ^ n); [lia|]. apply Z.pow_le_mono_r; lia.
Qed.

Lemma land_range n x y : 0 ≤ n → 0 ≤ x < 2 ^ n → 0 ≤ y → 0 ≤ Z.land x y < 2 ^ n.
Proof.
  intros Hn Hx Hy. assert (Z.land x y mod 2 ^ n = Z.land x y) as <-;
    [|apply Z.mod_pos_bound; lia].
  apply Z.bits_inj'. intros i Hi. destruct (decide (i < n)).
  - by rewrite Z.mod_pow2_bits_low by lia.
  - rewrite Z.mod_pow2_bits_high by lia. rewrite Z.land_spec.
    by rewrite (testbit_above n x i) by lia.
Qed.

(** Updating a slot that was just read. *)
Lemma list_insert_alter {A} (f : A → A) (l : list A) i x :
  l !! i = Some x → <[i := f x]> l = alter f i l.
Proof.
  intros Hx. apply list_eq. intros j. destruct (decide (i = j)) as [<-|Hne].
  - rewrite list_lookup_alter_eq, Hx.
    by rewrite list_lookup_insert_eq by (by eapply lookup_lt_Some).
  - by rewrite list_lookup_insert_ne, list_lookup_alter_ne.
Qed.

Lemma map_insert_alter `{Countable K} {A} (f : A → A) (m : gmap K A) i x :
  m !! i = Some x → <[i := f x]> m = alter f i m.
Proof.
  intros Hx. apply map_eq. intros j. destruct (decide (i = j)) as [<-|Hne].
  - by rewrite lookup_insert_eq, lookup_alter_eq, Hx.
  - by rewrite lookup_insert_ne, lookup_alter_ne.
Qed.

Lemma list_alter_id' {A} (f : A → A) (l : list A) i :
  (∀ x, l !! i = Some x → f x = x) → alter f i l = l.
Proof.
  intros Hf. apply list_eq. intros j. destruct (decide (i = j)) as [<-|Hne].
  - rewrite list_lookup_alter_eq. destruct (l !! i) eqn:E; simpl; [|done]. by rewrite Hf.
  - by rewrite list_lookup_alter_ne.
Qed.
