(* ===== verification/Decimal.v ===== *)
(** * Positional numbers

    The digit loop that the kernel's and the user library's [printint] share,
    over any digit table, with the value it denotes and its length.  A
    reference reader for signed decimal numbers. *)

From S2P Require Import Prelude.

Definition dec_digit (c : Z) : bool := (48 <=? c) && (c <=? 57).

Fixpoint dec_val (l : list Z) (acc : Z) : Z :=
  match l with
  | [] => acc
  | c :: l => dec_val l (acc * 10 + (c - 48))
  end.

(** The greedy reader: the digits at the front, and the rest. *)
Fixpoint dec_span (l : list Z) : list Z * list Z :=
  match l with
  | c :: l' => if dec_digit c then (c :: (dec_span l').1, (dec_span l').2) else ([], l)
  | [] => ([], [])
  end.

(** A signed decimal number at the front of a text. *)
Definition read_nat (l : list Z) : option (Z * list Z) :=
  let '(ds, rest) := dec_span l in
  match ds with [] => None | _ => Some (dec_val ds 0, rest) end.
Definition read_int (l : list Z) : option (Z * list Z) :=
  match l with
  | c :: l' => if c =? 45 then (λ '(z, r), (- z, r)) <$> read_nat l' else read_nat l
  | [] => None
  end.

Lemma dec_digit_range c : dec_digit c = true ↔ 48 ≤ c ≤ 57.
Proof. unfold dec_digit. rewrite andb_true_iff, !Z.leb_le. done. Qed.

Lemma dec_val_snoc l c acc : dec_val (l ++ [c]) acc = dec_val l acc * 10 + (c - 48).
Proof. revert acc. induction l as [|d l IH]; intros acc; [done|]. apply IH. Qed.

Lemma dec_val_mono l a : Forall (λ c, dec_digit c = true) l → 0 ≤ a → a ≤ dec_val l a.
Proof.
  intros Hl. revert a. induction Hl as [|c l Hc Hl IH]; intros a Ha; [done|]. cbn [dec_val].
  apply dec_digit_range in Hc. apply Z.le_trans with (a * 10 + (c - 48)); [lia|]. apply IH. lia.
Qed.

Lemma dec_span_app l rest :
  Forall (λ c, dec_digit c = true) l → (∀ c, head rest = Some c → dec_digit c = false) →
  dec_span (l ++ rest) = (l, rest).
Proof.
  intros Hl Hr. induction Hl as [|c l Hc Hl IH]; cbn [app dec_span].
  - destruct rest as [|c rest]; [done|]. cbn [dec_span]. by rewrite (Hr c eq_refl).
  - by rewrite Hc, IH.
Qed.

(** ** The digit loop *)

Section digits.
Context (digit : Z → Z).

Fixpoint gen_digits (fuel : nat) (x base : Z) : list Z :=
  match fuel with
  | O => []
  | S fuel => digit (x mod base) :: (if x / base =? 0 then [] else gen_digits fuel (x / base) base)
  end.

(** A number below [base ^ k] has at most [k] digits. *)
Lemma length_gen_digits fuel k x base :
  2 ≤ base → 0 ≤ x < base ^ Z.of_nat k → (0 < k)%nat → (length (gen_digits fuel x base) ≤ k)%nat.
Proof.
  intros Hb. revert k x. induction fuel as [|fuel IH]; intros k x Hx Hk; cbn [gen_digits length]; [lia|].
  destruct k as [|k]; [lia|]. rewrite Nat2Z.inj_succ, Z.pow_succ_r in Hx by lia.
  destruct (Z.eqb_spec (x / base) 0) as [E|E]; cbn [length]; [lia|].
  assert (Hx' : 0 ≤ x / base < base ^ Z.of_nat k).
  { split; [apply Z.div_pos; lia|apply Z.div_lt_upper_bound; lia]. }
  destruct k as [|k]; [change (base ^ Z.of_nat 0) with 1 in Hx'; lia|].
  specialize (IH (S k) (x / base) Hx' ltac:(lia)). lia.
Qed.

Context (Hdigit : ∀ d, 0 ≤ d < 10 → digit d = d + 48).

Lemma gen_digits_val fuel x :
  0 ≤ x < 10 ^ Z.of_nat fuel → (0 < fuel)%nat →
  dec_val (rev (gen_digits fuel x 10)) 0 = x ∧
  Forall (λ c, dec_digit c = true) (gen_digits fuel x 10) ∧ gen_digits fuel x 10 ≠ [].
Proof.
  revert x. induction fuel as [|fuel IH]; intros x Hx Hf; [lia|]. cbn [gen_digits rev].
  pose proof (Z.mod_pos_bound x 10). pose proof (Z.div_mod x 10).
  assert (Hd : digit (x mod 10) = x mod 10 + 48) by (apply Hdigit; lia).
  assert (Hdig : dec_digit (digit (x mod 10)) = true) by (apply dec_digit_range; lia).
  destruct (Z.eqb_spec (x / 10) 0) as [E|E].
  - split_and!; [|by constructor|done]. cbn. lia.
  - rewrite Nat2Z.inj_succ, Z.pow_succ_r in Hx by lia.
    assert (Hx10 : 0 ≤ x / 10 < 10 ^ Z.of_nat fuel).
    { split; [apply Z.div_pos; lia|apply Z.div_lt_upper_bound; lia]. }
    destruct fuel as [|fuel]; [cbn in Hx10; lia|].
    destruct (IH (x / 10) Hx10 ltac:(lia)) as (Hv & Hall & _). split_and!; [|by constructor|done].
    rewrite dec_val_snoc, Hv, Hd. lia.
Qed.

(** What [printint] leaves in its buffer, and its size. *)
Definition gen_buf (xx base : Z) (sign : bool) : list Z :=
  let neg := sign && (xx <? 0) in
  let x := u64 (if neg : bool then - xx else xx) in
  gen_digits 64 x base ++ (if neg : bool then [45] else []).

Lemma gen_buf_fits xx base sign :
  base = 10 ∨ base = 16 → - 2 ^ 63 ≤ xx < 2 ^ 63 → (0 < length (gen_buf xx base sign) ≤ 20)%nat.
Proof.
  intros Hb Hx. unfold gen_buf. set (neg := sign && (xx <? 0)).
  assert (Hu : 0 ≤ u64 (if neg then - xx else xx) < 2 ^ 64) by apply u64_range.
  assert (Hn : neg = true → u64 (if neg then - xx else xx) ≤ 2 ^ 63).
  { intros Hneg. unfold neg in *. rewrite Hneg. apply andb_true_iff in Hneg as [_ Hneg%Z.ltb_lt].
    rewrite u64_small; lia. }
  set (x := u64 _) in *. rewrite length_app.
  assert (Hpos : (0 < length (gen_digits 64 x base))%nat) by (cbn; lia).
  assert (H20 : (length (gen_digits 64 x base) ≤ if neg then 19 else 20)%nat); [|destruct neg; cbn [length]; lia].
  destruct neg.
  - apply length_gen_digits; [lia| |lia]. specialize (Hn eq_refl).
    destruct Hb as [->| ->]; (split; [lia|]; eapply Z.le_lt_trans; [exact Hn|reflexivity]).
  - apply length_gen_digits; [lia| |lia].
    destruct Hb as [->| ->]; (split; [lia|]; eapply Z.lt_trans; [apply Hu|reflexivity]).
Qed.

(** The number printed is read back. *)
Lemma read_int_gen_buf xx rest :
  - 2 ^ 63 ≤ xx < 2 ^ 63 → (∀ c, head rest = Some c → dec_digit c = false) →
  read_int (rev (gen_buf xx 10 true) ++ rest) = Some (xx, rest).
Proof.
  intros Hx Hr. unfold gen_buf. cbn [andb]. destruct (Z.ltb_spec xx 0) as [Hneg|Hpos].
  - rewrite rev_app_distr. cbn [rev app read_int Z.eqb Pos.eqb].
    assert (u64 (- xx) = - xx) as -> by (apply u64_small; lia).
    destruct (gen_digits_val 64 (- xx)) as (Hv & Hd & Hne); [split; [lia|]; eapply Z.le_lt_trans with (2 ^ 63); [lia|reflexivity]|lia|].
    unfold read_nat. rewrite dec_span_app by (try apply Forall_rev; done).
    destruct (rev (gen_digits 64 (- xx) 10)) as [|c l] eqn:E.
    { apply (f_equal (@length Z)) in E. rewrite length_rev in E. by destruct (gen_digits 64 (- xx) 10). }
    rewrite Hv. cbn. do 2 f_equal. lia.
  - rewrite app_nil_r. assert (u64 xx = xx) as -> by (apply u64_small; lia).
    destruct (gen_digits_val 64 xx) as (Hv & Hd & Hne); [split; [lia|]; eapply Z.lt_trans with (2 ^ 63); [lia|reflexivity]|lia|].
    apply Forall_rev in Hd. destruct (rev (gen_digits 64 xx 10)) as [|c l] eqn:E.
    { apply (f_equal (@length Z)) in E. rewrite length_rev in E. by destruct (gen_digits 64 xx 10). }
    cbn [app read_int]. pose proof (Forall_inv Hd) as Hc%dec_digit_range.
    destruct (Z.eqb_spec c 45); [lia|]. unfold read_nat. rewrite app_comm_cons, dec_span_app by done.
    by rewrite Hv.
Qed.

End digits.
