(* ===== verification/Riscv.v ===== *)
(** * Constants of the target: kernel/param.h, kernel/memlayout.h and the
    address, page-table and control-register macros of kernel/riscv.h and
    kernel/vm.h, with the arithmetic facts the other files use. *)

From S2P Require Import Prelude.

(** ** kernel/param.h *)

Definition NPROC : nat := 64.        (* maximum number of processes *)
Definition NCPU : nat := 8.          (* maximum number of CPUs *)
Definition NOFILE : nat := 16.       (* open files per process *)
Definition NFILE : nat := 100.       (* open files per system *)
Definition NINODE : nat := 50.       (* maximum number of active i-nodes *)
Definition NDEV : nat := 10.         (* maximum major device number *)
Definition ROOTDEV : Z := 1.         (* device number of file system root disk *)
Definition MAXARG : nat := 32.       (* max exec arguments *)
Definition MAXOPBLOCKS : Z := 10.    (* max # of blocks any FS op writes *)
Definition LOGBLOCKS : Z := MAXOPBLOCKS * 3.
Definition NBUF : nat := 30.         (* MAXOPBLOCKS*3, size of disk block cache *)
Definition FSSIZE : Z := 2000.       (* size of file system in blocks *)
Definition MAXPATH : nat := 128.     (* maximum file path name *)
Definition USERSTACK : Z := 1.       (* user stack pages *)

(** ** Pages and page-table entries (kernel/riscv.h) *)

Definition PGSIZE : Z := 4096.
Definition PGSHIFT : Z := 12.

Definition PGROUNDUP (sz : Z) : Z := Z.land (u64 (sz + PGSIZE - 1)) (u64 (Z.lnot (PGSIZE - 1))).
Definition PGROUNDDOWN (a : Z) : Z := Z.land a (u64 (Z.lnot (PGSIZE - 1))).

Definition PTE_V : Z := Z.shiftl 1 0.
Definition PTE_R : Z := Z.shiftl 1 1.
Definition PTE_W : Z := Z.shiftl 1 2.
Definition PTE_X : Z := Z.shiftl 1 3.
Definition PTE_U : Z := Z.shiftl 1 4.

Definition PA2PTE (pa : Z) : Z := u64 (Z.shiftl (Z.shiftr (u64 pa) 12) 10).
Definition PTE2PA (pte : Z) : Z := u64 (Z.shiftl (Z.shiftr pte 10) 12).
Definition PTE_FLAGS (pte : Z) : Z := Z.land pte 0x3FF.

Definition PXMASK : Z := 0x1FF.
Definition PXSHIFT (level : Z) : Z := PGSHIFT + 9 * level.
Definition PX (level va : Z) : Z := Z.land (Z.shiftr (u64 va) (PXSHIFT level)) PXMASK.

Definition MAXVA : Z := Z.shiftl 1 (9 + 9 + 9 + 12 - 1).

Definition SATP_SV39 : Z := Z.shiftl 8 60.
Definition MAKE_SATP (pagetable : Z) : Z := Z.lor SATP_SV39 (Z.shiftr (u64 pagetable) 12).

(** Control-register bits. *)
Definition MSTATUS_MPP_MASK : Z := Z.shiftl 3 11.
Definition MSTATUS_MPP_S : Z := Z.shiftl 1 11.
Definition SSTATUS_SPP : Z := Z.shiftl 1 8.
Definition SSTATUS_SPIE : Z := Z.shiftl 1 5.
Definition SSTATUS_SIE : Z := Z.shiftl 1 1.
Definition SIE_SEIE : Z := Z.shiftl 1 9.
Definition SIE_STIE : Z := Z.shiftl 1 5.
Definition MIE_STIE : Z := Z.shiftl 1 5.

(** ** kernel/memlayout.h *)

Definition UART0 : Z := 0x10000000.
Definition UART0_IRQ : Z := 10.
Definition VIRTIO0 : Z := 0x10001000.
Definition VIRTIO0_IRQ : Z := 1.
Definition PLIC : Z := 0x0c000000.
Definition PLIC_SENABLE (hart : Z) : Z := PLIC + 0x2080 + hart * 0x100.
Definition PLIC_SPRIORITY (hart : Z) : Z := PLIC + 0x201000 + hart * 0x2000.
Definition PLIC_SCLAIM (hart : Z) : Z := PLIC + 0x201004 + hart * 0x2000.

Definition KERNBASE : Z := 0x80000000.
Definition PHYSTOP : Z := KERNBASE + 128 * 1024 * 1024.
Definition TRAMPOLINE : Z := MAXVA - PGSIZE.
Definition KSTACK (p : Z) : Z := TRAMPOLINE - (p + 1) * 2 * PGSIZE.
Definition TRAPFRAME : Z := TRAMPOLINE - PGSIZE.

(** ** kernel/vm.h *)
Definition SBRK_EAGER : Z := 1.
Definition SBRK_LAZY : Z := 2.

#[global] Arguments NPROC : simpl never.
#[global] Arguments NCPU : simpl never.
#[global] Arguments NOFILE : simpl never.
#[global] Arguments NFILE : simpl never.
#[global] Arguments NINODE : simpl never.
#[global] Arguments NDEV : simpl never.
#[global] Arguments ROOTDEV : simpl never.
#[global] Arguments MAXARG : simpl never.
#[global] Arguments MAXOPBLOCKS : simpl never.
#[global] Arguments LOGBLOCKS : simpl never.
#[global] Arguments NBUF : simpl never.
#[global] Arguments FSSIZE : simpl never.
#[global] Arguments MAXPATH : simpl never.
#[global] Arguments USERSTACK : simpl never.
#[global] Arguments PGSIZE : simpl never.
#[global] Arguments PGSHIFT : simpl never.
#[global] Arguments PGROUNDUP : simpl never.
#[global] Arguments PGROUNDDOWN : simpl never.
#[global] Arguments PTE_V : simpl never.
#[global] Arguments PTE_R : simpl never.
#[global] Arguments PTE_W : simpl never.
#[global] Arguments PTE_X : simpl never.
#[global] Arguments PTE_U : simpl never.
#[global] Arguments PA2PTE : simpl never.
#[global] Arguments PTE2PA : simpl never.
#[global] Arguments PTE_FLAGS : simpl never.
#[global] Arguments PXMASK : simpl never.
#[global] Arguments PXSHIFT : simpl never.
#[global] Arguments PX : simpl never.
#[global] Arguments MAXVA : simpl never.
#[global] Arguments SATP_SV39 : simpl never.
#[global] Arguments MAKE_SATP : simpl never.
#[global] Arguments MSTATUS_MPP_MASK : simpl never.
#[global] Arguments MSTATUS_MPP_S : simpl never.
#[global] Arguments SSTATUS_SPP : simpl never.
#[global] Arguments SSTATUS_SPIE : simpl never.
#[global] Arguments SSTATUS_SIE : simpl never.
#[global] Arguments SIE_SEIE : simpl never.
#[global] Arguments SIE_STIE : simpl never.
#[global] Arguments MIE_STIE : simpl never.
#[global] Arguments UART0 : simpl never.
#[global] Arguments UART0_IRQ : simpl never.
#[global] Arguments VIRTIO0 : simpl never.
#[global] Arguments VIRTIO0_IRQ : simpl never.
#[global] Arguments PLIC : simpl never.
#[global] Arguments PLIC_SENABLE : simpl never.
#[global] Arguments PLIC_SPRIORITY : simpl never.
#[global] Arguments PLIC_SCLAIM : simpl never.
#[global] Arguments KERNBASE : simpl never.
#[global] Arguments PHYSTOP : simpl never.
#[global] Arguments TRAMPOLINE : simpl never.
#[global] Arguments KSTACK : simpl never.
#[global] Arguments TRAPFRAME : simpl never.
#[global] Arguments SBRK_EAGER : simpl never.
#[global] Arguments SBRK_LAZY : simpl never.

(** ** Page arithmetic *)

Lemma land_page_mask x :
  0 ≤ x < 2 ^ 64 → Z.land x (u64 (Z.lnot (PGSIZE - 1))) = x / PGSIZE * PGSIZE.
Proof.
  intros Hx. change PGSIZE with (2 ^ 12). change (2 ^ 12 - 1) with (Z.ones 12).
  rewrite <- Z.shiftl_mul_pow2, <- Z.shiftr_div_pow2, <- Z.ldiff_ones_r by lia.
  apply Z.bits_inj'. intros i Hi. rewrite Z.ldiff_spec, Z.land_spec. unfold u64.
  destruct (decide (i < 64)).
  - by rewrite Z.mod_pow2_bits_low, Z.lnot_spec by lia.
  - by rewrite (testbit_above 64 x i) by lia.
Qed.

Lemma PGROUNDDOWN_div a : 0 ≤ a < 2 ^ 64 → PGROUNDDOWN a = a / PGSIZE * PGSIZE.
Proof. apply land_page_mask. Qed.

Lemma PGROUNDUP_div sz :
  0 ≤ sz → sz + PGSIZE - 1 < 2 ^ 64 → PGROUNDUP sz = (sz + PGSIZE - 1) / PGSIZE * PGSIZE.
Proof.
  intros H1 H2. unfold PGROUNDUP. rewrite u64_small by (unfold PGSIZE in *; lia).
  apply land_page_mask. unfold PGSIZE in *. lia.
Qed.

Lemma PGROUNDUP_spec sz :
  0 ≤ sz → sz + PGSIZE - 1 < 2 ^ 64 →
  PGROUNDUP sz mod PGSIZE = 0 ∧ sz ≤ PGROUNDUP sz < sz + PGSIZE.
Proof.
  intros H1 H2. rewrite PGROUNDUP_div by done. unfold PGSIZE in *.
  split; [apply Z.mod_mul; lia|]. pose proof (Z.div_mod (sz + 4096 - 1) 4096).
  pose proof (Z.mod_pos_bound (sz + 4096 - 1) 4096). lia.
Qed.
