(* ===== verification/State.v ===== *)
(** * The kernel's state and the monad its code is written in

    Every C struct of the kernel headers is a [Record] with the same fields
    (prefixed, because Rocq's field names are global), every enum an
    [Inductive].  The statically allocated tables ([proc[]], [ftable],
    [itable], [bcache], ...) are lists indexed by [nat], and a C pointer into
    such a table is an index ([option nat] where it may be null).  Physical
    memory, which holds page tables, free-list links, trapframes and user
    pages, is a map from addresses to bytes.  The record [kernel] collects
    all of it.

    Kernel code is a function [kernel → res A].  A thread gives up the hart
    only in [swtch]; what follows the call is the continuation stored in
    [Switch], so sleeping code is resumed in whatever state the rest of the
    system left behind. *)

From S2P Require Import Prelude Riscv.

(** ** Identities of locks and wait channels

    [acquire], [release] and [sleep] take the address of a lock, and [sleep]
    and [wakeup] the address of a channel.  The addresses the kernel uses are
    enumerated. *)

Inductive sleeplock_id := SL_buf (i : nat) | SL_inode (i : nat).

Inductive lock_id :=
| L_pid | L_wait | L_llm | L_ticks | L_proc (i : nat)
| L_kmem | L_ftable | L_itable | L_bcache | L_log | L_vdisk
| L_cons | L_pr | L_tx | L_pipe (pa : Z) | L_sleep (sl : sleeplock_id).

Inductive chan_id :=
| Ch_null
| Ch_proc (i : nat)            (* wait(): the parent's struct proc *)
| Ch_ticks                     (* &ticks *)
| Ch_nread (pa : Z) | Ch_nwrite (pa : Z)   (* &pi->nread, &pi->nwrite *)
| Ch_sleeplock (sl : sleeplock_id)
| Ch_log                       (* &log *)
| Ch_buf (i : nat)             (* virtio_disk_rw: the buf *)
| Ch_disk_free                 (* &disk.free[0] *)
| Ch_cons_r                    (* &cons.r *)
| Ch_tx.                       (* &tx_chan *)

#[export] Instance sleeplock_id_eq_dec : EqDecision sleeplock_id.
Proof. solve_decision. Defined.
#[export] Instance lock_id_eq_dec : EqDecision lock_id.
Proof. solve_decision. Defined.
#[export] Instance chan_id_eq_dec : EqDecision chan_id.
Proof. solve_decision. Defined.

(** Locks are kept in maps by identity. *)
Definition sleeplock_code (sl : sleeplock_id) : nat + nat :=
  match sl with SL_buf i => inl i | SL_inode i => inr i end.
Definition sleeplock_decode (c : nat + nat) : sleeplock_id :=
  match c with inl i => SL_buf i | inr i => SL_inode i end.
#[export] Instance sleeplock_id_countable : Countable sleeplock_id.
Proof.
  apply (inj_countable' sleeplock_code sleeplock_decode). by intros [].
Defined.

Definition lock_code (l : lock_id) : nat * Z + nat + sleeplock_id :=
  match l with
  | L_pid => inl (inl (0%nat, 0)) | L_wait => inl (inl (1%nat, 0))
  | L_llm => inl (inl (2%nat, 0)) | L_ticks => inl (inl (3%nat, 0))
  | L_kmem => inl (inl (4%nat, 0)) | L_ftable => inl (inl (5%nat, 0))
  | L_itable => inl (inl (6%nat, 0)) | L_bcache => inl (inl (7%nat, 0))
  | L_log => inl (inl (8%nat, 0)) | L_vdisk => inl (inl (9%nat, 0))
  | L_cons => inl (inl (10%nat, 0)) | L_pr => inl (inl (11%nat, 0))
  | L_tx => inl (inl (12%nat, 0)) | L_pipe pa => inl (inl (13%nat, pa))
  | L_proc i => inl (inr i)
  | L_sleep sl => inr sl
  end.
Definition lock_decode (c : nat * Z + nat + sleeplock_id) : lock_id :=
  match c with
  | inl (inl (n, pa)) =>
      match n with
      | 0%nat => L_pid | 1%nat => L_wait | 2%nat => L_llm | 3%nat => L_ticks
      | 4%nat => L_kmem | 5%nat => L_ftable | 6%nat => L_itable | 7%nat => L_bcache
      | 8%nat => L_log | 9%nat => L_vdisk | 10%nat => L_cons | 11%nat => L_pr
      | 12%nat => L_tx | _ => L_pipe pa
      end
  | inl (inr i) => L_proc i
  | inr sl => L_sleep sl
  end.
#[export] Instance lock_id_countable : Countable lock_id.
Proof. apply (inj_countable' lock_code lock_decode). by intros []. Defined.

(** ** Structures *)

(** [struct spinlock]; [lk_cpu] is the cpu holding the lock. *)
Record spinlock := Spinlock {
  lk_locked : Z;
  lk_name : string;
  lk_cpu : option nat
}.

#[export] Instance set_lk_locked : Setter lk_locked := λ g r, Spinlock (g (lk_locked r)) (lk_name r) (lk_cpu r).
#[export] Instance set_lk_name : Setter lk_name := λ g r, Spinlock (lk_locked r) (g (lk_name r)) (lk_cpu r).
#[export] Instance set_lk_cpu : Setter lk_cpu := λ g r, Spinlock (lk_locked r) (lk_name r) (g (lk_cpu r)).

(** [struct sleeplock]; its inner spinlock is [L_sleep] of its identity. *)
Record sleeplock := Sleeplock {
  sl_locked : Z;
  sl_name : string;
  sl_pid : Z
}.

#[export] Instance set_sl_locked : Setter sl_locked := λ g r, Sleeplock (g (sl_locked r)) (sl_name r) (sl_pid r).
#[export] Instance set_sl_name : Setter sl_name := λ g r, Sleeplock (sl_locked r) (g (sl_name r)) (sl_pid r).
#[export] Instance set_sl_pid : Setter sl_pid := λ g r, Sleeplock (sl_locked r) (sl_name r) (g (sl_pid r)).

(** [struct context]; [ctx_s] holds s0 .. s11. *)
Record context := Context {
  ctx_ra : Z;
  ctx_sp : Z;
  ctx_s : list Z
}.

#[export] Instance set_ctx_ra : Setter ctx_ra := λ g r, Context (g (ctx_ra r)) (ctx_sp r) (ctx_s r).
#[export] Instance set_ctx_sp : Setter ctx_sp := λ g r, Context (ctx_ra r) (g (ctx_sp r)) (ctx_s r).
#[export] Instance set_ctx_s : Setter ctx_s := λ g r, Context (ctx_ra r) (ctx_sp r) (g (ctx_s r)).

(** [struct cpu]. *)
Record cpu := Cpu {
  c_proc : option nat;
  c_context : context;
  c_noff : Z;
  c_intena : Z
}.

#[export] Instance set_c_proc : Setter c_proc := λ g r, Cpu (g (c_proc r)) (c_context r) (c_noff r) (c_intena r).
#[export] Instance set_c_context : Setter c_context := λ g r, Cpu (c_proc r) (g (c_context r)) (c_noff r) (c_intena r).
#[export] Instance set_c_noff : Setter c_noff := λ g r, Cpu (c_proc r) (c_context r) (g (c_noff r)) (c_intena r).
#[export] Instance set_c_intena : Setter c_intena := λ g r, Cpu (c_proc r) (c_context r) (c_noff r) (g (c_intena r)).

(** [enum procstate]. *)
Inductive procstate := UNUSED | USED | SLEEPING | RUNNABLE | RUNNING | ZOMBIE.
#[export] Instance procstate_eq_dec : EqDecision procstate.
Proof. solve_decision. Defined.

(** The integer value of the enum, as [printf("%d", p->state)] shows it. *)
Definition procstate_val (st : procstate) : Z :=
  match st with
  | UNUSED => 0 | USED => 1 | SLEEPING => 2 | RUNNABLE => 3 | RUNNING => 4 | ZOMBIE => 5
  end.

(** [struct proc]; [p_pagetable] and [p_trapframe] are physical addresses, 0 when null. *)
Record proc := Proc {
  p_state : procstate;
  p_chan : chan_id;
  p_killed : Z;
  p_xstate : Z;
  p_pid : Z;
  p_parent : option nat;
  p_kstack : Z;
  p_sz : Z;
  p_pagetable : Z;
  p_trapframe : Z;
  p_context : context;
  p_ofile : list (option nat);
  p_cwd : option nat;
  p_cpu_ticks : Z;
  p_wait_ticks : Z;
  p_io_count : Z;
  p_recent_cpu : Z;
  p_name : list Z
}.

#[export] Instance set_p_state : Setter p_state := λ g r, Proc (g (p_state r)) (p_chan r) (p_killed r) (p_xstate r) (p_pid r) (p_parent r) (p_kstack r) (p_sz r) (p_pagetable r) (p_trapframe r) (p_context r) (p_ofile r) (p_cwd r) (p_cpu_ticks r) (p_wait_ticks r) (p_io_count r) (p_recent_cpu r) (p_name r).
#[export] Instance set_p_chan : Setter p_chan := λ g r, Proc (p_state r) (g (p_chan r)) (p_killed r) (p_xstate r) (p_pid r) (p_parent r) (p_kstack r) (p_sz r) (p_pagetable r) (p_trapframe r) (p_context r) (p_ofile r) (p_cwd r) (p_cpu_ticks r) (p_wait_ticks r) (p_io_count r) (p_recent_cpu r) (p_name r).
#[export] Instance set_p_killed : Setter p_killed := λ g r, Proc (p_state r) (p_chan r) (g (p_killed r)) (p_xstate r) (p_pid r) (p_parent r) (p_kstack r) (p_sz r) (p_pagetable r) (p_trapframe r) (p_context r) (p_ofile r) (p_cwd r) (p_cpu_ticks r) (p_wait_ticks r) (p_io_count r) (p_recent_cpu r) (p_name r).
#[export] Instance set_p_xstate : Setter p_xstate := λ g r, Proc (p_state r) (p_chan r) (p_killed r) (g (p_xstate r)) (p_pid r) (p_parent r) (p_kstack r) (p_sz r) (p_pagetable r) (p_trapframe r) (p_context r) (p_ofile r) (p_cwd r) (p_cpu_ticks r) (p_wait_ticks r) (p_io_count r) (p_recent_cpu r) (p_name r).
#[export] Instance set_p_pid : Setter p_pid := λ g r, Proc (p_state r) (p_chan r) (p_killed r) (p_xstate r) (g (p_pid r)) (p_parent r) (p_kstack r) (p_sz r) (p_pagetable r) (p_trapframe r) (p_context r) (p_ofile r) (p_cwd r) (p_cpu_ticks r) (p_wait_ticks r) (p_io_count r) (p_recent_cpu r) (p_name r).
#[export] Instance set_p_parent : Setter p_parent := λ g r, Proc (p_state r) (p_chan r) (p_killed r) (p_xstate r) (p_pid r) (g (p_parent r)) (p_kstack r) (p_sz r) (p_pagetable r) (p_trapframe r) (p_context r) (p_ofile r) (p_cwd r) (p_cpu_ticks r) (p_wait_ticks r) (p_io_count r) (p_recent_cpu r) (p_name r).
#[export] Instance set_p_kstack : Setter p_kstack := λ g r, Proc (p_state r) (p_chan r) (p_killed r) (p_xstate r) (p_pid r) (p_parent r) (g (p_kstack r)) (p_sz r) (p_pagetable r) (p_trapframe r) (p_context r) (p_ofile r) (p_cwd r) (p_cpu_ticks r) (p_wait_ticks r) (p_io_count r) (p_recent_cpu r) (p_name r).
#[export] Instance set_p_sz : Setter p_sz := λ g r, Proc (p_state r) (p_chan r) (p_killed r) (p_xstate r) (p_pid r) (p_parent r) (p_kstack r) (g (p_sz r)) (p_pagetable r) (p_trapframe r) (p_context r) (p_ofile r) (p_cwd r) (p_cpu_ticks r) (p_wait_ticks r) (p_io_count r) (p_recent_cpu r) (p_name r).
#[export] Instance set_p_pagetable : Setter p_pagetable := λ g r, Proc (p_state r) (p_chan r) (p_killed r) (p_xstate r) (p_pid r) (p_parent r) (p_kstack r) (p_sz r) (g (p_pagetable r)) (p_trapframe r) (p_context r) (p_ofile r) (p_cwd r) (p_cpu_ticks r) (p_wait_ticks r) (p_io_count r) (p_recent_cpu r) (p_name r).
#[export] Instance set_p_trapframe : Setter p_trapframe := λ g r, Proc (p_state r) (p_chan r) (p_killed r) (p_xstate r) (p_pid r) (p_parent r) (p_kstack r) (p_sz r) (p_pagetable r) (g (p_trapframe r)) (p_context r) (p_ofile r) (p_cwd r) (p_cpu_ticks r) (p_wait_ticks r) (p_io_count r) (p_recent_cpu r) (p_name r).
#[export] Instance set_p_context : Setter p_context := λ g r, Proc (p_state r) (p_chan r) (p_killed r) (p_xstate r) (p_pid r) (p_parent r) (p_kstack r) (p_sz r) (p_pagetable r) (p_trapframe r) (g (p_context r)) (p_ofile r) (p_cwd r) (p_cpu_ticks r) (p_wait_ticks r) (p_io_count r) (p_recent_cpu r) (p_name r).
#[export] Instance set_p_ofile : Setter p_ofile := λ g r, Proc (p_state r) (p_chan r) (p_killed r) (p_xstate r) (p_pid r) (p_parent r) (p_kstack r) (p_sz r) (p_pagetable r) (p_trapframe r) (p_context r) (g (p_ofile r)) (p_cwd r) (p_cpu_ticks r) (p_wait_ticks r) (p_io_count r) (p_recent_cpu r) (p_name r).
#[export] Instance set_p_cwd : Setter p_cwd := λ g r, Proc (p_state r) (p_chan r) (p_killed r) (p_xstate r) (p_pid r) (p_parent r) (p_kstack r) (p_sz r) (p_pagetable r) (p_trapframe r) (p_context r) (p_ofile r) (g (p_cwd r)) (p_cpu_ticks r) (p_wait_ticks r) (p_io_count r) (p_recent_cpu r) (p_name r).
#[export] Instance set_p_cpu_ticks : Setter p_cpu_ticks := λ g r, Proc (p_state r) (p_chan r) (p_killed r) (p_xstate r) (p_pid r) (p_parent r) (p_kstack r) (p_sz r) (p_pagetable r) (p_trapframe r) (p_context r) (p_ofile r) (p_cwd r) (g (p_cpu_ticks r)) (p_wait_ticks r) (p_io_count r) (p_recent_cpu r) (p_name r).
#[export] Instance set_p_wait_ticks : Setter p_wait_ticks := λ g r, Proc (p_state r) (p_chan r) (p_killed r) (p_xstate r) (p_pid r) (p_parent r) (p_kstack r) (p_sz r) (p_pagetable r) (p_trapframe r) (p_context r) (p_ofile r) (p_cwd r) (p_cpu_ticks r) (g (p_wait_ticks r)) (p_io_count r) (p_recent_cpu r) (p_name r).
#[export] Instance set_p_io_count : Setter p_io_count := λ g r, Proc (p_state r) (p_chan r) (p_killed r) (p_xstate r) (p_pid r) (p_parent r) (p_kstack r) (p_sz r) (p_pagetable r) (p_trapframe r) (p_context r) (p_ofile r) (p_cwd r) (p_cpu_ticks r) (p_wait_ticks r) (g (p_io_count r)) (p_recent_cpu r) (p_name r).
#[export] Instance set_p_recent_cpu : Setter p_recent_cpu := λ g r, Proc (p_state r) (p_chan r) (p_killed r) (p_xstate r) (p_pid r) (p_parent r) (p_kstack r) (p_sz r) (p_pagetable r) (p_trapframe r) (p_context r) (p_ofile r) (p_cwd r) (p_cpu_ticks r) (p_wait_ticks r) (p_io_count r) (g (p_recent_cpu r)) (p_name r).
#[export] Instance set_p_name : Setter p_name := λ g r, Proc (p_state r) (p_chan r) (p_killed r) (p_xstate r) (p_pid r) (p_parent r) (p_kstack r) (p_sz r) (p_pagetable r) (p_trapframe r) (p_context r) (p_ofile r) (p_cwd r) (p_cpu_ticks r) (p_wait_ticks r) (p_io_count r) (p_recent_cpu r) (g (p_name r)).

Inductive filetype := FD_NONE | FD_PIPE | FD_INODE | FD_DEVICE.
#[export] Instance filetype_eq_dec : EqDecision filetype.
Proof. solve_decision. Defined.

(** [struct file]; [f_pipe] is the address of the page holding the pipe, 0 when null. *)
Record file := File {
  f_type : filetype;
  f_ref : Z;
  f_readable : Z;
  f_writable : Z;
  f_pipe : Z;
  f_ip : option nat;
  f_off : Z;
  f_major : Z
}.

#[export] Instance set_f_type : Setter f_type := λ g r, File (g (f_type r)) (f_ref r) (f_readable r) (f_writable r) (f_pipe r) (f_ip r) (f_off r) (f_major r).
#[export] Instance set_f_ref : Setter f_ref := λ g r, File (f_type r) (g (f_ref r)) (f_readable r) (f_writable r) (f_pipe r) (f_ip r) (f_off r) (f_major r).
#[export] Instance set_f_readable : Setter f_readable := λ g r, File (f_type r) (f_ref r) (g (f_readable r)) (f_writable r) (f_pipe r) (f_ip r) (f_off r) (f_major r).
#[export] Instance set_f_writable : Setter f_writable := λ g r, File (f_type r) (f_ref r) (f_readable r) (g (f_writable r)) (f_pipe r) (f_ip r) (f_off r) (f_major r).
#[export] Instance set_f_pipe : Setter f_pipe := λ g r, File (f_type r) (f_ref r) (f_readable r) (f_writable r) (g (f_pipe r)) (f_ip r) (f_off r) (f_major r).
#[export] Instance set_f_ip : Setter f_ip := λ g r, File (f_type r) (f_ref r) (f_readable r) (f_writable r) (f_pipe r) (g (f_ip r)) (f_off r) (f_major r).
#[export] Instance set_f_off : Setter f_off := λ g r, File (f_type r) (f_ref r) (f_readable r) (f_writable r) (f_pipe r) (f_ip r) (g (f_off r)) (f_major r).
#[export] Instance set_f_major : Setter f_major := λ g r, File (f_type r) (f_ref r) (f_readable r) (f_writable r) (f_pipe r) (f_ip r) (f_off r) (g (f_major r)).

(** [struct pipe]; its lock is [L_pipe] of the page address. *)
Record pipe := Pipe {
  pi_data : list Z;
  pi_nread : Z;
  pi_nwrite : Z;
  pi_readopen : Z;
  pi_writeopen : Z
}.

#[export] Instance set_pi_data : Setter pi_data := λ g r, Pipe (g (pi_data r)) (pi_nread r) (pi_nwrite r) (pi_readopen r) (pi_writeopen r).
#[export] Instance set_pi_nread : Setter pi_nread := λ g r, Pipe (pi_data r) (g (pi_nread r)) (pi_nwrite r) (pi_readopen r) (pi_writeopen r).
#[export] Instance set_pi_nwrite : Setter pi_nwrite := λ g r, Pipe (pi_data r) (pi_nread r) (g (pi_nwrite r)) (pi_readopen r) (pi_writeopen r).
#[export] Instance set_pi_readopen : Setter pi_readopen := λ g r, Pipe (pi_data r) (pi_nread r) (pi_nwrite r) (g (pi_readopen r)) (pi_writeopen r).
#[export] Instance set_pi_writeopen : Setter pi_writeopen := λ g r, Pipe (pi_data r) (pi_nread r) (pi_nwrite r) (pi_readopen r) (g (pi_writeopen r)).

(** [struct inode]; its lock is [SL_inode] of its index. *)
Record inode := Inode {
  i_dev : Z;
  i_inum : Z;
  i_ref : Z;
  i_valid : Z;
  i_type : Z;
  i_major : Z;
  i_minor : Z;
  i_nlink : Z;
  i_size : Z;
  i_addrs : list Z
}.

#[export] Instance set_i_dev : Setter i_dev := λ g r, Inode (g (i_dev r)) (i_inum r) (i_ref r) (i_valid r) (i_type r) (i_major r) (i_minor r) (i_nlink r) (i_size r) (i_addrs r).
#[export] Instance set_i_inum : Setter i_inum := λ g r, Inode (i_dev r) (g (i_inum r)) (i_ref r) (i_valid r) (i_type r) (i_major r) (i_minor r) (i_nlink r) (i_size r) (i_addrs r).
#[export] Instance set_i_ref : Setter i_ref := λ g r, Inode (i_dev r) (i_inum r) (g (i_ref r)) (i_valid r) (i_type r) (i_major r) (i_minor r) (i_nlink r) (i_size r) (i_addrs r).
#[export] Instance set_i_valid : Setter i_valid := λ g r, Inode (i_dev r) (i_inum r) (i_ref r) (g (i_valid r)) (i_type r) (i_major r) (i_minor r) (i_nlink r) (i_size r) (i_addrs r).
#[export] Instance set_i_type : Setter i_type := λ g r, Inode (i_dev r) (i_inum r) (i_ref r) (i_valid r) (g (i_type r)) (i_major r) (i_minor r) (i_nlink r) (i_size r) (i_addrs r).
#[export] Instance set_i_major : Setter i_major := λ g r, Inode (i_dev r) (i_inum r) (i_ref r) (i_valid r) (i_type r) (g (i_major r)) (i_minor r) (i_nlink r) (i_size r) (i_addrs r).
#[export] Instance set_i_minor : Setter i_minor := λ g r, Inode (i_dev r) (i_inum r) (i_ref r) (i_valid r) (i_type r) (i_major r) (g (i_minor r)) (i_nlink r) (i_size r) (i_addrs r).
#[export] Instance set_i_nlink : Setter i_nlink := λ g r, Inode (i_dev r) (i_inum r) (i_ref r) (i_valid r) (i_type r) (i_major r) (i_minor r) (g (i_nlink r)) (i_size r) (i_addrs r).
#[export] Instance set_i_size : Setter i_size := λ g r, Inode (i_dev r) (i_inum r) (i_ref r) (i_valid r) (i_type r) (i_major r) (i_minor r) (i_nlink r) (g (i_size r)) (i_addrs r).
#[export] Instance set_i_addrs : Setter i_addrs := λ g r, Inode (i_dev r) (i_inum r) (i_ref r) (i_valid r) (i_type r) (i_major r) (i_minor r) (i_nlink r) (i_size r) (g (i_addrs r)).

(** [struct buf]; [b_prev] and [b_next] are indices into [k_bcache]. *)
Record buf := Buf {
  b_valid : Z;
  b_disk : Z;
  b_dev : Z;
  b_blockno : Z;
  b_refcnt : Z;
  b_prev : nat;
  b_next : nat;
  b_data : list Z
}.

#[export] Instance set_b_valid : Setter b_valid := λ g r, Buf (g (b_valid r)) (b_disk r) (b_dev r) (b_blockno r) (b_refcnt r) (b_prev r) (b_next r) (b_data r).
#[export] Instance set_b_disk : Setter b_disk := λ g r, Buf (b_valid r) (g (b_disk r)) (b_dev r) (b_blockno r) (b_refcnt r) (b_prev r) (b_next r) (b_data r).
#[export] Instance set_b_dev : Setter b_dev := λ g r, Buf (b_valid r) (b_disk r) (g (b_dev r)) (b_blockno r) (b_refcnt r) (b_prev r) (b_next r) (b_data r).
#[export] Instance set_b_blockno : Setter b_blockno := λ g r, Buf (b_valid r) (b_disk r) (b_dev r) (g (b_blockno r)) (b_refcnt r) (b_prev r) (b_next r) (b_data r).
#[export] Instance set_b_refcnt : Setter b_refcnt := λ g r, Buf (b_valid r) (b_disk r) (b_dev r) (b_blockno r) (g (b_refcnt r)) (b_prev r) (b_next r) (b_data r).
#[export] Instance set_b_prev : Setter b_prev := λ g r, Buf (b_valid r) (b_disk r) (b_dev r) (b_blockno r) (b_refcnt r) (g (b_prev r)) (b_next r) (b_data r).
#[export] Instance set_b_next : Setter b_next := λ g r, Buf (b_valid r) (b_disk r) (b_dev r) (b_blockno r) (b_refcnt r) (b_prev r) (g (b_next r)) (b_data r).
#[export] Instance set_b_data : Setter b_data := λ g r, Buf (b_valid r) (b_disk r) (b_dev r) (b_blockno r) (b_refcnt r) (b_prev r) (b_next r) (g (b_data r)).

(** [struct superblock]. *)
Record superblock := Superblock {
  sb_magic : Z;
  sb_size : Z;
  sb_nblocks : Z;
  sb_ninodes : Z;
  sb_nlog : Z;
  sb_logstart : Z;
  sb_inodestart : Z;
  sb_bmapstart : Z
}.

#[export] Instance set_sb_magic : Setter sb_magic := λ g r, Superblock (g (sb_magic r)) (sb_size r) (sb_nblocks r) (sb_ninodes r) (sb_nlog r) (sb_logstart r) (sb_inodestart r) (sb_bmapstart r).
#[export] Instance set_sb_size : Setter sb_size := λ g r, Superblock (sb_magic r) (g (sb_size r)) (sb_nblocks r) (sb_ninodes r) (sb_nlog r) (sb_logstart r) (sb_inodestart r) (sb_bmapstart r).
#[export] Instance set_sb_nblocks : Setter sb_nblocks := λ g r, Superblock (sb_magic r) (sb_size r) (g (sb_nblocks r)) (sb_ninodes r) (sb_nlog r) (sb_logstart r) (sb_inodestart r) (sb_bmapstart r).
#[export] Instance set_sb_ninodes : Setter sb_ninodes := λ g r, Superblock (sb_magic r) (sb_size r) (sb_nblocks r) (g (sb_ninodes r)) (sb_nlog r) (sb_logstart r) (sb_inodestart r) (sb_bmapstart r).
#[export] Instance set_sb_nlog : Setter sb_nlog := λ g r, Superblock (sb_magic r) (sb_size r) (sb_nblocks r) (sb_ninodes r) (g (sb_nlog r)) (sb_logstart r) (sb_inodestart r) (sb_bmapstart r).
#[export] Instance set_sb_logstart : Setter sb_logstart := λ g r, Superblock (sb_magic r) (sb_size r) (sb_nblocks r) (sb_ninodes r) (sb_nlog r) (g (sb_logstart r)) (sb_inodestart r) (sb_bmapstart r).
#[export] Instance set_sb_inodestart : Setter sb_inodestart := λ g r, Superblock (sb_magic r) (sb_size r) (sb_nblocks r) (sb_ninodes r) (sb_nlog r) (sb_logstart r) (g (sb_inodestart r)) (sb_bmapstart r).
#[export] Instance set_sb_bmapstart : Setter sb_bmapstart := λ g r, Superblock (sb_magic r) (sb_size r) (sb_nblocks r) (sb_ninodes r) (sb_nlog r) (sb_logstart r) (sb_inodestart r) (g (sb_bmapstart r)).

(** [struct log] with its [struct logheader]. *)
Record log := Log {
  lg_start : Z;
  lg_outstanding : Z;
  lg_committing : Z;
  lg_dev : Z;
  lh_n : Z;
  lh_block : list Z
}.

#[export] Instance set_lg_start : Setter lg_start := λ g r, Log (g (lg_start r)) (lg_outstanding r) (lg_committing r) (lg_dev r) (lh_n r) (lh_block r).
#[export] Instance set_lg_outstanding : Setter lg_outstanding := λ g r, Log (lg_start r) (g (lg_outstanding r)) (lg_committing r) (lg_dev r) (lh_n r) (lh_block r).
#[export] Instance set_lg_committing : Setter lg_committing := λ g r, Log (lg_start r) (lg_outstanding r) (g (lg_committing r)) (lg_dev r) (lh_n r) (lh_block r).
#[export] Instance set_lg_dev : Setter lg_dev := λ g r, Log (lg_start r) (lg_outstanding r) (lg_committing r) (g (lg_dev r)) (lh_n r) (lh_block r).
#[export] Instance set_lh_n : Setter lh_n := λ g r, Log (lg_start r) (lg_outstanding r) (lg_committing r) (lg_dev r) (g (lh_n r)) (lh_block r).
#[export] Instance set_lh_block : Setter lh_block := λ g r, Log (lg_start r) (lg_outstanding r) (lg_committing r) (lg_dev r) (lh_n r) (g (lh_block r)).

(** The anonymous struct [cons] of console.c. *)
Record console := Console {
  cons_buf : list Z;
  cons_r : Z;
  cons_w : Z;
  cons_e : Z
}.

#[export] Instance set_cons_buf : Setter cons_buf := λ g r, Console (g (cons_buf r)) (cons_r r) (cons_w r) (cons_e r).
#[export] Instance set_cons_r : Setter cons_r := λ g r, Console (cons_buf r) (g (cons_r r)) (cons_w r) (cons_e r).
#[export] Instance set_cons_w : Setter cons_w := λ g r, Console (cons_buf r) (cons_r r) (g (cons_w r)) (cons_e r).
#[export] Instance set_cons_e : Setter cons_e := λ g r, Console (cons_buf r) (cons_r r) (cons_w r) (g (cons_e r)).

(** The scheduler's advice variables (proc.c). *)
Record llm_advice := Llm_advice {
  llm_recommended_pid : Z;
  llm_advice_valid : Z;
  llm_advice_timestamp : Z
}.

#[export] Instance set_llm_recommended_pid : Setter llm_recommended_pid := λ g r, Llm_advice (g (llm_recommended_pid r)) (llm_advice_valid r) (llm_advice_timestamp r).
#[export] Instance set_llm_advice_valid : Setter llm_advice_valid := λ g r, Llm_advice (llm_recommended_pid r) (g (llm_advice_valid r)) (llm_advice_timestamp r).
#[export] Instance set_llm_advice_timestamp : Setter llm_advice_timestamp := λ g r, Llm_advice (llm_recommended_pid r) (llm_advice_valid r) (g (llm_advice_timestamp r)).

(** Kernel addresses the virtio driver hands to the device. *)
Inductive dma_addr := A_null | A_ops (i : nat) | A_bufdata (i : nat) | A_status (i : nat).

(** [struct virtq_desc]. *)
Record virtq_desc := Virtq_desc {
  vd_addr : dma_addr;
  vd_len : Z;
  vd_flags : Z;
  vd_next : Z
}.

#[export] Instance set_vd_addr : Setter vd_addr := λ g r, Virtq_desc (g (vd_addr r)) (vd_len r) (vd_flags r) (vd_next r).
#[export] Instance set_vd_len : Setter vd_len := λ g r, Virtq_desc (vd_addr r) (g (vd_len r)) (vd_flags r) (vd_next r).
#[export] Instance set_vd_flags : Setter vd_flags := λ g r, Virtq_desc (vd_addr r) (vd_len r) (g (vd_flags r)) (vd_next r).
#[export] Instance set_vd_next : Setter vd_next := λ g r, Virtq_desc (vd_addr r) (vd_len r) (vd_flags r) (g (vd_next r)).

(** [struct virtio_blk_req]. *)
Record blk_req := Blk_req {
  vr_type : Z;
  vr_reserved : Z;
  vr_sector : Z
}.

#[export] Instance set_vr_type : Setter vr_type := λ g r, Blk_req (g (vr_type r)) (vr_reserved r) (vr_sector r).
#[export] Instance set_vr_reserved : Setter vr_reserved := λ g r, Blk_req (vr_type r) (g (vr_reserved r)) (vr_sector r).
#[export] Instance set_vr_sector : Setter vr_sector := λ g r, Blk_req (vr_type r) (vr_reserved r) (g (vr_sector r)).

(** [struct disk] of virtio_disk.c, with the contents of the three queue pages. *)
Record vdisk := Vdisk {
  vk_desc_pa : Z;
  vk_avail_pa : Z;
  vk_used_pa : Z;
  vk_desc : list virtq_desc;
  vk_avail_idx : Z;
  vk_avail_ring : list Z;
  vk_used_dev_idx : Z;
  vk_used_ring : list Z;
  vk_free : list Z;
  vk_used_idx : Z;
  vk_info_b : list (option nat);
  vk_info_status : list Z;
  vk_ops : list blk_req
}.

#[export] Instance set_vk_desc_pa : Setter vk_desc_pa := λ g r, Vdisk (g (vk_desc_pa r)) (vk_avail_pa r) (vk_used_pa r) (vk_desc r) (vk_avail_idx r) (vk_avail_ring r) (vk_used_dev_idx r) (vk_used_ring r) (vk_free r) (vk_used_idx r) (vk_info_b r) (vk_info_status r) (vk_ops r).
#[export] Instance set_vk_avail_pa : Setter vk_avail_pa := λ g r, Vdisk (vk_desc_pa r) (g (vk_avail_pa r)) (vk_used_pa r) (vk_desc r) (vk_avail_idx r) (vk_avail_ring r) (vk_used_dev_idx r) (vk_used_ring r) (vk_free r) (vk_used_idx r) (vk_info_b r) (vk_info_status r) (vk_ops r).
#[export] Instance set_vk_used_pa : Setter vk_used_pa := λ g r, Vdisk (vk_desc_pa r) (vk_avail_pa r) (g (vk_used_pa r)) (vk_desc r) (vk_avail_idx r) (vk_avail_ring r) (vk_used_dev_idx r) (vk_used_ring r) (vk_free r) (vk_used_idx r) (vk_info_b r) (vk_info_status r) (vk_ops r).
#[export] Instance set_vk_desc : Setter vk_desc := λ g r, Vdisk (vk_desc_pa r) (vk_avail_pa r) (vk_used_pa r) (g (vk_desc r)) (vk_avail_idx r) (vk_avail_ring r) (vk_used_dev_idx r) (vk_used_ring r) (vk_free r) (vk_used_idx r) (vk_info_b r) (vk_info_status r) (vk_ops r).
#[export] Instance set_vk_avail_idx : Setter vk_avail_idx := λ g r, Vdisk (vk_desc_pa r) (vk_avail_pa r) (vk_used_pa r) (vk_desc r) (g (vk_avail_idx r)) (vk_avail_ring r) (vk_used_dev_idx r) (vk_used_ring r) (vk_free r) (vk_used_idx r) (vk_info_b r) (vk_info_status r) (vk_ops r).
#[export] Instance set_vk_avail_ring : Setter vk_avail_ring := λ g r, Vdisk (vk_desc_pa r) (vk_avail_pa r) (vk_used_pa r) (vk_desc r) (vk_avail_idx r) (g (vk_avail_ring r)) (vk_used_dev_idx r) (vk_used_ring r) (vk_free r) (vk_used_idx r) (vk_info_b r) (vk_info_status r) (vk_ops r).
#[export] Instance set_vk_used_dev_idx : Setter vk_used_dev_idx := λ g r, Vdisk (vk_desc_pa r) (vk_avail_pa r) (vk_used_pa r) (vk_desc r) (vk_avail_idx r) (vk_avail_ring r) (g (vk_used_dev_idx r)) (vk_used_ring r) (vk_free r) (vk_used_idx r) (vk_info_b r) (vk_info_status r) (vk_ops r).
#[export] Instance set_vk_used_ring : Setter vk_used_ring := λ g r, Vdisk (vk_desc_pa r) (vk_avail_pa r) (vk_used_pa r) (vk_desc r) (vk_avail_idx r) (vk_avail_ring r) (vk_used_dev_idx r) (g (vk_used_ring r)) (vk_free r) (vk_used_idx r) (vk_info_b r) (vk_info_status r) (vk_ops r).
#[export] Instance set_vk_free : Setter vk_free := λ g r, Vdisk (vk_desc_pa r) (vk_avail_pa r) (vk_used_pa r) (vk_desc r) (vk_avail_idx r) (vk_avail_ring r) (vk_used_dev_idx r) (vk_used_ring r) (g (vk_free r)) (vk_used_idx r) (vk_info_b r) (vk_info_status r) (vk_ops r).
#[export] Instance set_vk_used_idx : Setter vk_used_idx := λ g r, Vdisk (vk_desc_pa r) (vk_avail_pa r) (vk_used_pa r) (vk_desc r) (vk_avail_idx r) (vk_avail_ring r) (vk_used_dev_idx r) (vk_used_ring r) (vk_free r) (g (vk_used_idx r)) (vk_info_b r) (vk_info_status r) (vk_ops r).
#[export] Instance set_vk_info_b : Setter vk_info_b := λ g r, Vdisk (vk_desc_pa r) (vk_avail_pa r) (vk_used_pa r) (vk_desc r) (vk_avail_idx r) (vk_avail_ring r) (vk_used_dev_idx r) (vk_used_ring r) (vk_free r) (vk_used_idx r) (g (vk_info_b r)) (vk_info_status r) (vk_ops r).
#[export] Instance set_vk_info_status : Setter vk_info_status := λ g r, Vdisk (vk_desc_pa r) (vk_avail_pa r) (vk_used_pa r) (vk_desc r) (vk_avail_idx r) (vk_avail_ring r) (vk_used_dev_idx r) (vk_used_ring r) (vk_free r) (vk_used_idx r) (vk_info_b r) (g (vk_info_status r)) (vk_ops r).
#[export] Instance set_vk_ops : Setter vk_ops := λ g r, Vdisk (vk_desc_pa r) (vk_avail_pa r) (vk_used_pa r) (vk_desc r) (vk_avail_idx r) (vk_avail_ring r) (vk_used_dev_idx r) (vk_used_ring r) (vk_free r) (vk_used_idx r) (vk_info_b r) (vk_info_status r) (g (vk_ops r)).

(** [struct devsw]: the functions a device may register. *)
Inductive devread := consoleread_fn.
Inductive devwrite := consolewrite_fn.

(** [struct devsw]. *)
Record devsw := Devsw {
  dev_read : option devread;
  dev_write : option devwrite
}.

#[export] Instance set_dev_read : Setter dev_read := λ g r, Devsw (g (dev_read r)) (dev_write r).
#[export] Instance set_dev_write : Setter dev_write := λ g r, Devsw (dev_read r) (g (dev_write r)).

(** The control and status registers of the hart, with its thread pointer [tp]. *)
Record csrs := Csrs {
  csr_mhartid : Z;
  csr_mstatus : Z;
  csr_mepc : Z;
  csr_sstatus : Z;
  csr_sip : Z;
  csr_sie : Z;
  csr_mie : Z;
  csr_sepc : Z;
  csr_medeleg : Z;
  csr_mideleg : Z;
  csr_stvec : Z;
  csr_stimecmp : Z;
  csr_menvcfg : Z;
  csr_pmpcfg0 : Z;
  csr_pmpaddr0 : Z;
  csr_satp : Z;
  csr_scause : Z;
  csr_stval : Z;
  csr_mcounteren : Z;
  csr_time : Z;
  csr_tp : Z
}.

#[export] Instance set_csr_mhartid : Setter csr_mhartid := λ g r, Csrs (g (csr_mhartid r)) (csr_mstatus r) (csr_mepc r) (csr_sstatus r) (csr_sip r) (csr_sie r) (csr_mie r) (csr_sepc r) (csr_medeleg r) (csr_mideleg r) (csr_stvec r) (csr_stimecmp r) (csr_menvcfg r) (csr_pmpcfg0 r) (csr_pmpaddr0 r) (csr_satp r) (csr_scause r) (csr_stval r) (csr_mcounteren r) (csr_time r) (csr_tp r).
#[export] Instance set_csr_mstatus : Setter csr_mstatus := λ g r, Csrs (csr_mhartid r) (g (csr_mstatus r)) (csr_mepc r) (csr_sstatus r) (csr_sip r) (csr_sie r) (csr_mie r) (csr_sepc r) (csr_medeleg r) (csr_mideleg r) (csr_stvec r) (csr_stimecmp r) (csr_menvcfg r) (csr_pmpcfg0 r) (csr_pmpaddr0 r) (csr_satp r) (csr_scause r) (csr_stval r) (csr_mcounteren r) (csr_time r) (csr_tp r).
#[export] Instance set_csr_mepc : Setter csr_mepc := λ g r, Csrs (csr_mhartid r) (csr_mstatus r) (g (csr_mepc r)) (csr_sstatus r) (csr_sip r) (csr_sie r) (csr_mie r) (csr_sepc r) (csr_medeleg r) (csr_mideleg r) (csr_stvec r) (csr_stimecmp r) (csr_menvcfg r) (csr_pmpcfg0 r) (csr_pmpaddr0 r) (csr_satp r) (csr_scause r) (csr_stval r) (csr_mcounteren r) (csr_time r) (csr_tp r).
#[export] Instance set_csr_sstatus : Setter csr_sstatus := λ g r, Csrs (csr_mhartid r) (csr_mstatus r) (csr_mepc r) (g (csr_sstatus r)) (csr_sip r) (csr_sie r) (csr_mie r) (csr_sepc r) (csr_medeleg r) (csr_mideleg r) (csr_stvec r) (csr_stimecmp r) (csr_menvcfg r) (csr_pmpcfg0 r) (csr_pmpaddr0 r) (csr_satp r) (csr_scause r) (csr_stval r) (csr_mcounteren r) (csr_time r) (csr_tp r).
#[export] Instance set_csr_sip : Setter csr_sip := λ g r, Csrs (csr_mhartid r) (csr_mstatus r) (csr_mepc r) (csr_sstatus r) (g (csr_sip r)) (csr_sie r) (csr_mie r) (csr_sepc r) (csr_medeleg r) (csr_mideleg r) (csr_stvec r) (csr_stimecmp r) (csr_menvcfg r) (csr_pmpcfg0 r) (csr_pmpaddr0 r) (csr_satp r) (csr_scause r) (csr_stval r) (csr_mcounteren r) (csr_time r) (csr_tp r).
#[export] Instance set_csr_sie : Setter csr_sie := λ g r, Csrs (csr_mhartid r) (csr_mstatus r) (csr_mepc r) (csr_sstatus r) (csr_sip r) (g (csr_sie r)) (csr_mie r) (csr_sepc r) (csr_medeleg r) (csr_mideleg r) (csr_stvec r) (csr_stimecmp r) (csr_menvcfg r) (csr_pmpcfg0 r) (csr_pmpaddr0 r) (csr_satp r) (csr_scause r) (csr_stval r) (csr_mcounteren r) (csr_time r) (csr_tp r).
#[export] Instance set_csr_mie : Setter csr_mie := λ g r, Csrs (csr_mhartid r) (csr_mstatus r) (csr_mepc r) (csr_sstatus r) (csr_sip r) (csr_sie r) (g (csr_mie r)) (csr_sepc r) (csr_medeleg r) (csr_mideleg r) (csr_stvec r) (csr_stimecmp r) (csr_menvcfg r) (csr_pmpcfg0 r) (csr_pmpaddr0 r) (csr_satp r) (csr_scause r) (csr_stval r) (csr_mcounteren r) (csr_time r) (csr_tp r).
#[export] Instance set_csr_sepc : Setter csr_sepc := λ g r, Csrs (csr_mhartid r) (csr_mstatus r) (csr_mepc r) (csr_sstatus r) (csr_sip r) (csr_sie r) (csr_mie r) (g (csr_sepc r)) (csr_medeleg r) (csr_mideleg r) (csr_stvec r) (csr_stimecmp r) (csr_menvcfg r) (csr_pmpcfg0 r) (csr_pmpaddr0 r) (csr_satp r) (csr_scause r) (csr_stval r) (csr_mcounteren r) (csr_time r) (csr_tp r).
#[export] Instance set_csr_medeleg : Setter csr_medeleg := λ g r, Csrs (csr_mhartid r) (csr_mstatus r) (csr_mepc r) (csr_sstatus r) (csr_sip r) (csr_sie r) (csr_mie r) (csr_sepc r) (g (csr_medeleg r)) (csr_mideleg r) (csr_stvec r) (csr_stimecmp r) (csr_menvcfg r) (csr_pmpcfg0 r) (csr_pmpaddr0 r) (csr_satp r) (csr_scause r) (csr_stval r) (csr_mcounteren r) (csr_time r) (csr_tp r).
#[export] Instance set_csr_mideleg : Setter csr_mideleg := λ g r, Csrs (csr_mhartid r) (csr_mstatus r) (csr_mepc r) (csr_sstatus r) (csr_sip r) (csr_sie r) (csr_mie r) (csr_sepc r) (csr_medeleg r) (g (csr_mideleg r)) (csr_stvec r) (csr_stimecmp r) (csr_menvcfg r) (csr_pmpcfg0 r) (csr_pmpaddr0 r) (csr_satp r) (csr_scause r) (csr_stval r) (csr_mcounteren r) (csr_time r) (csr_tp r).
#[export] Instance set_csr_stvec : Setter csr_stvec := λ g r, Csrs (csr_mhartid r) (csr_mstatus r) (csr_mepc r) (csr_sstatus r) (csr_sip r) (csr_sie r) (csr_mie r) (csr_sepc r) (csr_medeleg r) (csr_mideleg r) (g (csr_stvec r)) (csr_stimecmp r) (csr_menvcfg r) (csr_pmpcfg0 r) (csr_pmpaddr0 r) (csr_satp r) (csr_scause r) (csr_stval r) (csr_mcounteren r) (csr_time r) (csr_tp r).
#[export] Instance set_csr_stimecmp : Setter csr_stimecmp := λ g r, Csrs (csr_mhartid r) (csr_mstatus r) (csr_mepc r) (csr_sstatus r) (csr_sip r) (csr_sie r) (csr_mie r) (csr_sepc r) (csr_medeleg r) (csr_mideleg r) (csr_stvec r) (g (csr_stimecmp r)) (csr_menvcfg r) (csr_pmpcfg0 r) (csr_pmpaddr0 r) (csr_satp r) (csr_scause r) (csr_stval r) (csr_mcounteren r) (csr_time r) (csr_tp r).
#[export] Instance set_csr_menvcfg : Setter csr_menvcfg := λ g r, Csrs (csr_mhartid r) (csr_mstatus r) (csr_mepc r) (csr_sstatus r) (csr_sip r) (csr_sie r) (csr_mie r) (csr_sepc r) (csr_medeleg r) (csr_mideleg r) (csr_stvec r) (csr_stimecmp r) (g (csr_menvcfg r)) (csr_pmpcfg0 r) (csr_pmpaddr0 r) (csr_satp r) (csr_scause r) (csr_stval r) (csr_mcounteren r) (csr_time r) (csr_tp r).
#[export] Instance set_csr_pmpcfg0 : Setter csr_pmpcfg0 := λ g r, Csrs (csr_mhartid r) (csr_mstatus r) (csr_mepc r) (csr_sstatus r) (csr_sip r) (csr_sie r) (csr_mie r) (csr_sepc r) (csr_medeleg r) (csr_mideleg r) (csr_stvec r) (csr_stimecmp r) (csr_menvcfg r) (g (csr_pmpcfg0 r)) (csr_pmpaddr0 r) (csr_satp r) (csr_scause r) (csr_stval r) (csr_mcounteren r) (csr_time r) (csr_tp r).
#[export] Instance set_csr_pmpaddr0 : Setter csr_pmpaddr0 := λ g r, Csrs (csr_mhartid r) (csr_mstatus r) (csr_mepc r) (csr_sstatus r) (csr_sip r) (csr_sie r) (csr_mie r) (csr_sepc r) (csr_medeleg r) (csr_mideleg r) (csr_stvec r) (csr_stimecmp r) (csr_menvcfg r) (csr_pmpcfg0 r) (g (csr_pmpaddr0 r)) (csr_satp r) (csr_scause r) (csr_stval r) (csr_mcounteren r) (csr_time r) (csr_tp r).
#[export] Instance set_csr_satp : Setter csr_satp := λ g r, Csrs (csr_mhartid r) (csr_mstatus r) (csr_mepc r) (csr_sstatus r) (csr_sip r) (csr_sie r) (csr_mie r) (csr_sepc r) (csr_medeleg r) (csr_mideleg r) (csr_stvec r) (csr_stimecmp r) (csr_menvcfg r) (csr_pmpcfg0 r) (csr_pmpaddr0 r) (g (csr_satp r)) (csr_scause r) (csr_stval r) (csr_mcounteren r) (csr_time r) (csr_tp r).
#[export] Instance set_csr_scause : Setter csr_scause := λ g r, Csrs (csr_mhartid r) (csr_mstatus r) (csr_mepc r) (csr_sstatus r) (csr_sip r) (csr_sie r) (csr_mie r) (csr_sepc r) (csr_medeleg r) (csr_mideleg r) (csr_stvec r) (csr_stimecmp r) (csr_menvcfg r) (csr_pmpcfg0 r) (csr_pmpaddr0 r) (csr_satp r) (g (csr_scause r)) (csr_stval r) (csr_mcounteren r) (csr_time r) (csr_tp r).
#[export] Instance set_csr_stval : Setter csr_stval := λ g r, Csrs (csr_mhartid r) (csr_mstatus r) (csr_mepc r) (csr_sstatus r) (csr_sip r) (csr_sie r) (csr_mie r) (csr_sepc r) (csr_medeleg r) (csr_mideleg r) (csr_stvec r) (csr_stimecmp r) (csr_menvcfg r) (csr_pmpcfg0 r) (csr_pmpaddr0 r) (csr_satp r) (csr_scause r) (g (csr_stval r)) (csr_mcounteren r) (csr_time r) (csr_tp r).
#[export] Instance set_csr_mcounteren : Setter csr_mcounteren := λ g r, Csrs (csr_mhartid r) (csr_mstatus r) (csr_mepc r) (csr_sstatus r) (csr_sip r) (csr_sie r) (csr_mie r) (csr_sepc r) (csr_medeleg r) (csr_mideleg r) (csr_stvec r) (csr_stimecmp r) (csr_menvcfg r) (csr_pmpcfg0 r) (csr_pmpaddr0 r) (csr_satp r) (csr_scause r) (csr_stval r) (g (csr_mcounteren r)) (csr_time r) (csr_tp r).
#[export] Instance set_csr_time : Setter csr_time := λ g r, Csrs (csr_mhartid r) (csr_mstatus r) (csr_mepc r) (csr_sstatus r) (csr_sip r) (csr_sie r) (csr_mie r) (csr_sepc r) (csr_medeleg r) (csr_mideleg r) (csr_stvec r) (csr_stimecmp r) (csr_menvcfg r) (csr_pmpcfg0 r) (csr_pmpaddr0 r) (csr_satp r) (csr_scause r) (csr_stval r) (csr_mcounteren r) (g (csr_time r)) (csr_tp r).
#[export] Instance set_csr_tp : Setter csr_tp := λ g r, Csrs (csr_mhartid r) (csr_mstatus r) (csr_mepc r) (csr_sstatus r) (csr_sip r) (csr_sie r) (csr_mie r) (csr_sepc r) (csr_medeleg r) (csr_mideleg r) (csr_stvec r) (csr_stimecmp r) (csr_menvcfg r) (csr_pmpcfg0 r) (csr_pmpaddr0 r) (csr_satp r) (csr_scause r) (csr_stval r) (csr_mcounteren r) (csr_time r) (g (csr_tp r)).

(** What locking and interrupt control touch: the registers, the per-CPU structs and the spinlocks. *)
Record hart := Hart {
  h_csr : csrs;
  h_cpus : list cpu;
  h_locks : gmap lock_id spinlock
}.

#[export] Instance set_h_csr : Setter h_csr := λ g r, Hart (g (h_csr r)) (h_cpus r) (h_locks r).
#[export] Instance set_h_cpus : Setter h_cpus := λ g r, Hart (h_csr r) (g (h_cpus r)) (h_locks r).
#[export] Instance set_h_locks : Setter h_locks := λ g r, Hart (h_csr r) (h_cpus r) (g (h_locks r)).

(** The whole kernel. [k_mmio_reads] counts the reads of device registers and [k_mmio_out] lists the writes, oldest first. *)
Record kernel := Kernel {
  k_hw : hart;
  k_mem : gmap Z Z;
  k_freelist : Z;
  k_kpt : Z;
  k_procs : list proc;
  k_initproc : option nat;
  k_nextpid : Z;
  k_llm : llm_advice;
  k_ticks : Z;
  k_log_counter : Z;
  k_first : Z;
  k_sleeplocks : gmap sleeplock_id sleeplock;
  k_pipes : gmap Z pipe;
  k_ftable : list file;
  k_devsw : list devsw;
  k_itable : list inode;
  k_sb : superblock;
  k_bcache : list buf;
  k_log : log;
  k_vdisk : vdisk;
  k_cons : console;
  k_tx_busy : Z;
  k_panicking : Z;
  k_panicked : Z;
  k_mmio_reads : nat;
  k_mmio_out : list (Z * Z)
}.

#[export] Instance set_k_hw : Setter k_hw := λ g r, Kernel (g (k_hw r)) (k_mem r) (k_freelist r) (k_kpt r) (k_procs r) (k_initproc r) (k_nextpid r) (k_llm r) (k_ticks r) (k_log_counter r) (k_first r) (k_sleeplocks r) (k_pipes r) (k_ftable r) (k_devsw r) (k_itable r) (k_sb r) (k_bcache r) (k_log r) (k_vdisk r) (k_cons r) (k_tx_busy r) (k_panicking r) (k_panicked r) (k_mmio_reads r) (k_mmio_out r).
#[export] Instance set_k_mem : Setter k_mem := λ g r, Kernel (k_hw r) (g (k_mem r)) (k_freelist r) (k_kpt r) (k_procs r) (k_initproc r) (k_nextpid r) (k_llm r) (k_ticks r) (k_log_counter r) (k_first r) (k_sleeplocks r) (k_pipes r) (k_ftable r) (k_devsw r) (k_itable r) (k_sb r) (k_bcache r) (k_log r) (k_vdisk r) (k_cons r) (k_tx_busy r) (k_panicking r) (k_panicked r) (k_mmio_reads r) (k_mmio_out r).
#[export] Instance set_k_freelist : Setter k_freelist := λ g r, Kernel (k_hw r) (k_mem r) (g (k_freelist r)) (k_kpt r) (k_procs r) (k_initproc r) (k_nextpid r) (k_llm r) (k_ticks r) (k_log_counter r) (k_first r) (k_sleeplocks r) (k_pipes r) (k_ftable r) (k_devsw r) (k_itable r) (k_sb r) (k_bcache r) (k_log r) (k_vdisk r) (k_cons r) (k_tx_busy r) (k_panicking r) (k_panicked r) (k_mmio_reads r) (k_mmio_out r).
#[export] Instance set_k_kpt : Setter k_kpt := λ g r, Kernel (k_hw r) (k_mem r) (k_freelist r) (g (k_kpt r)) (k_procs r) (k_initproc r) (k_nextpid r) (k_llm r) (k_ticks r) (k_log_counter r) (k_first r) (k_sleeplocks r) (k_pipes r) (k_ftable r) (k_devsw r) (k_itable r) (k_sb r) (k_bcache r) (k_log r) (k_vdisk r) (k_cons r) (k_tx_busy r) (k_panicking r) (k_panicked r) (k_mmio_reads r) (k_mmio_out r).
#[export] Instance set_k_procs : Setter k_procs := λ g r, Kernel (k_hw r) (k_mem r) (k_freelist r) (k_kpt r) (g (k_procs r)) (k_initproc r) (k_nextpid r) (k_llm r) (k_ticks r) (k_log_counter r) (k_first r) (k_sleeplocks r) (k_pipes r) (k_ftable r) (k_devsw r) (k_itable r) (k_sb r) (k_bcache r) (k_log r) (k_vdisk r) (k_cons r) (k_tx_busy r) (k_panicking r) (k_panicked r) (k_mmio_reads r) (k_mmio_out r).
#[export] Instance set_k_initproc : Setter k_initproc := λ g r, Kernel (k_hw r) (k_mem r) (k_freelist r) (k_kpt r) (k_procs r) (g (k_initproc r)) (k_nextpid r) (k_llm r) (k_ticks r) (k_log_counter r) (k_first r) (k_sleeplocks r) (k_pipes r) (k_ftable r) (k_devsw r) (k_itable r) (k_sb r) (k_bcache r) (k_log r) (k_vdisk r) (k_cons r) (k_tx_busy r) (k_panicking r) (k_panicked r) (k_mmio_reads r) (k_mmio_out r).
#[export] Instance set_k_nextpid : Setter k_nextpid := λ g r, Kernel (k_hw r) (k_mem r) (k_freelist r) (k_kpt r) (k_procs r) (k_initproc r) (g (k_nextpid r)) (k_llm r) (k_ticks r) (k_log_counter r) (k_first r) (k_sleeplocks r) (k_pipes r) (k_ftable r) (k_devsw r) (k_itable r) (k_sb r) (k_bcache r) (k_log r) (k_vdisk r) (k_cons r) (k_tx_busy r) (k_panicking r) (k_panicked r) (k_mmio_reads r) (k_mmio_out r).
#[export] Instance set_k_llm : Setter k_llm := λ g r, Kernel (k_hw r) (k_mem r) (k_freelist r) (k_kpt r) (k_procs r) (k_initproc r) (k_nextpid r) (g (k_llm r)) (k_ticks r) (k_log_counter r) (k_first r) (k_sleeplocks r) (k_pipes r) (k_ftable r) (k_devsw r) (k_itable r) (k_sb r) (k_bcache r) (k_log r) (k_vdisk r) (k_cons r) (k_tx_busy r) (k_panicking r) (k_panicked r) (k_mmio_reads r) (k_mmio_out r).
#[export] Instance set_k_ticks : Setter k_ticks := λ g r, Kernel (k_hw r) (k_mem r) (k_freelist r) (k_kpt r) (k_procs r) (k_initproc r) (k_nextpid r) (k_llm r) (g (k_ticks r)) (k_log_counter r) (k_first r) (k_sleeplocks r) (k_pipes r) (k_ftable r) (k_devsw r) (k_itable r) (k_sb r) (k_bcache r) (k_log r) (k_vdisk r) (k_cons r) (k_tx_busy r) (k_panicking r) (k_panicked r) (k_mmio_reads r) (k_mmio_out r).
#[export] Instance set_k_log_counter : Setter k_log_counter := λ g r, Kernel (k_hw r) (k_mem r) (k_freelist r) (k_kpt r) (k_procs r) (k_initproc r) (k_nextpid r) (k_llm r) (k_ticks r) (g (k_log_counter r)) (k_first r) (k_sleeplocks r) (k_pipes r) (k_ftable r) (k_devsw r) (k_itable r) (k_sb r) (k_bcache r) (k_log r) (k_vdisk r) (k_cons r) (k_tx_busy r) (k_panicking r) (k_panicked r) (k_mmio_reads r) (k_mmio_out r).
#[export] Instance set_k_first : Setter k_first := λ g r, Kernel (k_hw r) (k_mem r) (k_freelist r) (k_kpt r) (k_procs r) (k_initproc r) (k_nextpid r) (k_llm r) (k_ticks r) (k_log_counter r) (g (k_first r)) (k_sleeplocks r) (k_pipes r) (k_ftable r) (k_devsw r) (k_itable r) (k_sb r) (k_bcache r) (k_log r) (k_vdisk r) (k_cons r) (k_tx_busy r) (k_panicking r) (k_panicked r) (k_mmio_reads r) (k_mmio_out r).
#[export] Instance set_k_sleeplocks : Setter k_sleeplocks := λ g r, Kernel (k_hw r) (k_mem r) (k_freelist r) (k_kpt r) (k_procs r) (k_initproc r) (k_nextpid r) (k_llm r) (k_ticks r) (k_log_counter r) (k_first r) (g (k_sleeplocks r)) (k_pipes r) (k_ftable r) (k_devsw r) (k_itable r) (k_sb r) (k_bcache r) (k_log r) (k_vdisk r) (k_cons r) (k_tx_busy r) (k_panicking r) (k_panicked r) (k_mmio_reads r) (k_mmio_out r).
#[export] Instance set_k_pipes : Setter k_pipes := λ g r, Kernel (k_hw r) (k_mem r) (k_freelist r) (k_kpt r) (k_procs r) (k_initproc r) (k_nextpid r) (k_llm r) (k_ticks r) (k_log_counter r) (k_first r) (k_sleeplocks r) (g (k_pipes r)) (k_ftable r) (k_devsw r) (k_itable r) (k_sb r) (k_bcache r) (k_log r) (k_vdisk r) (k_cons r) (k_tx_busy r) (k_panicking r) (k_panicked r) (k_mmio_reads r) (k_mmio_out r).
#[export] Instance set_k_ftable : Setter k_ftable := λ g r, Kernel (k_hw r) (k_mem r) (k_freelist r) (k_kpt r) (k_procs r) (k_initproc r) (k_nextpid r) (k_llm r) (k_ticks r) (k_log_counter r) (k_first r) (k_sleeplocks r) (k_pipes r) (g (k_ftable r)) (k_devsw r) (k_itable r) (k_sb r) (k_bcache r) (k_log r) (k_vdisk r) (k_cons r) (k_tx_busy r) (k_panicking r) (k_panicked r) (k_mmio_reads r) (k_mmio_out r).
#[export] Instance set_k_devsw : Setter k_devsw := λ g r, Kernel (k_hw r) (k_mem r) (k_freelist r) (k_kpt r) (k_procs r) (k_initproc r) (k_nextpid r) (k_llm r) (k_ticks r) (k_log_counter r) (k_first r) (k_sleeplocks r) (k_pipes r) (k_ftable r) (g (k_devsw r)) (k_itable r) (k_sb r) (k_bcache r) (k_log r) (k_vdisk r) (k_cons r) (k_tx_busy r) (k_panicking r) (k_panicked r) (k_mmio_reads r) (k_mmio_out r).
#[export] Instance set_k_itable : Setter k_itable := λ g r, Kernel (k_hw r) (k_mem r) (k_freelist r) (k_kpt r) (k_procs r) (k_initproc r) (k_nextpid r) (k_llm r) (k_ticks r) (k_log_counter r) (k_first r) (k_sleeplocks r) (k_pipes r) (k_ftable r) (k_devsw r) (g (k_itable r)) (k_sb r) (k_bcache r) (k_log r) (k_vdisk r) (k_cons r) (k_tx_busy r) (k_panicking r) (k_panicked r) (k_mmio_reads r) (k_mmio_out r).
#[export] Instance set_k_sb : Setter k_sb := λ g r, Kernel (k_hw r) (k_mem r) (k_freelist r) (k_kpt r) (k_procs r) (k_initproc r) (k_nextpid r) (k_llm r) (k_ticks r) (k_log_counter r) (k_first r) (k_sleeplocks r) (k_pipes r) (k_ftable r) (k_devsw r) (k_itable r) (g (k_sb r)) (k_bcache r) (k_log r) (k_vdisk r) (k_cons r) (k_tx_busy r) (k_panicking r) (k_panicked r) (k_mmio_reads r) (k_mmio_out r).
#[export] Instance set_k_bcache : Setter k_bcache := λ g r, Kernel (k_hw r) (k_mem r) (k_freelist r) (k_kpt r) (k_procs r) (k_initproc r) (k_nextpid r) (k_llm r) (k_ticks r) (k_log_counter r) (k_first r) (k_sleeplocks r) (k_pipes r) (k_ftable r) (k_devsw r) (k_itable r) (k_sb r) (g (k_bcache r)) (k_log r) (k_vdisk r) (k_cons r) (k_tx_busy r) (k_panicking r) (k_panicked r) (k_mmio_reads r) (k_mmio_out r).
#[export] Instance set_k_log : Setter k_log := λ g r, Kernel (k_hw r) (k_mem r) (k_freelist r) (k_kpt r) (k_procs r) (k_initproc r) (k_nextpid r) (k_llm r) (k_ticks r) (k_log_counter r) (k_first r) (k_sleeplocks r) (k_pipes r) (k_ftable r) (k_devsw r) (k_itable r) (k_sb r) (k_bcache r) (g (k_log r)) (k_vdisk r) (k_cons r) (k_tx_busy r) (k_panicking r) (k_panicked r) (k_mmio_reads r) (k_mmio_out r).
#[export] Instance set_k_vdisk : Setter k_vdisk := λ g r, Kernel (k_hw r) (k_mem r) (k_freelist r) (k_kpt r) (k_procs r) (k_initproc r) (k_nextpid r) (k_llm r) (k_ticks r) (k_log_counter r) (k_first r) (k_sleeplocks r) (k_pipes r) (k_ftable r) (k_devsw r) (k_itable r) (k_sb r) (k_bcache r) (k_log r) (g (k_vdisk r)) (k_cons r) (k_tx_busy r) (k_panicking r) (k_panicked r) (k_mmio_reads r) (k_mmio_out r).
#[export] Instance set_k_cons : Setter k_cons := λ g r, Kernel (k_hw r) (k_mem r) (k_freelist r) (k_kpt r) (k_procs r) (k_initproc r) (k_nextpid r) (k_llm r) (k_ticks r) (k_log_counter r) (k_first r) (k_sleeplocks r) (k_pipes r) (k_ftable r) (k_devsw r) (k_itable r) (k_sb r) (k_bcache r) (k_log r) (k_vdisk r) (g (k_cons r)) (k_tx_busy r) (k_panicking r) (k_panicked r) (k_mmio_reads r) (k_mmio_out r).
#[export] Instance set_k_tx_busy : Setter k_tx_busy := λ g r, Kernel (k_hw r) (k_mem r) (k_freelist r) (k_kpt r) (k_procs r) (k_initproc r) (k_nextpid r) (k_llm r) (k_ticks r) (k_log_counter r) (k_first r) (k_sleeplocks r) (k_pipes r) (k_ftable r) (k_devsw r) (k_itable r) (k_sb r) (k_bcache r) (k_log r) (k_vdisk r) (k_cons r) (g (k_tx_busy r)) (k_panicking r) (k_panicked r) (k_mmio_reads r) (k_mmio_out r).
#[export] Instance set_k_panicking : Setter k_panicking := λ g r, Kernel (k_hw r) (k_mem r) (k_freelist r) (k_kpt r) (k_procs r) (k_initproc r) (k_nextpid r) (k_llm r) (k_ticks r) (k_log_counter r) (k_first r) (k_sleeplocks r) (k_pipes r) (k_ftable r) (k_devsw r) (k_itable r) (k_sb r) (k_bcache r) (k_log r) (k_vdisk r) (k_cons r) (k_tx_busy r) (g (k_panicking r)) (k_panicked r) (k_mmio_reads r) (k_mmio_out r).
#[export] Instance set_k_panicked : Setter k_panicked := λ g r, Kernel (k_hw r) (k_mem r) (k_freelist r) (k_kpt r) (k_procs r) (k_initproc r) (k_nextpid r) (k_llm r) (k_ticks r) (k_log_counter r) (k_first r) (k_sleeplocks r) (k_pipes r) (k_ftable r) (k_devsw r) (k_itable r) (k_sb r) (k_bcache r) (k_log r) (k_vdisk r) (k_cons r) (k_tx_busy r) (k_panicking r) (g (k_panicked r)) (k_mmio_reads r) (k_mmio_out r).
#[export] Instance set_k_mmio_reads : Setter k_mmio_reads := λ g r, Kernel (k_hw r) (k_mem r) (k_freelist r) (k_kpt r) (k_procs r) (k_initproc r) (k_nextpid r) (k_llm r) (k_ticks r) (k_log_counter r) (k_first r) (k_sleeplocks r) (k_pipes r) (k_ftable r) (k_devsw r) (k_itable r) (k_sb r) (k_bcache r) (k_log r) (k_vdisk r) (k_cons r) (k_tx_busy r) (k_panicking r) (k_panicked r) (g (k_mmio_reads r)) (k_mmio_out r).
#[export] Instance set_k_mmio_out : Setter k_mmio_out := λ g r, Kernel (k_hw r) (k_mem r) (k_freelist r) (k_kpt r) (k_procs r) (k_initproc r) (k_nextpid r) (k_llm r) (k_ticks r) (k_log_counter r) (k_first r) (k_sleeplocks r) (k_pipes r) (k_ftable r) (k_devsw r) (k_itable r) (k_sb r) (k_bcache r) (k_log r) (k_vdisk r) (k_cons r) (k_tx_busy r) (k_panicking r) (k_panicked r) (k_mmio_reads r) (g (k_mmio_out r)).

(** ** What the sources only name

    Addresses fixed by the linker script and the assembly files, and the
    values device registers return when read: parameters of the model. *)

Class Image := {
  end_ : Z;             (* first address after the kernel *)
  etext : Z;            (* end of the kernel text *)
  trampoline : Z; uservec : Z; userret : Z;    (* trampoline.S *)
  kernelvec : Z;        (* kernelvec.S *)
  forkret_addr : Z; usertrap_addr : Z; main_addr : Z
}.

Class Device := {
  (** the value the n-th register read of the run returns, by address *)
  mmio_in : nat → Z → Z
}.

(** A loop that sleeps until its condition holds may be woken any number of
    times.  The model follows it through [patience] wake-ups; what is proved
    holds for every value. *)
Class Patience := { patience : nat }.

(** ** The monad *)

Inductive target := To_proc (i : nat) | To_scheduler | To_idle.

Inductive res (A : Type) : Type :=
| Ret (a : A) (s : kernel)
| Panic (msg : string)              (* panic() was called *)
| Switch (to : target) (s : kernel) (k : kernel → res A)  (* swtch() or wfi *)
| Spin                              (* waits for another hart to act *)
| Ub                                (* undefined: null or wild pointer *)
| NoFuel.                           (* a bounded loop ran out *)
Arguments Ret {A} a s.
Arguments Panic {A} msg.
Arguments Switch {A} to s k.
Arguments Spin {A}.
Arguments Ub {A}.
Arguments NoFuel {A}.

Definition M (A : Type) : Type := kernel → res A.

Fixpoint bind_res {A B} (r : res A) (f : A → M B) : res B :=
  match r with
  | Ret a s => f a s
  | Panic msg => Panic msg
  | Switch to s k => Switch to s (λ s', bind_res (k s') f)
  | Spin => Spin
  | Ub => Ub
  | NoFuel => NoFuel
  end.

#[export] Instance M_ret : MRet M := λ A a s, Ret a s.
#[export] Instance M_bind : MBind M := λ A B f m s, bind_res (m s) f.

Definition gets {A} (f : kernel → A) : M A := λ s, Ret (f s) s.
Definition modify (f : kernel → kernel) : M unit := λ s, Ret tt (f s).
Definition panic {A} (msg : string) : M A := λ _, Panic msg.
Definition ub {A} : M A := λ _, Ub.
Definition spin {A} : M A := λ _, Spin.
Definition nofuel {A} : M A := λ _, NoFuel.
Definition skip : M unit := mret tt.
Definition swtch (to : target) : M unit := λ s, Switch to s (λ s', Ret tt s').
Definition of_option {A} (o : option A) : M A :=
  match o with Some a => mret a | None => ub end.
Definition when (b : bool) (m : M unit) : M unit := if b then m else skip.

(** Loops.  [for_each] is a [for] over the elements of a table; [for_ret] one
    whose body may [break] or [return] (it yields [Some]); [for_fold] threads a
    local variable; [while_] runs a body
    that either goes on with new local variables or leaves the loop, at most
    [fuel] times. *)
Fixpoint for_each {A} (l : list A) (body : A → M unit) : M unit :=
  match l with
  | [] => skip
  | x :: l => body x;; for_each l body
  end.

Fixpoint for_ret {A B} (l : list A) (body : A → M (option B)) : M (option B) :=
  match l with
  | [] => mret None
  | x :: l => r ← body x; match r with Some b => mret (Some b) | None => for_ret l body end
  end.

Fixpoint for_fold {A X} (l : list A) (body : X → A → M X) (x : X) : M X :=
  match l with
  | [] => mret x
  | a :: l => x' ← body x a; for_fold l body x'
  end.

Fixpoint while_ {X B} (fuel : nat) (body : X → M (X + B)) (x : X) : M B :=
  match fuel with
  | O => nofuel
  | S fuel => r ← body x; match r with inl x' => while_ fuel body x' | inr b => mret b end
  end.

(** Table accesses; an index outside the table is a wild pointer. *)
Definition get_proc (i : nat) : M proc := λ s, of_option (k_procs s !! i) s.
Definition upd_proc (i : nat) (f : proc → proc) : M unit :=
  p ← get_proc i; modify (λ s, s <| k_procs := <[i := f p]> (k_procs s) |>).

(** Symbolic execution of monadic code: [mrun] runs the primitive operations,
    [mrun_with] runs up to the next call and rewrites with its lemma. *)
Lemma bind_run {A B} (m : M A) (f : A → M B) s : (m ≫= f) s = bind_res (m s) f.
Proof. reflexivity. Qed.

#[global] Arguments gets {A} f s /.
#[global] Arguments modify f s /.
#[global] Arguments panic {A} msg s /.
#[global] Arguments ub {A} s /.
#[global] Arguments spin {A} s /.
#[global] Arguments nofuel {A} s /.
#[global] Arguments skip s /.
#[global] Arguments swtch to s /.
#[global] Arguments M_ret A a s /.
#[global] Arguments when b m /.
#[global] Arguments of_option {A} o /.

Ltac msimpl :=
  repeat progress cbn [bind_res mret M_ret gets modify skip when panic ub spin nofuel swtch of_option].
Ltac mrun := msimpl; repeat (rewrite bind_run; msimpl).
Tactic Notation "mrun_with" uconstr(l) := mrun; erewrite l; mrun.

(** Simplification of field reads of updated records. *)
Ltac ksimpl :=
  cbn [set lk_locked set_lk_locked lk_name set_lk_name lk_cpu set_lk_cpu sl_locked set_sl_locked
    sl_name set_sl_name sl_pid set_sl_pid ctx_ra set_ctx_ra ctx_sp set_ctx_sp ctx_s set_ctx_s
    c_proc set_c_proc c_context set_c_context c_noff set_c_noff c_intena set_c_intena p_state
    set_p_state p_chan set_p_chan p_killed set_p_killed p_xstate set_p_xstate p_pid set_p_pid
    p_parent set_p_parent p_kstack set_p_kstack p_sz set_p_sz p_pagetable set_p_pagetable
    p_trapframe set_p_trapframe p_context set_p_context p_ofile set_p_ofile p_cwd set_p_cwd
    p_cpu_ticks set_p_cpu_ticks p_wait_ticks set_p_wait_ticks p_io_count set_p_io_count
    p_recent_cpu set_p_recent_cpu p_name set_p_name f_type set_f_type f_ref set_f_ref
    f_readable set_f_readable f_writable set_f_writable f_pipe set_f_pipe f_ip set_f_ip f_off
    set_f_off f_major set_f_major pi_data set_pi_data pi_nread set_pi_nread pi_nwrite
    set_pi_nwrite pi_readopen set_pi_readopen pi_writeopen set_pi_writeopen i_dev set_i_dev
    i_inum set_i_inum i_ref set_i_ref i_valid set_i_valid i_type set_i_type i_major
    set_i_major i_minor set_i_minor i_nlink set_i_nlink i_size set_i_size i_addrs set_i_addrs
    b_valid set_b_valid b_disk set_b_disk b_dev set_b_dev b_blockno set_b_blockno b_refcnt
    set_b_refcnt b_prev set_b_prev b_next set_b_next b_data set_b_data sb_magic set_sb_magic
    sb_size set_sb_size sb_nblocks set_sb_nblocks sb_ninodes set_sb_ninodes sb_nlog
    set_sb_nlog sb_logstart set_sb_logstart sb_inodestart set_sb_inodestart sb_bmapstart
    set_sb_bmapstart lg_start set_lg_start lg_outstanding set_lg_outstanding lg_committing
    set_lg_committing lg_dev set_lg_dev lh_n set_lh_n lh_block set_lh_block cons_buf
    set_cons_buf cons_r set_cons_r cons_w set_cons_w cons_e set_cons_e llm_recommended_pid
    set_llm_recommended_pid llm_advice_valid set_llm_advice_valid llm_advice_timestamp
    set_llm_advice_timestamp vd_addr set_vd_addr vd_len set_vd_len vd_flags set_vd_flags
    vd_next set_vd_next vr_type set_vr_type vr_reserved set_vr_reserved vr_sector
    set_vr_sector vk_desc_pa set_vk_desc_pa vk_avail_pa set_vk_avail_pa vk_used_pa
    set_vk_used_pa vk_desc set_vk_desc vk_avail_idx set_vk_avail_idx vk_avail_ring
    set_vk_avail_ring vk_used_dev_idx set_vk_used_dev_idx vk_used_ring set_vk_used_ring
    vk_free set_vk_free vk_used_idx set_vk_used_idx vk_info_b set_vk_info_b vk_info_status
    set_vk_info_status vk_ops set_vk_ops dev_read set_dev_read dev_write set_dev_write
    csr_mhartid set_csr_mhartid csr_mstatus set_csr_mstatus csr_mepc set_csr_mepc csr_sstatus
    set_csr_sstatus csr_sip set_csr_sip csr_sie set_csr_sie csr_mie set_csr_mie csr_sepc
    set_csr_sepc csr_medeleg set_csr_medeleg csr_mideleg set_csr_mideleg csr_stvec
    set_csr_stvec csr_stimecmp set_csr_stimecmp csr_menvcfg set_csr_menvcfg csr_pmpcfg0
    set_csr_pmpcfg0 csr_pmpaddr0 set_csr_pmpaddr0 csr_satp set_csr_satp csr_scause
    set_csr_scause csr_stval set_csr_stval csr_mcounteren set_csr_mcounteren csr_time
    set_csr_time csr_tp set_csr_tp h_csr set_h_csr h_cpus set_h_cpus h_locks set_h_locks k_hw
    set_k_hw k_mem set_k_mem k_freelist set_k_freelist k_kpt set_k_kpt k_procs set_k_procs
    k_initproc set_k_initproc k_nextpid set_k_nextpid k_llm set_k_llm k_ticks set_k_ticks
    k_log_counter set_k_log_counter k_first set_k_first k_sleeplocks set_k_sleeplocks k_pipes
    set_k_pipes k_ftable set_k_ftable k_devsw set_k_devsw k_itable set_k_itable k_sb set_k_sb
    k_bcache set_k_bcache k_log set_k_log k_vdisk set_k_vdisk k_cons set_k_cons k_tx_busy
    set_k_tx_busy k_panicking set_k_panicking k_panicked set_k_panicked k_mmio_reads
    set_k_mmio_reads k_mmio_out set_k_mmio_out].
Ltac ksimpl_in H :=
  cbn [set lk_locked set_lk_locked lk_name set_lk_name lk_cpu set_lk_cpu sl_locked set_sl_locked
    sl_name set_sl_name sl_pid set_sl_pid ctx_ra set_ctx_ra ctx_sp set_ctx_sp ctx_s set_ctx_s
    c_proc set_c_proc c_context set_c_context c_noff set_c_noff c_intena set_c_intena p_state
    set_p_state p_chan set_p_chan p_killed set_p_killed p_xstate set_p_xstate p_pid set_p_pid
    p_parent set_p_parent p_kstack set_p_kstack p_sz set_p_sz p_pagetable set_p_pagetable
    p_trapframe set_p_trapframe p_context set_p_context p_ofile set_p_ofile p_cwd set_p_cwd
    p_cpu_ticks set_p_cpu_ticks p_wait_ticks set_p_wait_ticks p_io_count set_p_io_count
    p_recent_cpu set_p_recent_cpu p_name set_p_name f_type set_f_type f_ref set_f_ref
    f_readable set_f_readable f_writable set_f_writable f_pipe set_f_pipe f_ip set_f_ip f_off
    set_f_off f_major set_f_major pi_data set_pi_data pi_nread set_pi_nread pi_nwrite
    set_pi_nwrite pi_readopen set_pi_readopen pi_writeopen set_pi_writeopen i_dev set_i_dev
    i_inum set_i_inum i_ref set_i_ref i_valid set_i_valid i_type set_i_type i_major
    set_i_major i_minor set_i_minor i_nlink set_i_nlink i_size set_i_size i_addrs set_i_addrs
    b_valid set_b_valid b_disk set_b_disk b_dev set_b_dev b_blockno set_b_blockno b_refcnt
    set_b_refcnt b_prev set_b_prev b_next set_b_next b_data set_b_data sb_magic set_sb_magic
    sb_size set_sb_size sb_nblocks set_sb_nblocks sb_ninodes set_sb_ninodes sb_nlog
    set_sb_nlog sb_logstart set_sb_logstart sb_inodestart set_sb_inodestart sb_bmapstart
    set_sb_bmapstart lg_start set_lg_start lg_outstanding set_lg_outstanding lg_committing
    set_lg_committing lg_dev set_lg_dev lh_n set_lh_n lh_block set_lh_block cons_buf
    set_cons_buf cons_r set_cons_r cons_w set_cons_w cons_e set_cons_e llm_recommended_pid
    set_llm_recommended_pid llm_advice_valid set_llm_advice_valid llm_advice_timestamp
    set_llm_advice_timestamp vd_addr set_vd_addr vd_len set_vd_len vd_flags set_vd_flags
    vd_next set_vd_next vr_type set_vr_type vr_reserved set_vr_reserved vr_sector
    set_vr_sector vk_desc_pa set_vk_desc_pa vk_avail_pa set_vk_avail_pa vk_used_pa
    set_vk_used_pa vk_desc set_vk_desc vk_avail_idx set_vk_avail_idx vk_avail_ring
    set_vk_avail_ring vk_used_dev_idx set_vk_used_dev_idx vk_used_ring set_vk_used_ring
    vk_free set_vk_free vk_used_idx set_vk_used_idx vk_info_b set_vk_info_b vk_info_status
    set_vk_info_status vk_ops set_vk_ops dev_read set_dev_read dev_write set_dev_write
    csr_mhartid set_csr_mhartid csr_mstatus set_csr_mstatus csr_mepc set_csr_mepc csr_sstatus
    set_csr_sstatus csr_sip set_csr_sip csr_sie set_csr_sie csr_mie set_csr_mie csr_sepc
    set_csr_sepc csr_medeleg set_csr_medeleg csr_mideleg set_csr_mideleg csr_stvec
    set_csr_stvec csr_stimecmp set_csr_stimecmp csr_menvcfg set_csr_menvcfg csr_pmpcfg0
    set_csr_pmpcfg0 csr_pmpaddr0 set_csr_pmpaddr0 csr_satp set_csr_satp csr_scause
    set_csr_scause csr_stval set_csr_stval csr_mcounteren set_csr_mcounteren csr_time
    set_csr_time csr_tp set_csr_tp h_csr set_h_csr h_cpus set_h_cpus h_locks set_h_locks k_hw
    set_k_hw k_mem set_k_mem k_freelist set_k_freelist k_kpt set_k_kpt k_procs set_k_procs
    k_initproc set_k_initproc k_nextpid set_k_nextpid k_llm set_k_llm k_ticks set_k_ticks
    k_log_counter set_k_log_counter k_first set_k_first k_sleeplocks set_k_sleeplocks k_pipes
    set_k_pipes k_ftable set_k_ftable k_devsw set_k_devsw k_itable set_k_itable k_sb set_k_sb
    k_bcache set_k_bcache k_log set_k_log k_vdisk set_k_vdisk k_cons set_k_cons k_tx_busy
    set_k_tx_busy k_panicking set_k_panicking k_panicked set_k_panicked k_mmio_reads
    set_k_mmio_reads k_mmio_out set_k_mmio_out] in H.
