(* ===== verification/Boot.v ===== *)
(** * The state before the first instruction of [main]

    Static objects have the values of their initializers, everything else is
    zero.  Concrete runs of the model start here. *)

From S2P Require Import Prelude Riscv State.

Definition zero_context : context := Context 0 0 (replicate 12 0).
Definition zero_cpu : cpu := Cpu None zero_context 0 0.
Definition zero_proc : proc :=
  Proc UNUSED Ch_null 0 0 0 None 0 0 0 0 zero_context (replicate NOFILE None) None 0 0 0 0
    (replicate 16 0).
Definition zero_file : file := File FD_NONE 0 0 0 0 None 0 0.
Definition zero_inode : inode := Inode 0 0 0 0 0 0 0 0 0 (replicate 13 0).
Definition zero_buf : buf := Buf 0 0 0 0 0 0 0 (replicate 1024 0).
Definition zero_csrs : csrs :=
  Csrs 0 0 0 0 0 0 0 0 0 0 0 0 0 0 0 0 0 0 0 0 0.
Definition zero_hart : hart := Hart zero_csrs (replicate NCPU zero_cpu) ∅.
Definition zero_vdisk : vdisk :=
  Vdisk 0 0 0 (replicate 8 (Virtq_desc A_null 0 0 0)) 0 (replicate 8 0) 0 (replicate 8 0)
    (replicate 8 0) 0 (replicate 8 None) (replicate 8 0) (replicate 8 (Blk_req 0 0 0)).

Definition boot_state : kernel := {|
  k_hw := zero_hart;
  k_mem := ∅;
  k_freelist := 0;
  k_kpt := 0;
  k_procs := replicate NPROC zero_proc;
  k_initproc := None;
  k_nextpid := 1;
  k_llm := Llm_advice (-1) 0 0;
  k_ticks := 0;
  k_log_counter := 0;
  k_first := 1;
  k_sleeplocks := ∅;
  k_pipes := ∅;
  k_ftable := replicate NFILE zero_file;
  k_devsw := replicate NDEV (Devsw None None);
  k_itable := replicate NINODE zero_inode;
  k_sb := Superblock 0 0 0 0 0 0 0 0;
  k_bcache := replicate (S NBUF) zero_buf;
  k_log := Log 0 0 0 0 0 (replicate 30 0);
  k_vdisk := zero_vdisk;
  k_cons := Console (replicate 128 0) 0 0 0;
  k_tx_busy := 0;
  k_panicking := 0;
  k_panicked := 0;
  k_mmio_reads := 0;
  k_mmio_out := []
|}.
