(* ===== verification/Spinlock.v ===== *)
(** * Interrupt control, spinlocks and the current process

    The register accessors of kernel/riscv.h, kernel/spinlock.c, and [cpuid],
    [mycpu] and [myproc] of kernel/proc.c.  The lemmas describe a critical
    section on one hart: [acquire] on a free lock yields the state [acq], and
    [release] undoes it exactly, interrupt state included. *)

From S2P Require Import Prelude Riscv State.

(** ** Register accessors (kernel/riscv.h) *)

Definition csr_get (f : csrs → Z) : M Z := gets (λ s, f (h_csr (k_hw s))).
Definition csr_set (f : csrs → csrs) : M unit :=
  modify (λ s, s <| k_hw ::= set h_csr f |>).

Definition r_mhartid : M Z := csr_get csr_mhartid.
Definition r_mstatus : M Z := csr_get csr_mstatus.
Definition w_mstatus (x : Z) : M unit := csr_set (set csr_mstatus (λ _, x)).
Definition w_mepc (x : Z) : M unit := csr_set (set csr_mepc (λ _, x)).
Definition r_sstatus : M Z := csr_get csr_sstatus.
Definition w_sstatus (x : Z) : M unit := csr_set (set csr_sstatus (λ _, x)).
Definition r_sie : M Z := csr_get csr_sie.
Definition w_sie (x : Z) : M unit := csr_set (set csr_sie (λ _, x)).
Definition r_mie : M Z := csr_get csr_mie.
Definition w_mie (x : Z) : M unit := csr_set (set csr_mie (λ _, x)).
Definition w_sepc (x : Z) : M unit := csr_set (set csr_sepc (λ _, x)).
Definition r_sepc : M Z := csr_get csr_sepc.
Definition w_medeleg (x : Z) : M unit := csr_set (set csr_medeleg (λ _, x)).
Definition w_mideleg (x : Z) : M unit := csr_set (set csr_mideleg (λ _, x)).
Definition w_stvec (x : Z) : M unit := csr_set (set csr_stvec (λ _, x)).
Definition w_stimecmp (x : Z) : M unit := csr_set (set csr_stimecmp (λ _, x)).
Definition r_menvcfg : M Z := csr_get csr_menvcfg.
Definition w_menvcfg (x : Z) : M unit := csr_set (set csr_menvcfg (λ _, x)).
Definition w_pmpcfg0 (x : Z) : M unit := csr_set (set csr_pmpcfg0 (λ _, x)).
Definition w_pmpaddr0 (x : Z) : M unit := csr_set (set csr_pmpaddr0 (λ _, x)).
Definition w_satp (x : Z) : M unit := csr_set (set csr_satp (λ _, x)).
Definition r_satp : M Z := csr_get csr_satp.
Definition r_scause : M Z := csr_get csr_scause.
Definition r_stval : M Z := csr_get csr_stval.
Definition w_mcounteren (x : Z) : M unit := csr_set (set csr_mcounteren (λ _, x)).
Definition r_mcounteren : M Z := csr_get csr_mcounteren.
Definition r_time : M Z := csr_get csr_time.
Definition r_tp : M Z := csr_get csr_tp.
Definition w_tp (x : Z) : M unit := csr_set (set csr_tp (λ _, x)).

Definition intr_on : M unit := x ← r_sstatus; w_sstatus (Z.lor x SSTATUS_SIE).
Definition intr_off : M unit :=
  x ← r_sstatus; w_sstatus (Z.land x (u64 (Z.lnot SSTATUS_SIE))).
Definition intr_get : M Z :=
  x ← r_sstatus; mret (Z_of_bool (negb (Z.land x SSTATUS_SIE =? 0))).

(** ** The current CPU (kernel/proc.c) *)

Definition cpuid : M Z := id ← r_tp; mret (i32 id).

(** [mycpu()] returns a pointer into [cpus[]]: an index. *)
Definition mycpu : M nat :=
  id ← cpuid;
  if (0 <=? id) && (id <? Z.of_nat NCPU) then mret (Z.to_nat id) else ub.

Definition get_cpu (c : nat) : M cpu := λ s, of_option (h_cpus (k_hw s) !! c) s.
Definition upd_cpu (c : nat) (f : cpu → cpu) : M unit :=
  x ← get_cpu c;
  modify (λ s, s <| k_hw ::= set h_cpus (λ l, <[c := f x]> l) |>).

(** ** kernel/spinlock.c *)

Definition get_lock (lk : lock_id) : M spinlock := λ s, of_option (h_locks (k_hw s) !! lk) s.
Definition upd_lock (lk : lock_id) (f : spinlock → spinlock) : M unit :=
  l ← get_lock lk;
  modify (λ s, s <| k_hw ::= set h_locks (λ m, <[lk := f l]> m) |>).

Definition initlock (lk : lock_id) (name : string) : M unit :=
  modify (λ s, s <| k_hw ::= set h_locks (λ m, <[lk := Spinlock 0 name None]> m) |>).

Definition push_off : M unit :=
  old ← intr_get;
  intr_off;;
  c ← mycpu;
  x ← get_cpu c;
  when (c_noff x =? 0) (upd_cpu c (set c_intena (λ _, old)));;
  upd_cpu c (set c_noff (λ n, i32 (n + 1))).

Definition pop_off : M unit :=
  c ← mycpu;
  ie ← intr_get;
  if truth ie then panic "pop_off - interruptible" else
  x ← get_cpu c;
  if c_noff x <? 1 then panic "pop_off" else
  upd_cpu c (set c_noff (λ n, i32 (n - 1)));;
  x ← get_cpu c;
  when ((c_noff x =? 0) && truth (c_intena x)) intr_on.

Definition holding (lk : lock_id) : M bool :=
  l ← get_lock lk;
  if truth (lk_locked l) then (c ← mycpu; mret (bool_decide (lk_cpu l = Some c)))
  else mret false.

(** The atomic swap of [acquire] succeeds at once when the lock is free;
    otherwise this hart spins until another one releases the lock. *)
Definition acquire (lk : lock_id) : M unit :=
  push_off;;
  h ← holding lk;
  if (h : bool) then panic "acquire" else
  l ← get_lock lk;
  if truth (lk_locked l) then spin else
  upd_lock lk (set lk_locked (λ _, 1));;
  c ← mycpu;
  upd_lock lk (set lk_cpu (λ _, Some c)).

Definition release (lk : lock_id) : M unit :=
  h ← holding lk;
  if negb h then panic "release" else
  upd_lock lk (set lk_cpu (λ _, None));;
  upd_lock lk (set lk_locked (λ _, 0));;
  pop_off.

(** [myproc()]: the process of the current CPU, or null. *)
Definition myproc : M (option nat) :=
  push_off;;
  c ← mycpu;
  x ← get_cpu c;
  let p := c_proc x in
  pop_off;;
  mret p.

(** [myproc()] where the result is dereferenced at once. *)
Definition curproc : M nat := p ← myproc; of_option p.

(** ** Critical sections on one hart *)

(** Interrupts enabled, and the index of the current CPU. *)
Definition ie (h : hart) : bool := negb (Z.land (csr_sstatus (h_csr h)) SSTATUS_SIE =? 0).
Definition cur (h : hart) : nat := Z.to_nat (i32 (csr_tp (h_csr h))).
Definition cur_proc (h : hart) : option nat := h_cpus h !! cur h ≫= c_proc.

Definition tp_ok (h : hart) : Prop := 0 ≤ csr_tp (h_csr h) < Z.of_nat NCPU.

(** The hart is inside [n] nested [push_off]s. *)
Record hart_at (n : Z) (h : hart) : Prop := {
  ha_tp : tp_ok h;
  ha_ss : 0 ≤ csr_sstatus (h_csr h) < 2 ^ 64;
  ha_n : 0 ≤ n < 2 ^ 30;
  ha_cpu : ∃ c, h_cpus h !! cur h = Some c ∧ c_noff c = n ∧
           (n = 0 → c_intena c = Z_of_bool (ie h)) ∧ (0 < n → ie h = false)
}.

(** The same without the saved interrupt state, which [push_off] overwrites
    at the outermost level; [settle] is the hart with the saved state the next
    [push_off] would record. *)
Record hart_pre (n : Z) (h : hart) : Prop := {
  hp_tp : tp_ok h;
  hp_ss : 0 ≤ csr_sstatus (h_csr h) < 2 ^ 64;
  hp_n : 0 ≤ n < 2 ^ 30;
  hp_cpu : ∃ c, h_cpus h !! cur h = Some c ∧ c_noff c = n ∧ (0 < n → ie h = false)
}.

Definition cpu_settle (old : Z) (c : cpu) : cpu :=
  if c_noff c =? 0 then c <| c_intena := old |> else c.
Definition settle (h : hart) : hart :=
  h <| h_cpus ::= alter (cpu_settle (Z_of_bool (ie h))) (cur h) |>.

Definition lock_free (lk : lock_id) (h : hart) : Prop :=
  ∃ name, h_locks h !! lk = Some (Spinlock 0 name None).

Definition cpu_push (old : Z) (c : cpu) : cpu :=
  (if c_noff c =? 0 then c <| c_intena := old |> else c) <| c_noff ::= λ n, i32 (n + 1) |>.

Definition sie_off (h : hart) : hart :=
  h <| h_csr ::= set csr_sstatus (λ x, Z.land x (u64 (Z.lnot SSTATUS_SIE))) |>.

Definition push_hw (h : hart) : hart :=
  sie_off h <| h_cpus ::= alter (cpu_push (Z_of_bool (ie h))) (cur h) |>.

Definition lk_take (c : nat) (l : spinlock) : spinlock := Spinlock 1 (lk_name l) (Some c).

(** The hart after [acquire] of the free lock [lk]. *)
Definition acq (lk : lock_id) (h : hart) : hart :=
  push_hw h <| h_locks ::= alter (lk_take (cur h)) lk |>.

Lemma cur_tp h : tp_ok h → cur h = Z.to_nat (csr_tp (h_csr h)).
Proof. unfold tp_ok, cur, NCPU. intros H. rewrite i32_small; [done|lia]. Qed.

Lemma mycpu_run s : tp_ok (k_hw s) → mycpu s = Ret (cur (k_hw s)) s.
Proof.
  intros H. unfold mycpu, cpuid, r_tp, csr_get. mrun. rewrite cur_tp by done.
  unfold tp_ok in H. rewrite i32_small by (unfold NCPU in H; lia).
  repeat bdestruct_step; simpl; try done; lia.
Qed.

Lemma sie_bit_off x : Z.land (Z.land x (u64 (Z.lnot SSTATUS_SIE))) SSTATUS_SIE = 0.
Proof. rewrite <- Z.land_assoc. change (Z.land (u64 (Z.lnot SSTATUS_SIE)) SSTATUS_SIE) with 0. apply Z.land_0_r. Qed.

Lemma sie_mask_bit x i :
  0 ≤ x < 2 ^ 64 → 0 ≤ i → i ≠ 1 →
  Z.testbit (Z.land x (u64 (Z.lnot SSTATUS_SIE))) i = Z.testbit x i.
Proof.
  intros Hx Hi Hne. rewrite Z.land_spec. destruct (decide (i < 64)) as [Hlt|Hge].
  - unfold u64. rewrite Z.mod_pow2_bits_low by lia. rewrite Z.lnot_spec by lia.
    change SSTATUS_SIE with (2 ^ 1). rewrite Z.pow2_bits_false by lia. apply andb_true_r.
  - by rewrite (testbit_above 64 x i) by lia.
Qed.

Lemma sie_testbit x : Z.testbit x 1 = negb (Z.land x SSTATUS_SIE =? 0).
Proof.
  destruct (Z.eqb_spec (Z.land x SSTATUS_SIE) 0) as [E|E]; simpl.
  - apply (f_equal (λ z, Z.testbit z 1)) in E. rewrite Z.land_spec in E.
    change (Z.testbit SSTATUS_SIE 1) with true in E. by rewrite andb_true_r in E.
  - destruct (Z.testbit x 1) eqn:Hb; [done|]. destruct E.
    apply Z.bits_inj'. intros j Hj. rewrite Z.land_spec, Z.bits_0.
    destruct (decide (j = 1)) as [->|]; [by rewrite Hb|].
    change SSTATUS_SIE with (2 ^ 1). rewrite Z.pow2_bits_false by lia. apply andb_false_r.
Qed.

Lemma sie_off_id x :
  0 ≤ x < 2 ^ 64 → Z.land x SSTATUS_SIE = 0 → Z.land x (u64 (Z.lnot SSTATUS_SIE)) = x.
Proof.
  intros Hx H0. apply Z.bits_inj'. intros i Hi.
  destruct (decide (i = 1)) as [->|Hne]; [|by apply sie_mask_bit].
  rewrite Z.land_spec, sie_testbit, H0. done.
Qed.

Lemma sie_off_on x :
  0 ≤ x < 2 ^ 64 → Z.land x SSTATUS_SIE ≠ 0 →
  Z.lor (Z.land x (u64 (Z.lnot SSTATUS_SIE))) SSTATUS_SIE = x.
Proof.
  intros Hx H0. apply Z.bits_inj'. intros i Hi. rewrite Z.lor_spec.
  destruct (decide (i = 1)) as [->|Hne].
  - rewrite orb_true_r, sie_testbit. by destruct (Z.eqb_spec (Z.land x SSTATUS_SIE) 0).
  - rewrite sie_mask_bit by done. change (Z.testbit SSTATUS_SIE i) with (Z.testbit (2 ^ 1) i).
    rewrite Z.pow2_bits_false by lia. apply orb_false_r.
Qed.

Lemma sie_off_range x : 0 ≤ x < 2 ^ 64 → 0 ≤ Z.land x (u64 (Z.lnot SSTATUS_SIE)) < 2 ^ 64.
Proof.
  intros Hx. apply land_range; [lia|done|]. apply u64_range.
Qed.

Lemma lor_sie_range x : 0 ≤ x < 2 ^ 64 → 0 ≤ Z.lor x SSTATUS_SIE < 2 ^ 64.
Proof.
  intros Hx. assert (Hs : 0 ≤ SSTATUS_SIE) by done. assert (Hn : 0 ≤ Z.lor x SSTATUS_SIE) by (apply Z.lor_nonneg; lia).
  split; [done|]. destruct (decide (Z.lor x SSTATUS_SIE = 0)) as [->|Hne]; [lia|].
  apply Z.log2_lt_pow2; [lia|].
  rewrite Z.log2_lor by lia. apply Z.max_lub_lt; [|done].
  destruct (decide (x = 0)) as [->|]; [done|]. apply Z.log2_lt_pow2; lia.
Qed.

Lemma kernel_hw_id s : s <| k_hw := k_hw s |> = s.
Proof. by destruct s. Qed.

(** [push_off] and [pop_off] as functions on the hart. *)
Lemma upd_cpu_run s i c f :
  h_cpus (k_hw s) !! i = Some c →
  upd_cpu i f s = Ret tt (s <| k_hw ::= set h_cpus (alter f i) |>).
Proof.
  intros Hc. unfold upd_cpu, get_cpu. mrun. rewrite Hc. mrun.
  unfold set, set_k_hw, set_h_cpus. by rewrite (list_insert_alter f).
Qed.

Lemma upd_lock_run s lk l f :
  h_locks (k_hw s) !! lk = Some l →
  upd_lock lk f s = Ret tt (s <| k_hw ::= set h_locks (alter f lk) |>).
Proof.
  intros Hc. unfold upd_lock, get_lock. mrun. rewrite Hc. mrun.
  unfold set, set_k_hw, set_h_locks. by rewrite (map_insert_alter f).
Qed.

Lemma get_cpu_run s i c : h_cpus (k_hw s) !! i = Some c → get_cpu i s = Ret c s.
Proof. intros Hc. unfold get_cpu. by rewrite Hc. Qed.

Lemma get_lock_run s lk l : h_locks (k_hw s) !! lk = Some l → get_lock lk s = Ret l s.
Proof. intros Hc. unfold get_lock. by rewrite Hc. Qed.

Ltac hw_eq := cbv [set set_k_hw set_h_cpus set_h_csr set_h_locks sie_off]; ksimpl.

Lemma hart_at_pre n h : hart_at n h → hart_pre n h.
Proof. intros [? ? ? (c & Hc & Hn & ? & ?)]. split; try done. by exists c. Qed.

Lemma hart_at_settle n h : hart_pre n h → hart_at n (settle h).
Proof.
  intros [? ? ? (c & Hc & Hn & Hi)]. split; try done.
  exists (cpu_settle (Z_of_bool (ie h)) c).
  split; [unfold settle; ksimpl; change (cur _) with (cur h); by rewrite list_lookup_alter_eq, Hc|].
  unfold cpu_settle. destruct (Z.eqb_spec (c_noff c) 0); ksimpl; split_and!; try done; lia.
Qed.

Lemma push_hw_settle h : push_hw (settle h) = push_hw h.
Proof.
  unfold push_hw, settle, sie_off. destruct h as [csr cpus locks].
  cbv [ie cur]. hw_eq. f_equal. rewrite list_alter_alter_eq.
  apply list_alter_ext; [|done]. intros c _. unfold cpu_push, cpu_settle, compose.
  destruct (c_noff c =? 0) eqn:E; ksimpl; by rewrite E.
Qed.

Lemma settle_id n h : hart_at n h → settle h = h.
Proof.
  intros [_ _ _ (c & Hc & Hn & Hi & _)]. unfold settle. destruct h as [csr cpus locks].
  hw_eq. f_equal. apply list_alter_id'. intros x Hx. ksimpl_in Hc. simplify_eq.
  unfold cpu_settle. destruct (Z.eqb_spec (c_noff c) 0) as [E|]; [|done].
  specialize (Hi E). destruct c; cbv [set set_c_intena]; ksimpl. ksimpl_in Hi. by rewrite Hi.
Qed.

Lemma push_off_run n s :
  hart_pre n (k_hw s) → push_off s = Ret tt (s <| k_hw := push_hw (k_hw s) |>).
Proof.
  intros [Htp Hss Hn (c & Hc & Hoff & Hi)].
  unfold push_off, intr_get, intr_off, r_sstatus, w_sstatus, csr_get, csr_set.
  mrun_with mycpu_run; [|done]. mrun_with (get_cpu_run _ _ c); [|done].
  rewrite Hoff. unfold push_hw. change (cur (k_hw _)) with (cur (k_hw s)).
  destruct (Z.eqb_spec n 0) as [E|E].
  - mrun_with (upd_cpu_run _ _ c); [|done]. erewrite upd_cpu_run.
    2:{ ksimpl. rewrite list_lookup_alter_eq, Hc. reflexivity. }
    hw_eq. do 3 f_equal. rewrite list_alter_alter_eq.
    apply list_alter_ext; [|done]. intros x Hx. assert (x = c) as -> by congruence.
    unfold cpu_push. by rewrite Hoff, E.
  - mrun_with (upd_cpu_run _ _ c); [|done].
    hw_eq. do 3 f_equal. apply list_alter_ext; [|done].
    intros x Hx. assert (x = c) as -> by congruence.
    unfold cpu_push. rewrite Hoff. by destruct (Z.eqb_spec n 0).
Qed.

Lemma ie_push_hw h : ie (push_hw h) = false.
Proof. unfold ie, push_hw, sie_off. ksimpl. by rewrite sie_bit_off. Qed.

Lemma cur_push_hw h : cur (push_hw h) = cur h.
Proof. done. Qed.

Lemma lookup_push_hw h c :
  h_cpus h !! cur h = Some c →
  h_cpus (push_hw h) !! cur h = Some (cpu_push (Z_of_bool (ie h)) c).
Proof. intros Hc. unfold push_hw, sie_off. ksimpl. by rewrite list_lookup_alter_eq, Hc. Qed.

Lemma hart_at_push n h :
  hart_at n h → n + 1 < 2 ^ 30 → hart_at (n + 1) (push_hw h).
Proof.
  intros [Htp Hss Hn (c & Hc & Hoff & Hi)] Hn'. split; [done| |lia|].
  - by apply sie_off_range.
  - eexists. rewrite cur_push_hw. split; [by apply lookup_push_hw|].
    split_and!; [|lia|intros _; apply ie_push_hw].
    unfold cpu_push. destruct (c_noff c =? 0); ksimpl; rewrite Hoff, i32_small; lia.
Qed.

(** Undoing [push_hw]: first the nesting count, then the interrupt bit. *)
Lemma cpu_push_undo n (ie : bool) c :
  0 ≤ n < 2 ^ 30 → c_noff c = n → (n = 0 → c_intena c = Z_of_bool ie) →
  set c_noff (λ n, i32 (n - 1)) (cpu_push (Z_of_bool ie) c) = c.
Proof.
  intros Hn Hoff Hi. unfold cpu_push. destruct c as [pr ctx noff ien]; ksimpl_in Hoff; ksimpl_in Hi.
  cbv [set set_c_noff set_c_intena]; ksimpl. subst noff.
  assert (Hb : i32 (i32 (n + 1) - 1) = n) by (rewrite (i32_small (n + 1)), i32_small; lia).
  destruct (Z.eqb_spec n 0) as [->|]; ksimpl; rewrite Hb; [|done]. by rewrite Hi.
Qed.

Lemma push_hw_undo h c :
  h_cpus h !! cur h = Some c →
  set c_noff (λ n, i32 (n - 1)) (cpu_push (Z_of_bool (ie h)) c) = c →
  push_hw h <| h_cpus ::= alter (set c_noff (λ n, i32 (n - 1))) (cur h) |> = sie_off h.
Proof.
  intros Hc Hu. unfold push_hw, sie_off. destruct h as [csr cpus locks].
  hw_eq. f_equal. rewrite list_alter_alter_eq. apply list_alter_id'.
  intros x Hx. cbn in *. by simplify_eq.
Qed.

Lemma sie_off_off h : 0 ≤ csr_sstatus (h_csr h) < 2 ^ 64 → ie h = false → sie_off h = h.
Proof.
  intros Hss Hf. destruct h as [[] cpus locks]. cbv [sie_off set set_h_csr set_csr_sstatus]; ksimpl.
  cbn in Hss. do 2 f_equal. apply sie_off_id; [done|].
  unfold ie in Hf. ksimpl_in Hf. by destruct (Z.eqb_spec (Z.land csr_sstatus SSTATUS_SIE) 0).
Qed.

Lemma sie_off_back h :
  0 ≤ csr_sstatus (h_csr h) < 2 ^ 64 → ie h = true →
  sie_off h <| h_csr ::= set csr_sstatus (λ x, Z.lor x SSTATUS_SIE) |> = h.
Proof.
  intros Hss Hf. destruct h as [[] cpus locks]. cbv [sie_off set set_h_csr set_csr_sstatus]; ksimpl.
  cbn in Hss. do 2 f_equal. apply sie_off_on; [done|].
  unfold ie in Hf. ksimpl_in Hf. by destruct (Z.eqb_spec (Z.land csr_sstatus SSTATUS_SIE) 0).
Qed.

Lemma pop_off_run n h s :
  hart_at n h → k_hw s = push_hw h → pop_off s = Ret tt (s <| k_hw := h |>).
Proof.
  intros [Htp Hss Hn (c & Hc & Hoff & Hi & Hie)] Hs.
  assert (Hcur : cur (k_hw s) = cur h) by by rewrite Hs.
  pose proof (lookup_push_hw h c Hc) as Hp. rewrite <- Hs in Hp.
  pose proof (cpu_push_undo n (ie h) c Hn Hoff Hi) as Hu.
  unfold pop_off, intr_get, r_sstatus, csr_get.
  mrun_with mycpu_run; [|by rewrite Hs]. rewrite Hcur.
  pose proof (ie_push_hw h) as Hf. unfold ie in Hf at 1. rewrite <- Hs in Hf. rewrite Hf. cbn.
  mrun_with (get_cpu_run _ _ _ Hp).
  assert (c_noff (cpu_push (Z_of_bool (ie h)) c) = n + 1) as ->.
  { unfold cpu_push. destruct (c_noff c =? 0); ksimpl; rewrite Hoff, i32_small; lia. }
  destruct (Z.ltb_spec (n + 1) 1); [lia|].
  mrun_with (upd_cpu_run _ _ _ _ Hp).
  erewrite get_cpu_run; [mrun|ksimpl; rewrite list_lookup_alter_eq, Hp; simpl; by rewrite Hu].
  rewrite Hoff. unfold intr_on, r_sstatus, w_sstatus, csr_get, csr_set. mrun.
  assert (Hd : s <| k_hw ::= set h_cpus (alter (set c_noff (λ n0, i32 (n0 - 1))) (cur h)) |>
             = s <| k_hw := sie_off h |>).
  { rewrite <- (push_hw_undo h c Hc Hu), <- Hs. done. }
  rewrite Hd. destruct (Z.eqb_spec n 0) as [E|E].
  - rewrite (Hi E). destruct (ie h) eqn:Hie'; mrun.
    + pose proof (sie_off_back h Hss Hie') as Hb.
      transitivity (Ret tt (s <| k_hw := sie_off h <| h_csr ::= set csr_sstatus (λ x, Z.lor x SSTATUS_SIE) |> |>));
        [done|by rewrite Hb].
    + by rewrite (sie_off_off h).
  - mrun. rewrite (sie_off_off h); [done|done|]. apply Hie. lia.
Qed.

(** Locks: the free lock [lk] after [acquire] and after [release]. *)
Lemma hart_at_acq n lk h : hart_at n h → n + 1 < 2 ^ 30 → hart_at (n + 1) (acq lk h).
Proof.
  intros H Hn. destruct (hart_at_push n h H Hn) as [Htp Hss Hn' Hc].
  by split.
Qed.

Lemma lock_free_acq lk lk' h : lk ≠ lk' → lock_free lk' h → lock_free lk' (acq lk h).
Proof.
  intros Hne (name & Hl). exists name. unfold acq, push_hw, sie_off. ksimpl.
  by rewrite lookup_alter_ne.
Qed.

Lemma lock_free_push lk h : lock_free lk h → lock_free lk (push_hw h).
Proof. done. Qed.

Lemma cur_acq lk h : cur (acq lk h) = cur h.
Proof. done. Qed.

Lemma holding_free lk s : lock_free lk (k_hw s) → holding lk s = Ret false s.
Proof. intros (name & Hl). unfold holding. mrun_with (get_lock_run _ _ _ Hl). done. Qed.

Lemma holding_taken lk s l :
  tp_ok (k_hw s) → h_locks (k_hw s) !! lk = Some l → lk_locked l = 1 →
  lk_cpu l = Some (cur (k_hw s)) → holding lk s = Ret true s.
Proof.
  intros Htp Hl H1 Hc. unfold holding. mrun_with (get_lock_run _ _ _ Hl). rewrite H1. cbn.
  mrun_with (mycpu_run s Htp). by rewrite bool_decide_true.
Qed.

Lemma acquire_run_pre n lk s :
  hart_pre n (k_hw s) → lock_free lk (k_hw s) →
  acquire lk s = Ret tt (s <| k_hw := acq lk (k_hw s) |>).
Proof.
  intros H (name & Hl). unfold acquire. mrun_with (push_off_run n s H).
  mrun_with holding_free; [|by exists name].
  mrun_with get_lock_run; [|exact Hl]. cbn [lk_locked truth negb Z.eqb].
  mrun_with upd_lock_run; [|exact Hl]. mrun_with mycpu_run; [|apply H].
  erewrite upd_lock_run.
  2:{ ksimpl. rewrite lookup_alter_eq. change (h_locks (push_hw (k_hw s))) with (h_locks (k_hw s)).
      rewrite Hl. reflexivity. }
  unfold acq. hw_eq. do 3 f_equal. rewrite alter_alter_eq.
  apply alter_ext. intros l Hl'. ksimpl_in Hl'. by simplify_eq.
Qed.

Lemma acq_settle lk h : acq lk (settle h) = acq lk h.
Proof. unfold acq. by rewrite push_hw_settle. Qed.

Lemma acquire_run n lk s :
  hart_at n (k_hw s) → lock_free lk (k_hw s) →
  acquire lk s = Ret tt (s <| k_hw := acq lk (k_hw s) |>).
Proof. intros H Hl. by apply (acquire_run_pre n); [apply hart_at_pre|]. Qed.

Lemma release_run n lk h s :
  hart_at n h → lock_free lk h → k_hw s = acq lk h →
  release lk s = Ret tt (s <| k_hw := h |>).
Proof.
  intros H (name & Hl) Hs.
  assert (Ht : h_locks (k_hw s) !! lk = Some (Spinlock 1 name (Some (cur h)))).
  { rewrite Hs. unfold acq. ksimpl. rewrite lookup_alter_eq.
    change (h_locks (push_hw h)) with (h_locks h). by rewrite Hl. }
  assert (Htp : tp_ok (k_hw s)) by (rewrite Hs; apply H).
  unfold release. rewrite bind_run, (holding_taken lk s _ Htp Ht); [|done|by rewrite Hs]. mrun.
  cbn [negb]. mrun_with (upd_lock_run _ _ _ _ Ht). erewrite upd_lock_run.
  2:{ ksimpl. rewrite lookup_alter_eq, Ht. reflexivity. }
  mrun_with (pop_off_run n h); [done|done|]. ksimpl. rewrite Hs. unfold acq. destruct h as [csr cpus locks].
  hw_eq. rewrite !alter_alter_eq, alter_id; [done|].
  intros x Hx. cbn in Hx, Hl. rewrite Hl in Hx. by simplify_eq.
Qed.

Lemma acq_comm lk lk' h : lk ≠ lk' → acq lk (acq lk' h) = acq lk' (acq lk h).
Proof.
  intros Hne. unfold acq, push_hw, sie_off. cbv [ie cur]. hw_eq. f_equal.
  by apply alter_alter_ne.
Qed.

Lemma myproc_run n s : hart_at n (k_hw s) → myproc s = Ret (cur_proc (k_hw s)) s.
Proof.
  intros H. unfold myproc. mrun_with (push_off_run n s (hart_at_pre _ _ H)).
  destruct (ha_cpu _ _ H) as (c & Hc & _). unfold cur_proc. rewrite Hc. cbn [mbind option_bind].
  mrun_with mycpu_run; [|apply H]. mrun_with get_cpu_run; [|exact (lookup_push_hw _ _ Hc)].
  mrun_with (pop_off_run n (k_hw s)); [|done|done].
  unfold cpu_push. destruct (c_noff c =? 0); ksimpl; f_equal; exact (kernel_hw_id s).
Qed.

Lemma curproc_run n s p : hart_at n (k_hw s) → cur_proc (k_hw s) = Some p → curproc s = Ret p s.
Proof. intros H Hp. unfold curproc. mrun_with (myproc_run n s H). by rewrite Hp. Qed.

Lemma cur_proc_acq lk h : cur_proc (acq lk h) = cur_proc h.
Proof.
  unfold cur_proc. rewrite cur_acq. unfold acq, push_hw, sie_off. ksimpl.
  rewrite list_lookup_alter_eq. destruct (h_cpus h !! cur h) as [c|]; [|done]. cbn.
  unfold cpu_push. by destruct (c_noff c =? 0).
Qed.
