(* ===== verification/ProcTable.v ===== *)
(** * Loops over the process table

    Lemmas shared by everything that sweeps [proc[]] taking one [p->lock] at
    a time: the loop combinators of State.v, the accessors of the table, and
    the critical section of one process. *)

From S2P Require Import Prelude Riscv State Spinlock.

#[local] Arguments Nat.leb : simpl never.

(** ** Accessors *)

Lemma get_proc_run s i x : k_procs s !! i = Some x → get_proc i s = Ret x s.
Proof. intros Hx. unfold get_proc. by rewrite Hx. Qed.

Lemma upd_proc_run s i x f :
  k_procs s !! i = Some x →
  upd_proc i f s = Ret tt (s <| k_procs ::= alter f i |>).
Proof.
  intros Hx. unfold upd_proc. mrun_with (get_proc_run s i x Hx).
  unfold set, set_k_procs. by rewrite (list_insert_alter f).
Qed.

Lemma procs_insert_alter s i x f :
  k_procs s !! i = Some x →
  s <| k_procs ::= alter f i |> = s <| k_procs := <[i := f x]> (k_procs s) |>.
Proof. intros Hx. unfold set, set_k_procs. by rewrite (list_insert_alter f). Qed.

Lemma kernel_procs_id s : s <| k_procs := k_procs s |> = s.
Proof. by destruct s. Qed.

(** ** The loop combinators *)

(** A sweep whose body changes only the entry it is at. *)
Definition map_from {A} (k : nat) (f : nat → A → A) (l : list A) : list A :=
  imap (λ i x, if (k <=? i)%nat then f i x else x) l.

Lemma map_from_all {A} (f : nat → A → A) l : map_from 0 f l = imap f l.
Proof. done. Qed.

Lemma map_from_none {A} (f : nat → A → A) l : map_from (length l) f l = l.
Proof.
  apply list_eq. intros i. unfold map_from. rewrite list_lookup_imap.
  destruct (l !! i) as [x|] eqn:E; simpl; [|done].
  apply lookup_lt_Some in E. by destruct (Nat.leb_spec (length l) i); [lia|].
Qed.

Lemma map_from_step {A} k (f : nat → A → A) l :
  map_from (S k) f (alter (f k) k l) = map_from k f l.
Proof.
  apply list_eq. intros i. unfold map_from. rewrite !list_lookup_imap.
  destruct (decide (i = k)) as [->|Hne].
  - rewrite list_lookup_alter_eq. destruct (l !! k); simpl; [|done].
    by destruct (Nat.leb_spec (S k) k), (Nat.leb_spec k k); try lia.
  - rewrite list_lookup_alter_ne by done. destruct (l !! i); simpl; [|done].
    by destruct (Nat.leb_spec (S k) i), (Nat.leb_spec k i); try lia.
Qed.

Lemma for_each_procs_from (f : nat → proc → proc) body h n k s :
  (∀ i x s', (i < k + n)%nat → k_hw s' = h → k_procs s' !! i = Some x →
     body i s' = Ret tt (s' <| k_procs ::= alter (f i) i |>)) →
  k_hw s = h → length (k_procs s) = (k + n)%nat →
  for_each (seq k n) body s = Ret tt (s <| k_procs := map_from k f (k_procs s) |>).
Proof.
  revert k s. induction n as [|n IH]; intros k s Hb Hh Hlen; cbn [seq for_each].
  - mrun. rewrite Nat.add_0_r in Hlen. rewrite <- Hlen, map_from_none.
    by rewrite kernel_procs_id.
  - destruct (lookup_lt_is_Some_2 (k_procs s) k) as [x Hx]; [lia|].
    mrun. rewrite (Hb k x s) by (done || lia). mrun. rewrite IH; [| |done|].
    + ksimpl. by rewrite map_from_step.
    + intros i y s' Hi. apply Hb. lia.
    + ksimpl. rewrite length_alter. lia.
Qed.

Lemma for_each_procs (f : nat → proc → proc) body s :
  (∀ i x s', (i < NPROC)%nat → k_hw s' = k_hw s → k_procs s' !! i = Some x →
     body i s' = Ret tt (s' <| k_procs ::= alter (f i) i |>)) →
  length (k_procs s) = NPROC →
  for_each (seq 0 NPROC) body s = Ret tt (s <| k_procs ::= imap f |>).
Proof.
  intros Hb Hlen. rewrite (for_each_procs_from f body (k_hw s)); [|done|done|done].
  by rewrite map_from_all.
Qed.

(** A search whose body leaves the state alone until it stops. *)
Lemma for_ret_skip {A B} (l1 l2 : list A) (body : A → M (option B)) s :
  (∀ x, x ∈ l1 → body x s = Ret None s) →
  for_ret (l1 ++ l2) body s = for_ret l2 body s.
Proof.
  induction l1 as [|x l1 IH]; intros Hb; [done|]. cbn [app for_ret]. mrun.
  rewrite Hb by set_solver. mrun. apply IH. intros y Hy. apply Hb. set_solver.
Qed.

Lemma for_fold_skip {A X} (l1 l2 : list A) (body : X → A → M X) a s :
  (∀ x, x ∈ l1 → body a x s = Ret a s) →
  for_fold (l1 ++ l2) body a s = for_fold l2 body a s.
Proof.
  induction l1 as [|x l1 IH]; intros Hb; [done|]. cbn [app for_fold]. mrun.
  rewrite Hb by set_solver. mrun. apply IH. intros y Hy. apply Hb. set_solver.
Qed.

(** ** Searching the table *)

Definition find_proc (P : proc → bool) (l : list proc) : option nat :=
  fst <$> list_find (λ x, Is_true (P x)) l.

Lemma find_proc_Some P l i :
  find_proc P l = Some i ↔
  (∃ x, l !! i = Some x ∧ P x = true) ∧
  (∀ j y, l !! j = Some y → (j < i)%nat → P y = false).
Proof.
  unfold find_proc. split.
  - intros Hf. destruct (list_find _ l) as [[j x]|] eqn:E; simplify_eq/=.
    apply list_find_Some in E as (Hx & HP & Hmin). split.
    + exists x. split; [done|]. by apply Is_true_true.
    + intros j y Hy Hj. specialize (Hmin j y Hy Hj). by apply Is_true_false.
  - intros ((x & Hx & HP) & Hmin).
    assert (list_find (λ x, Is_true (P x)) l = Some (i, x)) as ->; [|done].
    apply list_find_Some. split_and!; [done|by apply Is_true_true|].
    intros j y Hy Hj. apply Is_true_false. by apply (Hmin j).
Qed.

Lemma find_proc_None P l :
  find_proc P l = None ↔ (∀ i y, l !! i = Some y → P y = false).
Proof.
  unfold find_proc. rewrite fmap_None, list_find_None, Forall_lookup. split.
  - intros Hf i y Hy. apply Is_true_false. by eapply Hf.
  - intros Hf i y Hy. apply Is_true_false. by eapply Hf.
Qed.

Lemma find_proc_lt P l i : find_proc P l = Some i → (i < length l)%nat.
Proof. intros ((x & Hx & _) & _)%find_proc_Some. by eapply lookup_lt_Some. Qed.

Lemma seq_split i n : (i < n)%nat → seq 0 n = seq 0 i ++ i :: seq (S i) (n - S i).
Proof.
  intros Hi. replace n with (i + S (n - S i))%nat at 1 by lia.
  by rewrite seq_app.
Qed.

(** ** One process's critical section *)

Definition proc_locks_free (h : hart) : Prop :=
  ∀ i, (i < NPROC)%nat → lock_free (L_proc i) h.

(** Nothing is in the way of a sweep: interrupts are at nesting [n], no
    [p->lock] is held and the table has its full length. *)
Record sweepable (n : Z) (s : kernel) : Prop := {
  sw_hart : hart_at n (k_hw s);
  sw_free : proc_locks_free (k_hw s);
  sw_len : length (k_procs s) = NPROC
}.

Lemma sweepable_lookup n s i : sweepable n s → (i < NPROC)%nat → ∃ x, k_procs s !! i = Some x.
Proof. intros [_ _ Hl] Hi. apply lookup_lt_is_Some_2. lia. Qed.

Lemma sweepable_bound n s i x : sweepable n s → k_procs s !! i = Some x → (i < NPROC)%nat.
Proof. intros [_ _ Hl] Hx%lookup_lt_Some. lia. Qed.

(** [acquire(&p->lock); ...; release(&p->lock)] around a change of entry [i]. *)
Lemma proc_section_run n h i s (m : M unit) f :
  hart_at n h → lock_free (L_proc i) h → k_hw s = h →
  m (s <| k_hw := acq (L_proc i) h |>) =
    Ret tt (s <| k_hw := acq (L_proc i) h |> <| k_procs ::= f |>) →
  (acquire (L_proc i);; m;; release (L_proc i)) s = Ret tt (s <| k_procs ::= f |>).
Proof.
  intros Hh Hf <- Hm. mrun_with (acquire_run n); [|done|done].
  rewrite Hm. mrun. erewrite release_run; [|exact Hh|done|done].
  done.
Qed.
