(* ===== verification/Machine.v ===== *)
(** * A small concrete machine

    A state in which the table holds four processes and every static lock is
    initialised and free: process 0 (pid 1) sleeps on [&ticks], 1 (pid 2) and
    2 (pid 3) are ready, 3 (pid 4) runs on CPU 0.  The theorems are evaluated on it. *)

From S2P Require Import Prelude Riscv State Boot Spinlock ProcTable.

Definition demo_image : Image := {|
  end_ := PHYSTOP - 8 * PGSIZE; etext := 0x80008000; trampoline := 0x80007000;
  uservec := 0x80007000; userret := 0x80007090; kernelvec := 0x80005000;
  forkret_addr := 0x80001000; usertrap_addr := 0x80002000; main_addr := 0x80000100 |}.

(** Every status register reads as ready. *)
Definition demo_device : Device := {| mmio_in _ _ := 0x20 |}.

Definition demo_lock (lk : lock_id) : lock_id * spinlock := (lk, Spinlock 0 "lock" None).
Definition demo_locks : gmap lock_id spinlock :=
  list_to_map (demo_lock <$>
    [L_pid; L_wait; L_llm; L_ticks; L_kmem; L_ftable; L_itable; L_bcache; L_log; L_vdisk;
     L_cons; L_pr; L_tx] ++ (L_proc <$> seq 0 NPROC)).

Definition demo_proc (st : procstate) (ch : chan_id) (pid : Z) : proc :=
  zero_proc <| p_state := st |> <| p_chan := ch |> <| p_pid := pid |>.

(** CPU 0 runs process [p], with interrupts on. *)
Definition demo_hart (p : option nat) : hart :=
  Hart (zero_csrs <| csr_sstatus := 2 |>)
    ((Cpu p zero_context 0 1) :: replicate (NCPU - 1) zero_cpu) demo_locks.

Definition demo_procs : list proc :=
  [demo_proc SLEEPING Ch_ticks 1; demo_proc RUNNABLE Ch_null 2;
   demo_proc RUNNABLE Ch_null 3; demo_proc RUNNING Ch_null 4] ++ replicate (NPROC - 4) zero_proc.

(** Between two processes, in the scheduler. *)
Definition demo : kernel :=
  boot_state <| k_hw := demo_hart None |> <| k_procs := demo_procs |> <| k_nextpid := 5 |>.

(** In process 3. *)
Definition demo_run : kernel := demo <| k_hw := demo_hart (Some 3%nat) |>.

Lemma demo_hart_at p : hart_at 0 (demo_hart p).
Proof.
  split; [done|done|done|]. exists (Cpu p zero_context 0 1). by split_and!.
Qed.

Definition is_free (h : hart) (lk : lock_id) : bool :=
  match h_locks h !! lk with
  | Some (Spinlock 0 _ None) => true
  | _ => false
  end.

Lemma is_free_lock_free h lk : is_free h lk = true → lock_free lk h.
Proof.
  unfold is_free, lock_free. destruct (h_locks h !! lk) as [[[] ? []]|]; try done. by eexists.
Qed.

Lemma demo_proc_locks p : proc_locks_free (demo_hart p).
Proof.
  intros i Hi. apply is_free_lock_free. revert i Hi.
  assert (Hall : forallb (λ i, is_free (demo_hart p) (L_proc i)) (seq 0 NPROC) = true) by (by vm_compute).
  intros i Hi. rewrite forallb_forall in Hall. apply Hall, in_seq. lia.
Qed.

Lemma demo_sweepable p : sweepable 0 (demo <| k_hw := demo_hart p |>).
Proof. split; [apply demo_hart_at|apply demo_proc_locks|done]. Qed.
