(* ===== verification/SpinlockSpec.v ===== *)
(** * Spinlock theorems: nesting, misuse and contention

    Critical sections nest: taking locks and giving them back in any order
    restores the hart, interrupt state included.  Every misuse the code checks
    for ends in a panic, and a lock another CPU holds is waited for. *)

From S2P Require Import Prelude Riscv State Boot Spinlock ProcTable Machine.

(** The hart after [acquire] of every lock of the list. *)
Definition acq_all (lks : list lock_id) (h : hart) : hart := foldr acq h lks.

Lemma acq_all_perm lks lks' h : NoDup lks → lks ≡ₚ lks' → acq_all lks h = acq_all lks' h.
Proof.
  intros Hnd Hp. revert Hnd. induction Hp as [|x l l' Hp IH|x y l|l l' l'' Hp IH Hp' IH']; intros Hnd; cbn [acq_all foldr].
  - done.
  - apply list.NoDup_cons in Hnd as [_ Hnd]. fold (acq_all l h) (acq_all l' h). by rewrite IH.
  - apply list.NoDup_cons in Hnd as [Hy _]. apply acq_comm. set_solver.
  - rewrite IH by done. apply IH'. by rewrite <- Hp.
Qed.

Lemma hart_at_acq_all n lks h :
  hart_at n h → n + Z.of_nat (length lks) < 2 ^ 30 → hart_at (n + Z.of_nat (length lks)) (acq_all lks h).
Proof.
  intros Hh. induction lks as [|lk lks IH]; cbn [acq_all foldr length]; intros Hn.
  - by replace (n + Z.of_nat 0) with n by lia.
  - replace (n + Z.of_nat (S (length lks))) with (n + Z.of_nat (length lks) + 1) by lia.
    apply hart_at_acq; [apply IH; lia|lia].
Qed.

Lemma lock_free_acq_all lk lks h : lk ∉ lks → lock_free lk h → lock_free lk (acq_all lks h).
Proof.
  intros Hni Hl. induction lks as [|lk' lks IH]; cbn [acq_all foldr]; [done|].
  apply lock_free_acq; set_solver.
Qed.

Lemma ie_acq lk h : ie (acq lk h) = false.
Proof. exact (ie_push_hw h). Qed.

(** Releasing a lock from the middle. *)
Lemma release_one n lk lks h s :
  hart_at n h → NoDup (lk :: lks) → (∀ x, x ∈ lk :: lks → lock_free x h) →
  n + Z.of_nat (length lks) < 2 ^ 30 → k_hw s = acq_all (lk :: lks) h →
  release lk s = Ret tt (s <| k_hw := acq_all lks h |>).
Proof.
  intros Hh Hnd Hf Hn Hs. apply list.NoDup_cons in Hnd as [Hni _].
  eapply (release_run (n + Z.of_nat (length lks))); [by apply hart_at_acq_all| |exact Hs].
  apply lock_free_acq_all; [done|]. apply Hf. set_solver.
Qed.

(** Give the locks of the list back, the first one first. *)
Definition release_all (lks : list lock_id) : M unit := for_each lks release.
Definition acquire_all (lks : list lock_id) : M unit := for_each lks acquire.

Lemma release_all_run n lks lks' h s :
  hart_at n h → NoDup lks → (∀ x, x ∈ lks → lock_free x h) → n + Z.of_nat (length lks) < 2 ^ 30 →
  lks' ≡ₚ lks → k_hw s = acq_all lks h →
  release_all lks' s = Ret tt (s <| k_hw := h |>).
Proof.
  intros Hh. revert lks s. induction lks' as [|lk lks' IH]; intros lks s Hnd Hf Hn Hp Hs.
  - apply Permutation_nil_l in Hp as <-. cbn in Hs. unfold release_all. cbn [for_each]. mrun.
    rewrite <- Hs. by rewrite kernel_hw_id.
  - assert (Hnd' : NoDup (lk :: lks')) by (by rewrite Hp).
    assert (Hs' : k_hw s = acq_all (lk :: lks') h) by (rewrite Hs; by apply acq_all_perm).
    unfold release_all. cbn [for_each]. mrun_with (release_one n lk lks' h s Hh Hnd'); [|..|exact Hs'].
    + fold (release_all lks'). rewrite (IH lks' (s <| k_hw := acq_all lks' h |>)); [done|..].
      * by apply list.NoDup_cons in Hnd' as [_ ?].
      * intros x Hx. apply Hf. rewrite <- Hp. set_solver.
      * apply Permutation_length in Hp. cbn in Hp. lia.
      * done.
      * done.
    + intros x Hx. apply Hf. by rewrite <- Hp.
    + apply Permutation_length in Hp. cbn in Hp. lia.
Qed.

Lemma acquire_all_run n lks lks0 h s :
  hart_at n h → NoDup (lks ++ lks0) → (∀ x, x ∈ lks ++ lks0 → lock_free x h) →
  n + Z.of_nat (length (lks ++ lks0)) < 2 ^ 30 → k_hw s = acq_all lks0 h →
  acquire_all lks s = Ret tt (s <| k_hw := acq_all (reverse lks ++ lks0) h |>).
Proof.
  intros Hh. revert lks0 s. induction lks as [|lk lks IH]; intros lks0 s Hnd Hf Hn Hs.
  - change (reverse [] ++ lks0) with lks0. rewrite <- Hs, kernel_hw_id. done.
  - cbn [app length] in *. apply list.NoDup_cons in Hnd as [Hni Hnd].
    assert (Hl : lock_free lk (k_hw s)).
    { rewrite Hs. apply lock_free_acq_all; [set_solver|]. apply Hf. set_solver. }
    assert (Hh' : hart_at (n + Z.of_nat (length lks0)) (k_hw s)).
    { rewrite Hs. apply hart_at_acq_all; [done|]. rewrite length_app in Hn. lia. }
    unfold acquire_all. cbn [for_each]. mrun_with (acquire_run _ lk s Hh' Hl). fold (acquire_all lks).
    rewrite (IH (lk :: lks0)).
    + rewrite reverse_cons, <- app_assoc. done.
    + rewrite <- Permutation_middle. by apply list.NoDup_cons.
    + intros x. rewrite elem_of_app, elem_of_cons. intros Hx. apply Hf. rewrite elem_of_cons, elem_of_app. tauto.
    + rewrite length_app in *. cbn in *. lia.
    + ksimpl. by rewrite Hs.
Qed.

(** ** Theorems *)

(** C37: critical sections nest.  A hart that takes any set of free locks and
    then gives them back, in whatever order, is left exactly as it was: locks
    free, nesting depth and interrupt-enable bit restored.  While at least one
    of the locks is held interrupts are off. *)
Theorem nested_locks_restore n lks lks' s :
  hart_at n (k_hw s) → NoDup lks → (∀ lk, lk ∈ lks → lock_free lk (k_hw s)) →
  n + Z.of_nat (length lks) < 2 ^ 30 → lks' ≡ₚ lks →
  ∃ s1, acquire_all lks s = Ret tt s1 ∧ (lks ≠ [] → ie (k_hw s1) = false) ∧
    (∀ lk, lk ∈ lks → holding lk s1 = Ret true s1) ∧
    release_all lks' s1 = Ret tt s.
Proof.
  intros Hh Hnd Hf Hn Hp.
  assert (Hnd' : NoDup (reverse lks)) by (by rewrite reverse_Permutation).
  set (s1 := s <| k_hw := acq_all (reverse lks) (k_hw s) |>).
  assert (Hacq : acquire_all lks s = Ret tt s1).
  { rewrite (acquire_all_run n lks [] (k_hw s) s); rewrite ?app_nil_r; done. }
  exists s1. split_and!; [done| | |].
  - intros Hne. unfold s1. ksimpl. destruct (reverse lks) as [|lk l] eqn:E.
    + apply (f_equal reverse) in E. rewrite reverse_involutive in E. done.
    + apply ie_acq.
  - intros lk Hlk. apply elem_of_Permutation in Hlk as [l Hl].
    assert (Hl' : acq_all (reverse lks) (k_hw s) = acq lk (acq_all l (k_hw s))).
    { apply (acq_all_perm _ (lk :: l)); [done|]. by rewrite reverse_Permutation. }
    assert (Hni : lk ∉ l) by (rewrite Hl in Hnd; by apply list.NoDup_cons in Hnd as [? _]).
    destruct (lock_free_acq_all lk l (k_hw s)) as [name Hname]; [done|apply Hf; rewrite Hl; set_solver|].
    eapply (holding_taken lk s1 (Spinlock 1 name (Some (cur (acq_all l (k_hw s))))));
      [|unfold s1; ksimpl; rewrite Hl'|done|].
    + pose proof (hart_at_acq_all n (reverse lks) (k_hw s) Hh) as Ht. rewrite length_reverse in Ht. by apply Ht.
    + unfold acq, push_hw, sie_off. ksimpl. by rewrite lookup_alter_eq, Hname.
    + unfold s1. ksimpl. by rewrite Hl', cur_acq.
  - rewrite (release_all_run n (reverse lks) lks' (k_hw s) s1 Hh Hnd').
    + unfold s1. f_equal. exact (kernel_hw_id s).
    + intros x Hx. apply Hf. by rewrite reverse_Permutation in Hx.
    + by rewrite length_reverse.
    + by rewrite reverse_Permutation.
    + done.
Qed.

(** C39: misuse of locks is caught.  Taking a lock the CPU already holds
    panics, taking one another CPU holds waits, releasing a lock the CPU does
    not hold panics, and so does leaving a critical section with interrupts on
    or without having entered one. *)
Theorem lock_misuse_caught n lk l s :
  hart_at n (k_hw s) → h_locks (k_hw s) !! lk = Some l →
  (lk_locked l ≠ 0 → lk_cpu l = Some (cur (k_hw s)) → acquire lk s = Panic "acquire") ∧
  (lk_locked l ≠ 0 → lk_cpu l ≠ Some (cur (k_hw s)) → acquire lk s = Spin) ∧
  (lk_locked l = 0 ∨ lk_cpu l ≠ Some (cur (k_hw s)) → release lk s = Panic "release") ∧
  (n = 0 → pop_off s = Panic (if ie (k_hw s) then "pop_off - interruptible" else "pop_off")).
Proof.
  intros Hh Hl.
  assert (Hheld : ∀ t, tp_ok (k_hw t) → cur (k_hw t) = cur (k_hw s) → h_locks (k_hw t) !! lk = Some l →
    holding lk t = Ret (truth (lk_locked l) && bool_decide (lk_cpu l = Some (cur (k_hw s)))) t).
  { intros t Htp Hc Hlt. unfold holding. mrun_with (get_lock_run _ _ _ Hlt).
    destruct (truth (lk_locked l)); [|done]. cbn [andb]. mrun_with (mycpu_run t Htp). by rewrite Hc. }
  assert (Htruth : lk_locked l ≠ 0 → truth (lk_locked l) = true).
  { intros H0. unfold truth. by destruct (Z.eqb_spec (lk_locked l) 0). }
  destruct (ha_cpu _ _ Hh) as (c & Hc & Hoff & Hi & _).
  assert (Hpre := hart_at_pre _ _ Hh). split_and!.
  - intros H0 Hcpu. unfold acquire. mrun_with (push_off_run n s Hpre).
    rewrite Hheld; [|apply Hh|done|done]. rewrite Htruth, bool_decide_true by done. done.
  - intros H0 Hcpu. unfold acquire. mrun_with (push_off_run n s Hpre).
    rewrite Hheld; [|apply Hh|done|done]. rewrite Htruth, bool_decide_false by done. mrun. cbn [andb].
    mrun_with (get_lock_run _ lk l); [|exact Hl]. by rewrite Htruth.
  - intros Hor. unfold release. mrun_with (Hheld s); [|apply Hh|done|done].
    assert (truth (lk_locked l) && bool_decide (lk_cpu l = Some (cur (k_hw s))) = false) as ->; [|done].
    destruct Hor as [->|Hne]; [done|]. rewrite bool_decide_false by done. apply andb_false_r.
  - intros ->. unfold pop_off, intr_get, r_sstatus, csr_get. mrun_with mycpu_run; [|apply Hh].
    unfold ie. destruct (Z.land (csr_sstatus (h_csr (k_hw s))) SSTATUS_SIE =? 0); [|done]. cbn.
    mrun_with (get_cpu_run _ _ c Hc). by rewrite Hoff.
Qed.

(** ** The theorems on the small machine *)

Lemma nested_locks_restore_witness :
  ∃ s1, acquire_all [L_wait; L_proc 1; L_llm] demo = Ret tt s1 ∧ ie (k_hw s1) = false ∧
    release_all [L_proc 1; L_llm; L_wait] s1 = Ret tt demo.
Proof.
  destruct (nested_locks_restore 0 [L_wait; L_proc 1; L_llm] [L_proc 1; L_llm; L_wait] demo) as (s1 & H1 & H2 & _ & H3).
  - apply demo_hart_at.
  - apply (bool_decide_unpack _). vm_compute. exact I.
  - intros lk Hlk. apply is_free_lock_free.
    rewrite !elem_of_cons, elem_of_nil in Hlk. destruct Hlk as [->|[->|[->|[]]]]; vm_compute; reflexivity.
  - vm_compute. reflexivity.
  - apply (bool_decide_unpack _). vm_compute. exact I.
  - exists s1. split; [exact H1|split; [apply H2; discriminate|exact H3]].
Defined.

Lemma lock_misuse_caught_witness :
  release L_llm demo = Panic "release" ∧ pop_off demo = Panic "pop_off - interruptible".
Proof.
  destruct (lock_misuse_caught 0 L_llm (Spinlock 0 "lock" None) demo) as (_ & _ & H1 & H2).
  - apply demo_hart_at.
  - vm_compute. reflexivity.
  - split; [apply H1; left; reflexivity|exact (H2 eq_refl)].
Defined.
