(* ===== verification/CString.v ===== *)
(** * Bytes in memory and kernel/string.c

    Physical memory is a map from addresses to bytes; an address that was
    never written reads as 0.  [memset], [memmove] and [memcpy] act on it byte
    by byte, in the order of the source.  The functions that only see local
    arrays and strings take and return lists of bytes; a string read past the
    end of its list yields the terminating NUL. *)

From S2P Require Import Prelude Riscv State.

(** ** Memory accesses *)

Definition mget (m : gmap Z Z) (a : Z) : Z := default 0 (m !! a).

(** [n] bytes from address [a] on. *)
Definition mbytes (m : gmap Z Z) (a : Z) (n : nat) : list Z :=
  (λ i, mget m (a + Z.of_nat i)) <$> seq 0 n.

Fixpoint mwrite (m : gmap Z Z) (a : Z) (l : list Z) : gmap Z Z :=
  match l with
  | [] => m
  | b :: l => mwrite (<[a := b]> m) (a + 1) l
  end.

Definition mload64 (m : gmap Z Z) (a : Z) : Z := le_val (mbytes m a 8).
Definition mstore64 (m : gmap Z Z) (a v : Z) : gmap Z Z := mwrite m a (le_bytes 8 v).

Definition load64 (a : Z) : M Z := gets (λ s, mload64 (k_mem s) a).
Definition store64 (a v : Z) : M unit := modify (λ s, s <| k_mem := mstore64 (k_mem s) a v |>).
Definition load_bytes (a : Z) (n : nat) : M (list Z) := gets (λ s, mbytes (k_mem s) a n).
Definition store_bytes (a : Z) (l : list Z) : M unit :=
  modify (λ s, s <| k_mem := mwrite (k_mem s) a l |>).

(** ** memset, memmove, memcpy *)

Fixpoint memset_loop (n : nat) (dst c : Z) (m : gmap Z Z) : gmap Z Z :=
  match n with
  | O => m
  | S n => memset_loop n (dst + 1) c (<[dst := u8 c]> m)
  end.

Definition memset (dst c n : Z) (m : gmap Z Z) : gmap Z Z :=
  memset_loop (Z.to_nat (u32 n)) dst c m.

(** [while(n-- > 0) *d++ = *s++;] *)
Fixpoint copy_up (n : nat) (d s : Z) (m : gmap Z Z) : gmap Z Z :=
  match n with
  | O => m
  | S n => copy_up n (d + 1) (s + 1) (<[d := mget m s]> m)
  end.

(** [while(n-- > 0) *--d = *--s;] *)
Fixpoint copy_down (n : nat) (d s : Z) (m : gmap Z Z) : gmap Z Z :=
  match n with
  | O => m
  | S n => copy_down n (d - 1) (s - 1) (<[d - 1 := mget m (s - 1)]> m)
  end.

Definition memmove (dst src n : Z) (m : gmap Z Z) : gmap Z Z :=
  let n := u32 n in
  if n =? 0 then m
  else if (src <? dst) && (dst <? src + n)
  then copy_down (Z.to_nat n) (dst + n) (src + n) m
  else copy_up (Z.to_nat n) dst src m.

Definition memcpy (dst src n : Z) (m : gmap Z Z) : gmap Z Z := memmove dst src n m.

Definition do_memset (dst c n : Z) : M unit :=
  modify (λ s, s <| k_mem ::= memset dst c n |>).
Definition do_memmove (dst src n : Z) : M unit :=
  modify (λ s, s <| k_mem ::= memmove dst src n |>).

(** ** Functions on byte strings *)

(** [memcmp]: the difference of the first bytes that differ. *)
Fixpoint memcmp_loop (n : nat) (v1 v2 : list Z) : Z :=
  match n with
  | O => 0
  | S n =>
      let c1 := default 0 (head v1) in
      let c2 := default 0 (head v2) in
      if c1 =? c2 then memcmp_loop n (tail v1) (tail v2) else c1 - c2
  end.
Definition memcmp (v1 v2 : list Z) (n : Z) : Z := memcmp_loop (Z.to_nat (u32 n)) v1 v2.

Fixpoint strncmp_loop (n : nat) (p q : list Z) : Z :=
  match n with
  | O => 0
  | S n =>
      let c1 := default 0 (head p) in
      let c2 := default 0 (head q) in
      if truth c1 && (c1 =? c2) then strncmp_loop n (tail p) (tail q) else u8 c1 - u8 c2
  end.
Definition strncmp (p q : list Z) (n : Z) : Z := strncmp_loop (Z.to_nat (u32 n)) p q.

(** The bytes [strncpy] stores: the string, then NULs up to [n]. *)
Fixpoint strncpy_bytes (n : nat) (t : list Z) : list Z :=
  match n with
  | O => []
  | S n =>
      let c := default 0 (head t) in
      if c =? 0 then 0 :: replicate n 0 else c :: strncpy_bytes n (tail t)
  end.
Definition strncpy (s t : list Z) (n : Z) : list Z := splice 0 (strncpy_bytes (Z.to_nat n) t) s.

(** The bytes [safestrcpy] stores when [n] copies are left before the final
    [*s = 0]. *)
Fixpoint safestrcpy_bytes (n : nat) (t : list Z) : list Z :=
  match n with
  | O => [0]
  | S n =>
      let c := default 0 (head t) in
      if c =? 0 then [0; 0] else c :: safestrcpy_bytes n (tail t)
  end.
Definition safestrcpy (s t : list Z) (n : Z) : list Z :=
  if n <=? 0 then s else splice 0 (safestrcpy_bytes (Z.to_nat (n - 1)) t) s.

Fixpoint strlen_nat (s : list Z) : nat :=
  match s with
  | [] => 0
  | c :: s => if c =? 0 then 0 else S (strlen_nat s)
  end.
Definition strlen (s : list Z) : Z := Z.of_nat (strlen_nat s).

(** The bytes of a C string in a buffer, up to its NUL. *)
Definition cstr (s : list Z) : list Z := take (strlen_nat s) s.

(** ** Memory contents *)

Lemma mget_insert m a v x : mget (<[a := v]> m) x = if decide (a = x) then v else mget m x.
Proof.
  unfold mget. destruct (decide (a = x)) as [->|Hne].
  - by rewrite lookup_insert_eq.
  - by rewrite lookup_insert_ne.
Qed.

Lemma mget_mwrite m a l x :
  mget (mwrite m a l) x =
    if decide (a ≤ x < a + Z.of_nat (length l)) then default 0 (l !! Z.to_nat (x - a)) else mget m x.
Proof.
  revert m a. induction l as [|b l IH]; intros m a; cbn [mwrite length].
  - by destruct (decide _); [lia|].
  - rewrite IH, mget_insert. destruct (decide (a = x)) as [->|Hne].
    + rewrite decide_False by lia. rewrite decide_True by lia. by rewrite Z.sub_diag.
    + destruct (decide (a + 1 ≤ x < a + 1 + Z.of_nat (length l))) as [Hin|Hout].
      * rewrite decide_True by lia.
        replace (Z.to_nat (x - a)) with (S (Z.to_nat (x - (a + 1)))) by lia. done.
      * by rewrite decide_False by lia.
Qed.

Lemma length_mbytes m a n : length (mbytes m a n) = n.
Proof. unfold mbytes. by rewrite length_fmap, length_seq. Qed.

Lemma lookup_mbytes m a n i : (i < n)%nat → mbytes m a n !! i = Some (mget m (a + Z.of_nat i)).
Proof.
  intros Hi. unfold mbytes. rewrite list_lookup_fmap, lookup_seq_lt by done. done.
Qed.

(** Ranges are equal when their bytes are. *)
Lemma mbytes_ext m m' a n :
  (∀ x, a ≤ x < a + Z.of_nat n → mget m x = mget m' x) → mbytes m a n = mbytes m' a n.
Proof.
  intros Hx. apply list_eq. intros i. destruct (decide (i < n)%nat).
  - rewrite !lookup_mbytes by done. f_equal. apply Hx. lia.
  - rewrite !lookup_ge_None_2 by (rewrite length_mbytes; lia). done.
Qed.

Lemma mbytes_mwrite m a l : mbytes (mwrite m a l) a (length l) = l.
Proof.
  apply list_eq. intros i. destruct (decide (i < length l)%nat).
  - rewrite lookup_mbytes by done. rewrite mget_mwrite, decide_True by lia.
    replace (Z.to_nat (a + Z.of_nat i - a)) with i by lia.
    destruct (lookup_lt_is_Some_2 l i) as [x Hx]; [done|]. by rewrite Hx.
  - by rewrite !lookup_ge_None_2 by (rewrite ?length_mbytes; lia).
Qed.

Lemma mload64_ext m m' a :
  (∀ x, a ≤ x < a + 8 → mget m x = mget m' x) → mload64 m a = mload64 m' a.
Proof. intros Hx. unfold mload64. f_equal. apply mbytes_ext. done. Qed.

Lemma mget_mstore64 m a v x :
  x < a ∨ a + 8 ≤ x → mget (mstore64 m a v) x = mget m x.
Proof.
  intros Hx. unfold mstore64. rewrite mget_mwrite, decide_False; [done|].
  rewrite length_le_bytes. lia.
Qed.

Lemma mload64_mstore64 m a v : 0 ≤ v < 2 ^ 64 → mload64 (mstore64 m a v) a = v.
Proof.
  intros Hv. unfold mload64, mstore64. pose proof (mbytes_mwrite m a (le_bytes 8 v)) as Hb.
  rewrite length_le_bytes in Hb. rewrite Hb. apply le_val_bytes. done.
Qed.

Lemma mload64_mstore64_ne m a b v : b + 8 ≤ a ∨ a + 8 ≤ b → mload64 (mstore64 m a v) b = mload64 m b.
Proof. intros Hab. apply mload64_ext. intros x Hx. apply mget_mstore64. lia. Qed.

(** ** memset and memmove *)

Lemma mget_memset_loop n dst c m x :
  mget (memset_loop n dst c m) x = if decide (dst ≤ x < dst + Z.of_nat n) then u8 c else mget m x.
Proof.
  revert dst m. induction n as [|n IH]; intros dst m; cbn [memset_loop].
  - by destruct (decide _); [lia|].
  - rewrite IH, mget_insert. repeat destruct (decide _); try done; lia.
Qed.

Lemma mget_memset dst c n m x :
  mget (memset dst c n m) x = if decide (dst ≤ x < dst + u32 n) then u8 c else mget m x.
Proof.
  unfold memset. rewrite mget_memset_loop. pose proof (u32_range n).
  by rewrite Z2Nat.id by lia.
Qed.

(** Copying upwards is right when the destination is not inside the source. *)
Lemma mget_copy_up n d s m x :
  d ≤ s ∨ s + Z.of_nat n ≤ d →
  mget (copy_up n d s m) x =
    if decide (d ≤ x < d + Z.of_nat n) then mget m (s + (x - d)) else mget m x.
Proof.
  revert d s m. induction n as [|n IH]; intros d s m Hd; cbn [copy_up].
  - by destruct (decide _); [lia|].
  - rewrite IH by lia. destruct (decide (d + 1 ≤ x < d + 1 + Z.of_nat n)) as [Hin|Hout].
    + rewrite decide_True by lia. rewrite mget_insert, decide_False by lia.
      f_equal. lia.
    + rewrite mget_insert. destruct (decide (d = x)) as [->|Hne].
      * rewrite decide_True by lia. f_equal. lia.
      * by rewrite decide_False by lia.
Qed.

(** Copying downwards is right when the source is not inside the rest. *)
Lemma mget_copy_down n d s m x :
  s ≤ d ∨ d ≤ s - Z.of_nat n →
  mget (copy_down n d s m) x =
    if decide (d - Z.of_nat n ≤ x < d) then mget m (s + (x - d)) else mget m x.
Proof.
  revert d s m. induction n as [|n IH]; intros d s m Hd; cbn [copy_down].
  - by destruct (decide _); [lia|].
  - rewrite IH by lia. destruct (decide (d - 1 - Z.of_nat n ≤ x < d - 1)) as [Hin|Hout].
    + rewrite decide_True by lia. rewrite mget_insert, decide_False by lia. f_equal. lia.
    + rewrite mget_insert. destruct (decide (d - 1 = x)) as [<-|Hne].
      * rewrite decide_True by lia. f_equal. lia.
      * by rewrite decide_False by lia.
Qed.

Lemma mget_memmove dst src n m x :
  mget (memmove dst src n m) x =
    if decide (dst ≤ x < dst + u32 n) then mget m (src + (x - dst)) else mget m x.
Proof.
  unfold memmove. pose proof (u32_range n) as Hn.
  destruct (Z.eqb_spec (u32 n) 0) as [->|Hnz]; [by destruct (decide _); [lia|]|].
  destruct (Z.ltb_spec src dst), (Z.ltb_spec dst (src + u32 n)); cbn [andb].
  all: rewrite ?mget_copy_down, ?mget_copy_up by lia; rewrite ?Z2Nat.id by lia.
  all: repeat destruct (decide _); try lia; try done; f_equal; lia.
Qed.

(** From here on their contents are known only through these lemmas. *)
#[global] Opaque memset memmove.

(** ** Strings *)

Definition bytes (l : list Z) : Prop := Forall (λ c, 0 ≤ c < 256) l.

Lemma cstr_cons c s : cstr (c :: s) = if c =? 0 then [] else c :: cstr s.
Proof. unfold cstr. cbn. by destruct (c =? 0). Qed.

Lemma bytes_cons c l : bytes (c :: l) ↔ (0 ≤ c < 256) ∧ bytes l.
Proof. split; [intros Hl; by apply Forall_cons_1 in Hl|intros []; by constructor]. Qed.

Lemma u8_byte c : 0 ≤ c < 256 → u8 c = c.
Proof. intros. by apply u8_small. Qed.

Lemma strlen_nat_le s : (strlen_nat s ≤ length s)%nat.
Proof. induction s as [|c s IH]; cbn; [done|]. destruct (c =? 0); lia. Qed.

Lemma length_cstr s : length (cstr s) = strlen_nat s.
Proof. unfold cstr. rewrite length_take. pose proof (strlen_nat_le s). lia. Qed.

(** A list without NUL followed by a NUL is the string it spells. *)
Lemma cstr_app l r : Forall (λ c, c ≠ 0) l → cstr (l ++ 0 :: r) = l.
Proof.
  induction l as [|c l IH]; intros Hl; [done|]. apply Forall_cons_1 in Hl as [Hc Hl].
  cbn [app]. rewrite cstr_cons, IH by done. by destruct (Z.eqb_spec c 0).
Qed.

Lemma cstr_app_zeros l n : Forall (λ c, c ≠ 0) l → cstr (l ++ replicate n 0) = l.
Proof.
  induction l as [|c l IH]; intros Hl; [by destruct n|]. apply Forall_cons_1 in Hl as [Hc Hl].
  cbn [app]. rewrite cstr_cons, IH by done. by destruct (Z.eqb_spec c 0).
Qed.

Lemma cstr_nonzero s : Forall (λ c, c ≠ 0) (cstr s).
Proof.
  induction s as [|c s IH]; [constructor|]. rewrite cstr_cons.
  destruct (Z.eqb_spec c 0); by constructor.
Qed.

Lemma cstr_bytes s : bytes s → bytes (cstr s).
Proof. intros Hs. unfold cstr. by apply Forall_take. Qed.

Lemma cstr_unfold s :
  cstr s = let c := default 0 (head s) in if c =? 0 then [] else c :: cstr (tail s).
Proof. destruct s as [|c s]; [done|apply cstr_cons]. Qed.

Lemma bytes_uncons s : bytes s → 0 ≤ default 0 (head s) < 256 ∧ bytes (tail s).
Proof. destruct s; [done|]. by rewrite bytes_cons. Qed.

Lemma strncmp_loop_0 n p q :
  bytes p → bytes q → strncmp_loop n p q = 0 ↔ take n (cstr p) = take n (cstr q).
Proof.
  revert p q. induction n as [|n IH]; intros p q Hp Hq; cbn [strncmp_loop]; [done|].
  rewrite (cstr_unfold p), (cstr_unfold q). cbn zeta.
  apply bytes_uncons in Hp as [Hp Hp']. apply bytes_uncons in Hq as [Hq Hq'].
  set (c := default 0 (head p)) in *. set (d := default 0 (head q)) in *.
  rewrite !u8_byte by done. unfold truth.
  destruct (Z.eqb_spec c d) as [->|Hne].
  - destruct (Z.eqb_spec d 0); cbn [negb andb]; [split; intros; [done|lia]|].
    rewrite IH by done. cbn [take]. split; [by intros ->|]. intros Hc. by injection Hc.
  - rewrite andb_false_r. split; [lia|].
    destruct (Z.eqb_spec c 0), (Z.eqb_spec d 0); cbn [take]; intros He; simplify_eq; lia.
Qed.

(** The bytes [strncpy] and [safestrcpy] store. *)
Lemma length_strncpy_bytes n t : length (strncpy_bytes n t) = n.
Proof.
  revert t. induction n as [|n IH]; intros t; [done|]. cbn [strncpy_bytes].
  destruct (_ =? 0); cbn; by rewrite ?length_replicate, ?IH.
Qed.

Lemma strncpy_bytes_eq n t : strncpy_bytes n t = take n (cstr t) ++ replicate (n - strlen_nat t) 0.
Proof.
  revert t. induction n as [|n IH]; intros t; [done|]. cbn [strncpy_bytes].
  rewrite cstr_unfold. cbn zeta. rewrite IH.
  destruct t as [|c t]; cbn [head tail default strlen_nat]; [done|].
  unfold id. by destruct (c =? 0).
Qed.

Lemma safestrcpy_bytes_eq n t :
  ∃ r, safestrcpy_bytes n t = take n (cstr t) ++ 0 :: r ∧
       (length (safestrcpy_bytes n t) ≤ S n)%nat.
Proof.
  revert t. induction n as [|n IH]; intros t; cbn [safestrcpy_bytes]; [by exists []|].
  rewrite cstr_unfold. cbn zeta. destruct (_ =? 0).
  - exists [0]. cbn. split; [done|lia].
  - destruct (IH (tail t)) as (r & -> & Hl). exists r. cbn [length]. split; [done|lia].
Qed.

Lemma splice_0 {A} (l' l : list A) :
  (length l' ≤ length l)%nat → splice 0 l' l = l' ++ drop (length l') l.
Proof. intros Hl. unfold splice. by rewrite take_0, Nat.sub_0_r, (take_ge l') by lia. Qed.

(** ** Theorems *)

(** [memmove] copies right even when the ranges overlap: afterwards the
    destination holds what the source held before, and every other byte of
    memory is unchanged. *)
Theorem memmove_copies dst src n m :
  mbytes (memmove dst src n m) dst (Z.to_nat (u32 n)) = mbytes m src (Z.to_nat (u32 n)) ∧
  ∀ x, ¬ (dst ≤ x < dst + u32 n) → mget (memmove dst src n m) x = mget m x.
Proof.
  pose proof (u32_range n) as Hn. split.
  - apply list_eq. intros i. destruct (decide (i < Z.to_nat (u32 n))%nat).
    + rewrite !lookup_mbytes by done. rewrite mget_memmove, decide_True by lia. do 2 f_equal. lia.
    + by rewrite !lookup_ge_None_2 by (rewrite length_mbytes; lia).
  - intros x Hx. by rewrite mget_memmove, decide_False.
Qed.

(** [safestrcpy(s, t, n)] always terminates the string within the first
    [n] bytes of [s]: the string it leaves there is [t] cut after [n-1]
    characters, and bytes of [s] from [n] on are not touched. *)
Theorem safestrcpy_terminates s t n :
  0 < n ≤ Z.of_nat (length s) →
  cstr (safestrcpy s t n) = take (Z.to_nat (n - 1)) (cstr t) ∧
  strlen (safestrcpy s t n) < n ∧
  length (safestrcpy s t n) = length s ∧
  drop (Z.to_nat n) (safestrcpy s t n) = drop (Z.to_nat n) s.
Proof.
  intros Hn. unfold safestrcpy. destruct (Z.leb_spec n 0); [lia|].
  destruct (safestrcpy_bytes_eq (Z.to_nat (n - 1)) t) as (r & Hr & Hl).
  set (b := safestrcpy_bytes _ _) in *.
  assert (Hc : cstr (splice 0 b s) = take (Z.to_nat (n - 1)) (cstr t)).
  { rewrite splice_0 by lia. rewrite Hr, <- app_assoc. cbn [app]. apply cstr_app.
    apply Forall_take, cstr_nonzero. }
  split_and!; [done| |apply length_splice|].
  - unfold strlen. rewrite <- length_cstr, Hc, length_take. lia.
  - rewrite splice_0 by lia. rewrite drop_app_ge, drop_drop by lia. f_equal. lia.
Qed.

(** Directory names.  [strncmp] with a limit compares exactly the strings
    cut at the limit, and a name stored with [strncpy] compares equal to the
    original, whatever the entry held before. *)
Theorem strncmp_strncpy s p q n :
  bytes p → bytes q → 0 ≤ n < 2 ^ 32 →
  (strncmp p q n = 0 ↔ take (Z.to_nat n) (cstr p) = take (Z.to_nat n) (cstr q)) ∧
  (Z.of_nat (length s) = n → strncmp (strncpy s q n) q n = 0).
Proof.
  intros Hp Hq Hn. unfold strncmp. rewrite u32_small by lia. split; [by apply strncmp_loop_0|].
  intros Hs. unfold strncpy. rewrite splice_0 by (rewrite length_strncpy_bytes; lia).
  rewrite length_strncpy_bytes, drop_ge, app_nil_r, strncpy_bytes_eq by lia.
  set (k := Z.to_nat n). assert (Hb : bytes (take k (cstr q) ++ replicate (k - strlen_nat q) 0)).
  { apply Forall_app_2; [by apply Forall_take, cstr_bytes|]. by apply Forall_replicate. }
  apply strncmp_loop_0; [done|done|]. rewrite cstr_app_zeros by (apply Forall_take, cstr_nonzero).
  by rewrite take_take, Nat.min_id.
Qed.

Lemma safestrcpy_terminates_witness :
  cstr (safestrcpy (replicate 4 7) (str "init") 4) = str "ini".
Proof. refine (proj1 (safestrcpy_terminates (replicate 4 7) (str "init") 4 _)). cbn. lia. Defined.

Lemma strncmp_strncpy_witness : strncmp (strncpy (replicate 14 7) (str "cat") 14) (str "cat") 14 = 0.
Proof.
  apply (strncmp_strncpy (replicate 14 7) (str "dog") (str "cat") 14); [..|lia|reflexivity];
    repeat constructor; cbn; lia.
Defined.
