(* ===== verification/Kalloc.v ===== *)
(** * Physical page allocator: kernel/kalloc.c

    The free list is threaded through the free pages themselves: the first
    eight bytes of a free page hold the address of the next one. *)

From S2P Require Import Prelude Riscv State Boot Spinlock ProcTable Machine CString.

Section kalloc.
Context `{Image}.

Definition kfree (pa : Z) : M unit :=
  if negb (u64 pa mod PGSIZE =? 0) || (pa <? end_) || (u64 pa >=? PHYSTOP)
  then panic "kfree" else
  do_memset pa 1 PGSIZE;;
  let r := pa in
  acquire L_kmem;;
  fl ← gets k_freelist;
  store64 r fl;;
  modify (λ s, s <| k_freelist := r |>);;
  release L_kmem.

Definition kalloc : M Z :=
  acquire L_kmem;;
  r ← gets k_freelist;
  when (truth r) (next ← load64 r; modify (λ s, s <| k_freelist := next |>));;
  release L_kmem;;
  when (truth r) (do_memset r 5 PGSIZE);;
  mret r.

(** The loop runs once per whole page between the rounded start and the end. *)
Definition freerange (pa_start pa_end : Z) : M unit :=
  let p := PGROUNDUP pa_start in
  while_ (S (Z.to_nat ((pa_end - p) / PGSIZE)))
    (λ p, if p + PGSIZE <=? pa_end then kfree p;; mret (inl (p + PGSIZE)) else mret (inr tt)) p.

Definition kinit : M unit :=
  initlock L_kmem "kmem";;
  freerange end_ PHYSTOP.

End kalloc.

(** ** The free list *)

Section freelist.
Context `{Image}.

(** A page the allocator accepts. *)
Definition page_ok (pa : Z) : Prop :=
  0 < pa ∧ pa mod PGSIZE = 0 ∧ end_ ≤ pa ∧ pa < PHYSTOP.

(** The links from [r] on visit the pages [l], each holding its successor. *)
Fixpoint chain (m : gmap Z Z) (r : Z) (l : list Z) : Prop :=
  match l with
  | [] => r = 0
  | p :: l => r = p ∧ page_ok p ∧ chain m (mload64 m p) l
  end.

Definition free_list (s : kernel) (l : list Z) : Prop :=
  chain (k_mem s) (k_freelist s) l ∧ NoDup l.

(** Only memory and the head of the list differ. *)
Definition mem_only (s s' : kernel) : Prop :=
  s' = s <| k_mem := k_mem s' |> <| k_freelist := k_freelist s' |>.

(** An address inside the page at [p]. *)
Definition in_page (p x : Z) : Prop := p ≤ x < p + PGSIZE.

Lemma page_disjoint p q x :
  page_ok p → page_ok q → p ≠ q → in_page p x → ¬ in_page q x.
Proof.
  unfold page_ok, in_page, PGSIZE. intros (_ & Hp & _) (_ & Hq & _) Hne Hx Hx'.
  apply Hne. rewrite (Z.div_mod p 4096), (Z.div_mod q 4096), Hp, Hq by lia. f_equal. f_equal.
  pose proof (Z.div_mod p 4096). pose proof (Z.div_mod q 4096). lia.
Qed.

Lemma chain_page_ok m r l p : chain m r l → p ∈ l → page_ok p.
Proof.
  revert r. induction l as [|q l IH]; intros r Hc Hp; [by apply elem_of_nil in Hp|].
  destruct Hc as (-> & Hq & Hc). apply elem_of_cons in Hp as [->|Hp]; [done|]. by eapply IH.
Qed.

Lemma chain_ext m m' r l :
  (∀ p x, p ∈ l → in_page p x → mget m x = mget m' x) → chain m r l → chain m' r l.
Proof.
  revert r. induction l as [|q l IH]; intros r Hm Hc; [done|].
  destruct Hc as (-> & Hq & Hc). split_and!; [done|done|].
  rewrite <- (mload64_ext m m'). { apply IH; [|done]. intros p x Hp. apply Hm. by right. }
  intros x Hx. apply (Hm q); [by left|]. unfold in_page, PGSIZE. lia.
Qed.

Lemma free_list_page_ok s l p : free_list s l → p ∈ l → page_ok p.
Proof. intros [Hc _]. by eapply chain_page_ok. Qed.

Lemma page_ok_range pa : page_ok pa → 0 ≤ pa < 2 ^ 64.
Proof. unfold page_ok, PHYSTOP, KERNBASE. lia. Qed.

Lemma kfree_guard pa :
  page_ok pa →
  negb (u64 pa mod PGSIZE =? 0) || (pa <? end_) || (u64 pa >=? PHYSTOP) = false.
Proof.
  intros Hp. rewrite u64_small by by apply page_ok_range. destruct Hp as (? & Hm & ? & ?).
  rewrite Hm, Z.geb_leb. repeat bdestruct_step; try lia; done.
Qed.

Definition freed (pa : Z) (s : kernel) : kernel :=
  s <| k_mem ::= λ m, mstore64 (memset pa 1 PGSIZE m) pa (k_freelist s) |> <| k_freelist := pa |>.

Lemma kfree_run n pa s :
  hart_at n (k_hw s) → lock_free L_kmem (k_hw s) → page_ok pa → kfree pa s = Ret tt (freed pa s).
Proof.
  intros Hh Hl Hp. unfold kfree. rewrite kfree_guard by done.
  unfold do_memset, store64. mrun. mrun_with (acquire_run n); [|done|done].
  by mrun_with (release_run n L_kmem (k_hw s)).
Qed.

Lemma chain_head m r l : chain m r l → 0 ≤ r < 2 ^ 64.
Proof. destruct l; cbn; [lia|]. intros (-> & Hp & _). by apply page_ok_range. Qed.

Lemma memset_page pa c m x : ¬ in_page pa x → mget (memset pa c PGSIZE m) x = mget m x.
Proof. intros Hx. rewrite mget_memset, decide_False; [done|]. exact Hx. Qed.

Lemma freed_frame pa s x : ¬ in_page pa x → mget (k_mem (freed pa s)) x = mget (k_mem s) x.
Proof.
  intros Hx. unfold freed. ksimpl. rewrite mget_mstore64; [by apply memset_page|].
  unfold in_page, PGSIZE in Hx. lia.
Qed.

Lemma freed_list pa s l :
  page_ok pa → pa ∉ l → free_list s l → free_list (freed pa s) (pa :: l).
Proof.
  intros Hp Hni [Hc Hnd]. split; [|by apply list.NoDup_cons]. cbn [chain]. split_and!; [done|done|].
  unfold freed at 2. ksimpl. rewrite mload64_mstore64 by by eapply chain_head.
  eapply chain_ext; [|exact Hc]. intros q x Hq Hx. symmetry. apply freed_frame.
  apply (page_disjoint q pa); [by eapply chain_page_ok|done| |done]. by intros ->.
Qed.

Lemma mem_only_trans s s' s'' : mem_only s s' → mem_only s' s'' → mem_only s s''.
Proof. unfold mem_only. intros H1 H2. rewrite H2, H1. reflexivity. Qed.

Lemma mem_only_set s s' f : mem_only s s' → mem_only s (s' <| k_mem ::= f |>).
Proof. unfold mem_only. intros ->. reflexivity. Qed.

Lemma mem_only_freed pa s : mem_only s (freed pa s).
Proof. reflexivity. Qed.

(** The state after [kalloc] took the first page. *)
Definition taken (p : Z) (s : kernel) : kernel :=
  s <| k_freelist := mload64 (k_mem s) p |> <| k_mem ::= memset p 5 PGSIZE |>.

Lemma mem_only_taken p s : mem_only s (taken p s).
Proof. reflexivity. Qed.

Lemma kalloc_some n p l s :
  hart_at n (k_hw s) → lock_free L_kmem (k_hw s) → free_list s (p :: l) →
  kalloc s = Ret p (taken p s).
Proof.
  intros Hh Hl [Hc _]. destruct Hc as (Hr & Hp & _). unfold kalloc, load64, do_memset.
  mrun_with (acquire_run n); [|done|done]. ksimpl. rewrite Hr.
  assert (truth p = true) as -> by (unfold truth; destruct Hp; by destruct (Z.eqb_spec p 0); [lia|]).
  mrun. mrun_with (release_run n L_kmem (k_hw s)); [|done|done|done]. done.
Qed.

Lemma kalloc_none n s :
  hart_at n (k_hw s) → lock_free L_kmem (k_hw s) → free_list s [] → kalloc s = Ret 0 s.
Proof.
  intros Hh Hl [Hc _]. cbn in Hc. unfold kalloc. mrun_with (acquire_run n); [|done|done].
  ksimpl. rewrite Hc. change (truth 0) with false. mrun. mrun_with (release_run n L_kmem (k_hw s)); [|done|done|done].
  mrun. f_equal. exact (kernel_hw_id s).
Qed.

Lemma taken_frame p s x : ¬ in_page p x → mget (k_mem (taken p s)) x = mget (k_mem s) x.
Proof. intros Hx. unfold taken. ksimpl. by apply memset_page. Qed.

Lemma taken_list p l s : free_list s (p :: l) → free_list (taken p s) l.
Proof.
  intros [(_ & Hp & Hc) [Hni Hnd]%list.NoDup_cons]. split; [|done].
  eapply chain_ext; [|exact Hc]. intros q x Hq Hx. symmetry. apply taken_frame.
  apply (page_disjoint q p); [by eapply chain_page_ok|done| |done]. by intros ->.
Qed.

End freelist.

Section init.
Context `{Image}.

(** The [k] pages from [p] on. *)
Definition pages (p : Z) (k : nat) : list Z := (λ i, p + PGSIZE * Z.of_nat i) <$> seq 0 k.

Lemma pages_S p k : pages p (S k) = p :: pages (p + PGSIZE) k.
Proof.
  unfold pages. cbn [seq fmap list_fmap]. f_equal; [lia|]. rewrite <- fmap_S_seq, <- list_fmap_compose.
  apply list_fmap_ext. intros i x _. unfold compose. lia.
Qed.

Lemma elem_of_pages p k q : q ∈ pages p k → p ≤ q.
Proof. unfold pages. intros (i & -> & Hi)%list_elem_of_fmap. unfold PGSIZE. lia. Qed.

Lemma freerange_loop n k e p fuel s l :
  hart_at n (k_hw s) → lock_free L_kmem (k_hw s) → (k < fuel)%nat →
  0 < p → p mod PGSIZE = 0 → end_ ≤ p → e ≤ PHYSTOP →
  p + PGSIZE * Z.of_nat k ≤ e < p + PGSIZE * Z.of_nat (S k) →
  free_list s l → (∀ q, q ∈ l → q < p) →
  ∃ s', while_ fuel (λ p, if p + PGSIZE <=? e then kfree p;; mret (inl (p + PGSIZE))
                          else mret (inr tt)) p s = Ret tt s' ∧
        mem_only s s' ∧ free_list s' (reverse (pages p k) ++ l).
Proof.
  revert p fuel s l. induction k as [|k IH]; intros p fuel s l Hh Hl Hf Hp Hm He Hend Hk Hfl Hlt.
  all: destruct fuel as [|fuel]; [lia|]; cbn [while_].
  - exists s. split_and!; [|by destruct s|done]. mrun. destruct (Z.leb_spec (p + PGSIZE) e); [lia|done].
  - assert (Hpk : page_ok p) by (unfold PGSIZE in *; split_and!; [done|done|done|lia]).
    destruct (IH (p + PGSIZE) fuel (freed p s) (p :: l)) as (s' & Hs' & Hmo & Hfl').
    { done. } { done. } { lia. } { unfold PGSIZE; lia. }
    { unfold PGSIZE in *. by rewrite <- Zplus_mod_idemp_r, Z.mod_same, Z.add_0_r. }
    { unfold PGSIZE; lia. } { done. } { unfold PGSIZE in *; lia. }
    { apply freed_list; [done| |done]. intros Hin%Hlt. lia. }
    { intros q [->|Hq%Hlt]%elem_of_cons; unfold PGSIZE; lia. }
    exists s'. split_and!.
    + mrun. destruct (Z.leb_spec (p + PGSIZE) e); [|unfold PGSIZE in *; lia].
      mrun. rewrite (kfree_run n) by done. mrun. exact Hs'.
    + eapply mem_only_trans; [apply mem_only_freed|exact Hmo].
    + by rewrite pages_S, reverse_cons, <- app_assoc.
Qed.

End init.

(** ** What the allocator promises its clients

    [free s l]: the pages [l] are free in [s], the next one to be handed out
    first.  Clients never look inside a free page. *)
Class PageAllocator `{Image} (free : kernel → list Z → Prop) : Prop := {
  pa_alloc n s p l :
    hart_at n (k_hw s) → lock_free L_kmem (k_hw s) → free s (p :: l) →
    ∃ s', kalloc s = Ret p s' ∧ mem_only s s' ∧ free s' l ∧ page_ok p ∧ (p ∉ l) ∧
      ∀ x, ¬ in_page p x → mget (k_mem s') x = mget (k_mem s) x;
  pa_empty n s :
    hart_at n (k_hw s) → lock_free L_kmem (k_hw s) → free s [] → kalloc s = Ret 0 s;
  pa_free n s p l :
    hart_at n (k_hw s) → lock_free L_kmem (k_hw s) → page_ok p → p ∉ l → free s l →
    ∃ s', kfree p s = Ret tt s' ∧ mem_only s s' ∧ free s' (p :: l) ∧
      ∀ x, ¬ in_page p x → mget (k_mem s') x = mget (k_mem s) x;
  pa_page_ok s l p : free s l → p ∈ l → page_ok p;
  pa_ext s s' l :
    free s l → k_freelist s' = k_freelist s →
    (∀ p x, p ∈ l → in_page p x → mget (k_mem s') x = mget (k_mem s) x) → free s' l
}.

#[export] Instance free_list_allocator `{Image} : PageAllocator free_list.
Proof.
  split.
  - intros n s p l Hh Hl Hf. exists (taken p s). split_and!.
    + by eapply kalloc_some.
    + apply mem_only_taken.
    + by eapply taken_list.
    + eapply free_list_page_ok; [exact Hf|by left].
    + destruct Hf as [_ Hnd]. by apply list.NoDup_cons in Hnd as [].
    + intros x. apply taken_frame.
  - apply kalloc_none.
  - intros n s p l Hh Hl Hp Hni Hf. exists (freed p s). split_and!.
    + by eapply kfree_run.
    + apply mem_only_freed.
    + by apply freed_list.
    + intros x. apply freed_frame.
  - intros s l p. apply free_list_page_ok.
  - intros s s' l [Hc Hnd] Hr Hm. split; [|done]. rewrite Hr. eapply chain_ext; [|exact Hc].
    intros p x Hp Hx. symmetry. by eapply Hm.
Qed.

(** ** Theorems *)

Section theorems.
Context `{Image}.

(** C24: the allocator is a stack of pages.  [kalloc] takes the first page of
    the free list (0 when it is empty), [kfree] puts a page in front of it, so
    that freeing a page and allocating again hands out the same page and
    restores the list; neither touches a byte outside that page nor any other
    part of the kernel state. *)
Theorem kalloc_kfree_stack n s l :
  hart_at n (k_hw s) → lock_free L_kmem (k_hw s) → free_list s l →
  match l with
  | [] => kalloc s = Ret 0 s
  | p :: l' => ∃ s', kalloc s = Ret p s' ∧ free_list s' l' ∧ mem_only s s' ∧
      (∀ x, ¬ in_page p x → mget (k_mem s') x = mget (k_mem s) x) ∧
      ∀ x, in_page p x → mget (k_mem s') x = 5
  end ∧
  ∀ pa, page_ok pa → pa ∉ l →
    ∃ s' s'', kfree pa s = Ret tt s' ∧ free_list s' (pa :: l) ∧
      kalloc s' = Ret pa s'' ∧ free_list s'' l ∧ mem_only s s'' ∧
      ∀ x, ¬ in_page pa x → mget (k_mem s'') x = mget (k_mem s) x.
Proof.
  intros Hh Hl Hf. split.
  - destruct l as [|p l]; [by eapply kalloc_none|]. exists (taken p s).
    split_and!; [by eapply kalloc_some|by eapply taken_list|apply mem_only_taken|intros x; apply taken_frame|].
    intros x Hx. unfold taken. ksimpl. by rewrite mget_memset, decide_True.
  - intros pa Hpa Hni. exists (freed pa s), (taken pa (freed pa s)).
    assert (Hf' : free_list (freed pa s) (pa :: l)) by by apply freed_list.
    split_and!; [by eapply kfree_run|done|by eapply kalloc_some|by eapply taken_list| |].
    { eapply mem_only_trans; [apply mem_only_freed|apply mem_only_taken]. }
    intros x Hx. by rewrite taken_frame, freed_frame.
Qed.

(** [kfree] refuses an address that is not the start of a page of the
    memory it manages: it panics and does nothing else. *)
Theorem kfree_refuses pa s :
  0 < pa < 2 ^ 64 → ¬ page_ok pa → kfree pa s = Panic "kfree".
Proof.
  intros Hpa Hbad. unfold kfree. rewrite u64_small by lia. rewrite Z.geb_leb.
  destruct (Z.eqb_spec (pa mod PGSIZE) 0); [|done].
  destruct (Z.ltb_spec pa end_); [done|]. destruct (Z.leb_spec PHYSTOP pa); [done|].
  destruct Hbad. split_and!; [lia|done|lia|lia].
Qed.

(** C36: boot hands every whole page between the end of the kernel and the end
    of memory to the allocator, the last one on top, and terminates. *)
Theorem kinit_frees_all n s :
  hart_at n (k_hw s) → k_freelist s = 0 → 0 < end_ → end_ ≤ PHYSTOP - PGSIZE →
  let p0 := PGROUNDUP end_ in
  let k := Z.to_nat ((PHYSTOP - p0) / PGSIZE) in
  ∃ s', kinit s = Ret tt s' ∧ free_list s' (reverse (pages p0 k)) ∧
    p0 + PGSIZE * Z.of_nat k = PHYSTOP.
Proof.
  intros Hh Hr Hpos Hend p0 k.
  assert (Hp0 : p0 mod PGSIZE = 0 ∧ end_ ≤ p0 < end_ + PGSIZE)
    by (apply PGROUNDUP_spec; unfold PGSIZE, PHYSTOP, KERNBASE in *; lia).
  destruct Hp0 as [Hm Hle].
  assert (Hdiv : PGSIZE * ((PHYSTOP - p0) / PGSIZE) = PHYSTOP - p0).
  { symmetry. apply Z.div_exact; [done|]. rewrite Zminus_mod, Hm. done. }
  assert (Hk : p0 + PGSIZE * Z.of_nat k = PHYSTOP).
  { unfold k. rewrite Z2Nat.id; [lia|]. apply Z.div_pos; [unfold PGSIZE, PHYSTOP, KERNBASE in *; lia|done]. }
  set (s1 := s <| k_hw ::= set h_locks (λ m, <[L_kmem := Spinlock 0 "kmem" None]> m) |>).
  destruct (freerange_loop n k PHYSTOP p0 (S k) s1 []) as (s' & Hs' & _ & Hf').
  { by destruct Hh. } { exists "kmem". unfold s1. ksimpl. by rewrite lookup_insert_eq. }
  { lia. } { lia. } { done. } { lia. } { done. } { unfold PGSIZE in *; lia. }
  { split; [exact Hr|constructor]. } { intros q Hq. by apply elem_of_nil in Hq. }
  exists s'. rewrite app_nil_r in Hf'. split_and!; [exact Hs'|exact Hf'|exact Hk].
Qed.

End theorems.

(** ** Evaluation on the concrete machine *)

(** One page is free. *)
Definition demo_page : Z := PHYSTOP - PGSIZE.
Definition demo_kmem : kernel := demo <| k_freelist := demo_page |>.

Lemma demo_page_ok : @page_ok demo_image demo_page.
Proof. repeat split; cbn; unfold demo_page, PHYSTOP, KERNBASE, PGSIZE; lia. Qed.

Lemma demo_free_list : @free_list demo_image demo_kmem [demo_page].
Proof.
  split; [|by apply list.NoDup_singleton]. split_and!; [done|apply demo_page_ok|]. reflexivity.
Qed.

Lemma kalloc_kfree_stack_witness :
  ∃ s', kalloc demo_kmem = Ret demo_page s' ∧ @free_list demo_image s' [].
Proof.
  destruct (proj1 (@kalloc_kfree_stack demo_image 0 demo_kmem [demo_page] (demo_hart_at None)
    (is_free_lock_free (demo_hart None) L_kmem eq_refl) demo_free_list)) as (s' & H1 & H2 & _).
  exists s'. split; [exact H1|exact H2].
Defined.

Lemma kfree_refuses_witness : @kfree demo_image (demo_page + 1) demo = Panic "kfree".
Proof.
  apply (@kfree_refuses demo_image (demo_page + 1) demo).
  - unfold demo_page, PHYSTOP, KERNBASE, PGSIZE. lia.
  - intros (_ & Hm & _). vm_compute in Hm. discriminate Hm.
Defined.

Lemma kinit_frees_all_witness :
  ∃ s', @kinit demo_image demo = Ret tt s' ∧
    @free_list demo_image s' (reverse (pages (PHYSTOP - 8 * PGSIZE) 8)).
Proof.
  destruct (@kinit_frees_all demo_image 0 demo (demo_hart_at None) eq_refl) as (s' & H1 & H2 & _).
  - reflexivity.
  - unfold end_, demo_image, PGSIZE. lia.
  - exists s'. split; [exact H1|exact H2].
Defined.
