(* ===== verification/Vm.v ===== *)
(** * Page tables and user memory: kernel/vm.c

    Page tables live in physical memory as arrays of 512 64-bit entries; a
    page table is the address of its root page, a [pte_t *] the address of an
    entry, and 0 is the null pointer.  Functions that copy out of user memory
    return the status and the bytes they stored in the kernel buffer. *)

From S2P Require Import Prelude Riscv State Spinlock CString Kalloc.

Section vm.
Context `{Image}.

(** ** Walking and mapping *)

Fixpoint walk_levels (levels : list Z) (pagetable va : Z) (alloc : bool) : M Z :=
  match levels with
  | [] => mret (pagetable + 8 * PX 0 va)
  | level :: levels =>
      let pte := pagetable + 8 * PX level va in
      v ← load64 pte;
      if truth (Z.land v PTE_V) then walk_levels levels (PTE2PA v) va alloc
      else if negb alloc then mret 0 else
      pt ← kalloc;
      if pt =? 0 then mret 0 else
      do_memset pt 0 PGSIZE;;
      store64 pte (Z.lor (PA2PTE pt) PTE_V);;
      walk_levels levels pt va alloc
  end.

Definition walk (pagetable va : Z) (alloc : bool) : M Z :=
  if MAXVA <=? va then panic "walk" else walk_levels [2; 1] pagetable va alloc.

Definition walkaddr (pagetable va : Z) : M Z :=
  if MAXVA <=? va then mret 0 else
  pte ← walk pagetable va false;
  if pte =? 0 then mret 0 else
  v ← load64 pte;
  if Z.land v PTE_V =? 0 then mret 0 else
  if Z.land v PTE_U =? 0 then mret 0 else
  mret (PTE2PA v).

(** The loop of [mappages] visits [size / PGSIZE] pages. *)
Definition mappages (pagetable va size pa perm : Z) : M Z :=
  if negb (va mod PGSIZE =? 0) then panic "mappages: va not aligned" else
  if negb (size mod PGSIZE =? 0) then panic "mappages: size not aligned" else
  if size =? 0 then panic "mappages: size" else
  let last := u64 (va + size - PGSIZE) in
  while_ (Z.to_nat (size / PGSIZE))
    (λ '(a, pa),
      pte ← walk pagetable a true;
      if pte =? 0 then mret (inr (-1)) else
      v ← load64 pte;
      if truth (Z.land v PTE_V) then panic "mappages: remap" else
      store64 pte (Z.lor (Z.lor (PA2PTE pa) perm) PTE_V);;
      if a =? last then mret (inr 0)
      else mret (inl (u64 (a + PGSIZE), u64 (pa + PGSIZE))))
    (va, pa).

Definition ismapped (pagetable va : Z) : M bool :=
  pte ← walk pagetable va false;
  if pte =? 0 then mret false else
  v ← load64 pte;
  mret (truth (Z.land v PTE_V)).

(** ** The kernel's page table *)

Definition kvmmap (kpgtbl va pa sz perm : Z) : M unit :=
  r ← mappages kpgtbl va sz pa perm;
  if negb (r =? 0) then panic "kvmmap" else skip.

(** [proc_mapstacks] of kernel/proc.c. *)
Definition proc_mapstacks (kpgtbl : Z) : M unit :=
  for_each (seq 0 NPROC) (λ p,
    pa ← kalloc;
    if pa =? 0 then panic "kalloc" else
    let va := KSTACK (Z.of_nat p) in
    kvmmap kpgtbl va pa PGSIZE (Z.lor PTE_R PTE_W)).

Definition kvmmake : M Z :=
  kpgtbl ← kalloc;
  do_memset kpgtbl 0 PGSIZE;;
  kvmmap kpgtbl UART0 UART0 PGSIZE (Z.lor PTE_R PTE_W);;
  kvmmap kpgtbl VIRTIO0 VIRTIO0 PGSIZE (Z.lor PTE_R PTE_W);;
  kvmmap kpgtbl PLIC PLIC 0x4000000 (Z.lor PTE_R PTE_W);;
  kvmmap kpgtbl KERNBASE KERNBASE (u64 (etext - KERNBASE)) (Z.lor PTE_R PTE_X);;
  kvmmap kpgtbl etext etext (u64 (PHYSTOP - etext)) (Z.lor PTE_R PTE_W);;
  kvmmap kpgtbl TRAMPOLINE trampoline PGSIZE (Z.lor PTE_R PTE_X);;
  proc_mapstacks kpgtbl;;
  mret kpgtbl.

Definition kvminit : M unit :=
  pt ← kvmmake;
  modify (λ s, s <| k_kpt := pt |>).

(** The TLB is not part of the model. *)
Definition sfence_vma : M unit := skip.

Definition kvminithart : M unit :=
  sfence_vma;;
  pt ← gets k_kpt;
  w_satp (MAKE_SATP pt);;
  sfence_vma.

(** ** User page tables *)

Definition uvmcreate : M Z :=
  pagetable ← kalloc;
  if pagetable =? 0 then mret 0 else
  do_memset pagetable 0 PGSIZE;;
  mret pagetable.

Definition uvmunmap (pagetable va npages : Z) (do_free : bool) : M unit :=
  if negb (va mod PGSIZE =? 0) then panic "uvmunmap: not aligned" else
  while_ (S (Z.to_nat npages))
    (λ a,
      if a <? u64 (va + u64 (npages * PGSIZE)) then
        pte ← walk pagetable a false;
        if pte =? 0 then mret (inl (u64 (a + PGSIZE))) else
        v ← load64 pte;
        if Z.land v PTE_V =? 0 then mret (inl (u64 (a + PGSIZE))) else
        when do_free (kfree (PTE2PA v));;
        store64 pte 0;;
        mret (inl (u64 (a + PGSIZE)))
      else mret (inr tt))
    va.

Definition uvmdealloc (pagetable oldsz newsz : Z) : M Z :=
  if oldsz <=? newsz then mret oldsz else
  when (PGROUNDUP newsz <? PGROUNDUP oldsz)
    (let npages := i32 ((PGROUNDUP oldsz - PGROUNDUP newsz) / PGSIZE) in
     uvmunmap pagetable (PGROUNDUP newsz) (u64 npages) true);;
  mret newsz.

Definition uvmalloc (pagetable oldsz newsz xperm : Z) : M Z :=
  if newsz <? oldsz then mret oldsz else
  let oldsz := PGROUNDUP oldsz in
  while_ (S (Z.to_nat ((newsz - oldsz + PGSIZE - 1) / PGSIZE)))
    (λ a,
      if a <? newsz then
        mem ← kalloc;
        if mem =? 0 then uvmdealloc pagetable a oldsz;; mret (inr 0) else
        do_memset mem 0 PGSIZE;;
        r ← mappages pagetable a PGSIZE mem (Z.lor (Z.lor PTE_R PTE_U) xperm);
        if negb (r =? 0) then kfree mem;; uvmdealloc pagetable a oldsz;; mret (inr 0)
        else mret (inl (u64 (a + PGSIZE)))
      else mret (inr newsz))
    oldsz.

(** The recursion of [freewalk] goes down one level of the tree at a time; a
    table of three levels needs depth 3. *)
Fixpoint freewalk_at (depth : nat) (pagetable : Z) : M unit :=
  match depth with
  | O => nofuel
  | S depth =>
      for_each (seq 0 512) (λ i,
        let slot := pagetable + 8 * Z.of_nat i in
        pte ← load64 slot;
        if truth (Z.land pte PTE_V) && (Z.land pte (Z.lor (Z.lor PTE_R PTE_W) PTE_X) =? 0) then
          freewalk_at depth (PTE2PA pte);;
          store64 slot 0
        else if truth (Z.land pte PTE_V) then panic "freewalk: leaf"
        else skip);;
      kfree pagetable
  end.

Definition freewalk (pagetable : Z) : M unit := freewalk_at 3 pagetable.

Definition uvmfree (pagetable sz : Z) : M unit :=
  when (0 <? sz) (uvmunmap pagetable 0 (PGROUNDUP sz / PGSIZE) true);;
  freewalk pagetable.

(** [err:] of [uvmcopy] *)
Definition uvmcopy_err (new i : Z) : M Z :=
  uvmunmap new 0 (i / PGSIZE) true;; mret (-1).

Definition uvmcopy (old new sz : Z) : M Z :=
  while_ (S (Z.to_nat ((sz + PGSIZE - 1) / PGSIZE)))
    (λ i,
      if i <? sz then
        pte ← walk old i false;
        if pte =? 0 then mret (inl (u64 (i + PGSIZE))) else
        v ← load64 pte;
        if Z.land v PTE_V =? 0 then mret (inl (u64 (i + PGSIZE))) else
        let pa := PTE2PA v in
        let flags := PTE_FLAGS v in
        mem ← kalloc;
        if mem =? 0 then r ← uvmcopy_err new i; mret (inr r) else
        do_memmove mem pa PGSIZE;;
        r ← mappages new i PGSIZE mem flags;
        if negb (r =? 0) then kfree mem;; r ← uvmcopy_err new i; mret (inr r)
        else mret (inl (u64 (i + PGSIZE)))
      else mret (inr 0))
    0.

Definition uvmclear (pagetable va : Z) : M unit :=
  pte ← walk pagetable va false;
  if pte =? 0 then panic "uvmclear" else
  v ← load64 pte;
  store64 pte (Z.land v (u64 (Z.lnot PTE_U))).

(** ** Lazy allocation and copies between kernel and user *)

Definition vmfault (pagetable va : Z) : M Z :=
  p ← curproc;
  x ← get_proc p;
  if p_sz x <=? va then mret 0 else
  let va := PGROUNDDOWN va in
  m ← ismapped pagetable va;
  if (m : bool) then mret 0 else
  mem ← kalloc;
  if mem =? 0 then mret 0 else
  do_memset mem 0 PGSIZE;;
  x ← get_proc p;
  r ← mappages (p_pagetable x) va PGSIZE mem (Z.lor (Z.lor PTE_W PTE_U) PTE_R);
  if negb (r =? 0) then kfree mem;; mret 0 else
  mret mem.

(** [walkaddr], and [vmfault] when the page is not there yet. *)
Definition user_page (pagetable va0 : Z) : M Z :=
  pa0 ← walkaddr pagetable va0;
  if pa0 =? 0 then vmfault pagetable va0 else mret pa0.

(** A copy of [len] bytes touches at most [len / PGSIZE + 2] pages. *)
Definition copy_fuel (len : Z) : nat := Z.to_nat (len / PGSIZE) + 3.

Definition copyout (pagetable dstva : Z) (src : list Z) (len : Z) : M Z :=
  while_ (copy_fuel len)
    (λ '(dstva, src, len),
      if 0 <? len then
        let va0 := PGROUNDDOWN dstva in
        if MAXVA <=? va0 then mret (inr (-1)) else
        pa0 ← user_page pagetable va0;
        if pa0 =? 0 then mret (inr (-1)) else
        pte ← walk pagetable va0 false;
        if pte =? 0 then ub else
        v ← load64 pte;
        if Z.land v PTE_W =? 0 then mret (inr (-1)) else
        let n := Z.min (PGSIZE - (dstva - va0)) len in
        store_bytes (pa0 + (dstva - va0)) (take (Z.to_nat n) src);;
        mret (inl (u64 (va0 + PGSIZE), drop (Z.to_nat n) src, len - n))
      else mret (inr 0))
    (dstva, src, len).

(** [copyin] returns the status and the bytes stored so far in [dst]. *)
Definition copyin (pagetable srcva len : Z) : M (Z * list Z) :=
  while_ (copy_fuel len)
    (λ '(dst, srcva, len),
      if 0 <? len then
        let va0 := PGROUNDDOWN srcva in
        pa0 ← user_page pagetable va0;
        if pa0 =? 0 then mret (inr (-1, dst)) else
        let n := Z.min (PGSIZE - (srcva - va0)) len in
        l ← load_bytes (pa0 + (srcva - va0)) (Z.to_nat n);
        mret (inl (dst ++ l, u64 (va0 + PGSIZE), len - n))
      else mret (inr (0, dst)))
    ([], srcva, len).

(** The inner loop of [copyinstr]: the bytes stored, up to and including a
    NUL, and whether one was found. *)
Fixpoint copyinstr_bytes (l : list Z) : list Z * bool :=
  match l with
  | [] => ([], false)
  | c :: l =>
      if c =? 0 then ([0], true)
      else let '(r, got) := copyinstr_bytes l in (c :: r, got)
  end.

Definition copyinstr (pagetable srcva max : Z) : M (Z * list Z) :=
  while_ (copy_fuel max)
    (λ '(dst, srcva, max, got_null),
      if negb got_null && (0 <? max) then
        let va0 := PGROUNDDOWN srcva in
        pa0 ← walkaddr pagetable va0;
        if pa0 =? 0 then mret (inr (-1, dst)) else
        let n := Z.min (PGSIZE - (srcva - va0)) max in
        l ← load_bytes (pa0 + (srcva - va0)) (Z.to_nat n);
        let '(w, got) := copyinstr_bytes l in
        mret (inl (dst ++ w, u64 (va0 + PGSIZE),
                   (if got : bool then max - (Z.of_nat (length w) - 1) else max - n), got))
      else mret (inr (if (got_null : bool) then 0 else -1, dst)))
    ([], srcva, max, false).

End vm.
