(* ===== verification/VmSpec.v ===== *)
(** * Correctness of the page tables

    A page table is a three-level tree of pages in physical memory.  The
    abstract view is the translation [tr]: the valid leaf entry of a virtual
    address.  [walk] and [mappages] are shown to keep the tree well formed and
    to change the translation exactly where they are meant to. *)

From S2P Require Import Prelude Riscv State Boot Spinlock ProcTable Machine CString Kalloc Vm.

(** ** Entries and indices as numbers *)

Lemma lor_low_add k n f : 0 ≤ n → 0 ≤ f < 2 ^ n → Z.lor (k * 2 ^ n) f = k * 2 ^ n + f.
Proof.
  intros Hn Hf. assert (Hl : Z.land (k * 2 ^ n) f = 0).
  { apply Z.bits_inj'. intros i Hi. rewrite Z.land_spec, Z.bits_0.
    destruct (decide (i < n)) as [Hlt|Hge].
    - by rewrite Z.mul_pow2_bits_low.
    - rewrite (testbit_above n f i) by lia. apply andb_false_r. }
  by rewrite <- Z.lxor_lor, <- Z.add_nocarry_lxor.
Qed.

Lemma PA2PTE_eq pa : 0 ≤ pa < 2 ^ 56 → PA2PTE pa = pa / 4096 * 2 ^ 10.
Proof.
  intros Hpa. unfold PA2PTE. rewrite (u64_small pa) by lia.
  rewrite Z.shiftl_mul_pow2, Z.shiftr_div_pow2 by lia. change (2 ^ 12) with 4096.
  apply u64_small. assert (pa / 4096 < 2 ^ 44) by (apply Z.div_lt_upper_bound; lia).
  pose proof (Z.div_pos pa 4096). lia.
Qed.

(** The entry [mappages] and [walk] store. *)
Definition mk_pte (pa perm : Z) : Z := Z.lor (Z.lor (PA2PTE pa) perm) PTE_V.

Lemma mk_pte_0 pa : mk_pte pa 0 = Z.lor (PA2PTE pa) PTE_V.
Proof. unfold mk_pte. by rewrite Z.lor_0_r. Qed.

Lemma flags_range perm : 0 ≤ perm < 2 ^ 10 → 0 ≤ Z.lor perm PTE_V < 2 ^ 10.
Proof.
  intros Hp. split; [apply Z.lor_nonneg; split; [lia|done]|].
  destruct (decide (Z.lor perm PTE_V = 0)) as [->|Hne]; [lia|].
  assert (0 ≤ Z.lor perm PTE_V) by (apply Z.lor_nonneg; split; [lia|done]).
  apply Z.log2_lt_pow2; [lia|]. rewrite Z.log2_lor by (lia || done).
  apply Z.max_lub_lt; [|done]. destruct (decide (perm = 0)) as [->|]; [done|].
  apply Z.log2_lt_pow2; lia.
Qed.

Lemma mk_pte_eq pa perm :
  0 ≤ pa < 2 ^ 56 → 0 ≤ perm < 2 ^ 10 → mk_pte pa perm = pa / 4096 * 2 ^ 10 + Z.lor perm PTE_V.
Proof.
  intros Hpa Hp. unfold mk_pte. rewrite <- Z.lor_assoc, PA2PTE_eq by done.
  apply lor_low_add; [lia|by apply flags_range].
Qed.

Lemma mk_pte_range pa perm :
  0 ≤ pa < 2 ^ 56 → 0 ≤ perm < 2 ^ 10 → 0 ≤ mk_pte pa perm < 2 ^ 64.
Proof.
  intros Hpa Hp. rewrite mk_pte_eq by done. pose proof (flags_range perm Hp).
  assert (pa / 4096 < 2 ^ 44) by (apply Z.div_lt_upper_bound; lia).
  pose proof (Z.div_pos pa 4096). lia.
Qed.

Lemma PTE2PA_mk_pte pa perm :
  0 ≤ pa < 2 ^ 56 → pa mod PGSIZE = 0 → 0 ≤ perm < 2 ^ 10 → PTE2PA (mk_pte pa perm) = pa.
Proof.
  intros Hpa Hal Hp. unfold PTE2PA. rewrite mk_pte_eq by done.
  pose proof (flags_range perm Hp) as Hf.
  rewrite Z.shiftr_div_pow2, Z.shiftl_mul_pow2 by lia.
  rewrite Z.add_comm, Z.div_add, Z.div_small, Z.add_0_l by lia.
  unfold PGSIZE in Hal. pose proof (Z.div_mod pa 4096). change (2 ^ 12) with 4096.
  rewrite u64_small; lia.
Qed.

Lemma PTE_FLAGS_mk_pte pa perm :
  0 ≤ pa < 2 ^ 56 → 0 ≤ perm < 2 ^ 10 → PTE_FLAGS (mk_pte pa perm) = Z.lor perm PTE_V.
Proof.
  intros Hpa Hp. unfold PTE_FLAGS. change 0x3FF with (Z.ones 10). rewrite Z.land_ones by lia.
  rewrite mk_pte_eq by done. rewrite Z.add_comm, Z.mod_add by lia.
  apply Z.mod_small. by apply flags_range.
Qed.

Definition valid (v : Z) : bool := truth (Z.land v PTE_V).

Lemma valid_mk_pte pa perm : valid (mk_pte pa perm) = true.
Proof.
  unfold valid, mk_pte. rewrite Z.land_lor_distr_l. change (Z.land PTE_V PTE_V) with 1.
  unfold truth. destruct (Z.eqb_spec (Z.lor (Z.land (Z.lor (PA2PTE pa) perm) PTE_V) 1) 0) as [E|]; [|done].
  apply Z.lor_eq_0_iff in E. lia.
Qed.

(** The index of a virtual address at each level. *)
Lemma PX_eq level va :
  0 ≤ level → 0 ≤ va < 2 ^ 64 → PX level va = va / 2 ^ (12 + 9 * level) mod 512.
Proof.
  intros Hl Hva. unfold PX, PXSHIFT, PGSHIFT. rewrite u64_small by done.
  rewrite Z.shiftr_div_pow2 by lia. change PXMASK with (Z.ones 9). by rewrite Z.land_ones.
Qed.

Lemma PX_range level va : 0 ≤ level → 0 ≤ va < 2 ^ 64 → 0 ≤ PX level va < 512.
Proof. intros. rewrite PX_eq by done. apply Z.mod_pos_bound. lia. Qed.

(** Two addresses below [MAXVA] with the same indices are in the same page. *)
Lemma PX_inj va va' :
  0 ≤ va < MAXVA → 0 ≤ va' < MAXVA →
  PX 2 va = PX 2 va' → PX 1 va = PX 1 va' → PX 0 va = PX 0 va' → va / PGSIZE = va' / PGSIZE.
Proof.
  change MAXVA with (2 ^ 38). intros Hva Hva'. rewrite !PX_eq by lia.
  change (2 ^ (12 + 9 * 2)) with (4096 * 512 * 512). change (2 ^ (12 + 9 * 1)) with (4096 * 512).
  change (2 ^ (12 + 9 * 0)) with 4096. change PGSIZE with 4096.
  rewrite <- !Z.div_div by lia.
  assert (va / 4096 < 2 ^ 26) by (apply Z.div_lt_upper_bound; lia).
  assert (va' / 4096 < 2 ^ 26) by (apply Z.div_lt_upper_bound; lia).
  assert (0 ≤ va / 4096) by (apply Z.div_pos; lia). assert (0 ≤ va' / 4096) by (apply Z.div_pos; lia).
  generalize dependent (va / 4096). generalize dependent (va' / 4096). clear.
  intros b Hb Hb0 a Ha Ha0 H2 H1 H0.
  pose proof (Z.div_mod a 512). pose proof (Z.div_mod b 512).
  pose proof (Z.div_mod (a / 512) 512). pose proof (Z.div_mod (b / 512) 512).
  assert (a / 512 / 512 < 512) by (apply Z.div_lt_upper_bound; [lia|]; apply Z.div_lt_upper_bound; lia).
  assert (b / 512 / 512 < 512) by (apply Z.div_lt_upper_bound; [lia|]; apply Z.div_lt_upper_bound; lia).
  assert (0 ≤ a / 512 / 512) by (do 2 (apply Z.div_pos; [|lia]); lia).
  assert (0 ≤ b / 512 / 512) by (do 2 (apply Z.div_pos; [|lia]); lia).
  rewrite (Z.mod_small (a / 512 / 512)), (Z.mod_small (b / 512 / 512)) in H2 by lia. lia.
Qed.

(** ** The tree in memory *)

Definition entry (m : gmap Z Z) (p i : Z) : Z := mload64 m (p + 8 * i).

Definition child (m : gmap Z Z) (p i : Z) : option Z :=
  if valid (entry m p i) then Some (PTE2PA (entry m p i)) else None.

(** The table page reached from the root [pt] along the indices [k]. *)
Definition node (m : gmap Z Z) (pt : Z) (k : list Z) : option Z :=
  foldl (λ o i, o ≫= λ p, child m p i) (Some pt) k.

(** Indices of a table page: the root, a second- or a third-level page. *)
Definition key (k : list Z) : Prop := (length k ≤ 2)%nat ∧ Forall (λ i, 0 ≤ i < 512) k.

(** The leaf entry that translates [va]. *)
Definition tr (m : gmap Z Z) (pt va : Z) : option Z :=
  p ← node m pt [PX 2 va; PX 1 va];
  let v := entry m p (PX 0 va) in if valid v then Some v else None.

(** The tables are pages of their own: no page is used twice, none is free. *)
Record pt_wf `{Image} (m : gmap Z Z) (pt : Z) (F : list Z) : Prop := {
  wf_ok k p : key k → node m pt k = Some p → page_ok p;
  wf_inj k k' p : key k → key k' → node m pt k = Some p → node m pt k' = Some p → k = k';
  wf_free k p : key k → node m pt k = Some p → p ∉ F
}.

Lemma node_snoc m pt k i : node m pt (k ++ [i]) = node m pt k ≫= λ p, child m p i.
Proof. unfold node. by rewrite foldl_app. Qed.

Lemma key_snoc k i : key (k ++ [i]) → key k ∧ (length k ≤ 1)%nat ∧ 0 ≤ i < 512.
Proof.
  intros [Hl Hf]. rewrite length_app in Hl. cbn in Hl. apply Forall_app in Hf as [Hf Hi].
  apply Forall_cons_1 in Hi as [Hi _]. split_and!; [split; [lia|done]|lia|lia|lia].
Qed.

Lemma key_snoc_2 k i : key k → (length k ≤ 1)%nat → 0 ≤ i < 512 → key (k ++ [i]).
Proof.
  intros [_ Hf] Hl Hi. split; [rewrite length_app; cbn; lia|].
  apply Forall_app_2; [done|]. by constructor.
Qed.

Lemma key_PX va : 0 ≤ va < 2 ^ 64 → key [PX 2 va; PX 1 va].
Proof.
  intros Hva. split; [cbn; lia|]. constructor; [by apply PX_range|].
  constructor; [by apply PX_range|constructor].
Qed.

Section tree.
Context `{Image}.

(** A slot of a table page. *)
Lemma slot_in_page p i x : 0 ≤ i < 512 → p + 8 * i ≤ x < p + 8 * i + 8 → in_page p x.
Proof. unfold in_page, PGSIZE. lia. Qed.

Lemma entry_ext m m' p i :
  0 ≤ i < 512 → (∀ x, in_page p x → mget m x = mget m' x) → entry m p i = entry m' p i.
Proof.
  intros Hi Hm. apply mload64_ext. intros x Hx. apply Hm. by apply (slot_in_page p i).
Qed.

Lemma entry_store m p i v :
  0 ≤ v < 2 ^ 64 → entry (mstore64 m (p + 8 * i) v) p i = v.
Proof. apply mload64_mstore64. Qed.

Lemma entry_store_ne m p i q j v :
  page_ok p → page_ok q → 0 ≤ i < 512 → 0 ≤ j < 512 → (p, i) ≠ (q, j) →
  entry (mstore64 m (p + 8 * i) v) q j = entry m q j.
Proof.
  intros Hp Hq Hi Hj Hne. apply mload64_mstore64_ne.
  destruct (decide (p = q)) as [->|Hpq]; [assert (i ≠ j) by congruence; lia|].
  assert (Hd : p + PGSIZE ≤ q ∨ q + PGSIZE ≤ p).
  { destruct (decide (p + PGSIZE ≤ q)); [by left|]. destruct (decide (q + PGSIZE ≤ p)); [by right|].
    exfalso. destruct (decide (p ≤ q)).
    - apply (page_disjoint p q q); unfold in_page, PGSIZE in *; (done || lia).
    - apply (page_disjoint q p p); unfold in_page, PGSIZE in *; try (done || lia). }
  unfold PGSIZE in Hd. lia.
Qed.

Lemma entry_zero m p i : 0 ≤ i < 512 → (∀ x, in_page p x → mget m x = 0) → entry m p i = 0.
Proof.
  intros Hi Hz. rewrite (entry_ext m ∅ p i); [|done|by intros x Hx; rewrite Hz].
  unfold entry, mload64, mbytes. cbn. done.
Qed.

Lemma child_ext m m' p i : entry m p i = entry m' p i → child m p i = child m' p i.
Proof. unfold child. by intros ->. Qed.

(** ** Adding a table page *)

(** [m'] is [m] with the new, empty page [q] hung at index [i] of [p]. *)
Record extends (m m' : gmap Z Z) (p i q : Z) : Prop := {
  ex_new : entry m' p i = mk_pte q 0;
  ex_zero j : 0 ≤ j < 512 → entry m' q j = 0;
  ex_old r j : page_ok r → r ≠ q → 0 ≤ j < 512 → (r, j) ≠ (p, i) → entry m' r j = entry m r j
}.

Section extend.
Context (m m' : gmap Z Z) (pt : Z) (F : list Z) (k : list Z) (p i q : Z).
Hypothesis Hwf : pt_wf m pt F.
Hypothesis Hk : key (k ++ [i]).
Hypothesis Hp : node m pt k = Some p.
Hypothesis Hc : child m p i = None.
Hypothesis Hq : page_ok q.
Hypothesis Hfresh : ∀ k r, key k → node m pt k = Some r → r ≠ q.
Hypothesis Hex : extends m m' p i q.

Lemma extend_node k' :
  key k' → node m' pt k' = if decide (k' = k ++ [i]) then Some q else node m pt k'.
Proof.
  destruct (key_snoc _ _ Hk) as (Hk0 & Hlen & Hi).
  induction k' as [|j k' IH] using rev_ind; intros Hk'.
  { rewrite decide_False; [done|]. by destruct k. }
  destruct (key_snoc _ _ Hk') as (Hk1 & Hl1 & Hj). rewrite !node_snoc, (IH Hk1).
  destruct (decide (k' = k ++ [i])) as [->|Hne].
  - cbn. rewrite decide_False by (intros E%(f_equal length); rewrite !length_app in E; cbn in E; lia).
    rewrite node_snoc, Hp. cbn. rewrite Hc. cbn. unfold child. by rewrite (ex_zero _ _ _ _ _ Hex).
  - destruct (node m pt k') as [r|] eqn:Hr; cbn.
    2:{ rewrite decide_False; [done|]. intros E. apply app_inj_tail in E as [-> ->]. congruence. }
    destruct (decide ((r, j) = (p, i))) as [[= -> ->]|Hrj].
    + assert (k' = k) as -> by (eapply (wf_inj _ _ _ Hwf); done).
      rewrite decide_True by done. unfold child. rewrite (ex_new _ _ _ _ _ Hex), valid_mk_pte.
      f_equal. apply PTE2PA_mk_pte; [|apply Hq|lia]. pose proof (page_ok_range _ Hq).
      destruct Hq as (? & _ & _ & Hlt). unfold PHYSTOP, KERNBASE in Hlt. lia.
    + rewrite decide_False.
      * apply child_ext, (ex_old _ _ _ _ _ Hex); [by eapply (wf_ok _ _ _ Hwf)|by eapply Hfresh|done|done].
      * intros E. apply app_inj_tail in E as [-> ->]. congruence.
Qed.

Lemma extend_wf F' : (∀ x, x ∈ F' → x ∈ F) → q ∉ F' → pt_wf m' pt F'.
Proof.
  intros Hsub Hni. split.
  - intros k' r Hk'. rewrite extend_node by done. destruct (decide _); [by intros [= <-]|]. by eapply (wf_ok _ _ _ Hwf).
  - intros k1 k2 r Hk1 Hk2. rewrite !extend_node by done.
    destruct (decide (k1 = k ++ [i])) as [->|], (decide (k2 = k ++ [i])) as [->|]; [done| | |].
    + intros [= <-] Hr. by destruct (Hfresh k2 q).
    + intros Hr [= <-]. by destruct (Hfresh k1 q).
    + by eapply (wf_inj _ _ _ Hwf).
  - intros k' r Hk'. rewrite extend_node by done. destruct (decide _); [by intros [= <-]|].
    intros Hr Hin%Hsub. by eapply (wf_free _ _ _ Hwf).
Qed.

Lemma extend_tr va : 0 ≤ va < 2 ^ 64 → tr m' pt va = tr m pt va.
Proof.
  intros Hva. pose proof (key_PX va Hva) as Hkv. pose proof (PX_range 0 va ltac:(lia) Hva) as H0.
  destruct (key_snoc _ _ Hk) as (Hk0 & Hlen & Hi).
  unfold tr. rewrite extend_node by done. destruct (decide _) as [->|Hne].
  - rewrite node_snoc, Hp. cbn [mbind option_bind]. rewrite Hc. cbn [mbind option_bind].
    by rewrite (ex_zero _ _ _ _ _ Hex).
  - destruct (node m pt [PX 2 va; PX 1 va]) as [r|] eqn:Hr; cbn [mbind option_bind]; [|done].
    rewrite (ex_old _ _ _ _ _ Hex); [done|by apply (wf_ok _ _ _ Hwf _ _ Hkv)|by apply (Hfresh _ _ Hkv)|done|].
    intros [= -> _]. assert (E : k = [PX 2 va; PX 1 va]) by (by apply (wf_inj _ _ _ Hwf _ _ _ Hk0 Hkv Hp)).
    rewrite E in Hlen. cbn in Hlen. lia.
Qed.

End extend.
End tree.

(** ** Writing a leaf entry *)

Section leaf.
Context `{Image} (m : gmap Z Z) (pt : Z) (F : list Z) (va p v : Z).
Hypothesis Hwf : pt_wf m pt F.
Hypothesis Hva : 0 ≤ va < 2 ^ 64.
Hypothesis Hp : node m pt [PX 2 va; PX 1 va] = Some p.
Hypothesis Hv : 0 ≤ v < 2 ^ 64.

Let m' := mstore64 m (p + 8 * PX 0 va) v.

Lemma leaf_entry k r j :
  key k → node m pt k = Some r → 0 ≤ j < 512 → (k, j) ≠ ([PX 2 va; PX 1 va], PX 0 va) →
  entry m' r j = entry m r j.
Proof.
  intros Hk Hr Hj Hne. pose proof (key_PX va Hva) as Hkv.
  apply entry_store_ne; [by apply (wf_ok _ _ _ Hwf _ _ Hkv)|by apply (wf_ok _ _ _ Hwf _ _ Hk)
    |by apply PX_range|done|].
  intros [= <- <-]. apply Hne. f_equal. by apply (wf_inj _ _ _ Hwf _ _ _ Hk Hkv Hr).
Qed.

Lemma leaf_node k : key k → node m' pt k = node m pt k.
Proof.
  induction k as [|j k IH] using rev_ind; intros Hk; [done|].
  destruct (key_snoc _ _ Hk) as (Hk1 & Hl & Hj). rewrite !node_snoc, IH by done.
  destruct (node m pt k) as [r|] eqn:Hr; cbn [mbind option_bind]; [|done].
  apply child_ext, (leaf_entry k); [done|done|done|]. intros [= -> _]. cbn in Hl. lia.
Qed.

Lemma leaf_wf : pt_wf m' pt F.
Proof.
  split.
  - intros k r Hk. rewrite leaf_node by done. by apply (wf_ok _ _ _ Hwf).
  - intros k k' r Hk Hk'. rewrite !leaf_node by done. by apply (wf_inj _ _ _ Hwf).
  - intros k r Hk. rewrite leaf_node by done. by apply (wf_free _ _ _ Hwf).
Qed.

Lemma leaf_tr va' :
  0 ≤ va' < MAXVA → va < MAXVA →
  tr m' pt va' = if decide (va' / PGSIZE = va / PGSIZE)
                 then (if valid v then Some v else None) else tr m pt va'.
Proof.
  intros Hva' Hmax. assert (Hlt : MAXVA < 2 ^ 64) by done.
  pose proof (key_PX va Hva) as Hkv. pose proof (key_PX va' ltac:(lia)) as Hkv'.
  pose proof (PX_range 0 va' ltac:(lia) ltac:(lia)) as H0.
  unfold tr. rewrite leaf_node by done. destruct (decide _) as [Heq|Hne].
  - assert (HPX : ∀ l, 0 ≤ l → PX l va' = PX l va).
    { intros l Hl. rewrite !PX_eq by lia. rewrite Z.pow_add_r by lia.
      rewrite <- !Z.div_div by (try apply Z.pow_pos_nonneg; lia).
      change (2 ^ 12) with PGSIZE. by rewrite Heq. }
    rewrite !HPX, Hp by lia. cbn [mbind option_bind]. unfold m'. by rewrite entry_store.
  - destruct (node m pt [PX 2 va'; PX 1 va']) as [r|] eqn:Hr; cbn [mbind option_bind]; [|done].
    rewrite (leaf_entry [PX 2 va'; PX 1 va']); [done|done|done|done|].
    intros [= H2 H1 H00]. apply Hne. by apply PX_inj; [lia|lia| | |].
Qed.

End leaf.

(** ** walk *)

(** The table pages of [pt]. *)
Definition is_table (m : gmap Z Z) (pt q : Z) : Prop := ∃ k, key k ∧ node m pt k = Some q.

(** Bytes outside the tables and the free pages are the same. *)
Definition data_same (m m' : gmap Z Z) (pt : Z) (F : list Z) : Prop :=
  ∀ x, (∀ q, is_table m pt q ∨ q ∈ F → ¬ in_page q x) → mget m' x = mget m x.

Section walk.
Context `{Image} (free : kernel → list Z → Prop) `{!PageAllocator free}.

(** What the operations on page tables need of the state. *)
Record vm_ok (pt : Z) (F : list Z) (s : kernel) : Prop := {
  vo_hart : ∃ n, hart_at n (k_hw s);
  vo_lock : lock_free L_kmem (k_hw s);
  vo_free : free s F;
  vo_wf : pt_wf (k_mem s) pt F
}.

Lemma mem_only_hw s s' : mem_only s s' → k_hw s' = k_hw s.
Proof. unfold mem_only. intros ->. done. Qed.

(** Reading a table changes nothing. *)
Lemma walk_read va pt s :
  0 ≤ va < MAXVA →
  walk pt va false s =
    Ret (match node (k_mem s) pt [PX 2 va; PX 1 va] with Some p => p + 8 * PX 0 va | None => 0 end) s.
Proof.
  intros Hva. unfold walk. destruct (Z.leb_spec MAXVA va); [lia|].
  unfold node. cbn [foldl walk_levels mbind option_bind]. unfold load64. mrun.
  unfold child at 2, entry, valid. destruct (truth _) eqn:H2; cbn [mbind option_bind]; [|done].
  mrun. unfold child, entry, valid. match goal with |- context [truth ?b] => by destruct (truth b) end.
Qed.

(** The state after [walk] hung the new page [q] at index [i] of [p]. *)
Lemma new_table s s1 pt F k p i q :
  vm_ok pt (q :: F) s → key (k ++ [i]) → node (k_mem s) pt k = Some p →
  child (k_mem s) p i = None → mem_only s s1 → free s1 F → page_ok q → q ∉ F →
  (∀ x, ¬ in_page q x → mget (k_mem s1) x = mget (k_mem s) x) →
  let t := s1 <| k_mem ::= memset q 0 PGSIZE |> in
  let s2 := t <| k_mem := mstore64 (k_mem t) (p + 8 * i) (mk_pte q 0) |> in
  vm_ok pt F s2 ∧ mem_only s s2 ∧ node (k_mem s2) pt (k ++ [i]) = Some q ∧
  (∀ va, 0 ≤ va < 2 ^ 64 → tr (k_mem s2) pt va = tr (k_mem s) pt va) ∧
  (∀ r, is_table (k_mem s2) pt r → is_table (k_mem s) pt r ∨ r = q) ∧
  data_same (k_mem s) (k_mem s2) pt (q :: F).
Proof.
  intros [Hh Hl Hf Hwf] Hk Hp Hc Hmo Hf1 Hq Hni Hfr t s2.
  destruct (key_snoc _ _ Hk) as (Hk0 & Hlen & Hi).
  assert (Hpok : page_ok p) by by apply (wf_ok _ _ _ Hwf _ _ Hk0).
  assert (Hfresh : ∀ k r, key k → node (k_mem s) pt k = Some r → r ≠ q).
  { intros k' r Hk' Hr ->. apply (wf_free _ _ _ Hwf _ _ Hk' Hr). by left. }
  assert (Hpq : p ≠ q) by by apply (Hfresh k).
  assert (Hr : 0 ≤ mk_pte q 0 < 2 ^ 64).
  { apply mk_pte_range; [|lia]. destruct Hq as (? & _ & _ & Hlt). unfold PHYSTOP, KERNBASE in Hlt. lia. }
  assert (Hm2 : ∀ x, ¬ in_page q x → (x < p + 8 * i ∨ p + 8 * i + 8 ≤ x) → mget (k_mem s2) x = mget (k_mem s) x).
  { intros x Hx Hx'. unfold s2, t. ksimpl. rewrite mget_mstore64 by done.
    rewrite memset_page by done. by apply Hfr. }
  assert (Hex : extends (k_mem s) (k_mem s2) p i q).
  { split.
    - unfold s2, t. ksimpl. by apply entry_store.
    - intros j Hj. unfold s2, t. ksimpl. rewrite entry_store_ne; [|done|done|done|done|congruence].
      apply entry_zero; [done|]. intros x Hx. by rewrite mget_memset, decide_True.
    - intros r j Hrok Hrq Hj Hne. unfold s2, t. ksimpl. rewrite entry_store_ne by congruence.
      apply entry_ext; [done|]. intros x Hx.
      assert (¬ in_page q x) by by apply (page_disjoint r q).
      rewrite memset_page by done. by apply Hfr. }
  assert (Hnode : ∀ k', key k' → node (k_mem s2) pt k' = if decide (k' = k ++ [i]) then Some q else node (k_mem s) pt k').
  { intros k' Hk'. by eapply extend_node. }
  split_and!.
  - split.
    + destruct Hh as [n Hh]. exists n. change (k_hw s2) with (k_hw s1). by rewrite (mem_only_hw _ _ Hmo).
    + change (k_hw s2) with (k_hw s1). by rewrite (mem_only_hw _ _ Hmo).
    + eapply pa_ext; [exact Hf1|done|]. intros r x Hrin Hx.
      assert (Hrok : page_ok r) by by eapply pa_page_ok.
      unfold s2, t. ksimpl. rewrite mget_mstore64.
      * apply memset_page, (page_disjoint r q); [done|done| |done]. by intros ->.
      * assert (Hnp : ¬ in_page p x).
        { apply (page_disjoint r p); [done|done| |done]. intros ->.
          apply (wf_free _ _ _ Hwf _ _ Hk0 Hp). by right. }
        unfold in_page, PGSIZE in Hnp. lia.
    + apply (extend_wf (k_mem s) _ pt (q :: F) k p i q Hwf Hk Hp Hc Hq Hfresh Hex); [by right|done].
  - by apply mem_only_set, mem_only_set.
  - rewrite Hnode by done. by rewrite decide_True.
  - intros va Hva. by apply (extend_tr _ _ pt (q :: F) k p i q Hwf Hk Hp Hc Hq Hfresh Hex).
  - intros r (k' & Hk' & Hr'). rewrite Hnode in Hr' by done. destruct (decide _); [right; congruence|].
    left. by exists k'.
  - intros x Hx. apply Hm2; [apply Hx; right; by left|].
    assert (Hnp : ¬ in_page p x) by (apply Hx; left; by exists k).
    unfold in_page, PGSIZE in Hnp. lia.
Qed.

(** What an operation that may allocate table pages leaves alone: free pages
    are used up from the front, bytes outside tables and free pages stay. *)
Record grows (pt : Z) (F F' : list Z) (s s' : kernel) : Prop := {
  gr_ok : vm_ok pt F' s';
  gr_mem : mem_only s s';
  gr_suffix : F' `suffix_of` F;
  gr_tables r : is_table (k_mem s') pt r → is_table (k_mem s) pt r ∨ r ∈ F;
  gr_data : data_same (k_mem s) (k_mem s') pt F
}.

Lemma grows_refl pt F s : vm_ok pt F s → grows pt F F s s.
Proof. intros Hok. split; [done|by destruct s|done|by left|done]. Qed.

Lemma elem_of_suffix (F F' : list Z) r : F' `suffix_of` F → r ∈ F' → r ∈ F.
Proof. intros [G ->] Hr. apply elem_of_app. by right. Qed.

Lemma grows_trans pt F F1 F2 s s1 s2 :
  grows pt F F1 s s1 → grows pt F1 F2 s1 s2 → grows pt F F2 s s2.
Proof.
  intros [Hok1 Hm1 Hs1 Ht1 Hd1] [Hok2 Hm2 Hs2 Ht2 Hd2].
  assert (Hsub : ∀ r, is_table (k_mem s1) pt r ∨ r ∈ F1 → is_table (k_mem s) pt r ∨ r ∈ F).
  { intros r [Hr|Hr]; [by apply Ht1|]. right. by eapply elem_of_suffix. }
  split; [done|by eapply mem_only_trans|by etrans| |].
  - intros r [Hr|Hr]%Ht2; apply Hsub; [by left|by right].
  - intros x Hx. rewrite Hd2; [by apply Hd1|]. intros q Hq. by apply Hx, Hsub.
Qed.

Lemma walk_levels_alloc pt va levels k p s F :
  0 ≤ va < MAXVA → vm_ok pt F s → node (k_mem s) pt k = Some p →
  k ++ ((λ l, PX l va) <$> levels) = [PX 2 va; PX 1 va] →
  ∃ r s' F', walk_levels levels p va true s = Ret r s' ∧ grows pt F F' s s' ∧
    (∀ va', 0 ≤ va' < 2 ^ 64 → tr (k_mem s') pt va' = tr (k_mem s) pt va') ∧
    (r = 0 ∧ F' = [] ∨
     ∃ p0, node (k_mem s') pt [PX 2 va; PX 1 va] = Some p0 ∧ r = p0 + 8 * PX 0 va).
Proof.
  intros Hva. assert (Hva' : 0 ≤ va < 2 ^ 64) by (split; [lia|]; apply Z.lt_trans with MAXVA; [lia|done]).
  pose proof (key_PX va Hva') as Hkey.
  revert k p s F. induction levels as [|l levels IH]; intros k p s F Hok Hp Hk; cbn [walk_levels].
  { cbn in Hk. rewrite app_nil_r in Hk. subst k. eexists _, s, F.
    split_and!; [reflexivity|by apply grows_refl|done|right; by exists p]. }
  cbn [fmap list_fmap] in Hk.
  assert (Hkl : key (k ++ [PX l va])).
  { rewrite cons_middle, app_assoc in Hk. rewrite <- Hk in Hkey. destruct Hkey as [Hlen Hf].
    apply Forall_app in Hf as [Hf _]. rewrite length_app in Hlen. split; [lia|done]. }
  unfold load64. mrun. fold (entry (k_mem s) p (PX l va)). fold (valid (entry (k_mem s) p (PX l va))).
  destruct (valid (entry (k_mem s) p (PX l va))) eqn:Hv.
  { apply (IH (k ++ [PX l va])); [done| |by rewrite <- app_assoc].
    rewrite node_snoc, Hp. cbn [mbind option_bind]. unfold child. by rewrite Hv. }
  cbn [negb]. destruct (vo_hart _ _ _ Hok) as [n Hh]. pose proof (vo_lock _ _ _ Hok) as Hl.
  pose proof (vo_free _ _ _ Hok) as Hf. destruct F as [|q F].
  { mrun. rewrite (pa_empty n) by done. mrun. eexists 0, s, [].
    split_and!; [reflexivity|by apply grows_refl|done|by left]. }
  destruct (pa_alloc n s q F Hh Hl Hf) as (s1 & Hs1 & Hmo & Hf1 & Hq & Hni & Hfr).
  assert (Hc : child (k_mem s) p (PX l va) = None) by (unfold child; by rewrite Hv).
  destruct (new_table s s1 pt F k p (PX l va) q Hok Hkl Hp Hc Hmo Hf1 Hq Hni Hfr)
    as (Hok2 & Hmo2 & Hn2 & Htr2 & Htb2 & Hd2).
  match type of Hok2 with vm_ok _ _ ?t => set (s2 := t) in * end.
  destruct (IH (k ++ [PX l va]) q s2 F Hok2 Hn2) as (r & s' & F' & Hw & Hg & Htr & Hr);
    [by rewrite <- app_assoc|].
  exists r, s', F'. split_and!; [| |intros va' Hv'; by rewrite Htr, Htr2|done].
  - mrun. rewrite Hs1. mrun. destruct (Z.eqb_spec q 0) as [->|]; [exfalso; destruct Hq; lia|].
    unfold do_memset, store64. mrun. rewrite <- mk_pte_0. exact Hw.
  - eapply grows_trans; [|exact Hg]. split; [done|done|by exists [q]| |done].
    intros r' [?| ->]%Htb2; [by left|]. right. by left.
Qed.

(** [walk] with allocation. *)
Lemma walk_alloc pt va s F :
  0 ≤ va < MAXVA → vm_ok pt F s →
  ∃ r s' F', walk pt va true s = Ret r s' ∧ grows pt F F' s s' ∧
    (∀ va', 0 ≤ va' < 2 ^ 64 → tr (k_mem s') pt va' = tr (k_mem s) pt va') ∧
    (r = 0 ∧ F' = [] ∨
     r ≠ 0 ∧ ∃ p0, node (k_mem s') pt [PX 2 va; PX 1 va] = Some p0 ∧ r = p0 + 8 * PX 0 va).
Proof.
  intros Hva Hok. unfold walk. destruct (Z.leb_spec MAXVA va); [lia|].
  assert (Hva' : 0 ≤ va < 2 ^ 64) by (split; [lia|]; apply Z.lt_trans with MAXVA; [lia|done]).
  destruct (walk_levels_alloc pt va [2; 1] [] pt s F Hva Hok) as (r & s' & F' & Hw & Hg & Htr & Hr); [done|done|].
  exists r, s', F'. split_and!; [done|done|done|]. destruct Hr as [Hr|(p0 & Hp0 & ->)]; [by left|].
  right. split; [|by exists p0].
  pose proof (wf_ok _ _ _ (vo_wf _ _ _ (gr_ok _ _ _ _ _ Hg)) _ _ (key_PX va Hva') Hp0) as (Hpos & _).
  pose proof (PX_range 0 va ltac:(lia) Hva'). lia.
Qed.

(** ** Mapping *)

(** Storing a leaf entry. *)
Lemma grows_leaf pt F s va p v :
  0 ≤ va < MAXVA → vm_ok pt F s → node (k_mem s) pt [PX 2 va; PX 1 va] = Some p → 0 ≤ v < 2 ^ 64 →
  let s' := s <| k_mem := mstore64 (k_mem s) (p + 8 * PX 0 va) v |> in
  grows pt F F s s' ∧
  ∀ va', 0 ≤ va' < MAXVA →
    tr (k_mem s') pt va' =
      if decide (va' / PGSIZE = va / PGSIZE) then (if valid v then Some v else None)
      else tr (k_mem s) pt va'.
Proof.
  intros Hva Hok Hp Hv s'. destruct Hok as [Hh Hl Hf Hwf].
  assert (Hva' : 0 ≤ va < 2 ^ 64) by (split; [lia|]; apply Z.lt_trans with MAXVA; [lia|done]).
  pose proof (key_PX va Hva') as Hkey. pose proof (PX_range 0 va ltac:(lia) Hva') as H0.
  assert (Hout : ∀ x, ¬ in_page p x → mget (k_mem s') x = mget (k_mem s) x).
  { intros x Hx. unfold s'. ksimpl. apply mget_mstore64. unfold in_page, PGSIZE in Hx. lia. }
  split; [|intros va2 Hva2; unfold s'; ksimpl; by apply (leaf_tr _ pt F); [done..|lia]].
  split.
  - split; [done|done| |by apply leaf_wf].
    eapply pa_ext; [exact Hf|done|]. intros r x Hr Hx. apply Hout.
    apply (page_disjoint r p); [by eapply pa_page_ok|by eapply (wf_ok _ _ _ Hwf)| |done].
    intros ->. by apply (wf_free _ _ _ Hwf _ _ Hkey Hp).
  - by apply mem_only_set; destruct s.
  - done.
  - intros r (k & Hk & Hr). left. exists k. split; [done|]. unfold s' in Hr. ksimpl_in Hr.
    by rewrite (leaf_node _ pt F) in Hr.
  - intros x Hx. apply Hout, Hx. left. by exists [PX 2 va; PX 1 va].
Qed.

(** The body of the loop of [mappages] for the page at [a]. *)
Lemma map_step pt F s a pa perm :
  0 ≤ a < MAXVA → 0 ≤ pa < 2 ^ 56 → 0 ≤ perm < 2 ^ 10 → vm_ok pt F s → tr (k_mem s) pt a = None →
  ∃ r s1 F1, walk pt a true s = Ret r s1 ∧ grows pt F F1 s s1 ∧
    (∀ va', 0 ≤ va' < 2 ^ 64 → tr (k_mem s1) pt va' = tr (k_mem s) pt va') ∧
    (r = 0 ∧ F1 = [] ∨
     r ≠ 0 ∧ truth (Z.land (mload64 (k_mem s1) r) PTE_V) = false ∧
     let s2 := s1 <| k_mem := mstore64 (k_mem s1) r (mk_pte pa perm) |> in
     grows pt F F1 s s2 ∧
     ∀ va', 0 ≤ va' < MAXVA →
       tr (k_mem s2) pt va' =
         if decide (va' / PGSIZE = a / PGSIZE) then Some (mk_pte pa perm) else tr (k_mem s) pt va').
Proof.
  intros Ha Hpa Hperm Hok Hnone. assert (Hlt : MAXVA < 2 ^ 64) by done.
  destruct (walk_alloc pt a s F Ha Hok) as (r & s1 & F1 & Hw & Hg & Htr & Hr).
  exists r, s1, F1. split_and!; [done|done|done|]. destruct Hr as [Hr|(Hr & p0 & Hp0 & ->)]; [by left|].
  right. split; [done|]. split.
  - specialize (Htr a ltac:(lia)). rewrite Hnone in Htr. unfold tr in Htr. rewrite Hp0 in Htr.
    cbn [mbind option_bind] in Htr. unfold entry in Htr.
    fold (valid (mload64 (k_mem s1) (p0 + 8 * PX 0 a))). by destruct (valid _).
  - destruct (grows_leaf pt F1 s1 a p0 (mk_pte pa perm)) as [Hg2 Htr2];
      [done|apply Hg|done|by apply mk_pte_range|].
    split; [by eapply grows_trans|]. intros va' Hva'. rewrite Htr2 by done.
    rewrite valid_mk_pte, Htr by lia. done.
Qed.

(** The entry of the page holding [va'] when [pa] is mapped at [va]. *)
Definition mapped (va pa perm va' : Z) : Z := mk_pte (pa + (va' - va) / PGSIZE * PGSIZE) perm.

Definition map_body (pt last perm : Z) : Z * Z → M (Z * Z + Z) :=
  λ '(a, pa),
    pte ← walk pt a true;
    if pte =? 0 then mret (inr (-1)) else
    v ← load64 pte;
    if truth (Z.land v PTE_V) then panic "mappages: remap" else
    store64 pte (Z.lor (Z.lor (PA2PTE pa) perm) PTE_V);;
    if a =? last then mret (inr 0)
    else mret (inl (u64 (a + PGSIZE), u64 (pa + PGSIZE))).

Lemma div_page_eq a b : a mod PGSIZE = 0 → b / PGSIZE = a / PGSIZE ↔ a ≤ b < a + PGSIZE.
Proof.
  unfold PGSIZE. intros Ha. pose proof (Z.div_mod a 4096). pose proof (Z.div_mod b 4096).
  pose proof (Z.mod_pos_bound b 4096). split; [lia|]. intros Hb. lia.
Qed.

Lemma mapped_first a pa perm va' : a ≤ va' < a + PGSIZE → mapped a pa perm va' = mk_pte pa perm.
Proof. intros Hv. unfold mapped. rewrite Z.div_small by lia. f_equal. lia. Qed.

Lemma mapped_next a pa perm va' : mapped (a + PGSIZE) (pa + PGSIZE) perm va' = mapped a pa perm va'.
Proof.
  unfold mapped. f_equal. replace (va' - a) with (va' - (a + PGSIZE) + 1 * PGSIZE) by lia.
  rewrite Z.div_add by done. lia.
Qed.

Lemma map_loop pt perm k a pa s F :
  let last := a + PGSIZE * Z.of_nat k in
  0 ≤ a → a mod PGSIZE = 0 → last + PGSIZE ≤ MAXVA →
  0 ≤ pa → pa + PGSIZE * Z.of_nat (S k) ≤ 2 ^ 56 → 0 ≤ perm < 2 ^ 10 → vm_ok pt F s →
  (∀ va', a ≤ va' < last + PGSIZE → tr (k_mem s) pt va' = None) →
  ∃ r s' F' j, while_ (S k) (map_body pt last perm) (a, pa) s = Ret r s' ∧ grows pt F F' s s' ∧
    (j ≤ S k)%nat ∧ (r = 0 ∧ j = S k ∨ r = -1 ∧ (j < S k)%nat ∧ F' = []) ∧
    ∀ va', 0 ≤ va' < MAXVA →
      tr (k_mem s') pt va' =
        if decide (a ≤ va' < a + PGSIZE * Z.of_nat j) then Some (mapped a pa perm va')
        else tr (k_mem s) pt va'.
Proof.
  cbn zeta. assert (Hlt : MAXVA < 2 ^ 64) by done. assert (HP : 0 < PGSIZE) by done.
  revert a pa s F. induction k as [|k IH]; intros a pa s F Ha Hal Hmax Hpa Hpa2 Hperm Hok Hnone.
  all: destruct (map_step pt F s a pa perm) as (r & s1 & F1 & Hw & Hg1 & Htr1 & Hr); [lia|lia|done|done|apply Hnone; lia|].
  all: cbn [while_]; rewrite bind_run; unfold map_body at 1; rewrite bind_run, Hw; cbn [bind_res].
  all: destruct Hr as [[-> HF1]|(Hr & Hv & Hg2 & Htr2)].
  all: try (exists (-1), s1, F1, 0%nat; split_and!; [done|done|lia|right; split_and!; [done|lia|done]|];
    intros va' Hva'; rewrite decide_False by lia; apply Htr1; lia).
  all: destruct (Z.eqb_spec r 0); [done|]; unfold load64, store64; mrun; rewrite Hv; mrun.
  all: fold (mk_pte pa perm).
  - destruct (Z.eqb_spec a (a + PGSIZE * Z.of_nat 0)); [|lia]. mrun.
    eexists 0, _, F1, 1%nat. split_and!; [reflexivity|done|lia|by left|].
    intros va' Hva'. rewrite Htr2 by done. rewrite (decide_ext _ _ _ _ (div_page_eq a va' Hal)).
    replace (a + PGSIZE * Z.of_nat 1) with (a + PGSIZE) by lia.
    destruct (decide _); [|done]. by rewrite mapped_first.
  - destruct (Z.eqb_spec a (a + PGSIZE * Z.of_nat (S k))); [lia|]. mrun.
    rewrite !u64_small by lia.
    match type of Hg2 with grows _ _ _ _ ?t => set (s2 := t) in * end.
    destruct (IH (a + PGSIZE) (pa + PGSIZE) s2 F1) as (r' & s' & F' & j & Hrun & Hg3 & Hj & Hr' & Htr3).
    { lia. } { unfold PGSIZE in *. by rewrite <- Zplus_mod_idemp_r, Z.mod_same, Z.add_0_r. }
    { lia. } { lia. } { lia. } { done. } { apply Hg2. }
    { intros va' Hva'. rewrite Htr2 by lia. rewrite decide_False; [apply Hnone; lia|].
      rewrite div_page_eq by done. lia. }
    exists r', s', F', (S j). split_and!.
    + rewrite <- Hrun. replace (a + PGSIZE * Z.of_nat (S k)) with (a + PGSIZE + PGSIZE * Z.of_nat k) by lia. done.
    + by eapply grows_trans.
    + lia.
    + destruct Hr' as [[-> ->]|(-> & ? & ->)]; [by left|]. right. split_and!; [done|lia|done].
    + intros va' Hva'. rewrite Htr3 by done. rewrite mapped_next, Htr2 by done.
      rewrite (decide_ext _ _ _ _ (div_page_eq a va' Hal)).
      repeat destruct (decide _); try lia; try done. by rewrite mapped_first.
Qed.

End walk.

(** ** Empty tables, and reading a translation *)

Section tables.
Context `{Image}.

Lemma pt_wf_empty m pt F :
  page_ok pt → pt ∉ F → (∀ x, in_page pt x → mget m x = 0) →
  pt_wf m pt F ∧ ∀ va, 0 ≤ va < 2 ^ 64 → tr m pt va = None.
Proof.
  intros Hp Hni Hz.
  assert (Hc : ∀ i, 0 ≤ i < 512 → child m pt i = None).
  { intros i Hi. unfold child. by rewrite entry_zero. }
  assert (Hn : ∀ k r, key k → node m pt k = Some r → k = [] ∧ r = pt).
  { intros [|i k] r Hk; [by intros [= ->]|].
    destruct Hk as [_ Hf]. apply Forall_cons_1 in Hf as [Hi _]. unfold node. cbn [foldl mbind option_bind].
    rewrite Hc by done. intros Hr. exfalso. revert Hr. clear.
    induction k as [|j k IH]; [done|]. exact IH. }
  split; [split|].
  - intros k r Hk Hr. by destruct (Hn k r Hk Hr) as [_ ->].
  - intros k k' r Hk Hk' Hr Hr'. destruct (Hn k r Hk Hr) as [-> _]. by destruct (Hn k' r Hk' Hr') as [-> _].
  - intros k r Hk Hr. by destruct (Hn k r Hk Hr) as [_ ->].
  - intros va Hva. unfold tr. destruct (node m pt _) as [r|] eqn:E; [|done].
    by destruct (Hn _ _ (key_PX va Hva) E) as [? _].
Qed.

(** The physical page user code reaches at [va]. *)
Definition user_pa (m : gmap Z Z) (pt va : Z) : option Z :=
  v ← tr m pt va; if Z.land v PTE_U =? 0 then None else Some (PTE2PA v).

Lemma walkaddr_run pt va s :
  0 ≤ va →
  pt_wf (k_mem s) pt [] →
  walkaddr pt va s =
    Ret (if va <? MAXVA then default 0 (user_pa (k_mem s) pt va) else 0) s.
Proof.
  intros Hva Hwf. unfold walkaddr. destruct (Z.leb_spec MAXVA va), (Z.ltb_spec va MAXVA); try lia; [done|].
  assert (Hva' : 0 ≤ va < 2 ^ 64) by (split; [lia|]; apply Z.lt_trans with MAXVA; [lia|done]).
  mrun. rewrite walk_read by lia. mrun. unfold user_pa, tr.
  destruct (node (k_mem s) pt [PX 2 va; PX 1 va]) as [p|] eqn:Hp; cbn [mbind option_bind]; [|done].
  pose proof (wf_ok _ _ _ Hwf _ _ (key_PX va Hva') Hp) as (Hpos & _).
  pose proof (PX_range 0 va ltac:(lia) Hva') as Hpx.
  destruct (Z.eqb_spec (p + 8 * PX 0 va) 0); [lia|]. unfold load64. mrun.
  fold (entry (k_mem s) p (PX 0 va)). unfold valid, truth.
  destruct (Z.land (entry (k_mem s) p (PX 0 va)) PTE_V =? 0); cbn [negb mbind option_bind]; [done|].
  by destruct (Z.land (entry (k_mem s) p (PX 0 va)) PTE_U =? 0).
Qed.

Lemma pt_wf_nil m pt F : pt_wf m pt F → pt_wf m pt [].
Proof.
  intros Hwf. split; [apply (wf_ok _ _ _ Hwf)|apply (wf_inj _ _ _ Hwf)|].
  intros k p _ _ Hin. by apply elem_of_nil in Hin.
Qed.

End tables.

Lemma pages_size size : 0 < size → size mod PGSIZE = 0 → ∃ k, size = PGSIZE * Z.of_nat (S k).
Proof.
  intros Hsz Hm. exists (pred (Z.to_nat (size / PGSIZE))).
  pose proof (Z.div_mod size PGSIZE ltac:(done)). unfold PGSIZE in *. lia.
Qed.

Lemma mappages_loop `{Image} pt va k pa perm s :
  0 ≤ va → va mod PGSIZE = 0 → va + PGSIZE * Z.of_nat (S k) ≤ MAXVA →
  mappages pt va (PGSIZE * Z.of_nat (S k)) pa perm s =
  while_ (S k) (map_body pt (va + PGSIZE * Z.of_nat k) perm) (va, pa) s.
Proof.
  intros Hva Hal Hmax. assert (Hlt : MAXVA < 2 ^ 64) by done. assert (HP : 0 < PGSIZE) by done.
  unfold mappages. rewrite Hal. rewrite Z.mul_comm, Z.mod_mul by done. cbn [Z.eqb negb].
  destruct (Z.eqb_spec (Z.of_nat (S k) * PGSIZE) 0); [lia|].
  rewrite Z.div_mul, Nat2Z.id, u64_small by (done || lia).
  by replace (va + Z.of_nat (S k) * PGSIZE - PGSIZE) with (va + PGSIZE * Z.of_nat k) by lia.
Qed.

(** ** Theorems *)

Section theorems.
Context `{Image} (free : kernel → list Z → Prop) `{!PageAllocator free}.

(** C5: [mappages] maps exactly the pages it is asked to.  On a well-formed
    table in which the range is unmapped it never panics; it returns 0 with
    every page of the range translated to the matching physical page with the
    given permissions, or -1, with the free list exhausted, after a prefix of
    them.  Every other translation, every byte outside tables and free pages,
    and the rest of the kernel state are unchanged, and the table stays well
    formed. *)
Theorem mappages_maps pt F s va size pa perm :
  vm_ok free pt F s →
  0 ≤ va → va mod PGSIZE = 0 → 0 < size → size mod PGSIZE = 0 → va + size ≤ MAXVA →
  0 ≤ pa → pa + size ≤ 2 ^ 56 → 0 ≤ perm < 2 ^ 10 →
  (∀ va', va ≤ va' < va + size → tr (k_mem s) pt va' = None) →
  ∃ r s' F' done, mappages pt va size pa perm s = Ret r s' ∧ grows free pt F F' s s' ∧
    (r = 0 ∧ done = size ∨ r = -1 ∧ 0 ≤ done < size ∧ F' = []) ∧
    ∀ va', 0 ≤ va' < MAXVA →
      tr (k_mem s') pt va' =
        if decide (va ≤ va' < va + done) then Some (mapped va pa perm va')
        else tr (k_mem s) pt va'.
Proof.
  intros Hok Hva Hal Hsz Hsz2 Hmax Hpa Hpa2 Hperm Hnone. assert (HP : 0 < PGSIZE) by done.
  destruct (pages_size size Hsz Hsz2) as [k ->]. rewrite mappages_loop by done.
  destruct (map_loop free pt perm k va pa s F) as (r & s' & F' & j & Hrun & Hg & Hj & Hr & Htr);
    [lia|done|lia|lia|lia|done|done|intros va' Hv; apply Hnone; lia|].
  exists r, s', F', (PGSIZE * Z.of_nat j). split_and!; [done|done| |done].
  destruct Hr as [[-> ->]|(-> & ? & ->)]; [by left|]. right. split_and!; [done|unfold PGSIZE; lia|unfold PGSIZE; lia|done].
Qed.

(** C33: what was mapped is found.  Once [mappages] has returned 0 for a user
    mapping, [walkaddr] returns, for every address of the range, the physical
    page it was mapped to, and for an address outside the range what it
    returned before. *)
Theorem mappages_walkaddr pt F s va size pa perm :
  vm_ok free pt F s →
  0 ≤ va → va mod PGSIZE = 0 → 0 < size → size mod PGSIZE = 0 → va + size ≤ MAXVA →
  0 ≤ pa → pa mod PGSIZE = 0 → pa + size ≤ 2 ^ 56 → 0 ≤ perm < 2 ^ 10 → Z.land perm PTE_U ≠ 0 →
  (∀ va', va ≤ va' < va + size → tr (k_mem s) pt va' = None) →
  ∃ r s', mappages pt va size pa perm s = Ret r s' ∧
    (r = 0 → ∀ va', 0 ≤ va' < 2 ^ 64 →
      walkaddr pt va' s' =
        if decide (va ≤ va' < va + size) then Ret (pa + (va' - va) / PGSIZE * PGSIZE) s'
        else Ret (if va' <? MAXVA then default 0 (user_pa (k_mem s) pt va') else 0) s').
Proof.
  intros Hok Hva Hal Hsz Hsz2 Hmax Hpa Hpal Hpa2 Hperm HU Hnone.
  assert (HP : 0 < PGSIZE) by done.
  destruct (pages_size size Hsz Hsz2) as [k ->]. rewrite mappages_loop by done.
  destruct (map_loop free pt perm k va pa s F) as (r & s' & F' & j & Hrun & Hg & Hj & Hr & Htr);
    [lia|done|lia|lia|lia|done|done|intros va2 Hv; apply Hnone; lia|].
  exists r, s'. split; [done|]. intros -> va' Hva'. destruct Hr as [[_ ->]|(? & _)]; [|done].
  rewrite walkaddr_run; [|lia|eapply pt_wf_nil, Hg].
  destruct (Z.ltb_spec va' MAXVA); [|by rewrite decide_False by lia].
  unfold user_pa. rewrite Htr by lia. destruct (decide _) as [Hin|Hout]; [|done].
  cbn [mbind option_bind]. unfold mapped.
  pose proof (Z.div_mod (va' - va) PGSIZE ltac:(done)). pose proof (Z.mod_pos_bound (va' - va) PGSIZE HP).
  assert (Hq : 0 ≤ (va' - va) / PGSIZE) by (apply Z.div_pos; lia).
  set (q := (va' - va) / PGSIZE) in *.
  assert (Hland : Z.land (mk_pte (pa + q * PGSIZE) perm) PTE_U ≠ 0).
  { unfold mk_pte. rewrite !Z.land_lor_distr_l. intros E.
    apply Z.lor_eq_0_iff in E as [E _]. by apply Z.lor_eq_0_iff in E as [_ E]. }
  destruct (Z.eqb_spec (Z.land (mk_pte (pa + q * PGSIZE) perm) PTE_U) 0); [done|].
  cbn [default id]. rewrite PTE2PA_mk_pte; [done|lia| |done].
  by rewrite Z.mod_add, Hpal.
Qed.

(** A new page table is empty.  [uvmcreate] takes the first free page and
    clears it: it is a well-formed table that translates nothing; without a
    free page it returns 0 and changes nothing. *)
Theorem uvmcreate_empty n s F :
  hart_at n (k_hw s) → lock_free L_kmem (k_hw s) → free s F →
  match F with
  | [] => uvmcreate s = Ret 0 s
  | pt :: F' => ∃ s', uvmcreate s = Ret pt s' ∧ mem_only s s' ∧ vm_ok free pt F' s' ∧
      ∀ va, 0 ≤ va < 2 ^ 64 → tr (k_mem s') pt va = None
  end.
Proof.
  intros Hh Hl Hf. unfold uvmcreate. destruct F as [|pt F].
  { mrun. by rewrite (pa_empty n). }
  destruct (pa_alloc n s pt F Hh Hl Hf) as (s1 & Hs1 & Hmo & Hf1 & Hq & Hni & Hfr).
  assert (Hnz : (pt =? 0) = false) by (apply Z.eqb_neq; destruct Hq; lia).
  eexists. split; [mrun; rewrite Hs1; mrun; rewrite Hnz; reflexivity|].
  destruct (pt_wf_empty (memset pt 0 PGSIZE (k_mem s1)) pt F Hq Hni) as [Hwf Htr].
  { intros x Hx. by rewrite mget_memset, decide_True. }
  split_and!; [by apply mem_only_set| |exact Htr]. split.
  - exists n. ksimpl. by rewrite (mem_only_hw _ _ Hmo).
  - ksimpl. by rewrite (mem_only_hw _ _ Hmo).
  - eapply pa_ext; [exact Hf1|done|]. intros p x Hp Hx. ksimpl. apply memset_page.
    apply (page_disjoint p pt); [by eapply pa_page_ok|done| |done]. by intros ->.
  - exact Hwf.
Qed.

End theorems.

(** ** Evaluation on the concrete machine *)

(** Three free pages; the last one of memory is an empty root table. *)
Definition demo_pg (i : Z) : Z := PHYSTOP - i * PGSIZE.
Definition demo_vm : kernel :=
  demo <| k_freelist := demo_pg 2 |>
       <| k_mem := mstore64 (mstore64 ∅ (demo_pg 2) (demo_pg 3)) (demo_pg 3) (demo_pg 4) |>.

Lemma demo_pg_ok i : 1 ≤ i ≤ 8 → @page_ok demo_image (demo_pg i).
Proof.
  intros Hi. unfold page_ok, demo_pg, end_, demo_image, PHYSTOP, KERNBASE, PGSIZE. split_and!; try lia.
  rewrite Zminus_mod, Z.mod_mul by lia. done.
Qed.

Lemma demo_vm_free : @free_list demo_image demo_vm [demo_pg 2; demo_pg 3; demo_pg 4].
Proof.
  split.
  - cbn [chain]. split_and!; [done|by apply demo_pg_ok| |by apply demo_pg_ok| |by apply demo_pg_ok|].
    all: vm_compute; reflexivity.
  - apply (bool_decide_eq_true_1 _). vm_compute. reflexivity.
Qed.

(** The root table is empty. *)
Lemma demo_vm_zero x : in_page (demo_pg 1) x → mget (k_mem demo_vm) x = 0.
Proof.
  intros Hx. unfold demo_vm. ksimpl. unfold in_page, demo_pg, PHYSTOP, KERNBASE, PGSIZE in *.
  by rewrite !mget_mstore64 by lia.
Qed.

Lemma demo_vm_ok : @vm_ok demo_image (@free_list demo_image) (demo_pg 1) [demo_pg 2; demo_pg 3; demo_pg 4] demo_vm.
Proof.
  split.
  - exists 0. apply demo_hart_at.
  - by apply is_free_lock_free.
  - apply demo_vm_free.
  - apply (@pt_wf_empty demo_image); [by apply demo_pg_ok| |].
    + apply (bool_decide_eq_true_1 _). vm_compute. reflexivity.
    + apply demo_vm_zero.
Qed.

Lemma demo_vm_tr va : 0 ≤ va < 2 ^ 64 → tr (k_mem demo_vm) (demo_pg 1) va = None.
Proof.
  apply (@pt_wf_empty demo_image _ _ []); [by apply demo_pg_ok|by apply not_elem_of_nil|].
  apply demo_vm_zero.
Qed.

Lemma mappages_maps_witness :
  ∃ r s' F', mappages (demo_pg 1) 0 PGSIZE (demo_pg 5) PTE_R demo_vm = Ret r s' ∧
    @grows demo_image (@free_list demo_image) (demo_pg 1) [demo_pg 2; demo_pg 3; demo_pg 4] F' demo_vm s'.
Proof.
  destruct (@mappages_maps demo_image (@free_list demo_image) _ (demo_pg 1) _ demo_vm 0 PGSIZE
    (demo_pg 5) PTE_R demo_vm_ok) as (r & s' & F' & d & H1 & H2 & _);
    [lia|by vm_compute|by vm_compute|by vm_compute|by vm_compute|by vm_compute|by vm_compute|by vm_compute| |].
  - intros va' Hva'. apply demo_vm_tr. unfold PGSIZE in Hva'. lia.
  - exists r, s', F'. split; [exact H1|exact H2].
Defined.

Lemma mappages_walkaddr_witness :
  ∃ r s', mappages (demo_pg 1) 0 PGSIZE (demo_pg 5) (Z.lor PTE_R PTE_U) demo_vm = Ret r s' ∧
    (r = 0 → walkaddr (demo_pg 1) 100 s' = Ret (demo_pg 5) s').
Proof.
  destruct (@mappages_walkaddr demo_image (@free_list demo_image) _ (demo_pg 1) _ demo_vm 0 PGSIZE
    (demo_pg 5) (Z.lor PTE_R PTE_U) demo_vm_ok) as (r & s' & H1 & H2);
    [lia|by vm_compute|by vm_compute|by vm_compute|by vm_compute|by vm_compute|by vm_compute|by vm_compute|by vm_compute|by vm_compute| |].
  - intros va' Hva'. apply demo_vm_tr. unfold PGSIZE in Hva'. lia.
  - exists r, s'. split; [exact H1|]. intros Hr. apply (H2 Hr 100). lia.
Defined.

Lemma uvmcreate_empty_witness :
  ∃ s', uvmcreate demo_vm = Ret (demo_pg 2) s' ∧
    ∀ va, 0 ≤ va < 2 ^ 64 → tr (k_mem s') (demo_pg 2) va = None.
Proof.
  destruct (@uvmcreate_empty demo_image (@free_list demo_image) _ 0 demo_vm _ (demo_hart_at None)
    (is_free_lock_free (demo_hart None) L_kmem eq_refl) demo_vm_free) as (s' & H1 & _ & _ & H2).
  exists s'. split; [exact H1|exact H2].
Defined.
