(* ===== verification/UserMem.v ===== *)
(** * Copies between kernel and user memory

    What a user program sees at a virtual address is the byte at the physical
    address its page table gives; [copyin] returns exactly those bytes and
    [copyout] stores exactly there, across page boundaries, or they fail with
    -1 at the first address that is not the program's. *)

From S2P Require Import Prelude Riscv State Boot Spinlock ProcTable Machine CString Kalloc Vm VmSpec.

Lemma page_split va : va = PGSIZE * (va / PGSIZE) + va mod PGSIZE ∧ 0 ≤ va mod PGSIZE < PGSIZE.
Proof. split; [by apply Z.div_mod|by apply Z.mod_pos_bound]. Qed.

Lemma PGROUNDDOWN_le va : 0 ≤ va < 2 ^ 64 → PGROUNDDOWN va = va - va mod PGSIZE ∧ 0 ≤ PGROUNDDOWN va ≤ va.
Proof.
  intros Hva. rewrite PGROUNDDOWN_div by done. pose proof (page_split va) as [Hd Hm].
  pose proof (Z.div_pos va PGSIZE ltac:(lia) ltac:(done)). unfold PGSIZE in *. lia.
Qed.

Lemma PX_page level va : 0 ≤ level → 0 ≤ va < 2 ^ 64 → PX level (PGROUNDDOWN va) = PX level va.
Proof.
  intros Hl Hva. pose proof (PGROUNDDOWN_le va Hva). rewrite !PX_eq by lia.
  rewrite PGROUNDDOWN_div by done. f_equal.
  rewrite !Z.pow_add_r, <- !Z.div_div by lia. change (2 ^ 12) with PGSIZE. by rewrite Z.div_mul by done.
Qed.

Lemma tr_page m pt va : 0 ≤ va < 2 ^ 64 → tr m pt (PGROUNDDOWN va) = tr m pt va.
Proof. intros Hva. unfold tr. by rewrite !PX_page by lia. Qed.

(** The physical address of the byte user code sees at [va]. *)
Definition uaddr (m : gmap Z Z) (pt va : Z) : option Z :=
  (λ pa, pa + va mod PGSIZE) <$> user_pa m pt va.
(** The [n] bytes user code sees from [va] on. *)
Definition ubytes (m : gmap Z Z) (pt va : Z) (n : nat) : list Z :=
  (λ i, mget m (default 0 (uaddr m pt (va + Z.of_nat i)))) <$> seq 0 n.

(** The page of [va] is the program's to read, and to write. *)
Definition readable (m : gmap Z Z) (pt va : Z) : Prop :=
  ∃ pa, user_pa m pt va = Some pa ∧ pa ≠ 0.
Definition writable (m : gmap Z Z) (pt va : Z) : Prop :=
  readable m pt va ∧ (∃ v, tr m pt va = Some v ∧ Z.land v PTE_W ≠ 0) ∧
  ∀ q x pa, is_table m pt q → user_pa m pt va = Some pa → ¬ (in_page q x ∧ in_page pa x).

Section usermem.
Context `{Image}.

Lemma user_pa_page m pt va va' :
  0 ≤ va < 2 ^ 64 → 0 ≤ va' < 2 ^ 64 → va / PGSIZE = va' / PGSIZE → user_pa m pt va = user_pa m pt va'.
Proof.
  intros Hva Hva' He. unfold user_pa. rewrite <- (tr_page _ _ va), <- (tr_page _ _ va') by done.
  by rewrite !PGROUNDDOWN_div, He by lia.
Qed.

Lemma length_ubytes m pt va n : length (ubytes m pt va n) = n.
Proof. unfold ubytes. by rewrite length_fmap, length_seq. Qed.

Lemma ubytes_app m pt va a b :
  ubytes m pt va (a + b) = ubytes m pt va a ++ ubytes m pt (va + Z.of_nat a) b.
Proof.
  unfold ubytes. rewrite seq_app, fmap_app. f_equal. cbn [Nat.add].
  rewrite <- (Nat.add_0_r a) at 1. rewrite <- fmap_add_seq, <- list_fmap_compose.
  apply list_fmap_ext. intros _ i _. cbn. by rewrite Nat2Z.inj_add, Z.add_assoc.
Qed.

(** Bytes within one page lie next to each other in memory. *)
Lemma page_offset va i :
  0 ≤ i → va mod PGSIZE + i < PGSIZE →
  (va + i) / PGSIZE = va / PGSIZE ∧ (va + i) mod PGSIZE = va mod PGSIZE + i.
Proof.
  intros Hi Hn. pose proof (page_split va) as [Hd Hm].
  assert (Hx : va + i = PGSIZE * (va / PGSIZE) + (va mod PGSIZE + i)) by lia.
  split; symmetry; [eapply Z.div_unique_pos; [|exact Hx]|eapply Z.mod_unique_pos; [|exact Hx]]; lia.
Qed.

Lemma ubytes_page m pt va pa n :
  0 ≤ va → va + Z.of_nat n ≤ MAXVA → user_pa m pt va = Some pa → va mod PGSIZE + Z.of_nat n ≤ PGSIZE →
  ubytes m pt va n = mbytes m (pa + va mod PGSIZE) n.
Proof.
  intros Hva Hmax Hpa Hn. unfold ubytes, mbytes. apply list_fmap_ext. intros _ i Hi%list_elem_of_lookup_2.
  apply elem_of_seq in Hi. destruct (page_offset va (Z.of_nat i)) as [Hq Hr]; [lia|lia|].
  assert (MAXVA < 2 ^ 64) by done.
  unfold uaddr. rewrite (user_pa_page m pt (va + Z.of_nat i) va) by lia. rewrite Hpa. cbn.
  rewrite Hr. f_equal. lia.
Qed.

Lemma user_page_run pt va pa s :
  pt_wf (k_mem s) pt [] → 0 ≤ va < MAXVA → user_pa (k_mem s) pt va = Some pa → pa ≠ 0 →
  user_page pt (PGROUNDDOWN va) s = Ret pa s.
Proof.
  intros Hwf Hva Hpa Hne. assert (Hlt : MAXVA < 2 ^ 64) by done.
  destruct (PGROUNDDOWN_le va) as [_ Hd]; [lia|].
  unfold user_page. mrun_with walkaddr_run; [|lia|done].
  assert (user_pa (k_mem s) pt (PGROUNDDOWN va) = Some pa) as ->.
  { unfold user_pa. rewrite tr_page by lia. exact Hpa. }
  destruct (Z.ltb_spec (PGROUNDDOWN va) MAXVA); [|lia]. cbn [default from_option id].
  by destruct (Z.eqb_spec pa 0).
Qed.

(** The address is not the program's: nothing is mapped there for user code,
    and lazy allocation does not apply. *)
Record forbidden (pt : Z) (va : Z) (s : kernel) : Prop := {
  fb_unmapped : user_pa (k_mem s) pt va = None ∨ MAXVA ≤ PGROUNDDOWN va;
  fb_size : ∃ n p x, hart_at n (k_hw s) ∧ cur_proc (k_hw s) = Some p ∧ k_procs s !! p = Some x ∧
            p_sz x ≤ PGROUNDDOWN va
}.

Lemma user_page_fails pt va s :
  pt_wf (k_mem s) pt [] → 0 ≤ va < 2 ^ 64 → forbidden pt va s → user_page pt (PGROUNDDOWN va) s = Ret 0 s.
Proof.
  intros Hwf Hva [Hpa (n & p & x & Hh & Hp & Hx & Hsz)]. destruct (PGROUNDDOWN_le va Hva) as [_ Hd].
  unfold user_page. mrun_with walkaddr_run; [|lia|done].
  assert ((if PGROUNDDOWN va <? MAXVA then default 0 (user_pa (k_mem s) pt (PGROUNDDOWN va)) else 0) = 0) as ->.
  { destruct (Z.ltb_spec (PGROUNDDOWN va) MAXVA); [|done]. destruct Hpa as [Hpa|?]; [|lia].
    unfold user_pa in *. by rewrite tr_page, Hpa. }
  cbn [Z.eqb]. unfold vmfault. mrun_with (curproc_run n s p Hh Hp). mrun_with (get_proc_run s p x Hx).
  by destruct (Z.leb_spec (p_sz x) (PGROUNDDOWN va)); [|lia].
Qed.

(** ** copyin *)

Definition copyin_body (pt : Z) : list Z * Z * Z → M (list Z * Z * Z + Z * list Z) :=
  λ '(dst, srcva, len),
    if 0 <? len then
      let va0 := PGROUNDDOWN srcva in
      pa0 ← user_page pt va0;
      if pa0 =? 0 then mret (inr (-1, dst)) else
      let n := Z.min (PGSIZE - (srcva - va0)) len in
      l ← load_bytes (pa0 + (srcva - va0)) (Z.to_nat n);
      mret (inl (dst ++ l, u64 (va0 + PGSIZE), len - n))
    else mret (inr (0, dst)).

(** The bytes of this round, and where the next one starts. *)
Definition chunk (va len : Z) : Z := Z.min (PGSIZE - va mod PGSIZE) len.

Lemma chunk_spec va len :
  0 ≤ va → 0 < len →
  0 < chunk va len ≤ len ∧ va mod PGSIZE + chunk va len ≤ PGSIZE ∧
  (chunk va len < len → va + chunk va len = va - va mod PGSIZE + PGSIZE) ∧
  (va - va mod PGSIZE + PGSIZE) mod PGSIZE = 0.
Proof.
  intros Hva Hlen. unfold chunk. pose proof (page_split va) as [Hd Hm]. split_and!; try lia.
  replace (va - va mod PGSIZE + PGSIZE) with ((va / PGSIZE + 1) * PGSIZE) by lia. by apply Z.mod_mul.
Qed.

Lemma next_page va : 0 ≤ va < MAXVA → u64 (PGROUNDDOWN va + PGSIZE) = va - va mod PGSIZE + PGSIZE.
Proof.
  intros Hva. assert (Hlt : MAXVA + PGSIZE < 2 ^ 64) by done. assert (0 < PGSIZE) by done.
  destruct (PGROUNDDOWN_le va) as [He Hd]; [lia|]. rewrite He in *. by rewrite u64_small by lia.
Qed.

Lemma copyin_step pt dst va len s :
  pt_wf (k_mem s) pt [] → 0 ≤ va < MAXVA → 0 < len → va + chunk va len ≤ MAXVA →
  readable (k_mem s) pt va →
  copyin_body pt (dst, va, len) s =
    Ret (inl (dst ++ ubytes (k_mem s) pt va (Z.to_nat (chunk va len)),
              va - va mod PGSIZE + PGSIZE, len - chunk va len)) s.
Proof.
  intros Hwf Hva Hlen Hmax (pa & Hpa & Hne). assert (Hlt : MAXVA < 2 ^ 64) by done.
  destruct (chunk_spec va len) as (Hc & Hp & _); [lia|lia|]. destruct (PGROUNDDOWN_le va) as [He Hd]; [lia|].
  unfold copyin_body. destruct (Z.ltb_spec 0 len); [|lia]. mrun_with (user_page_run pt va pa s Hwf Hva Hpa Hne).
  destruct (Z.eqb_spec pa 0); [done|]. unfold load_bytes. mrun. rewrite (next_page va Hva).
  assert (va - PGROUNDDOWN va = va mod PGSIZE) as -> by lia. fold (chunk va len).
  by rewrite (ubytes_page _ _ va pa) by (done || lia).
Qed.

Lemma copyin_loop fuel pt dst va len s :
  pt_wf (k_mem s) pt [] → 0 ≤ va → 0 ≤ len → (len = 0 ∨ va + len ≤ MAXVA) →
  (∀ i, 0 ≤ i < len → readable (k_mem s) pt (va + i)) →
  (0 < fuel)%nat → (len = 0 ∨ va mod PGSIZE + len ≤ PGSIZE * (Z.of_nat fuel - 1)) →
  while_ fuel (copyin_body pt) (dst, va, len) s =
    Ret (0, dst ++ ubytes (k_mem s) pt va (Z.to_nat len)) s.
Proof.
  intros Hwf. revert dst va len. induction fuel as [|fuel IH]; intros dst va len Hva Hlen Hmax Hr Hf Hfuel; [lia|].
  cbn [while_]. destruct (decide (len = 0)) as [->|Hne].
  { cbn. by rewrite app_nil_r. }
  destruct Hmax as [?|Hmax]; [lia|]. destruct Hfuel as [?|Hfuel]; [lia|].
  destruct (chunk_spec va len) as (Hc & Hp & Hnext & Hal); [lia|lia|].
  pose proof (page_split va) as [_ Hm].
  mrun. rewrite copyin_step; [|done|lia|lia|lia|]. 2:{ specialize (Hr 0 ltac:(lia)). by rewrite Z.add_0_r in Hr. }
  mrun. set (c := chunk va len) in *. set (va' := va - va mod PGSIZE + PGSIZE) in *.
  assert (HP : 0 < PGSIZE) by done.
  assert (Hf0 : (0 < fuel)%nat) by (destruct fuel; [cbn in Hfuel; lia|lia]).
  rewrite IH; [|lia|lia|lia| |done|].
  - rewrite <- app_assoc. f_equal. f_equal. f_equal.
    destruct (decide (c = len)) as [E|E].
    + rewrite E, Z.sub_diag. by rewrite app_nil_r.
    + replace (Z.to_nat len) with (Z.to_nat c + Z.to_nat (len - c))%nat by lia.
      rewrite ubytes_app. do 2 f_equal. lia.
  - intros i Hi. replace (va' + i) with (va + (c + i)) by lia. apply Hr. lia.
  - destruct (decide (c = len)) as [E|E]; [left; lia|right]. rewrite Hal. lia.
Qed.

Lemma copyin_fails_loop fuel pt dst va len k s :
  pt_wf (k_mem s) pt [] → 0 ≤ va → 0 ≤ k < len → va + k < 2 ^ 64 →
  (0 < k → va + k ≤ MAXVA) →
  (∀ i, 0 ≤ i < k → readable (k_mem s) pt (va + i)) → forbidden pt (va + k) s →
  va mod PGSIZE + len ≤ PGSIZE * (Z.of_nat fuel - 1) →
  ∃ l, while_ fuel (copyin_body pt) (dst, va, len) s = Ret (-1, l) s.
Proof.
  intros Hwf. revert dst va len k. induction fuel as [|fuel IH]; intros dst va len k Hva Hk Hlt Hmax Hr Hfb Hfuel.
  { pose proof (page_split va) as [_ Hm]. cbn in Hfuel. assert (0 < PGSIZE) by done. lia. }
  cbn [while_]. destruct (decide (k = 0)) as [->|Hne].
  - rewrite Z.add_0_r in *. exists dst. mrun. unfold copyin_body at 1. destruct (Z.ltb_spec 0 len); [|lia].
    mrun_with (user_page_fails pt va s Hwf); [|lia|done]. done.
  - specialize (Hmax ltac:(lia)). assert (HM : MAXVA < 2 ^ 64) by done. assert (HP : 0 < PGSIZE) by done.
    destruct (chunk_spec va len) as (Hc & Hp & Hnext & Hal); [lia|lia|]. pose proof (page_split va) as [_ Hm].
    assert (H0 : readable (k_mem s) pt va) by (specialize (Hr 0 ltac:(lia)); by rewrite Z.add_0_r in Hr).
    assert (Hck : chunk va len ≤ k).
    { destruct (Z.le_gt_cases (chunk va len) k) as [?|Hgt]; [done|exfalso].
      destruct (page_offset va k) as [Hq _]; [lia|lia|]. destruct Hfb as [[Hu|Hu] _].
      - rewrite (user_pa_page _ _ (va + k) va) in Hu by lia. destruct H0 as (pa & Hpa & _). congruence.
      - rewrite PGROUNDDOWN_div, Hq, <- PGROUNDDOWN_div in Hu by lia.
        destruct (PGROUNDDOWN_le va) as [_ ?]; [lia|]. lia. }
    mrun. rewrite copyin_step; [|done|lia|lia|lia|done]. mrun.
    set (c := chunk va len) in *. specialize (Hnext ltac:(lia)). set (va' := va - va mod PGSIZE + PGSIZE) in *.
    apply (IH _ va' (len - c) (k - c)); try lia.
    + intros i Hi. replace (va' + i) with (va + (c + i)) by lia. apply Hr. lia.
    + by replace (va' + (k - c)) with (va + k) by lia.
Qed.

Lemma copy_fuel_ok va len : 0 ≤ len → va mod PGSIZE + len ≤ PGSIZE * (Z.of_nat (copy_fuel len) - 1).
Proof.
  intros Hlen. unfold copy_fuel. pose proof (page_split va) as [_ Hm]. pose proof (page_split len) as [Hd Hm'].
  pose proof (Z.div_pos len PGSIZE Hlen ltac:(done)). rewrite Nat2Z.inj_add, Z2Nat.id by lia. lia.
Qed.

Lemma copyin_run pt va len s :
  pt_wf (k_mem s) pt [] → 0 ≤ va → 0 ≤ len → va + len ≤ MAXVA →
  (∀ i, 0 ≤ i < len → readable (k_mem s) pt (va + i)) →
  copyin pt va len s = Ret (0, ubytes (k_mem s) pt va (Z.to_nat len)) s.
Proof.
  intros Hwf Hva Hlen Hmax Hr. apply (copyin_loop (copy_fuel len) pt []); try done; [lia|unfold copy_fuel; lia|].
  right. by apply copy_fuel_ok.
Qed.

(** ** copyout *)

(** Memory changed outside the table pages only. *)
Definition tables_same (m m' : gmap Z Z) (pt : Z) : Prop :=
  ∀ q x, is_table m pt q → in_page q x → mget m' x = mget m x.

Lemma tables_same_node m m' pt k : tables_same m m' pt → key k → node m' pt k = node m pt k.
Proof.
  intros Hs. induction k as [|i k IH] using rev_ind; intros Hk; [done|].
  rewrite !node_snoc. pose proof (key_snoc k i Hk) as (Hk' & Hl & Hi). rewrite IH by done.
  destruct (node m pt k) as [q|] eqn:Hq; cbn [mbind option_bind]; [|done].
  apply child_ext, entry_ext; [done|]. intros x Hx. apply (Hs q); [by exists k|done].
Qed.

Lemma tables_same_is_table m m' pt q : tables_same m m' pt → is_table m' pt q ↔ is_table m pt q.
Proof.
  intros Hs. split; intros (k & Hk & Hq); exists k; (split; [done|]);
    [by rewrite <- (tables_same_node m m' pt k Hs Hk)|by rewrite (tables_same_node m m' pt k Hs Hk)].
Qed.

Lemma tables_same_tr m m' pt va : tables_same m m' pt → 0 ≤ va < 2 ^ 64 → tr m' pt va = tr m pt va.
Proof.
  intros Hs Hva. unfold tr. pose proof (key_PX va Hva) as Hk. rewrite (tables_same_node m m' pt _ Hs Hk).
  destruct (node m pt _) as [q|] eqn:Hq; cbn [mbind option_bind]; [|done].
  assert (entry m' q (PX 0 va) = entry m q (PX 0 va)) as ->; [|done].
  apply entry_ext; [apply PX_range; lia|]. intros x Hx. apply (Hs q); [by eexists|done].
Qed.

Lemma tables_same_wf m m' pt F : tables_same m m' pt → pt_wf m pt F → pt_wf m' pt F.
Proof.
  intros Hs [H1 H2 H3]. split.
  - intros k p Hk. rewrite (tables_same_node m m' pt k Hs Hk). by apply H1.
  - intros k k' p Hk Hk'. rewrite !(tables_same_node m m' pt _ Hs) by done. by apply H2.
  - intros k p Hk. rewrite (tables_same_node m m' pt k Hs Hk). by apply H3.
Qed.

Lemma tables_same_trans m1 m2 m3 pt :
  tables_same m1 m2 pt → tables_same m2 m3 pt → tables_same m1 m3 pt.
Proof.
  intros H12 H23 q x Hq Hx. rewrite (H23 q x), (H12 q x); [done|done|done| |done].
  by apply (tables_same_is_table m1 m2 pt q H12).
Qed.

Lemma tables_same_user_pa m m' pt va :
  tables_same m m' pt → 0 ≤ va < 2 ^ 64 → user_pa m' pt va = user_pa m pt va.
Proof. intros Hs Hva. unfold user_pa. by rewrite (tables_same_tr m m' pt va Hs Hva). Qed.

Lemma tables_same_writable m m' pt va :
  tables_same m m' pt → 0 ≤ va < 2 ^ 64 → writable m pt va → writable m' pt va.
Proof.
  intros Hs Hva ((pa & Hpa & Hne) & (v & Hv & Hw) & Hd).
  split_and!.
  - exists pa. by rewrite (tables_same_user_pa m m' pt va Hs Hva).
  - exists v. by rewrite (tables_same_tr m m' pt va Hs Hva).
  - intros q x pa' Hq. rewrite (tables_same_user_pa m m' pt va Hs Hva). apply Hd.
    by apply (tables_same_is_table m m' pt q Hs).
Qed.

Definition copyout_body (pt : Z) : Z * list Z * Z → M (Z * list Z * Z + Z) :=
  λ '(dstva, src, len),
    if 0 <? len then
      let va0 := PGROUNDDOWN dstva in
      if MAXVA <=? va0 then mret (inr (-1)) else
      pa0 ← user_page pt va0;
      if pa0 =? 0 then mret (inr (-1)) else
      pte ← walk pt va0 false;
      if pte =? 0 then ub else
      v ← load64 pte;
      if Z.land v PTE_W =? 0 then mret (inr (-1)) else
      let n := Z.min (PGSIZE - (dstva - va0)) len in
      store_bytes (pa0 + (dstva - va0)) (take (Z.to_nat n) src);;
      mret (inl (u64 (va0 + PGSIZE), drop (Z.to_nat n) src, len - n))
    else mret (inr 0).

Lemma copyout_step pt va src len pa s :
  pt_wf (k_mem s) pt [] → 0 ≤ va < MAXVA → 0 < len → writable (k_mem s) pt va →
  user_pa (k_mem s) pt va = Some pa →
  copyout_body pt (va, src, len) s =
    Ret (inl (va - va mod PGSIZE + PGSIZE, drop (Z.to_nat (chunk va len)) src, len - chunk va len))
      (s <| k_mem := mwrite (k_mem s) (pa + va mod PGSIZE) (take (Z.to_nat (chunk va len)) src) |>).
Proof.
  intros Hwf Hva Hlen ((pa' & Hpa' & Hne) & (v & Hv & Hw) & _) Hpa. assert (pa' = pa) as -> by congruence.
  assert (Hlt : MAXVA < 2 ^ 64) by done. assert (Hva' : 0 ≤ va < 2 ^ 64) by lia.
  destruct (PGROUNDDOWN_le va Hva') as [He Hd].
  unfold copyout_body. destruct (Z.ltb_spec 0 len); [|lia]. destruct (Z.leb_spec MAXVA (PGROUNDDOWN va)); [lia|].
  mrun_with (user_page_run pt va pa s Hwf Hva Hpa Hne). destruct (Z.eqb_spec pa 0); [done|].
  mrun_with walk_read; [|lia]. rewrite !PX_page by lia. unfold tr in Hv.
  destruct (node (k_mem s) pt [PX 2 va; PX 1 va]) as [q|] eqn:Hq; cbn [mbind option_bind] in Hv; [|done].
  pose proof (wf_ok _ _ _ Hwf _ _ (key_PX va Hva') Hq) as (Hpos & _).
  pose proof (PX_range 0 va ltac:(lia) Hva') as Hpx. destruct (Z.eqb_spec (q + 8 * PX 0 va) 0); [lia|].
  unfold load64. mrun. fold (entry (k_mem s) q (PX 0 va)).
  destruct (valid (entry (k_mem s) q (PX 0 va))); [|done]. injection Hv as ->.
  destruct (Z.eqb_spec (Z.land v PTE_W) 0); [done|]. unfold store_bytes. mrun. rewrite (next_page va Hva).
  assert (va - PGROUNDDOWN va = va mod PGSIZE) as -> by lia. done.
Qed.

(** The user addresses of a range are bytes of their own. *)
Definition distinct (m : gmap Z Z) (pt va len : Z) : Prop :=
  ∀ i j, 0 ≤ i < len → 0 ≤ j < len → uaddr m pt (va + i) = uaddr m pt (va + j) → i = j.

(** [m'] is [m] with the user range at [va] set to [src] and nothing else changed. *)
Record stored (m m' : gmap Z Z) (pt va : Z) (src : list Z) : Prop := {
  st_tables : tables_same m m' pt;
  st_bytes : ubytes m' pt va (length src) = src;
  st_frame x : (∀ i, 0 ≤ i < Z.of_nat (length src) → uaddr m pt (va + i) ≠ Some x) → mget m' x = mget m x
}.

Lemma uaddr_in_page m pt va pa i :
  0 ≤ va → 0 ≤ i → va + i < 2 ^ 64 → user_pa m pt va = Some pa → va mod PGSIZE + i < PGSIZE →
  uaddr m pt (va + i) = Some (pa + va mod PGSIZE + i).
Proof.
  intros Hva Hi Hlt Hpa Hp. destruct (page_offset va i) as [Hq Hr]; [lia|lia|].
  unfold uaddr. rewrite (user_pa_page m pt (va + i) va) by lia. rewrite Hpa. cbn. f_equal. lia.
Qed.

Lemma tables_same_uaddr m m' pt va :
  tables_same m m' pt → 0 ≤ va < 2 ^ 64 → uaddr m' pt va = uaddr m pt va.
Proof. intros Hs Hva. unfold uaddr. by rewrite (tables_same_user_pa m m' pt va Hs Hva). Qed.

(** A write inside one page. *)
Lemma stored_page m pt va pa src :
  0 ≤ va → va + Z.of_nat (length src) ≤ MAXVA → va mod PGSIZE + Z.of_nat (length src) ≤ PGSIZE →
  writable m pt va → user_pa m pt va = Some pa →
  stored m (mwrite m (pa + va mod PGSIZE) src) pt va src.
Proof.
  intros Hva Hmax Hp (_ & _ & Hd) Hpa. assert (HM : MAXVA < 2 ^ 64) by done. pose proof (page_split va) as [_ Hm].
  set (m' := mwrite _ _ _).
  assert (Hs : tables_same m m' pt).
  { intros q x Hq Hx. unfold m'. rewrite mget_mwrite, decide_False; [done|]. intros Hin.
    apply (Hd q x pa Hq Hpa). split; [done|]. unfold in_page. lia. }
  split; [done| |].
  - destruct (decide (length src = 0%nat)) as [E|E]; [apply nil_length_inv in E as ->; done|].
    rewrite (ubytes_page m' pt va pa); [apply mbytes_mwrite|done|done| |done].
    rewrite (tables_same_user_pa m m' pt va Hs); [done|lia].
  - intros x Hx. unfold m'. rewrite mget_mwrite, decide_False; [done|]. intros Hin.
    apply (Hx (x - (pa + va mod PGSIZE))); [lia|].
    rewrite (uaddr_in_page m pt va pa) by (done || lia). f_equal. lia.
Qed.

Lemma ubytes_ext m m' pt pt' va n :
  (∀ i, (i < n)%nat → mget m (default 0 (uaddr m pt (va + Z.of_nat i))) =
                      mget m' (default 0 (uaddr m' pt' (va + Z.of_nat i)))) →
  ubytes m pt va n = ubytes m' pt' va n.
Proof.
  intros Hx. unfold ubytes. apply list_fmap_ext. intros _ i Hi%list_elem_of_lookup_2.
  apply elem_of_seq in Hi. apply Hx. lia.
Qed.

(** Two writes one after the other. *)
Lemma stored_app m m1 m2 pt va src1 src2 :
  0 ≤ va → va + Z.of_nat (length (src1 ++ src2)) ≤ MAXVA →
  distinct m pt va (Z.of_nat (length (src1 ++ src2))) →
  (∀ i, 0 ≤ i < Z.of_nat (length src1) → is_Some (uaddr m pt (va + i))) →
  stored m m1 pt va src1 → stored m1 m2 pt (va + Z.of_nat (length src1)) src2 →
  stored m m2 pt va (src1 ++ src2).
Proof.
  intros Hva Hmax Hdist Hsome [T1 B1 F1] [T2 B2 F2]. rewrite length_app in *.
  assert (HM : MAXVA < 2 ^ 64) by done. pose proof (tables_same_trans _ _ _ _ T1 T2) as T.
  split; [done| |].
  - rewrite length_app, ubytes_app, B2. f_equal. rewrite <- B1 at 2. apply ubytes_ext. intros i Hi.
    rewrite (tables_same_uaddr m m2), (tables_same_uaddr m m1) by (done || lia).
    destruct (Hsome (Z.of_nat i)) as [x Hx]; [lia|]. rewrite Hx. cbn. apply F2. intros j Hj Hu.
    rewrite (tables_same_uaddr m m1) in Hu by (done || lia).
    assert (Z.of_nat i = Z.of_nat (length src1) + j); [|lia].
    apply Hdist; [lia|lia|]. rewrite Hx, Z.add_assoc. done.
  - intros x Hx. rewrite F2, F1; [done| |].
    + intros i Hi. apply Hx. rewrite length_app. lia.
    + intros i Hi. rewrite (tables_same_uaddr m m1) by (done || lia).
      rewrite <- Z.add_assoc. apply Hx. rewrite length_app. lia.
Qed.

(** The source may be longer than what is copied: [src ++ rest]. *)
Lemma copyout_loop fuel pt va src rest s :
  let len := Z.of_nat (length src) in
  pt_wf (k_mem s) pt [] → 0 ≤ va → (len = 0 ∨ va + len ≤ MAXVA) →
  (∀ i, 0 ≤ i < len → writable (k_mem s) pt (va + i)) → distinct (k_mem s) pt va len →
  (0 < fuel)%nat → (len = 0 ∨ va mod PGSIZE + len ≤ PGSIZE * (Z.of_nat fuel - 1)) →
  ∃ m', while_ fuel (copyout_body pt) (va, src ++ rest, len) s = Ret 0 (s <| k_mem := m' |>) ∧
    stored (k_mem s) m' pt va src.
Proof.
  cbn zeta. revert va src s. induction fuel as [|fuel IH]; intros va src s Hwf Hva Hmax Hw Hdist Hf Hfuel; [lia|].
  set (len := Z.of_nat (length src)) in *. cbn [while_].
  destruct (decide (len = 0)) as [E|Hne].
  { assert (src = []) as -> by (apply nil_length_inv; lia). rewrite E. exists (k_mem s). split; [cbn; by destruct s|].
    split; [by intros ???|done|done]. }
  destruct Hmax as [?|Hmax]; [lia|]. destruct Hfuel as [?|Hfuel]; [lia|].
  assert (HM : MAXVA < 2 ^ 64) by done. assert (HP : 0 < PGSIZE) by done.
  destruct (chunk_spec va len) as (Hc & Hp & Hnext & Hal); [lia|lia|]. pose proof (page_split va) as [_ Hm].
  assert (Hw0 : writable (k_mem s) pt va) by (specialize (Hw 0 ltac:(lia)); by rewrite Z.add_0_r in Hw).
  destruct (Hw0) as ((pa & Hpa & _) & _ & _).
  mrun. rewrite (copyout_step pt va (src ++ rest) len pa) by (done || lia). mrun.
  rewrite (take_app_le src), (drop_app_le src) by lia. set (c := chunk va len) in *. set (va' := va - va mod PGSIZE + PGSIZE) in *.
  set (src1 := take (Z.to_nat c) src). set (src2 := drop (Z.to_nat c) src).
  assert (Hl1 : Z.of_nat (length src1) = c) by (unfold src1; rewrite length_take; lia).
  assert (Hl2 : Z.of_nat (length src2) = len - c) by (unfold src2; rewrite length_drop; lia).
  set (m1 := mwrite _ _ _). set (s1 := s <| k_mem := m1 |>).
  assert (Hst1 : stored (k_mem s) m1 pt va src1) by (apply stored_page; (done || lia)).
  pose proof (st_tables _ _ _ _ _ Hst1) as T1.
  assert (Hf0 : (0 < fuel)%nat) by (destruct fuel; [cbn in Hfuel; lia|lia]).
  assert (Hva' : len - c = 0 ∨ va' = va + c) by lia.
  destruct (IH va' src2 s1) as (m2 & Hrun & Hst2).
  { by apply (tables_same_wf (k_mem s)). } { lia. } { lia. }
  { intros i Hi. replace (va' + i) with (va + (c + i)) by lia.
    apply (tables_same_writable (k_mem s)); [done|lia|]. apply Hw. lia. }
  { intros i j Hi Hj. replace (va' + i) with (va + (c + i)) by lia. replace (va' + j) with (va + (c + j)) by lia.
    unfold s1. ksimpl. rewrite !(tables_same_uaddr (k_mem s) m1) by (done || lia).
    intros Hu. apply Hdist in Hu; lia. }
  { done. }
  { destruct (decide (c = len)) as [E|E]; [left; lia|right]. rewrite Hal. lia. }
  rewrite Hl2 in Hrun. exists m2. split; [etransitivity; [exact Hrun|done]|].
  rewrite <- (take_drop (Z.to_nat c) src). fold src1 src2.
  assert (Hlen : length (src1 ++ src2) = length src) by (unfold src1, src2; by rewrite take_drop).
  apply (stored_app (k_mem s) m1); rewrite ?Hlen; try done.
  - intros i Hi. rewrite (uaddr_in_page _ pt va pa) by (done || lia). done.
  - destruct (decide (c = len)) as [E|E]; [|by replace (va + Z.of_nat (length src1)) with va' by lia].
    assert (src2 = []) as E2 by (apply nil_length_inv; lia). rewrite E2 in Hst2 |- *.
    destruct Hst2 as [T2 B2 F2]. split; [done|done|]. intros x _. apply F2. cbn. lia.
Qed.

Lemma copyout_run pt va src rest s :
  let len := Z.of_nat (length src) in
  pt_wf (k_mem s) pt [] → 0 ≤ va → va + len ≤ MAXVA →
  (∀ i, 0 ≤ i < len → writable (k_mem s) pt (va + i)) → distinct (k_mem s) pt va len →
  ∃ m', copyout pt va (src ++ rest) len s = Ret 0 (s <| k_mem := m' |>) ∧ stored (k_mem s) m' pt va src.
Proof.
  intros len Hwf Hva Hmax Hw Hd. apply (copyout_loop (copy_fuel len)); try done; [lia|unfold copy_fuel; lia|].
  right. apply copy_fuel_ok. lia.
Qed.

End usermem.

(** ** Theorems *)

Section theorems.
Context `{Image}.

(** C35: [copyin] delivers what the program sees.  When every address of the
    range is readable by user code, it returns 0 with exactly the bytes at
    those virtual addresses, across any number of pages, and changes nothing;
    at the first address that is not the program's it stops with -1, again
    without a side effect. *)
Theorem copyin_exact pt va len s :
  pt_wf (k_mem s) pt [] → 0 ≤ va → 0 ≤ len → va + len ≤ MAXVA →
  ((∀ i, 0 ≤ i < len → readable (k_mem s) pt (va + i)) →
     copyin pt va len s = Ret (0, ubytes (k_mem s) pt va (Z.to_nat len)) s) ∧
  ∀ k, 0 ≤ k < len → (∀ i, 0 ≤ i < k → readable (k_mem s) pt (va + i)) → forbidden pt (va + k) s →
    ∃ l, copyin pt va len s = Ret (-1, l) s.
Proof.
  intros Hwf Hva Hlen Hmax. assert (HM : MAXVA < 2 ^ 64) by done. split; [by apply copyin_run|].
  intros k Hk Hr Hfb. apply (copyin_fails_loop (copy_fuel len) pt [] va len k); try done; try lia.
  by apply copy_fuel_ok.
Qed.

(** C34: [copyout] and [copyin] are inverse.  When every address of the range is
    writable by user code, backed by a byte of its own and not by a page
    table, [copyout] returns 0; the program then sees the source bytes in the
    range, [copyin] reads them back, every translation and every other byte of
    memory is unchanged. *)
Theorem copyout_copyin pt va src s :
  let len := Z.of_nat (length src) in
  pt_wf (k_mem s) pt [] → 0 ≤ va → va + len ≤ MAXVA →
  (∀ i, 0 ≤ i < len → writable (k_mem s) pt (va + i)) → distinct (k_mem s) pt va len →
  ∃ s', copyout pt va src len s = Ret 0 s' ∧ copyin pt va len s' = Ret (0, src) s' ∧
    s' = s <| k_mem := k_mem s' |> ∧
    (∀ va', 0 ≤ va' < 2 ^ 64 → tr (k_mem s') pt va' = tr (k_mem s) pt va') ∧
    ∀ x, (∀ i, 0 ≤ i < len → uaddr (k_mem s) pt (va + i) ≠ Some x) → mget (k_mem s') x = mget (k_mem s) x.
Proof.
  intros len Hwf Hva Hmax Hw Hd. assert (HM : MAXVA < 2 ^ 64) by done.
  destruct (copyout_run pt va src [] s Hwf Hva Hmax Hw Hd) as (m' & Hrun & [T B F]). rewrite app_nil_r in Hrun.
  set (s' := s <| k_mem := m' |>). exists s'. split_and!; [exact Hrun| |reflexivity| |exact F].
  - assert (Hr : ∀ i, 0 ≤ i < len → readable m' pt (va + i)).
    { intros i Hi. apply (tables_same_writable (k_mem s) m' pt (va + i) T); [unfold len in *; lia|]. by apply Hw. }
    rewrite (copyin_run pt va len s' (tables_same_wf _ _ _ _ T Hwf) Hva ltac:(lia) Hmax Hr).
    unfold len. change (k_mem s') with m'. by rewrite Nat2Z.id, B.
  - intros va' Hva'. exact (tables_same_tr _ _ pt va' T Hva').
Qed.

End theorems.

(** ** Evaluation on the concrete machine *)

(** The root table of the small machine with two user pages mapped at 0. *)
Definition demo_perm : Z := Z.lor (Z.lor PTE_R PTE_W) PTE_U.
Definition demo_map : res Z := mappages (demo_pg 1) 0 (2 * PGSIZE) (demo_pg 6) demo_perm demo_vm.
Definition demo_user : kernel := match demo_map with Ret _ s => s | _ => demo_vm end.

Lemma demo_user_map :
  demo_map = Ret 0 demo_user ∧ @pt_wf demo_image (k_mem demo_user) (demo_pg 1) [] ∧
  (∀ va, 0 ≤ va < MAXVA → tr (k_mem demo_user) (demo_pg 1) va =
    if decide (0 ≤ va < 2 * PGSIZE) then Some (mapped 0 (demo_pg 6) demo_perm va) else None) ∧
  ∀ q, is_table (k_mem demo_user) (demo_pg 1) q → q ∈ [demo_pg 1; demo_pg 2; demo_pg 3; demo_pg 4].
Proof.
  destruct (@mappages_maps demo_image (@free_list demo_image) _ (demo_pg 1) _ demo_vm 0 (2 * PGSIZE)
    (demo_pg 6) demo_perm demo_vm_ok) as (r & s' & F' & d & H1 & H2 & H3 & H4);
    [lia|by vm_compute|by vm_compute|by vm_compute|by vm_compute|by vm_compute|by vm_compute|by vm_compute| |].
  { intros va Hva. apply demo_vm_tr. unfold PGSIZE in Hva. lia. }
  assert (Hr : match demo_map with Ret r _ => r =? 0 | _ => false end = true) by (by vm_compute).
  fold demo_map in H1. unfold demo_user. rewrite H1 in *. apply Z.eqb_eq in Hr as ->.
  destruct H3 as [[_ ->]|[? _]]; [|done]. split; [reflexivity|]. split; [|split].
  - eapply pt_wf_nil, (vo_wf _ _ _ _ (gr_ok _ _ _ _ _ _ H2)).
  - intros va Hva. rewrite H4 by done. destruct (decide _); [done|]. apply demo_vm_tr.
    assert (MAXVA < 2 ^ 64) by done. lia.
  - intros q [(k & Hk & Hq)|Hq]%(gr_tables _ _ _ _ _ _ H2); [|apply elem_of_cons; right; exact Hq].
    destruct k as [|i k]; [injection Hq as <-; apply elem_of_cons; left; reflexivity|]. exfalso. destruct Hk as [_ Hf].
    apply Forall_cons_1 in Hf as [Hi _]. unfold node in Hq. cbn [foldl mbind option_bind] in Hq.
    assert (Hc : child (k_mem demo_vm) (demo_pg 1) i = None).
    { unfold child. rewrite entry_zero; [done|done|]. intros x Hx. apply demo_vm_zero. done. }
    rewrite Hc in Hq. revert Hq. clear. induction k as [|j k IH]; [done|]. exact IH.
Qed.

Lemma demo_user_pa va :
  0 ≤ va < 2 * PGSIZE → user_pa (k_mem demo_user) (demo_pg 1) va = Some (demo_pg 6 + va / PGSIZE * PGSIZE).
Proof.
  intros Hva. destruct demo_user_map as (_ & _ & Htr & _). unfold user_pa.
  assert (2 * PGSIZE < MAXVA) by done. rewrite Htr, decide_True by lia. cbn [mbind option_bind].
  unfold mapped. rewrite Z.sub_0_r. pose proof (Z.div_pos va PGSIZE ltac:(lia) ltac:(done)).
  assert (va / PGSIZE < 2) by (apply Z.div_lt_upper_bound; lia).
  assert (Hq : va / PGSIZE = 0 ∨ va / PGSIZE = 1) by lia. by destruct Hq as [-> | ->]; vm_compute.
Qed.

Lemma demo_user_writable va : 0 ≤ va < 2 * PGSIZE → writable (k_mem demo_user) (demo_pg 1) va.
Proof.
  intros Hva. destruct demo_user_map as (_ & _ & Htr & Htab). assert (2 * PGSIZE < MAXVA) by done.
  assert (Hq : va / PGSIZE = 0 ∨ va / PGSIZE = 1).
  { pose proof (Z.div_pos va PGSIZE ltac:(lia) ltac:(done)).
    assert (va / PGSIZE < 2) by (apply Z.div_lt_upper_bound; lia). lia. }
  split_and!.
  - eexists. split; [by apply demo_user_pa|]. by destruct Hq as [-> | ->]; vm_compute.
  - eexists. split; [rewrite Htr, decide_True by lia; reflexivity|]. unfold mapped. rewrite Z.sub_0_r.
    by destruct Hq as [-> | ->]; vm_compute.
  - intros q x pa Hq' Hpa [Hx Hx']. apply Htab in Hq'. rewrite demo_user_pa in Hpa by done. injection Hpa as <-.
    rewrite !elem_of_cons, elem_of_nil in Hq'. unfold in_page, demo_pg, PGSIZE in *.
    destruct Hq' as [->|[->|[->|[->|[]]]]]; destruct Hq as [E|E]; rewrite E in *; lia.
Qed.

Lemma demo_user_distinct va len :
  0 ≤ va → va + len ≤ 2 * PGSIZE → distinct (k_mem demo_user) (demo_pg 1) va len.
Proof.
  intros Hva Hmax i j Hi Hj. unfold uaddr. rewrite !demo_user_pa by lia. cbn. intros [= E].
  pose proof (page_split (va + i)) as [? _]. pose proof (page_split (va + j)) as [? _]. lia.
Qed.

#[local] Existing Instance demo_image.
#[local] Opaque demo_user.

(** A copy across the page boundary at 4096. *)
Definition demo_src : list Z := replicate 200 7.

Lemma copyout_copyin_witness :
  ∃ s', copyout (demo_pg 1) 4000 demo_src (Z.of_nat (length demo_src)) demo_user = Ret 0 s' ∧
    copyin (demo_pg 1) 4000 (Z.of_nat (length demo_src)) s' = Ret (0, demo_src) s'.
Proof.
  destruct (copyout_copyin (demo_pg 1) 4000 demo_src demo_user) as (s' & H1 & H2 & _).
  - apply demo_user_map.
  - lia.
  - vm_compute. discriminate.
  - intros i Hi. change (length demo_src) with 200%nat in Hi. apply demo_user_writable. unfold PGSIZE. lia.
  - apply demo_user_distinct; [lia|]. vm_compute. discriminate.
  - exists s'. split; [exact H1|exact H2].
Defined.

Lemma copyin_exact_witness :
  copyin (demo_pg 1) 4000 200 demo_user =
    Ret (0, ubytes (k_mem demo_user) (demo_pg 1) 4000 (Z.to_nat 200)) demo_user.
Proof.
  destruct (copyin_exact (demo_pg 1) 4000 200 demo_user) as [Hc _].
  - apply demo_user_map.
  - lia.
  - lia.
  - vm_compute. discriminate.
  - apply Hc. intros i Hi. destruct (demo_user_writable (4000 + i)) as [Hr _]; [unfold PGSIZE; lia|exact Hr].
Defined.
