(* ===== verification/Printf.v ===== *)
(** * Console output: kernel/uart.c (polled), [consputc] of kernel/console.c
    and kernel/printf.c

    Device registers are memory mapped.  A read returns what the device
    decides ([mmio_in], a parameter); a write is appended to [k_mmio_out].
    The bytes the kernel prints are the writes to the UART's transmit
    register. *)

From S2P Require Import Prelude Riscv State Spinlock CString.

Section printf.
Context `{Device}.

(** ** Memory-mapped registers *)

Definition mmio_read (addr : Z) : M Z :=
  n ← gets k_mmio_reads;
  modify (λ s, s <| k_mmio_reads := S n |>);;
  mret (mmio_in n addr).

Definition mmio_write (addr v : Z) : M unit :=
  modify (λ s, s <| k_mmio_out ::= λ l, l ++ [(addr, v)] |>).

(** ** kernel/uart.c *)

Definition RHR : Z := 0.
Definition THR : Z := 0.
Definition IER : Z := 1.
Definition IER_RX_ENABLE : Z := 1.
Definition IER_TX_ENABLE : Z := 2.
Definition FCR : Z := 2.
Definition FCR_FIFO_ENABLE : Z := 1.
Definition FCR_FIFO_CLEAR : Z := 6.
Definition ISR : Z := 2.
Definition LCR : Z := 3.
Definition LCR_EIGHT_BITS : Z := 3.
Definition LCR_BAUD_LATCH : Z := 128.
Definition LSR : Z := 5.
Definition LSR_RX_READY : Z := 1.
Definition LSR_TX_IDLE : Z := 32.

Definition ReadReg (reg : Z) : M Z := v ← mmio_read (UART0 + reg); mret (u8 v).
Definition WriteReg (reg v : Z) : M unit := mmio_write (UART0 + reg) (u8 v).

Definition uartinit : M unit :=
  WriteReg IER 0x00;;
  WriteReg LCR LCR_BAUD_LATCH;;
  WriteReg 0 0x03;;
  WriteReg 1 0x00;;
  WriteReg LCR LCR_EIGHT_BITS;;
  WriteReg FCR (Z.lor FCR_FIFO_ENABLE FCR_FIFO_CLEAR);;
  WriteReg IER (Z.lor IER_TX_ENABLE IER_RX_ENABLE);;
  initlock L_tx "uart".

(** Number of polls of the status register the model allows for. *)
Definition POLL_FUEL : nat := 100.

Definition uartputc_sync (c : Z) : M unit :=
  panicking ← gets k_panicking;
  when (panicking =? 0) push_off;;
  panicked ← gets k_panicked;
  if truth panicked then spin else
  while_ POLL_FUEL
    (λ _ : unit,
      v ← ReadReg LSR;
      mret (if Z.land v LSR_TX_IDLE =? 0 then inl tt else inr tt)) tt;;
  WriteReg THR c;;
  panicking ← gets k_panicking;
  when (panicking =? 0) pop_off.

Definition uartgetc : M Z :=
  v ← ReadReg LSR;
  if truth (Z.land v LSR_RX_READY) then ReadReg RHR else mret (-1).

(** ** [consputc] of kernel/console.c *)

Definition BACKSPACE : Z := 0x100.

Definition consputc (c : Z) : M unit :=
  if c =? BACKSPACE then uartputc_sync 8;; uartputc_sync 32;; uartputc_sync 8
  else uartputc_sync c.

(** ** kernel/printf.c *)

Definition digits : list Z := str "0123456789abcdef".
Definition digit (d : Z) : Z := default 0 (digits !! Z.to_nat d).

(** The [do ... while] loop that fills [buf]: digits, least significant
    first.  A 64-bit number has at most 64 digits in any base. *)
Fixpoint printint_digits (fuel : nat) (x base : Z) : list Z :=
  match fuel with
  | O => []
  | S fuel =>
      digit (x mod base) ::
      (if x / base =? 0 then [] else printint_digits fuel (x / base) base)
  end.

(** The contents of [buf] before it is printed backwards. *)
Definition printint_buf (xx base : Z) (sign : bool) : list Z :=
  let neg := sign && (xx <? 0) in
  let x := u64 (if neg : bool then - xx else xx) in
  printint_digits 64 x base ++ (if neg : bool then [chr "-"] else []).

Definition printint (xx base : Z) (sign : bool) : M unit :=
  for_each (rev (printint_buf xx base sign)) consputc.

Fixpoint printptr_loop (n : nat) (x : Z) : M unit :=
  match n with
  | O => skip
  | S n => consputc (digit (Z.shiftr x 60));; printptr_loop n (u64 (Z.shiftl x 4))
  end.
Definition printptr (x : Z) : M unit :=
  consputc (chr "0");; consputc (chr "x");; printptr_loop 16 x.

(** Arguments of [printf]: integers and (possibly null) strings. *)
Inductive parg := PInt (z : Z) | PStr (s : option (list Z)).

Definition va_int (ap : list parg) : M (Z * list parg) :=
  match ap with PInt z :: ap => mret (z, ap) | _ => ub end.
Definition va_str (ap : list parg) : M (option (list Z) * list parg) :=
  match ap with PStr s :: ap => mret (s, ap) | _ => ub end.

(** One conversion: [fmt] starts after the percent sign.  Returns the rest of
    the format and the remaining arguments, or [None] at the end. *)
Definition printf_conv (fmt : list Z) (ap : list parg) : M (option (list Z * list parg)) :=
  let c0 := default 0 (fmt !! 0%nat) in
  let c1 := if truth c0 then default 0 (fmt !! 1%nat) else 0 in
  let c2 := if truth c1 then default 0 (fmt !! 2%nat) else 0 in
  let conv (skip : nat) (conv_arg : Z → Z) base sign :=
    '(z, ap) ← va_int ap;
    printint (conv_arg z) base sign;;
    mret (Some (drop (S skip) fmt, ap)) in
  if c0 =? chr "d" then conv 0%nat i32 10 true
  else if (c0 =? chr "l") && (c1 =? chr "d") then conv 1%nat i64 10 true
  else if (c0 =? chr "l") && (c1 =? chr "l") && (c2 =? chr "d") then conv 2%nat i64 10 true
  else if c0 =? chr "u" then conv 0%nat u32 10 false
  else if (c0 =? chr "l") && (c1 =? chr "u") then conv 1%nat i64 10 false
  else if (c0 =? chr "l") && (c1 =? chr "l") && (c2 =? chr "u") then conv 2%nat i64 10 false
  else if c0 =? chr "x" then conv 0%nat u32 16 false
  else if (c0 =? chr "l") && (c1 =? chr "x") then conv 1%nat i64 16 false
  else if (c0 =? chr "l") && (c1 =? chr "l") && (c2 =? chr "x") then conv 2%nat i64 16 false
  else if c0 =? chr "p" then
    ('(z, ap) ← va_int ap; printptr (u64 z);; mret (Some (drop 1 fmt, ap)))
  else if c0 =? chr "c" then
    ('(z, ap) ← va_int ap; consputc (u32 z);; mret (Some (drop 1 fmt, ap)))
  else if c0 =? chr "s" then
    ('(s, ap) ← va_str ap;
     for_each (cstr (default (str "(null)") s)) consputc;;
     mret (Some (drop 1 fmt, ap)))
  else if c0 =? chr "%" then consputc (chr "%");; mret (Some (drop 1 fmt, ap))
  else if c0 =? 0 then mret None
  else consputc (chr "%");; consputc c0;; mret (Some (drop 1 fmt, ap)).

(** The format loop; each round consumes at least one character. *)
Definition printf_loop (fmt : list Z) (ap : list parg) : M unit :=
  while_ (S (length fmt))
    (λ '(fmt, ap),
      let cx := default 0 (head fmt) in
      if cx =? 0 then mret (inr tt)
      else if negb (cx =? chr "%") then consputc cx;; mret (inl (tail fmt, ap))
      else
        r ← printf_conv (tail fmt) ap;
        match r with Some x => mret (inl x) | None => mret (inr tt) end)
    (fmt, ap).

Definition printf (fmt : list Z) (ap : list parg) : M unit :=
  panicking ← gets k_panicking;
  when (panicking =? 0) (acquire L_pr);;
  printf_loop fmt ap;;
  panicking ← gets k_panicking;
  when (panicking =? 0) (release L_pr).

Definition printfinit : M unit := initlock L_pr "pr".

End printf.
