(* ===== verification/Sched.v ===== *)
(** * Processes and scheduling: the scheduling half of kernel/proc.c

    Process table, pid allocation, [sched]/[yield]/[sleep]/[wakeup], [kkill],
    the LLM-advised [scheduler], the per-tick statistics and the scheduler
    log.  Process creation and termination, which need the file system, are
    in Proc.v. *)

From S2P Require Import Prelude Riscv State Spinlock CString Kalloc Vm Printf.

Section sched.
Context `{Image, Device}.

Definition ADVICE_TIMEOUT_TICKS : Z := 200.

Definition procinit : M unit :=
  initlock L_pid "nextpid";;
  initlock L_wait "wait_lock";;
  initlock L_llm "llm_advice";;
  for_each (seq 0 NPROC) (λ p,
    initlock (L_proc p) "proc";;
    upd_proc p (λ x, x <| p_state := UNUSED |>
                       <| p_kstack := KSTACK (Z.of_nat p) |>
                       <| p_cpu_ticks := 0 |> <| p_wait_ticks := 0 |>
                       <| p_io_count := 0 |> <| p_recent_cpu := 0 |>)).

Definition allocpid : M Z :=
  acquire L_pid;;
  pid ← gets k_nextpid;
  modify (λ s, s <| k_nextpid := i32 (pid + 1) |>);;
  release L_pid;;
  mret pid.

(** ** Giving up the CPU *)

Definition sched : M unit :=
  p ← curproc;
  h ← holding (L_proc p);
  if negb h then panic "sched p->lock" else
  c ← mycpu; x ← get_cpu c;
  if negb (c_noff x =? 1) then panic "sched locks" else
  y ← get_proc p;
  if bool_decide (p_state y = RUNNING) then panic "sched RUNNING" else
  ie ← intr_get;
  if truth ie then panic "sched interruptible" else
  c ← mycpu; x ← get_cpu c;
  let intena := c_intena x in
  swtch To_scheduler;;
  c ← mycpu;
  upd_cpu c (λ x, x <| c_intena := intena |>).

Definition yield : M unit :=
  p ← curproc;
  acquire (L_proc p);;
  upd_proc p (λ x, x <| p_state := RUNNABLE |>);;
  sched;;
  release (L_proc p).

Definition sleep (chan : chan_id) (lk : lock_id) : M unit :=
  p ← curproc;
  acquire (L_proc p);;
  release lk;;
  upd_proc p (λ x, x <| p_chan := chan |>);;
  upd_proc p (λ x, x <| p_state := SLEEPING |>);;
  sched;;
  upd_proc p (λ x, x <| p_chan := Ch_null |>);;
  release (L_proc p);;
  acquire lk.

Definition wakeup (chan : chan_id) : M unit :=
  for_each (seq 0 NPROC) (λ p,
    me ← myproc;
    if bool_decide (Some p = me) then skip else
    acquire (L_proc p);;
    x ← get_proc p;
    when (bool_decide (p_state x = SLEEPING) && bool_decide (p_chan x = chan))
      (upd_proc p (λ x, x <| p_state := RUNNABLE |>));;
    release (L_proc p)).

Definition kkill (pid : Z) : M Z :=
  r ← for_ret (seq 0 NPROC) (λ p,
    acquire (L_proc p);;
    x ← get_proc p;
    if p_pid x =? pid then
      upd_proc p (λ x, x <| p_killed := 1 |>);;
      when (bool_decide (p_state x = SLEEPING))
        (upd_proc p (λ x, x <| p_state := RUNNABLE |>));;
      release (L_proc p);;
      mret (Some 0)
    else release (L_proc p);; mret None);
  mret (default (-1) r).

Definition setkilled (p : nat) : M unit :=
  acquire (L_proc p);;
  upd_proc p (λ x, x <| p_killed := 1 |>);;
  release (L_proc p).

Definition killed (p : nat) : M bool :=
  acquire (L_proc p);;
  x ← get_proc p;
  let k := p_killed x in
  release (L_proc p);;
  mret (truth k).

(** ** The scheduler *)

(** The advice snapshot: [have_advice ? Some advised_pid : None]. *)
Definition read_advice : M (option Z) :=
  acquire L_llm;;
  a ← gets k_llm;
  t ← gets k_ticks;
  let r := if truth (llm_advice_valid a) &&
              (u32 (t - llm_advice_timestamp a) <? ADVICE_TIMEOUT_TICKS)
           then Some (llm_recommended_pid a) else None in
  release L_llm;;
  mret r.

(** The loop that tries to honor the advice; the result is [found]. *)
Definition run_advised (c : nat) (advised_pid : Z) : M bool :=
  r ← for_ret (seq 0 NPROC) (λ p,
    acquire (L_proc p);;
    x ← get_proc p;
    if bool_decide (p_state x = RUNNABLE) && (p_pid x =? advised_pid) then
      upd_proc p (λ x, x <| p_state := RUNNING |>);;
      upd_cpu c (λ y, y <| c_proc := Some p |>);;
      acquire L_llm;;
      modify (λ s, s <| k_llm ::= set llm_advice_valid (λ _, 0) |>);;
      release L_llm;;
      swtch (To_proc p);;
      upd_cpu c (λ y, y <| c_proc := None |>);;
      release (L_proc p);;
      mret (Some tt)
    else release (L_proc p);; mret None);
  mret (bool_decide (is_Some r)).

(** The round-robin sweep over the whole table; the result is [found]. *)
Definition run_round_robin (c : nat) : M bool :=
  for_fold (seq 0 NPROC) (λ found p,
    acquire (L_proc p);;
    x ← get_proc p;
    found ←
      (if bool_decide (p_state x = RUNNABLE) then
         upd_proc p (λ x, x <| p_state := RUNNING |>);;
         upd_cpu c (λ y, y <| c_proc := Some p |>);;
         swtch (To_proc p);;
         upd_cpu c (λ y, y <| c_proc := None |>);;
         mret true
       else mret found);
    release (L_proc p);;
    mret found) false.

(** One round of the scheduler's endless loop. *)
Definition scheduler_iter (c : nat) : M unit :=
  intr_on;;
  intr_off;;
  advice ← read_advice;
  found ← match advice with Some pid => run_advised c pid | None => mret false end;
  found ← (if (found : bool) then mret true else run_round_robin c);
  if (found : bool) then skip else swtch To_idle.

Definition scheduler (rounds : nat) : M unit :=
  c ← mycpu;
  upd_cpu c (λ y, y <| c_proc := None |>);;
  for_each (seq 0 rounds) (λ _, scheduler_iter c).

(** ** Statistics and logs *)

Definition update_sched_stats : M unit :=
  for_each (seq 0 NPROC) (λ p,
    acquire (L_proc p);;
    x ← get_proc p;
    (if bool_decide (p_state x = RUNNABLE) then
       upd_proc p (λ x, x <| p_wait_ticks ::= λ n, i32 (n + 1) |>)
     else if bool_decide (p_state x = RUNNING) then
       upd_proc p (λ x, x <| p_cpu_ticks ::= λ n, i32 (n + 1) |>);;
       upd_proc p (λ x, x <| p_recent_cpu ::= λ n, i32 (n + 1) |>)
     else skip);;
    release (L_proc p)).

(** A row of the local array [snap]. *)
Definition snap_row (x : proc) : list Z :=
  [p_pid x; procstate_val (p_state x); p_cpu_ticks x; p_wait_ticks x; p_io_count x; p_recent_cpu x].

Definition log_scheduling_state : M unit :=
  snap ← for_fold (seq 0 NPROC) (λ snap p,
    acquire (L_proc p);;
    x ← get_proc p;
    let snap' := if negb (bool_decide (p_state x = UNUSED)) && (length snap <? NPROC)%nat
                 then snap ++ [snap_row x] else snap in
    release (L_proc p);;
    mret snap') [];
  printf (str "SCHED_LOG_START" ++ [10]) [];;
  t ← gets k_ticks;
  printf (str "TIMESTAMP:%u" ++ [10]) [PInt t];;
  for_each snap (λ row, printf (str "PROC:%d,%d,%d,%d,%d,%d" ++ [10]) (PInt <$> row));;
  printf (str "SCHED_LOG_END" ++ [10]) [].

Definition state_name (st : procstate) : string :=
  match st with
  | UNUSED => "unused" | USED => "used" | SLEEPING => "sleep "
  | RUNNABLE => "runble" | RUNNING => "run   " | ZOMBIE => "zombie"
  end.

Definition procdump : M unit :=
  printf [10] [];;
  for_each (seq 0 NPROC) (λ p,
    x ← get_proc p;
    if bool_decide (p_state x = UNUSED) then skip else
    printf (str "%d %s %s")
      [PInt (p_pid x); PStr (Some (str (state_name (p_state x)))); PStr (Some (p_name x))];;
    printf [10] []).

(** ** Copies to and from either address space *)

Definition either_copyout (user_dst : bool) (dst : Z) (src : list Z) (len : Z) : M Z :=
  me ← myproc;
  if user_dst then p ← of_option me; x ← get_proc p; copyout (p_pagetable x) dst src len
  else store_bytes dst (take (Z.to_nat len) src);; mret 0.

(** Returns the status and the bytes stored in the destination. *)
Definition either_copyin (user_src : bool) (src len : Z) : M (Z * list Z) :=
  me ← myproc;
  if user_src then p ← of_option me; x ← get_proc p; copyin (p_pagetable x) src len
  else l ← load_bytes src (Z.to_nat len); mret (0, l).

End sched.
