(* ===== verification/Interleave.v ===== *)
(** * Harts that run side by side

    A function of the kernel monad runs from one context switch to the next
    without interference.  To speak of races, a thread is written here as the
    sequence of its atomic actions: [denote] gives back the function, so the
    actions are the code's when the two agree, and [hstep] lets any hart run
    its next action.  Every hart has registers of its own; memory, the locks,
    the process table and [cpus[]] are shared.  A hart whose next action waits
    for a lock ([Spin]) cannot step; one that switches to its scheduler goes
    on with the scheduler's code that the switch returns to. *)

From Stdlib Require Import FunctionalExtensionality.
From S2P Require Import Prelude Riscv State Spinlock ProcTable Sched.

Inductive prog :=
| Done
| Act {A : Type} (m : M A) (k : A → prog).

Fixpoint denote (t : prog) : M unit :=
  match t with
  | Done => skip
  | Act m k => x ← m; denote (k x)
  end.

(** A hart: its registers, the actions it has left, and the code of its
    scheduler that runs when the thread gives up the CPU. *)
Record thread := Thread { t_csr : csrs; t_prog : prog; t_sched : prog }.

Definition on_hart (cs : csrs) (s : kernel) : kernel := s <| k_hw ::= set h_csr (λ _, cs) |>.

Definition hart_step (s : kernel) (t : thread) : option (kernel * thread) :=
  match t_prog t with
  | Done => None
  | Act m k =>
      match m (on_hart (t_csr t) s) with
      | Ret a s' => Some (s', Thread (h_csr (k_hw s')) (k a) (t_sched t))
      | Switch To_scheduler s' _ => Some (s', Thread (h_csr (k_hw s')) (t_sched t) Done)
      | _ => None
      end
  end.

Inductive hstep : kernel * list thread → kernel * list thread → Prop :=
| hstep_hart s ts i t s' t' :
    ts !! i = Some t → hart_step s t = Some (s', t') → hstep (s, ts) (s', <[i := t']> ts).

Definition finished (ts : list thread) : Prop := Forall (λ t, t_prog t = Done) ts.

(** Running the harts in a given order. *)
Fixpoint hrun (order : list nat) (s : kernel) (ts : list thread) : option (kernel * list thread) :=
  match order with
  | [] => Some (s, ts)
  | i :: order =>
      t ← ts !! i;
      '(s', t') ← hart_step s t;
      hrun order s' (<[i := t']> ts)
  end.

Lemma hrun_steps order s ts c : hrun order s ts = Some c → rtc hstep (s, ts) c.
Proof.
  revert s ts. induction order as [|i order IH]; intros s ts H; cbn [hrun] in H; [by simplify_eq|].
  destruct (ts !! i) as [t|] eqn:Ht; [|done]. cbn in H.
  destruct (hart_step s t) as [[s' t']|] eqn:Hs; [|done]. cbn in H.
  eapply rtc_l; [by eapply hstep_hart|by apply IH].
Qed.

(** ** The monad laws that relate a function to its actions *)

Lemma bind_res_ret (r : res unit) : bind_res r (λ _, skip) = r.
Proof.
  induction r as [[] s|msg|to s k IH| | |]; cbn; try done.
  f_equal. apply functional_extensionality. intros s'. apply IH.
Qed.

Lemma bind_res_assoc {A B C} (r : res A) (f : A → M B) (g : B → M C) :
  bind_res (bind_res r f) g = bind_res r (λ a s, bind_res (f a s) g).
Proof.
  induction r as [a s|msg|to s k IH| | |]; cbn; try done.
  f_equal. apply functional_extensionality. intros s'. apply IH.
Qed.

Lemma bind_res_ext {A B} (r : res A) (f g : A → M B) :
  (∀ a s, f a s = g a s) → bind_res r f = bind_res r g.
Proof.
  intros Hfg. induction r as [a s|msg|to s k IH| | |]; cbn; try done.
  f_equal. apply functional_extensionality. intros s'. apply IH.
Qed.

(** ** What an action of one hart does

    Hart [c] is at nesting depth [n] with registers [cs]. *)
Definition at_cpu (c : nat) (n : Z) (cs : csrs) (s : kernel) : Prop :=
  hart_pre n (k_hw (on_hart cs s)) ∧ cur (k_hw (on_hart cs s)) = c.

Definition proc_on (c : nat) (s : kernel) : option nat := h_cpus (k_hw s) !! c ≫= c_proc.

(** The action took [s] to [s']: hart [c] is at depth [n] now, the other
    harts' [struct cpu]s are untouched, and the locks, the process table and
    the current process of [c] are as stated. *)
Record effect (c : nat) (n : Z) (L : gmap lock_id spinlock) (P : list proc) (o : option nat)
    (s s' : kernel) : Prop := {
  ef_at : at_cpu c n (h_csr (k_hw s')) s';
  ef_cpus : ∀ i, i ≠ c → h_cpus (k_hw s') !! i = h_cpus (k_hw s) !! i;
  ef_locks : h_locks (k_hw s') = L;
  ef_procs : k_procs s' = P;
  ef_proc : proc_on c s' = o
}.

Lemma at_cpu_other c c' n n' L P o cs s s' :
  effect c n L P o s s' → c' ≠ c → at_cpu c' n' cs s → at_cpu c' n' cs s'.
Proof.
  intros He Hne [[Htp Hss Hn (y & Hy & H1 & H2)] Hc]. split; [|done].
  split; [done|done|done|]. exists y. split; [|done].
  change (cur (k_hw (on_hart cs s'))) with (cur (k_hw (on_hart cs s))). rewrite Hc in Hy |- *.
  cbn in Hy |- *. by rewrite (ef_cpus _ _ _ _ _ _ _ He) by done.
Qed.

Lemma proc_on_other c c' n L P o s s' :
  effect c n L P o s s' → c' ≠ c → proc_on c' s' = proc_on c' s.
Proof. intros He Hne. unfold proc_on. by rewrite (ef_cpus _ _ _ _ _ _ _ He). Qed.

Lemma hart_pre_acq n lk h : hart_pre n h → n + 1 < 2 ^ 30 → hart_pre (n + 1) (acq lk h).
Proof.
  intros Hh Hn. rewrite <- acq_settle. apply hart_at_pre, hart_at_acq; [by apply hart_at_settle|done].
Qed.

Lemma cpus_acq_ne lk h i : i ≠ cur h → h_cpus (acq lk h) !! i = h_cpus h !! i.
Proof. intros Hi. unfold acq, push_hw, sie_off. ksimpl. by rewrite list_lookup_alter_ne. Qed.

Lemma hart_csr_id s : on_hart (h_csr (k_hw s)) s = s.
Proof. by destruct s as [[]]. Qed.

Lemma at_cpu_own c n s : hart_pre n (k_hw s) → cur (k_hw s) = c → at_cpu c n (h_csr (k_hw s)) s.
Proof. intros H1 H2. unfold at_cpu. by rewrite hart_csr_id. Qed.

Lemma acquire_effect c n cs s lk nm :
  at_cpu c n cs s → n + 1 < 2 ^ 30 → h_locks (k_hw s) !! lk = Some (Spinlock 0 nm None) →
  ∃ s', acquire lk (on_hart cs s) = Ret tt s' ∧
    effect c (n + 1) (<[lk := Spinlock 1 nm (Some c)]> (h_locks (k_hw s))) (k_procs s) (proc_on c s) s s'.
Proof.
  intros [Hh Hc] Hn Hl. eexists. split; [apply (acquire_run_pre n); [done|by exists nm]|]. split.
  - apply at_cpu_own; [by apply hart_pre_acq|done].
  - intros i Hi. ksimpl. rewrite cpus_acq_ne by congruence. done.
  - ksimpl. unfold acq. ksimpl. rewrite Hc. apply map_eq. intros l.
    change (h_locks (push_hw (k_hw (on_hart cs s)))) with (h_locks (k_hw s)).
    destruct (decide (l = lk)) as [->|Hne].
    + by rewrite lookup_alter_eq, lookup_insert_eq, Hl.
    + by rewrite lookup_alter_ne, lookup_insert_ne.
  - done.
  - change (proc_on c s) with (proc_on c (on_hart cs s)). rewrite <- Hc.
    exact (cur_proc_acq lk (k_hw (on_hart cs s))).
Qed.

Lemma acquire_waits c n cs s lk nm c' :
  at_cpu c n cs s → h_locks (k_hw s) !! lk = Some (Spinlock 1 nm (Some c')) → c' ≠ c →
  acquire lk (on_hart cs s) = Spin.
Proof.
  intros [Hh Hc] Hl Hne. unfold acquire. mrun_with (push_off_run n (on_hart cs s) Hh).
  assert (Hl' : h_locks (k_hw (on_hart cs s <| k_hw := push_hw (k_hw (on_hart cs s)) |>)) !! lk =
    Some (Spinlock 1 nm (Some c'))) by done.
  unfold holding. mrun_with (get_lock_run _ _ _ Hl'). cbn [truth lk_locked Z.eqb negb].
  mrun_with mycpu_run; [|apply Hh]. cbn [lk_cpu].
  change (cur _) with (cur (k_hw (on_hart cs s))). rewrite Hc.
  rewrite bool_decide_false by congruence. by mrun_with (get_lock_run _ _ _ Hl').
Qed.

(** [pop_off] at any depth, whatever happened in between. *)
Lemma pop_off_effect c n s :
  hart_pre (n + 1) (k_hw s) → 0 ≤ n → cur (k_hw s) = c →
  ∃ s', pop_off s = Ret tt s' ∧
    effect c n (h_locks (k_hw s)) (k_procs s) (proc_on c s) s s'.
Proof.
  intros [Htp Hss Hn (y & Hy & Hoff & Hie)] Hn0 Hc. specialize (Hie ltac:(lia)). subst c.
  unfold pop_off. mrun_with mycpu_run; [|done].
  assert (Hg : intr_get s = Ret 0 s).
  { unfold intr_get, r_sstatus, csr_get. mrun.
    change (Ret (Z_of_bool (ie (k_hw s))) s = Ret 0 s). by rewrite Hie. }
  mrun_with Hg. cbn [truth Z.eqb negb]. mrun_with (get_cpu_run _ _ _ Hy). rewrite Hoff.
  destruct (Z.ltb_spec (n + 1) 1); [lia|].
  mrun_with (upd_cpu_run _ _ _ _ Hy).
  set (y' := set c_noff (λ n0, i32 (n0 - 1)) y).
  assert (Hy' : c_noff y' = n) by (unfold y'; ksimpl; rewrite Hoff, i32_small; lia).
  erewrite get_cpu_run; [|ksimpl; rewrite list_lookup_alter_eq, Hy; reflexivity]. mrun. fold y'.
  set (s1 := s <| k_hw ::= set h_cpus (alter (set c_noff (λ n0, i32 (n0 - 1))) (cur (k_hw s))) |>).
  assert (Hl1 : h_cpus (k_hw s1) !! cur (k_hw s) = Some y')
    by (unfold s1; ksimpl; by rewrite list_lookup_alter_eq, Hy).
  assert (Ho1 : ∀ i, i ≠ cur (k_hw s) → h_cpus (k_hw s1) !! i = h_cpus (k_hw s) !! i)
    by (intros i Hi; unfold s1; ksimpl; by rewrite list_lookup_alter_ne).
  assert (Hp1 : proc_on (cur (k_hw s)) s1 = proc_on (cur (k_hw s)) s)
    by (unfold proc_on; rewrite Hl1, Hy; done).
  destruct ((c_noff y' =? 0) && truth (c_intena y')) eqn:E; cbn [when].
  - unfold intr_on, r_sstatus, w_sstatus, csr_get, csr_set. mrun. eexists. split; [reflexivity|].
    apply andb_true_iff in E as [E%Z.eqb_eq _]. split; [|exact Ho1|done|done|exact Hp1].
    apply at_cpu_own; [|done]. split; [exact Htp|by apply lor_sie_range|lia|].
    exists y'. split; [exact Hl1|]. split; [done|]. lia.
  - eexists. split; [reflexivity|]. split; [|exact Ho1|done|done|exact Hp1].
    apply at_cpu_own; [|done]. split; [exact Htp|exact Hss|lia|]. by exists y'.
Qed.

Lemma hart_pre_locks n h h' :
  hart_pre n h → h_csr h' = h_csr h → h_cpus h' = h_cpus h → hart_pre n h'.
Proof.
  intros [Htp Hss Hn Hy] H1 H2. unfold tp_ok in *. rewrite <- H1 in *.
  split; [done|done|done|]. unfold cur, ie in *. by rewrite H1, H2.
Qed.

Lemma release_effect c n cs s lk nm :
  at_cpu c (n + 1) cs s → 0 ≤ n → h_locks (k_hw s) !! lk = Some (Spinlock 1 nm (Some c)) →
  ∃ s', release lk (on_hart cs s) = Ret tt s' ∧
    effect c n (<[lk := Spinlock 0 nm None]> (h_locks (k_hw s))) (k_procs s) (proc_on c s) s s'.
Proof.
  intros [Hh Hc] Hn Hl. unfold release.
  rewrite bind_run, (holding_taken lk (on_hart cs s) _ (hp_tp _ _ Hh) Hl); [|done|by rewrite Hc]. mrun.
  cbn [negb]. mrun_with (upd_lock_run (on_hart cs s) lk _ _ Hl). erewrite upd_lock_run.
  2:{ ksimpl. rewrite lookup_alter_eq. change (h_locks _) with (h_locks (k_hw s)). rewrite Hl. reflexivity. }
  mrun. match goal with |- context [pop_off ?t] => destruct (pop_off_effect c n t) as (s' & -> & He) end;
    [by apply (hart_pre_locks _ _ _ Hh)|done|exact Hc|].
  exists s'. split; [done|]. destruct He as [H1 H2 H3 H4 H5]. split; [done|exact H2| |done|done].
  rewrite H3. ksimpl. apply map_eq. intros l. destruct (decide (l = lk)) as [->|Hne].
  - rewrite lookup_insert_eq, !lookup_alter_eq. change (h_locks _) with (h_locks (k_hw s)). by rewrite Hl.
  - rewrite lookup_insert_ne, !lookup_alter_ne by done. done.
Qed.

Lemma myproc_effect c n cs s :
  at_cpu c n cs s → n + 1 < 2 ^ 30 →
  ∃ s', myproc (on_hart cs s) = Ret (proc_on c s) s' ∧
    effect c n (h_locks (k_hw s)) (k_procs s) (proc_on c s) s s'.
Proof.
  intros [Hh Hc] Hn. unfold myproc. mrun_with (push_off_run n (on_hart cs s) Hh).
  destruct (hp_cpu _ _ Hh) as (y & Hy & Hoff & _).
  pose proof (hart_at_push n _ (hart_at_settle _ _ Hh) Hn) as Hp. rewrite push_hw_settle in Hp.
  mrun_with mycpu_run; [|apply Hh]. mrun_with get_cpu_run; [|exact (lookup_push_hw _ _ Hy)].
  match goal with |- context [pop_off ?t] => destruct (pop_off_effect c n t) as (s' & -> & He) end;
    [by apply hart_at_pre|apply Hh|exact Hc|].
  assert (Hpr : proc_on c (on_hart cs s <| k_hw := push_hw (k_hw (on_hart cs s)) |>) = proc_on c s).
  { change (h_cpus (push_hw (k_hw (on_hart cs s))) !! c ≫= c_proc = h_cpus (k_hw (on_hart cs s)) !! c ≫= c_proc).
    rewrite <- Hc, (lookup_push_hw _ _ Hy), Hy. cbn. unfold cpu_push. by destruct (c_noff y =? 0). }
  mrun. exists s'. split.
  - f_equal. rewrite <- Hpr.
    change (c_proc (cpu_push (Z_of_bool (ie (k_hw (on_hart cs s)))) y) =
            h_cpus (push_hw (k_hw (on_hart cs s))) !! c ≫= c_proc).
    by rewrite <- Hc, (lookup_push_hw _ _ Hy).
  - destruct He as [H1 H2 H3 H4 H5]. split; [done| |exact H3|exact H4|by rewrite H5].
    intros i Hi. rewrite H2 by done. ksimpl.
    exact (cpus_acq_ne L_pid (k_hw (on_hart cs s)) i ltac:(congruence)).
Qed.

Lemma curproc_effect c n cs s p :
  at_cpu c n cs s → n + 1 < 2 ^ 30 → proc_on c s = Some p →
  ∃ s', curproc (on_hart cs s) = Ret p s' ∧
    effect c n (h_locks (k_hw s)) (k_procs s) (Some p) s s'.
Proof.
  intros Hat Hn Hp. destruct (myproc_effect c n cs s Hat Hn) as (s' & Hm & He).
  exists s'. unfold curproc. rewrite bind_run, Hm, Hp. split; [done|]. by rewrite <- Hp.
Qed.

(** Reading and writing the process table. *)
Lemma stay_effect c n cs s P :
  at_cpu c n cs s → effect c n (h_locks (k_hw s)) P (proc_on c s) s (on_hart cs s <| k_procs := P |>).
Proof. intros [H1 H2]. by split. Qed.

Lemma get_proc_effect c n cs s q x :
  at_cpu c n cs s → k_procs s !! q = Some x →
  ∃ s', get_proc q (on_hart cs s) = Ret x s' ∧
    effect c n (h_locks (k_hw s)) (k_procs s) (proc_on c s) s s'.
Proof.
  intros Hat Hx. eexists. split; [by apply get_proc_run|].
  destruct Hat as [H1 H2]. by split.
Qed.

Lemma upd_proc_effect c n cs s q x f :
  at_cpu c n cs s → k_procs s !! q = Some x →
  ∃ s', upd_proc q f (on_hart cs s) = Ret tt s' ∧
    effect c n (h_locks (k_hw s)) (<[q := f x]> (k_procs s)) (proc_on c s) s s'.
Proof.
  intros Hat Hx. eexists. split; [by eapply upd_proc_run|].
  rewrite (procs_insert_alter (on_hart cs s) q x f Hx). by apply stay_effect.
Qed.

(** The scheduler's [c->proc = 0]. *)
Lemma upd_cpu_effect c n cs s v :
  at_cpu c n cs s →
  ∃ s', upd_cpu c (λ y, y <| c_proc := v |>) (on_hart cs s) = Ret tt s' ∧
    effect c n (h_locks (k_hw s)) (k_procs s) v s s'.
Proof.
  intros [[Htp Hss Hn (y & Hy & Hoff & Hie)] Hc]. rewrite Hc in Hy. eexists.
  split; [eapply upd_cpu_run; exact Hy|].
  split; [|intros i Hi; ksimpl; by rewrite list_lookup_alter_ne|done|done|].
  - apply at_cpu_own; [|exact Hc]. split; [exact Htp|exact Hss|exact Hn|].
    exists (y <| c_proc := v |>). split; [|split; [exact Hoff|exact Hie]].
    change (alter (λ y, y <| c_proc := v |>) c (h_cpus (k_hw s)) !! cur (k_hw (on_hart cs s)) =
            Some (y <| c_proc := v |>)).
    rewrite Hc, list_lookup_alter_eq. cbn in Hy. by rewrite Hy.
  - change (alter (λ y, y <| c_proc := v |>) c (h_cpus (k_hw s)) !! c ≫= c_proc = v).
    rewrite list_lookup_alter_eq. cbn in Hy. by rewrite Hy.
Qed.

(** [sched()] with [p->lock] held: the hart leaves the process. *)
Lemma sched_effect c cs s p y nm :
  at_cpu c 1 cs s → proc_on c s = Some p →
  h_locks (k_hw s) !! L_proc p = Some (Spinlock 1 nm (Some c)) →
  k_procs s !! p = Some y → p_state y ≠ RUNNING →
  ∃ s' k, sched (on_hart cs s) = Switch To_scheduler s' k ∧
    effect c 1 (h_locks (k_hw s)) (k_procs s) (Some p) s s'.
Proof.
  intros [Hh Hc] Hp Hl Hy Hst.
  assert (Hat : hart_at 1 (k_hw (on_hart cs s))).
  { destruct Hh as [H1 H2 H3 (z & Hz & Hoff & Hie)]. split; [done..|]. exists z. split_and!; [done|done|lia|done]. }
  destruct (hp_cpu _ _ Hh) as (z & Hz & Hoff & Hie).
  assert (Hcp : cur_proc (k_hw (on_hart cs s)) = Some p) by (unfold cur_proc; rewrite Hc; exact Hp).
  unfold sched. mrun_with (curproc_run 1); [|done|exact Hcp].
  mrun_with (holding_taken (L_proc p) (on_hart cs s) _ (hp_tp _ _ Hh) Hl); [|done|by rewrite Hc].
  cbn [negb]. mrun_with mycpu_run; [|apply Hh]. mrun_with get_cpu_run; [|exact Hz].
  rewrite Hoff. cbn [Z.eqb Pos.eqb negb]. mrun_with (get_proc_run (on_hart cs s) p y); [|done].
  rewrite bool_decide_false by done.
  assert (Hg : intr_get (on_hart cs s) = Ret 0 (on_hart cs s)).
  { unfold intr_get, r_sstatus, csr_get. mrun.
    change (Ret (Z_of_bool (ie (k_hw (on_hart cs s)))) (on_hart cs s) = Ret 0 (on_hart cs s)).
    by rewrite Hie by lia. }
  mrun_with Hg. cbn [truth Z.eqb negb]. mrun_with mycpu_run; [|apply Hh].
  mrun_with get_cpu_run; [|exact Hz]. eexists _, _. split; [reflexivity|].
  rewrite <- Hp. by apply (stay_effect c 1 cs s (k_procs s)).
Qed.
