(* ===== verification/SleepRace.v ===== *)
(** * [sleep] against [wakeup] on another hart

    The actions of [sleep(chan, lk)] and of a hart that runs
    [acquire(lk); wakeup(chan); release(lk)], and the invariant of every
    interleaving of the two: because [sleep] takes [p->lock] before it gives
    up [lk], the waker cannot look at the process before it is marked as
    sleeping and off its CPU. *)

From S2P Require Import Prelude Riscv State Spinlock ProcTable Sched Interleave.

(** ** The actions *)

Section actions.

(** [sleep] (kernel/proc.c), action by action. *)
Definition sleep_prog (chan : chan_id) (lk : lock_id) : prog :=
  Act curproc (λ p,
  Act (acquire (L_proc p)) (λ _,
  Act (release lk) (λ _,
  Act (upd_proc p (λ x, x <| p_chan := chan |>)) (λ _,
  Act (upd_proc p (λ x, x <| p_state := SLEEPING |>)) (λ _,
  Act sched (λ _,
  Act (upd_proc p (λ x, x <| p_chan := Ch_null |>)) (λ _,
  Act (release (L_proc p)) (λ _,
  Act (acquire lk) (λ _, Done))))))))).

(** What the scheduler of CPU [c] does when process [p] comes back:
    [c->proc = 0; release(&p->lock)]. *)
Definition back_prog (c p : nat) : prog :=
  Act (upd_cpu c (λ y, y <| c_proc := None |>)) (λ _,
  Act (release (L_proc p)) (λ _, Done)).

(** [wakeup] over the processes [l], followed by [t]. *)
Fixpoint wakeup_prog (chan : chan_id) (l : list nat) (t : prog) : prog :=
  match l with
  | [] => t
  | q :: l =>
      Act myproc (λ me,
      if bool_decide (Some q = me) then wakeup_prog chan l t else
      Act (acquire (L_proc q)) (λ _,
      Act (get_proc q) (λ x,
      Act (when (bool_decide (p_state x = SLEEPING) && bool_decide (p_chan x = chan))
             (upd_proc q (λ x, x <| p_state := RUNNABLE |>))) (λ _,
      Act (release (L_proc q)) (λ _, wakeup_prog chan l t)))))
  end.

(** The caller of [wakeup] holds the condition lock. *)
Definition waker_prog (chan : chan_id) (lk : lock_id) : prog :=
  Act (acquire lk) (λ _, wakeup_prog chan (seq 0 NPROC) (Act (release lk) (λ _, Done))).

(** One turn of the loop of [wakeup]. *)
Definition wake_one (chan : chan_id) (p : nat) : M unit :=
  me ← myproc;
  if bool_decide (Some p = me) then skip else
  acquire (L_proc p);;
  x ← get_proc p;
  when (bool_decide (p_state x = SLEEPING) && bool_decide (p_chan x = chan))
    (upd_proc p (λ x, x <| p_state := RUNNABLE |>));;
  release (L_proc p).

Lemma denote_sleep chan lk s : denote (sleep_prog chan lk) s = sleep chan lk s.
Proof.
  unfold sleep. cbn [denote sleep_prog]. do 8 (rewrite !bind_run; apply bind_res_ext; intros ? ?).
  rewrite bind_run. apply bind_res_ret.
Qed.

Lemma denote_wakeup chan l t s :
  denote (wakeup_prog chan l t) s = (for_each l (wake_one chan);; denote t) s.
Proof.
  revert s. induction l as [|q l IH]; intros s; cbn [denote wakeup_prog for_each]; [by mrun|].
  unfold wake_one in *. rewrite !bind_run, !bind_res_assoc. apply bind_res_ext. intros me s1.
  destruct (bool_decide (Some q = me)); [mrun; apply IH|]. cbn [denote].
  rewrite !bind_run, !bind_res_assoc. apply bind_res_ext. intros [] s2.
  rewrite !bind_run, !bind_res_assoc. apply bind_res_ext. intros x s3.
  rewrite !bind_run, !bind_res_assoc. apply bind_res_ext. intros [] s4.
  rewrite !bind_run. apply bind_res_ext. intros [] s5. apply IH.
Qed.

Lemma denote_waker_list chan lk l s :
  denote (Act (acquire lk) (λ _, wakeup_prog chan l (Act (release lk) (λ _, Done)))) s =
  (acquire lk;; for_each l (wake_one chan);; release lk) s.
Proof.
  cbn [denote]. rewrite !bind_run. apply bind_res_ext. intros [] s1.
  rewrite denote_wakeup, !bind_run. apply bind_res_ext. intros [] s2.
  cbn [denote]. rewrite bind_run. apply bind_res_ret.
Qed.

Lemma denote_waker chan lk s :
  denote (waker_prog chan lk) s = (acquire lk;; wakeup chan;; release lk) s.
Proof. exact (denote_waker_list chan lk (seq 0 NPROC) s). Qed.

End actions.

(** ** Where the two harts are *)

(** The sleeper, by its next action; [S_off] once it is off the CPU and the
    scheduler of its hart has dropped [p->lock]. *)
Inductive sloc := S_me | S_acq | S_rel | S_chan | S_state | S_sched | S_proc0 | S_drop | S_off.

Definition srank (sl : sloc) : nat :=
  match sl with
  | S_me => 0 | S_acq => 1 | S_rel => 2 | S_chan => 3 | S_state => 4
  | S_sched => 5 | S_proc0 => 6 | S_drop => 7 | S_off => 8
  end.

(** The waker, by its next action and the processes it has left. *)
Inductive wloc :=
| W_lk | W_loop (l : list nat) | W_acq (q : nat) (l : list nat) | W_get (q : nat) (l : list nat)
| W_upd (x : proc) (q : nat) (l : list nat) | W_rel (q : nat) (l : list nat) | W_done.

Definition wrank (wl : wloc) : nat :=
  match wl with
  | W_lk => 5 * NPROC + 3 | W_loop l => 5 * length l + 2
  | W_acq q l => 5 * length l + 6 | W_get q l => 5 * length l + 5
  | W_upd x q l => 5 * length l + 4 | W_rel q l => 5 * length l + 3 | W_done => 0
  end.

(** Processes not yet finished with, not yet tested, and not yet locked. *)
Definition todo (wl : wloc) : list nat :=
  match wl with
  | W_lk => seq 0 NPROC | W_loop l => l
  | W_acq q l | W_get q l | W_upd _ q l | W_rel q l => q :: l
  | W_done => []
  end.
Definition untested (wl : wloc) : list nat :=
  match wl with W_rel _ l => l | _ => todo wl end.
Definition unlocked (wl : wloc) : list nat :=
  match wl with W_get _ l | W_upd _ _ l | W_rel _ l => l | _ => todo wl end.

Section race.
Context (p : nat) (chan : chan_id) (lk : lock_id) (c1 c2 : nat) (me : option nat).
Context (Hp : (p < NPROC)%nat) (Hlk : ∀ i, lk ≠ L_proc i) (Hc : c1 ≠ c2) (Hme : me ≠ Some p).

Definition sprog (sl : sloc) : prog :=
  let p8 := Act (acquire lk) (λ _, Done) in
  let p7 := Act (release (L_proc p)) (λ _, p8) in
  let p6 := Act (upd_proc p (λ x, x <| p_chan := Ch_null |>)) (λ _, p7) in
  let p5 := Act sched (λ _, p6) in
  let p4 := Act (upd_proc p (λ x, x <| p_state := SLEEPING |>)) (λ _, p5) in
  let p3 := Act (upd_proc p (λ x, x <| p_chan := chan |>)) (λ _, p4) in
  let p2 := Act (release lk) (λ _, p3) in
  match sl with
  | S_me => sleep_prog chan lk
  | S_acq => Act (acquire (L_proc p)) (λ _, p2)
  | S_rel => p2 | S_chan => p3 | S_state => p4 | S_sched => p5
  | S_proc0 => back_prog c1 p
  | S_drop => Act (release (L_proc p)) (λ _, Done)
  | S_off => Done
  end.

Definition ssched (sl : sloc) : prog :=
  if (srank sl <=? 5)%nat then back_prog c1 p else Done.

Definition wprog (wl : wloc) : prog :=
  let rest l := wakeup_prog chan l (Act (release lk) (λ _, Done)) in
  let rel q l := Act (release (L_proc q)) (λ _, rest l) in
  let upd x q l := Act (when (bool_decide (p_state x = SLEEPING) && bool_decide (p_chan x = chan))
                       (upd_proc q (λ x, x <| p_state := RUNNABLE |>))) (λ _, rel q l) in
  let get q l := Act (get_proc q) (λ x, upd x q l) in
  match wl with
  | W_lk => waker_prog chan lk
  | W_loop l => rest l
  | W_acq q l => Act (acquire (L_proc q)) (λ _, get q l)
  | W_get q l => get q l
  | W_upd x q l => upd x q l
  | W_rel q l => rel q l
  | W_done => Done
  end.

Definition sheld (sl : sloc) : list lock_id :=
  match sl with
  | S_me | S_acq => [lk] | S_rel => [L_proc p; lk] | S_off => []
  | _ => [L_proc p]
  end.
Definition wheld (wl : wloc) : list lock_id :=
  match wl with
  | W_lk | W_done => [] | W_loop _ | W_acq _ _ => [lk]
  | W_get q _ | W_upd _ q _ | W_rel q _ => [L_proc q; lk]
  end.

Definition owner (sl : sloc) (wl : wloc) (l : lock_id) : option nat :=
  if bool_decide (l ∈ sheld sl) then Some c1 else if bool_decide (l ∈ wheld wl) then Some c2 else None.
Definition relevant (l : lock_id) : Prop := l = lk ∨ ∃ i, (i < NPROC)%nat ∧ l = L_proc i.
Definition lock_at (o : option nat) (l : lock_id) (s : kernel) : Prop :=
  ∃ nm, h_locks (k_hw s) !! l =
    Some (match o with Some c => Spinlock 1 nm (Some c) | None => Spinlock 0 nm None end).

(** What process [p] looks like. *)
Definition asleep_at (sl : sloc) (wl : wloc) (y : proc) : Prop :=
  ((4 <= srank sl)%nat → p_chan y = chan) ∧
  ((5 <= srank sl)%nat → p_state y = if bool_decide (p ∈ untested wl) then SLEEPING else RUNNABLE).

Record inv (sl : sloc) (wl : wloc) (cs1 cs2 : csrs) (s : kernel) : Prop := {
  i_one : at_cpu c1 (Z.of_nat (length (sheld sl))) cs1 s;
  i_two : at_cpu c2 (Z.of_nat (length (wheld wl))) cs2 s;
  i_locks : ∀ l, relevant l → lock_at (owner sl wl l) l s;
  i_cur1 : (srank sl <= 5)%nat → proc_on c1 s = Some p;
  i_cur2 : proc_on c2 s = me;
  i_len : length (k_procs s) = NPROC;
  i_todo : NoDup (todo wl) ∧ ∀ q, q ∈ todo wl → (q < NPROC)%nat;
  (* the waker has [lk] only after the sleeper gave it up, and [p->lock] only
     after the sleeper's hart did *)
  i_lk : wl ≠ W_lk → (3 <= srank sl)%nat;
  i_plock : p ∉ unlocked wl → sl = S_off;
  i_read : ∀ x q l, wl = W_upd x q l → k_procs s !! q = Some x;
  i_proc : ∃ y, k_procs s !! p = Some y ∧ asleep_at sl wl y
}.

Definition rconf (sl : sloc) (wl : wloc) (cs1 cs2 : csrs) : list thread :=
  [Thread cs1 (sprog sl) (ssched sl); Thread cs2 (wprog wl) Done].

(** Locks: one hart takes or gives back [l]. *)
Lemma locks_after sl wl sl' wl' l o nm s s' :
  (∀ l, relevant l → lock_at (owner sl wl l) l s) →
  h_locks (k_hw s') =
    <[l := match o with Some c => Spinlock 1 nm (Some c) | None => Spinlock 0 nm None end]> (h_locks (k_hw s)) →
  owner sl' wl' l = o → (∀ l', l' ≠ l → owner sl' wl' l' = owner sl wl l') →
  ∀ l', relevant l' → lock_at (owner sl' wl' l') l' s'.
Proof.
  intros Hl Hs Ho Hne l' Hr. unfold lock_at. rewrite Hs. destruct (decide (l' = l)) as [->|H'].
  - exists nm. rewrite lookup_insert_eq. by rewrite Ho.
  - rewrite lookup_insert_ne, Hne by done. by apply Hl.
Qed.

Lemma locks_same sl wl sl' wl' s s' :
  (∀ l, relevant l → lock_at (owner sl wl l) l s) → h_locks (k_hw s') = h_locks (k_hw s) →
  (∀ l', owner sl' wl' l' = owner sl wl l') →
  ∀ l', relevant l' → lock_at (owner sl' wl' l') l' s'.
Proof. intros Hl Hs Ho l' Hr. unfold lock_at. rewrite Hs, Ho. by apply Hl. Qed.

Lemma inv_busy sl wl cs1 cs2 s :
  inv sl wl cs1 cs2 s → sl ≠ S_off →
  p ∈ unlocked wl ∧ (∀ x q l, wl = W_upd x q l → q ≠ p) ∧ L_proc p ∉ wheld wl.
Proof.
  intros Hi Hoff. destruct (decide (p ∈ unlocked wl)) as [Hin|Hout];
    [|by destruct Hoff; apply (i_plock _ _ _ _ _ Hi)].
  destruct (i_todo _ _ _ _ _ Hi) as [Hnd _]. split; [done|].
  assert (Hq : ∀ q l, unlocked wl = l → todo wl = q :: l → q ≠ p).
  { intros q l Hu Ht ->. rewrite Ht in Hnd. apply list.NoDup_cons in Hnd as [? _]. by rewrite Hu in Hin. }
  split; [intros x q l ->; by apply (Hq q l)|].
  destruct wl; cbn [wheld]; rewrite ?elem_of_cons, ?elem_of_nil; try specialize (Hq _ _ eq_refl eq_refl);
    naive_solver.
Qed.

(** The sleeper's hart moved. *)
Lemma sleeper_inv sl sl' wl cs1 cs2 s s' L P o :
  inv sl wl cs1 cs2 s → sl ≠ S_off → srank sl' = S (srank sl) →
  effect c1 (Z.of_nat (length (sheld sl'))) L P o s s' →
  (∀ l, relevant l → lock_at (owner sl' wl l) l s') →
  ((srank sl' <= 5)%nat → o = Some p) → length P = NPROC →
  (∀ q, q ≠ p → P !! q = k_procs s !! q) →
  (∃ y, P !! p = Some y ∧ asleep_at sl' wl y) →
  inv sl' wl (h_csr (k_hw s')) cs2 s'.
Proof.
  intros Hi Hoff Hr He Hl Ho Hlen HP Hy. destruct (inv_busy _ _ _ _ _ Hi Hoff) as (Hin & Hq & _).
  destruct Hi as [H1 H2 H3 H4 H5 H6 H7 H8 H9 H10 H11].
  split; [apply He|by eapply at_cpu_other|done| | | |done| |done| |].
  - intros Hr'. rewrite (ef_proc _ _ _ _ _ _ _ He). by apply Ho.
  - by rewrite (proc_on_other _ _ _ _ _ _ _ _ He).
  - by rewrite (ef_procs _ _ _ _ _ _ _ He).
  - intros Hw. specialize (H8 Hw). lia.
  - intros x q l ->. rewrite (ef_procs _ _ _ _ _ _ _ He), HP by by eapply Hq. by eapply H10.
  - by rewrite (ef_procs _ _ _ _ _ _ _ He).
Qed.

Lemma owner_free sl wl l s :
  (∀ l, relevant l → lock_at (owner sl wl l) l s) → relevant l → l ∉ sheld sl → l ∉ wheld wl →
  ∃ nm, h_locks (k_hw s) !! l = Some (Spinlock 0 nm None).
Proof.
  intros Hl Hr H1 H2. destruct (Hl l Hr) as [nm Hn]. exists nm. rewrite Hn. unfold owner.
  by rewrite !bool_decide_false.
Qed.

Lemma owner_one sl wl l s :
  (∀ l, relevant l → lock_at (owner sl wl l) l s) → relevant l → l ∈ sheld sl →
  ∃ nm, h_locks (k_hw s) !! l = Some (Spinlock 1 nm (Some c1)).
Proof.
  intros Hl Hr H1. destruct (Hl l Hr) as [nm Hn]. exists nm. rewrite Hn. unfold owner.
  by rewrite bool_decide_true.
Qed.

Lemma owner_two sl wl l s :
  (∀ l, relevant l → lock_at (owner sl wl l) l s) → relevant l → l ∉ sheld sl → l ∈ wheld wl →
  ∃ nm, h_locks (k_hw s) !! l = Some (Spinlock 1 nm (Some c2)).
Proof.
  intros Hl Hr H1 H2. destruct (Hl l Hr) as [nm Hn]. exists nm. rewrite Hn. unfold owner.
  by rewrite bool_decide_false, bool_decide_true.
Qed.

Lemma owner_ext sl wl sl' wl' l :
  (l ∈ sheld sl' ↔ l ∈ sheld sl) → (l ∈ wheld wl' ↔ l ∈ wheld wl) → owner sl' wl' l = owner sl wl l.
Proof. intros H1 H2. unfold owner. by rewrite (bool_decide_ext _ _ H1), (bool_decide_ext _ _ H2). Qed.

Lemma owner_is_one sl wl l : l ∈ sheld sl → owner sl wl l = Some c1.
Proof. intros Hl. unfold owner. by rewrite bool_decide_true. Qed.

Lemma owner_is_two sl wl l : l ∉ sheld sl → l ∈ wheld wl → owner sl wl l = Some c2.
Proof. intros H1 H2. unfold owner. by rewrite bool_decide_false, bool_decide_true. Qed.

Lemma owner_is_none sl wl l : l ∉ sheld sl → l ∉ wheld wl → owner sl wl l = None.
Proof. intros H1 H2. unfold owner. by rewrite !bool_decide_false. Qed.

(** Which hart holds [l], from the two lists of held locks. *)
Ltac held := cbn [sheld wheld]; rewrite ?elem_of_cons, ?elem_of_nil; intuition congruence.
Ltac owners :=
  intros; first
    [ done
    | apply owner_ext; [held|held]
    | apply owner_is_one; held
    | apply owner_is_two; held
    | apply owner_is_none; held ].

Lemma asleep_keep sl sl' wl (P : list proc) :
  (∃ y, P !! p = Some y ∧ asleep_at sl wl y) →
  ((4 <= srank sl')%nat → (4 <= srank sl)%nat) → ((5 <= srank sl')%nat → (5 <= srank sl)%nat) →
  ∃ y, P !! p = Some y ∧ asleep_at sl' wl y.
Proof. intros (y & Hy & H1 & H2) H4 H5. exists y. split; [done|]. split; auto. Qed.

Definition sleeper_moves (sl : sloc) (wl : wloc) (cs1 cs2 : csrs) (s : kernel) : Prop :=
  ∃ sl' s', srank sl' = S (srank sl) ∧
    hart_step s (Thread cs1 (sprog sl) (ssched sl)) =
      Some (s', Thread (h_csr (k_hw s')) (sprog sl') (ssched sl')) ∧
    inv sl' wl (h_csr (k_hw s')) cs2 s'.

(** The sleeper is never held up: until it is off the CPU its next action runs. *)
Lemma sleeper_hw sl wl cs1 cs2 s :
  inv sl wl cs1 cs2 s → sl ∈ [S_me; S_acq; S_rel; S_proc0; S_drop] → sleeper_moves sl wl cs1 cs2 s.
Proof.
  intros Hi Hsl. assert (Hoff : sl ≠ S_off) by set_solver.
  destruct (inv_busy _ _ _ _ _ Hi Hoff) as (_ & _ & Hw).
  pose proof Hi as [H1 _ H3 H4 _ H6 _ H8 _ _ H11].
  assert (Rp : relevant (L_proc p)) by (right; eauto). assert (Rk : relevant lk) by by left.
  pose proof (Hlk p) as Hne. unfold sleeper_moves. 
  rewrite !elem_of_cons, elem_of_nil in Hsl. destruct Hsl as [->|[->|[->|[->|[->|[]]]]]].
  - destruct (curproc_effect c1 1 cs1 s p) as (s' & Hs & He); [done|lia|by apply H4; cbn; lia|].
    exists S_acq, s'. split_and!; [done|unfold hart_step; cbn; by rewrite Hs|].
    eapply sleeper_inv; [done|done|done|exact He| |done|done|done|by eapply asleep_keep; [exact H11|cbn; lia..]].
    eapply locks_same; [exact H3|apply He|done].
  - destruct (owner_free S_acq wl (L_proc p) s H3) as [nm Hl]; [done|held|done|].
    destruct (acquire_effect c1 1 cs1 s (L_proc p) nm) as (s' & Hs & He); [done|lia|done|].
    exists S_rel, s'. split_and!; [done|unfold hart_step; cbn; by rewrite Hs|].
    eapply sleeper_inv; [done|done|done|exact He| |by intros; apply H4; cbn; lia|done|done|by eapply asleep_keep; [exact H11|cbn; lia..]].
    eapply (locks_after S_acq wl S_rel wl (L_proc p) (Some c1)); [exact H3|apply He|owners|owners].
  - assert (wl = W_lk) as -> by (destruct wl; try done; specialize (H8 ltac:(done)); cbn in H8; lia).
    destruct (owner_one S_rel W_lk lk s H3) as [nm Hl]; [done|held|].
    destruct (release_effect c1 1 cs1 s lk nm) as (s' & Hs & He); [done|lia|done|].
    exists S_chan, s'. split_and!; [done|unfold hart_step; cbn; by rewrite Hs|].
    eapply sleeper_inv; [done|done|done|exact He| |by intros; apply H4; cbn; lia|done|done|by eapply asleep_keep; [exact H11|cbn; lia..]].
    eapply (locks_after S_rel W_lk S_chan W_lk lk None); [exact H3|apply He|owners|owners].
  - destruct (upd_cpu_effect c1 1 cs1 s None) as (s' & Hs & He); [done|].
    exists S_drop, s'. split_and!; [done|unfold hart_step; cbn; by rewrite Hs|].
    eapply sleeper_inv; [done|done|done|exact He| |cbn; lia|done|done|by eapply asleep_keep; [exact H11|cbn; lia..]].
    eapply locks_same; [exact H3|apply He|done].
  - destruct (owner_one S_drop wl (L_proc p) s H3) as [nm Hl]; [done|held|].
    destruct (release_effect c1 0 cs1 s (L_proc p) nm) as (s' & Hs & He); [done|lia|done|].
    exists S_off, s'. split_and!; [done|unfold hart_step; cbn; by rewrite Hs|].
    eapply sleeper_inv; [done|done|done|exact He| |cbn; lia|done|done|by eapply asleep_keep; [exact H11|cbn; lia..]].
    eapply (locks_after S_drop wl S_off wl (L_proc p) None); [exact H3|apply He|owners|owners].
Qed.

Lemma sleeper_table sl wl cs1 cs2 s :
  inv sl wl cs1 cs2 s → sl ∈ [S_chan; S_state; S_sched] → sleeper_moves sl wl cs1 cs2 s.
Proof.
  intros Hi Hsl. assert (Hoff : sl ≠ S_off) by set_solver. destruct (inv_busy _ _ _ _ _ Hi Hoff) as (Hin & _ & _).
  pose proof Hi as [H1 _ H3 H4 _ H6 _ _ _ _ (y & Hy & Hch & Hst)].
  assert (Rp : relevant (L_proc p)) by (right; eauto).
  assert (Hlen : ∀ z, length (<[p := z]> (k_procs s)) = NPROC) by (intros z; by rewrite length_insert).
  assert (Hoth : ∀ z q, q ≠ p → (<[p := z]> (k_procs s)) !! q = k_procs s !! q)
    by (intros z q Hq; by rewrite list_lookup_insert_ne).
  assert (Hat : ∀ z, (<[p := z]> (k_procs s)) !! p = Some z).
  { intros z. apply list_lookup_insert_eq. by eapply lookup_lt_Some. }
  unfold sleeper_moves. rewrite !elem_of_cons, elem_of_nil in Hsl. destruct Hsl as [->|[->|[->|[]]]].
  - destruct (upd_proc_effect c1 1 cs1 s p y (λ x, x <| p_chan := chan |>)) as (s' & Hs & He); [done|done|].
    exists S_state, s'. split_and!; [done|unfold hart_step; cbn; by rewrite Hs|].
    eapply sleeper_inv; [done|done|done|exact He| |by intros; apply H4; cbn; lia|apply Hlen|apply Hoth|].
    + eapply locks_same; [exact H3|apply He|done].
    + eexists. split; [apply Hat|]. split; [done|cbn; intros; lia].
  - destruct (upd_proc_effect c1 1 cs1 s p y (λ x, x <| p_state := SLEEPING |>)) as (s' & Hs & He); [done|done|].
    exists S_sched, s'. split_and!; [done|unfold hart_step; cbn; by rewrite Hs|].
    eapply sleeper_inv; [done|done|done|exact He| |by intros; apply H4; cbn; lia|apply Hlen|apply Hoth|].
    + eapply locks_same; [exact H3|apply He|done].
    + eexists. split; [apply Hat|]. split; [by intros; apply Hch; cbn; lia|]. intros _.
      rewrite bool_decide_true; [done|]. by destruct wl; cbn in *; set_solver.
  - destruct (owner_one S_sched wl (L_proc p) s H3) as [nm Hl]; [done|held|].
    destruct (sched_effect c1 cs1 s p y nm) as (s' & k & Hs & He);
      [done|by apply H4; cbn; lia|done|done| |].
    { rewrite Hst by (cbn; lia). by case_bool_decide. }
    exists S_proc0, s'. split_and!; [done|unfold hart_step; cbn; by rewrite Hs|].
    eapply sleeper_inv; [done|done|done|exact He| |done|done|done|].
    + eapply locks_same; [exact H3|apply He|done].
    + exists y. split; [done|]. split; intros _; [apply Hch|apply Hst]; cbn; lia.
Qed.

Lemma sleeper_steps sl wl cs1 cs2 s :
  inv sl wl cs1 cs2 s → sl ≠ S_off → sleeper_moves sl wl cs1 cs2 s.
Proof.
  intros Hi Hoff. destruct sl; [..|done];
    (apply sleeper_hw; [done|by repeat constructor]) || (apply sleeper_table; [done|by repeat constructor]).
Qed.

(** The waker's hart moved. *)
Lemma waker_inv sl wl wl' cs1 cs2 s s' L P :
  inv sl wl cs1 cs2 s → (wl' ≠ W_lk → (3 <= srank sl)%nat) →
  effect c2 (Z.of_nat (length (wheld wl'))) L P (proc_on c2 s) s s' →
  (∀ l, relevant l → lock_at (owner sl wl' l) l s') →
  sublist (todo wl') (todo wl) → (p ∉ unlocked wl' → sl = S_off) →
  (∀ x q l, wl' = W_upd x q l → P !! q = Some x) → length P = NPROC →
  (∃ y, P !! p = Some y ∧ asleep_at sl wl' y) →
  inv sl wl' cs1 (h_csr (k_hw s')) s'.
Proof.
  intros [H1 H2 H3 H4 H5 H6 [H7 H7'] H8 H9 H10 H11] Hlk' He Hl Hsub Hpl Hread Hlen Hy.
  split; [by eapply at_cpu_other|apply He|done| | | | |done|done| |].
  - intros Hr. rewrite (proc_on_other _ _ _ _ _ _ _ _ He) by done. by apply H4.
  - by rewrite (ef_proc _ _ _ _ _ _ _ He).
  - by rewrite (ef_procs _ _ _ _ _ _ _ He).
  - split; [by eapply sublist_NoDup|]. intros q Hq. apply H7'. by eapply elem_of_sublist.
  - by rewrite (ef_procs _ _ _ _ _ _ _ He).
  - by rewrite (ef_procs _ _ _ _ _ _ _ He).
Qed.

Definition waker_moves (sl : sloc) (wl : wloc) (cs1 cs2 : csrs) (s : kernel) : Prop :=
  ∃ wl' s', (wrank wl' < wrank wl)%nat ∧
    hart_step s (Thread cs2 (wprog wl) Done) = Some (s', Thread (h_csr (k_hw s')) (wprog wl') Done) ∧
    inv sl wl' cs1 (h_csr (k_hw s')) s'.

Lemma hart_step_ret {A} (m : M A) (k : A → prog) cs sc s a s' :
  m (on_hart cs s) = Ret a s' →
  hart_step s (Thread cs (Act m k) sc) = Some (s', Thread (h_csr (k_hw s')) (k a) sc).
Proof. intros Hm. unfold hart_step. cbn [t_prog t_csr]. by rewrite Hm. Qed.

Lemma hart_step_spin {A} (m : M A) (k : A → prog) cs sc s :
  m (on_hart cs s) = Spin → hart_step s (Thread cs (Act m k) sc) = None.
Proof. intros Hm. unfold hart_step. cbn [t_prog t_csr]. by rewrite Hm. Qed.

Lemma released sl : lk ∉ sheld sl → (3 <= srank sl)%nat.
Proof. pose proof (Hlk p). destruct sl; cbn [sheld srank]; rewrite ?elem_of_cons, ?elem_of_nil; try tauto; lia. Qed.

Lemma lk_given_up sl : (3 <= srank sl)%nat → lk ∉ sheld sl.
Proof.
  pose proof (Hlk p). destruct sl; cbn [sheld srank]; rewrite ?elem_of_cons, ?elem_of_nil; intuition (congruence || lia).
Qed.

Lemma dropped sl : (3 <= srank sl)%nat → L_proc p ∉ sheld sl → sl = S_off.
Proof. destruct sl; cbn [sheld srank]; rewrite ?elem_of_cons, ?elem_of_nil; intuition (congruence || lia). Qed.

Lemma held_proc sl q : (3 <= srank sl)%nat → L_proc q ∈ sheld sl → q = p ∧ sl ≠ S_off.
Proof.
  pose proof (Hlk q). destruct sl; cbn [sheld srank]; rewrite ?elem_of_cons, ?elem_of_nil; intuition (congruence || lia).
Qed.

Lemma asleep_same sl wl wl' (P : list proc) :
  (∃ y, P !! p = Some y ∧ asleep_at sl wl y) → (p ∈ untested wl' ↔ p ∈ untested wl) →
  ∃ y, P !! p = Some y ∧ asleep_at sl wl' y.
Proof.
  intros (y & Hy & H1 & H2) Hu. exists y. split; [done|]. split; [done|].
  by rewrite (bool_decide_ext _ _ Hu).
Qed.

(** What is left of the waker before it looks at the processes [l]. *)
Definition rest_prog (l : list nat) : prog := wakeup_prog chan l (Act (release lk) (λ _, Done)).

Lemma wprog_loop l : wprog (W_loop l) = rest_prog l.
Proof. reflexivity. Qed.

Lemma wprog_lk : wprog W_lk = Act (acquire lk) (λ _, rest_prog (seq 0 NPROC)).
Proof. cbv beta iota zeta delta [wprog waker_prog rest_prog]. reflexivity. Qed.

(** The waker takes [lk] or a process's lock, or waits for it. *)
Lemma waker_acquires sl wl l wl' cs1 cs2 s (k : unit → prog) :
  inv sl wl cs1 cs2 s → relevant l → l ∉ wheld wl → (length (wheld wl) < 2)%nat →
  wprog wl = Act (acquire l) k → k tt = wprog wl' → (wrank wl' < wrank wl)%nat →
  wheld wl' = l :: wheld wl → todo wl' = todo wl → (p ∈ untested wl' ↔ p ∈ untested wl) →
  (∀ x q l, wl' ≠ W_upd x q l) →
  (l ∈ sheld sl → sl ≠ S_off) →
  (l ∉ sheld sl → (3 <= srank sl)%nat ∧ (p ∉ unlocked wl' → sl = S_off)) →
  (hart_step s (Thread cs2 (wprog wl) Done) = None ∧ sl ≠ S_off) ∨ waker_moves sl wl cs1 cs2 s.
Proof.
  intros Hi Hr Hnw Hlen Hw Hk Hrank Hh Ht Hu Hupd Hwait Hgo.
  pose proof Hi as [_ H2 H3 _ _ H6 _ _ _ _ H11]. destruct (decide (l ∈ sheld sl)) as [Hs|Hs].
  - left. split; [|by apply Hwait]. destruct (owner_one sl wl l s H3 Hr Hs) as [nm Hl].
    rewrite Hw. by apply hart_step_spin, (acquire_waits c2 (Z.of_nat (length (wheld wl))) cs2 s l nm c1).
  - right. destruct (owner_free sl wl l s H3 Hr Hs Hnw) as [nm Hl]. destruct (Hgo Hs) as [G1 G2].
    destruct (acquire_effect c2 (Z.of_nat (length (wheld wl))) cs2 s l nm H2) as (s' & Ha & He); [lia|done|].
    replace (Z.of_nat (length (wheld wl)) + 1) with (Z.of_nat (length (wheld wl'))) in He by (rewrite Hh; cbn; lia).
    exists wl', s'. split_and!; [done|rewrite Hw, <- Hk; by apply hart_step_ret|].
    eapply waker_inv; [exact Hi|done|exact He| |by rewrite Ht|done|by intros ??? ->; edestruct Hupd|done|].
    + eapply (locks_after sl wl sl wl' l (Some c2)); [exact H3|apply He| |].
      * apply owner_is_two; [done|]. rewrite Hh. apply list_elem_of_here.
      * intros l' Hl'. apply owner_ext; [done|]. rewrite Hh, elem_of_cons. tauto.
    + by eapply asleep_same.
Qed.

(** The waker gives a lock back. *)
Lemma waker_releases sl wl l wl' cs1 cs2 s (k : unit → prog) :
  inv sl wl cs1 cs2 s → relevant l → l ∉ sheld sl → l ∉ wheld wl' → (3 <= srank sl)%nat →
  wprog wl = Act (release l) k → k tt = wprog wl' → (wrank wl' < wrank wl)%nat →
  wheld wl = l :: wheld wl' → sublist (todo wl') (todo wl) → unlocked wl' = unlocked wl →
  (p ∈ untested wl' ↔ p ∈ untested wl) → (∀ x q l, wl' ≠ W_upd x q l) →
  waker_moves sl wl cs1 cs2 s.
Proof.
  intros Hi Hr Hns Hnw Hsr Hw Hk Hrank Hh Ht Hul Hu Hupd.
  pose proof Hi as [_ H2 H3 _ _ H6 _ _ H9 _ H11].
  destruct (owner_two sl wl l s H3 Hr Hns) as [nm Hl]; [rewrite Hh; apply list_elem_of_here|].
  replace (Z.of_nat (length (wheld wl))) with (Z.of_nat (length (wheld wl')) + 1) in H2 by (rewrite Hh; cbn; lia).
  destruct (release_effect c2 _ cs2 s l nm H2) as (s' & Ha & He); [lia|done|].
  exists wl', s'. split_and!; [done|rewrite Hw, <- Hk; by apply hart_step_ret|].
  eapply waker_inv; [exact Hi|done|exact He| |done|by rewrite Hul|by intros ??? ->; edestruct Hupd|done|].
  - eapply (locks_after sl wl sl wl' l None); [exact H3|apply He|by apply owner_is_none|].
    intros l' Hl'. apply owner_ext; [done|]. rewrite Hh, elem_of_cons. tauto.
  - by eapply asleep_same.
Qed.

(** The waker looks at the process whose lock it holds, and wakes it. *)
Lemma waker_reads sl q l cs1 cs2 s :
  inv sl (W_get q l) cs1 cs2 s → waker_moves sl (W_get q l) cs1 cs2 s.
Proof.
  intros Hi. pose proof Hi as [_ H2 H3 _ _ H6 [_ H7] H8 H9 _ H11].
  destruct (lookup_lt_is_Some_2 (k_procs s) q) as [x Hx]; [rewrite H6; apply H7; apply list_elem_of_here|].
  destruct (get_proc_effect c2 2 cs2 s q x H2 Hx) as (s' & Hg & He).
  exists (W_upd x q l), s'. split_and!; [cbn; lia|exact (hart_step_ret _ (λ x, wprog (W_upd x q l)) _ _ _ _ _ Hg)|].
  eapply waker_inv; [exact Hi|by intros _; apply H8|exact He| |done|exact H9| |done|done].
  - eapply locks_same; [exact H3|apply He|by intros; apply owner_ext].
  - intros x' q' l' [= -> -> ->]. done.
Qed.

Lemma waker_wakes sl x q l cs1 cs2 s :
  inv sl (W_upd x q l) cs1 cs2 s → waker_moves sl (W_upd x q l) cs1 cs2 s.
Proof.
  intros Hi. pose proof Hi as [_ H2 H3 _ _ H6 [H7 _] H8 H9 H10 (y & Hy & Hch & Hst)].
  pose proof (H10 x q l eq_refl) as Hx. apply list.NoDup_cons in H7 as [Hnd _].
  set (wake := bool_decide (p_state x = SLEEPING) && bool_decide (p_chan x = chan)).
  set (x' := if wake then x <| p_state := RUNNABLE |> else x).
  assert (Hm : ∃ s', when wake (upd_proc q (λ x, x <| p_state := RUNNABLE |>)) (on_hart cs2 s) = Ret tt s' ∧
    effect c2 2 (h_locks (k_hw s)) (<[q := x']> (k_procs s)) (proc_on c2 s) s s').
  { unfold x'. destruct wake.
    - exact (upd_proc_effect c2 2 cs2 s q x (λ x, x <| p_state := RUNNABLE |>) H2 Hx).
    - rewrite list_insert_id by done. eexists. split; [done|]. exact (stay_effect c2 2 cs2 s (k_procs s) H2). }
  destruct Hm as (s' & Hm & He).
  exists (W_rel q l), s'. split_and!; [cbn; lia|exact (hart_step_ret _ (λ _, wprog (W_rel q l)) _ _ _ _ _ Hm)|].
  eapply waker_inv; [exact Hi|by intros _; apply H8|exact He| |done|exact H9|done|by rewrite length_insert|].
  - eapply locks_same; [exact H3|apply He|by intros; apply owner_ext].
  - destruct (decide (q = p)) as [->|Hne].
    + pose proof (H9 Hnd) as ->. assert (y = x) as -> by congruence. exists x'.
      split; [apply list_lookup_insert_eq; by eapply lookup_lt_Some|].
      assert (Hc' : p_chan x = chan) by (apply Hch; cbn; lia).
      assert (Hs' : p_state x = SLEEPING).
      { rewrite Hst by (cbn; lia). rewrite bool_decide_true; [done|apply list_elem_of_here]. }
      unfold x', wake. rewrite !bool_decide_true by done. split; [done|]. intros _. cbn [untested].
      by rewrite bool_decide_false.
    + exists y. rewrite list_lookup_insert_ne by done. split; [done|]. split; [done|].
      intros Hr. rewrite Hst by done. cbn [untested todo].
      erewrite bool_decide_ext; [done|]. rewrite elem_of_cons. naive_solver.
Qed.

Lemma waker_loops sl q l cs1 cs2 s :
  inv sl (W_loop (q :: l)) cs1 cs2 s → waker_moves sl (W_loop (q :: l)) cs1 cs2 s.
Proof.
  intros Hi. pose proof Hi as [_ H2 H3 _ H5 H6 [_ H7] H8 H9 _ H11].
  destruct (myproc_effect c2 1 cs2 s H2) as (s' & Hg & He); [lia|]. rewrite H5 in Hg.
  set (wl' := if bool_decide (Some q = me) then W_loop l else W_acq q l).
  exists wl', s'. split_and!.
  - unfold wl'. case_bool_decide; cbn; lia.
  - rewrite (hart_step_ret _ _ _ _ _ _ _ Hg : hart_step s (Thread cs2 (wprog (W_loop (q :: l))) Done) = _).
    unfold wl'. by case_bool_decide.
  - unfold wl'. case_bool_decide as Hq.
    + assert (q ≠ p) by congruence.
      eapply waker_inv; [exact Hi|by intros _; apply H8|exact He| |by constructor| |done|done|].
      * eapply locks_same; [exact H3|apply He|by intros; apply owner_ext].
      * cbn in *. rewrite elem_of_cons in H9. naive_solver.
      * eapply asleep_same; [exact H11|]. cbn. rewrite elem_of_cons. naive_solver.
    + eapply waker_inv; [exact Hi|by intros _; apply H8|exact He| |done|exact H9|done|done|exact H11].
      eapply locks_same; [exact H3|apply He|by intros; apply owner_ext].
Qed.

(** The waker moves too, unless it waits for a lock the sleeper still holds. *)
Lemma waker_steps sl wl cs1 cs2 s :
  inv sl wl cs1 cs2 s → wl ≠ W_done →
  (hart_step s (Thread cs2 (wprog wl) Done) = None ∧ sl ≠ S_off) ∨ waker_moves sl wl cs1 cs2 s.
Proof.
  intros Hi Hd. pose proof Hi as [_ _ _ _ _ _ [H7 H7'] H8 H9 _ _].
  destruct wl as [|[|q l]|q l|q l|x q l|q l|]; [|right|right| |right|right|right|done].
  - eapply (waker_acquires sl W_lk lk (W_loop (seq 0 NPROC)) _ _ _ (λ _, rest_prog (seq 0 NPROC)));
      [exact Hi|by left|by intros ?%elem_of_nil|cbn [wheld length]; lia|exact wprog_lk|exact (eq_sym (wprog_loop _))| |reflexivity|reflexivity| | | |].
    + cbn [wrank]. rewrite length_seq. lia.
    + reflexivity.
    + intros x q l. discriminate.
    + by intros Hin ->; apply elem_of_nil in Hin.
    + intros Hs. split; [by apply released|exact H9].
  - specialize (H8 ltac:(done)).
    eapply (waker_releases sl (W_loop []) lk W_done); try done; [by left|by apply lk_given_up|cbn; set_solver|cbn; lia].
  - by apply waker_loops.
  - specialize (H8 ltac:(done)). pose proof (Hlk q) as Hq.
    assert (Hqn : (q < NPROC)%nat) by apply H7', list_elem_of_here.
    eapply (waker_acquires sl (W_acq q l) (L_proc q) (W_get q l)); try done; [right; eauto|cbn; set_solver|cbn; lia|cbn; lia| |].
    + by intros [_ ?]%held_proc.
    + intros Hs. split; [done|]. cbn. intros Hl. destruct (decide (p = q)) as [<-|Hne]; [by apply dropped|].
      apply H9. cbn. by apply not_elem_of_cons.
  - by apply waker_reads.
  - by apply waker_wakes.
  - specialize (H8 ltac:(done)). pose proof (Hlk q) as Hq.
    assert (Hqn : (q < NPROC)%nat) by apply H7', list_elem_of_here.
    apply list.NoDup_cons in H7 as [Hnd _].
    eapply (waker_releases sl (W_rel q l) (L_proc q) (W_loop l)); try done;
      [right; eauto| |cbn; set_solver|cbn; lia|by constructor].
    intros [-> Hs]%held_proc; [|done]. by apply Hs, H9.
Qed.

(** ** Every interleaving *)

Lemma hstep_race sl wl cs1 cs2 s c :
  inv sl wl cs1 cs2 s → hstep (s, rconf sl wl cs1 cs2) c →
  ∃ sl' wl' cs1' cs2' s', c = (s', rconf sl' wl' cs1' cs2') ∧ inv sl' wl' cs1' cs2' s'.
Proof.
  intros Hi Hstep. inversion Hstep as [s0 ts i t s' t' Ht Hs]; subst s0 ts c.
  destruct i as [|[|i]]; cbn in Ht; [| |done]; injection Ht as <-.
  - destruct (decide (srank sl = 8%nat)) as [Hr|Hr]; [by destruct sl|].
    destruct (sleeper_steps sl wl cs1 cs2 s Hi) as (sl' & s1 & _ & Hm & Hi'); [by intros ->|].
    rewrite Hm in Hs. injection Hs as <- <-. by exists sl', wl, (h_csr (k_hw s1)), cs2, s1.
  - destruct (decide (wrank wl = 0%nat)) as [Hr|Hr]; [destruct wl; cbn [wrank] in Hr; first [lia|done]|].
    destruct (waker_steps sl wl cs1 cs2 s Hi) as [[Hm _]|(wl' & s1 & _ & Hm & Hi')]; [by intros ->| |].
    + by rewrite Hm in Hs.
    + rewrite Hm in Hs. injection Hs as <- <-. by exists sl, wl', cs1, (h_csr (k_hw s1)), s1.
Qed.

Lemma steps_race sl wl cs1 cs2 s c :
  inv sl wl cs1 cs2 s → rtc hstep (s, rconf sl wl cs1 cs2) c →
  ∃ sl' wl' cs1' cs2' s', c = (s', rconf sl' wl' cs1' cs2') ∧ inv sl' wl' cs1' cs2' s'.
Proof.
  intros Hi Hst. remember (s, rconf sl wl cs1 cs2) as c0 eqn:E. revert sl wl cs1 cs2 s Hi E.
  induction Hst as [c|c0 c1' c Hs Hst IH]; intros sl wl cs1 cs2 s Hi ->.
  - by exists sl, wl, cs1, cs2, s.
  - destruct (hstep_race _ _ _ _ _ _ Hi Hs) as (sl' & wl' & cs1' & cs2' & s' & -> & Hi').
    by eapply IH.
Qed.

(** No interleaving gets stuck: from wherever it is, it can be run to its end. *)
Lemma race_ends n sl wl cs1 cs2 s :
  (8 - srank sl + wrank wl <= n)%nat → inv sl wl cs1 cs2 s →
  ∃ s' ts, rtc hstep (s, rconf sl wl cs1 cs2) (s', ts) ∧ finished ts.
Proof.
  revert sl wl cs1 cs2 s. induction n as [|n IH]; intros sl wl cs1 cs2 s Hn Hi;
    (destruct (decide (srank sl = 8%nat)) as [Hr|Hr]).
  - assert (sl = S_off) as -> by by destruct sl.
    assert (wl = W_done) as -> by (destruct wl; cbn [wrank] in Hn; first [lia|done]).
    exists s, (rconf S_off W_done cs1 cs2). split; [done|by repeat constructor].
  - destruct sl; cbn [srank] in *; lia.
  - assert (sl = S_off) as -> by by destruct sl. destruct (decide (wrank wl = 0%nat)) as [Hw|Hw].
    + assert (wl = W_done) as -> by (destruct wl; cbn [wrank] in Hw; first [lia|done]).
      exists s, (rconf S_off W_done cs1 cs2). split; [done|by repeat constructor].
    + destruct (waker_steps S_off wl cs1 cs2 s Hi) as [[_ ?]|(wl' & s1 & Hlt & Hm & Hi')]; [by intros ->|done|].
      destruct (IH S_off wl' cs1 (h_csr (k_hw s1)) s1) as (s' & ts & Hst & Hf); [lia|done|].
      exists s', ts. split; [|done]. eapply rtc_l; [|exact Hst].
      exact (hstep_hart s (rconf S_off wl cs1 cs2) 1 _ s1 _ eq_refl Hm).
  - destruct (sleeper_steps sl wl cs1 cs2 s Hi) as (sl' & s1 & Hlt & Hm & Hi'); [by intros ->|].
    destruct (IH sl' wl (h_csr (k_hw s1)) cs2 s1) as (s' & ts & Hst & Hf);
      [destruct sl; cbn [srank] in *; lia|done|].
    exists s', ts. split; [|done]. eapply rtc_l; [|exact Hst].
    exact (hstep_hart s (rconf sl wl cs1 cs2) 0 _ s1 _ eq_refl Hm).
Qed.

(** What every reachable state satisfies: see [sleep_loses_no_wakeup]. *)
Lemma race_safe sl wl cs1 cs2 s :
  inv sl wl cs1 cs2 s →
  (sprog sl = Done → ∃ y, k_procs s !! p = Some y ∧ p_chan y = chan ∧
     (p_state y = SLEEPING ∨ p_state y = RUNNABLE)) ∧
  (wprog wl = Done → sprog sl = Done ∧ ∃ y, k_procs s !! p = Some y ∧ p_state y = RUNNABLE).
Proof.
  intros Hi. pose proof Hi as [_ _ _ _ _ _ _ _ H9 _ (y & Hy & Hch & Hst)]. split.
  - intros Hd. assert (sl = S_off) as -> by by destruct sl. exists y. split; [done|].
    rewrite Hch, Hst by (cbn; lia). case_bool_decide; auto.
  - intros Hd. assert (wl = W_done) as -> by (destruct wl as [|[]| | | | |]; done).
    rewrite H9 in * by (cbn; set_solver). split; [done|]. exists y. split; [done|].
    rewrite Hst by (cbn; lia). rewrite bool_decide_false; [done|]. cbn. set_solver.
Qed.

End race.

(** A hart that is about to wake somebody up: outside every critical section,
    on another CPU than [c1], with no process lock held anywhere. *)
Record waker_ready (c1 p : nat) (cs2 : csrs) (s : kernel) : Prop := {
  wr_hart : hart_pre 0 (k_hw (on_hart cs2 s));
  wr_other : cur (k_hw (on_hart cs2 s)) ≠ c1;
  wr_proc : cur_proc (k_hw (on_hart cs2 s)) ≠ Some p;
  wr_locks : proc_locks_free (k_hw s);
  wr_len : length (k_procs s) = NPROC
}.

Lemma inv_start p x chan lk h s cs2 :
  hart_at 0 h → lock_free lk h → (∀ i, lk ≠ L_proc i) → cur_proc h = Some p → k_hw s = acq lk h →
  k_procs s !! p = Some x → waker_ready (cur h) p cs2 s →
  inv p chan lk (cur h) (cur (k_hw (on_hart cs2 s))) (cur_proc (k_hw (on_hart cs2 s)))
    S_me W_lk (h_csr (k_hw s)) cs2 s.
Proof.
  intros Hat [nm Hl] Hlk Hcp Hs Hx [W1 W2 W3 W4 W5]. split.
  - apply at_cpu_own; [|by rewrite Hs]. rewrite Hs. apply (hart_pre_acq 0); [by apply hart_at_pre|lia].
  - by split.
  - intros l [->|(i & Hi & ->)].
    + exists nm. rewrite owner_is_one by (cbn; set_solver). rewrite Hs. unfold acq. ksimpl.
      rewrite lookup_alter_eq. change (h_locks (push_hw h)) with (h_locks h). by rewrite Hl.
    + destruct (W4 i Hi) as [nm' Hi']. exists nm'. pose proof (Hlk i).
      rewrite owner_is_none by (cbn; set_solver). done.
  - intros _. change (proc_on (cur h) s) with (h_cpus (k_hw s) !! cur h ≫= c_proc).
    rewrite Hs. rewrite <- Hcp. exact (cur_proc_acq lk h).
  - done.
  - done.
  - split; [apply NoDup_seq|]. intros q Hq%elem_of_seq. lia.
  - done.
  - intros []. cbn [unlocked todo]. apply elem_of_seq. apply lookup_lt_Some in Hx. lia.
  - done.
  - exists x. split; [done|]. split; cbn; lia.
Qed.

(** Every reachable state of the two harts, from the state in which the
    sleeper calls [sleep]. *)
Lemma sleep_race p x chan lk h s cs2 s' ts :
  hart_at 0 h → lock_free lk h → (∀ i, lk ≠ L_proc i) → cur_proc h = Some p → k_hw s = acq lk h →
  k_procs s !! p = Some x → waker_ready (cur h) p cs2 s →
  rtc hstep (s, [Thread (h_csr (k_hw s)) (sleep_prog chan lk) (back_prog (cur h) p);
                 Thread cs2 (waker_prog chan lk) Done]) (s', ts) →
  (∃ s2 ts2, rtc hstep (s', ts) (s2, ts2) ∧ finished ts2) ∧
  ∃ t1 t2 y, ts = [t1; t2] ∧ k_procs s' !! p = Some y ∧
    (t_prog t1 = Done → p_chan y = chan ∧ (p_state y = SLEEPING ∨ p_state y = RUNNABLE)) ∧
    (t_prog t2 = Done → t_prog t1 = Done ∧ p_state y = RUNNABLE).
Proof.
  intros Hat Hl Hlk Hcp Hs Hx Hw Hst.
  pose proof (inv_start p x chan lk h s cs2 Hat Hl Hlk Hcp Hs Hx Hw) as Hi.
  destruct Hw as [_ W2 W3 _ W5].
  assert (Hp : (p < NPROC)%nat) by (apply lookup_lt_Some in Hx; lia).
  eapply steps_race in Hi as (sl & wl & cs1' & cs2' & s1 & E & Hi); [|done..|exact Hst].
  injection E as -> ->. split.
  - eapply race_ends with (n := (8 - srank sl + wrank wl)%nat); [..|exact Hi]; done.
  - pose proof Hi as Hi'. apply race_safe in Hi' as [H1 H2]; [|done..].
    destruct Hi as [_ _ _ _ _ _ _ _ _ _ (y & Hy & _)].
    eexists _, _, y. split; [reflexivity|]. split; [done|]. cbn [t_prog]. split.
    + intros Hd. destruct (H1 Hd) as (y' & Hy' & Hr). by simplify_eq.
    + intros Hd. destruct (H2 Hd) as (Hd1 & y' & Hy' & Hr). by simplify_eq.
Qed.
