(* ===== verification/SchedSpec.v ===== *)
(** * Correctness of the process table operations and of the scheduler *)

From S2P Require Import Prelude Riscv State Boot Spinlock ProcTable Machine CString Kalloc Vm Printf Sched Interleave SleepRace.

(** ** Sweeps of the whole table *)

(** What one process sees of [wakeup(chan)] called by process [me]. *)
Definition woken (me : option nat) (chan : chan_id) (i : nat) (x : proc) : proc :=
  if bool_decide (Some i ≠ me ∧ p_state x = SLEEPING ∧ p_chan x = chan)
  then x <| p_state := RUNNABLE |> else x.

(** What one timer tick adds to the statistics of a process. *)
Definition ticked (x : proc) : proc :=
  match p_state x with
  | RUNNABLE => x <| p_wait_ticks ::= λ n, i32 (n + 1) |>
  | RUNNING => x <| p_cpu_ticks ::= λ n, i32 (n + 1) |> <| p_recent_cpu ::= λ n, i32 (n + 1) |>
  | _ => x
  end.

(** What [kill] does to its victim. *)
Definition victim (x : proc) : proc :=
  if bool_decide (p_state x = SLEEPING)
  then x <| p_killed := 1 |> <| p_state := RUNNABLE |> else x <| p_killed := 1 |>.

Lemma list_alter_ext_at {A} (f g : A → A) i (l : list A) x :
  l !! i = Some x → f x = g x → alter f i l = alter g i l.
Proof. intros Hx Hfg. apply list_alter_ext; [|done]. intros y Hy. by simplify_eq. Qed.

(** The state after a critical section that left entry [i] as [f] does. *)
Lemma section_noop s h i f x :
  k_hw s = h → k_procs s !! i = Some x → f x = x →
  s <| k_hw := h |> = s <| k_procs ::= alter f i |>.
Proof.
  intros <- Hx Hf. rewrite kernel_hw_id. destruct s. cbv [set set_k_procs]. ksimpl. f_equal.
  symmetry. apply list_alter_id'. cbn in Hx. intros y Hy. by simplify_eq.
Qed.

Lemma section_upd s h i f g x :
  k_hw s = h → k_procs s !! i = Some x → g x = f x →
  s <| k_procs ::= alter g i |> <| k_hw := h |> = s <| k_procs ::= alter f i |>.
Proof.
  intros <- Hx Hf. destruct s. cbv [set set_k_procs set_k_hw]. ksimpl. f_equal.
  by eapply list_alter_ext_at.
Qed.

Lemma section_upd2 s h i f g g' x :
  k_hw s = h → k_procs s !! i = Some x → g' (g x) = f x →
  s <| k_procs ::= alter g i |> <| k_procs ::= alter g' i |> <| k_hw := h |> =
  s <| k_procs ::= alter f i |>.
Proof.
  intros <- Hx Hf. destruct s. cbv [set set_k_procs set_k_hw]. ksimpl. f_equal.
  rewrite list_alter_alter_eq. by eapply list_alter_ext_at.
Qed.

(** Run a critical section on the entry whose lookup is [Hx]. *)
Ltac enter n Hx := mrun_with (acquire_run n); [|by simplify_eq|by simplify_eq]; mrun_with get_proc_run; [|exact Hx].
Ltac leave n := mrun_with (release_run n); [|by simplify_eq|by simplify_eq|by simplify_eq].

Section sweeps.
Context `{Image, Device}.

Lemma wakeup_run n chan s :
  sweepable n s →
  wakeup chan s = Ret tt (s <| k_procs ::= imap (woken (cur_proc (k_hw s)) chan) |>).
Proof.
  intros [Hat Hf Hl]. apply for_each_procs; [|done]. intros i x s' Hi Hh Hx.
  specialize (Hf i Hi). rewrite <- Hh in *. mrun_with (myproc_run n); [|done].
  destruct (bool_decide_reflect (Some i = cur_proc (k_hw s'))) as [He|Hne]; mrun.
  { f_equal. rewrite <- (section_noop s' (k_hw s') i _ x); [by rewrite kernel_hw_id|done|done|].
    unfold woken. by rewrite bool_decide_false by tauto. }
  enter n Hx. destruct (bool_decide_reflect (p_state x = SLEEPING)) as [Hst|Hst];
    destruct (bool_decide_reflect (p_chan x = chan)) as [Hc|Hc]; mrun; cbn [andb].
  { erewrite upd_proc_run; [|exact Hx]. mrun. leave n. f_equal.
    refine (section_upd s' _ i _ _ x _ Hx _); [done|].
    unfold woken. by rewrite bool_decide_true. }
  all: leave n; f_equal; refine (section_noop s' _ i _ x _ Hx _); [done|].
  all: unfold woken; rewrite bool_decide_false; [done|tauto].
Qed.

Lemma update_sched_stats_run n s :
  sweepable n s →
  update_sched_stats s = Ret tt (s <| k_procs ::= imap (λ _, ticked) |>).
Proof.
  intros [Hat Hf Hl]. apply (for_each_procs (λ _, ticked)); [|done]. intros i x s' Hi Hh Hx.
  specialize (Hf i Hi). rewrite <- Hh in *. enter n Hx.
  destruct (p_state x) eqn:Hst; rewrite ?(bool_decide_false (_ = RUNNABLE)),
    ?(bool_decide_false (_ = RUNNING)), ?bool_decide_true by done; mrun.
  all: try (leave n; f_equal; refine (section_noop s' _ i _ x _ Hx _); [done|]; unfold ticked; by rewrite Hst).
  - erewrite upd_proc_run; [|exact Hx]. mrun. leave n. f_equal.
    refine (section_upd s' _ i _ _ x _ Hx _); [done|]. unfold ticked. by rewrite Hst.
  - erewrite upd_proc_run; [|exact Hx]. mrun. erewrite upd_proc_run; [mrun|ksimpl; by rewrite list_lookup_alter_eq, Hx].
    leave n. f_equal. refine (section_upd2 s' _ i _ _ _ x _ Hx _); [done|]. unfold ticked. by rewrite Hst.
Qed.

Lemma kkill_run n pid s :
  sweepable n s →
  kkill pid s =
    match find_proc (λ x, p_pid x =? pid) (k_procs s) with
    | Some i => Ret 0 (s <| k_procs ::= alter victim i |>)
    | None => Ret (-1) s
    end.
Proof.
  intros [Hat Hf Hl]. unfold kkill.
  assert (Hskip : ∀ i x, k_procs s !! i = Some x → (p_pid x =? pid) = false →
    (acquire (L_proc i);; x ← get_proc i;
     if p_pid x =? pid then
       upd_proc i (λ x, x <| p_killed := 1 |>);;
       when (bool_decide (p_state x = SLEEPING)) (upd_proc i (λ x, x <| p_state := RUNNABLE |>));;
       release (L_proc i);; mret (Some 0)
     else release (L_proc i);; mret None) s = Ret None s).
  { intros i x Hx Hp. assert (Hi : (i < NPROC)%nat) by (apply lookup_lt_Some in Hx; lia).
    specialize (Hf i Hi). enter n Hx. rewrite Hp. leave n. f_equal. exact (kernel_hw_id s). }
  destruct (find_proc _ _) as [i|] eqn:E.
  - pose proof (find_proc_lt _ _ _ E) as Hi. rewrite Hl in Hi.
    apply find_proc_Some in E as ((x & Hx & Hp) & Hmin). rewrite (seq_split i NPROC Hi).
    mrun. rewrite for_ret_skip.
    2:{ intros j Hj%elem_of_seq. destruct (lookup_lt_is_Some_2 (k_procs s) j) as [y Hy]; [lia|].
        apply (Hskip j y Hy). apply (Hmin j y Hy). lia. }
    cbn [for_ret]. specialize (Hf i Hi). enter n Hx. rewrite Hp.
    mrun. erewrite upd_proc_run; [|exact Hx]. mrun. unfold victim.
    destruct (bool_decide_reflect (p_state x = SLEEPING)) as [Hst|Hst]; mrun.
    + erewrite upd_proc_run; [mrun|ksimpl; by rewrite list_lookup_alter_eq, Hx].
      leave n. f_equal. refine (section_upd2 s _ i _ _ _ x _ Hx _); [done|].
      by rewrite bool_decide_true.
    + leave n. f_equal. refine (section_upd s _ i _ _ x _ Hx _); [done|].
      by rewrite bool_decide_false.
  - rewrite find_proc_None in E. rewrite <- (app_nil_r (seq 0 NPROC)). mrun.
    rewrite for_ret_skip; [done|]. intros j Hj%elem_of_seq.
    destruct (lookup_lt_is_Some_2 (k_procs s) j) as [y Hy]; [lia|]. eauto.
Qed.

End sweeps.

(** ** Dispatching *)

(** [c->proc = v]. *)
Definition assign (c : nat) (v : option nat) (h : hart) : hart :=
  h <| h_cpus ::= alter (λ y, y <| c_proc := v |>) c |>.

(** The state in which the scheduler of CPU [c] jumps into process [i]. *)
Definition dispatch (c i : nat) (s : kernel) : kernel :=
  s <| k_hw ::= λ h, assign c (Some i) (acq (L_proc i) h) |>
    <| k_procs ::= alter (λ x, x <| p_state := RUNNING |>) i |>.

(** The advice the scheduler acts on: valid and younger than the timeout,
    the age being the unsigned 32-bit difference of the tick counters. *)
Definition fresh_advice (s : kernel) : option Z :=
  let a := k_llm s in
  if truth (llm_advice_valid a) &&
     (u32 (k_ticks s - llm_advice_timestamp a) <? ADVICE_TIMEOUT_TICKS)
  then Some (llm_recommended_pid a) else None.

Definition runnable (x : proc) : bool := bool_decide (p_state x = RUNNABLE).
Definition runnable_at (s : kernel) (i : nat) : bool :=
  match k_procs s !! i with Some x => runnable x | None => false end.

(** The hart of the scheduler of CPU [c] between two critical sections. *)
Record sched_hart (c : nat) (h : hart) : Prop := {
  sh_at : hart_at 0 h;
  sh_cur : cur h = c;
  sh_procs : proc_locks_free h;
  sh_llm : lock_free L_llm h
}.

Lemma hart_at_assign n c v h : hart_at n h → hart_at n (assign c v h).
Proof.
  intros [Htp Hss Hn (y & Hy & H1 & H2 & H3)]. split; [done|done|done|].
  change (cur (assign c v h)) with (cur h). change (ie (assign c v h)) with (ie h).
  unfold assign. ksimpl. destruct (decide (c = cur h)) as [->|Hne].
  - rewrite list_lookup_alter_eq, Hy. by eexists.
  - rewrite list_lookup_alter_ne by done. by eexists.
Qed.

Lemma lock_free_assign lk c v h : lock_free lk h → lock_free lk (assign c v h).
Proof. done. Qed.

Lemma sched_hart_assign c v h : sched_hart c h → sched_hart c (assign c v h).
Proof. intros []. split; try done. by apply hart_at_assign. Qed.

Lemma assign_acq c v lk h : assign c v (acq lk h) = acq lk (assign c v h).
Proof.
  unfold assign, acq, push_hw, sie_off. cbv [ie cur]. hw_eq. f_equal.
  destruct (decide (c = Z.to_nat (i32 (csr_tp (h_csr h))))) as [<-|Hne].
  - rewrite !list_alter_alter_eq. apply list_alter_ext; [|done]. intros y _.
    unfold compose, cpu_push. ksimpl. by destruct (c_noff y =? 0).
  - by rewrite list_alter_alter_ne.
Qed.

Lemma hart_at_cpu n h : hart_at n h → ∃ y, h_cpus h !! cur h = Some y.
Proof. intros [_ _ _ (y & Hy & _)]. by exists y. Qed.

(** Interrupts are enabled for an instant and disabled again. *)
Lemma intr_window_run (s : kernel) : (intr_on;; intr_off) s = Ret tt (s <| k_hw ::= sie_off |>).
Proof.
  unfold intr_on, intr_off, r_sstatus, w_sstatus, csr_get, csr_set. mrun. f_equal.
  destruct s as [[[] cpus locks]]. cbv [sie_off set set_k_hw set_h_csr set_csr_sstatus]; ksimpl.
  do 3 f_equal. rewrite Z.land_lor_distr_l.
  change (Z.land SSTATUS_SIE (u64 (Z.lnot SSTATUS_SIE))) with 0. apply Z.lor_0_r.
Qed.

Lemma hart_pre_sie_off h : hart_pre 0 h → hart_pre 0 (sie_off h).
Proof. intros [? ? ? (c & ? & ? & ?)]. split; [done|by apply sie_off_range|done|]. exists c. split_and!; [done|done|lia]. Qed.

Section scheduler.
Context `{Image, Device}.

Lemma read_advice_run s :
  hart_pre 0 (k_hw s) → lock_free L_llm (k_hw s) →
  read_advice s = Ret (fresh_advice s) (s <| k_hw ::= settle |>).
Proof.
  intros Hh Hl. unfold read_advice. mrun_with (acquire_run_pre 0); [|done|done].
  mrun_with (release_run 0 L_llm (settle (k_hw s))); [|by apply hart_at_settle|done|by rewrite acq_settle].
  done.
Qed.

(** One step of the advised search. *)
Lemma advised_skip c pid s i x :
  sched_hart c (k_hw s) → (i < NPROC)%nat → k_procs s !! i = Some x →
  runnable x && (p_pid x =? pid) = false →
  (acquire (L_proc i);; x ← get_proc i;
   if bool_decide (p_state x = RUNNABLE) && (p_pid x =? pid) then
      upd_proc i (λ x, x <| p_state := RUNNING |>);;
      upd_cpu c (λ y, y <| c_proc := Some i |>);;
      acquire L_llm;;
      modify (λ s, s <| k_llm ::= set llm_advice_valid (λ _, 0) |>);;
      release L_llm;;
      swtch (To_proc i);;
      upd_cpu c (λ y, y <| c_proc := None |>);;
      release (L_proc i);;
      mret (Some tt)
    else release (L_proc i);; mret None) s = Ret None s.
Proof.
  intros [Hat _ Hf _] Hi Hx Hp. specialize (Hf i Hi). unfold runnable in Hp.
  enter 0 Hx. rewrite Hp. leave 0. f_equal. exact (kernel_hw_id s).
Qed.

(** Coming back from a process: [c->proc = 0; release(&p->lock)]. *)
Lemma undispatch_run c i s h :
  sched_hart c h → (i < NPROC)%nat → k_hw s = acq (L_proc i) h →
  ∃ s1, upd_cpu c (λ y, y <| c_proc := None |>) s = Ret tt s1 ∧
        release (L_proc i) s1 = Ret tt (s <| k_hw := assign c None h |>).
Proof.
  intros [Hat <- Hf Hl] Hi Hs. destruct (hart_at_cpu 1 (acq (L_proc i) h)) as [y Hy].
  { by apply (hart_at_acq 0). }
  eexists. split; [erewrite upd_cpu_run; [done|rewrite Hs; exact Hy]|].
  erewrite (release_run 0 (L_proc i) (assign (cur h) None h));
    [done|by apply hart_at_assign|by apply Hf|].
  ksimpl. rewrite Hs. apply assign_acq.
Qed.

Lemma run_advised_none c pid s :
  sched_hart c (k_hw s) → length (k_procs s) = NPROC →
  find_proc (λ x, runnable x && (p_pid x =? pid)) (k_procs s) = None →
  run_advised c pid s = Ret false s.
Proof.
  intros Hh Hl E. rewrite find_proc_None in E. unfold run_advised.
  rewrite <- (app_nil_r (seq 0 NPROC)). mrun. rewrite for_ret_skip; [done|].
  intros j Hj%elem_of_seq. destruct (lookup_lt_is_Some_2 (k_procs s) j) as [y Hy]; [lia|].
  apply (advised_skip c pid s j y Hh); [lia|done|eauto].
Qed.

Lemma run_advised_some c pid s i :
  sched_hart c (k_hw s) → length (k_procs s) = NPROC →
  find_proc (λ x, runnable x && (p_pid x =? pid)) (k_procs s) = Some i →
  ∃ k, run_advised c pid s =
         Switch (To_proc i) (dispatch c i s <| k_llm ::= set llm_advice_valid (λ _, 0) |>) k ∧
       ∀ s' h, sched_hart c h → k_hw s' = acq (L_proc i) h →
         k s' = Ret true (s' <| k_hw := assign c None h |>).
Proof.
  intros Hh Hl E. pose proof (find_proc_lt _ _ _ E) as Hi. rewrite Hl in Hi.
  apply find_proc_Some in E as ((x & Hx & Hp) & Hmin). unfold run_advised.
  rewrite (seq_split i NPROC Hi). mrun. rewrite for_ret_skip.
  2:{ intros j Hj%elem_of_seq. destruct (lookup_lt_is_Some_2 (k_procs s) j) as [y Hy]; [lia|].
      apply (advised_skip c pid s j y Hh); [lia|done|]. apply (Hmin j y Hy). lia. }
  cbn [for_ret]. destruct Hh as [Hat <- Hf Hll]. pose proof (Hf i Hi) as Hfi.
  pose proof (hart_at_acq 0 (L_proc i) _ Hat) as Hat1.
  assert (Hat1' : hart_at 1 (assign (cur (k_hw s)) (Some i) (acq (L_proc i) (k_hw s))))
    by (apply hart_at_assign, Hat1; lia).
  destruct (hart_at_cpu 1 (acq (L_proc i) (k_hw s))) as [y Hy]; [by apply Hat1|].
  enter 0 Hx. unfold runnable in Hp. rewrite Hp. mrun.
  erewrite upd_proc_run; [|exact Hx]. mrun. erewrite upd_cpu_run; [|exact Hy]. mrun.
  mrun_with (acquire_run 1); [|exact Hat1'|by apply lock_free_acq].
  mrun_with (release_run 1 L_llm); [|exact Hat1'|by apply lock_free_acq|done].
  eexists. split; [reflexivity|].
  intros s' h Hh' Hs'. destruct (undispatch_run _ i s' h Hh' Hi Hs') as (s1 & H1 & H2).
  mrun. rewrite H1. mrun. by rewrite H2.
Qed.

(** One step of the sweep. *)
Definition rr_body (c : nat) (found : bool) (p : nat) : M bool :=
  acquire (L_proc p);;
  x ← get_proc p;
  found ←
    (if bool_decide (p_state x = RUNNABLE) then
       upd_proc p (λ x, x <| p_state := RUNNING |>);;
       upd_cpu c (λ y, y <| c_proc := Some p |>);;
       swtch (To_proc p);;
       upd_cpu c (λ y, y <| c_proc := None |>);;
       mret true
     else mret found);
  release (L_proc p);;
  mret found.

Lemma rr_skip c found p s :
  sched_hart c (k_hw s) → length (k_procs s) = NPROC → (p < NPROC)%nat →
  runnable_at s p = false → rr_body c found p s = Ret found s.
Proof.
  intros [Hat _ Hf _] Hl Hp Hr. specialize (Hf p Hp). unfold rr_body, runnable_at, runnable in *.
  destruct (lookup_lt_is_Some_2 (k_procs s) p) as [x Hx]; [lia|]. rewrite Hx in Hr.
  enter 0 Hx. rewrite Hr. leave 0. f_equal. exact (kernel_hw_id s).
Qed.

Lemma rr_run c found p s :
  sched_hart c (k_hw s) → length (k_procs s) = NPROC → (p < NPROC)%nat →
  runnable_at s p = true →
  ∃ k, rr_body c found p s = Switch (To_proc p) (dispatch c p s) k ∧
       ∀ s' h, sched_hart c h → k_hw s' = acq (L_proc p) h →
         k s' = Ret true (s' <| k_hw := assign c None h |>).
Proof.
  intros [Hat <- Hf _] Hl Hp Hr. pose proof (Hf p Hp) as Hfp. unfold rr_body, runnable_at, runnable in *.
  destruct (lookup_lt_is_Some_2 (k_procs s) p) as [x Hx]; [lia|]. rewrite Hx in Hr.
  destruct (hart_at_cpu 1 (acq (L_proc p) (k_hw s))) as [y Hy]; [by apply (hart_at_acq 0)|].
  enter 0 Hx. rewrite Hr. mrun. erewrite upd_proc_run; [|exact Hx]. mrun.
  erewrite upd_cpu_run; [|exact Hy]. mrun. eexists. split; [reflexivity|].
  intros s' h Hh' Hs'. destruct (undispatch_run _ p s' h Hh' Hp Hs') as (s1 & H1 & H2).
  mrun. rewrite H1. mrun. by rewrite H2.
Qed.

(** ** The scheduler against its environment

    [env] says what the rest of the system does between a jump out of the
    scheduler and the return to it; [drive] composes the two and records the
    jumps. *)
Fixpoint drive {A} (env : target → kernel → kernel) (r : res A) : list target * res A :=
  match r with
  | Switch to s k => let '(l, r') := drive env (k (env to s)) in (to :: l, r')
  | _ => ([], r)
  end.

Lemma drive_bind {A B} env (r : res A) (f : A → M B) l a s l' r' :
  drive env r = (l, Ret a s) → drive env (f a s) = (l', r') →
  drive env (bind_res r f) = (l ++ l', r').
Proof.
  revert l. induction r as [b s0| |to s0 k IH| | |]; intros l Hr Hf; simplify_eq/=; [done|].
  destruct (drive env (k (env to s0))) as [l1 r1] eqn:E. simplify_eq.
  by rewrite (IH _ l1 E Hf).
Qed.

(** The scheduler's state at the top of its loop.  The interrupt state saved
    by the previous thread may be anything. *)
Record sched_pre (c : nat) (s : kernel) : Prop := {
  sp_hart : hart_pre 0 (k_hw s);
  sp_cur : cur (k_hw s) = c;
  sp_procs : proc_locks_free (k_hw s);
  sp_llm : lock_free L_llm (k_hw s);
  sp_len : length (k_procs s) = NPROC
}.

(** What a process does between two visits to the scheduler: it comes back on
    the same CPU through [sched], holding [p->lock] and no other lock.  An
    interrupt that ends [wfi] leaves no lock behind either. *)
Record env_ok (c : nat) (env : target → kernel → kernel) : Prop := {
  env_proc : ∀ i s h, (i < NPROC)%nat → sched_hart c h → k_hw s = acq (L_proc i) h →
    length (k_procs s) = NPROC →
    (∃ h', sched_hart c h' ∧ k_hw (env (To_proc i) s) = acq (L_proc i) h') ∧
    length (k_procs (env (To_proc i) s)) = NPROC;
  env_idle : ∀ s, sched_pre c s → sched_pre c (env To_idle s)
}.

(** The reference round-robin sweep over the entries [ps]. *)
Inductive sweep (env : target → kernel → kernel) (c : nat) :
  list nat → kernel → list nat → kernel → Prop :=
| sweep_nil s : sweep env c [] s [] s
| sweep_skip p ps s l s' :
    runnable_at s p = false → sweep env c ps s l s' → sweep env c (p :: ps) s l s'
| sweep_run p ps s h l s' :
    runnable_at s p = true →
    k_hw (env (To_proc p) (dispatch c p s)) = acq (L_proc p) h → sched_hart c h →
    sweep env c ps (env (To_proc p) (dispatch c p s) <| k_hw := assign c None h |>) l s' →
    sweep env c (p :: ps) s (p :: l) s'.

Lemma sched_hart_acq_dispatch c i s :
  sched_hart c (k_hw s) → k_hw (dispatch c i s) = acq (L_proc i) (assign c (Some i) (k_hw s)).
Proof. intros. unfold dispatch. ksimpl. apply assign_acq. Qed.

Lemma length_dispatch c i s : length (k_procs (dispatch c i s)) = length (k_procs s).
Proof. unfold dispatch. ksimpl. by rewrite length_alter. Qed.

Lemma for_fold_sweep c env ps found s :
  env_ok c env → Forall (λ p, (p < NPROC)%nat) ps →
  sched_hart c (k_hw s) → length (k_procs s) = NPROC →
  ∃ l s', sweep env c ps s l s' ∧ sched_hart c (k_hw s') ∧ length (k_procs s') = NPROC ∧
    drive env (for_fold ps (rr_body c) found s) =
      (To_proc <$> l, Ret (found || bool_decide (l ≠ [])) s').
Proof.
  intros Henv. revert found s. induction ps as [|p ps IH]; intros found s Hps Hh Hl.
  { exists [], s. split_and!; [constructor|done|done|]. cbn. by rewrite orb_false_r. }
  apply Forall_cons_1 in Hps as [Hp Hps]. cbn [for_fold].
  destruct (runnable_at s p) eqn:Hr.
  - destruct (rr_run c found p s Hh Hl Hp Hr) as (k & Hk & Hret).
    destruct (env_proc c env Henv p (dispatch c p s) (assign c (Some p) (k_hw s))) as ((h & Hh' & Hhw) & Hl').
    { done. } { by apply sched_hart_assign. } { by apply sched_hart_acq_dispatch. }
    { by rewrite length_dispatch. }
    set (s1 := env (To_proc p) (dispatch c p s)) in *.
    destruct (IH true (s1 <| k_hw := assign c None h |>)) as (l & s' & Hsw & Hh2 & Hl2 & Hd);
      [done|by apply sched_hart_assign|done|].
    exists (p :: l), s'. split_and!; [by eapply sweep_run|done|done|].
    rewrite bind_run, Hk. cbn [bind_res drive]. fold s1. rewrite (Hret s1 h Hh' Hhw). cbn [bind_res].
    rewrite Hd. cbn. by rewrite orb_true_r.
  - destruct (IH found s Hps Hh Hl) as (l & s' & Hsw & ? & ? & Hd).
    exists l, s'. split_and!; [by apply sweep_skip|done|done|].
    rewrite bind_run, (rr_skip c found p s Hh Hl Hp Hr). exact Hd.
Qed.

(** The dispatches of a sweep: in table order, each process at most once. *)
Lemma sweep_sublist env c ps s l s' : sweep env c ps s l s' → l `sublist_of` ps.
Proof. induction 1; [apply sublist_nil_l|by apply sublist_cons|by apply sublist_skip]. Qed.

(** A process that is ready, and stays so while others run, gets its turn. *)
Lemma sweep_fair env c ps s l s' p :
  sweep env c ps s l s' → p ∈ ps → runnable_at s p = true →
  (∀ q t, q ≠ p → runnable_at t p = true → runnable_at (env (To_proc q) t) p = true) →
  p ∈ l.
Proof.
  intros Hsw Hin Hr Hst. induction Hsw as [|q ps s l s' Hq Hsw IH|q ps s h l s' Hq Hhw Hh Hsw IH].
  - done.
  - apply elem_of_cons in Hin as [->|Hin]; [congruence|]. by apply IH.
  - destruct (decide (p = q)) as [->|Hne]; [by left|]. right.
    apply IH; [by apply elem_of_cons in Hin as [|]|]. change (runnable_at (env (To_proc q) (dispatch c q s)) p = true).
    apply Hst; [done|]. unfold runnable_at, dispatch in *. ksimpl.
    by rewrite list_lookup_alter_ne by done.
Qed.

(** ** One round of the scheduler *)

(** The process the advice selects, if any. *)
Definition candidate (s : kernel) : option nat :=
  fresh_advice s ≫= λ pid, find_proc (λ x, runnable x && (p_pid x =? pid)) (k_procs s).

(** The state once the advice has been read: interrupts are off. *)
Definition round_start (s : kernel) : kernel := s <| k_hw ::= λ h, settle (sie_off h) |>.

(** The state in which an advised process is entered: its advice is used up. *)
Definition dispatch_advised (c i : nat) (s : kernel) : kernel :=
  dispatch c i (round_start s) <| k_llm ::= set llm_advice_valid (λ _, 0) |>.

Inductive round (env : target → kernel → kernel) (c : nat) : kernel → list target → kernel → Prop :=
| round_advised s i h :
    candidate s = Some i →
    k_hw (env (To_proc i) (dispatch_advised c i s)) = acq (L_proc i) h → sched_hart c h →
    round env c s [To_proc i] (env (To_proc i) (dispatch_advised c i s) <| k_hw := assign c None h |>)
| round_sweep s l s' :
    candidate s = None → sweep env c (seq 0 NPROC) (round_start s) l s' → l ≠ [] →
    round env c s (To_proc <$> l) s'
| round_idle s :
    candidate s = None → (∀ i, runnable_at s i = false) →
    round env c s [To_idle] (env To_idle (round_start s)).

Lemma sched_hart_start c s : sched_pre c s → sched_hart c (k_hw (round_start s)).
Proof. intros [Hh Hc Hp Hl _]. split; [by apply hart_at_settle, hart_pre_sie_off|done|done|done]. Qed.

Lemma sched_pre_hart c s : sched_hart c (k_hw s) → length (k_procs s) = NPROC → sched_pre c s.
Proof. intros [] Hl. split; try done. by apply hart_at_pre. Qed.

(** The start of a round, up to the choice of the process. *)
Lemma scheduler_iter_start c s :
  sched_pre c s →
  scheduler_iter c s =
  (found ← match fresh_advice s with Some pid => run_advised c pid | None => mret false end;
   found ← (if (found : bool) then mret true else run_round_robin c);
   if (found : bool) then skip else swtch To_idle) (round_start s).
Proof.
  intros [Hh Hc Hp Hl Hlen]. unfold scheduler_iter.
  pose proof (intr_window_run s) as Hw. mrun. revert Hw. mrun.
  destruct (intr_on s) as [[] s1| | | | |]; cbn [bind_res]; intros Hw; simplify_eq.
  mrun. rewrite Hw. cbn [bind_res].
  mrun_with read_advice_run; [|by apply hart_pre_sie_off|done]. done.
Qed.

Lemma round_start_candidate s pid :
  fresh_advice s = Some pid →
  find_proc (λ x, runnable x && (p_pid x =? pid)) (k_procs (round_start s)) = candidate s.
Proof. intros Ha. unfold candidate. by rewrite Ha. Qed.

Lemma sweep_nil_idle env c ps s s' :
  sweep env c ps s [] s' → s' = s ∧ ∀ p, p ∈ ps → runnable_at s p = false.
Proof.
  intros Hsw. remember [] as l eqn:El. induction Hsw as [|p ps s l s' Hp Hsw IH|]; [| |done].
  { split; [done|]. intros p Hp. by apply elem_of_nil in Hp. }
  destruct (IH El) as [-> Hps]. split; [done|]. intros q [->|Hq]%elem_of_cons; [done|by apply Hps].
Qed.

(** Without a candidate the round is a sweep, or idles. *)
Lemma sweep_round env c s :
  env_ok c env → sched_pre c s → candidate s = None →
  ∃ l s', round env c s l s' ∧ sched_pre c s' ∧
    drive env ((found ← run_round_robin c;
                if (found : bool) then skip else swtch To_idle) (round_start s)) = (l, Ret tt s').
Proof.
  intros Henv Hpre Hc. pose proof (sched_hart_start c s Hpre) as Hh.
  destruct (for_fold_sweep c env (seq 0 NPROC) false (round_start s) Henv) as (l & s' & Hsw & Hh' & Hl' & Hd).
  { apply Forall_seq. lia. } { done. } { apply Hpre. }
  rewrite bind_run. change (run_round_robin c) with (for_fold (seq 0 NPROC) (rr_body c) false).
  destruct l as [|p l].
  - apply sweep_nil_idle in Hsw as [-> Hnone]. exists [To_idle], (env To_idle (round_start s)).
    split_and!.
    + constructor; [done|]. intros i. destruct (decide (i < NPROC)%nat) as [Hi|Hi].
      * apply (Hnone i), elem_of_seq. lia.
      * unfold runnable_at. rewrite lookup_ge_None_2; [done|]. rewrite (sp_len _ _ Hpre). lia.
    + apply Henv. by apply sched_pre_hart.
    + by erewrite (drive_bind env _ _ [] false); [|exact Hd|].
  - exists (To_proc <$> p :: l), s'. split_and!; [by constructor|by apply sched_pre_hart|].
    rewrite <- (app_nil_r (To_proc <$> p :: l)).
    erewrite drive_bind; [|exact Hd|]; done.
Qed.

Lemma scheduler_iter_round env c s :
  env_ok c env → sched_pre c s →
  ∃ l s', round env c s l s' ∧ sched_pre c s' ∧ drive env (scheduler_iter c s) = (l, Ret tt s').
Proof.
  intros Henv Hpre. pose proof (sched_hart_start c s Hpre) as Hh.
  assert (Hlen : length (k_procs (round_start s)) = NPROC) by apply Hpre.
  rewrite (scheduler_iter_start c s Hpre).
  destruct (fresh_advice s) as [pid|] eqn:Ha.
  2:{ apply sweep_round; [done|done|]. unfold candidate. by rewrite Ha. }
  pose proof (round_start_candidate s pid Ha) as Hc. destruct (candidate s) as [i|] eqn:Hcand.
  2:{ rewrite bind_run, (run_advised_none c pid _ Hh Hlen Hc). by apply sweep_round. }
  destruct (run_advised_some c pid _ i Hh Hlen Hc) as (k & Hk & Hret).
  assert (Hi : (i < NPROC)%nat) by (rewrite <- Hlen; by eapply find_proc_lt).
  destruct (env_proc c env Henv i (dispatch_advised c i s) (assign c (Some i) (k_hw (round_start s))))
    as ((h & Hh' & Hhw) & Hl').
  { done. } { by apply sched_hart_assign. } { by apply (sched_hart_acq_dispatch c i (round_start s)). }
  { change (length (k_procs (dispatch c i (round_start s))) = NPROC). by rewrite length_dispatch. }
  exists [To_proc i], (env (To_proc i) (dispatch_advised c i s) <| k_hw := assign c None h |>).
  split_and!; [by constructor|by apply sched_pre_hart; [apply sched_hart_assign|]|].
  rewrite bind_run, Hk. cbn [bind_res drive].
  change (dispatch c i (round_start s) <| k_llm ::= set llm_advice_valid (λ _, 0) |>) with (dispatch_advised c i s).
  rewrite (Hret _ h Hh' Hhw). done.
Qed.

(** [n] rounds one after the other. *)
Inductive rounds (env : target → kernel → kernel) (c : nat) :
  nat → kernel → list target → kernel → Prop :=
| rounds_O s : rounds env c 0 s [] s
| rounds_S n s l1 s1 l2 s2 :
    round env c s l1 s1 → rounds env c n s1 l2 s2 → rounds env c (S n) s (l1 ++ l2) s2.

Lemma scheduler_loop env c n k s :
  env_ok c env → sched_pre c s →
  ∃ l s', rounds env c n s l s' ∧ sched_pre c s' ∧
    drive env (for_each (seq k n) (λ _, scheduler_iter c) s) = (l, Ret tt s').
Proof.
  intros Henv. revert k s. induction n as [|n IH]; intros k s Hpre; cbn [seq for_each].
  { exists [], s. split_and!; [constructor|done|done]. }
  destruct (scheduler_iter_round env c s Henv Hpre) as (l1 & s1 & Hr & Hpre1 & Hd1).
  destruct (IH (S k) s1 Hpre1) as (l2 & s2 & Hr2 & Hpre2 & Hd2).
  exists (l1 ++ l2), s2. split_and!; [by econstructor|done|].
  rewrite bind_run. by eapply drive_bind.
Qed.

Lemma sched_pre_assign c v s : sched_pre c s → sched_pre c (s <| k_hw ::= assign c v |>).
Proof.
  intros [[? ? ? (y & Hy & Hn & Hi)] Hc ? ? ?]. split; try done. split; [done|done|done|]. ksimpl.
  change (cur (assign c v (k_hw s))) with (cur (k_hw s)). rewrite Hc. unfold assign. ksimpl.
  rewrite <- Hc, list_lookup_alter_eq, Hy. by eexists.
Qed.

End scheduler.

(** ** Giving up the CPU and coming back *)

(** The hart [h] with the interrupt enable bit set to [b], and recorded so. *)
Definition set_ie (b : bool) (h : hart) : hart :=
  h <| h_csr ::= set csr_sstatus (λ x,
         let x' := Z.land x (u64 (Z.lnot SSTATUS_SIE)) in
         if b then Z.lor x' SSTATUS_SIE else x') |>
    <| h_cpus ::= alter (set c_intena (λ _, Z_of_bool b)) (cur h) |>.

Lemma ie_set_ie b h : ie (set_ie b h) = b.
Proof.
  unfold ie, set_ie. ksimpl. destruct b; [|by rewrite sie_bit_off].
  rewrite Z.land_lor_distr_l, sie_bit_off. done.
Qed.

Lemma hart_at_set_ie b h : hart_at 0 h → hart_at 0 (set_ie b h).
Proof.
  intros [Htp Hss Hn (y & Hy & H1 & H2 & H3)]. split; [done| |done|].
  - unfold set_ie. ksimpl. pose proof (sie_off_range _ Hss) as Hr.
    destruct b; [by apply lor_sie_range|done].
  - exists (y <| c_intena := Z_of_bool b |>). rewrite ie_set_ie. change (cur (set_ie b h)) with (cur h).
    split_and!; [|done|done|lia]. unfold set_ie. ksimpl. by rewrite list_lookup_alter_eq, Hy.
Qed.

Lemma lock_free_set_ie lk b h : lock_free lk h → lock_free lk (set_ie b h).
Proof. done. Qed.

Lemma acq_set_ie lk b h :
  hart_at 0 h →
  acq lk h <| h_cpus ::= alter (set c_intena (λ _, Z_of_bool b)) (cur h) |> = acq lk (set_ie b h).
Proof.
  intros [_ _ _ (y & Hy & H1 & _)]. unfold acq, push_hw. rewrite ie_set_ie.
  change (cur (set_ie b h)) with (cur h). unfold set_ie, sie_off. destruct h as [[] cpus locks]. hw_eq.
  f_equal.
  - cbv [set set_csr_sstatus]. ksimpl. f_equal. set (m := u64 _).
    destruct b; [|by rewrite <- Z.land_assoc, Z.land_diag].
    rewrite Z.land_lor_distr_l, <- Z.land_assoc, Z.land_diag.
    change (Z.land SSTATUS_SIE m) with 0. by rewrite Z.lor_0_r.
  - cbn in *. rewrite !list_alter_alter_eq. eapply list_alter_ext_at; [exact Hy|].
    unfold compose, cpu_push. ksimpl. by rewrite H1.
Qed.

Section sleeping.
Context `{Image, Device}.

(** [sched()] called with [p->lock] held and nothing else.  The interrupt
    enable state belongs to the thread: it is the same after the switch, on
    whatever CPU the thread resumes. *)
Lemma sched_run p x h s :
  hart_at 0 h → lock_free (L_proc p) h → k_hw s = acq (L_proc p) h → cur_proc h = Some p →
  k_procs s !! p = Some x → p_state x ≠ RUNNING →
  ∃ k, sched s = Switch To_scheduler s k ∧
    ∀ s' h', hart_at 0 h' → k_hw s' = acq (L_proc p) h' →
      k s' = Ret tt (s' <| k_hw := acq (L_proc p) (set_ie (ie h) h') |>).
Proof.
  intros Hat (name & Hl) Hs Hcp Hx Hst.
  pose proof (hart_at_acq 0 (L_proc p) h Hat ltac:(lia)) as Hat1.
  assert (Hcpu : ∃ y, h_cpus h !! cur h = Some y ∧ c_noff y = 0) by (destruct Hat as [_ _ _ (y & ? & ? & _)]; eauto).
  destruct Hcpu as (y & Hy & Hn).
  pose proof (lookup_push_hw h y Hy : h_cpus (acq (L_proc p) h) !! cur h = Some _) as Hy1. 
  unfold sched. mrun_with (curproc_run 1); [|by rewrite Hs|by rewrite Hs, cur_proc_acq].
  mrun_with (holding_taken _ s (Spinlock 1 name (Some (cur h)))); [|by rewrite Hs; apply Hat1| |done|by rewrite Hs].
  2:{ rewrite Hs. unfold acq. ksimpl. rewrite lookup_alter_eq.
      change (h_locks (push_hw h)) with (h_locks h). by rewrite Hl. }
  cbn [negb]. mrun_with mycpu_run; [|rewrite Hs; apply Hat1]. rewrite Hs, cur_acq.
  mrun_with get_cpu_run; [|rewrite Hs; exact Hy1].
  assert (c_noff (cpu_push (Z_of_bool (ie h)) y) = 1) as -> by (unfold cpu_push; rewrite Hn; cbn [Z.eqb]; ksimpl; by rewrite Hn).
  cbn [Z.eqb Pos.eqb negb]. mrun_with (get_proc_run s p x); [|done].
  rewrite bool_decide_false by done.
  assert (Hie : intr_get s = Ret 0 s).
  { unfold intr_get, r_sstatus, csr_get. mrun.
    change (Ret (Z_of_bool (ie (k_hw s))) s = Ret 0 s). rewrite Hs.
    change (ie (acq (L_proc p) h)) with (ie (push_hw h)). by rewrite ie_push_hw. }
  mrun_with Hie. cbn [truth Z.eqb negb]. mrun_with mycpu_run; [|rewrite Hs; apply Hat1].
  rewrite Hs, cur_acq. mrun_with get_cpu_run; [|rewrite Hs; exact Hy1].
  assert (c_intena (cpu_push (Z_of_bool (ie h)) y) = Z_of_bool (ie h)) as ->
    by (unfold cpu_push; by rewrite Hn).
  eexists. split; [reflexivity|]. intros s' h' Hat' Hs'. cbn beta.
  mrun_with mycpu_run; [|rewrite Hs'; apply Hat'].
  destruct (hart_at_cpu 0 h' Hat') as [y' Hy']. erewrite upd_cpu_run.
  2:{ rewrite Hs'. apply (lookup_push_hw h' y' Hy'). }
  rewrite <- acq_set_ie by done. f_equal. destruct s'. cbn in Hs'. by rewrite Hs'.
Qed.

(** [sleep(chan, lk)] without interference: the process is off its CPU with
    [p->lock] held, [lk] free and the process marked as sleeping on [chan], and
    [lk] is held again when it returns. *)
Lemma sleep_run p x chan lk h s :
  hart_at 0 h → lock_free (L_proc p) h → lock_free lk h → lk ≠ L_proc p →
  cur_proc h = Some p → k_hw s = acq lk h → k_procs s !! p = Some x →
  ∃ k, sleep chan lk s =
         Switch To_scheduler
           (s <| k_hw := acq (L_proc p) h |>
              <| k_procs ::= alter (λ x, x <| p_chan := chan |> <| p_state := SLEEPING |>) p |>) k ∧
    ∀ s' h' y, hart_at 0 h' → lock_free (L_proc p) h' → lock_free lk h' →
      k_hw s' = acq (L_proc p) h' → k_procs s' !! p = Some y →
      k s' = Ret tt (s' <| k_hw := acq lk (set_ie (ie h) h') |>
                        <| k_procs ::= alter (λ x, x <| p_chan := Ch_null |>) p |>).
Proof.
  intros Hat Hfp Hfl Hne Hcp Hs Hx.
  pose proof (hart_at_acq 0 lk h Hat ltac:(lia)) as Hat1.
  pose proof (hart_at_acq 0 (L_proc p) h Hat ltac:(lia)) as Hat2.
  unfold sleep. mrun_with (curproc_run 1); [|by rewrite Hs|by rewrite Hs, cur_proc_acq].
  mrun_with (acquire_run 1); [|by rewrite Hs|rewrite Hs; by apply lock_free_acq].
  mrun_with (release_run 1 lk (acq (L_proc p) h)); [|done|by apply lock_free_acq|].
  2:{ ksimpl. rewrite Hs. by apply acq_comm. }
  erewrite upd_proc_run; [|exact Hx]. mrun.
  erewrite upd_proc_run; [|ksimpl; rewrite list_lookup_alter_eq, Hx; reflexivity]. mrun.
  match goal with |- context [sched ?st] => destruct (sched_run p (x <| p_chan := chan |> <| p_state := SLEEPING |>) h st)
     as (k & -> & Hk) end; [done|done|done|done| |done|].
  { ksimpl. by rewrite !list_lookup_alter_eq, Hx. }
  eexists. split.
  { cbn [bind_res]. f_equal. destruct s. cbv [set set_k_procs set_k_hw]. ksimpl. f_equal.
    by rewrite list_alter_alter_eq. }
  intros s' h' y Hat' Hfp' Hfl' Hs' Hy. cbn beta. rewrite (Hk s' h' Hat' Hs'). mrun.
  erewrite upd_proc_run; [|exact Hy]. mrun.
  mrun_with (release_run 0 (L_proc p) (set_ie (ie h) h')); [|by apply hart_at_set_ie|done|done].
  erewrite (acquire_run 0); [|by apply hart_at_set_ie|done]. done.
Qed.

End sleeping.

(** ** The theorems *)

Section theorems.
Context `{Image, Device}.

(** C1: the scheduler refines its policy.  For every number of rounds and every
    behaviour of the processes that respects the locking protocol, the
    scheduler neither panics nor blocks; the processes it enters, in order,
    are those the relation [rounds] allows: the advised process alone when
    the advice is fresh and names a ready process, else every process found
    ready in table order, else an idle wait.  The scheduler's own locking
    invariant holds again at the end. *)
Theorem scheduler_refines_policy env c n s :
  env_ok c env → sched_pre c s →
  ∃ l s', rounds env c n (s <| k_hw ::= assign c None |>) l s' ∧ sched_pre c s' ∧
    drive env (scheduler n s) = (l, Ret tt s').
Proof.
  intros Henv Hpre. unfold scheduler. destruct (hp_cpu _ _ (sp_hart _ _ Hpre)) as (y & Hy & _).
  rewrite bind_run, mycpu_run by apply Hpre. mrun.
  erewrite upd_cpu_run; [|exact Hy]. mrun. rewrite (sp_cur _ _ Hpre).
  by apply scheduler_loop; [|apply sched_pre_assign].
Qed.

(** C4: advice is honoured first.  When fresh advice names a ready process the
    round enters the first such process and no other: it is RUNNING, it is
    the CPU's current process, its lock is held, the rest of the table is
    unchanged, and the advice is used up, so that the next round cannot act
    on it again. *)
Theorem scheduler_honours_advice c s i x :
  sched_pre c s → candidate s = Some i → k_procs s !! i = Some x →
  runnable x = true ∧ fresh_advice s = Some (p_pid x) ∧
  ∃ s1 k, scheduler_iter c s = Switch (To_proc i) s1 k ∧
    k_procs s1 = <[i := x <| p_state := RUNNING |>]> (k_procs s) ∧
    cur_proc (k_hw s1) = Some i ∧
    holding (L_proc i) s1 = Ret true s1 ∧
    llm_advice_valid (k_llm s1) = 0 ∧ candidate s1 = None.
Proof.
  intros Hpre Hcand Hx. pose proof (sched_hart_start c s Hpre) as Hh.
  rewrite (scheduler_iter_start c s Hpre). unfold candidate in Hcand.
  destruct (fresh_advice s) as [pid|] eqn:Ha; [|done]. cbn in Hcand.
  assert (Hi : (i < NPROC)%nat) by (rewrite <- (sp_len _ _ Hpre); by eapply find_proc_lt).
  pose proof (proj1 (find_proc_Some _ _ _) Hcand) as ((x' & Hx' & [Hr Hp]%andb_true_iff) & _).
  simplify_eq. apply Z.eqb_eq in Hp as <-. split_and!; [done|done|].
  destruct (run_advised_some c (p_pid x) (round_start s) i Hh) as (k & Hk & _);
    [apply Hpre|done|].
  eexists _, _. split; [rewrite bind_run, Hk; reflexivity|].
  destruct (hart_at_cpu 0 _ (sh_at _ _ Hh)) as [y Hy]. destruct Hh as [Hat <- Hfr Hll]. split_and!.
  - unfold dispatch, round_start. ksimpl. symmetry. by apply (list_insert_alter (λ x, x <| p_state := RUNNING |>)).
  - unfold dispatch. ksimpl. rewrite assign_acq, cur_proc_acq. unfold cur_proc.
    change (cur (assign ?c ?v ?h)) with (cur h). unfold assign. ksimpl. by rewrite list_lookup_alter_eq, Hy.
  - destruct (Hfr i Hi) as (name & Hl). apply (holding_taken _ _ (Spinlock 1 name (Some (cur (k_hw (round_start s)))))); [apply Hat| |done|done].
    unfold dispatch, assign, acq. ksimpl. rewrite lookup_alter_eq.
    change (h_locks (push_hw ?h)) with (h_locks h). by rewrite Hl.
  - done.
  - done.
Qed.

(** C18: without usable advice the round is fair.  The processes are entered in
    table order, each at most once, and every process that is ready at the
    start of the round, and that the others leave ready, gets the CPU in this
    round. *)
Theorem round_robin_is_fair env c s :
  env_ok c env → sched_pre c s → candidate s = None →
  ∃ l s', drive env (scheduler_iter c s) = (l, Ret tt s') ∧
    (l = [To_idle] ∧ (∀ i, runnable_at s i = false) ∨
     ∃ ps, l = To_proc <$> ps ∧ ps ≠ [] ∧ ps `sublist_of` seq 0 NPROC ∧
       ∀ i, runnable_at s i = true →
         (∀ j t, j ≠ i → runnable_at t i = true → runnable_at (env (To_proc j) t) i = true) →
         i ∈ ps).
Proof.
  intros Henv Hpre Hc. destruct (scheduler_iter_round env c s Henv Hpre) as (l & s' & Hr & _ & Hd).
  exists l, s'. split; [done|]. destruct Hr as [s i h Hi _ _|s ps s' _ Hsw Hne|s _ Hnone].
  - by rewrite Hi in Hc.
  - right. exists ps. split_and!; [done|done|by eapply sweep_sublist|].
    intros i Hi Hst. eapply sweep_fair; [exact Hsw| |exact Hi|exact Hst].
    unfold runnable_at in Hi. destruct (k_procs s !! i) as [x|] eqn:Hx; [|done].
    apply lookup_lt_Some in Hx. rewrite (sp_len _ _ Hpre) in Hx. apply elem_of_seq. lia.
  - by left.
Qed.

(** C40: when advice expires.  The scheduler's look at the advice returns the
    recommended pid exactly when the advice has not been used and is less than
    200 ticks old, the age counted modulo 2^32: whatever the tick counter has
    wrapped around to, advice given [d] ticks ago counts as [d] modulo 2^32
    ticks old.  The look itself changes nothing but the saved interrupt state,
    so expired advice stays recorded, and is fresh again after 2^32 ticks. *)
Theorem advice_expires s d :
  hart_pre 0 (k_hw s) → lock_free L_llm (k_hw s) →
  0 ≤ d → k_ticks s = u32 (llm_advice_timestamp (k_llm s) + d) →
  read_advice s =
    Ret (if negb (llm_advice_valid (k_llm s) =? 0) && (d mod 2 ^ 32 <? 200)
         then Some (llm_recommended_pid (k_llm s)) else None)
        (s <| k_hw ::= settle |>).
Proof.
  intros Hh Hl Hd Ht. rewrite (read_advice_run s Hh Hl). f_equal.
  unfold fresh_advice, truth, ADVICE_TIMEOUT_TICKS. rewrite Ht. unfold u32.
  rewrite Zminus_mod_idemp_l. by replace (_ + d - _) with d by lia.
Qed.

(** C6: [sleep] loses no wakeup.  On its own, a process that calls
    [sleep(chan, lk)] with [lk] held leaves the CPU marked SLEEPING on [chan],
    with its own lock held and [lk] free; a [wakeup(chan)] makes it RUNNABLE;
    and when it is entered again, on any CPU, it returns with [lk] held, its
    channel cleared and its interrupt state restored.  Against a second hart
    that runs [acquire(lk); wakeup(chan); release(lk)] at the same time, in
    whatever order the atomic actions of the two interleave, nobody gets
    stuck, a sleeper that is off the CPU is SLEEPING on [chan] or already
    RUNNABLE, and once the waker is done the sleeper is off the CPU and
    RUNNABLE.  So [wakeup] never looks at the process between the moment
    [sleep] gives up [lk] and the moment the process is asleep: [sleep] takes
    [p->lock] first. *)
Theorem sleep_loses_no_wakeup p x chan lk h s :
  hart_at 0 h → lock_free (L_proc p) h → lock_free lk h → lk ≠ L_proc p →
  cur_proc h = Some p → k_hw s = acq lk h → k_procs s !! p = Some x →
  (∃ s1 k, sleep chan lk s = Switch To_scheduler s1 k ∧
    k_hw s1 = acq (L_proc p) h ∧
    k_procs s1 = <[p := x <| p_chan := chan |> <| p_state := SLEEPING |>]> (k_procs s) ∧
    (∀ h2, sweepable 0 (s1 <| k_hw := h2 |>) → cur_proc h2 ≠ Some p →
       ∃ s2, wakeup chan (s1 <| k_hw := h2 |>) = Ret tt s2 ∧ runnable_at s2 p = true) ∧
    (∀ s3 h3 y, hart_at 0 h3 → lock_free (L_proc p) h3 → lock_free lk h3 →
       k_hw s3 = acq (L_proc p) h3 → k_procs s3 !! p = Some y →
       ∃ h4, ie h4 = ie h ∧
         k s3 = Ret tt (s3 <| k_hw := acq lk h4 |>
                           <| k_procs := <[p := y <| p_chan := Ch_null |>]> (k_procs s3) |>))) ∧
  (∀ t, denote (sleep_prog chan lk) t = sleep chan lk t) ∧
  (∀ t, denote (waker_prog chan lk) t = (acquire lk;; wakeup chan;; release lk) t) ∧
  (∀ cs2 s' ts, (∀ i, lk ≠ L_proc i) → waker_ready (cur h) p cs2 s →
     rtc hstep (s, [Thread (h_csr (k_hw s)) (sleep_prog chan lk) (back_prog (cur h) p);
                    Thread cs2 (waker_prog chan lk) Done]) (s', ts) →
     (∃ s2 ts2, rtc hstep (s', ts) (s2, ts2) ∧ finished ts2) ∧
     ∃ t1 t2 y, ts = [t1; t2] ∧ k_procs s' !! p = Some y ∧
       (t_prog t1 = Done → p_chan y = chan ∧ (p_state y = SLEEPING ∨ p_state y = RUNNABLE)) ∧
       (t_prog t2 = Done → t_prog t1 = Done ∧ p_state y = RUNNABLE)).
Proof.
  intros Hat Hfp Hfl Hne Hcp Hs Hx. split_and!.
  - destruct (sleep_run p x chan lk h s) as (k & Hk & Hret); [done..|].
    eexists _, _. split; [exact Hk|]. split_and!; [done| | |].
    + ksimpl. symmetry. by apply (list_insert_alter (λ x, x <| p_chan := chan |> <| p_state := SLEEPING |>)).
    + intros h2 Hsw Hcur. eexists. split; [by apply (wakeup_run 0)|].
      unfold runnable_at. ksimpl. rewrite list_lookup_imap, list_lookup_alter_eq, Hx. cbn.
      unfold woken. ksimpl. rewrite bool_decide_true by done. done.
    + intros s3 h3 y Hat3 Hfp3 Hfl3 Hs3 Hy. exists (set_ie (ie h) h3). split; [apply ie_set_ie|].
      rewrite (Hret s3 h3 y) by done. by rewrite (procs_insert_alter _ p y).
  - apply denote_sleep.
  - apply denote_waker.
  - intros cs2 s' ts Hlk Hw Hst. by eapply sleep_race.
Qed.

(** [wakeup(chan)] makes RUNNABLE exactly the processes, other than the
    caller, that sleep on [chan]; every other process and the rest of the
    kernel state are unchanged, locks and interrupt state included. *)
Theorem wakeup_exact n chan s :
  sweepable n s →
  ∃ s', wakeup chan s = Ret tt s' ∧ s' = s <| k_procs := k_procs s' |> ∧
    length (k_procs s') = NPROC ∧
    ∀ i x, k_procs s !! i = Some x →
      k_procs s' !! i = Some
        (if bool_decide (cur_proc (k_hw s) ≠ Some i) && bool_decide (p_state x = SLEEPING)
            && bool_decide (p_chan x = chan)
         then x <| p_state := RUNNABLE |> else x).
Proof.
  intros Hs. eexists. split; [by apply (wakeup_run n)|]. ksimpl. split_and!; [done| |].
  - rewrite length_imap. apply Hs.
  - intros i x Hx. rewrite list_lookup_imap, Hx. cbn. f_equal. unfold woken.
    repeat bdestruct_step; cbn; try done; intuition congruence.
Qed.

(** [kkill(pid)] marks the first process with that pid as killed, wakes it
    if it sleeps, and returns 0; it returns -1 and changes nothing when no
    table entry has the pid. *)
Theorem kkill_exact n pid s :
  sweepable n s →
  (∀ i x, k_procs s !! i = Some x → p_pid x = pid →
     (∀ j y, k_procs s !! j = Some y → (j < i)%nat → p_pid y ≠ pid) →
     kkill pid s = Ret 0 (s <| k_procs := <[i := victim x]> (k_procs s) |>)) ∧
  ((∀ i x, k_procs s !! i = Some x → p_pid x ≠ pid) → kkill pid s = Ret (-1) s).
Proof.
  intros Hs. split.
  - intros i x Hx Hp Hmin. rewrite (kkill_run n) by done.
    assert (find_proc (λ x, p_pid x =? pid) (k_procs s) = Some i) as ->.
    { apply find_proc_Some. split; [exists x; split; [done|by apply Z.eqb_eq]|].
      intros j y Hy Hj. apply Z.eqb_neq. by apply (Hmin j). }
    by rewrite (procs_insert_alter s i x).
  - intros Hnone. rewrite (kkill_run n) by done.
    assert (find_proc (λ x, p_pid x =? pid) (k_procs s) = None) as ->; [|done].
    apply find_proc_None. intros i y Hy. apply Z.eqb_neq. by apply (Hnone i).
Qed.

(** The accounting of a timer tick.  [update_sched_stats] adds one to the
    waiting time of every RUNNABLE process and to the total and recent CPU
    time of every RUNNING one (32-bit counters that wrap), and nothing else. *)
Theorem update_sched_stats_exact n s :
  sweepable n s →
  ∃ s', update_sched_stats s = Ret tt s' ∧ s' = s <| k_procs := k_procs s' |> ∧
    ∀ i x, k_procs s !! i = Some x → ∃ x', k_procs s' !! i = Some x' ∧
      p_wait_ticks x' = (if runnable x then i32 (p_wait_ticks x + 1) else p_wait_ticks x) ∧
      p_cpu_ticks x' = (if bool_decide (p_state x = RUNNING) then i32 (p_cpu_ticks x + 1) else p_cpu_ticks x) ∧
      p_recent_cpu x' = (if bool_decide (p_state x = RUNNING) then i32 (p_recent_cpu x + 1) else p_recent_cpu x) ∧
      x' <| p_wait_ticks := p_wait_ticks x |> <| p_cpu_ticks := p_cpu_ticks x |>
         <| p_recent_cpu := p_recent_cpu x |> = x.
Proof.
  intros Hs. eexists. split; [by apply (update_sched_stats_run n)|]. split; [done|].
  intros i x Hx. ksimpl. rewrite list_lookup_imap, Hx. cbn. eexists. split; [done|].
  destruct x. unfold ticked, runnable. ksimpl. by destruct p_state.
Qed.

End theorems.

(** ** Evaluation on the concrete machine *)

(** Every process sleeps on [&ticks] as soon as it is entered. *)
Definition demo_env (to : target) (s : kernel) : kernel :=
  match to with
  | To_proc i => s <| k_procs ::= alter (λ x, x <| p_state := SLEEPING |> <| p_chan := Ch_ticks |>) i |>
  | _ => s
  end.

Lemma demo_env_ok c : env_ok c demo_env.
Proof.
  split; [|done]. intros i s h Hi Hh Hs Hl. split; [by exists h|].
  cbn [demo_env]. ksimpl. by rewrite length_alter.
Qed.

Lemma demo_sched_pre : sched_pre 0 demo.
Proof.
  split; [apply hart_at_pre, demo_hart_at|done|apply demo_proc_locks|by apply is_free_lock_free|done].
Qed.

(** The machine after pid 3 was recommended. *)
Definition demo_advised : kernel := demo <| k_llm := Llm_advice 3 1 0 |>.

Lemma scheduler_refines_policy_witness :
  ∃ l s', rounds demo_env 0 2 (demo <| k_hw ::= assign 0 None |>) l s' ∧ sched_pre 0 s' ∧
    drive demo_env (scheduler 2 demo) = (l, Ret tt s').
Proof. exact (scheduler_refines_policy demo_env 0%nat 2 demo (demo_env_ok 0) demo_sched_pre). Defined.

Lemma demo_advised_pre : sched_pre 0 demo_advised.
Proof.
  split; [apply hart_at_pre, demo_hart_at|done|apply demo_proc_locks|by apply is_free_lock_free|done].
Qed.

Lemma scheduler_honours_advice_witness :
  candidate demo_advised = Some 2%nat ∧
  ∃ s1 k, scheduler_iter 0 demo_advised = Switch (To_proc 2) s1 k ∧ candidate s1 = None.
Proof.
  split; [reflexivity|].
  destruct (scheduler_honours_advice 0 demo_advised 2 (demo_proc RUNNABLE Ch_null 3)
    demo_advised_pre eq_refl eq_refl) as (_ & _ & s1 & k & H1 & _ & _ & _ & _ & H2).
  exists s1, k. split; [exact H1|exact H2].
Defined.

Lemma round_robin_is_fair_witness :
  ∃ l s', drive demo_env (scheduler_iter 0 demo) = (l, Ret tt s') ∧ l ≠ [To_idle].
Proof.
  destruct (round_robin_is_fair demo_env 0 demo (demo_env_ok 0) demo_sched_pre eq_refl)
    as (l & s' & Hd & Hl).
  exists l, s'. split; [exact Hd|]. destruct Hl as [[_ Hn]|(ps & -> & _ & _ & Hf)].
  - specialize (Hn 1%nat). discriminate Hn.
  - destruct ps as [|p [|q ps]]; discriminate.
Defined.

Lemma advice_expires_witness :
  (∃ s', read_advice (demo_advised <| k_ticks := 199 |>) = Ret (Some 3) s') ∧
  (∃ s', read_advice (demo_advised <| k_ticks := 200 |>) = Ret None s') ∧
  (∃ s', read_advice (demo_advised <| k_ticks := 5 |>) = Ret (Some 3) s').
Proof.
  assert (Hh : ∀ t, hart_pre 0 (k_hw (demo_advised <| k_ticks := t |>))) by (intros t; apply demo_advised_pre).
  assert (Hl : ∀ t, lock_free L_llm (k_hw (demo_advised <| k_ticks := t |>))) by (intros t; apply demo_advised_pre).
  split; [|split]; eexists.
  - exact (advice_expires (demo_advised <| k_ticks := 199 |>) 199 (Hh _) (Hl _) ltac:(lia) eq_refl).
  - exact (advice_expires (demo_advised <| k_ticks := 200 |>) 200 (Hh _) (Hl _) ltac:(lia) eq_refl).
  - exact (advice_expires (demo_advised <| k_ticks := 5 |>) (2 ^ 32 + 5) (Hh _) (Hl _) ltac:(lia) eq_refl).
Defined.

(** Process 3 on CPU 0 goes to sleep on [&ticks] while CPU 1 wakes the
    sleepers on [&ticks].  In this order the waker has [&tickslock] and has
    seen the first three processes before process 3 is marked as sleeping. *)
Definition demo_sleeper : kernel := demo_run <| k_hw := acq L_ticks (demo_hart (Some 3%nat)) |>.
Definition demo_waker : csrs := zero_csrs <| csr_tp := 1 |>.
Definition demo_order : list nat :=
  replicate 3 0%nat ++ replicate 16 1%nat ++ replicate 5 0%nat ++ replicate (5 * NPROC - 14) 1%nat.

Definition demo_race : list thread :=
  [Thread (h_csr (k_hw demo_sleeper)) (sleep_prog Ch_ticks L_ticks) (back_prog 0 3);
   Thread demo_waker (waker_prog Ch_ticks L_ticks) Done].

(** The end of a run, without the unevaluated rest of its threads. *)
Definition race_end (r : option (kernel * list thread)) : option (bool * option procstate) :=
  '(s, ts) ← r;
  t2 ← ts !! 1%nat;
  Some (match t_prog t2 with Done => true | _ => false end, p_state <$> k_procs s !! 3%nat).

Example demo_race_end : race_end (hrun demo_order demo_sleeper demo_race) = Some (true, Some RUNNABLE).
Proof. vm_compute. reflexivity. Qed.

Lemma demo_waker_ready : waker_ready 0 3 demo_waker demo_sleeper.
Proof.
  split.
  - split; [done|done|done|]. exists zero_cpu. by split_and!.
  - done.
  - done.
  - intros i Hi. apply (lock_free_acq L_ticks); [done|by apply demo_proc_locks].
  - done.
Qed.

Lemma sleep_loses_no_wakeup_witness :
  (∃ s1 k, sleep Ch_ticks L_ticks demo_sleeper = Switch To_scheduler s1 k ∧
     p_state <$> k_procs s1 !! 3%nat = Some SLEEPING) ∧
  ∃ s' ts y, rtc hstep (demo_sleeper, demo_race) (s', ts) ∧
    k_procs s' !! 3%nat = Some y ∧ p_state y = RUNNABLE.
Proof.
  destruct (sleep_loses_no_wakeup 3 (demo_proc RUNNING Ch_null 4) Ch_ticks L_ticks (demo_hart (Some 3%nat))
    demo_sleeper) as ((s1 & k & Hk & _ & Hp & _ & _) & _ & _ & Hrace).
  - apply demo_hart_at.
  - apply demo_proc_locks. unfold NPROC. lia.
  - by apply is_free_lock_free.
  - discriminate.
  - reflexivity.
  - reflexivity.
  - reflexivity.
  - split; [exists s1, k; split; [exact Hk|rewrite Hp; reflexivity]|].
    pose proof demo_race_end as Hend.
    destruct (hrun demo_order demo_sleeper demo_race) as [[s' ts]|] eqn:E; [|discriminate Hend].
    pose proof (hrun_steps demo_order _ _ _ E) as Hst.
    destruct (Hrace demo_waker s' ts) as (_ & t1 & t2 & y & -> & Hy & _ & Hdone);
      [intros i; discriminate|exact demo_waker_ready|exact Hst|].
    exists s', [t1; t2], y. split; [exact Hst|]. split; [exact Hy|]. apply Hdone.
    cbn in Hend. destruct (t_prog t2); [reflexivity|discriminate Hend].
Defined.

Lemma wakeup_exact_witness :
  ∃ s', wakeup Ch_ticks demo = Ret tt s' ∧ runnable_at s' 0 = true.
Proof.
  destruct (wakeup_exact 0 Ch_ticks demo (demo_sweepable None)) as (s' & Hw & _ & _ & Hp).
  exists s'. split; [exact Hw|]. unfold runnable_at. by rewrite (Hp 0%nat _ eq_refl).
Defined.

Lemma kkill_exact_witness :
  kkill 1 demo = Ret 0 (demo <| k_procs := <[0%nat := victim (demo_proc SLEEPING Ch_ticks 1)]> demo_procs |>).
Proof.
  apply (proj1 (kkill_exact 0 1 demo (demo_sweepable None))); [reflexivity|reflexivity|].
  intros j y _ Hj. lia.
Defined.

Lemma update_sched_stats_exact_witness :
  ∃ s' x', update_sched_stats demo = Ret tt s' ∧ k_procs s' !! 1%nat = Some x' ∧ p_wait_ticks x' = 1.
Proof.
  destruct (update_sched_stats_exact 0 demo (demo_sweepable None)) as (s' & Hu & _ & Hp).
  destruct (Hp 1%nat _ eq_refl) as (x' & Hx & Hw & _).
  exists s', x'. split_and!; [exact Hu|exact Hx|exact Hw].
Defined.
