(* ===== verification/Sleeplock.v ===== *)
(** * Sleeping locks: kernel/sleeplock.c *)

From S2P Require Import Prelude Riscv State Spinlock CString Kalloc Vm Printf Sched.

Section sleeplock.
Context `{Image, Device, Patience}.

Definition get_sl (lk : sleeplock_id) : M sleeplock := λ s, of_option (k_sleeplocks s !! lk) s.
Definition upd_sl (lk : sleeplock_id) (f : sleeplock → sleeplock) : M unit :=
  x ← get_sl lk; modify (λ s, s <| k_sleeplocks ::= λ m, <[lk := f x]> m |>).

Definition initsleeplock (lk : sleeplock_id) (name : string) : M unit :=
  initlock (L_sleep lk) "sleep lock";;
  modify (λ s, s <| k_sleeplocks ::= λ m, <[lk := Sleeplock 0 name 0]> m |>).

Definition acquiresleep (lk : sleeplock_id) : M unit :=
  acquire (L_sleep lk);;
  while_ (S patience)
    (λ _ : unit,
      x ← get_sl lk;
      if truth (sl_locked x) then sleep (Ch_sleeplock lk) (L_sleep lk);; mret (inl tt)
      else mret (inr tt)) tt;;
  upd_sl lk (λ x, x <| sl_locked := 1 |>);;
  p ← curproc;
  y ← get_proc p;
  upd_sl lk (λ x, x <| sl_pid := p_pid y |>);;
  release (L_sleep lk).

Definition releasesleep (lk : sleeplock_id) : M unit :=
  acquire (L_sleep lk);;
  upd_sl lk (λ x, x <| sl_locked := 0 |>);;
  upd_sl lk (λ x, x <| sl_pid := 0 |>);;
  wakeup (Ch_sleeplock lk);;
  release (L_sleep lk).

Definition holdingsleep (lk : sleeplock_id) : M bool :=
  acquire (L_sleep lk);;
  x ← get_sl lk;
  r ← (if truth (sl_locked x) then
         p ← curproc; y ← get_proc p; mret (sl_pid x =? p_pid y)
       else mret false);
  release (L_sleep lk);;
  mret r.

End sleeplock.
