(* ===== verification/SleeplockSpec.v ===== *)
(** * Sleep lock theorems

    What the operations of kernel/sleeplock.c do when a process calls them:
    a free lock is taken at once, a taken one puts the caller to sleep until
    the holder's release, which wakes exactly the processes that wait for it. *)

From S2P Require Import Prelude Riscv State Boot Spinlock ProcTable Machine CString Kalloc Vm Printf Sched SchedSpec Sleeplock.

(** Process [p] runs and holds no spinlock; nobody holds the spinlock inside
    the sleep lock. *)
Record sl_user (lk : sleeplock_id) (p : nat) (y : proc) (s : kernel) : Prop := {
  su_hart : hart_at 0 (k_hw s);
  su_cur : cur_proc (k_hw s) = Some p;
  su_procs : proc_locks_free (k_hw s);
  su_lock : lock_free (L_sleep lk) (k_hw s);
  su_len : length (k_procs s) = NPROC;
  su_proc : k_procs s !! p = Some y
}.

(** The lock when process [pid] holds it, and when nobody does. *)
Definition sl_taken (pid : Z) (k : sleeplock) : sleeplock := k <| sl_locked := 1 |> <| sl_pid := pid |>.
Definition sl_free (k : sleeplock) : sleeplock := k <| sl_locked := 0 |> <| sl_pid := 0 |>.

Lemma cur_proc_set_ie b h : cur_proc (set_ie b h) = cur_proc h.
Proof.
  unfold cur_proc. change (cur (set_ie b h)) with (cur h). unfold set_ie. ksimpl.
  rewrite list_lookup_alter_eq. by destruct (h_cpus h !! cur h).
Qed.

(** Writing the lock twice. *)
Lemma sl_twice s lk k1 k2 :
  s <| k_sleeplocks ::= <[lk := k1]> |> <| k_sleeplocks ::= <[lk := k2]> |> = s <| k_sleeplocks ::= <[lk := k2]> |>.
Proof. destruct s. cbv [set set_k_sleeplocks]. ksimpl. f_equal. apply insert_insert_eq. Qed.

Section ops.
Context `{Image, Device, Patience}.

Lemma get_sl_run s lk k : k_sleeplocks s !! lk = Some k → get_sl lk s = Ret k s.
Proof. intros Hk. unfold get_sl. by rewrite Hk. Qed.

Lemma upd_sl_run s lk k f :
  k_sleeplocks s !! lk = Some k → upd_sl lk f s = Ret tt (s <| k_sleeplocks ::= <[lk := f k]> |>).
Proof. intros Hk. unfold upd_sl. by mrun_with (get_sl_run s lk k Hk). Qed.

(** The end of [acquiresleep], from the moment the lock is seen free; [h] is
    the hart before the spinlock was taken. *)
Lemma take_run lk p y k h s :
  hart_at 0 h → lock_free (L_sleep lk) h → cur_proc h = Some p → k_hw s = acq (L_sleep lk) h →
  k_procs s !! p = Some y → k_sleeplocks s !! lk = Some k →
  (upd_sl lk (λ x, x <| sl_locked := 1 |>);;
   p ← curproc; y ← get_proc p; upd_sl lk (λ x, x <| sl_pid := p_pid y |>);; release (L_sleep lk)) s =
  Ret tt (s <| k_sleeplocks ::= <[lk := sl_taken (p_pid y) k]> |> <| k_hw := h |>).
Proof.
  intros Hh Hl Hc Hs Hy Hk. mrun_with (upd_sl_run s lk k _ Hk).
  mrun_with (curproc_run 1 _ p); [| |ksimpl; by rewrite Hs, cur_proc_acq].
  2:{ ksimpl. rewrite Hs. by apply (hart_at_acq 0). }
  mrun_with (get_proc_run _ p y); [|exact Hy].
  mrun_with upd_sl_run; [|ksimpl; apply lookup_insert_eq].
  mrun_with (release_run 0 (L_sleep lk) h); [|done|done|done].
  by rewrite sl_twice.
Qed.

Lemma acquiresleep_free lk p y k s :
  sl_user lk p y s → k_sleeplocks s !! lk = Some k → sl_locked k = 0 →
  acquiresleep lk s = Ret tt (s <| k_sleeplocks ::= <[lk := sl_taken (p_pid y) k]> |>).
Proof.
  intros [Hh Hc Hp Hl Hlen Hy] Hk Hz. unfold acquiresleep. mrun_with (acquire_run 0 _ s Hh Hl).
  set (t := s <| k_hw := acq (L_sleep lk) (k_hw s) |>). cbn [while_]. mrun_with (get_sl_run t lk k Hk). rewrite Hz. cbn [truth negb Z.eqb]. mrun.
  pose proof (take_run lk p y k (k_hw s) t Hh Hl Hc eq_refl Hy Hk) as E.
  by rewrite <- bind_run, E.
Qed.

Lemma acquiresleep_busy lk p y k s :
  sl_user lk p y s → k_sleeplocks s !! lk = Some k → sl_locked k ≠ 0 →
  ∃ c, acquiresleep lk s =
      Switch To_scheduler
        (s <| k_hw := acq (L_proc p) (k_hw s) |>
           <| k_procs ::= alter (λ x, x <| p_chan := Ch_sleeplock lk |> <| p_state := SLEEPING |>) p |>) c ∧
    ∀ s' h' y' k', (0 < patience)%nat → hart_at 0 h' → cur_proc h' = Some p → lock_free (L_proc p) h' →
      lock_free (L_sleep lk) h' → k_hw s' = acq (L_proc p) h' →
      k_procs s' !! p = Some y' → k_sleeplocks s' !! lk = Some k' → sl_locked k' = 0 →
      c s' = Ret tt (s' <| k_hw := set_ie (ie (k_hw s)) h' |> <| k_procs ::= alter (λ x, x <| p_chan := Ch_null |>) p |>
                        <| k_sleeplocks ::= <[lk := sl_taken (p_pid y') k']> |>).
Proof.
  intros [Hh Hc Hp Hl Hlen Hy] Hk Hz. unfold acquiresleep. mrun_with (acquire_run 0 _ s Hh Hl).
  set (t := s <| k_hw := acq (L_sleep lk) (k_hw s) |>). cbn [while_]. mrun_with (get_sl_run t lk k Hk).
  assert (truth (sl_locked k) = true) as -> by (unfold truth; by destruct (Z.eqb_spec (sl_locked k) 0)). mrun.
  destruct (sleep_run p y (Ch_sleeplock lk) (L_sleep lk) (k_hw s) t)
    as (c & -> & Hres); try done.
  { apply Hp. rewrite <- Hlen. by eapply lookup_lt_Some. }
  mrun. eexists. split; [done|].
  intros s' h' y' k' Hpat Hh' Hc' Hlp' Hl' Hs' Hy' Hk' Hz'. cbn beta.
  rewrite (Hres s' h' y' Hh' Hlp' Hl' Hs' Hy'). mrun.
  set (h2 := set_ie (ie (k_hw s)) h'). set (t' := s' <| k_hw := acq (L_sleep lk) h2 |> <| k_procs ::= _ |>).
  destruct patience as [|n]; [lia|]. cbn [while_]. mrun_with (get_sl_run t' lk k' Hk').
  rewrite Hz'. cbn [truth negb Z.eqb]. mrun.
  pose proof (take_run lk p (y' <| p_chan := Ch_null |>) k' h2 t') as E. rewrite <- bind_run, E; try done.
  - by apply hart_at_set_ie.
  - unfold h2. by rewrite cur_proc_set_ie.
  - unfold t'. ksimpl. by rewrite list_lookup_alter_eq, Hy'.
Qed.

Lemma releasesleep_run lk p y k s :
  sl_user lk p y s → k_sleeplocks s !! lk = Some k →
  releasesleep lk s =
    Ret tt (s <| k_sleeplocks ::= <[lk := sl_free k]> |> <| k_procs ::= imap (woken (Some p) (Ch_sleeplock lk)) |>).
Proof.
  intros [Hh Hc Hp Hl Hlen Hy] Hk. unfold releasesleep. mrun_with (acquire_run 0 _ s Hh Hl).
  set (t := s <| k_hw := acq (L_sleep lk) (k_hw s) |>). mrun_with (upd_sl_run t lk k _ Hk).
  mrun_with upd_sl_run; [|ksimpl; apply lookup_insert_eq].
  mrun_with (wakeup_run 1).
  2:{ split; ksimpl; [by apply (hart_at_acq 0)| |done]. intros i Hi. apply lock_free_acq; [done|]. by apply Hp. }
  mrun_with (release_run 0 (L_sleep lk) (k_hw s)); [|done|done|done]. unfold t. ksimpl.
  rewrite cur_proc_acq, Hc. by rewrite sl_twice.
Qed.

Lemma holdingsleep_run lk p y k s :
  sl_user lk p y s → k_sleeplocks s !! lk = Some k →
  holdingsleep lk s = Ret (truth (sl_locked k) && (sl_pid k =? p_pid y)) s.
Proof.
  intros [Hh Hc Hp Hl Hlen Hy] Hk. unfold holdingsleep. mrun_with (acquire_run 0 _ s Hh Hl).
  set (t := s <| k_hw := acq (L_sleep lk) (k_hw s) |>). mrun_with (get_sl_run t lk k Hk).
  assert (Ht : (if truth (sl_locked k) then p ← curproc; y ← get_proc p; mret (sl_pid k =? p_pid y) else mret false) t =
    Ret (truth (sl_locked k) && (sl_pid k =? p_pid y)) t).
  { destruct (truth (sl_locked k)); [|done]. mrun_with (curproc_run 1 t p); [by mrun_with (get_proc_run t p y Hy)| |].
    - by apply (hart_at_acq 0).
    - unfold t. ksimpl. by rewrite cur_proc_acq. }
  rewrite Ht. mrun_with (release_run 0 (L_sleep lk) (k_hw s)); [|done|done|done]. f_equal. by destruct s.
Qed.

(** a sleep lock as a process sees it.  [acquiresleep] takes a free lock
    for the caller's pid; on a taken lock the caller is left SLEEPING on the
    lock with no spinlock but its own, and when it is resumed and finds the lock
    free it owns it.  [releasesleep] frees the lock and makes exactly the
    processes sleeping on it RUNNABLE, and [holdingsleep] is true exactly when
    the caller is the owner. *)
Theorem sleeplock_spec lk p y k s :
  sl_user lk p y s → k_sleeplocks s !! lk = Some k →
  (sl_locked k = 0 →
     acquiresleep lk s = Ret tt (s <| k_sleeplocks ::= <[lk := sl_taken (p_pid y) k]> |>)) ∧
  (sl_locked k ≠ 0 →
     ∃ c, acquiresleep lk s =
         Switch To_scheduler
           (s <| k_hw := acq (L_proc p) (k_hw s) |>
              <| k_procs ::= alter (λ x, x <| p_chan := Ch_sleeplock lk |> <| p_state := SLEEPING |>) p |>) c ∧
       ∀ s' h' y' k', (0 < patience)%nat → hart_at 0 h' → cur_proc h' = Some p → lock_free (L_proc p) h' →
         lock_free (L_sleep lk) h' → k_hw s' = acq (L_proc p) h' →
         k_procs s' !! p = Some y' → k_sleeplocks s' !! lk = Some k' → sl_locked k' = 0 →
         c s' = Ret tt (s' <| k_hw := set_ie (ie (k_hw s)) h' |>
                           <| k_procs ::= alter (λ x, x <| p_chan := Ch_null |>) p |>
                           <| k_sleeplocks ::= <[lk := sl_taken (p_pid y') k']> |>)) ∧
  releasesleep lk s =
    Ret tt (s <| k_sleeplocks ::= <[lk := sl_free k]> |> <| k_procs ::= imap (woken (Some p) (Ch_sleeplock lk)) |>) ∧
  holdingsleep lk s = Ret (truth (sl_locked k) && (sl_pid k =? p_pid y)) s.
Proof.
  intros Hu Hk. split_and!.
  - exact (acquiresleep_free lk p y k s Hu Hk).
  - exact (acquiresleep_busy lk p y k s Hu Hk).
  - exact (releasesleep_run lk p y k s Hu Hk).
  - exact (holdingsleep_run lk p y k s Hu Hk).
Qed.

End ops.

(** ** Evaluation on the concrete machine *)

#[local] Existing Instance demo_image.
#[local] Existing Instance demo_device.
#[local] Instance demo_patience : Patience := {| patience := 1 |}.

(** Process 3 runs, and the sleep locks of the buffers and inodes are initialised. *)
Definition demo_sl_hart : hart :=
  demo_hart (Some 3%nat) <| h_locks ::=
    λ m, list_to_map ((λ i, (L_sleep (SL_buf i), Spinlock 0 "sleep lock" None)) <$> seq 0 NBUF) ∪
         list_to_map ((λ i, (L_sleep (SL_inode i), Spinlock 0 "sleep lock" None)) <$> seq 0 NINODE) ∪ m |>.
Definition demo_sl : kernel :=
  demo <| k_hw := demo_sl_hart |>
       <| k_sleeplocks := list_to_map ((λ i, (SL_buf i, Sleeplock 0 "buffer" 0)) <$> seq 0 NBUF) ∪
            list_to_map ((λ i, (SL_inode i, Sleeplock 0 "inode" 0)) <$> seq 0 NINODE) |>.

Lemma demo_sl_hart_at : hart_at 0 demo_sl_hart.
Proof. destruct (demo_hart_at (Some 3%nat)) as [H1 H2 H3 H4]. split; [exact H1|exact H2|exact H3|exact H4]. Qed.

Lemma demo_sl_free lk : is_free demo_sl_hart lk = true → lock_free lk demo_sl_hart.
Proof. apply is_free_lock_free. Qed.

Lemma demo_sl_proc_locks : proc_locks_free demo_sl_hart.
Proof.
  intros i Hi. apply demo_sl_free. revert i Hi.
  assert (Hall : forallb (λ i, is_free demo_sl_hart (L_proc i)) (seq 0 NPROC) = true) by (vm_compute; reflexivity).
  intros i Hi. rewrite forallb_forall in Hall. apply Hall, in_seq. lia.
Qed.

Lemma demo_sl_locks i : (i < NBUF)%nat →
  lock_free (L_sleep (SL_buf i)) demo_sl_hart ∧
  k_sleeplocks demo_sl !! SL_buf i = Some (Sleeplock 0 "buffer" 0).
Proof.
  intros Hi. split; [apply demo_sl_free|]; revert i Hi.
  - assert (Hall : forallb (λ i, is_free demo_sl_hart (L_sleep (SL_buf i))) (seq 0 NBUF) = true) by (vm_compute; reflexivity).
    intros i Hi. rewrite forallb_forall in Hall. apply Hall, in_seq. lia.
  - intros i Hi. do 30 (destruct i as [|i]; [vm_compute; reflexivity|]). exfalso. unfold NBUF in Hi. cbn in Hi. lia.
Qed.

Lemma demo_sl_inode_locks i : (i < NINODE)%nat → lock_free (L_sleep (SL_inode i)) demo_sl_hart.
Proof.
  intros Hi. apply demo_sl_free. revert i Hi.
  assert (Hall : forallb (λ i, is_free demo_sl_hart (L_sleep (SL_inode i))) (seq 0 NINODE) = true) by (vm_compute; reflexivity).
  intros i Hi. rewrite forallb_forall in Hall. apply Hall, in_seq. lia.
Qed.

Lemma demo_sl_user i : (i < NBUF)%nat → sl_user (SL_buf i) 3 (demo_proc RUNNING Ch_null 4) demo_sl.
Proof.
  intros Hi. split; [apply demo_sl_hart_at|vm_compute; reflexivity|apply demo_sl_proc_locks|exact (proj1 (demo_sl_locks i Hi))|vm_compute; reflexivity|vm_compute; reflexivity].
Qed.

Lemma sleeplock_spec_witness :
  ∃ s', acquiresleep (SL_buf 2) demo_sl = Ret tt s' ∧ k_sleeplocks s' !! SL_buf 2 = Some (Sleeplock 1 "buffer" 4).
Proof.
  destruct (sleeplock_spec (SL_buf 2) 3 (demo_proc RUNNING Ch_null 4) (Sleeplock 0 "buffer" 0) demo_sl) as (Ha & _).
  - exact (demo_sl_user 2 ltac:(vm_compute; lia)).
  - exact (proj2 (demo_sl_locks 2 ltac:(vm_compute; lia))).
  - eexists. split; [exact (Ha eq_refl)|]. cbn [set k_sleeplocks set_k_sleeplocks]. apply lookup_insert_eq.
Defined.
