(* ===== verification/FsDefs.v ===== *)
(** * On-disk format: kernel/fs.h, kernel/stat.h, kernel/fcntl.h

    Blocks are lists of bytes; the structures inside them are read and
    written through their little-endian encodings. *)

From S2P Require Import Prelude Riscv State.

Definition ROOTINO : Z := 1.
Definition BSIZE : Z := 1024.
Definition FSMAGIC : Z := 0x10203040.
Definition NDIRECT : Z := 12.
Definition NINDIRECT : Z := BSIZE / 4.
Definition MAXFILE : Z := NDIRECT + NINDIRECT.

(** [sizeof(struct dinode)] *)
Definition DINODE_SIZE : Z := 64.
Definition IPB : Z := BSIZE / DINODE_SIZE.
Definition IBLOCK (i : Z) (sb : superblock) : Z := u32 (i / IPB + sb_inodestart sb).
Definition BPB : Z := BSIZE * 8.
Definition BBLOCK (b : Z) (sb : superblock) : Z := u32 (b / BPB + sb_bmapstart sb).

Definition DIRSIZ : Z := 14.
(** [sizeof(struct dirent)] *)
Definition DIRENT_SIZE : Z := 16.

Definition T_DIR : Z := 1.
Definition T_FILE : Z := 2.
Definition T_DEVICE : Z := 3.

Definition O_RDONLY : Z := 0x000.
Definition O_WRONLY : Z := 0x001.
Definition O_RDWR : Z := 0x002.
Definition O_CREATE : Z := 0x200.
Definition O_TRUNC : Z := 0x400.

(** Reading and writing an [n]-byte integer at a byte offset of a block. *)
Definition rd_le (n : nat) (off : Z) (data : list Z) : Z := le_val (slice (Z.to_nat off) n data).
Definition wr_le (n : nat) (off v : Z) (data : list Z) : list Z :=
  splice (Z.to_nat off) (le_bytes n v) data.

(** [struct dinode]. *)
Record dinode := Dinode {
  di_type : Z; di_major : Z; di_minor : Z; di_nlink : Z; di_size : Z; di_addrs : list Z
}.

(** The [k]-th dinode of a block. *)
Definition dinode_get (k : Z) (data : list Z) : dinode :=
  let o := DINODE_SIZE * k in
  Dinode (i16 (rd_le 2 o data)) (i16 (rd_le 2 (o + 2) data)) (i16 (rd_le 2 (o + 4) data))
         (i16 (rd_le 2 (o + 6) data)) (rd_le 4 (o + 8) data)
         ((λ i, rd_le 4 (o + 12 + 4 * Z.of_nat i) data) <$> seq 0 13).

Definition dinode_bytes (d : dinode) : list Z :=
  le_bytes 2 (di_type d) ++ le_bytes 2 (di_major d) ++ le_bytes 2 (di_minor d) ++
  le_bytes 2 (di_nlink d) ++ le_bytes 4 (di_size d) ++ (di_addrs d ≫= le_bytes 4).

Definition dinode_put (k : Z) (d : dinode) (data : list Z) : list Z :=
  splice (Z.to_nat (DINODE_SIZE * k)) (dinode_bytes d) data.

(** [struct superblock] as [memmove] reads it from block 1. *)
Definition superblock_get (data : list Z) : superblock :=
  Superblock (rd_le 4 0 data) (rd_le 4 4 data) (rd_le 4 8 data) (rd_le 4 12 data)
             (rd_le 4 16 data) (rd_le 4 20 data) (rd_le 4 24 data) (rd_le 4 28 data).

#[global] Arguments BSIZE : simpl never.
#[global] Arguments NINDIRECT : simpl never.
#[global] Arguments MAXFILE : simpl never.
#[global] Arguments IPB : simpl never.
#[global] Arguments BPB : simpl never.
#[global] Arguments IBLOCK : simpl never.
#[global] Arguments BBLOCK : simpl never.
#[global] Arguments rd_le : simpl never.
#[global] Arguments wr_le : simpl never.
