(* ===== verification/Virtio.v ===== *)
(** * Disk driver: kernel/virtio_disk.c

    The device itself is not part of the sources.  The driver's half is here:
    it fills descriptors, rings the doorbell and sleeps until its interrupt
    handler has seen the request in the used ring. *)

From S2P Require Import Prelude Riscv State Spinlock CString Kalloc Vm Printf Sched FsDefs.

Section virtio.
Context `{Image, Device, Patience}.

Definition NUM : nat := 8.
Definition VRING_DESC_F_NEXT : Z := 1.
Definition VRING_DESC_F_WRITE : Z := 2.
Definition VIRTIO_BLK_T_IN : Z := 0.
Definition VIRTIO_BLK_T_OUT : Z := 1.

(** ** Buffers of the block cache, which the driver fills *)

Definition get_buf (i : nat) : M buf := λ s, of_option (k_bcache s !! i) s.
Definition upd_buf (i : nat) (f : buf → buf) : M unit :=
  b ← get_buf i; modify (λ s, s <| k_bcache ::= λ l, <[i := f b]> l |>).

Definition get_disk : M vdisk := gets k_vdisk.
Definition upd_disk (f : vdisk → vdisk) : M unit := modify (λ s, s <| k_vdisk ::= f |>).

(** [*R(r)] *)
Definition virtio_read (r : Z) : M Z := v ← mmio_read (VIRTIO0 + r); mret (u32 v).
Definition virtio_write (r v : Z) : M unit := mmio_write (VIRTIO0 + r) (u32 v).

Definition VIRTIO_MMIO_MAGIC_VALUE : Z := 0x000.
Definition VIRTIO_MMIO_VERSION : Z := 0x004.
Definition VIRTIO_MMIO_DEVICE_ID : Z := 0x008.
Definition VIRTIO_MMIO_VENDOR_ID : Z := 0x00c.
Definition VIRTIO_MMIO_DEVICE_FEATURES : Z := 0x010.
Definition VIRTIO_MMIO_DRIVER_FEATURES : Z := 0x020.
Definition VIRTIO_MMIO_QUEUE_SEL : Z := 0x030.
Definition VIRTIO_MMIO_QUEUE_NUM_MAX : Z := 0x034.
Definition VIRTIO_MMIO_QUEUE_NUM : Z := 0x038.
Definition VIRTIO_MMIO_QUEUE_READY : Z := 0x044.
Definition VIRTIO_MMIO_QUEUE_NOTIFY : Z := 0x050.
Definition VIRTIO_MMIO_INTERRUPT_STATUS : Z := 0x060.
Definition VIRTIO_MMIO_INTERRUPT_ACK : Z := 0x064.
Definition VIRTIO_MMIO_STATUS : Z := 0x070.

Definition zero_desc : virtq_desc := Virtq_desc A_null 0 0 0.
Definition feature_off (features bit : Z) : Z := Z.land features (u64 (Z.lnot (Z.shiftl 1 bit))).

Definition virtio_disk_init : M unit :=
  initlock L_vdisk "virtio_disk";;
  magic ← virtio_read VIRTIO_MMIO_MAGIC_VALUE;
  if negb (magic =? 0x74726976) then panic "could not find virtio disk" else
  version ← virtio_read VIRTIO_MMIO_VERSION;
  if negb (version =? 2) then panic "could not find virtio disk" else
  device ← virtio_read VIRTIO_MMIO_DEVICE_ID;
  if negb (device =? 2) then panic "could not find virtio disk" else
  vendor ← virtio_read VIRTIO_MMIO_VENDOR_ID;
  if negb (vendor =? 0x554d4551) then panic "could not find virtio disk" else
  virtio_write VIRTIO_MMIO_STATUS 0;;
  virtio_write VIRTIO_MMIO_STATUS 1;;
  virtio_write VIRTIO_MMIO_STATUS 3;;
  features ← virtio_read VIRTIO_MMIO_DEVICE_FEATURES;
  virtio_write VIRTIO_MMIO_DRIVER_FEATURES (foldl feature_off features [5; 7; 11; 12; 27; 29; 28]);;
  virtio_write VIRTIO_MMIO_STATUS 11;;
  status ← virtio_read VIRTIO_MMIO_STATUS;
  if Z.land status 8 =? 0 then panic "virtio disk FEATURES_OK unset" else
  virtio_write VIRTIO_MMIO_QUEUE_SEL 0;;
  ready ← virtio_read VIRTIO_MMIO_QUEUE_READY;
  if truth ready then panic "virtio disk should not be ready" else
  max ← virtio_read VIRTIO_MMIO_QUEUE_NUM_MAX;
  if max =? 0 then panic "virtio disk has no queue 0" else
  if max <? Z.of_nat NUM then panic "virtio disk max queue too short" else
  desc ← kalloc;
  upd_disk (λ d, d <| vk_desc_pa := desc |>);;
  avail ← kalloc;
  upd_disk (λ d, d <| vk_avail_pa := avail |>);;
  used ← kalloc;
  upd_disk (λ d, d <| vk_used_pa := used |>);;
  if (desc =? 0) || (avail =? 0) || (used =? 0) then panic "virtio disk kalloc" else
  do_memset desc 0 PGSIZE;;
  do_memset avail 0 PGSIZE;;
  do_memset used 0 PGSIZE;;
  upd_disk (λ d, d <| vk_desc := replicate NUM zero_desc |>
                   <| vk_avail_idx := 0 |> <| vk_avail_ring := replicate NUM 0 |>
                   <| vk_used_dev_idx := 0 |> <| vk_used_ring := replicate NUM 0 |>);;
  virtio_write VIRTIO_MMIO_QUEUE_NUM (Z.of_nat NUM);;
  virtio_write 0x080 desc;;
  virtio_write 0x084 (Z.shiftr desc 32);;
  virtio_write 0x090 avail;;
  virtio_write 0x094 (Z.shiftr avail 32);;
  virtio_write 0x0a0 used;;
  virtio_write 0x0a4 (Z.shiftr used 32);;
  virtio_write VIRTIO_MMIO_QUEUE_READY 1;;
  upd_disk (λ d, d <| vk_free := replicate NUM 1 |>);;
  virtio_write VIRTIO_MMIO_STATUS (Z.lor status 4).

(** ** Descriptors *)

Definition alloc_desc : M Z :=
  r ← for_ret (seq 0 NUM) (λ i,
    d ← get_disk;
    if truth (default 0 (vk_free d !! i)) then
      upd_disk (λ d, d <| vk_free ::= λ l, <[i := 0]> l |>);;
      mret (Some (Z.of_nat i))
    else mret None);
  mret (default (-1) r).

Definition free_desc (i : Z) : M unit :=
  if Z.of_nat NUM <=? i then panic "free_desc 1" else
  d ← get_disk;
  f ← of_option (vk_free d !! Z.to_nat i);
  if truth f then panic "free_desc 2" else
  upd_disk (λ d, d <| vk_desc ::= λ l, <[Z.to_nat i := zero_desc]> l |>);;
  upd_disk (λ d, d <| vk_free ::= λ l, <[Z.to_nat i := 1]> l |>);;
  wakeup Ch_disk_free.

(** A chain has at most [NUM] descriptors. *)
Definition free_chain (i : Z) : M unit :=
  while_ NUM
    (λ i,
      d ← get_disk;
      x ← of_option (vk_desc d !! Z.to_nat i);
      let flag := vd_flags x in
      let nxt := vd_next x in
      free_desc i;;
      if truth (Z.land flag VRING_DESC_F_NEXT) then mret (inl nxt) else mret (inr tt)) i.

(** [alloc3_desc(idx)]: the three indices, or [None] for -1. *)
Definition alloc3_desc : M (option (Z * Z * Z)) :=
  i0 ← alloc_desc;
  if i0 <? 0 then mret None else
  i1 ← alloc_desc;
  if i1 <? 0 then free_desc i0;; mret None else
  i2 ← alloc_desc;
  if i2 <? 0 then free_desc i0;; free_desc i1;; mret None else
  mret (Some (i0, i1, i2)).

Definition set_desc (i : Z) (x : virtq_desc) : M unit :=
  upd_disk (λ d, d <| vk_desc ::= λ l, <[Z.to_nat i := x]> l |>).

Definition virtio_disk_rw (b : nat) (write : bool) : M unit :=
  x ← get_buf b;
  let sector := u32 (b_blockno x * (BSIZE / 512)) in
  acquire L_vdisk;;
  idx ← while_ (S patience)
    (λ _ : unit,
      r ← alloc3_desc;
      match r with
      | Some idx => mret (inr idx)
      | None => sleep Ch_disk_free L_vdisk;; mret (inl tt)
      end) tt;
  let '(i0, i1, i2) := idx in
  let n0 := Z.to_nat i0 in
  upd_disk (λ d, d <| vk_ops ::= λ l,
    <[n0 := Blk_req (if write then VIRTIO_BLK_T_OUT else VIRTIO_BLK_T_IN) 0 sector]> l |>);;
  set_desc i0 (Virtq_desc (A_ops n0) 16 VRING_DESC_F_NEXT i1);;
  set_desc i1 (Virtq_desc (A_bufdata b) BSIZE
    (Z.lor (if write then 0 else VRING_DESC_F_WRITE) VRING_DESC_F_NEXT) i2);;
  upd_disk (λ d, d <| vk_info_status ::= λ l, <[n0 := 0xff]> l |>);;
  set_desc i2 (Virtq_desc (A_status n0) 1 VRING_DESC_F_WRITE 0);;
  upd_buf b (λ x, x <| b_disk := 1 |>);;
  upd_disk (λ d, d <| vk_info_b ::= λ l, <[n0 := Some b]> l |>);;
  d ← get_disk;
  let slot := Z.to_nat (vk_avail_idx d mod Z.of_nat NUM) in
  upd_disk (λ d, d <| vk_avail_ring ::= λ l, <[slot := i0]> l |>);;
  upd_disk (λ d, d <| vk_avail_idx ::= λ n, u16 (n + 1) |>);;
  virtio_write VIRTIO_MMIO_QUEUE_NOTIFY 0;;
  while_ (S patience)
    (λ _ : unit,
      x ← get_buf b;
      if b_disk x =? 1 then sleep (Ch_buf b) L_vdisk;; mret (inl tt) else mret (inr tt)) tt;;
  upd_disk (λ d, d <| vk_info_b ::= λ l, <[n0 := None]> l |>);;
  free_chain i0;;
  release L_vdisk.

(** The handler follows the used ring up to the device's index. *)
Definition virtio_disk_intr : M unit :=
  acquire L_vdisk;;
  st ← virtio_read VIRTIO_MMIO_INTERRUPT_STATUS;
  virtio_write VIRTIO_MMIO_INTERRUPT_ACK (Z.land st 0x3);;
  d ← get_disk;
  while_ (S (Z.to_nat (u16 (vk_used_dev_idx d - vk_used_idx d))))
    (λ _ : unit,
      d ← get_disk;
      if vk_used_idx d =? vk_used_dev_idx d then mret (inr tt) else
      id ← of_option (vk_used_ring d !! Z.to_nat (vk_used_idx d mod Z.of_nat NUM));
      status ← of_option (vk_info_status d !! Z.to_nat id);
      if truth status then panic "virtio_disk_intr status" else
      o ← of_option (vk_info_b d !! Z.to_nat id);
      b ← of_option o;
      upd_buf b (λ x, x <| b_disk := 0 |>);;
      wakeup (Ch_buf b);;
      upd_disk (λ d, d <| vk_used_idx ::= λ n, u16 (n + 1) |>);;
      mret (inl tt)) tt;;
  release L_vdisk.

End virtio.
