(* ===== verification/Bio.v ===== *)
(** * Buffer cache: kernel/bio.c

    [k_bcache] holds the [NBUF] buffers and, at index [NBUF], the list head
    [bcache.head]; [b_prev] and [b_next] are the links of the LRU list. *)

From S2P Require Import Prelude Riscv State Spinlock CString Kalloc Vm Printf Sched Sleeplock FsDefs Virtio.

Section bio.
Context `{Image, Device, Patience}.

Definition head_buf : nat := NBUF.

(** The four assignments that put [b] in front of the list. *)
Definition link_front (b : nat) : M unit :=
  h ← get_buf head_buf;
  upd_buf b (λ x, x <| b_next := b_next h |>);;
  upd_buf b (λ x, x <| b_prev := head_buf |>);;
  h ← get_buf head_buf;
  upd_buf (b_next h) (λ x, x <| b_prev := b |>);;
  upd_buf head_buf (λ x, x <| b_next := b |>).

Definition binit : M unit :=
  initlock L_bcache "bcache";;
  upd_buf head_buf (λ x, x <| b_prev := head_buf |>);;
  upd_buf head_buf (λ x, x <| b_next := head_buf |>);;
  for_each (seq 0 NBUF) (λ b,
    h ← get_buf head_buf;
    upd_buf b (λ x, x <| b_next := b_next h |>);;
    upd_buf b (λ x, x <| b_prev := head_buf |>);;
    initsleeplock (SL_buf b) "buffer";;
    h ← get_buf head_buf;
    upd_buf (b_next h) (λ x, x <| b_prev := b |>);;
    upd_buf head_buf (λ x, x <| b_next := b |>)).

(** Following the links from the head back to the head visits at most [NBUF]
    buffers. *)
Definition bget (dev blockno : Z) : M nat :=
  acquire L_bcache;;
  h ← get_buf head_buf;
  r ← while_ (S NBUF)
    (λ b,
      if bool_decide (b = head_buf) then mret (inr None) else
      x ← get_buf b;
      if (b_dev x =? dev) && (b_blockno x =? blockno) then
        upd_buf b (λ x, x <| b_refcnt ::= λ n, u32 (n + 1) |>);;
        release L_bcache;;
        acquiresleep (SL_buf b);;
        mret (inr (Some b))
      else mret (inl (b_next x))) (b_next h);
  match r with
  | Some b => mret b
  | None =>
      h ← get_buf head_buf;
      while_ (S NBUF)
        (λ b,
          if bool_decide (b = head_buf) then panic "bget: no buffers" else
          x ← get_buf b;
          if b_refcnt x =? 0 then
            upd_buf b (λ x, x <| b_dev := dev |>);;
            upd_buf b (λ x, x <| b_blockno := blockno |>);;
            upd_buf b (λ x, x <| b_valid := 0 |>);;
            upd_buf b (λ x, x <| b_refcnt := 1 |>);;
            release L_bcache;;
            acquiresleep (SL_buf b);;
            mret (inr b)
          else mret (inl (b_prev x))) (b_prev h)
  end.

Definition bread (dev blockno : Z) : M nat :=
  b ← bget dev blockno;
  x ← get_buf b;
  when (b_valid x =? 0)
    (virtio_disk_rw b false;; upd_buf b (λ x, x <| b_valid := 1 |>));;
  mret b.

Definition bwrite (b : nat) : M unit :=
  h ← holdingsleep (SL_buf b);
  if negb h then panic "bwrite" else virtio_disk_rw b true.

Definition brelse (b : nat) : M unit :=
  h ← holdingsleep (SL_buf b);
  if negb h then panic "brelse" else
  releasesleep (SL_buf b);;
  acquire L_bcache;;
  upd_buf b (λ x, x <| b_refcnt ::= λ n, u32 (n - 1) |>);;
  x ← get_buf b;
  when (b_refcnt x =? 0)
    (upd_buf (b_next x) (λ y, y <| b_prev := b_prev x |>);;
     x ← get_buf b;
     upd_buf (b_prev x) (λ y, y <| b_next := b_next x |>);;
     link_front b);;
  release L_bcache.

Definition bpin (b : nat) : M unit :=
  acquire L_bcache;;
  upd_buf b (λ x, x <| b_refcnt ::= λ n, u32 (n + 1) |>);;
  release L_bcache.

Definition bunpin (b : nat) : M unit :=
  acquire L_bcache;;
  upd_buf b (λ x, x <| b_refcnt ::= λ n, u32 (n - 1) |>);;
  release L_bcache.

(** Reading and changing the contents of a buffer. *)
Definition get_data (b : nat) : M (list Z) := x ← get_buf b; mret (b_data x).
Definition upd_data (b : nat) (f : list Z → list Z) : M unit :=
  upd_buf b (λ x, x <| b_data ::= f |>).

End bio.
