(* ===== verification/BioSpec.v ===== *)
(** * Buffer cache theorems: an LRU cache with one buffer per block

    The links [b_prev] and [b_next] hold a list of all buffers, most recently
    released first.  [bget] finds the buffer of a block or recycles the least
    recently used free one, [brelse] moves a buffer nobody uses to the front,
    and no two buffers ever cache the same block. *)

From S2P Require Import Prelude Riscv State Boot Spinlock ProcTable Machine CString Kalloc Vm Printf Sched SchedSpec Sleeplock SleeplockSpec FsDefs Virtio Bio.

(** ** Doubly linked segments

    [seg n p x l z]: following [n] from [x] visits [l] and then reaches [z],
    and [p] leads back. *)

Fixpoint seg (n p : nat → nat) (x : nat) (l : list nat) (z : nat) : Prop :=
  match l with
  | [] => n x = z ∧ p z = x
  | y :: l => n x = y ∧ p y = x ∧ seg n p y l z
  end.

Lemma seg_ext n n' p p' x l z :
  (∀ y, y ∈ x :: l → n' y = n y) → (∀ y, y ∈ l ++ [z] → p' y = p y) → seg n p x l z → seg n' p' x l z.
Proof.
  revert x. induction l as [|y l IH]; intros x Hn Hp; cbn [seg app] in *.
  - intros [H1 H2]. rewrite Hn, Hp by set_solver. done.
  - intros (H1 & H2 & H3). rewrite Hn, Hp by set_solver. split_and!; [done|done|].
    apply IH; [|intros; apply Hp; set_solver|done]. intros a Ha. apply Hn. set_solver.
Qed.

Lemma seg_app n p x l1 y l2 z : seg n p x (l1 ++ y :: l2) z ↔ seg n p x l1 y ∧ seg n p y l2 z.
Proof.
  revert x. induction l1 as [|a l1 IH]; intros x; cbn [seg app]; [tauto|]. rewrite IH. tauto.
Qed.

Lemma seg_first n p x l z : seg n p x l z → n x ∈ l ++ [z].
Proof. destruct l as [|y l]; cbn [seg app]; [intros [-> _]|intros (-> & _)]; set_solver. Qed.

Lemma seg_last n p x l z : seg n p x l z → p z ∈ x :: l.
Proof.
  revert x. induction l as [|y l IH]; intros x; cbn [seg]; [intros [_ ->]; set_solver|].
  intros (_ & _ & H). apply IH in H. set_solver.
Qed.

(** Following [p] from the end. *)
Lemma seg_rev n p x l z : seg n p x l z → seg p n z (reverse l) x.
Proof.
  revert x. induction l as [|y l IH]; intros x; cbn [seg]; [by intros [? ?]|].
  intros (H1 & H2 & H3). rewrite reverse_cons. apply IH in H3. apply seg_app. by split.
Qed.

(** Taking a node out. *)
Lemma seg_remove n p w l1 b l2 z :
  NoDup (w :: l1 ++ b :: l2) → z ∉ l1 ++ b :: l2 → seg n p w (l1 ++ b :: l2) z →
  seg (<[p b := n b]> n) (<[n b := p b]> p) w (l1 ++ l2) z.
Proof.
  revert w. induction l1 as [|a l1 IH]; intros w Hnd Hz Hs; cbn [app seg] in *.
  - destruct Hs as (H1 & H2 & Hs). rewrite H2. destruct l2 as [|c l2]; cbn [seg] in *.
    + destruct Hs as [Hs1 Hs2]. rewrite Hs1. split; [apply fn_lookup_insert|]. rewrite fn_lookup_insert. done.
    + destruct Hs as (Hs1 & Hs2 & Hs). rewrite Hs1, !fn_lookup_insert. split_and!; [done|done|].
      apply list.NoDup_cons in Hnd as [Hw Hnd]. apply list.NoDup_cons in Hnd as [Hb Hnd].
      apply list.NoDup_cons in Hnd as [Hc _].
      apply (seg_ext n _ p); [| |done]; intros y Hy; rewrite fn_lookup_insert_ne; set_solver.
  - destruct Hs as (H1 & H2 & Hs). apply list.NoDup_cons in Hnd as [Hw Hnd].
    assert (Hs' := Hs). apply seg_app in Hs' as [Ha Hb]. apply seg_last in Ha. apply seg_first in Hb.
    pose proof Hnd as [Hna _]%list.NoDup_cons.
    assert (p b ≠ w).
    { intros E. apply Hw. rewrite <- E. rewrite !elem_of_cons, elem_of_app in *. tauto. }
    assert (n b ≠ a).
    { intros E. rewrite E, elem_of_app, list_elem_of_singleton in Hb. destruct Hb as [Hb|Hb].
      - apply Hna. rewrite elem_of_app, elem_of_cons. tauto.
      - apply Hz. rewrite Hb. apply elem_of_cons. by left. }
    rewrite !fn_lookup_insert_ne by done. split_and!; [done|done|]. apply IH; [done| |done].
    intros Hin. apply Hz. apply elem_of_cons. by right.
Qed.

(** Putting a node in front. *)
Lemma seg_push n p w b l z :
  NoDup (w :: l) → b ∉ w :: l → b ≠ z → z ∉ l → seg n p w l z →
  seg (<[w := b]> (<[b := n w]> n)) (<[n w := b]> (<[b := w]> p)) w (b :: l) z.
Proof.
  intros Hnd Hb Hbz Hz Hs. cbn [seg]. pose proof (seg_first _ _ _ _ _ Hs) as Hf.
  rewrite fn_lookup_insert. split; [done|]. rewrite fn_lookup_insert_ne by set_solver. rewrite fn_lookup_insert.
  split; [done|]. apply list.NoDup_cons in Hnd as [Hw Hnd]. destruct l as [|c l]; cbn [seg] in *.
  - destruct Hs as [H1 H2]. rewrite H1. rewrite fn_lookup_insert. split; [|done].
    rewrite fn_lookup_insert_ne by set_solver. by rewrite fn_lookup_insert.
  - destruct Hs as (H1 & H2 & Hs). rewrite H1, fn_lookup_insert. split_and!; [|done|].
    + rewrite fn_lookup_insert_ne by set_solver. by rewrite fn_lookup_insert.
    + apply list.NoDup_cons in Hnd as [Hc _].
      apply (seg_ext n _ p); [| |done]; intros y Hy; rewrite !fn_lookup_insert_ne; set_solver.
Qed.

(** ** The list of buffers *)

Definition nxt (B : list buf) (i : nat) : nat := from_option b_next 0%nat (B !! i).
Definition prv (B : list buf) (i : nat) : nat := from_option b_prev 0%nat (B !! i).

(** [l] is the list of all buffers, most recently released first. *)
Record lru (B : list buf) (l : list nat) : Prop := {
  lru_len : length B = S NBUF;
  lru_all : l ≡ₚ seq 0 NBUF;
  lru_links : seg (nxt B) (prv B) head_buf l head_buf
}.

Lemma lru_elem B l b : lru B l → b ∈ l ↔ (b < NBUF)%nat.
Proof. intros [_ Hp _]. rewrite Hp, elem_of_seq. lia. Qed.

Lemma lru_NoDup B l : lru B l → NoDup (head_buf :: l).
Proof.
  intros H. apply list.NoDup_cons. split; [rewrite (lru_elem B l _ H); unfold head_buf; lia|].
  rewrite (lru_all _ _ H). apply NoDup_seq.
Qed.

Lemma lru_lookup B l b : lru B l → (b ≤ NBUF)%nat → ∃ x, B !! b = Some x.
Proof. intros H Hb. apply lookup_lt_is_Some_2. rewrite (lru_len _ _ H). lia. Qed.

Lemma nxt_insert B i x j : (i < length B)%nat → nxt (<[i := x]> B) j = (<[i := b_next x]> (nxt B)) j.
Proof.
  intros Hi. unfold nxt. destruct (decide (i = j)) as [->|Hne].
  - by rewrite fn_lookup_insert, list_lookup_insert_eq.
  - by rewrite fn_lookup_insert_ne, list_lookup_insert_ne.
Qed.
Lemma prv_insert B i x j : (i < length B)%nat → prv (<[i := x]> B) j = (<[i := b_prev x]> (prv B)) j.
Proof.
  intros Hi. unfold prv. destruct (decide (i = j)) as [->|Hne].
  - by rewrite fn_lookup_insert, list_lookup_insert_eq.
  - by rewrite fn_lookup_insert_ne, list_lookup_insert_ne.
Qed.

(** Changes that leave the links alone. *)
Lemma lru_data B l i x y :
  lru B l → B !! i = Some x → b_next y = b_next x → b_prev y = b_prev x → lru (<[i := y]> B) l.
Proof.
  intros [Hlen Hp Hs] Hx Hn Hv. pose proof (lookup_lt_Some _ _ _ Hx) as Hi.
  split; [by rewrite length_insert|done|]. eapply seg_ext; [| |exact Hs]; intros j _.
  - rewrite nxt_insert by done. destruct (decide (i = j)) as [->|]; [|by rewrite fn_lookup_insert_ne].
    rewrite fn_lookup_insert, Hn. unfold nxt. by rewrite Hx.
  - rewrite prv_insert by done. destruct (decide (i = j)) as [->|]; [|by rewrite fn_lookup_insert_ne].
    rewrite fn_lookup_insert, Hv. unfold prv. by rewrite Hx.
Qed.

(** The unlinking and relinking of [brelse], as list updates. *)
Definition set_prev (i v : nat) (B : list buf) : list buf := alter (λ x, x <| b_prev := v |>) i B.
Definition set_next (i v : nat) (B : list buf) : list buf := alter (λ x, x <| b_next := v |>) i B.

Lemma nxt_set_next i v B j : (i < length B)%nat → nxt (set_next i v B) j = (<[i := v]> (nxt B)) j.
Proof.
  intros Hi. destruct (lookup_lt_is_Some_2 B i Hi) as [x Hx]. unfold set_next.
  rewrite <- (list_insert_alter _ _ _ _ Hx). by rewrite nxt_insert.
Qed.
Lemma prv_set_prev i v B j : (i < length B)%nat → prv (set_prev i v B) j = (<[i := v]> (prv B)) j.
Proof.
  intros Hi. destruct (lookup_lt_is_Some_2 B i Hi) as [x Hx]. unfold set_prev.
  rewrite <- (list_insert_alter _ _ _ _ Hx). by rewrite prv_insert.
Qed.
Lemma nxt_set_prev i v B j : nxt (set_prev i v B) j = nxt B j.
Proof.
  unfold nxt, set_prev. destruct (decide (i = j)) as [->|]; [|by rewrite list_lookup_alter_ne].
  rewrite list_lookup_alter_eq. by destruct (B !! j).
Qed.
Lemma prv_set_next i v B j : prv (set_next i v B) j = prv B j.
Proof.
  unfold prv, set_next. destruct (decide (i = j)) as [->|]; [|by rewrite list_lookup_alter_ne].
  rewrite list_lookup_alter_eq. by destruct (B !! j).
Qed.
Lemma length_set_prev i v B : length (set_prev i v B) = length B.
Proof. apply length_alter. Qed.
Lemma length_set_next i v B : length (set_next i v B) = length B.
Proof. apply length_alter. Qed.

Definition unlinked (b : nat) (B : list buf) : list buf :=
  set_next (prv B b) (nxt B b) (set_prev (nxt B b) (prv B b) B).
Definition linked_front (b : nat) (B : list buf) : list buf :=
  set_next head_buf b (set_prev (nxt B head_buf) b (set_prev b head_buf (set_next b (nxt B head_buf) B))).

Lemma fn_ins (f : nat → nat) i v j : (<[i := v]> f) j = if decide (i = j) then v else f j.
Proof. done. Qed.

Lemma seg_linked_front B l b :
  length B = S NBUF → (∀ x, x ∈ l → (x < NBUF)%nat) → NoDup l → (b < NBUF)%nat → b ∉ l →
  seg (nxt B) (prv B) head_buf l head_buf →
  seg (nxt (linked_front b B)) (prv (linked_front b B)) head_buf (b :: l) head_buf.
Proof.
  intros Hlen Hin Hnd Hb Hbl Hs. assert (Hh : head_buf ∉ l) by (intros Hx%Hin; unfold head_buf in Hx; lia).
  assert (Hbh : b ≠ head_buf) by (unfold head_buf; lia).
  assert (Hn : (nxt B head_buf < length B)%nat).
  { apply seg_first in Hs. rewrite elem_of_app, list_elem_of_singleton in Hs. rewrite Hlen.
    destruct Hs as [Hx%Hin| ->]; [lia|unfold head_buf; lia]. }
  eapply seg_ext; [| |apply (seg_push (nxt B) (prv B) _ b)]; [| |by apply list.NoDup_cons| |done|done|done].
  - intros y _. unfold linked_front.
    rewrite nxt_set_next by (rewrite !length_set_prev, length_set_next, Hlen; unfold head_buf; lia).
    rewrite !fn_ins. destruct (decide (head_buf = y)); [done|].
    by rewrite !nxt_set_prev, nxt_set_next, fn_ins by lia.
  - intros y _. unfold linked_front.
    rewrite prv_set_next, prv_set_prev by (rewrite length_set_prev, length_set_next; lia).
    rewrite !fn_ins. destruct (decide (nxt B head_buf = y)); [done|].
    rewrite prv_set_prev, fn_ins by (rewrite length_set_next; lia).
    destruct (decide (b = y)); [done|]. by rewrite prv_set_next.
  - rewrite elem_of_cons. tauto.
Qed.

Lemma length_unlinked b B : length (unlinked b B) = length B.
Proof. unfold unlinked. by rewrite length_set_next, length_set_prev. Qed.
Lemma length_linked_front b B : length (linked_front b B) = length B.
Proof. unfold linked_front. by rewrite length_set_next, !length_set_prev, length_set_next. Qed.

(** The links of the nodes of the list stay inside the array. *)
Lemma lru_links_in B l b : lru B l → (b ≤ NBUF)%nat → (nxt B b < length B)%nat ∧ (prv B b < length B)%nat.
Proof.
  intros Hl Hb. pose proof (lru_links _ _ Hl) as Hs. rewrite (lru_len _ _ Hl).
  assert (Hin : ∀ x, x = head_buf ∨ x ∈ l → (x < S NBUF)%nat).
  { intros x [->|Hx]; [unfold head_buf; lia|]. apply (lru_elem _ _ _ Hl) in Hx. lia. }
  destruct (decide (b = NBUF)) as [->|Hne].
  - apply seg_first in Hs as Hf. apply seg_last in Hs. change NBUF with head_buf in *.
    rewrite elem_of_app, list_elem_of_singleton in Hf. rewrite elem_of_cons in Hs. split; apply Hin; tauto.
  - assert (Hbl : b ∈ l) by (apply (lru_elem _ _ _ Hl); lia).
    apply list_elem_of_split in Hbl as (l1 & l2 & ->). apply seg_app in Hs as [H2 H3].
    apply seg_last in H2. apply seg_first in H3. rewrite elem_of_app, list_elem_of_singleton in H3.
    rewrite elem_of_cons in H2. split; apply Hin; rewrite elem_of_app, elem_of_cons; tauto.
Qed.

Lemma lru_relink B l1 b l2 :
  lru B (l1 ++ b :: l2) → lru (linked_front b (unlinked b B)) (b :: l1 ++ l2).
Proof.
  intros H. pose proof (lru_NoDup _ _ H) as Hnd. pose proof H as [Hlen Hp Hs].
  pose proof Hnd as [Hh Hnd0]%list.NoDup_cons. rewrite <- Permutation_middle in Hnd0.
  apply list.NoDup_cons in Hnd0 as [Hb1 Hnd1].
  assert (Hb : (b < NBUF)%nat) by (apply (lru_elem _ _ _ H); rewrite elem_of_app, elem_of_cons; auto).
  destruct (lru_links_in B _ b H) as [Hnb Hpb]; [lia|]. split.
  - by rewrite length_linked_front, length_unlinked.
  - rewrite <- Hp. apply Permutation_middle.
  - apply seg_linked_front; try done; [by rewrite length_unlinked| |].
    + intros x Hx. apply (lru_elem _ _ _ H). rewrite elem_of_app, elem_of_cons. rewrite elem_of_app in Hx. tauto.
    + eapply seg_ext; [| |exact (seg_remove _ _ _ _ _ _ _ Hnd Hh Hs)]; intros y _; unfold unlinked.
      * rewrite nxt_set_next, !fn_ins by (by rewrite length_set_prev). by rewrite nxt_set_prev.
      * by rewrite prv_set_next, prv_set_prev by done.
Qed.

(** ** The invariant *)

(** [l] is the recency order of the buffers [B], whose sleep locks are in [L]:
    counts are 32-bit, only a buffer somebody references is locked, and no
    block of a device is in two buffers ([dev] is 0 only in a buffer that was
    never used). *)
Record cache_wf (l : list nat) (B : list buf) (L : gmap sleeplock_id sleeplock) : Prop := {
  cw_lru : lru B l;
  cw_ref : ∀ b x, (b < NBUF)%nat → B !! b = Some x → 0 ≤ b_refcnt x < 2 ^ 32;
  cw_one : ∀ i j x y, (i < NBUF)%nat → (j < NBUF)%nat → B !! i = Some x → B !! j = Some y →
    b_dev x ≠ 0 → b_dev x = b_dev y → b_blockno x = b_blockno y → i = j;
  cw_lock : ∀ b x, (b < NBUF)%nat → B !! b = Some x →
    ∃ k, L !! SL_buf b = Some k ∧ (b_refcnt x = 0 → sl_locked k = 0)
}.

(** ** The specification: a cache in order of use *)

Definition caches (B : list buf) (dev blockno : Z) (b : nat) : bool :=
  from_option (λ x, (b_dev x =? dev) && (b_blockno x =? blockno)) false (B !! b).
Definition idle (B : list buf) (b : nat) : bool := from_option (λ x, b_refcnt x =? 0) false (B !! b).

Definition referenced (x : buf) : buf := x <| b_refcnt ::= λ n, u32 (n + 1) |>.
Definition recycled (dev blockno : Z) (x : buf) : buf :=
  x <| b_dev := dev |> <| b_blockno := blockno |> <| b_valid := 0 |> <| b_refcnt := 1 |>.

(** The buffer for a block and the cache with it referenced: the one that holds
    the block, or else the idle buffer released longest ago. *)
Definition cache_get (dev blockno : Z) (l : list nat) (B : list buf) : option (nat * list buf) :=
  match List.find (caches B dev blockno) l with
  | Some b => Some (b, alter referenced b B)
  | None =>
      match List.find (idle B) (reverse l) with
      | Some b => Some (b, alter (recycled dev blockno) b B)
      | None => None
      end
  end.

(** Dropping a reference; a buffer nobody references any more becomes the most
    recent one. *)
Definition dereferenced (x : buf) : buf := x <| b_refcnt ::= λ n, u32 (n - 1) |>.
Definition cache_put (b : nat) (l : list nat) (B : list buf) : list nat * list buf :=
  let B := alter dereferenced b B in
  if idle B b then (b :: filter (.≠ b) l, linked_front b (unlinked b B)) else (l, B).

(** Changing one buffer, its links apart. *)
Lemma cache_wf_alter l B L b f x k :
  cache_wf l B L → (b < NBUF)%nat → B !! b = Some x → b_next (f x) = b_next x → b_prev (f x) = b_prev x →
  0 ≤ b_refcnt (f x) < 2 ^ 32 → (b_refcnt (f x) = 0 → sl_locked k = 0) →
  ((b_dev (f x) = b_dev x ∧ b_blockno (f x) = b_blockno x) ∨
   (∀ j y, (j < NBUF)%nat → B !! j = Some y → ¬ (b_dev y = b_dev (f x) ∧ b_blockno y = b_blockno (f x)))) →
  cache_wf l (alter f b B) (<[SL_buf b := k]> L).
Proof.
  intros [Hl Hr Ho Hk] Hb Hx Hn Hp Hrf Hkf Hd.
  assert (Hat : ∀ j y, alter f b B !! j = Some y → (j = b ∧ y = f x) ∨ (j ≠ b ∧ B !! j = Some y)).
  { intros j y. destruct (decide (j = b)) as [->|Hne].
    - rewrite list_lookup_alter_eq, Hx. cbn. intros ?. simplify_eq. by left.
    - rewrite list_lookup_alter_ne by done. by right. }
  split.
  - rewrite <- (list_insert_alter _ _ _ _ Hx). by apply (lru_data _ _ _ x).
  - intros j y Hj Hy. destruct (Hat j y Hy) as [[-> ->]|[_ Hy']]; [done|by eapply Hr].
  - intros i j y z Hi Hj Hy Hz Hdev Hd1 Hb1.
    destruct (Hat i y Hy) as [[-> ->]|[Hi' Hy']], (Hat j z Hz) as [[-> ->]|[Hj' Hz']]; [done| | |by eapply (Ho i j)].
    + destruct Hd as [[E1 E2]|Hd]; [apply (Ho b j x z); congruence|]. by destruct (Hd j z Hj Hz').
    + destruct Hd as [[E1 E2]|Hd]; [apply (Ho i b y x); congruence|]. by destruct (Hd i y Hi Hy').
  - intros j y Hj Hy. destruct (Hat j y Hy) as [[-> ->]|[Hne Hy']].
    + exists k. by rewrite lookup_insert_eq.
    + rewrite lookup_insert_ne by congruence. by eapply Hk.
Qed.

Lemma find_Some_elem {A} (f : A → bool) l x : List.find f l = Some x → x ∈ l ∧ f x = true.
Proof. intros Hf. apply find_some in Hf as [Hin Hfx]. by rewrite list_elem_of_In. Qed.
Lemma find_None_elem {A} (f : A → bool) l x : List.find f l = None → x ∈ l → f x = false.
Proof. intros Hf Hin. eapply find_none; [done|]. by apply list_elem_of_In. Qed.

Lemma cache_get_bound dev blockno l B L b B' :
  cache_wf l B L → cache_get dev blockno l B = Some (b, B') → (b < NBUF)%nat ∧ is_Some (B !! b).
Proof.
  intros Hw Hg. assert (Hb : b ∈ l).
  { unfold cache_get in Hg. destruct (List.find (caches B dev blockno) l) as [c|] eqn:Hf.
    - simplify_eq. by apply find_Some_elem in Hf as [? _].
    - destruct (List.find (idle B) (reverse l)) as [c|] eqn:Hf'; simplify_eq.
      apply find_Some_elem in Hf' as [Hin _]. by rewrite elem_of_reverse in Hin. }
  apply (lru_elem _ _ _ (cw_lru _ _ _ Hw)) in Hb. split; [done|].
  apply (lru_lookup _ _ _ (cw_lru _ _ _ Hw)). lia.
Qed.

Lemma caches_at B dev blockno b x :
  B !! b = Some x → caches B dev blockno b = true ↔ b_dev x = dev ∧ b_blockno x = blockno.
Proof. intros Hx. unfold caches. rewrite Hx. cbn. by rewrite andb_true_iff, !Z.eqb_eq. Qed.

(** The cache after a block was looked up, whatever became of the buffer's lock. *)
Lemma cache_get_wf dev blockno l B L b B' x k :
  cache_wf l B L → cache_get dev blockno l B = Some (b, B') → B !! b = Some x →
  b_refcnt x + 1 < 2 ^ 32 → cache_wf l B' (<[SL_buf b := k]> L).
Proof.
  intros Hw Hg Hx Hmax. destruct (cache_get_bound _ _ _ _ _ _ _ Hw Hg) as [Hb _].
  pose proof (cw_ref _ _ _ Hw b x Hb Hx) as Hr.
  unfold cache_get in Hg. destruct (List.find (caches B dev blockno) l) as [c|] eqn:Hf.
  - simplify_eq. apply (cache_wf_alter _ _ _ _ _ x); unfold referenced, u32; ksimpl; try done;
      rewrite ?Z.mod_small by lia; [lia|lia|by left].
  - destruct (List.find (idle B) (reverse l)) as [c|] eqn:Hf'; simplify_eq.
    apply (cache_wf_alter _ _ _ _ _ x); unfold recycled; ksimpl; try done; right.
    intros j y Hj Hy Hc. rewrite <- caches_at in Hc by done.
    rewrite (find_None_elem _ _ j Hf) in Hc; [done|]. by apply (lru_elem _ _ _ (cw_lru _ _ _ Hw)).
Qed.

(** Relinking changes nothing but links. *)
Definition same_data (x y : buf) : Prop :=
  b_dev y = b_dev x ∧ b_blockno y = b_blockno x ∧ b_refcnt y = b_refcnt x.

Lemma alter_data (f : buf → buf) i (B : list buf) j y :
  (∀ x, same_data x (f x)) → alter f i B !! j = Some y → ∃ x, B !! j = Some x ∧ same_data x y.
Proof.
  intros Hf. destruct (decide (i = j)) as [->|Hne]; [|rewrite list_lookup_alter_ne by done; by exists y].
  rewrite list_lookup_alter_eq. destruct (B !! j) as [x|]; [|done]. cbn. intros ?. simplify_eq. by exists x.
Qed.

Lemma relink_data b B j y :
  linked_front b (unlinked b B) !! j = Some y → ∃ x, B !! j = Some x ∧ same_data x y.
Proof.
  unfold linked_front, unlinked, set_next, set_prev. intros Hy.
  do 6 (apply alter_data in Hy as (? & Hy & (? & ? & ?)); [|done]).
  eexists. split; [exact Hy|]. unfold same_data. split_and!; congruence.
Qed.

Lemma cache_wf_relink l1 b l2 B L :
  cache_wf (l1 ++ b :: l2) B L → cache_wf (b :: l1 ++ l2) (linked_front b (unlinked b B)) L.
Proof.
  intros [Hl Hr Ho Hk]. split.
  - by apply lru_relink.
  - intros j y Hj (x & Hx & _ & _ & ->)%relink_data. by eapply Hr.
  - intros i j y z Hi Hj (x & Hx & E1 & E2 & _)%relink_data (w & Hw & E3 & E4 & _)%relink_data Hd Hd1 Hb1.
    apply (Ho i j x w); congruence.
  - intros j y Hj (x & Hx & _ & _ & ->)%relink_data. by eapply Hk.
Qed.

Lemma filter_ne (l1 : list nat) b l2 : NoDup (l1 ++ b :: l2) → filter (.≠ b) (l1 ++ b :: l2) = l1 ++ l2.
Proof.
  intros Hnd. rewrite <- Permutation_middle in Hnd. apply list.NoDup_cons in Hnd as [Hb _].
  rewrite elem_of_app in Hb. rewrite list.filter_app, filter_cons_False by tauto.
  assert (Hall : ∀ l : list nat, b ∉ l → filter (.≠ b) l = l).
  { intros l. induction l as [|a l IH]; [done|]. rewrite elem_of_cons. intros Hl.
    rewrite filter_cons_True, IH; [done|tauto|]. intros ->. tauto. }
  by rewrite !Hall by tauto.
Qed.

(** The cache after a buffer was unlocked and released. *)
Lemma cache_put_wf l B L b x k :
  cache_wf l B L → (b < NBUF)%nat → B !! b = Some x → 0 < b_refcnt x →
  let '(l', B') := cache_put b l B in cache_wf l' B' (<[SL_buf b := sl_free k]> L).
Proof.
  intros Hw Hb Hx Hpos. pose proof (cw_ref _ _ _ Hw b x Hb Hx) as Hr.
  assert (Hw1 : cache_wf l (alter dereferenced b B) (<[SL_buf b := sl_free k]> L)).
  { apply (cache_wf_alter _ _ _ _ _ x); unfold dereferenced, u32; ksimpl; try done;
      [rewrite Z.mod_small by lia; lia|by left]. }
  unfold cache_put. destruct (idle _ b); [|done].
  assert (Hin : b ∈ l) by (by apply (lru_elem _ _ _ (cw_lru _ _ _ Hw))).
  apply list_elem_of_split in Hin as (l1 & l2 & ->).
  rewrite filter_ne; [by apply cache_wf_relink|]. pose proof (lru_NoDup _ _ (cw_lru _ _ _ Hw)) as Hnd.
  by apply list.NoDup_cons in Hnd as [_ ?].
Qed.

(** ** Running the operations *)

Section ops.
Context `{Image, Device, Patience}.

Lemma get_buf_run s b x : k_bcache s !! b = Some x → get_buf b s = Ret x s.
Proof. intros Hx. unfold get_buf. by rewrite Hx. Qed.

Lemma upd_buf_run s b f :
  (b < length (k_bcache s))%nat → upd_buf b f s = Ret tt (s <| k_bcache ::= alter f b |>).
Proof.
  intros Hb. destruct (lookup_lt_is_Some_2 _ _ Hb) as [x Hx]. unfold upd_buf.
  mrun_with (get_buf_run s b x Hx). unfold set, set_k_bcache. by rewrite (list_insert_alter _ _ _ _ Hx).
Qed.

(** A loop along the links stops at the first node that passes the test, or at
    the end of the segment. *)
Lemma scan_run {B} (body : nat → M (nat + B)) (test : nat → bool) n p x l z fuel s :
  seg n p x l z → (length l < fuel)%nat →
  (∀ y, y ∈ l → test y = false → body y s = Ret (inl (n y)) s) →
  ∃ f, while_ fuel body (n x) s = while_ (S f) body (default z (List.find test l)) s.
Proof.
  revert x fuel. induction l as [|y l IH]; intros x fuel Hs Hf Hb; cbn [seg List.find length] in *;
    (destruct fuel as [|fuel]; [lia|]).
  - destruct Hs as [-> _]. by exists fuel.
  - destruct Hs as (-> & _ & Hs). destruct (test y) eqn:Ht; [by exists fuel|].
    destruct (IH y fuel Hs) as [f Hrun]; [lia|intros; apply Hb; [by right|done]|].
    exists f. rewrite <- Hrun. cbn [while_]. mrun_with Hb; [done|by left|done].
Qed.

Lemma while_done {X B} (body : X → M (X + B)) f x b s t :
  body x s = Ret (inr b) t → while_ (S f) body x s = Ret b t.
Proof. intros E. cbn [while_]. by mrun_with E. Qed.

(** Process [p] runs; nobody holds the cache's spinlock or one of a buffer. *)
Record cache_user (p : nat) (y : proc) (s : kernel) : Prop := {
  cu_hart : hart_at 0 (k_hw s);
  cu_cur : cur_proc (k_hw s) = Some p;
  cu_procs : proc_locks_free (k_hw s);
  cu_cache : lock_free L_bcache (k_hw s);
  cu_locks : ∀ b, (b < NBUF)%nat → lock_free (L_sleep (SL_buf b)) (k_hw s);
  cu_len : length (k_procs s) = NPROC;
  cu_proc : k_procs s !! p = Some y
}.

Lemma cache_user_sl p y s b : cache_user p y s → (b < NBUF)%nat → sl_user (SL_buf b) p y s.
Proof. intros [] Hb. split; try done. by apply cu_locks0. Qed.

Lemma cache_user_buf p y s B : cache_user p y s → cache_user p y (s <| k_bcache := B |>).
Proof. by intros []. Qed.

(** The two scans of [bget], inside the lock. *)
Definition hit_body (dev blockno : Z) (b : nat) : M (nat + option nat) :=
  if bool_decide (b = head_buf) then mret (inr None) else
  x ← get_buf b;
  if (b_dev x =? dev) && (b_blockno x =? blockno) then
    upd_buf b (λ x, x <| b_refcnt ::= λ n, u32 (n + 1) |>);;
    release L_bcache;;
    acquiresleep (SL_buf b);;
    mret (inr (Some b))
  else mret (inl (b_next x)).
Definition idle_body (dev blockno : Z) (b : nat) : M (nat + nat) :=
  if bool_decide (b = head_buf) then panic "bget: no buffers" else
  x ← get_buf b;
  if b_refcnt x =? 0 then
    upd_buf b (λ x, x <| b_dev := dev |>);;
    upd_buf b (λ x, x <| b_blockno := blockno |>);;
    upd_buf b (λ x, x <| b_valid := 0 |>);;
    upd_buf b (λ x, x <| b_refcnt := 1 |>);;
    release L_bcache;;
    acquiresleep (SL_buf b);;
    mret (inr b)
  else mret (inl (b_prev x)).

(** [r] is what a function returns or where it sleeps when its last call but
    a [return b] has the outcome [m]. *)
Definition then_return {A} (b : A) (m : res unit) (r : res A) : Prop :=
  match m with
  | Ret _ t => r = Ret b t
  | Switch to t _ => ∃ c, r = Switch to t c
  | _ => True
  end.

Lemma buf_twice s f g b : s <| k_bcache ::= alter f b |> <| k_bcache ::= alter g b |> = s <| k_bcache ::= alter (g ∘ f) b |>.
Proof. destruct s. cbv [set set_k_bcache]. ksimpl. f_equal. apply list_alter_alter_eq. Qed.

Lemma hw_buf_hw s h f b :
  s <| k_hw := h |> <| k_bcache ::= alter f b |> <| k_hw := k_hw s |> = s <| k_bcache := alter f b (k_bcache s) |>.
Proof. by destruct s. Qed.

Lemma lru_length B l : lru B l → length l = NBUF.
Proof. intros Hl. by rewrite (lru_all _ _ Hl), length_seq. Qed.

Lemma hit_scan dev blockno l t :
  lru (k_bcache t) l →
  ∃ f, while_ (S NBUF) (hit_body dev blockno) (nxt (k_bcache t) head_buf) t =
    while_ (S f) (hit_body dev blockno) (default head_buf (List.find (caches (k_bcache t) dev blockno) l)) t.
Proof.
  intros Hl. eapply scan_run; [apply (lru_links _ _ Hl)|rewrite (lru_length _ _ Hl); lia|].
  intros y Hy Ht. assert (Hy' := Hy). apply (lru_elem _ _ _ Hl) in Hy'.
  destruct (lru_lookup _ _ y Hl) as [x Hx]; [lia|]. unfold hit_body, nxt.
  rewrite bool_decide_false by (unfold head_buf; lia). mrun_with (get_buf_run t y x Hx).
  unfold caches in Ht. rewrite Hx in *. cbn in Ht. by rewrite Ht.
Qed.

Lemma idle_scan dev blockno l t :
  lru (k_bcache t) l →
  ∃ f, while_ (S NBUF) (idle_body dev blockno) (prv (k_bcache t) head_buf) t =
    while_ (S f) (idle_body dev blockno) (default head_buf (List.find (idle (k_bcache t)) (reverse l))) t.
Proof.
  intros Hl. eapply scan_run; [apply seg_rev, (lru_links _ _ Hl)|rewrite length_reverse, (lru_length _ _ Hl); lia|].
  intros y Hy Ht. assert (Hy' := Hy). rewrite elem_of_reverse in Hy'. apply (lru_elem _ _ _ Hl) in Hy'.
  destruct (lru_lookup _ _ y Hl) as [x Hx]; [lia|]. unfold idle_body, prv.
  rewrite bool_decide_false by (unfold head_buf; lia). mrun_with (get_buf_run t y x Hx).
  unfold idle in Ht. rewrite Hx in *. cbn in Ht. by rewrite Ht.
Qed.

(** The scans of [bget], when the block is cached and when it is not. *)
Lemma bget_scan dev blockno l s :
  hart_at 0 (k_hw s) → lock_free L_bcache (k_hw s) → lru (k_bcache s) l →
  let t := s <| k_hw := acq L_bcache (k_hw s) |> in
  ∃ f g, match List.find (caches (k_bcache s) dev blockno) l with
    | Some b => bget dev blockno s = bind_res (while_ (S f) (hit_body dev blockno) b t)
        (λ r, match r with
              | Some b => mret b
              | None => h ← get_buf head_buf; while_ (S NBUF) (idle_body dev blockno) (b_prev h)
              end)
    | None => bget dev blockno s =
        while_ (S g) (idle_body dev blockno) (default head_buf (List.find (idle (k_bcache s)) (reverse l))) t
    end.
Proof.
  intros Hh Hl Hlru t. destruct (lru_lookup _ _ NBUF Hlru) as [h Hhd]; [lia|].
  assert (Hnx : b_next h = nxt (k_bcache t) head_buf) by (unfold nxt, t, head_buf; ksimpl; by rewrite Hhd).
  assert (Hpv : b_prev h = prv (k_bcache t) head_buf) by (unfold prv, t, head_buf; ksimpl; by rewrite Hhd).
  destruct (hit_scan dev blockno l t Hlru) as [f Hf]. destruct (idle_scan dev blockno l t Hlru) as [g Hg].
  exists f, g. unfold bget. mrun_with (acquire_run 0 _ s Hh Hl). fold t.
  mrun_with (get_buf_run t head_buf h Hhd). rewrite Hnx.
  change (λ b0 : nat, if bool_decide (b0 = head_buf) then mret (inr None) else _) with (hit_body dev blockno).
  change (λ b0 : nat, if bool_decide (b0 = head_buf) then panic _ else _) with (idle_body dev blockno).
  rewrite Hf. change (k_bcache t) with (k_bcache s) in *. destruct (List.find _ l) as [b|] eqn:E.
  - done.
  - cbn [default]. erewrite while_done; [|unfold hit_body; by rewrite bool_decide_true].
    mrun_with (get_buf_run t head_buf h Hhd). by rewrite Hpv, Hg.
Qed.

(** The outcome is that of [acquiresleep] in the state of the equation [E]. *)
Ltac finish_get E :=
  match type of E with _ = ?u =>
    match goal with |- context [bind_res (acquiresleep _ ?v) _] => replace v with u by (symmetry; exact E) end;
    destruct (acquiresleep _ u); [done|done|by eexists|done|done|done] end.

Lemma bget_run dev blockno p y l s b B' :
  cache_user p y s → cache_wf l (k_bcache s) (k_sleeplocks s) →
  cache_get dev blockno l (k_bcache s) = Some (b, B') →
  then_return b (acquiresleep (SL_buf b) (s <| k_bcache := B' |>)) (bget dev blockno s).
Proof.
  intros Hu Hw Hg. pose proof Hu as [Hh Hc Hp Hl Hls Hlen Hy]. pose proof (cw_lru _ _ _ Hw) as Hlru.
  destruct (cache_get_bound _ _ _ _ _ _ _ Hw Hg) as [Hb [x Hx]].
  assert (Hlt : (b < length (k_bcache s))%nat) by (by eapply lookup_lt_Some).
  assert (Hbh : b ≠ head_buf) by (unfold head_buf; lia).
  destruct (lru_lookup _ _ NBUF Hlru) as [h Hhd]; [lia|].
  assert (Hnx : b_next h = nxt (k_bcache s) head_buf) by (unfold nxt, head_buf; by rewrite Hhd).
  assert (Hpv : b_prev h = prv (k_bcache s) head_buf) by (unfold prv, head_buf; by rewrite Hhd).
  pose proof (lru_links _ _ Hlru) as Hs.
  destruct (bget_scan dev blockno l s Hh Hl Hlru) as (f & g & Hrun). set (t := s <| k_hw := _ |>) in *.
  unfold cache_get in Hg. destruct (List.find (caches _ dev blockno) l) as [c|] eqn:Hf.
  - simplify_eq. apply find_Some_elem in Hf as [_ Hf]. rewrite (caches_at _ _ _ _ _ Hx) in Hf. destruct Hf as [<- <-].
    rewrite Hrun. cbn [while_]. mrun. unfold hit_body at 1. rewrite bool_decide_false by done.
    mrun_with (get_buf_run t b x Hx). rewrite !Z.eqb_refl. cbn [andb]. mrun_with (upd_buf_run t b); [|exact Hlt].
    mrun_with (release_run 0 L_bcache (k_hw s)); [|done|done|done].
    finish_get (hw_buf_hw s (acq L_bcache (k_hw s)) referenced b).
  - destruct (List.find (idle _) (reverse l)) as [c|] eqn:Hi; simplify_eq.
    apply find_Some_elem in Hi as [_ Hi]. unfold idle in Hi. rewrite Hx in Hi. cbn in Hi.
    rewrite Hrun. cbn [while_ default from_option id]. mrun. unfold idle_body at 1. rewrite bool_decide_false by done.
    mrun_with (get_buf_run t b x Hx). rewrite Hi.
    do 4 (mrun_with upd_buf_run; [|ksimpl; rewrite ?length_alter; exact Hlt]).
    mrun_with (release_run 0 L_bcache (k_hw s)); [|done|done|done]. rewrite !buf_twice.
    finish_get (hw_buf_hw s (acq L_bcache (k_hw s)) (recycled dev blockno) b).
Qed.

(** When no buffer is idle. *)
Lemma bget_full dev blockno p y l s :
  cache_user p y s → cache_wf l (k_bcache s) (k_sleeplocks s) →
  cache_get dev blockno l (k_bcache s) = None → bget dev blockno s = Panic "bget: no buffers".
Proof.
  intros Hu Hw Hg. pose proof Hu as [Hh Hc Hp Hl Hls Hlen Hy].
  destruct (bget_scan dev blockno l s Hh Hl (cw_lru _ _ _ Hw)) as (f & g & Hrun).
  unfold cache_get in Hg. destruct (List.find (caches _ dev blockno) l) as [c|]; [done|].
  destruct (List.find (idle _) (reverse l)) as [c|]; [done|]. rewrite Hrun. cbn [while_ default]. mrun.
  unfold idle_body at 1. by rewrite bool_decide_true.
Qed.

(** C28: the buffer cache is an LRU cache.  [bget] on a cache in recency order
    [l] returns the buffer that holds the block, with one more reference, or
    else the idle buffer released longest ago, now assigned to the block and
    marked invalid; it panics exactly when the block is not cached and every
    buffer is referenced.  The buffer comes back locked by the caller, who
    sleeps on the lock when another process has it.  The order and the invariant
    are kept: no block is ever in two buffers. *)
Theorem bget_refines_lru dev blockno p y l s :
  cache_user p y s → cache_wf l (k_bcache s) (k_sleeplocks s) →
  match cache_get dev blockno l (k_bcache s) with
  | None => bget dev blockno s = Panic "bget: no buffers"
  | Some (b, B') =>
      ∃ x k, k_bcache s !! b = Some x ∧ k_sleeplocks s !! SL_buf b = Some k ∧
        let L' := <[SL_buf b := sl_taken (p_pid y) k]> (k_sleeplocks s) in
        (sl_locked k = 0 → bget dev blockno s = Ret b (s <| k_bcache := B' |> <| k_sleeplocks := L' |>)) ∧
        (sl_locked k ≠ 0 → ∃ c, bget dev blockno s =
           Switch To_scheduler
             (s <| k_bcache := B' |> <| k_hw := acq (L_proc p) (k_hw s) |>
                <| k_procs ::= alter (λ x, x <| p_chan := Ch_sleeplock (SL_buf b) |> <| p_state := SLEEPING |>) p |>) c) ∧
        (b_refcnt x + 1 < 2 ^ 32 → cache_wf l B' L')
  end.
Proof.
  intros Hu Hw. destruct (cache_get dev blockno l (k_bcache s)) as [[b B']|] eqn:Hg; [|by eapply bget_full].
  destruct (cache_get_bound _ _ _ _ _ _ _ Hw Hg) as [Hb [x Hx]].
  destruct (cw_lock _ _ _ Hw b x Hb Hx) as (k & Hk & _). exists x, k. split; [done|]. split; [done|]. intros L'.
  pose proof (bget_run _ _ _ _ _ _ _ _ Hu Hw Hg) as Hrun.
  assert (Hsl : sl_user (SL_buf b) p y (s <| k_bcache := B' |>)) by (by apply cache_user_sl; [apply cache_user_buf|]). split_and!.
  - intros Hz. by rewrite (acquiresleep_free _ _ _ k _ Hsl Hk Hz) in Hrun.
  - intros Hz. destruct (acquiresleep_busy _ _ _ k _ Hsl Hk Hz) as (c & E & _). by rewrite E in Hrun.
  - intros Hmax. by eapply cache_get_wf.
Qed.

(** ** brelse *)

Lemma buf_comp s f g : s <| k_bcache := f |> <| k_bcache ::= g |> = s <| k_bcache := g f |>.
Proof. by destruct s. Qed.
Lemma buf_comp' s B B' : s <| k_bcache := B |> <| k_bcache := B' |> = s <| k_bcache := B' |>.
Proof. by destruct s. Qed.
Lemma buf_set s f : s <| k_bcache ::= f |> = s <| k_bcache := f (k_bcache s) |>.
Proof. by destruct s. Qed.

Definition unlink (b : nat) (x : buf) (k : M unit) : M unit :=
  upd_buf (b_next x) (λ y, y <| b_prev := b_prev x |>);;
  x ← get_buf b;
  upd_buf (b_prev x) (λ y, y <| b_next := b_next x |>);;
  k.

Lemma unlink_run b x k t :
  let B := k_bcache t in
  B !! b = Some x → (nxt B b < length B)%nat → (prv B b < length B)%nat →
  unlink b x k t = k (t <| k_bcache := unlinked b B |>).
Proof.
  intros B Hx Hn Hp. unfold unlink. assert (En : b_next x = nxt B b) by (unfold nxt; by rewrite Hx).
  assert (Ep : b_prev x = prv B b) by (unfold prv; by rewrite Hx). rewrite En, Ep.
  mrun_with (upd_buf_run t); [|done]. rewrite buf_set. fold B. change (alter _ (nxt B b) B) with (set_prev (nxt B b) (prv B b) B).
  set (B1 := set_prev _ _ B). assert (Hl : length B1 = length B) by apply length_set_prev.
  assert (Hb : (b < length B1)%nat) by (rewrite Hl; by eapply lookup_lt_Some).
  destruct (lookup_lt_is_Some_2 B1 b Hb) as [x1 Hx1]. mrun_with (get_buf_run _ b x1); [|exact Hx1].
  assert (E1 : b_next x1 = nxt B b).
  { transitivity (nxt B1 b); [unfold nxt; by rewrite Hx1|apply nxt_set_prev]. }
  assert (E2 : b_prev x1 = prv B b).
  { transitivity (prv B1 b); [unfold prv; by rewrite Hx1|]. unfold B1. rewrite prv_set_prev, fn_ins by done.
    by destruct (decide (nxt B b = b)). }
  rewrite E1, E2. mrun_with upd_buf_run; [|ksimpl; by rewrite Hl]. by rewrite buf_comp.
Qed.

Lemma link_front_run b t :
  let B := k_bcache t in
  b ≠ head_buf → (b < length B)%nat → (head_buf < length B)%nat → (nxt B head_buf < length B)%nat →
  link_front b t = Ret tt (t <| k_bcache := linked_front b B |>).
Proof.
  intros B Hne Hb Hh Hn. destruct (lookup_lt_is_Some_2 B _ Hh) as [h Hhd].
  assert (En : b_next h = nxt B head_buf) by (unfold nxt; by rewrite Hhd).
  unfold link_front. mrun_with (get_buf_run t head_buf h Hhd). rewrite En.
  mrun_with (upd_buf_run t); [|done]. rewrite buf_set. fold B.
  mrun_with upd_buf_run; [|ksimpl; by rewrite length_alter]. rewrite buf_comp.
  set (B1 := alter _ b (alter _ b B)).
  assert (Hh1 : B1 !! head_buf = Some h) by (unfold B1; by rewrite !list_lookup_alter_ne).
  assert (Hl1 : length B1 = length B) by (unfold B1; by rewrite !length_alter).
  mrun_with (get_buf_run _ head_buf h); [|exact Hh1]. rewrite En.
  mrun_with upd_buf_run; [|ksimpl; by rewrite Hl1]. rewrite buf_comp.
  rewrite upd_buf_run; [|ksimpl; by rewrite length_alter, Hl1]. by rewrite buf_comp.
Qed.

Lemma nxt_unlinked_in b B l : lru B l → (b ≤ NBUF)%nat → (nxt (unlinked b B) head_buf < length B)%nat.
Proof.
  intros Hl Hb. destruct (lru_links_in B l b Hl Hb) as [Hn Hp].
  destruct (lru_links_in B l head_buf Hl ltac:(done)) as [Hh _].
  unfold unlinked. rewrite nxt_set_next, fn_ins by (by rewrite length_set_prev). rewrite nxt_set_prev.
  by destruct (decide _).
Qed.

Lemma brelse_run p y l s b x k :
  cache_user p y s → cache_wf l (k_bcache s) (k_sleeplocks s) → (b < NBUF)%nat →
  k_bcache s !! b = Some x → k_sleeplocks s !! SL_buf b = Some k → sl_locked k ≠ 0 → sl_pid k = p_pid y →
  brelse b s =
    Ret tt (s <| k_sleeplocks ::= <[SL_buf b := sl_free k]> |>
              <| k_procs ::= imap (woken (Some p) (Ch_sleeplock (SL_buf b))) |>
              <| k_bcache := (cache_put b l (k_bcache s)).2 |>).
Proof.
  intros Hu Hw Hb Hx Hk Hlk Hpid. pose proof Hu as [Hh Hc Hp Hl Hls Hlen Hy].
  pose proof (cache_user_sl p y s b Hu Hb) as Hsl. pose proof (cw_lru _ _ _ Hw) as Hlru.
  unfold brelse. mrun_with (holdingsleep_run _ _ _ _ _ Hsl Hk). rewrite Hpid, Z.eqb_refl, andb_true_r.
  assert (truth (sl_locked k) = true) as -> by (unfold truth; by destruct (Z.eqb_spec (sl_locked k) 0)). cbn [negb].
  mrun_with (releasesleep_run _ _ _ _ _ Hsl Hk). set (s1 := s <| k_sleeplocks ::= _ |> <| k_procs ::= _ |>).
  mrun_with (acquire_run 0 _ s1 Hh Hl). set (t := s1 <| k_hw := acq L_bcache (k_hw s1) |>).
  assert (Hlt : (b < length (k_bcache s))%nat) by (by eapply lookup_lt_Some).
  mrun_with (upd_buf_run t b); [|exact Hlt]. rewrite buf_set. change (alter (λ x0 : buf, _) b (k_bcache t)) with (alter dereferenced b (k_bcache s)).
  set (B1 := alter dereferenced b (k_bcache s)). 
  assert (Hx1 : B1 !! b = Some (dereferenced x)) by (unfold B1; by rewrite list_lookup_alter_eq, Hx).
  mrun_with (get_buf_run _ b (dereferenced x)); [|exact Hx1].
  unfold cache_put. fold B1. assert (Hid : idle B1 b = (b_refcnt (dereferenced x) =? 0)) by (unfold idle; by rewrite Hx1).
  rewrite Hid. destruct (b_refcnt (dereferenced x) =? 0) eqn:E; cbn [when snd].
  - change (bind_res (unlink b (dereferenced x) (link_front b) (t <| k_bcache := B1 |>)) (λ _, release L_bcache) =
      Ret tt (s1 <| k_bcache := linked_front b (unlinked b B1) |>)).
    assert (Hlru1 : lru B1 l).
    { unfold B1. rewrite <- (list_insert_alter _ _ _ _ Hx). by apply (lru_data _ _ _ x). }
    destruct (lru_links_in B1 l b Hlru1) as [Hn1 Hp1]; [lia|].
    pose proof (nxt_unlinked_in b B1 l Hlru1 ltac:(lia)) as Hf. pose proof (lru_len _ _ Hlru1) as Hlen1.
    rewrite unlink_run by done. rewrite buf_comp'.
    rewrite link_front_run; ksimpl; rewrite ?length_unlinked, ?Hlen1; try (unfold head_buf; lia); [|by rewrite <- Hlen1].
    rewrite buf_comp'. mrun_with (release_run 0 L_bcache (k_hw s)); [|done|done|done]. by destruct s.
  - mrun_with (release_run 0 L_bcache (k_hw s)); [|done|done|done]. by destruct s.
Qed.

Lemma brelse_owned p y l s b x k :
  cache_user p y s → cache_wf l (k_bcache s) (k_sleeplocks s) → (b < NBUF)%nat →
  k_bcache s !! b = Some x → k_sleeplocks s !! SL_buf b = Some k → sl_locked k ≠ 0 →
  let '(l', B') := cache_put b l (k_bcache s) in cache_wf l' B' (<[SL_buf b := sl_free k]> (k_sleeplocks s)).
Proof.
  intros Hu Hw Hb Hx Hk Hlk. apply (cache_put_wf l _ _ b x k Hw Hb Hx).
  destruct (cw_lock _ _ _ Hw b x Hb Hx) as (k' & Hk' & Hz). simplify_eq.
  pose proof (cw_ref _ _ _ Hw b x Hb Hx). destruct (decide (b_refcnt x = 0)); [tauto|lia].
Qed.

Lemma brelse_denied p y s b k :
  cache_user p y s → (b < NBUF)%nat → k_sleeplocks s !! SL_buf b = Some k →
  ¬ (sl_locked k ≠ 0 ∧ sl_pid k = p_pid y) → brelse b s = Panic "brelse".
Proof.
  intros Hu Hb Hk Hno. unfold brelse. mrun_with (holdingsleep_run _ _ _ _ _ (cache_user_sl p y s b Hu Hb) Hk).
  destruct (truth (sl_locked k) && (sl_pid k =? p_pid y)) eqn:E; [|done]. exfalso. apply Hno.
  apply andb_true_iff in E as [E1 E2]. unfold truth in E1. rewrite negb_true_iff in E1. lia.
Qed.

(** C29: [brelse] keeps the cache in LRU order.  Called by the process that holds
    the buffer's lock it unlocks the buffer, wakes the processes waiting for it
    and drops the reference; a buffer nobody references any more becomes the most
    recently used one, the order of the others staying as it is, and the
    invariant holds again.  Called by anybody else it panics. *)
Theorem brelse_refines_lru p y l s b x k :
  cache_user p y s → cache_wf l (k_bcache s) (k_sleeplocks s) → (b < NBUF)%nat →
  k_bcache s !! b = Some x → k_sleeplocks s !! SL_buf b = Some k →
  (sl_locked k ≠ 0 ∧ sl_pid k = p_pid y →
     let '(l', B') := cache_put b l (k_bcache s) in
     let L' := <[SL_buf b := sl_free k]> (k_sleeplocks s) in
     brelse b s = Ret tt (s <| k_sleeplocks := L' |>
                            <| k_procs ::= imap (woken (Some p) (Ch_sleeplock (SL_buf b))) |>
                            <| k_bcache := B' |>) ∧
     cache_wf l' B' L') ∧
  (¬ (sl_locked k ≠ 0 ∧ sl_pid k = p_pid y) → brelse b s = Panic "brelse").
Proof.
  intros Hu Hw Hb Hx Hk. split; [|by apply (brelse_denied p y)].
  intros [Hlk Hpid]. pose proof (brelse_run _ _ _ _ _ _ _ Hu Hw Hb Hx Hk Hlk Hpid) as Hrun.
  pose proof (brelse_owned _ _ _ _ _ _ _ Hu Hw Hb Hx Hk Hlk) as Hput.
  destruct (cache_put b l (k_bcache s)) as [l' B']. by split.
Qed.

(** ** binit, bpin and bunpin *)

Definition init_step (b : nat) : M unit :=
  h ← get_buf head_buf;
  upd_buf b (λ x, x <| b_next := b_next h |>);;
  upd_buf b (λ x, x <| b_prev := head_buf |>);;
  initsleeplock (SL_buf b) "buffer";;
  h ← get_buf head_buf;
  upd_buf (b_next h) (λ x, x <| b_prev := b |>);;
  upd_buf head_buf (λ x, x <| b_next := b |>).

Lemma init_step_run b t :
  let B := k_bcache t in
  b ≠ head_buf → (b < length B)%nat → (head_buf < length B)%nat → (nxt B head_buf < length B)%nat →
  ∃ h, init_step b t = Ret tt (t <| k_hw := h |> <| k_sleeplocks ::= <[SL_buf b := Sleeplock 0 "buffer" 0]> |>
                                 <| k_bcache := linked_front b B |>).
Proof.
  intros B Hne Hb Hh Hn. destruct (lookup_lt_is_Some_2 B _ Hh) as [h Hhd].
  assert (En : b_next h = nxt B head_buf) by (unfold nxt; by rewrite Hhd).
  eexists. unfold init_step. mrun_with (get_buf_run t head_buf h Hhd). rewrite En.
  mrun_with (upd_buf_run t); [|done]. rewrite buf_set. fold B.
  mrun_with upd_buf_run; [|ksimpl; by rewrite length_alter]. rewrite buf_comp.
  set (B1 := alter _ b (alter _ b B)).
  assert (Hh1 : B1 !! head_buf = Some h) by (unfold B1; by rewrite !list_lookup_alter_ne).
  assert (Hl1 : length B1 = length B) by (unfold B1; by rewrite !length_alter).
  unfold initsleeplock, initlock. mrun. mrun_with (get_buf_run _ head_buf h); [|exact Hh1]. rewrite En.
  mrun_with upd_buf_run; [|ksimpl; by rewrite Hl1].
  rewrite upd_buf_run; [|ksimpl; by rewrite length_alter, Hl1]. by destruct t.
Qed.

(** The first [a] buffers are linked. *)
Record init_at (a : nat) (B : list buf) (L : gmap sleeplock_id sleeplock) : Prop := {
  ia_len : length B = S NBUF;
  ia_links : seg (nxt B) (prv B) head_buf (reverse (seq 0 a)) head_buf;
  ia_zero : ∀ j x, B !! j = Some x → b_refcnt x = 0 ∧ b_dev x = 0;
  ia_locks : ∀ b, (b < a)%nat → L !! SL_buf b = Some (Sleeplock 0 "buffer" 0)
}.

Lemma linked_front_data b B j y : linked_front b B !! j = Some y → ∃ x, B !! j = Some x ∧ same_data x y.
Proof.
  unfold linked_front, set_next, set_prev. intros Hy.
  do 4 (apply alter_data in Hy as (? & Hy & (? & ? & ?)); [|done]).
  eexists. split; [exact Hy|]. unfold same_data. split_and!; congruence.
Qed.

Lemma init_at_step a B L :
  init_at a B L → (a < NBUF)%nat →
  init_at (S a) (linked_front a B) (<[SL_buf a := Sleeplock 0 "buffer" 0]> L).
Proof.
  intros [Hlen Hs Hz Hl] Ha. split.
  - by rewrite length_linked_front.
  - rewrite seq_S, reverse_snoc. apply seg_linked_front; try done.
    + intros x. rewrite elem_of_reverse, elem_of_seq. lia.
    + rewrite reverse_Permutation. apply NoDup_seq.
    + rewrite elem_of_reverse, elem_of_seq. lia.
  - intros j y (x & Hx & E1 & _ & E3)%linked_front_data. rewrite E1, E3. by apply (Hz j).
  - intros b Hb. destruct (decide (b = a)) as [->|]; [apply lookup_insert_eq|].
    rewrite lookup_insert_ne by congruence. apply Hl. lia.
Qed.

Lemma init_at_wf B L : init_at NBUF B L → cache_wf (reverse (seq 0 NBUF)) B L.
Proof.
  intros [Hlen Hs Hz Hl]. split.
  - split; [done|by rewrite reverse_Permutation|done].
  - intros b x _ Hx. destruct (Hz b x Hx) as [-> _]. lia.
  - intros i j x y _ _ Hx _ Hd. by destruct (Hz i x Hx).
  - intros b x Hb _. eexists. by split; [apply Hl|].
Qed.

Lemma init_loop n a t :
  (a + n = NBUF)%nat → init_at a (k_bcache t) (k_sleeplocks t) →
  ∃ t', for_each (seq a n) init_step t = Ret tt t' ∧ init_at NBUF (k_bcache t') (k_sleeplocks t').
Proof.
  revert a t. induction n as [|n IH]; intros a t Hn Hi; cbn [seq for_each].
  - exists t. rewrite Nat.add_0_r in Hn. by subst a.
  - pose proof Hi as [Hlen Hs _ _]. apply seg_first in Hs.
    rewrite elem_of_app, list_elem_of_singleton, elem_of_reverse, elem_of_seq in Hs. unfold head_buf in Hs.
    destruct (init_step_run a t) as [h Hrun]; [unfold head_buf; lia..|]. mrun_with Hrun.
    apply IH; [lia|]. apply init_at_step; [done|lia].
Qed.

Lemma binit_run s :
  length (k_bcache s) = S NBUF → (∀ j x, k_bcache s !! j = Some x → b_refcnt x = 0 ∧ b_dev x = 0) →
  ∃ t, binit s = Ret tt t ∧ cache_wf (reverse (seq 0 NBUF)) (k_bcache t) (k_sleeplocks t).
Proof.
  intros Hlen Hz. unfold binit, initlock. mrun. assert (Hh : (head_buf < S NBUF)%nat) by (unfold head_buf; lia).
  mrun_with upd_buf_run; [|ksimpl; by rewrite Hlen].
  mrun_with upd_buf_run; [|ksimpl; by rewrite length_alter, Hlen].
  set (t := s <| k_hw ::= _ |> <| k_bcache ::= _ |> <| k_bcache ::= _ |>).
  destruct (init_loop NBUF 0 t) as (t' & Hrun & Hi); [done| |].
  - unfold t. ksimpl. split; [by rewrite !length_alter| | |lia].
    + change (reverse (seq 0 0)) with (@nil nat). cbn [seg]. unfold nxt, prv. destruct (lookup_lt_is_Some_2 (k_bcache s) head_buf) as [x Hx]; [by rewrite Hlen|].
      by rewrite !list_lookup_alter_eq, Hx.
    + intros j y Hy. apply alter_data in Hy as (z & Hy & E1 & _ & E2); [|done].
      apply alter_data in Hy as (w & Hy & E3 & _ & E4); [|done]. rewrite E1, E2, E3, E4. by apply (Hz j).
  - exists t'. split; [exact Hrun|]. by apply init_at_wf.
Qed.

Lemma pin_run n (f : buf → buf) b s :
  hart_at n (k_hw s) → lock_free L_bcache (k_hw s) → (b < length (k_bcache s))%nat →
  (acquire L_bcache;; upd_buf b f;; release L_bcache) s = Ret tt (s <| k_bcache := alter f b (k_bcache s) |>).
Proof.
  intros Hh Hl Hb. mrun_with (acquire_run n _ s Hh Hl). mrun_with upd_buf_run; [|done].
  mrun_with (release_run n L_bcache (k_hw s)); [|done|done|done]. by destruct s.
Qed.

(** ** Every state the kernel can reach *)

(** The runs of the cache: [binit], then the operations by any processes in any
    order, a process that slept in [bget] taking its lock later, and the rest of
    the kernel, which changes neither the links nor the identity nor the count
    of a buffer, nor its lock. *)
Inductive cache_run : kernel → Prop :=
| run_binit s t :
    length (k_bcache s) = S NBUF → (∀ j x, k_bcache s !! j = Some x → b_refcnt x = 0 ∧ b_dev x = 0) →
    binit s = Ret tt t → cache_run t
| run_bget s t p y dev blockno b x :
    cache_run s → cache_user p y s → bget dev blockno s = Ret b t →
    k_bcache s !! b = Some x → b_refcnt x + 1 < 2 ^ 32 → cache_run t
| run_bget_waits s t p y dev blockno c :
    cache_run s → cache_user p y s → bget dev blockno s = Switch To_scheduler t c →
    (∀ b x, k_bcache s !! b = Some x → b_refcnt x + 1 < 2 ^ 32) → cache_run t
| run_bget_resumed s b x k pid :
    cache_run s → (b < NBUF)%nat → k_bcache s !! b = Some x → 0 < b_refcnt x → k_sleeplocks s !! SL_buf b = Some k →
    cache_run (s <| k_sleeplocks ::= <[SL_buf b := sl_taken pid k]> |>)
| run_brelse s t p y b :
    cache_run s → cache_user p y s → (b < NBUF)%nat → brelse b s = Ret tt t → cache_run t
| run_bpin s t p y b x :
    cache_run s → cache_user p y s → (b < NBUF)%nat → k_bcache s !! b = Some x → b_refcnt x + 1 < 2 ^ 32 →
    bpin b s = Ret tt t → cache_run t
| run_bunpin s t p y b x :
    cache_run s → cache_user p y s → (b < NBUF)%nat → k_bcache s !! b = Some x → 1 < b_refcnt x →
    bunpin b s = Ret tt t → cache_run t
| run_other s t :
    cache_run s → length (k_bcache t) = length (k_bcache s) →
    (∀ j x y, k_bcache s !! j = Some x → k_bcache t !! j = Some y →
       same_data x y ∧ b_next y = b_next x ∧ b_prev y = b_prev x) →
    (∀ b, k_sleeplocks t !! SL_buf b = k_sleeplocks s !! SL_buf b) → cache_run t.

Lemma cache_wf_other l s t :
  cache_wf l (k_bcache s) (k_sleeplocks s) → length (k_bcache t) = length (k_bcache s) →
  (∀ j x y, k_bcache s !! j = Some x → k_bcache t !! j = Some y →
     same_data x y ∧ b_next y = b_next x ∧ b_prev y = b_prev x) →
  (∀ b, k_sleeplocks t !! SL_buf b = k_sleeplocks s !! SL_buf b) →
  cache_wf l (k_bcache t) (k_sleeplocks t).
Proof.
  intros [[Hlen Hp Hs] Hr Ho Hk] Hl Hsame HL.
  assert (Hback : ∀ j y, k_bcache t !! j = Some y → ∃ x, k_bcache s !! j = Some x ∧ same_data x y).
  { intros j y Hy. destruct (lookup_lt_is_Some_2 (k_bcache s) j) as [x Hx]; [rewrite <- Hl; by eapply lookup_lt_Some|].
    exists x. by destruct (Hsame j x y Hx Hy). }
  assert (Hlinks : ∀ j, nxt (k_bcache t) j = nxt (k_bcache s) j ∧ prv (k_bcache t) j = prv (k_bcache s) j).
  { intros j. unfold nxt, prv. destruct (k_bcache t !! j) as [y|] eqn:Hy.
    - destruct (Hback j y Hy) as (x & Hx & _). rewrite Hx. by destruct (Hsame j x y Hx Hy) as (_ & ? & ?).
    - apply lookup_ge_None in Hy. rewrite Hl in Hy. by rewrite (proj2 (lookup_ge_None _ _) Hy). }
  split.
  - split; [congruence|done|]. eapply seg_ext; [| |exact Hs]; intros j _; apply Hlinks.
  - intros b y Hb (x & Hx & _ & _ & ->)%Hback. by eapply Hr.
  - intros i j y z Hi Hj (x & Hx & E1 & E2 & _)%Hback (w & Hw & E3 & E4 & _)%Hback Hd Hd1 Hb1. apply (Ho i j x w); congruence.
  - intros b y Hb (x & Hx & _ & _ & ->)%Hback. rewrite HL. by eapply Hk.
Qed.

Lemma bget_ret_wf l s t p y dev blockno b :
  cache_user p y s → cache_wf l (k_bcache s) (k_sleeplocks s) → bget dev blockno s = Ret b t →
  (∀ x, k_bcache s !! b = Some x → b_refcnt x + 1 < 2 ^ 32) → cache_wf l (k_bcache t) (k_sleeplocks t).
Proof.
  intros Hu Hw Hr Hmax. destruct (cache_get dev blockno l (k_bcache s)) as [[c B']|] eqn:Hg.
  2:{ by rewrite (bget_full dev blockno p y l s Hu Hw Hg) in Hr. }
  destruct (cache_get_bound _ _ _ _ _ _ _ Hw Hg) as [Hb [x Hx]].
  destruct (cw_lock _ _ _ Hw c x Hb Hx) as (k & Hk & _).
  pose proof (bget_run _ _ _ _ _ _ _ _ Hu Hw Hg) as Hrun. rewrite Hr in Hrun.
  assert (Hsl : sl_user (SL_buf c) p y (s <| k_bcache := B' |>)) by (by apply cache_user_sl; [apply cache_user_buf|]).
  destruct (decide (sl_locked k = 0)) as [Hz|Hz].
  - rewrite (acquiresleep_free _ _ _ k _ Hsl Hk Hz) in Hrun. simplify_eq/=. eapply cache_get_wf; [done..|]. by apply Hmax.
  - destruct (acquiresleep_busy _ _ _ k _ Hsl Hk Hz) as (d & E & _). rewrite E in Hrun. by destruct Hrun.
Qed.

Lemma bget_waits_wf l s t p y dev blockno c :
  cache_user p y s → cache_wf l (k_bcache s) (k_sleeplocks s) → bget dev blockno s = Switch To_scheduler t c →
  (∀ b x, k_bcache s !! b = Some x → b_refcnt x + 1 < 2 ^ 32) → cache_wf l (k_bcache t) (k_sleeplocks t).
Proof.
  intros Hu Hw Hr Hmax. destruct (cache_get dev blockno l (k_bcache s)) as [[b B']|] eqn:Hg.
  2:{ by rewrite (bget_full dev blockno p y l s Hu Hw Hg) in Hr. }
  destruct (cache_get_bound _ _ _ _ _ _ _ Hw Hg) as [Hb [x Hx]].
  destruct (cw_lock _ _ _ Hw b x Hb Hx) as (k & Hk & _).
  pose proof (bget_run _ _ _ _ _ _ _ _ Hu Hw Hg) as Hrun. rewrite Hr in Hrun.
  assert (Hsl : sl_user (SL_buf b) p y (s <| k_bcache := B' |>)) by (by apply cache_user_sl; [apply cache_user_buf|]).
  destruct (decide (sl_locked k = 0)) as [Hz|Hz].
  - by rewrite (acquiresleep_free _ _ _ k _ Hsl Hk Hz) in Hrun.
  - destruct (acquiresleep_busy _ _ _ k _ Hsl Hk Hz) as (d & E & _). rewrite E in Hrun. destruct Hrun as [c' Hrun].
    simplify_eq. cbn [k_bcache k_sleeplocks set set_k_procs set_k_hw set_k_bcache].
    rewrite <- (insert_id _ _ _ Hk). eapply cache_get_wf; [done..|]. by eapply Hmax.
Qed.

Lemma cache_wf_count l s b f x :
  cache_wf l (k_bcache s) (k_sleeplocks s) → (b < NBUF)%nat → k_bcache s !! b = Some x →
  same_data x (f x) ∨ (b_dev (f x) = b_dev x ∧ b_blockno (f x) = b_blockno x ∧ 0 < b_refcnt (f x) < 2 ^ 32) →
  b_next (f x) = b_next x → b_prev (f x) = b_prev x →
  cache_wf l (alter f b (k_bcache s)) (k_sleeplocks s).
Proof.
  intros Hw Hb Hx Hd Hn Hp. destruct (cw_lock _ _ _ Hw b x Hb Hx) as (k & Hk & Hz).
  pose proof (cw_ref _ _ _ Hw b x Hb Hx) as Hr. rewrite <- (insert_id _ _ _ Hk).
  apply (cache_wf_alter _ _ _ _ _ x); try done; destruct Hd as [(E1 & E2 & E3)|(E1 & E2 & E3)]; try lia; try (by left);
    rewrite E3; done.
Qed.

(** C27: in every state the kernel can reach, the links of the buffer cache form
    one cycle through all buffers and the list head, a locked buffer is a
    referenced one, and no block of a device is cached in two buffers. *)
Theorem cache_invariant s : cache_run s → ∃ l, cache_wf l (k_bcache s) (k_sleeplocks s).
Proof.
  induction 1 as [s t Hlen Hz Hr|s t p y dev blockno b x _ [l Hw] Hu Hr Hx Hm|s t p y dev blockno c _ [l Hw] Hu Hr Hm
    |s b x k pid _ [l Hw] Hb Hx Hpos Hk|s t p y b _ [l Hw] Hu Hb Hr|s t p y b x _ [l Hw] Hu Hb Hx Hm Hr
    |s t p y b x _ [l Hw] Hu Hb Hx Hm Hr|s t _ [l Hw] Hlen Hd HL].
  - destruct (binit_run s Hlen Hz) as (t' & E & Hw). rewrite E in Hr. simplify_eq. by eexists.
  - exists l. eapply bget_ret_wf; [done..|]. intros; by simplify_eq.
  - exists l. by eapply bget_waits_wf.
  - exists l. ksimpl. rewrite <- (list_alter_id' id (k_bcache s) b) by done.
    apply (cache_wf_alter _ _ _ _ _ x); try done; [by eapply cw_ref|cbn; lia|by left].
  - destruct (lru_lookup _ _ b (cw_lru _ _ _ Hw)) as [x Hx]; [lia|].
    destruct (cw_lock _ _ _ Hw b x Hb Hx) as (k & Hk & _).
    destruct (decide (sl_locked k ≠ 0 ∧ sl_pid k = p_pid y)) as [[H1' H2']|Hno].
    + rewrite (brelse_run _ _ _ _ _ _ _ Hu Hw Hb Hx Hk H1' H2') in Hr. simplify_eq. ksimpl.
      pose proof (brelse_owned _ _ _ _ _ _ _ Hu Hw Hb Hx Hk H1') as Hput.
      destruct (cache_put b l (k_bcache s)) as [l' B']. by exists l'.
    + by rewrite (brelse_denied p y s b k) in Hr.
  - exists l. unfold bpin in Hr. rewrite (pin_run 0) in Hr; [|apply Hu|apply Hu|by eapply lookup_lt_Some]. simplify_eq. ksimpl.
    apply (cache_wf_count l s b _ x); try done. right. pose proof (cw_ref _ _ _ Hw b x Hb Hx).
    unfold u32. ksimpl. rewrite Z.mod_small; lia.
  - exists l. unfold bunpin in Hr. rewrite (pin_run 0) in Hr; [|apply Hu|apply Hu|by eapply lookup_lt_Some]. simplify_eq. ksimpl.
    apply (cache_wf_count l s b _ x); try done. right. pose proof (cw_ref _ _ _ Hw b x Hb Hx).
    unfold u32. ksimpl. rewrite Z.mod_small; lia.
  - exists l. by apply (cache_wf_other l s).
Qed.

End ops.

(** ** Evaluation on the concrete machine *)

#[local] Existing Instance demo_image.
#[local] Existing Instance demo_device.
#[local] Instance demo_patience : Patience := {| patience := 1 |}.

(** The cache as [binit] links it, without the contents of the blocks. *)
Definition demo_bufs : list buf :=
  (λ i, Buf 0 0 0 0 0 (if (i =? NBUF)%nat then 0%nat else S i) (if (i =? 0)%nat then NBUF else pred i) []) <$> seq 0 (S NBUF).
Definition demo_cache (B : list buf) (L : gmap sleeplock_id sleeplock) : kernel :=
  demo_sl <| k_bcache := B |> <| k_sleeplocks := L |>.
Definition demo_order : list nat := reverse (seq 0 NBUF).

Lemma demo_cache_wf : cache_wf demo_order demo_bufs (k_sleeplocks demo_sl).
Proof.
  assert (Hz : ∀ b x, demo_bufs !! b = Some x → b_refcnt x = 0 ∧ b_dev x = 0).
  { intros b x Hx. unfold demo_bufs in Hx. apply list_lookup_fmap_Some in Hx as (i & -> & _). done. }
  split.
  - split; [reflexivity|apply reverse_Permutation|]. vm_compute. repeat split.
  - intros b x _ Hx. destruct (Hz b x Hx) as [-> _]. lia.
  - intros i j x y _ _ Hx _ Hd. by destruct (Hz i x Hx).
  - intros b x Hb _. eexists. split; [exact (proj2 (demo_sl_locks b Hb))|done].
Qed.

Lemma demo_cache_user B L :
  cache_user 3 (demo_proc RUNNING Ch_null 4) (demo_cache B L).
Proof.
  split; unfold demo_cache; ksimpl; [apply demo_sl_hart_at|vm_compute; reflexivity|apply demo_sl_proc_locks| | |vm_compute; reflexivity|vm_compute; reflexivity].
  - apply demo_sl_free. vm_compute. reflexivity.
  - intros b Hb. exact (proj1 (demo_sl_locks b Hb)).
Qed.

Lemma bget_refines_lru_witness :
  ∃ t, bget 1 7 (demo_cache demo_bufs (k_sleeplocks demo_sl)) = Ret 0%nat t.
Proof.
  pose proof (bget_refines_lru 1 7 3 (demo_proc RUNNING Ch_null 4) demo_order (demo_cache demo_bufs (k_sleeplocks demo_sl))
    (demo_cache_user _ _) demo_cache_wf) as Hg.
  change (k_bcache (demo_cache _ _)) with demo_bufs in Hg.
  replace (cache_get 1 7 demo_order demo_bufs) with (Some (0%nat, alter (recycled 1 7) 0%nat demo_bufs)) in Hg
    by (vm_compute; reflexivity).
  destruct Hg as (x & k & _ & Hk & Hfree & _). eexists. apply Hfree.
  change (k_sleeplocks (demo_cache _ _)) with (k_sleeplocks demo_sl) in Hk.
  rewrite (proj2 (demo_sl_locks 0 ltac:(vm_compute; lia))) in Hk. injection Hk as <-. reflexivity.
Defined.

(** Process 3 holds buffer 0, which caches block 7 of device 1. *)
Definition demo_held_bufs : list buf := alter (recycled 1 7) 0%nat demo_bufs.
Definition demo_held_locks : gmap sleeplock_id sleeplock :=
  <[SL_buf 0 := Sleeplock 1 "buffer" 4]> (k_sleeplocks demo_sl).

Lemma demo_held_wf : cache_wf demo_order demo_held_bufs demo_held_locks.
Proof.
  apply (cache_get_wf 1 7 demo_order demo_bufs _ 0 _ (Buf 0 0 0 0 0 1 NBUF []));
    [exact demo_cache_wf|vm_compute; reflexivity|vm_compute; reflexivity|reflexivity].
Qed.

Lemma brelse_refines_lru_witness :
  ∃ t, brelse 0 (demo_cache demo_held_bufs demo_held_locks) = Ret tt t.
Proof.
  destruct (brelse_refines_lru 3 (demo_proc RUNNING Ch_null 4) demo_order (demo_cache demo_held_bufs demo_held_locks) 0
    (recycled 1 7 (Buf 0 0 0 0 0 1 NBUF [])) (Sleeplock 1 "buffer" 4) (demo_cache_user _ _) demo_held_wf) as [Hr _].
  - vm_compute. lia.
  - vm_compute. reflexivity.
  - apply lookup_insert_eq.
  - destruct (cache_put 0 demo_order _) as [l' B']. destruct Hr as [Hr _]; [split; [discriminate|reflexivity]|].
    eexists. exact Hr.
Defined.

Lemma cache_invariant_witness : ∃ t, binit boot_state = Ret tt t ∧ ∃ l, cache_wf l (k_bcache t) (k_sleeplocks t).
Proof.
  assert (Hl : length (k_bcache boot_state) = S NBUF) by (vm_compute; reflexivity).
  assert (Hz : ∀ j x, k_bcache boot_state !! j = Some x → b_refcnt x = 0 ∧ b_dev x = 0).
  { intros j x Hx. change (k_bcache boot_state) with (replicate (S NBUF) zero_buf) in Hx.
    apply lookup_replicate in Hx as [-> _]. split; reflexivity. }
  destruct (binit_run boot_state Hl Hz) as (t & Hr & _). exists t. split; [exact Hr|].
  exact (cache_invariant t (run_binit boot_state t Hl Hz Hr)).
Defined.
