(* ===== verification/DiskSpec.v ===== *)
(** * The disk driver against a virtio disk

    The device is not part of the sources: [serve], a parameter, is what it
    does with the request at the head of its queue, and [device_ok] what the
    driver relies on (the block requests of the virtio specification). *)

From S2P Require Import Prelude Riscv State Boot Spinlock ProcTable Machine CString Kalloc Vm Printf Sched SchedSpec Sleeplock SleeplockSpec FsDefs Virtio Bio BioSpec.

(** ** Disks *)

(** The contents of the medium, by byte address. *)
Definition disk := Z → Z.
Definition rd_disk (d : disk) (off : Z) (n : nat) : list Z := (λ i, d (off + Z.of_nat i)) <$> seq 0 n.
Definition wr_disk (off : Z) (bs : list Z) (d : disk) : disk := λ a,
  if (off <=? a) && (a <? off + Z.of_nat (length bs)) then default 0 (bs !! Z.to_nat (a - off)) else d a.

Definition block (d : disk) (bn : Z) : list Z := rd_disk d (bn * BSIZE) (Z.to_nat BSIZE).
Definition wr_block (bn : Z) (bs : list Z) (d : disk) : disk := wr_disk (bn * BSIZE) bs d.

Lemma length_block d bn : length (block d bn) = Z.to_nat BSIZE.
Proof. unfold block, rd_disk. by rewrite length_fmap, length_seq. Qed.

Lemma rd_disk_lookup d off n i : (i < n)%nat → rd_disk d off n !! i = Some (d (off + Z.of_nat i)).
Proof. intros Hi. unfold rd_disk. rewrite list_lookup_fmap, lookup_seq_lt by done. done. Qed.

Lemma block_wr_same bn bs d : length bs = Z.to_nat BSIZE → block (wr_block bn bs d) bn = bs.
Proof.
  intros Hl. apply list_eq. intros i. destruct (decide (i < Z.to_nat BSIZE)%nat) as [Hi|Hi].
  - unfold block. rewrite rd_disk_lookup by done. unfold wr_block, wr_disk. rewrite Hl.
    destruct (lookup_lt_is_Some_2 bs i) as [x Hx]; [lia|].
    rewrite (proj2 (Z.leb_le _ _)), (proj2 (Z.ltb_lt _ _)) by lia. cbn [andb].
    replace (Z.to_nat (bn * BSIZE + Z.of_nat i - bn * BSIZE)) with i by lia. by rewrite Hx.
  - rewrite !(proj2 (lookup_ge_None _ _)) by (rewrite ?length_block; lia). done.
Qed.

Lemma block_wr_other bn bn' bs d : length bs = Z.to_nat BSIZE → bn ≠ bn' → block (wr_block bn bs d) bn' = block d bn'.
Proof.
  intros Hl Hne. apply list_eq. intros i. destruct (decide (i < Z.to_nat BSIZE)%nat) as [Hi|Hi].
  - unfold block. rewrite !rd_disk_lookup by done. f_equal. unfold wr_block, wr_disk. rewrite Hl.
    unfold BSIZE in *. destruct (Z.leb_spec (bn * 1024) (bn' * 1024 + Z.of_nat i)); [|done].
    destruct (Z.ltb_spec (bn' * 1024 + Z.of_nat i) (bn * 1024 + Z.of_nat (Z.to_nat 1024))); [|done]. lia.
  - rewrite !(proj2 (lookup_ge_None _ _)) by (rewrite ?length_block; lia). done.
Qed.

(** ** The device *)

(** After the device has handled the chain that starts at descriptor [i] with
    status byte [n]. *)
Definition completed (i n : nat) (v : vdisk) : vdisk :=
  v <| vk_info_status ::= <[n := 0]> |>
    <| vk_used_ring ::= <[Z.to_nat (vk_used_dev_idx v mod Z.of_nat NUM) := Z.of_nat i]> |>
    <| vk_used_dev_idx ::= λ k, u16 (k + 1) |>.

(** The next request in the available ring: a block read or written by a chain
    of three descriptors. *)
Record request (v : vdisk) (write : bool) (i b n : nat) (sector : Z) : Prop := {
  rq_new : vk_used_dev_idx v ≠ vk_avail_idx v;
  rq_head : vk_avail_ring v !! Z.to_nat (vk_used_dev_idx v mod Z.of_nat NUM) = Some (Z.of_nat i);
  rq_chain : ∃ j k m,
    vk_desc v !! i = Some (Virtq_desc (A_ops m) 16 VRING_DESC_F_NEXT (Z.of_nat j)) ∧
    vk_ops v !! m = Some (Blk_req (if write then VIRTIO_BLK_T_OUT else VIRTIO_BLK_T_IN) 0 sector) ∧
    vk_desc v !! j = Some (Virtq_desc (A_bufdata b) BSIZE
      (Z.lor (if write then 0 else VRING_DESC_F_WRITE) VRING_DESC_F_NEXT) (Z.of_nat k)) ∧
    vk_desc v !! k = Some (Virtq_desc (A_status n) 1 VRING_DESC_F_WRITE 0)
}.

(** The device turns the driver's queue, the buffers and the medium into what
    they are when it raises its interrupt.  A request is carried out as a
    whole. *)
Definition device := vdisk → list buf → disk → vdisk * list buf * disk.

Definition device_ok (serve : device) : Prop := ∀ v B d i b n sector x,
  B !! b = Some x →
  (request v true i b n sector →
     serve v B d = (completed i n v, B, wr_disk (sector * 512) (b_data x) d)) ∧
  (request v false i b n sector →
     serve v B d = (completed i n v,
       alter (λ y, y <| b_data := rd_disk d (sector * 512) (Z.to_nat BSIZE) |>) b B, d)).

(** ** The driver between requests *)

Record vdisk_idle (v : vdisk) : Prop := {
  vi_free : vk_free v = replicate NUM 1;
  vi_desc : length (vk_desc v) = NUM;
  vi_avail : length (vk_avail_ring v) = NUM;
  vi_used : length (vk_used_ring v) = NUM;
  vi_info : length (vk_info_b v) = NUM;
  vi_status : length (vk_info_status v) = NUM;
  vi_ops : length (vk_ops v) = NUM;
  vi_avail_idx : vk_avail_idx v = vk_used_dev_idx v;
  vi_used_idx : vk_used_idx v = vk_used_dev_idx v;
  vi_range : 0 ≤ vk_used_dev_idx v < 2 ^ 16
}.

(** The request as the driver writes it, when all descriptors are free. *)
Definition submitted (b : nat) (write : bool) (sector : Z) (v : vdisk) : vdisk :=
  v <| vk_free := [0; 0; 0; 1; 1; 1; 1; 1] |>
    <| vk_ops ::= <[0%nat := Blk_req (if write then VIRTIO_BLK_T_OUT else VIRTIO_BLK_T_IN) 0 sector]> |>
    <| vk_desc ::= λ l, <[2%nat := Virtq_desc (A_status 0) 1 VRING_DESC_F_WRITE 0]>
         (<[1%nat := Virtq_desc (A_bufdata b) BSIZE (Z.lor (if write then 0 else VRING_DESC_F_WRITE) VRING_DESC_F_NEXT) 2]>
         (<[0%nat := Virtq_desc (A_ops 0) 16 VRING_DESC_F_NEXT 1]> l)) |>
    <| vk_info_status ::= <[0%nat := 0xff]> |>
    <| vk_info_b ::= <[0%nat := Some b]> |>
    <| vk_avail_ring ::= <[Z.to_nat (vk_avail_idx v mod Z.of_nat NUM) := 0]> |>
    <| vk_avail_idx ::= λ n, u16 (n + 1) |>.

Lemma submitted_request b w sector v : vdisk_idle v → request (submitted b w sector v) w 0 b 0 sector.
Proof.
  intros [Hf Hd Ha Hu Hi Hs Ho Hai Hui Hr]. unfold NUM in *. split.
  - unfold submitted. ksimpl. rewrite Hai. unfold u16.
    destruct (decide (vk_used_dev_idx v = 2 ^ 16 - 1)) as [->|]; [done|]. rewrite Z.mod_small; lia.
  - unfold submitted. ksimpl. rewrite Hai. apply list_lookup_insert_eq. rewrite Ha.
    pose proof (Z.mod_pos_bound (vk_used_dev_idx v) (Z.of_nat NUM) ltac:(unfold NUM; lia)). unfold NUM in *. lia.
  - exists 1%nat, 2%nat, 0%nat. unfold submitted. ksimpl. split_and!.
    + rewrite !list_lookup_insert_ne by done. apply list_lookup_insert_eq. lia.
    + apply list_lookup_insert_eq. lia.
    + rewrite list_lookup_insert_ne by done. apply list_lookup_insert_eq. rewrite length_insert. lia.
    + apply list_lookup_insert_eq. rewrite !length_insert. lia.
Qed.

(** What the rest of the system leaves to a process that waits: bytes of the
    memory, entries of the file table, its kernel stack and its page table. *)
Class Own := { own_mem : Z → Prop; own_file : nat → Prop; own_kstack : Z; own_pagetable : Z }.

Definition same_mem `{Own} (s s' : kernel) : Prop := ∀ a, own_mem a → k_mem s' !! a = k_mem s !! a.
Definition same_own `{Own} (s s' : kernel) : Prop :=
  same_mem s s' ∧ (∀ f, own_file f → k_ftable s' !! f = k_ftable s !! f).
Definition self `{Own} (pid : Z) (y : proc) : Prop :=
  p_pid y = pid ∧ p_kstack y = own_kstack ∧ p_pagetable y = own_pagetable.

#[export] Instance same_mem_preorder `{Own} : PreOrder same_mem.
Proof. split; [by intros s a|]. intros s t u Hm Hm' a Ha. by rewrite Hm', Hm. Qed.
#[export] Instance same_own_preorder `{Own} : PreOrder same_own.
Proof.
  split; [by intros s; split|]. intros s t u [Hm Hf] [Hm' Hf'].
  split; [by rewrite Hm|intros f Hi; by rewrite Hf', Hf].
Qed.

Lemma self_woken `{Own} pid me ch i y : self pid y → self pid (woken me ch i y).
Proof. unfold woken. by destruct (bool_decide _). Qed.

Section driver.
Context `{Image, Device, Patience, Own}.

Lemma disk_comp s f g : s <| k_vdisk ::= f |> <| k_vdisk ::= g |> = s <| k_vdisk := g (f (k_vdisk s)) |>.
Proof. by destruct s. Qed.

Lemma disk_set s f : s <| k_vdisk ::= f |> = s <| k_vdisk := f (k_vdisk s) |>.
Proof. by destruct s. Qed.

(** ** Submitting a request *)

Lemma for_ret_first {B} (body : nat → M (option B)) n k i s x t :
  (k ≤ i < k + n)%nat → (∀ j, (j < i)%nat → body j s = Ret None s) → body i s = Ret (Some x) t →
  for_ret (seq k n) body s = Ret (Some x) t.
Proof.
  revert k. induction n as [|n IH]; intros k Hi Hj Hx; [lia|]. cbn [seq for_ret].
  destruct (decide (k = i)) as [->|]; [by mrun_with Hx|]. mrun_with Hj; [|lia]. apply IH; [lia|done|done].
Qed.

Lemma take_free v i l : vk_free v = replicate i 0 ++ 1 :: l →
  v <| vk_free ::= λ l, <[i := 0]> l |> = v <| vk_free := replicate i 0 ++ 0 :: l |>.
Proof.
  destruct v. cbv [set set_vk_free]. ksimpl. intros ->. f_equal.
  rewrite insert_app_r_alt, length_replicate by (by rewrite length_replicate). by rewrite Nat.sub_diag.
Qed.

Lemma alloc_desc_run s i l : (i < NUM)%nat → vk_free (k_vdisk s) = replicate i 0 ++ 1 :: l →
  alloc_desc s = Ret (Z.of_nat i) (s <| k_vdisk ::= λ v, v <| vk_free := replicate i 0 ++ 0 :: l |> |>).
Proof.
  intros Hi Hf. unfold alloc_desc, get_disk, upd_disk.
  mrun_with (for_ret_first _ NUM 0 i s (Z.of_nat i) (s <| k_vdisk ::= λ v, v <| vk_free := replicate i 0 ++ 0 :: l |> |>)); [done|lia| |].
  - intros j Hj. mrun. rewrite Hf, lookup_app_l by (by rewrite length_replicate). by rewrite lookup_replicate_2.
  - mrun. rewrite Hf. rewrite list_lookup_middle by (by rewrite length_replicate). cbn [default from_option truth Z.eqb negb id]. mrun.
    f_equal. rewrite (disk_set s (set vk_free _)), (take_free _ _ _ Hf). by destruct s.
Qed.

Lemma alloc3_run s : vdisk_idle (k_vdisk s) →
  alloc3_desc s = Ret (Some (0, 1, 2)) (s <| k_vdisk ::= λ v, v <| vk_free := [0; 0; 0; 1; 1; 1; 1; 1] |> |>).
Proof.
  intros [Hf _ _ _ _ _ _ _ _ _]. unfold alloc3_desc.
  mrun_with (alloc_desc_run s 0 (replicate 7 1)); [|unfold NUM; lia|done].
  change (Z.of_nat 0 <? 0) with false. cbv iota.
  mrun_with (alloc_desc_run _ 1 (replicate 6 1)); [|unfold NUM; lia|done].
  change (Z.of_nat 1 <? 0) with false. cbv iota.
  mrun_with (alloc_desc_run _ 2 (replicate 5 1)); [|unfold NUM; lia|done].
  change (Z.of_nat 2 <? 0) with false. cbv iota. mrun. by destruct s.
Qed.

(** ** Freeing the descriptors *)

Definition freed (i : nat) (v : vdisk) : vdisk :=
  v <| vk_desc ::= λ l, <[i := zero_desc]> l |> <| vk_free ::= λ l, <[i := 1]> l |>.
Definition wake_free (h : hart) : list proc → list proc := imap (woken (cur_proc h) Ch_disk_free).

Lemma free_desc_run n s i : sweepable n s → (i < NUM)%nat → vk_free (k_vdisk s) !! i = Some 0 →
  free_desc (Z.of_nat i) s = Ret tt (s <| k_vdisk ::= freed i |> <| k_procs ::= wake_free (k_hw s) |>).
Proof.
  intros Hs Hi Hf. unfold free_desc, get_disk, upd_disk. rewrite (proj2 (Z.leb_gt _ _)) by lia. mrun.
  rewrite Nat2Z.id, Hf. mrun. cbn [truth Z.eqb negb]. mrun. rewrite (wakeup_run n) by (by destruct Hs).
  ksimpl. by destruct s.
Qed.

Lemma sweepable_disk n s f g :
  sweepable n s → (∀ l, length (g l) = length l) → sweepable n (s <| k_vdisk ::= f |> <| k_procs ::= g |>).
Proof. intros [Hh Hp Hl] Hg. split; [done|done|]. ksimpl. by rewrite Hg. Qed.

Lemma length_wake_free h l : length (wake_free h l) = length l.
Proof. apply length_imap. Qed.

Lemma wake_free_pid h P p pid :
  (∃ y, P !! p = Some y ∧ self pid y) → ∃ y, wake_free h P !! p = Some y ∧ self pid y.
Proof.
  intros (y & Hy & Hs). unfold wake_free. rewrite list_lookup_imap, Hy. cbn. eexists. split; [done|]. by apply self_woken.
Qed.

Lemma after_wait s h1 h2 (g1 g2 : list proc → list proc) (f1 f2 : vdisk → vdisk) :
  s <| k_hw := h1 |> <| k_procs ::= g1 |> <| k_vdisk ::= f1 |> <| k_vdisk ::= f2 |> <| k_procs ::= g2 |> <| k_hw := h2 |> =
  s <| k_hw := h2 |> <| k_vdisk ::= λ v, f2 (f1 v) |> <| k_procs := g2 (g1 (k_procs s)) |>.
Proof. by destruct s. Qed.

(** One round of [free_chain]. *)
Definition chain_body (i : Z) : M (Z + unit) :=
  d ← get_disk;
  x ← of_option (vk_desc d !! Z.to_nat i);
  let flag := vd_flags x in
  let nxt := vd_next x in
  free_desc i;;
  if truth (Z.land flag VRING_DESC_F_NEXT) then mret (inl nxt) else mret (inr tt).

Lemma chain_body_run n s i x : sweepable n s → (i < NUM)%nat →
  vk_desc (k_vdisk s) !! i = Some x → vk_free (k_vdisk s) !! i = Some 0 →
  chain_body (Z.of_nat i) s =
    Ret (if truth (Z.land (vd_flags x) VRING_DESC_F_NEXT) then inl (vd_next x) else inr tt)
      (s <| k_vdisk ::= freed i |> <| k_procs ::= wake_free (k_hw s) |>).
Proof.
  intros Hs Hi Hx Hf. unfold chain_body, get_disk. mrun. rewrite Nat2Z.id, Hx. mrun.
  mrun_with (free_desc_run n s i Hs Hi Hf). by destruct (truth _).
Qed.

Lemma freed_other i j v : i ≠ j →
  vk_desc (freed i v) !! j = vk_desc v !! j ∧ vk_free (freed i v) !! j = vk_free v !! j.
Proof. intros Hne. unfold freed. ksimpl. by rewrite !list_lookup_insert_ne. Qed.

Lemma free_chain_run n s x y z :
  sweepable n s →
  vk_desc (k_vdisk s) !! 0%nat = Some x → vk_desc (k_vdisk s) !! 1%nat = Some y → vk_desc (k_vdisk s) !! 2%nat = Some z →
  truth (Z.land (vd_flags x) VRING_DESC_F_NEXT) = true → vd_next x = 1 →
  truth (Z.land (vd_flags y) VRING_DESC_F_NEXT) = true → vd_next y = 2 →
  truth (Z.land (vd_flags z) VRING_DESC_F_NEXT) = false →
  (∀ i, (i < 3)%nat → vk_free (k_vdisk s) !! i = Some 0) →
  free_chain 0 s = Ret tt (s <| k_vdisk ::= λ v, freed 2 (freed 1 (freed 0 v)) |>
    <| k_procs ::= λ l, wake_free (k_hw s) (wake_free (k_hw s) (wake_free (k_hw s) l)) |>).
Proof.
  intros Hs Hx Hy Hz Hfx Hnx Hfy Hny Hfz Hfree. unfold free_chain. fold chain_body. change NUM with (S (S (S 5))). cbn [while_].
  change 0 with (Z.of_nat 0). mrun_with (chain_body_run n s 0 x Hs); [|unfold NUM; lia|done|apply Hfree; lia].
  rewrite Hfx, Hnx. set (s1 := s <| _ ::= _ |> <| _ ::= _ |>). change 1 with (Z.of_nat 1).
  assert (sweepable n s1) as Hs1 by (by apply sweepable_disk; [|apply length_wake_free]).
  mrun_with (chain_body_run n s1 1 y Hs1); [|unfold NUM; lia| |]; unfold s1; ksimpl.
  2:{ by rewrite (proj1 (freed_other 0 1 _ ltac:(lia))). }
  2:{ rewrite (proj2 (freed_other 0 1 _ ltac:(lia))). apply Hfree. lia. }
  rewrite Hfy, Hny. fold s1. set (s2 := s1 <| _ ::= _ |> <| _ ::= _ |>). change 2 with (Z.of_nat 2).
  assert (sweepable n s2) as Hs2 by (by apply sweepable_disk; [|apply length_wake_free]).
  mrun_with (chain_body_run n s2 2 z Hs2); [|unfold NUM; lia| |]; unfold s2, s1; ksimpl.
  2:{ rewrite (proj1 (freed_other 1 2 _ ltac:(lia))). by rewrite (proj1 (freed_other 0 2 _ ltac:(lia))). }
  2:{ rewrite (proj2 (freed_other 1 2 _ ltac:(lia))). rewrite (proj2 (freed_other 0 2 _ ltac:(lia))). apply Hfree. lia. }
  rewrite Hfz. mrun. by destruct s.
Qed.

(** ** A request, up to the wait and after it *)

(** The spinlocks on the way from the file system to the disk. *)
Definition io_lock (lk : lock_id) : Prop :=
  lk ∈ [L_vdisk; L_bcache; L_log; L_pr; L_itable] ∨ (∃ b, (b < NBUF)%nat ∧ lk = L_sleep (SL_buf b)) ∨
  ∃ i, (i < NINODE)%nat ∧ lk = L_sleep (SL_inode i).

(** Process [p] with pid [pid] runs, and no spinlock is held. *)
Record disk_user (p : nat) (pid : Z) (h : hart) (P : list proc) : Prop := {
  du_hart : hart_at 0 h;
  du_cur : cur_proc h = Some p;
  du_procs : proc_locks_free h;
  du_locks : ∀ lk, io_lock lk → lock_free lk h;
  du_len : length P = NPROC;
  du_proc : ∃ y, P !! p = Some y ∧ self pid y
}.

Lemma io_lock_vdisk : io_lock L_vdisk.
Proof. left. set_solver. Qed.
Lemma io_lock_bcache : io_lock L_bcache.
Proof. left. set_solver. Qed.
Lemma io_lock_log : io_lock L_log.
Proof. left. set_solver. Qed.
Lemma io_lock_itable : io_lock L_itable.
Proof. left. set_solver. Qed.
Lemma io_lock_pr : io_lock L_pr.
Proof. left. set_solver. Qed.
Lemma io_lock_buf b : (b < NBUF)%nat → io_lock (L_sleep (SL_buf b)).
Proof. intros. right. left. by exists b. Qed.
Lemma io_lock_inode i : (i < NINODE)%nat → io_lock (L_sleep (SL_inode i)).
Proof. intros. right. right. by exists i. Qed.
#[local] Hint Resolve io_lock_vdisk io_lock_bcache io_lock_pr io_lock_buf : core.

Definition asleep (ch : chan_id) (x : proc) : proc := x <| p_chan := ch |> <| p_state := SLEEPING |>.
Definition sector_of (x : buf) : Z := u32 (b_blockno x * (BSIZE / 512)).

(** The state in which the request waits for the device. *)
Definition requested (p : nat) (b : nat) (w : bool) (x : buf) (s : kernel) : kernel :=
  s <| k_hw := acq (L_proc p) (k_hw s) |>
    <| k_vdisk ::= submitted b w (sector_of x) |>
    <| k_bcache ::= alter (λ x, x <| b_disk := 1 |>) b |>
    <| k_mmio_out ::= λ l, l ++ [(VIRTIO0 + VIRTIO_MMIO_QUEUE_NOTIFY, 0)] |>
    <| k_procs ::= alter (asleep (Ch_buf b)) p |>.

(** What the driver does to its state after the wait. *)
Definition finished (v : vdisk) : vdisk :=
  freed 2 (freed 1 (freed 0 (v <| vk_info_b ::= <[0%nat := None]> |>))).

Definition chain_of (v : vdisk) : Prop :=
  (∃ x y z, vk_desc v !! 0%nat = Some x ∧ vk_desc v !! 1%nat = Some y ∧ vk_desc v !! 2%nat = Some z ∧
    truth (Z.land (vd_flags x) VRING_DESC_F_NEXT) = true ∧ vd_next x = 1 ∧
    truth (Z.land (vd_flags y) VRING_DESC_F_NEXT) = true ∧ vd_next y = 2 ∧
    truth (Z.land (vd_flags z) VRING_DESC_F_NEXT) = false) ∧
  ∀ i, (i < 3)%nat → vk_free v !! i = Some 0.

Lemma rw_run p pid b w x s :
  disk_user p pid (k_hw s) (k_procs s) → vdisk_idle (k_vdisk s) → k_bcache s !! b = Some x →
  ∃ c, virtio_disk_rw b w s = Switch To_scheduler (requested p b w x s) c ∧
    ∀ s' h' x', (0 < patience)%nat → disk_user p pid h' (k_procs s') → k_hw s' = acq (L_proc p) h' →
      k_bcache s' !! b = Some x' → b_disk x' ≠ 1 → chain_of (k_vdisk s') →
      ∃ P, disk_user p pid (set_ie (ie (k_hw s)) h') P ∧
        c s' = Ret tt (s' <| k_hw := set_ie (ie (k_hw s)) h' |> <| k_vdisk ::= finished |> <| k_procs := P |>).
Proof.
  intros [Hh Hc Hp Hlks Hlen (y & Hy & Hpid)] Hv Hx. pose proof (Hlks _ io_lock_vdisk) as Hl. unfold virtio_disk_rw. mrun_with (get_buf_run s b x Hx).
  mrun_with (acquire_run 0 _ s Hh Hl). cbn [while_]. set (s1 := s <| k_hw := _ |>).
  mrun_with (alloc3_run s1 Hv). cbn beta iota.
  unfold set_desc, upd_disk, get_disk, virtio_write, mmio_write. mrun.
  mrun_with upd_buf_run; [|by eapply lookup_lt_Some].
  set (t := _ <| k_mmio_out ::= _ |>).
  assert (k_hw t = acq L_vdisk (k_hw s)) as Ht by done.
  assert (k_procs t !! p = Some y) as Hyt by done.
  assert (k_bcache t !! b = Some (x <| b_disk := 1 |>)) as Hxt.
  { change (k_bcache t) with (alter (λ x, x <| b_disk := 1 |>) b (k_bcache s)). by rewrite list_lookup_alter_eq, Hx. }
  assert (t <| k_hw := acq (L_proc p) (k_hw s) |> <| k_procs ::= alter (asleep (Ch_buf b)) p |> = requested p b w x s) as Hreq
    by (unfold t, s1, requested; by destruct s as []).
  clearbody t. mrun_with (get_buf_run t b _ Hxt). cbn [b_disk set set_b_disk Z.eqb Pos.eqb].
  destruct (sleep_run p y (Ch_buf b) L_vdisk (k_hw s) t) as (c & Hsleep & Hres); try done.
  { apply Hp. rewrite <- Hlen. by eapply lookup_lt_Some. }
  mrun_with Hsleep. eexists. split; [by rewrite <- Hreq|].
  intros s' h' x' Hpat [Hh' Hc' Hp' Hlks' Hlen' (y' & Hy' & Hpid')] Hs' Hx' Hd [(d0 & d1 & d2 & H0' & H1' & H2' & Hf) Hfree].
  pose proof (Hlks' _ io_lock_vdisk) as Hl'. cbn beta. rewrite (Hres s' h' y'); try done. 2:{ apply Hp'. rewrite <- Hlen'. by eapply lookup_lt_Some. }
  mrun. set (h2 := set_ie (ie (k_hw s)) h'). set (t' := s' <| k_hw := acq L_vdisk h2 |> <| k_procs ::= _ |>).
  destruct patience as [|m]; [lia|]. cbn [while_].
  mrun_with (get_buf_run t' b x' Hx'). rewrite (proj2 (Z.eqb_neq _ _) Hd). mrun.
  assert (hart_at 0 h2) as Hh2 by (by apply hart_at_set_ie).
  assert (proc_locks_free h2) as Hp2 by (intros i Hi; by apply lock_free_set_ie, Hp').
  mrun_with (free_chain_run 1 _ d0 d1 d2); try tauto.
  2:{ unfold t'. split; ksimpl; [by apply (hart_at_acq 0)|intros i Hi; apply lock_free_acq; [done|by apply Hp2]|by rewrite length_alter]. }
  mrun_with (release_run 0 L_vdisk h2); [|done|by apply lock_free_set_ie|done].
  set (wk := wake_free (acq L_vdisk h2)).
  exists (wk (wk (wk (alter (λ x, x <| p_chan := Ch_null |>) p (k_procs s'))))). split.
  2:{ apply (f_equal (Ret tt)). exact (after_wait s' _ h2 (λ P, alter (λ x, x <| p_chan := Ch_null |>) p P) (λ P, wk (wk (wk P))) (λ v, v <| vk_info_b ::= λ l, <[0%nat := None]> l |>) (λ v, freed 2 (freed 1 (freed 0 v)))). }
  split; [done|unfold h2; by rewrite cur_proc_set_ie|done|intros lk Hlk; by apply lock_free_set_ie, Hlks'| |].
  - unfold wk. rewrite !length_wake_free. by rewrite length_alter.
  - unfold wk. do 3 apply wake_free_pid. exists (y' <| p_chan := Ch_null |>). by rewrite list_lookup_alter_eq, Hy'.
Qed.

(** Updates of different fields commute, updates of one field compose. *)
Lemma hw_vdisk s h f : s <| k_vdisk ::= f |> <| k_hw := h |> = s <| k_hw := h |> <| k_vdisk ::= f |>.
Proof. by destruct s. Qed.
Lemma hw_procs s h f : s <| k_procs ::= f |> <| k_hw := h |> = s <| k_hw := h |> <| k_procs ::= f |>.
Proof. by destruct s. Qed.
Lemma hw_bcache s h f : s <| k_bcache ::= f |> <| k_hw := h |> = s <| k_hw := h |> <| k_bcache ::= f |>.
Proof. by destruct s. Qed.
Lemma hw_mmio_out s h f : s <| k_mmio_out ::= f |> <| k_hw := h |> = s <| k_hw := h |> <| k_mmio_out ::= f |>.
Proof. by destruct s. Qed.
Lemma hw_mmio_reads s h f : s <| k_mmio_reads ::= f |> <| k_hw := h |> = s <| k_hw := h |> <| k_mmio_reads ::= f |>.
Proof. by destruct s. Qed.
Lemma hw_hw s h : s <| k_hw := h |> <| k_hw := k_hw s |> = s.
Proof. by destruct s. Qed.
Lemma disk_at s v f : k_vdisk s = v → s <| k_vdisk ::= f |> = s <| k_vdisk := f v |>.
Proof. intros <-. by destruct s. Qed.

Lemma after_handler s h r o fb fp fv :
  s <| k_hw := h |> <| k_mmio_reads := r |> <| k_mmio_out ::= o |> <| k_bcache ::= fb |> <| k_procs ::= fp |>
    <| k_vdisk ::= fv |> <| k_hw := k_hw s |> =
  s <| k_mmio_reads := r |> <| k_mmio_out ::= o |> <| k_bcache ::= fb |> <| k_procs ::= fp |> <| k_vdisk := fv (k_vdisk s) |>.
Proof. rewrite hw_vdisk, hw_procs, hw_bcache, hw_mmio_out, hw_mmio_reads, hw_hw. by apply disk_at. Qed.

Lemma reads_at s : s <| k_mmio_reads ::= S |> = s <| k_mmio_reads := S (k_mmio_reads s) |>.
Proof. by destruct s. Qed.

Lemma handler_vdisk s o fb fp fv :
  s <| k_mmio_reads ::= S |> <| k_mmio_out ::= o |> <| k_bcache ::= fb |> <| k_procs ::= fp |> <| k_vdisk ::= fv |> =
  s <| k_mmio_reads := S (k_mmio_reads s) |> <| k_mmio_out ::= o |> <| k_bcache ::= fb |> <| k_procs ::= fp |> <| k_vdisk := fv (k_vdisk s) |>.
Proof. rewrite reads_at. by apply disk_at. Qed.

Lemma u16_succ_ne n : 0 ≤ n < 2 ^ 16 → n ≠ u16 (n + 1).
Proof.
  intros Hn. unfold u16. destruct (decide (n = 2 ^ 16 - 1)) as [->|]; [done|]. rewrite Z.mod_small; lia.
Qed.

(** ** The interrupt handler, after the device has completed one request *)

Definition acked (s : kernel) : kernel :=
  s <| k_mmio_reads ::= S |>
    <| k_mmio_out ::= λ l, l ++ [(VIRTIO0 + VIRTIO_MMIO_INTERRUPT_ACK,
         u32 (Z.land (u32 (mmio_in (k_mmio_reads s) (VIRTIO0 + VIRTIO_MMIO_INTERRUPT_STATUS))) 0x3))] |>.

Lemma intr_run s h i b x :
  hart_at 0 h → proc_locks_free h → lock_free L_vdisk h → length (k_procs s) = NPROC → k_hw s = h →
  vk_used_dev_idx (k_vdisk s) = u16 (vk_used_idx (k_vdisk s) + 1) → 0 ≤ vk_used_idx (k_vdisk s) < 2 ^ 16 →
  vk_used_ring (k_vdisk s) !! Z.to_nat (vk_used_idx (k_vdisk s) mod Z.of_nat NUM) = Some (Z.of_nat i) →
  vk_info_status (k_vdisk s) !! i = Some 0 → vk_info_b (k_vdisk s) !! i = Some (Some b) →
  k_bcache s !! b = Some x →
  virtio_disk_intr s = Ret tt (acked s <| k_bcache ::= alter (λ x, x <| b_disk := 0 |>) b |>
    <| k_procs ::= imap (woken (cur_proc h) (Ch_buf b)) |> <| k_vdisk ::= λ v, v <| vk_used_idx := vk_used_dev_idx v |> |>).
Proof.
  intros Hh Hp Hl Hlen Hs Hidx Hr Hring Hst Hib Hx. unfold virtio_disk_intr.
  mrun_with (acquire_run 0 _ s); [|by rewrite Hs|by rewrite Hs].
  unfold virtio_read, virtio_write, mmio_read, mmio_write, get_disk, upd_disk. mrun. ksimpl. rewrite Hidx.
  assert (Z.to_nat (u16 (u16 (vk_used_idx (k_vdisk s) + 1) - vk_used_idx (k_vdisk s))) = 1%nat) as ->.
  { unfold u16. rewrite Zminus_mod_idemp_l. by replace (vk_used_idx (k_vdisk s) + 1 - vk_used_idx (k_vdisk s)) with 1 by lia. }
  cbn [while_]. mrun. ksimpl. rewrite Hidx.
  rewrite (proj2 (Z.eqb_neq _ _)) by (by apply u16_succ_ne). rewrite Hring. mrun. rewrite Nat2Z.id, Hst. mrun.
  cbn [truth Z.eqb negb]. rewrite Hib. mrun. mrun_with upd_buf_run; [|by eapply lookup_lt_Some].
  mrun_with (wakeup_run 1).
  2:{ split; ksimpl; [rewrite Hs; by apply (hart_at_acq 0)|rewrite Hs; intros j Hj; apply lock_free_acq; [done|by apply Hp]|done]. }
  ksimpl. rewrite Hidx, Z.eqb_refl. mrun. mrun_with (release_run 0 L_vdisk (k_hw s)); [|by rewrite Hs|by rewrite Hs|done].
  apply (f_equal (Ret tt)). ksimpl. rewrite cur_proc_acq, Hs.
  assert (k_vdisk s <| vk_used_idx ::= λ n, u16 (n + 1) |> = k_vdisk s <| vk_used_idx := vk_used_dev_idx (k_vdisk s) |>) as Hv
    by (rewrite Hidx; by destruct (k_vdisk s)).
  rewrite <- Hs. rewrite after_handler. cbn beta. rewrite Hv. unfold acked. by rewrite handler_vdisk.
Qed.

End driver.

(** ** Waiting for the device

    While [p] sleeps the device carries out the request, its interrupt is
    handled somewhere, and eventually the scheduler enters [p] again.  Other
    processes may run meanwhile, on anything but the file system (its buffers,
    locks, log, inodes and superblock) and the memory that [p] owns. *)

(** The sleep locks of the inodes. *)
Definition same_ilocks (s s' : kernel) : Prop := ∀ i, k_sleeplocks s' !! SL_inode i = k_sleeplocks s !! SL_inode i.

#[export] Instance same_ilocks_preorder : PreOrder same_ilocks.
Proof. split; [by intros s i|]. intros s t u Hm Hm' i. by rewrite Hm', Hm. Qed.

Lemma buf_ilocks s s' b k : k_sleeplocks s' = <[SL_buf b := k]> (k_sleeplocks s) → same_ilocks s s'.
Proof. intros Hl i. by rewrite Hl, lookup_insert_ne. Qed.

(** All but the sleep locks of the buffers. *)
Record same_log `{Own} (s s' : kernel) : Prop := {
  sg_log : k_log s' = k_log s;
  sg_panicking : k_panicking s' = k_panicking s;
  sg_panicked : k_panicked s' = k_panicked s;
  sg_itable : k_itable s' = k_itable s;
  sg_sb : k_sb s' = k_sb s;
  sg_ilocks : same_ilocks s s';
  sg_own : same_own s s'
}.
Definition same_fs `{Own} (s s' : kernel) : Prop := k_sleeplocks s' = k_sleeplocks s ∧ same_log s s'.

#[export] Instance same_log_preorder `{Own} : PreOrder same_log.
Proof.
  split; [by intros s; split|]. intros s t u [? ? ? ? ? Hi Hm] [? ? ? ? ? Hi' Hm']. split; try congruence. by rewrite Hm.
Qed.

Lemma same_fs_disk `{Own} s v B : same_fs s (s <| k_vdisk := v |> <| k_bcache := B |>).
Proof. by split. Qed.

(** What the process relies on: nothing has panicked, the superblock, and its own
    memory; and the inodes too. *)
Record same_env `{Own} (s s' : kernel) : Prop := {
  se_panicking : k_panicking s' = k_panicking s;
  se_panicked : k_panicked s' = k_panicked s;
  se_sb : k_sb s' = k_sb s;
  se_ilocks : same_ilocks s s';
  se_own : same_own s s'
}.
Record same_rest `{Own} (s s' : kernel) : Prop := {
  sr_env : same_env s s';
  sr_itable : k_itable s' = k_itable s
}.

#[export] Instance same_env_preorder `{Own} : PreOrder same_env.
Proof.
  split; [by intros s; split|]. intros s t u [? ? ? Hi Hm] [? ? ? Hi' Hm']. split; try congruence. by rewrite Hm.
Qed.
#[export] Instance same_rest_preorder `{Own} : PreOrder same_rest.
Proof. split; [by intros s; split|]. intros s t u [He ?] [He' ?]. split; [by rewrite He|congruence]. Qed.

Lemma same_log_rest `{Own} s s' : same_log s s' → same_rest s s'.
Proof. intros []. by split. Qed.
#[export] Hint Resolve same_log_rest : core.

(** A process that may use the disk, the driver being idle. *)
Record io_state `{Own} (p : nat) (pid : Z) (s : kernel) : Prop := {
  io_user : disk_user p pid (k_hw s) (k_procs s);
  io_idle : vdisk_idle (k_vdisk s)
}.

Lemma same_env_mem `{Own} s s' : same_env s s' → same_mem s s'.
Proof. by intros [_ _ _ _ []]. Qed.
Lemma same_rest_mem `{Own} s s' : same_rest s s' → same_mem s s'.
Proof. intros []. by apply same_env_mem. Qed.

Section environment.
Context `{Image, Device, Patience, Own} (serve : device) (p : nat) (pid : Z).

Definition answered (s : kernel) (d : disk) (s' : kernel) (d' : disk) : Prop :=
  ∃ v B h t h',
    serve (k_vdisk s) (k_bcache s) d = (v, B, d') ∧
    hart_at 0 h ∧ proc_locks_free h ∧ lock_free L_vdisk h ∧
    virtio_disk_intr (s <| k_hw := h |> <| k_vdisk := v |> <| k_bcache := B |>) = Ret tt t ∧
    disk_user p pid h' (k_procs s') ∧ k_hw s' = acq (L_proc p) h' ∧
    k_vdisk s' = k_vdisk t ∧ k_bcache s' = k_bcache t ∧ same_fs s s'.

(** Total correctness with crashes: [r], which starts when the medium is [d],
    never panics or gets stuck, the medium satisfies [Cr] whenever the machine may stop
    (between any two device requests), and [Q] holds at the end. *)
Fixpoint cwp {A} (Cr : disk → Prop) (Q : A → kernel → disk → Prop) (d : disk) (r : res A) : Prop :=
  match r with
  | Ret a s => Cr d ∧ Q a s d
  | Switch to s k =>
      Cr d ∧ (∃ s' d', answered s d s' d') ∧ ∀ s' d', answered s d s' d' → cwp Cr Q d' (k s')
  | _ => False
  end.

(** The media a machine that runs [r] may be left with. *)
Inductive crashes {A} : disk → res A → disk → Prop :=
| crash_now d r : crashes d r d
| crash_later d to s k s' d' e : answered s d s' d' → crashes d' (k s') e → crashes d (Switch to s k) e.

(** Complete executions. *)
Inductive finishes {A} : disk → res A → A → kernel → disk → Prop :=
| finish_ret d a s : finishes d (Ret a s) a s d
| finish_wait d to s k s' d' a t e : answered s d s' d' → finishes d' (k s') a t e → finishes d (Switch to s k) a t e.

Lemma cwp_crash {A} Cr (Q : A → kernel → disk → Prop) d r e : cwp Cr Q d r → crashes d r e → Cr e.
Proof.
  intros Hw Hc. revert Hw. induction Hc as [d r|d to s k s' d' e Ha _ IH]; intros Hw.
  - by destruct r; try destruct Hw.
  - apply IH. by apply Hw.
Qed.

Lemma cwp_finish {A} Cr (Q : A → kernel → disk → Prop) d r a s e : cwp Cr Q d r → finishes d r a s e → Q a s e.
Proof.
  intros Hw Hc. revert Hw. induction Hc as [d a s|d to s k s' d' a t e Ha _ IH]; intros Hw; [apply Hw|].
  apply IH. by apply Hw.
Qed.

Lemma cwp_total {A} Cr (Q : A → kernel → disk → Prop) d r : cwp Cr Q d r → ∃ a s e, finishes d r a s e.
Proof.
  revert d. induction r as [a s|msg|to s k IH| | |]; intros d Hw; try done.
  - exists a, s, d. constructor.
  - destruct Hw as (_ & (s' & d' & Ha) & Hk). destruct (IH s' d' (Hk _ _ Ha)) as (a & t & e & Hf).
    exists a, t, e. by eapply finish_wait.
Qed.

Lemma cwp_bind {A B} Cr (Q' : A → kernel → disk → Prop) (Q : B → kernel → disk → Prop) (m : A → M B) d r :
  cwp Cr Q' d r → (∀ a s d, Q' a s d → cwp Cr Q d (m a s)) → cwp Cr Q d (bind_res r m).
Proof.
  intros Hr Hm. revert d Hr. induction r as [a s|msg|to s k IH| | |]; simpl; intros d Hr; try done.
  - by apply Hm, Hr.
  - destruct Hr as (Hc & Hex & Hk). split; [done|]. split; [done|]. intros s' d' Ha. by apply IH, Hk.
Qed.

Lemma cwp_mono {A} (Cr Cr' : disk → Prop) (Q Q' : A → kernel → disk → Prop) d r :
  cwp Cr Q d r → (∀ d, Cr d → Cr' d) → (∀ a s d, Q a s d → Q' a s d) → cwp Cr' Q' d r.
Proof.
  intros Hr HC HQ. revert d Hr. induction r as [a s|msg|to s k IH| | |]; simpl; intros d Hr; try done.
  - destruct Hr. auto.
  - destruct Hr as (Hc & Hex & Hk). split; [auto|]. split; [done|]. intros s' d' Ha. by apply IH, Hk.
Qed.

(** ** A request from beginning to end *)

Context (Hserve : device_ok serve).

Definition transferred (w : bool) (x : buf) (d : disk) : buf :=
  if w then x else x <| b_data := rd_disk d (sector_of x * 512) (Z.to_nat BSIZE) |>.
Definition after_rw (w : bool) (x : buf) (d : disk) : disk :=
  if w then wr_disk (sector_of x * 512) (b_data x) d else d.

Lemma serve_requested b w x s d : vdisk_idle (k_vdisk s) → k_bcache s !! b = Some x →
  let t := requested p b w x s in
  serve (k_vdisk t) (k_bcache t) d =
    (completed 0 0 (submitted b w (sector_of x) (k_vdisk s)),
     alter (λ x, transferred w (x <| b_disk := 1 |>) d) b (k_bcache s), after_rw w x d).
Proof.
  intros Hv Hx t. pose proof (submitted_request b w (sector_of x) (k_vdisk s) Hv) as Hrq.
  assert (k_bcache t !! b = Some (x <| b_disk := 1 |>)) as Ht.
  { change (k_bcache t) with (alter (λ x, x <| b_disk := 1 |>) b (k_bcache s)). by rewrite list_lookup_alter_eq, Hx. }
  destruct (Hserve (k_vdisk t) (k_bcache t) d 0%nat b 0%nat (sector_of x) _ Ht) as [Hw Hr].
  destruct w; [rewrite (Hw Hrq)|rewrite (Hr Hrq)]; [done|]. cbn [transferred after_rw]. f_equal. f_equal.
  change (k_bcache t) with (alter (λ x, x <| b_disk := 1 |>) b (k_bcache s)). rewrite list_alter_alter_eq.
  apply list_alter_ext; [|done]. intros y Hy. by simplify_eq.
Qed.

(** The driver's queue when the answer has been handled, and after that. *)
Definition handled (v : vdisk) : vdisk := v <| vk_used_idx := vk_used_dev_idx v |>.

Lemma handled_chain b w sec v : vdisk_idle v → chain_of (handled (completed 0 0 (submitted b w sec v))).
Proof.
  intros [Hf Hd Ha Hu Hi Hs Ho Hai Hui Hr]. unfold NUM in *. unfold handled, completed, submitted. ksimpl. split; ksimpl.
  - eexists _, _, _. split_and!.
    + rewrite !list_lookup_insert_ne by done. apply list_lookup_insert_eq. lia.
    + rewrite list_lookup_insert_ne by done. apply list_lookup_insert_eq. rewrite length_insert. lia.
    + apply list_lookup_insert_eq. rewrite !length_insert. lia.
    + done.
    + done.
    + by destruct w.
    + done.
    + done.
  - intros i Hi3. do 3 (destruct i as [|i]; [done|]). lia.
Qed.

Lemma finished_idle b w sec v : vdisk_idle v → vdisk_idle (finished (handled (completed 0 0 (submitted b w sec v)))).
Proof.
  intros [Hf Hd Ha Hu Hi Hs Ho Hai Hui Hr]. unfold NUM in *.
  unfold finished, freed, handled, completed, submitted. split; ksimpl; rewrite ?length_insert; try done.
  - by rewrite Hai.
  - unfold u16. apply Z.mod_pos_bound. lia.
Qed.

Lemma completed_handler b w x s d t h v B d' : vdisk_idle (k_vdisk s) → k_bcache s !! b = Some x → length (k_procs s) = NPROC →
  serve (k_vdisk (requested p b w x s)) (k_bcache (requested p b w x s)) d = (v, B, d') →
  hart_at 0 h → proc_locks_free h → lock_free L_vdisk h →
  virtio_disk_intr (requested p b w x s <| k_hw := h |> <| k_vdisk := v |> <| k_bcache := B |>) = t →
  ∃ u, t = Ret tt u ∧ d' = after_rw w x d ∧
    k_vdisk u = handled (completed 0 0 (submitted b w (sector_of x) (k_vdisk s))) ∧
    k_bcache u = alter (λ x, transferred w x d <| b_disk := 0 |>) b (k_bcache s).
Proof.
  intros Hv Hx Hlen Hsv Hh Hp Hl <-. rewrite (serve_requested b w x s d Hv Hx) in Hsv. injection Hsv as <- <- <-.
  pose proof (vi_range _ Hv) as Hr. pose proof (vi_used_idx _ Hv) as Hui.
  rewrite (intr_run _ h 0 b (transferred w (x <| b_disk := 1 |>) d)); try done.
  - eexists. split; [done|]. split; [done|]. split; [done|].
    transitivity (alter (λ x, x <| b_disk := 0 |>) b (alter (λ x, transferred w (x <| b_disk := 1 |>) d) b (k_bcache s))); [done|].
    rewrite list_alter_alter_eq. apply list_alter_ext; [|done]. intros y Hy. simpl. by destruct w, y.
  - by change (length (alter (asleep (Ch_buf b)) p (k_procs s)) = NPROC); rewrite length_alter.
  - unfold completed, submitted. ksimpl. by rewrite Hui.
  - unfold completed, submitted. ksimpl. lia.
  - unfold completed, submitted. ksimpl. rewrite Hui. apply list_lookup_insert_eq.
    rewrite (vi_used _ Hv). pose proof (Z.mod_pos_bound (vk_used_dev_idx (k_vdisk s)) (Z.of_nat NUM) ltac:(unfold NUM; lia)). lia.
  - unfold completed, submitted. ksimpl. apply list_lookup_insert_eq. rewrite length_insert, (vi_status _ Hv). unfold NUM. lia.
  - unfold completed, submitted. ksimpl. apply list_lookup_insert_eq. rewrite (vi_info _ Hv). unfold NUM. lia.
  - ksimpl. by rewrite list_lookup_alter_eq, Hx.
Qed.

Lemma disk_user_asleep h P ch : disk_user p pid h P → disk_user p pid h (alter (asleep ch) p P).
Proof.
  intros [Hh Hc Hp Hl Hlen (y & Hy & Hpid)]. split; try done; [by rewrite length_alter|].
  exists (asleep ch y). by rewrite list_lookup_alter_eq, Hy.
Qed.

Lemma requested_answered b w x s d : io_state p pid s → k_bcache s !! b = Some x →
  ∃ s' d', answered (requested p b w x s) d s' d'.
Proof.
  intros [Hu Hv] Hx. pose proof Hu as [Hh Hc Hp Hl Hlen Hy].
  destruct (serve (k_vdisk (requested p b w x s)) (k_bcache (requested p b w x s)) d) as [[v B] d'] eqn:Hsv.
  destruct (completed_handler b w x s d _ (k_hw s) v B d' Hv Hx Hlen Hsv Hh Hp (Hl _ io_lock_vdisk) eq_refl)
    as (u & Hi & -> & Huv & Hub).
  exists (requested p b w x s <| k_vdisk := k_vdisk u |> <| k_bcache := k_bcache u |>), (after_rw w x d), v, B, (k_hw s), u, (k_hw s).
  split; [exact Hsv|]. split; [exact Hh|]. split; [exact Hp|]. split; [exact (Hl _ io_lock_vdisk)|].
  split; [exact Hi|]. split; [by apply disk_user_asleep|]. split; [reflexivity|]. split; [reflexivity|].
  split; [reflexivity|]. apply same_fs_disk.
Qed.

Lemma cwp_rw b w x s d Cr (Q : unit → kernel → disk → Prop) :
  (0 < patience)%nat → io_state p pid s → k_bcache s !! b = Some x → Cr d → Cr (after_rw w x d) →
  (∀ s', io_state p pid s' → k_bcache s' = alter (λ y, transferred w y d <| b_disk := 0 |>) b (k_bcache s) →
     same_fs s s' → Q tt s' (after_rw w x d)) →
  cwp Cr Q d (virtio_disk_rw b w s).
Proof.
  intros Hpat Hs Hx Hc Hc' HQ. pose proof Hs as [Hu Hv].
  destruct (rw_run p pid b w x s Hu Hv Hx) as (c & -> & Hres). split; [done|]. split; [by apply requested_answered|].
  intros s' d' (v & B & h & t & h' & Hsv & Hh & Hp & Hl & Hi & Hu' & Hs' & Hvd & Hbc & Hfs).
  destruct (completed_handler b w x s d _ h v B d' Hv Hx (du_len _ _ _ _ Hu) Hsv Hh Hp Hl eq_refl) as (u & Hi' & -> & Huv & Hub).
  rewrite Hi in Hi'. injection Hi' as <-.
  destruct (Hres s' h' (transferred w x d <| b_disk := 0 |>) Hpat Hu' Hs') as (P & HP & ->).
  - by rewrite Hbc, Hub, list_lookup_alter_eq, Hx.
  - by destruct w.
  - rewrite Hvd, Huv. by apply handled_chain.
  - split; [done|]. apply HQ.
    + split; [done|]. ksimpl. rewrite Hvd, Huv. by apply finished_idle.
    + ksimpl. by rewrite Hbc, Hub.
    + destruct Hfs as (? & []). by split.
Qed.

(** C12: the disk driver and a device that honours the protocol move exactly one
    block.  [virtio_disk_rw] ends; the block is then on the disk (a write) or in
    the buffer (a read), the buffer is given back to the caller, the driver is
    idle again with all its descriptors free, and nothing else of the buffers,
    locks and log has changed.  If the machine stops on the way, the disk has
    the old block or the new one. *)
Theorem virtio_disk_rw_transfers b w x s d :
  (0 < patience)%nat → io_state p pid s → k_bcache s !! b = Some x →
  (∃ t e, finishes d (virtio_disk_rw b w s) tt t e) ∧
  (∀ t e, finishes d (virtio_disk_rw b w s) tt t e →
     e = after_rw w x d ∧ k_bcache t = alter (λ y, transferred w y d <| b_disk := 0 |>) b (k_bcache s) ∧
     io_state p pid t ∧ same_fs s t) ∧
  (∀ e, crashes d (virtio_disk_rw b w s) e → e = d ∨ e = after_rw w x d).
Proof.
  intros Hpat Hs Hx.
  assert (cwp (λ e, e = d ∨ e = after_rw w x d) (λ _ t e, e = after_rw w x d ∧
    k_bcache t = alter (λ y, transferred w y d <| b_disk := 0 |>) b (k_bcache s) ∧ io_state p pid t ∧ same_fs s t)
    d (virtio_disk_rw b w s)) as Hw by (apply (cwp_rw b w x); auto).
  split; [destruct (cwp_total _ _ _ _ Hw) as ([] & t & e & Hf); by exists t, e|].
  split; [intros t e Hf; exact (cwp_finish _ _ _ _ _ _ _ Hw Hf)|]. intros e Hc. exact (cwp_crash _ _ _ _ _ Hw Hc).
Qed.

End environment.

(** ** A device *)

Definition served (v : vdisk) (B : list buf) (d : disk) (i b n : nat) (req : blk_req) : vdisk * list buf * disk :=
  if vr_type req =? VIRTIO_BLK_T_OUT
  then (completed i n v, B, wr_disk (vr_sector req * 512) (from_option b_data [] (B !! b)) d)
  else (completed i n v, alter (λ y, y <| b_data := rd_disk d (vr_sector req * 512) (Z.to_nat BSIZE) |>) b B, d).

(** It follows the chain at the head of the available ring. *)
Definition demo_serve : device := λ v B d,
  let i := Z.to_nat (default 0 (vk_avail_ring v !! Z.to_nat (vk_used_dev_idx v mod Z.of_nat NUM))) in
  match vk_desc v !! i with
  | Some (Virtq_desc (A_ops m) _ _ j) =>
      match vk_ops v !! m, vk_desc v !! Z.to_nat j with
      | Some req, Some (Virtq_desc (A_bufdata b) _ _ k) =>
          match vk_desc v !! Z.to_nat k with
          | Some (Virtq_desc (A_status n) _ _ _) => served v B d i b n req
          | _ => (v, B, d)
          end
      | _, _ => (v, B, d)
      end
  | _ => (v, B, d)
  end.

Lemma demo_serve_ok : device_ok demo_serve.
Proof.
  intros v B d i b n sector x Hx. split; intros [Hnew Hhd (j & k & m & H0 & H1 & H2 & H3)];
    unfold demo_serve; rewrite Hhd; cbn [default from_option id]; rewrite Nat2Z.id, H0, H1, Nat2Z.id, H2, Nat2Z.id, H3;
    unfold served; cbn; by rewrite ?Hx.
Qed.

Definition idle_vdisk : vdisk :=
  Vdisk 0 0 0 (replicate NUM zero_desc) 0 (replicate NUM 0) 0 (replicate NUM 0) (replicate NUM 1) 0
    (replicate NUM None) (replicate NUM 0) (replicate NUM (Blk_req 0 0 0)).

Lemma idle_vdisk_idle : vdisk_idle idle_vdisk.
Proof. by split. Qed.

#[local] Existing Instance demo_image.
#[local] Existing Instance demo_device.
#[local] Instance demo_patience : Patience := {| patience := 1 |}.
(** The process owns its kernel stack, one page of memory. *)
Definition demo_own : Own :=
  {| own_mem := λ a, 0x80200000 ≤ a < 0x80201000; own_file := λ _, False; own_kstack := 0x80200000; own_pagetable := 0x80201000 |}.
#[local] Existing Instance demo_own.

(** Process 3 runs; the driver is idle. *)
Definition demo_self : proc := demo_proc RUNNING Ch_null 4 <| p_kstack := 0x80200000 |> <| p_pagetable := 0x80201000 |>.
Definition demo_io_procs : list proc := <[3%nat := demo_self]> demo_procs.
Definition demo_io : kernel := demo_sl <| k_vdisk := idle_vdisk |> <| k_procs := demo_io_procs |>.

Lemma demo_io_user : disk_user 3 4 demo_sl_hart demo_io_procs.
Proof.
  split; [apply demo_sl_hart_at|vm_compute; reflexivity|apply demo_sl_proc_locks| |vm_compute; reflexivity|].
  - intros lk [Hlk|[(b & Hb & ->)|(i & Hi & ->)]]; [|by apply demo_sl_locks|by apply demo_sl_inode_locks].
    apply demo_sl_free. repeat (apply elem_of_cons in Hlk as [->|Hlk]; [vm_compute; reflexivity|]).
    by apply not_elem_of_nil in Hlk.
  - exists demo_self. split; [reflexivity|by split].
Qed.

Lemma demo_io_state : io_state 3 4 demo_io.
Proof. split; [exact demo_io_user|exact idle_vdisk_idle]. Qed.

Lemma virtio_disk_rw_transfers_witness :
  ∃ t e, finishes demo_serve 3 4 (λ _, 7) (virtio_disk_rw 2 false demo_io) tt t e ∧
    from_option b_data [] (k_bcache t !! 2%nat) = replicate 1024 7.
Proof.
  destruct (virtio_disk_rw_transfers demo_serve 3 4 demo_serve_ok 2 false zero_buf demo_io (λ _, 7)) as ((t & e & Hf) & Hall & _).
  - constructor.
  - exact demo_io_state.
  - vm_compute. reflexivity.
  - exists t, e. split; [exact Hf|]. destruct (Hall t e Hf) as (_ & Hb & _). rewrite Hb. vm_compute. reflexivity.
Defined.
