(* ===== verification/CacheSpec.v ===== *)
(** * The buffer cache in front of the disk

    What [bread], [bwrite], [brelse] and [bunpin] mean to the code above them
    when one process uses the cache: [c] gives the contents of every block as
    that process sees them, [pins] the blocks pinned in the cache, [H] the
    buffers it holds.  A block that is neither pinned nor held has its contents
    on the disk. *)

From S2P Require Import Prelude Riscv State Boot Spinlock ProcTable Machine CString Kalloc Vm Printf Sched SchedSpec Sleeplock SleeplockSpec FsDefs Virtio Bio BioSpec DiskSpec.

(** All of a buffer but its links. *)
Definition same_contents (x y : buf) : Prop :=
  b_valid y = b_valid x ∧ b_disk y = b_disk x ∧ b_dev y = b_dev x ∧ b_blockno y = b_blockno x ∧
  b_refcnt y = b_refcnt x ∧ b_data y = b_data x.

Lemma alter_contents (f : buf → buf) i (B : list buf) j y :
  (∀ x, same_contents x (f x)) → alter f i B !! j = Some y → ∃ x, B !! j = Some x ∧ same_contents x y.
Proof.
  intros Hf. destruct (decide (i = j)) as [->|Hne]; [|rewrite list_lookup_alter_ne by done; by exists y].
  rewrite list_lookup_alter_eq. destruct (B !! j) as [x|]; [|done]. cbn. intros ?. simplify_eq. by exists x.
Qed.

Lemma relink_contents b B j y :
  linked_front b (unlinked b B) !! j = Some y → ∃ x, B !! j = Some x ∧ same_contents x y.
Proof.
  unfold linked_front, unlinked, set_next, set_prev. intros Hy.
  do 6 (apply alter_contents in Hy as (? & Hy & (? & ? & ? & ? & ? & ?)); [|done]).
  eexists. split; [exact Hy|]. unfold same_contents. split_and!; congruence.
Qed.

(** The cache after a release: one reference less, and links. *)
Lemma cache_put_contents b l B j y :
  (cache_put b l B).2 !! j = Some y → ∃ x, alter dereferenced b B !! j = Some x ∧ same_contents x y.
Proof.
  unfold cache_put. destruct (idle _ b); [apply relink_contents|]. cbn [snd]. intros Hy. by exists y.
Qed.

Definition Z_of_prop (P : Prop) `{Decision P} : Z := if decide P then 1 else 0.

Section cache.
Context `{IM : Image, DV : Device, PT : Patience, OW : Own} (serve : device) (Hserve : device_ok serve).
Context (p : nat) (pid : Z) (dev : Z) (Hdev : 0 < dev < 2 ^ 32) (Hpat : (0 < patience)%nat).

Abbreviation cwp := (cwp serve p pid).

(** Block numbers for which sector numbers do not overflow. *)
Definition blockno_ok (bn : Z) : Prop := 0 ≤ bn < 2 ^ 31.

Record buf_ok (c : Z → list Z) (pins : list Z) (H : list (nat * Z)) (b : nat) (x : buf) : Prop := {
  bo_refcnt : b_refcnt x = Z_of_prop (b_dev x = dev ∧ b_blockno x ∈ pins) + Z_of_prop (b ∈ H.*1);
  bo_data : b_valid x ≠ 0 → b_dev x = dev → blockno_ok (b_blockno x) ∧ b_data x = c (b_blockno x)
}.

Record held_ok (s : kernel) (b : nat) (bn : Z) : Prop := {
  ho_lt : (b < NBUF)%nat;
  ho_buf : ∃ x, k_bcache s !! b = Some x ∧ b_dev x = dev ∧ b_blockno x = bn ∧ b_valid x ≠ 0;
  ho_lock : ∃ k, k_sleeplocks s !! SL_buf b = Some k ∧ sl_locked k ≠ 0 ∧ sl_pid k = pid
}.

Record cache_st (c : Z → list Z) (pins : list Z) (H : list (nat * Z)) (s : kernel) (d : disk) : Prop := {
  cs_io : io_state p pid s;
  cs_wf : ∃ l, cache_wf l (k_bcache s) (k_sleeplocks s);
  cs_buf : ∀ b x, (b < NBUF)%nat → k_bcache s !! b = Some x → buf_ok c pins H b x;
  cs_held : ∀ b bn, (b, bn) ∈ H → held_ok s b bn;
  cs_free : ∀ b k, (b < NBUF)%nat → b ∉ H.*1 → k_sleeplocks s !! SL_buf b = Some k → sl_locked k = 0;
  cs_pinned : ∀ bn, bn ∈ pins → ∃ b x, (b < NBUF)%nat ∧ k_bcache s !! b = Some x ∧ b_dev x = dev ∧ b_blockno x = bn ∧ b_valid x ≠ 0;
  cs_distinct : NoDup H.*1;
  cs_length : ∀ bn, length (c bn) = Z.to_nat BSIZE;
  cs_clean : ∀ bn, bn ∉ pins → bn ∉ H.*2 → c bn = block d bn
}.

Lemma cache_st_perm c pins H H' s d : H ≡ₚ H' → cache_st c pins H s d → cache_st c pins H' s d.
Proof.
  intros Hp [Hio Hwf Hb Hh Hf Hpin Hd Hl Hc].
  assert (∀ b, b ∈ H'.*1 ↔ b ∈ H.*1) as H1 by (intros b; by rewrite Hp).
  split; try done.
  - intros b x Hlt Hx. destruct (Hb b x Hlt Hx) as [Hr Hdt]. split; [|done]. rewrite Hr. f_equal. unfold Z_of_prop.
    apply decide_ext. by rewrite H1.
  - intros b bn Hin. apply Hh. by rewrite Hp.
  - intros b k Hlt Hn. apply Hf; [done|]. by rewrite <- H1.
  - by rewrite <- Hp.
  - intros bn Hn1 Hn2. apply Hc; [done|]. by rewrite Hp.
Qed.

Lemma user_cache s : io_state p pid s → ∃ y, cache_user p y s ∧ p_pid y = pid.
Proof.
  intros [[Hh Hc Hp Hl Hlen (y & Hy & Hpid & _)] _]. exists y. split; [|done]. split; try done.
  - by apply Hl, io_lock_bcache.
  - intros b Hb. by apply Hl, io_lock_buf.
Qed.

(** A buffer in use is held or holds a pinned block, so that with fewer of
    these than buffers one is idle. *)
Lemma idle_exists c pins H s d l : cache_st c pins H s d → cache_wf l (k_bcache s) (k_sleeplocks s) →
  (length pins + length H < NBUF)%nat → List.find (idle (k_bcache s)) (reverse l) ≠ None.
Proof.
  intros Hst Hw Hlen Hnone.
  assert (∀ b, (b < NBUF)%nat → ∃ x, k_bcache s !! b = Some x ∧ (b ∈ H.*1 ∨ b_dev x = dev ∧ b_blockno x ∈ pins)) as Hall.
  { intros b Hb. destruct (lru_lookup _ _ b (cw_lru _ _ _ Hw)) as [x Hx]; [lia|]. exists x. split; [done|].
    pose proof (find_None_elem _ _ b Hnone) as Hni. unfold idle in Hni. rewrite Hx in Hni. cbn in Hni.
    destruct (cs_buf _ _ _ _ _ Hst b x Hb Hx) as [Hr _]. rewrite Hr in Hni. unfold Z_of_prop in Hni.
    destruct (decide (b_dev x = dev ∧ b_blockno x ∈ pins)); [by right|]. destruct (decide (b ∈ H.*1)); [by left|].
    rewrite elem_of_reverse, (lru_elem _ _ _ (cw_lru _ _ _ Hw)) in Hni. by specialize (Hni Hb). }
  set (bno b := from_option b_blockno 0 (k_bcache s !! b)).
  assert (seq 0 NBUF ⊆+ H.*1 ++ filter (.∉ H.*1) (seq 0 NBUF)) as Hsub.
  { apply NoDup_submseteq; [apply NoDup_seq|]. intros b Hb. rewrite elem_of_app, list_elem_of_filter.
    destruct (decide (b ∈ H.*1)); tauto. }
  apply submseteq_length in Hsub. rewrite length_seq, length_app, length_fmap in Hsub.
  assert (bno <$> filter (.∉ H.*1) (seq 0 NBUF) ⊆+ pins) as Hsub2.
  { apply NoDup_submseteq.
    - apply NoDup_fmap_2_strong; [|apply list.NoDup_filter, NoDup_seq].
      intros i j [Hi Hsi]%list_elem_of_filter [Hj Hsj]%list_elem_of_filter Hij. apply elem_of_seq in Hsi, Hsj.
      destruct (Hall i ltac:(lia)) as (x & Hx & [?|[Hdx Hpx]]); [done|].
      destruct (Hall j ltac:(lia)) as (y & Hy & [?|[Hdy Hpy]]); [done|].
      unfold bno in Hij. rewrite Hx, Hy in Hij. cbn in Hij.
      apply (cw_one _ _ _ Hw i j x y); try done; try lia; congruence.
    - intros bn [b [-> [Hb Hs]%list_elem_of_filter]]%list_elem_of_fmap. apply elem_of_seq in Hs.
      destruct (Hall b ltac:(lia)) as (x & Hx & [?|[Hdx Hpx]]); [done|]. unfold bno. by rewrite Hx. }
  apply submseteq_length in Hsub2. rewrite length_fmap in Hsub2. lia.
Qed.

(** ** bread *)

Lemma not_held c pins H s d b x bn : cache_st c pins H s d → (b < NBUF)%nat → k_bcache s !! b = Some x →
  b_dev x = dev → b_blockno x = bn → bn ∉ H.*2 → b ∉ H.*1.
Proof.
  intros Hst Hb Hx Hd <- Hn Hin. apply Hn. apply list_elem_of_fmap in Hin as ([b' bn'] & -> & Hin).
  destruct (cs_held _ _ _ _ _ Hst _ _ Hin) as [_ (y & Hy & _ & <- & _) _]. cbn in Hx. rewrite Hx in Hy. injection Hy as <-.
  apply list_elem_of_fmap. by exists (b', b_blockno x).
Qed.

Definition found (bn : Z) (pins : list Z) (B : list buf) (b : nat) (x : buf) (g : buf → buf) : Prop :=
  (g = referenced ∧ b_dev x = dev ∧ b_blockno x = bn) ∨
  (g = recycled dev bn ∧ b_refcnt x = 0 ∧ bn ∉ pins).

Lemma bget_st c pins H s d bn : cache_st c pins H s d → bn ∉ H.*2 →
  (bn ∈ pins ∨ (length pins + length H < NBUF)%nat) →
  ∃ b x g k, (b < NBUF)%nat ∧ (b ∉ H.*1) ∧ k_bcache s !! b = Some x ∧ k_sleeplocks s !! SL_buf b = Some k ∧
    found bn pins (k_bcache s) b x g ∧
    let s1 := s <| k_bcache := alter g b (k_bcache s) |> <| k_sleeplocks := <[SL_buf b := sl_taken pid k]> (k_sleeplocks s) |> in
    bget dev bn s = Ret b s1 ∧ (∃ l, cache_wf l (k_bcache s1) (k_sleeplocks s1)).
Proof.
  intros Hst Hn Hroom. destruct (user_cache s (cs_io _ _ _ _ _ Hst)) as (y & Hu & Hpid).
  destruct (cs_wf _ _ _ _ _ Hst) as [l Hw].
  assert (∃ b x g, cache_get dev bn l (k_bcache s) = Some (b, alter g b (k_bcache s)) ∧ (b < NBUF)%nat ∧ (b ∉ H.*1) ∧
    k_bcache s !! b = Some x ∧ found bn pins (k_bcache s) b x g) as (b & x & g & Hget & Hb & Hnb & Hx & Hf).
  { unfold cache_get. destruct (List.find (caches _ dev bn) l) as [b|] eqn:Hf.
    - apply find_Some_elem in Hf as [Hin Hc]. apply (lru_elem _ _ _ (cw_lru _ _ _ Hw)) in Hin.
      destruct (lru_lookup _ _ b (cw_lru _ _ _ Hw)) as [x Hx]; [lia|]. destruct (proj1 (caches_at _ _ _ _ _ Hx) Hc) as [Hd1 Hd2].
      exists b, x, referenced. split; [done|]. split; [done|]. split; [by eapply not_held|]. split; [done|]. by left.
    - assert (bn ∉ pins) as Hnp.
      { intros Hin. destruct (cs_pinned _ _ _ _ _ Hst bn Hin) as (b & x & Hb & Hx & Hd1 & Hd2 & _).
        pose proof (find_None_elem _ _ b Hf) as Hc. rewrite (proj2 (caches_at _ _ _ _ _ Hx)) in Hc by done.
        discriminate Hc. by apply (lru_elem _ _ _ (cw_lru _ _ _ Hw)). }
      destruct (List.find (idle _) (reverse l)) as [b|] eqn:Hi.
      2:{ destruct Hroom as [|Hroom]; [done|]. by destruct (idle_exists c pins H s d l Hst Hw Hroom). }
      apply find_Some_elem in Hi as [Hin Hi]. rewrite elem_of_reverse, (lru_elem _ _ _ (cw_lru _ _ _ Hw)) in Hin.
      destruct (lru_lookup _ _ b (cw_lru _ _ _ Hw)) as [x Hx]; [lia|]. unfold idle in Hi. rewrite Hx in Hi. cbn in Hi.
      exists b, x, (recycled dev bn). split; [done|]. split; [done|]. split.
      { intros Hbh. destruct (cs_buf _ _ _ _ _ Hst b x Hin Hx) as [Hr _]. unfold Z_of_prop in Hr.
        rewrite (decide_True (P := b ∈ H.*1)) in Hr by done. destruct (decide _); lia. }
      split; [done|]. right. split; [done|]. split; [lia|done]. }
  destruct (cw_lock _ _ _ Hw b x Hb Hx) as (k & Hk & _).
  exists b, x, g, k. do 5 (split; [done|]).
  assert (b_refcnt x + 1 < 2 ^ 32) as Hmax.
  { destruct (cs_buf _ _ _ _ _ Hst b x Hb Hx) as [Hr _]. unfold Z_of_prop in Hr. destruct (decide _), (decide _); lia. }
  assert (Hsl : sl_user (SL_buf b) p y (s <| k_bcache := alter g b (k_bcache s) |>)) by (by apply cache_user_sl; [apply cache_user_buf|]).
  pose proof (bget_run _ _ _ _ _ _ _ _ Hu Hw Hget) as Hrun.
  rewrite (acquiresleep_free _ _ _ k _ Hsl Hk (cs_free _ _ _ _ _ Hst b k Hb Hnb Hk)) in Hrun. rewrite Hpid in Hrun.
  split; [exact Hrun|]. exists l. by eapply cache_get_wf.
Qed.

(** The state when the process has taken buffer [b] for block [bn]. *)
Lemma cache_st_take c pins H s d s' b bn x x' k :
  cache_st c pins H s d → io_state p pid s' → (∃ l, cache_wf l (k_bcache s') (k_sleeplocks s')) →
  (b < NBUF)%nat → b ∉ H.*1 → blockno_ok bn → k_bcache s !! b = Some x →
  k_bcache s' = <[b := x']> (k_bcache s) → k_sleeplocks s' = <[SL_buf b := sl_taken pid k]> (k_sleeplocks s) →
  b_dev x' = dev → b_blockno x' = bn → b_valid x' ≠ 0 → b_data x' = c bn →
  b_refcnt x' = Z_of_prop (bn ∈ pins) + 1 → (b_dev x = dev → b_blockno x ∈ pins → b_blockno x = bn) →
  cache_st c pins ((b, bn) :: H) s' d.
Proof.
  intros Hst Hio Hwf Hb Hnb Hok Hx HB HL Hd1 Hd2 Hv Hdt Hr Hpin.
  assert (b < length (k_bcache s))%nat as Hlt by (by eapply lookup_lt_Some).
  split; try done.
  - intros j z Hj Hz. rewrite HB in Hz. apply list_lookup_insert_Some in Hz as [(<- & <- & _)|[Hne Hz]].
    + split; [|intros _ _; rewrite Hd2; done]. rewrite Hr. unfold Z_of_prop. f_equal.
      * apply decide_ext. naive_solver.
      * rewrite decide_True; [done|]. cbn. set_solver.
    + destruct (cs_buf _ _ _ _ _ Hst j z Hj Hz) as [Hrj Hdj]. split; [|done]. rewrite Hrj. f_equal.
      unfold Z_of_prop. apply decide_ext. cbn. set_solver.
  - intros j bj [Heq|Hin]%elem_of_cons.
    + injection Heq as -> ->. split; [done| |].
      * exists x'. rewrite HB, list_lookup_insert_eq by done. done.
      * exists (sl_taken pid k). rewrite HL, lookup_insert_eq. done.
    + destruct (cs_held _ _ _ _ _ Hst j bj Hin) as [Hj Hbj Hkj].
      assert (j ≠ b) as Hne. { intros ->. apply Hnb, list_elem_of_fmap. by exists (b, bj). }
      split; [done|by rewrite HB, list_lookup_insert_ne|by rewrite HL, lookup_insert_ne by congruence].
  - intros j kj Hj Hn Hkj. cbn in Hn. rewrite HL, lookup_insert_ne in Hkj by set_solver.
    eapply (cs_free _ _ _ _ _ Hst); [done|set_solver|done].
  - intros n Hn. destruct (cs_pinned _ _ _ _ _ Hst n Hn) as (j & z & Hj & Hz & Hdz & Hbz & Hvz).
    destruct (decide (j = b)) as [->|Hne].
    + simplify_eq. exists b, x'. rewrite HB, list_lookup_insert_eq by done. split_and!; try done.
      symmetry. by apply Hpin.
    + exists j, z. by rewrite HB, list_lookup_insert_ne.
  - cbn. constructor; [done|]. apply (cs_distinct _ _ _ _ _ Hst).
  - apply (cs_length _ _ _ _ _ Hst).
  - intros n Hn1 Hn2. apply (cs_clean _ _ _ _ _ Hst); set_solver.
Qed.

Lemma sector_block x bn : b_blockno x = bn → blockno_ok bn → sector_of x * 512 = bn * BSIZE.
Proof.
  intros <- Hok. unfold blockno_ok, sector_of, BSIZE in *. change (1024 / 512) with 2. rewrite u32_small by lia. lia.
Qed.

(** Changing anything but the identity, the count and the links of a buffer. *)
Lemma cache_wf_same l B L b x x' : cache_wf l B L → (b < NBUF)%nat → B !! b = Some x →
  b_next x' = b_next x → b_prev x' = b_prev x → same_data x x' → cache_wf l (<[b := x']> B) L.
Proof.
  intros Hw Hb Hx Hn Hp (Hd1 & Hd2 & Hr). destruct (cw_lock _ _ _ Hw b x Hb Hx) as (k & Hk & Hz).
  rewrite <- (insert_id _ _ _ Hk). rewrite (list_insert_alter (λ _, x') _ _ _ Hx).
  apply (cache_wf_alter _ _ _ _ _ x); try done.
  - rewrite Hr. by apply (cw_ref _ _ _ Hw b x).
  - by rewrite Hr.
  - by left.
Qed.

Lemma io_state_mem s B L : io_state p pid s → io_state p pid (s <| k_bcache := B |> <| k_sleeplocks := L |>).
Proof. intros [Hu Hv]. by split. Qed.
Lemma io_state_buf s f : io_state p pid s → io_state p pid (s <| k_bcache ::= f |>).
Proof. intros [Hu Hv]. by split. Qed.

Lemma bread_cwp c pins H s d bn Cr (Q : nat → kernel → disk → Prop) :
  cache_st c pins H s d → bn ∉ H.*2 → blockno_ok bn → (bn ∈ pins ∨ (length pins + length H < NBUF)%nat) → Cr d →
  (∀ b s', cache_st c pins ((b, bn) :: H) s' d → same_log s s' → Q b s' d) →
  cwp Cr Q d (bread dev bn s).
Proof.
  intros Hst Hn Hok Hroom Hc HQ.
  destruct (bget_st c pins H s d bn Hst Hn Hroom) as (b & x & g & k & Hb & Hnb & Hx & Hk & Hf & Hget & Hwf).
  set (s1 := s <| k_bcache := _ |> <| k_sleeplocks := _ |>) in *. unfold bread. mrun_with Hget.
  assert (k_bcache s1 !! b = Some (g x)) as Hx1 by (unfold s1; ksimpl; by rewrite list_lookup_alter_eq, Hx).
  assert (k_bcache s1 = <[b := g x]> (k_bcache s)) as HB1 by (unfold s1; ksimpl; symmetry; by apply list_insert_alter).
  assert (io_state p pid s1) as Hio1 by apply io_state_mem, (cs_io _ _ _ _ _ Hst).
  assert (same_ilocks s s1) as Hil1 by (by eapply buf_ilocks).
  assert (same_log s s1) as Hlog1 by (by split).
  mrun_with (get_buf_run s1 b (g x) Hx1). destruct (cs_buf _ _ _ _ _ Hst b x Hb Hx) as [Hrx Hdx].
  assert (Z_of_prop (b ∈ H.*1) = 0) as Hz by (unfold Z_of_prop; by rewrite decide_False). rewrite Hz, Z.add_0_r in Hrx.
  assert (b_dev (g x) = dev ∧ b_blockno (g x) = bn ∧ b_refcnt (g x) = Z_of_prop (bn ∈ pins) + 1 ∧
    (b_dev x = dev → b_blockno x ∈ pins → b_blockno x = bn) ∧ (b_valid (g x) ≠ 0 → b_data (g x) = c bn)) as (Hd1 & Hd2 & Hr & Hpin & Hdata).
  { destruct Hf as [(-> & Hdev1 & Hbn)|(-> & Hr0 & Hnp)]; unfold referenced, recycled; ksimpl.
    - do 2 (split; [done|]). split; [|split; [done|intros Hv; rewrite <- Hbn; by apply Hdx]]. rewrite Hrx. unfold u32.
      assert (Z_of_prop (b_dev x = dev ∧ b_blockno x ∈ pins) = Z_of_prop (bn ∈ pins)) as ->
        by (unfold Z_of_prop; apply decide_ext; naive_solver).
      apply Z.mod_small. unfold Z_of_prop. destruct (decide _); lia.
    - do 2 (split; [done|]). split; [|split; [|done]].
      + unfold Z_of_prop. by rewrite decide_False.
      + intros Hdv Hin. rewrite Hr0 in Hrx. unfold Z_of_prop in Hrx. by rewrite decide_True in Hrx. }
  destruct (Z.eqb_spec (b_valid (g x)) 0) as [Hv|Hv]; mrun.
  2:{ split; [done|]. apply HQ; [|done].
      apply (cache_st_take c pins H s d s1 b bn x (g x) k); try done. by apply Hdata. }
  assert (bn ∉ pins) as Hnp.
  { intros Hin. destruct Hf as [(-> & Hdev1 & Hbn)|(_ & _ & ?)]; [|done]. cbn in Hv.
    destruct (cs_pinned _ _ _ _ _ Hst bn Hin) as (j & z & Hj & Hzj & Hdz & Hbz & Hvz). destruct (cs_wf _ _ _ _ _ Hst) as [l Hw].
    assert (b = j) as -> by (apply (cw_one _ _ _ Hw b j x z); try done; lia || congruence). by simplify_eq. }
  assert (c bn = block d bn) as Hcl by (by apply (cs_clean _ _ _ _ _ Hst)).
  set (x2 := transferred false (g x) d <| b_disk := 0 |>).
  assert (k_sleeplocks s1 = <[SL_buf b := sl_taken pid k]> (k_sleeplocks s)) as HL1 by done.
  assert (b < length (k_bcache s))%nat as Hlt by (by eapply lookup_lt_Some).
  apply (cwp_bind _ _ _ _ (λ _ s3 d3, d3 = d ∧ cache_st c pins ((b, bn) :: H) s3 d ∧ same_log s s3)).
  2:{ intros _ s3 d3 (-> & Hst3 & Hlog). split; [done|]. by apply HQ. }
  apply (cwp_bind _ _ _ _ (λ _ s2 d2, d2 = d ∧ io_state p pid s2 ∧ k_bcache s2 = <[b := x2]> (k_bcache s) ∧ same_fs s1 s2)).
  - eapply cwp_rw; try done. intros s2 Hio2 HB2 Hfs2. split; [done|]. split; [done|]. split; [|done].
    rewrite HB2, <- (list_insert_alter _ _ _ _ Hx1), HB1. by rewrite list_insert_insert_eq.
  - intros _ s2 d2 (-> & Hio2 & HB2 & (HL2 & Hlog2)).
    rewrite upd_buf_run by (by rewrite HB2, length_insert). split; [done|]. split; [done|]. set (s3 := s2 <| _ ::= _ |>).
    assert (k_bcache s3 = <[b := x2 <| b_valid := 1 |>]> (k_bcache s)) as HB3.
    { unfold s3. ksimpl. rewrite HB2. rewrite <- (list_insert_alter _ _ _ x2) by (by rewrite list_lookup_insert_eq).
      by rewrite list_insert_insert_eq. }
    split; [|transitivity s1; [done|]; transitivity s2; [done|by split]].
    apply (cache_st_take c pins H s d s3 b bn x (x2 <| b_valid := 1 |>) k); try done.
    + by apply io_state_buf.
    + destruct Hwf as [l Hw]. exists l. unfold s3 in *. rewrite HB3. ksimpl. rewrite HL2.
      rewrite <- (list_insert_insert_eq (k_bcache s) b _ (g x)), <- HB1. by apply (cache_wf_same _ _ _ _ (g x)).
    + cbn. rewrite Hcl. unfold block. by rewrite (sector_block _ bn).
Qed.

(** ** The contents of a held buffer *)

Lemma held_unique c pins H s d b bn j x : cache_st c pins H s d → (b, bn) ∈ H → (j < NBUF)%nat →
  k_bcache s !! j = Some x → b_dev x = dev → b_blockno x = bn → j = b.
Proof.
  intros Hst Hin Hj Hx Hd Hb. destruct (cs_wf _ _ _ _ _ Hst) as [l Hw].
  destruct (cs_held _ _ _ _ _ Hst b bn Hin) as [Hlt (y & Hy & Hdy & Hby & _) _].
  apply (cw_one _ _ _ Hw j b x y); try done; lia || congruence.
Qed.

Lemma cache_st_upd c c' pins H s s' d d' b bn x x' :
  cache_st c pins H s d → (b, bn) ∈ H → k_bcache s !! b = Some x → io_state p pid s' →
  k_sleeplocks s' = k_sleeplocks s → k_bcache s' = <[b := x']> (k_bcache s) →
  same_data x x' → b_next x' = b_next x → b_prev x' = b_prev x → b_valid x' ≠ 0 → b_data x' = c' bn →
  (∀ n, n ≠ bn → c' n = c n) → length (c' bn) = Z.to_nat BSIZE → (∀ n, n ≠ bn → block d' n = block d n) →
  cache_st c' pins H s' d'.
Proof.
  intros Hst Hin Hx Hio HL HB Hsd Hn Hp Hv Hdt Hc Hlen Hd.
  destruct (cs_held _ _ _ _ _ Hst b bn Hin) as [Hb (y & Hy & Hdy & Hby & Hvy) _]. rewrite Hx in Hy. injection Hy as <-.
  assert (b < length (k_bcache s))%nat as Hlt by (by eapply lookup_lt_Some).
  destruct (cs_wf _ _ _ _ _ Hst) as [l Hw]. pose proof Hsd as (E1 & E2 & E3).
  split; try done.
  - exists l. rewrite HB, HL. by apply (cache_wf_same _ _ _ _ x).
  - intros j z Hj Hz. rewrite HB in Hz. apply list_lookup_insert_Some in Hz as [(<- & <- & _)|[Hne Hz]].
    + destruct (cs_buf _ _ _ _ _ Hst b x Hb Hx) as [Hr Hdx]. split; [by rewrite E1, E2, E3|].
      intros _ _. rewrite E2, Hby in *. split; [by apply Hdx|done].
    + destruct (cs_buf _ _ _ _ _ Hst j z Hj Hz) as [Hrj Hdj]. split; [done|]. intros Hvz Hdz.
      destruct (Hdj Hvz Hdz) as [Hok Hdt']. split; [done|]. rewrite Hc; [done|]. intros Heq.
      apply Hne. symmetry. by eapply held_unique.
  - intros j bj Hj. destruct (cs_held _ _ _ _ _ Hst j bj Hj) as [Hlj (z & Hz & Hdz & Hbz & Hvz) Hkj].
    split; [done| |by rewrite HL]. destruct (decide (j = b)) as [->|Hne].
    + simplify_eq. exists x'. rewrite HB, list_lookup_insert_eq by done. split_and!; congruence.
    + exists z. by rewrite HB, list_lookup_insert_ne.
  - intros j k Hj Hnj Hk. rewrite HL in Hk. by eapply (cs_free _ _ _ _ _ Hst).
  - intros n Hnp. destruct (cs_pinned _ _ _ _ _ Hst n Hnp) as (j & z & Hj & Hz & Hdz & Hbz & Hvz).
    destruct (decide (j = b)) as [->|Hne].
    + simplify_eq. exists b, x'. rewrite HB, list_lookup_insert_eq by done. split_and!; congruence.
    + exists j, z. by rewrite HB, list_lookup_insert_ne.
  - by apply (cs_distinct _ _ _ _ _ Hst).
  - intros n. destruct (decide (n = bn)) as [->|Hne]; [done|]. rewrite Hc by done. apply (cs_length _ _ _ _ _ Hst).
  - intros n Hn1 Hn2. assert (n ≠ bn) as Hne. { intros ->. apply Hn2, list_elem_of_fmap. by exists (b, bn). }
    rewrite Hc, Hd by done. by apply (cs_clean _ _ _ _ _ Hst).
Qed.

Lemma held_buf c pins H s d b bn : cache_st c pins H s d → (b, bn) ∈ H →
  ∃ x, k_bcache s !! b = Some x ∧ b_dev x = dev ∧ b_blockno x = bn ∧ b_valid x ≠ 0 ∧ b_data x = c bn ∧ blockno_ok bn ∧ (b < NBUF)%nat.
Proof.
  intros Hst Hin. destruct (cs_held _ _ _ _ _ Hst b bn Hin) as [Hb (x & Hx & Hd & <- & Hv) _].
  destruct (cs_buf _ _ _ _ _ Hst b x Hb Hx) as [_ Hdt]. destruct (Hdt Hv Hd). by exists x.
Qed.

Lemma get_data_run c pins H s d b bn : cache_st c pins H s d → (b, bn) ∈ H → get_data b s = Ret (c bn) s.
Proof.
  intros Hst Hin. destruct (held_buf _ _ _ _ _ _ _ Hst Hin) as (x & Hx & _ & _ & _ & <- & _).
  unfold get_data. by mrun_with (get_buf_run s b x Hx).
Qed.

Lemma upd_data_run c pins H s d b bn f : cache_st c pins H s d → (b, bn) ∈ H →
  length (f (c bn)) = Z.to_nat BSIZE →
  ∃ s', upd_data b f s = Ret tt s' ∧ cache_st (<[bn := f (c bn)]> c) pins H s' d ∧ same_log s s'.
Proof.
  intros Hst Hin Hlen. destruct (held_buf _ _ _ _ _ _ _ Hst Hin) as (x & Hx & Hd & Hb & Hv & Hdt & Hok & Hlt).
  unfold upd_data. rewrite upd_buf_run by (by eapply lookup_lt_Some). eexists. split; [done|]. split; [|done].
  apply (cache_st_upd c _ pins H s _ d d b bn x (x <| b_data ::= f |>)); try done.
  - apply io_state_buf, (cs_io _ _ _ _ _ Hst).
  - ksimpl. symmetry. by apply list_insert_alter.
  - cbn. by rewrite Hdt, fn_lookup_insert.
  - intros n Hne. by rewrite fn_lookup_insert_ne.
  - by rewrite fn_lookup_insert.
Qed.

Lemma bwrite_cwp c pins H s d b bn Cr (Q : unit → kernel → disk → Prop) :
  cache_st c pins H s d → (b, bn) ∈ H → Cr d → Cr (wr_block bn (c bn) d) →
  (∀ s', cache_st c pins H s' (wr_block bn (c bn) d) → same_log s s' → Q tt s' (wr_block bn (c bn) d)) →
  cwp Cr Q d (bwrite b s).
Proof.
  intros Hst Hin Hc Hc' HQ. destruct (held_buf _ _ _ _ _ _ _ Hst Hin) as (x & Hx & Hd & Hb & Hv & Hdt & Hok & Hlt).
  destruct (cs_held _ _ _ _ _ Hst b bn Hin) as [_ _ (k & Hk & Hlk & Hpk)].
  destruct (user_cache s (cs_io _ _ _ _ _ Hst)) as (y & Hu & Hpid).
  unfold bwrite. mrun_with (holdingsleep_run _ _ _ _ _ (cache_user_sl p y s b Hu Hlt) Hk).
  rewrite Hpk, Hpid, Z.eqb_refl, andb_true_r.
  assert (truth (sl_locked k) = true) as -> by (unfold truth; by destruct (Z.eqb_spec (sl_locked k) 0)). cbn [negb].
  assert (after_rw true x d = wr_block bn (c bn) d) as Hd'.
  { unfold after_rw, wr_block. by rewrite (sector_block x bn), Hdt. }
  eapply cwp_rw; try done; [by apply (cs_io _ _ _ _ _ Hst)|by rewrite Hd'|]. rewrite Hd'.
  intros s' Hio HB (HL & Hlog). apply HQ; [|done].
  apply (cache_st_upd c c pins H s s' d _ b bn x (x <| b_disk := 0 |>)); try done.
  - rewrite HB. symmetry. rewrite (list_insert_alter (λ y, y <| b_disk := 0 |>)) by done. done.
  - apply (cs_length _ _ _ _ _ Hst).
  - intros n Hne. apply block_wr_other; [apply (cs_length _ _ _ _ _ Hst)|done].
Qed.

(** ** Giving buffers up *)

Lemma disk_user_woken h P me ch : disk_user p pid h P → disk_user p pid h (imap (woken me ch) P).
Proof.
  intros [Hh Hc Hp Hl Hlen (y & Hy & Hpid)]. split; try done; [by rewrite length_imap|].
  rewrite list_lookup_imap, Hy. cbn. eexists. split; [done|]. by apply self_woken.
Qed.

Lemma dereferenced_refcnt x n : b_refcnt x = n + 1 → 0 ≤ n < 2 ^ 32 → b_refcnt (dereferenced x) = n.
Proof. intros Hr Hn. unfold dereferenced. ksimpl. rewrite Hr, Z.add_simpl_r. by apply u32_small. Qed.

Lemma Z_of_prop_range P `{Decision P} : 0 ≤ Z_of_prop P ≤ 1.
Proof. unfold Z_of_prop. destruct (decide P); lia. Qed.

Lemma brelse_run_st c pins H s d b bn :
  cache_st c pins ((b, bn) :: H) s d → (bn ∈ pins ∨ c bn = block d bn) →
  ∃ s', brelse b s = Ret tt s' ∧ cache_st c pins H s' d ∧ same_log s s'.
Proof.
  intros Hst Hcl. assert ((b, bn) ∈ (b, bn) :: H) as Hin by by left.
  destruct (held_buf _ _ _ _ _ _ _ Hst Hin) as (x & Hx & Hd & Hbn & Hv & Hdt & Hok & Hlt).
  destruct (cs_held _ _ _ _ _ Hst b bn Hin) as [_ _ (k & Hk & Hlk & Hpk)].
  destruct (user_cache s (cs_io _ _ _ _ _ Hst)) as (y & Hu & Hpid). destruct (cs_wf _ _ _ _ _ Hst) as [l Hw].
  pose proof (brelse_run p y l s b x k Hu Hw Hlt Hx Hk Hlk ltac:(congruence)) as Hrun.
  pose proof (brelse_owned p y l s b x k Hu Hw Hlt Hx Hk Hlk) as Hw'.
  pose proof (cache_put_contents b l (k_bcache s)) as Hput.
  destruct (cache_put b l (k_bcache s)) as [l' B']. cbn [snd] in *.
  pose proof (cs_distinct _ _ _ _ _ Hst) as Hnd. cbn in Hnd. apply list.NoDup_cons in Hnd as [Hnb Hnd].
  assert (∀ j z, (j < NBUF)%nat → k_bcache s !! j = Some z → ∃ z', B' !! j = Some z' ∧
    same_contents (if decide (j = b) then dereferenced z else z) z') as Hfwd.
  { intros j z Hj Hz. destruct (lru_lookup _ _ j (cw_lru _ _ _ Hw')) as [z' Hz']; [lia|]. exists z'. split; [done|].
    destruct (Hput j z' Hz') as (w & Hw2 & Hs). destruct (decide (j = b)) as [->|Hne].
    - rewrite list_lookup_alter_eq, Hz in Hw2. cbn in Hw2. by injection Hw2 as <-.
    - rewrite list_lookup_alter_ne, Hz in Hw2 by done. by injection Hw2 as <-. }
  eexists. split; [exact Hrun|]. split; [|split; try done; by eapply buf_ilocks]. set (s' := _ <| k_bcache := B' |>).
  assert (k_bcache s' = B') as HB by done.
  assert (k_sleeplocks s' = <[SL_buf b := sl_free k]> (k_sleeplocks s)) as HL by done.
  split.
  - destruct (cs_io _ _ _ _ _ Hst) as [Hu' Hv']. split; [|done]. by apply disk_user_woken.
  - exists l'. by rewrite HB, HL.
  - intros j z' Hj Hz'. rewrite HB in Hz'. destruct (Hput j z' Hz') as (w & Hw2 & (E1 & _ & E3 & E4 & E5 & E6)).
    destruct (decide (j = b)) as [->|Hne].
    + rewrite list_lookup_alter_eq, Hx in Hw2. cbn in Hw2. injection Hw2 as <-.
      destruct (cs_buf _ _ _ _ _ Hst b x Hlt Hx) as [Hr Hdx]. split.
      * rewrite E5, E3, E4. cbn [fmap list_fmap fst] in Hr. unfold Z_of_prop at 2 in Hr. rewrite decide_True in Hr by set_solver.
        rewrite (dereferenced_refcnt x _ Hr) by (pose proof (Z_of_prop_range (b_dev x = dev ∧ b_blockno x ∈ pins)); lia).
        change (b_dev (dereferenced x)) with (b_dev x). change (b_blockno (dereferenced x)) with (b_blockno x).
        unfold Z_of_prop at 3. rewrite decide_False by done. lia.
      * rewrite E1, E3, E4, E6. exact Hdx.
    + rewrite list_lookup_alter_ne in Hw2 by done. destruct (cs_buf _ _ _ _ _ Hst j w Hj Hw2) as [Hr Hdx]. split.
      * rewrite E5, E3, E4, Hr. f_equal. unfold Z_of_prop. apply decide_ext. cbn. set_solver.
      * by rewrite E1, E3, E4, E6.
  - intros j bj Hj. assert (j ≠ b) as Hne. { intros ->. apply Hnb, list_elem_of_fmap. by exists (b, bj). }
    destruct (cs_held _ _ _ _ _ Hst j bj) as [Hlj (z & Hz & Hdz & Hbz & Hvz) Hkj]; [by right|]. split; [done| |].
    + destruct (Hfwd j z Hlj Hz) as (z' & Hz' & Hs). rewrite decide_False in Hs by done. destruct Hs as (E1 & _ & E3 & E4 & _).
      exists z'. rewrite HB. split_and!; congruence.
    + by rewrite HL, lookup_insert_ne by congruence.
  - intros j kj Hj Hnj Hkj. rewrite HL in Hkj. destruct (decide (j = b)) as [->|Hne].
    + rewrite lookup_insert_eq in Hkj. by injection Hkj as <-.
    + rewrite lookup_insert_ne in Hkj by congruence. apply (cs_free _ _ _ _ _ Hst j kj Hj); [cbn; set_solver|done].
  - intros n Hn. destruct (cs_pinned _ _ _ _ _ Hst n Hn) as (j & z & Hj & Hz & Hdz & Hbz & Hvz).
    destruct (Hfwd j z Hj Hz) as (z' & Hz' & Hs). exists j, z'. rewrite HB. split; [done|]. split; [done|].
    by destruct (decide (j = b)); destruct Hs as (E1 & _ & E3 & E4 & _); cbn in *; split_and!; congruence.
  - done.
  - apply (cs_length _ _ _ _ _ Hst).
  - intros n Hn1 Hn2. destruct (decide (n = bn)) as [->|Hne]; [by destruct Hcl|].
    apply (cs_clean _ _ _ _ _ Hst); [done|]. cbn. set_solver.
Qed.

Lemma bunpin_run_st c pins H s d b bn :
  cache_st c (bn :: pins) H s d → (b, bn) ∈ H → bn ∉ pins →
  ∃ s', bunpin b s = Ret tt s' ∧ cache_st c pins H s' d ∧ same_log s s'.
Proof.
  intros Hst Hin Hnp. destruct (held_buf _ _ _ _ _ _ _ Hst Hin) as (x & Hx & Hd & Hbn & Hv & Hdt & Hok & Hlt).
  destruct (user_cache s (cs_io _ _ _ _ _ Hst)) as (y & Hu & Hpid). destruct (cs_wf _ _ _ _ _ Hst) as [l Hw].
  destruct (cs_held _ _ _ _ _ Hst b bn Hin) as [_ _ (k & Hk & Hlk & Hpk)].
  assert (Hbh : b ∈ H.*1) by (apply list_elem_of_fmap; by exists (b, bn)).
  assert (b_refcnt x = 2) as Hr2.
  { destruct (cs_buf _ _ _ _ _ Hst b x Hlt Hx) as [-> _]. unfold Z_of_prop.
    rewrite !decide_True; [done|done|]. split; [done|]. rewrite Hbn. by left. }
  assert (b_refcnt (dereferenced x) = 1) as Hr1 by (apply dereferenced_refcnt; lia).
  unfold bunpin. rewrite (pin_run 0); [|apply Hu|apply Hu|by eapply lookup_lt_Some].
  change (λ x, x <| b_refcnt ::= λ n, u32 (n - 1) |>) with dereferenced.
  eexists. split; [done|]. split; [|done]. set (s' := s <| k_bcache := _ |>).
  assert (k_bcache s' = alter dereferenced b (k_bcache s)) as HB by done.
  assert (∀ j z, k_bcache s' !! j = Some z → ∃ w, k_bcache s !! j = Some w ∧ z = if decide (j = b) then dereferenced w else w) as Hback.
  { intros j z Hz. rewrite HB in Hz. destruct (decide (j = b)) as [->|Hne].
    - rewrite list_lookup_alter_eq, Hx in Hz. injection Hz as <-. by exists x.
    - rewrite list_lookup_alter_ne in Hz by done. by exists z. }
  assert (∀ j w, k_bcache s !! j = Some w → ∃ z, k_bcache s' !! j = Some z ∧ b_dev z = b_dev w ∧ b_blockno z = b_blockno w ∧ b_valid z = b_valid w) as Hfwd.
  { intros j w Hw2. rewrite HB. destruct (decide (j = b)) as [->|Hne].
    - rewrite list_lookup_alter_eq, Hw2. by eexists.
    - rewrite list_lookup_alter_ne by done. by exists w. }
  split; try apply Hst.
  - by destruct (cs_io _ _ _ _ _ Hst) as [Hu' Hv'].
  - exists l. rewrite HB. change (k_sleeplocks s') with (k_sleeplocks s). rewrite <- (insert_id _ _ _ Hk).
    apply (cache_wf_alter _ _ _ _ _ x); try done; [rewrite Hr1; lia|rewrite Hr1; lia|by left].
  - intros j z Hj Hz. destruct (Hback j z Hz) as (w & Hw2 & ->). destruct (cs_buf _ _ _ _ _ Hst j w Hj Hw2) as [Hr Hdx].
    destruct (decide (j = b)) as [->|Hne]; split; try exact Hdx.
    + simplify_eq. rewrite Hr1. unfold Z_of_prop. rewrite decide_False, decide_True; [done|done|]. cbn. tauto.
    + rewrite Hr. f_equal. unfold Z_of_prop. apply decide_ext. rewrite elem_of_cons. split; [|tauto].
      intros [Hdw [Hbw|?]]; [|done]. destruct Hne. by eapply held_unique.
  - intros j bj Hj. destruct (cs_held _ _ _ _ _ Hst j bj Hj) as [Hlj (z & Hz & Hdz & Hbz & Hvz) Hkj]. split; [done| |done].
    destruct (Hfwd j z Hz) as (z' & Hz' & ? & ? & ?). exists z'. split_and!; congruence.
  - intros n Hn. destruct (cs_pinned _ _ _ _ _ Hst n) as (j & z & Hj & Hz & Hdz & Hbz & Hvz); [by right|].
    destruct (Hfwd j z Hz) as (z' & Hz' & ? & ? & ?). exists j, z'. split_and!; congruence.
  - intros n Hn1 Hn2. apply (cs_clean _ _ _ _ _ Hst); [|done]. apply list.not_elem_of_cons. split; [|done].
    intros ->. apply Hn2, list_elem_of_fmap. by exists (b, bn).
Qed.

End cache.
