(* ===== verification/Frame.v ===== *)
(** * Frames: which code leaves which part of the kernel alone

    A component's invariant speaks of its own variables; the other components
    it calls must not write them.  [keeps] states that of an operation, for
    every stretch of its execution between two [Switch]es: whatever the rest
    of the machine does while the operation waits, the operation itself does
    not change [f], and if it panics the message satisfies [ok].  The class
    [Apart_hw] says that [f] does not depend on the registers and spinlocks,
    [Apart] that it does not depend on the process table, sleep locks, disk
    driver and buffers either; from them follow the lemmas for spinlocks, sleep
    and wakeup, sleep locks, the disk driver and the buffer cache. *)

From S2P Require Import Prelude Riscv State Spinlock CString Kalloc Vm Printf Sched Sleeplock FsDefs Virtio Bio.

(** The messages with which the code below panics. *)
Definition io_panics : list string :=
  ["acquire"; "release"; "pop_off - interruptible"; "pop_off"; "sched p->lock"; "sched locks";
   "sched RUNNING"; "sched interruptible"; "bget: no buffers"; "bwrite"; "brelse";
   "free_desc 1"; "free_desc 2"]%string.

Class Apart_hw {T} (f : kernel → T) (ok : string → Prop) : Prop := {
  apart_hw : ∀ g s, f (s <| k_hw ::= g |>) = f s;
  apart_panics : Forall ok io_panics
}.
Class Apart {T} (f : kernel → T) (ok : string → Prop) : Prop := {
  apart_spinlock :: Apart_hw f ok;
  apart_procs : ∀ g s, f (s <| k_procs ::= g |>) = f s;
  apart_sleeplocks : ∀ g s, f (s <| k_sleeplocks ::= g |>) = f s;
  apart_bcache : ∀ g s, f (s <| k_bcache ::= g |>) = f s;
  apart_vdisk : ∀ g s, f (s <| k_vdisk ::= g |>) = f s;
  apart_mmio_reads : ∀ g s, f (s <| k_mmio_reads ::= g |>) = f s;
  apart_mmio_out : ∀ g s, f (s <| k_mmio_out ::= g |>) = f s
}.

Create HintDb frame.

(** Rely and guarantee.  Between two [Switch]es an operation takes [f] from
    [x], its value when the stretch began, to a value related by [J]; while it
    waits the rest of the machine moves [f] along [R]; when it returns, [Q]
    relates the beginning of the last stretch, the result and the final value. *)
Section rely.
Context {T : Type} (f : kernel → T) (ok : string → Prop) (R J : T → T → Prop).

Fixpoint rg {A} (Q : T → A → T → Prop) (x : T) (r : res A) : Prop :=
  match r with
  | Ret a s => Q x a (f s)
  | Panic msg => ok msg
  | Switch _ s k => J x (f s) ∧ ∀ s', R (f s) (f s') → rg Q (f s') (k s')
  | _ => True
  end.

Lemma rg_bind {A B} (Q' : T → A → T → Prop) (Q : T → B → T → Prop) (m : A → M B) x r :
  rg Q' x r → (∀ x a s, Q' x a (f s) → rg Q x (m a s)) → rg Q x (bind_res r m).
Proof.
  intros Hr Hm. revert x Hr. induction r as [a s|msg|to s k IH| | |]; simpl; intros x Hr; try done.
  - by apply Hm.
  - destruct Hr as [Hs Hk]. split; [done|]. intros s' Hs'. by apply IH, Hk.
Qed.

Lemma rg_while {X B} n (body : X → M (X + B)) (Q : T → B → T → Prop) z s :
  (∀ z s, rg (λ x r y, match r with inl _ => y = x | inr b => Q x b y end) (f s) (body z s)) →
  rg Q (f s) (while_ n body z s).
Proof.
  intros Hb. revert z s. induction n as [|n IH]; intros z s; [done|].
  simpl. eapply rg_bind; [apply Hb|]. intros x [z'|b] t; [|done]. intros <-. apply IH.
Qed.
End rely.

(** The case of code that does not write [f], whatever happens meanwhile; with
    [sw = false] it does not give up the hart either. *)
Section frame.
Context {T : Type} (f : kernel → T) (ok : string → Prop) (sw : bool).

Definition framed {A} : T → res A → Prop :=
  rg f ok (λ _ _, True) (λ x y, sw = true ∧ y = x) (λ x _ y, y = x).
Definition keeps {A} (m : M A) : Prop := ∀ s, framed (f s) (m s).

(** Such code keeps every assertion [P] that the rest of the machine keeps. *)
Lemma framed_rg {A} R J (Q : T → A → T → Prop) (P : T → Prop) x r :
  framed x r → P x → (∀ x y, P x → R x y → P y) → (∀ x, P x → J x x) → (∀ x a, P x → Q x a x) →
  rg f ok R J Q x r.
Proof.
  intros Hr Hx HR HJ HQ. revert x Hr Hx. induction r as [a s|msg|to s k IH| | |]; simpl; intros x Hr Hx; try done.
  - rewrite Hr. by apply HQ.
  - destruct Hr as [[_ ->] Hk]. split; [by apply HJ|]. intros s' Hs'. apply IH; [by apply Hk|by eapply HR].
Qed.

Lemma keeps_ret {A} (a : A) : keeps (mret a).
Proof. by intros s. Qed.
Lemma keeps_skip : keeps skip.
Proof. by intros s. Qed.
Lemma keeps_gets {A} (g : kernel → A) : keeps (gets g).
Proof. by intros s. Qed.
Lemma keeps_ub {A} : keeps (@ub A).
Proof. by intros s. Qed.
Lemma keeps_spin {A} : keeps (@spin A).
Proof. by intros s. Qed.
Lemma keeps_nofuel {A} : keeps (@nofuel A).
Proof. by intros s. Qed.
Lemma keeps_option {A} (o : option A) : keeps (of_option o).
Proof. by destruct o. Qed.
Lemma keeps_read {A} (g : kernel → option A) : keeps (λ s, of_option (g s) s).
Proof. intros s. by destruct (g s). Qed.
Lemma keeps_modify g : (∀ s, f (g s) = f s) → keeps (modify g).
Proof. intros Hg s. apply Hg. Qed.
Lemma keeps_swtch to : sw = true → keeps (swtch to).
Proof. intros Hsw s. by split. Qed.

Lemma framed_bind {A B} (m : A → M B) x r :
  framed x r → (∀ a, keeps (m a)) → framed x (bind_res r m).
Proof. intros Hr Hm. eapply rg_bind; [exact Hr|]. intros y a s <-. apply Hm. Qed.

Lemma keeps_bind {A B} (m : M A) (g : A → M B) : keeps m → (∀ a, keeps (g a)) → keeps (m ≫= g).
Proof. intros Hm Hg s. by apply framed_bind. Qed.

Lemma keeps_when b m : keeps m → keeps (when b m).
Proof. intros. by destruct b; [|apply keeps_skip]. Qed.

Lemma keeps_for_each {A} (l : list A) body : (∀ a, keeps (body a)) → keeps (for_each l body).
Proof.
  intros Hb. induction l as [|a l IH]; [apply keeps_skip|].
  apply keeps_bind; [done|]. by intros _.
Qed.

Lemma keeps_for_ret {A B} (l : list A) (body : A → M (option B)) :
  (∀ a, keeps (body a)) → keeps (for_ret l body).
Proof.
  intros Hb. induction l as [|a l IH]; [apply keeps_ret|].
  apply keeps_bind; [done|]. intros [b|]; [apply keeps_ret|done].
Qed.

Lemma keeps_while {X B} n (body : X → M (X + B)) x : (∀ x, keeps (body x)) → keeps (while_ n body x).
Proof.
  intros Hb. revert x. induction n as [|n IH]; intros x; [apply keeps_nofuel|].
  apply keeps_bind; [done|]. intros [y|b]; [apply IH|apply keeps_ret].
Qed.

Context `{!Apart_hw f ok}.

Lemma keeps_panic {A} msg : msg ∈ io_panics → keeps (@panic A msg).
Proof. intros Hm s. exact (proj1 (list.Forall_forall _ _) (apart_panics (f := f)) msg Hm). Qed.

End frame.

Lemma framed_plain {T} (f : kernel → T) ok {A} R J (Q : T → A → T → Prop) x0 x r :
  framed f ok false x r → (∀ a, Q x0 a x) → rg f ok R J Q x0 r.
Proof. intros Hr HQ. destruct r as [a s|msg|to s k| | |]; simpl in *; try done; [by rewrite Hr|by destruct Hr as [[? _] _]]. Qed.

Lemma rg_plain {T} (f : kernel → T) ok {A B} R J (Q : T → B → T → Prop) (m : M A) (g : A → M B) x s :
  keeps f ok false m → (∀ a t, f t = f s → rg f ok R J Q x (g a t)) → rg f ok R J Q x ((m ≫= g) s).
Proof.
  intros Hm Hg. rewrite bind_run. eapply (rg_bind _ _ _ _ (λ y _ z, y = x ∧ z = f s)).
  - by eapply framed_plain; [apply Hm|].
  - intros y a t [-> Ht]. by apply Hg.
Qed.

#[export] Hint Resolve keeps_ret keeps_skip keeps_gets keeps_ub keeps_spin keeps_nofuel keeps_option
  keeps_read keeps_swtch : frame.

Ltac apart :=
  intros; first [ apply apart_hw | apply apart_procs | apply apart_sleeplocks | apply apart_bcache
                | apply apart_vdisk | apply apart_mmio_reads | apply apart_mmio_out ].

Ltac frame_step :=
  lazymatch goal with
  | |- ∀ _, _ => intro
  | |- keeps _ _ _ (_ ≫= _) => apply keeps_bind
  | |- keeps _ _ _ (when _ _) => apply keeps_when
  | |- keeps _ _ _ (for_each _ _) => apply keeps_for_each
  | |- keeps _ _ _ (for_ret _ _) => apply keeps_for_ret
  | |- keeps _ _ _ (while_ _ _ _) => apply keeps_while
  | |- keeps _ _ _ (modify _) => apply keeps_modify; apart
  | |- keeps _ _ _ (panic _) => apply keeps_panic; [apply _|unfold io_panics; set_solver]
  | |- keeps _ _ _ (match ?x with _ => _ end) => destruct x
  | |- keeps _ _ _ (let _ := _ in _) => cbv zeta
  | |- keeps _ _ _ _ => solve [eauto with frame typeclass_instances]
  end.
Ltac frame := repeat frame_step.

Section spinlock.
Context `{Image, Device, Patience} {T : Type} (f : kernel → T) (ok : string → Prop) `{!Apart_hw f ok} (sw : bool).

Abbreviation keeps := (keeps f ok sw).

(** ** Spinlocks *)

Lemma keeps_csr_get g : keeps (csr_get g).
Proof. apply keeps_gets. Qed.
Lemma keeps_csr_set g : keeps (csr_set g).
Proof. unfold csr_set. frame. Qed.
#[local] Hint Resolve keeps_csr_get keeps_csr_set : frame.
Lemma keeps_intr_get : keeps intr_get.
Proof. unfold intr_get, r_sstatus. frame. Qed.
Lemma keeps_intr_on : keeps intr_on.
Proof. unfold intr_on, r_sstatus, w_sstatus. frame. Qed.
Lemma keeps_intr_off : keeps intr_off.
Proof. unfold intr_off, r_sstatus, w_sstatus. frame. Qed.
Lemma keeps_mycpu : keeps mycpu.
Proof. unfold mycpu, cpuid, r_tp. frame. Qed.
Lemma keeps_get_cpu c : keeps (get_cpu c).
Proof. apply keeps_read. Qed.
#[local] Hint Resolve keeps_intr_get keeps_intr_on keeps_intr_off keeps_mycpu keeps_get_cpu : frame.
Lemma keeps_upd_cpu c g : keeps (upd_cpu c g).
Proof. unfold upd_cpu. frame. Qed.
Lemma keeps_get_lock lk : keeps (get_lock lk).
Proof. apply keeps_read. Qed.
#[local] Hint Resolve keeps_upd_cpu keeps_get_lock : frame.
Lemma keeps_upd_lock lk g : keeps (upd_lock lk g).
Proof. unfold upd_lock. frame. Qed.
Lemma keeps_initlock lk name : keeps (initlock lk name).
Proof. unfold initlock. frame. Qed.
Lemma keeps_push_off : keeps push_off.
Proof. unfold push_off. frame. Qed.
Lemma keeps_pop_off : keeps pop_off.
Proof. unfold pop_off. frame. Qed.
Lemma keeps_holding lk : keeps (holding lk).
Proof. unfold holding. frame. Qed.
#[local] Hint Resolve keeps_upd_lock keeps_initlock keeps_push_off keeps_pop_off keeps_holding : frame.
Lemma keeps_acquire lk : keeps (acquire lk).
Proof. unfold acquire. frame. Qed.
Lemma keeps_release lk : keeps (release lk).
Proof. unfold release. frame. Qed.
Lemma keeps_myproc : keeps myproc.
Proof. unfold myproc. frame. Qed.
#[local] Hint Resolve keeps_acquire keeps_release keeps_myproc : frame.
Lemma keeps_curproc : keeps curproc.
Proof. unfold curproc. frame. Qed.

End spinlock.

#[export] Hint Resolve keeps_csr_get keeps_csr_set keeps_intr_get keeps_intr_on keeps_intr_off
  keeps_mycpu keeps_get_cpu keeps_upd_cpu keeps_get_lock keeps_upd_lock keeps_initlock keeps_push_off
  keeps_pop_off keeps_holding keeps_acquire keeps_release keeps_myproc keeps_curproc : frame.

Section kernel.
Context `{Image, Device, Patience} {T : Type} (f : kernel → T) (ok : string → Prop) `{!Apart f ok} (sw : bool).

Abbreviation keeps := (keeps f ok sw).

(** ** The process table *)

Lemma keeps_get_proc p : keeps (get_proc p).
Proof. apply keeps_read. Qed.
#[local] Hint Resolve keeps_get_proc : frame.
Lemma keeps_upd_proc p g : keeps (upd_proc p g).
Proof. unfold upd_proc. frame. Qed.
#[local] Hint Resolve keeps_upd_proc : frame.

(** ** Sleep and wakeup *)

Lemma keeps_wakeup ch : keeps (wakeup ch).
Proof. unfold wakeup. frame. Qed.
#[local] Hint Resolve keeps_wakeup : frame.

(** ** Sleep locks *)

Lemma keeps_get_sl lk : keeps (get_sl lk).
Proof. apply keeps_read. Qed.
#[local] Hint Resolve keeps_get_sl : frame.
Lemma keeps_upd_sl lk g : keeps (upd_sl lk g).
Proof. unfold upd_sl. frame. Qed.
#[local] Hint Resolve keeps_upd_sl : frame.
Lemma keeps_releasesleep lk : keeps (releasesleep lk).
Proof. unfold releasesleep. frame. Qed.
Lemma keeps_holdingsleep lk : keeps (holdingsleep lk).
Proof. unfold holdingsleep. frame. Qed.
#[local] Hint Resolve keeps_releasesleep keeps_holdingsleep : frame.

(** ** The disk driver *)

Lemma keeps_get_buf b : keeps (get_buf b).
Proof. apply keeps_read. Qed.
#[local] Hint Resolve keeps_get_buf : frame.
Lemma keeps_upd_buf b g : keeps (upd_buf b g).
Proof. unfold upd_buf. frame. Qed.
Lemma keeps_get_disk : keeps get_disk.
Proof. apply keeps_gets. Qed.
Lemma keeps_upd_disk g : keeps (upd_disk g).
Proof. unfold upd_disk. frame. Qed.
Lemma keeps_virtio_write r v : keeps (virtio_write r v).
Proof. unfold virtio_write, mmio_write. frame. Qed.
#[local] Hint Resolve keeps_upd_buf keeps_get_disk keeps_upd_disk keeps_virtio_write : frame.
Lemma keeps_free_desc i : keeps (free_desc i).
Proof. unfold free_desc. frame. Qed.
Lemma keeps_alloc_desc : keeps alloc_desc.
Proof. unfold alloc_desc. frame. Qed.
#[local] Hint Resolve keeps_free_desc keeps_alloc_desc : frame.
Lemma keeps_free_chain i : keeps (free_chain i).
Proof. unfold free_chain. frame. Qed.
Lemma keeps_alloc3_desc : keeps alloc3_desc.
Proof. unfold alloc3_desc. frame. Qed.
#[local] Hint Resolve keeps_free_chain keeps_alloc3_desc : frame.

(** ** The buffer cache *)

Lemma keeps_brelse b : keeps (brelse b).
Proof. unfold brelse, link_front. frame. Qed.
Lemma keeps_bpin b : keeps (bpin b).
Proof. unfold bpin. frame. Qed.
Lemma keeps_bunpin b : keeps (bunpin b).
Proof. unfold bunpin. frame. Qed.
Lemma keeps_get_data b : keeps (get_data b).
Proof. unfold get_data. frame. Qed.
Lemma keeps_upd_data b g : keeps (upd_data b g).
Proof. unfold upd_data. frame. Qed.

(** ** printf *)

Lemma keeps_uartputc_sync c : keeps (uartputc_sync c).
Proof. unfold uartputc_sync, ReadReg, WriteReg, mmio_read, mmio_write. frame. Qed.
#[local] Hint Resolve keeps_uartputc_sync : frame.
Lemma keeps_consputc c : keeps (consputc c).
Proof. unfold consputc. frame. Qed.
#[local] Hint Resolve keeps_consputc : frame.
Lemma keeps_printint xx base sign : keeps (printint xx base sign).
Proof. unfold printint. frame. Qed.
Lemma keeps_printptr_loop n x : keeps (printptr_loop n x).
Proof. revert x. induction n as [|n IH]; intros x; [apply keeps_skip|]. apply keeps_bind; auto with frame. Qed.
#[local] Hint Resolve keeps_printptr_loop : frame.
Lemma keeps_printptr x : keeps (printptr x).
Proof. unfold printptr. frame. Qed.
#[local] Hint Resolve keeps_printint keeps_printptr : frame.
Lemma keeps_printf_conv fmt ap : keeps (printf_conv fmt ap).
Proof.
  unfold printf_conv. generalize (default 0 (fmt !! 0%nat)). intros c0. cbv zeta.
  frame; unfold va_int, va_str; frame.
Qed.
#[local] Hint Resolve keeps_printf_conv : frame.
Lemma keeps_printf fmt ap : keeps (printf fmt ap).
Proof. unfold printf, printf_loop. frame. Qed.

End kernel.

#[export] Hint Resolve keeps_get_proc keeps_upd_proc keeps_wakeup keeps_get_sl keeps_upd_sl
  keeps_releasesleep keeps_holdingsleep keeps_get_buf keeps_upd_buf keeps_get_disk keeps_upd_disk
  keeps_virtio_write keeps_free_desc keeps_alloc_desc keeps_free_chain keeps_alloc3_desc keeps_brelse
  keeps_bpin keeps_bunpin keeps_get_data keeps_upd_data keeps_printf : frame.

(** ** Code that waits *)
Section waits.
Context `{Image, Device, Patience} {T : Type} (f : kernel → T) (ok : string → Prop) `{!Apart f ok}.

Abbreviation keeps := (Frame.keeps f ok true).

Lemma keeps_sched : keeps sched.
Proof. unfold sched. frame. Qed.
#[local] Hint Resolve keeps_sched : frame.
Lemma keeps_sleep ch lk : keeps (sleep ch lk).
Proof. unfold sleep. frame. Qed.
#[local] Hint Resolve keeps_sleep : frame.
Lemma keeps_acquiresleep lk : keeps (acquiresleep lk).
Proof. unfold acquiresleep. frame. Qed.
#[local] Hint Resolve keeps_acquiresleep : frame.
Lemma keeps_virtio_disk_rw b w : keeps (virtio_disk_rw b w).
Proof. unfold virtio_disk_rw, set_desc. frame. Qed.
#[local] Hint Resolve keeps_virtio_disk_rw : frame.
Lemma keeps_bget dev blockno : keeps (bget dev blockno).
Proof. unfold bget. frame. Qed.
#[local] Hint Resolve keeps_bget : frame.
Lemma keeps_bread dev blockno : keeps (bread dev blockno).
Proof. unfold bread. frame. Qed.
Lemma keeps_bwrite b : keeps (bwrite b).
Proof. unfold bwrite. frame. Qed.

End waits.

#[export] Hint Resolve keeps_sched keeps_sleep keeps_acquiresleep keeps_virtio_disk_rw keeps_bget
  keeps_bread keeps_bwrite : frame.
