(* ===== verification/Log.v ===== *)
(** * Write-ahead log: kernel/log.c *)

From S2P Require Import Prelude Riscv State Spinlock CString Kalloc Vm Printf Sched Sleeplock FsDefs Virtio Bio.

Section log.
Context `{Image, Device, Patience}.

Definition get_log : M log := gets k_log.
Definition upd_log (f : log → log) : M unit := modify (λ s, s <| k_log ::= f |>).

(** [log.lh.block[i]], an array of [LOGBLOCKS] integers. *)
Definition get_lh_block (i : nat) : M Z := lg ← get_log; of_option (lh_block lg !! i).
Definition set_lh_block (i : nat) (v : Z) : M unit :=
  _ ← get_lh_block i; upd_log (λ lg, lg <| lh_block ::= λ l, <[i := v]> l |>).

Definition tails (n : Z) : list nat := seq 0 (Z.to_nat n).

Definition install_trans (recovering : bool) : M unit :=
  lg ← get_log;
  for_each (tails (lh_n lg)) (λ tail,
    dst ← get_lh_block tail;
    when recovering
      (printf (str "recovering tail %d dst %d" ++ [10]) [PInt (Z.of_nat tail); PInt dst]);;
    lg ← get_log;
    lbuf ← bread (u32 (lg_dev lg)) (u32 (lg_start lg + Z.of_nat tail + 1));
    dst ← get_lh_block tail;
    dbuf ← bread (u32 (lg_dev lg)) (u32 dst);
    data ← get_data lbuf;
    upd_data dbuf (λ _, data);;
    bwrite dbuf;;
    when (negb recovering) (bunpin dbuf);;
    brelse lbuf;;
    brelse dbuf).

(** [struct logheader] inside a block: [n], then the block numbers. *)
Definition read_head : M unit :=
  lg ← get_log;
  buf ← bread (u32 (lg_dev lg)) (u32 (lg_start lg));
  data ← get_data buf;
  let n := i32 (rd_le 4 0 data) in
  upd_log (λ lg, lg <| lh_n := n |>);;
  for_each (tails n) (λ i, set_lh_block i (i32 (rd_le 4 (4 + 4 * Z.of_nat i) data)));;
  brelse buf.

Definition write_head : M unit :=
  lg ← get_log;
  buf ← bread (u32 (lg_dev lg)) (u32 (lg_start lg));
  lg ← get_log;
  upd_data buf (wr_le 4 0 (u32 (lh_n lg)));;
  for_each (tails (lh_n lg)) (λ i,
    v ← get_lh_block i;
    upd_data buf (wr_le 4 (4 + 4 * Z.of_nat i) (u32 v)));;
  bwrite buf;;
  brelse buf.

Definition recover_from_log : M unit :=
  read_head;;
  install_trans true;;
  upd_log (λ lg, lg <| lh_n := 0 |>);;
  write_head.

(** [sizeof(struct logheader)] *)
Definition LOGHEADER_SIZE : Z := 4 + 4 * LOGBLOCKS.

Definition initlog (dev : Z) (sb : superblock) : M unit :=
  if BSIZE <=? LOGHEADER_SIZE then panic "initlog: too big logheader" else
  initlock L_log "log";;
  upd_log (λ lg, lg <| lg_start := i32 (sb_logstart sb) |>);;
  upd_log (λ lg, lg <| lg_dev := dev |>);;
  recover_from_log.

Definition begin_op : M unit :=
  acquire L_log;;
  while_ (S patience)
    (λ _ : unit,
      lg ← get_log;
      if truth (lg_committing lg) then sleep Ch_log L_log;; mret (inl tt)
      else if LOGBLOCKS <? lh_n lg + (lg_outstanding lg + 1) * MAXOPBLOCKS then
        sleep Ch_log L_log;; mret (inl tt)
      else
        upd_log (λ lg, lg <| lg_outstanding ::= λ n, i32 (n + 1) |>);;
        release L_log;;
        mret (inr tt)) tt.

Definition write_log : M unit :=
  lg ← get_log;
  for_each (tails (lh_n lg)) (λ tail,
    lg ← get_log;
    to ← bread (u32 (lg_dev lg)) (u32 (lg_start lg + Z.of_nat tail + 1));
    src ← get_lh_block tail;
    from ← bread (u32 (lg_dev lg)) (u32 src);
    data ← get_data from;
    upd_data to (λ _, data);;
    bwrite to;;
    brelse from;;
    brelse to).

Definition commit : M unit :=
  lg ← get_log;
  when (0 <? lh_n lg)
    (write_log;;
     write_head;;
     install_trans false;;
     upd_log (λ lg, lg <| lh_n := 0 |>);;
     write_head).

Definition end_op : M unit :=
  acquire L_log;;
  upd_log (λ lg, lg <| lg_outstanding ::= λ n, i32 (n - 1) |>);;
  lg ← get_log;
  if truth (lg_committing lg) then panic "log.committing" else
  do_commit ←
    (if lg_outstanding lg =? 0 then
       upd_log (λ lg, lg <| lg_committing := 1 |>);; mret true
     else wakeup Ch_log;; mret false);
  release L_log;;
  when do_commit
    (commit;;
     acquire L_log;;
     upd_log (λ lg, lg <| lg_committing := 0 |>);;
     wakeup Ch_log;;
     release L_log).

(** The loop of [log_write]: the index of [blockno] in the header, or [n]. *)
Fixpoint log_find (blocks : list Z) (n : nat) (blockno : Z) : nat :=
  match n, blocks with
  | S n, b :: blocks => if u32 b =? blockno then 0 else S (log_find blocks n blockno)
  | _, _ => 0
  end.

Definition log_write (b : nat) : M unit :=
  acquire L_log;;
  lg ← get_log;
  if LOGBLOCKS <=? lh_n lg then panic "too big a transaction" else
  if lg_outstanding lg <? 1 then panic "log_write outside of trans" else
  x ← get_buf b;
  let i := log_find (lh_block lg) (Z.to_nat (lh_n lg)) (b_blockno x) in
  set_lh_block i (i32 (b_blockno x));;
  when (Z.of_nat i =? lh_n lg)
    (bpin b;; upd_log (λ lg, lg <| lh_n ::= λ n, i32 (n + 1) |>));;
  release L_log.

End log.
