(* ===== verification/LogSpec.v ===== *)
(** * The log never overflows

    File system operations of any number of processes, interleaved in any way
    at the points where they wait: each is a [begin_op], calls of [log_write],
    an [end_op].  The state of the log is followed by rely and guarantee
    (Frame.v): [begin_op] waits for room and reserves [MAXOPBLOCKS] blocks,
    [log_write] uses up at most one of them, [end_op] gives them back and the
    last operation commits, during which nobody else changes the log. *)

From S2P Require Import Prelude Riscv State Boot Spinlock CString Kalloc Vm Printf Sched Sleeplock FsDefs Virtio Bio Log Machine SleeplockSpec BioSpec Frame.

(** The messages of log.c's own panics in these operations. *)
Definition log_panics : list string :=
  ["too big a transaction"; "log_write outside of trans"; "log.committing"]%string.
Definition not_log (msg : string) : Prop := msg ∉ log_panics.

Lemma io_panics_not_log : Forall not_log io_panics.
Proof. unfold not_log. by apply (bool_decide_unpack _). Qed.

#[export] Instance k_log_apart : Apart k_log not_log.
Proof. repeat split; try done. apply io_panics_not_log. Qed.

(** The spinlocks touch neither the log nor the buffers. *)
Definition log_bufs (s : kernel) : log * list buf := (k_log s, k_bcache s).
#[export] Instance log_bufs_apart : Apart_hw log_bufs not_log.
Proof. split; [done|]. apply io_panics_not_log. Qed.

Section log_ops.
Context `{Image, Device, Patience}.

(** ** What the operations do to the log *)

Definition room (lg : log) : Prop :=
  lg_committing lg = 0 ∧ lh_n lg + (lg_outstanding lg + 1) * MAXOPBLOCKS ≤ LOGBLOCKS.
Definition opened (lg : log) : log := lg <| lg_outstanding ::= λ n, i32 (n + 1) |>.
Definition closed (lg : log) : log := lg <| lg_outstanding ::= λ n, i32 (n - 1) |>.

Abbreviation waits := (rg k_log not_log (λ _ _, True) (λ x y, y = x)).

Lemma rg_keeps {A B} R J (Q : log → B → log → Prop) (m : M A) (g : A → M B) s :
  keeps k_log not_log true m → (∀ x, J x x) →
  (∀ a t, rg k_log not_log R J Q (k_log t) (g a t)) → rg k_log not_log R J Q (k_log s) ((m ≫= g) s).
Proof.
  intros Hm HJ Hg. rewrite bind_run. eapply (rg_bind _ _ _ _ (λ x _ y, y = x)).
  - by apply (framed_rg _ _ _ _ _ _ (λ _, True) _ _ (Hm s)).
  - intros x a t <-. apply Hg.
Qed.

Lemma begin_op_waits s : waits (λ x _ y, room x ∧ y = opened x) (k_log s) (begin_op s).
Proof.
  unfold begin_op. apply rg_keeps; [frame|done|]. intros _ t. apply rg_while.
  clear t. intros _ t. mrun. unfold get_log. mrun.
  destruct (truth _) eqn:Ec; [|destruct (Z.ltb_spec LOGBLOCKS (lh_n (k_log t) + (lg_outstanding (k_log t) + 1) * MAXOPBLOCKS))].
  - apply rg_keeps; [frame|done|]. by intros _ t'.
  - apply rg_keeps; [frame|done|]. by intros _ t'.
  - unfold upd_log. mrun. eapply rg_bind.
    + eapply (framed_plain _ _ _ _ (λ x _ y, room x ∧ y = opened x)); [apply keeps_release; apply _|].
      intros _. ksimpl. split; [|done]. split; [|lia].
      unfold truth in Ec. destruct (Z.eqb_spec (lg_committing (k_log t)) 0); done.
    + by intros x [] t' Hq.
Qed.

(** ** [end_op] and [commit] *)

Lemma keeps_get_log : keeps k_log not_log true get_log.
Proof. apply keeps_gets. Qed.
Lemma keeps_get_lh_block i : keeps k_log not_log true (get_lh_block i).
Proof. unfold get_lh_block. pose proof keeps_get_log. frame. Qed.
#[local] Hint Resolve keeps_get_log keeps_get_lh_block : frame.
Lemma keeps_write_log : keeps k_log not_log true write_log.
Proof. unfold write_log. frame. Qed.
Lemma keeps_write_head : keeps k_log not_log true write_head.
Proof. unfold write_head. frame. Qed.
Lemma keeps_install_trans : keeps k_log not_log true (install_trans false).
Proof. unfold install_trans. change (when false _) with skip. frame. Qed.

(** The values of the log while the last operation, which left it as [lg],
    commits, and its value after an [end_op]. *)
Definition during (lg y : log) : Prop :=
  lg_outstanding lg = 0 ∧
  (y = lg <| lg_committing := 1 |> ∨ y = lg <| lg_committing := 1 |> <| lh_n := 0 |>).
Definition after (lg : log) : log := if lg_outstanding lg =? 0 then lg <| lh_n := 0 |> else lg.

Definition commits {A} (lg : log) (Q : log → Prop) : res A → Prop :=
  rg k_log not_log (λ x y, y = x) (λ _ y, during lg y) (λ _ _ y, Q y) lg.

Lemma commits_start {A} lg Q x x' (r : res A) :
  rg k_log not_log (λ x y, y = x) (λ _ y, during lg y) (λ _ _ y, Q y) x r →
  rg k_log not_log (λ x y, y = x) (λ _ y, during lg y) (λ _ _ y, Q y) x' r.
Proof. by destruct r. Qed.

Lemma commits_bind {A B} lg (Q' Q : log → Prop) (m : M A) (g : A → M B) s :
  commits lg Q' (m s) → (∀ a t, Q' (k_log t) → commits lg Q (g a t)) → commits lg Q ((m ≫= g) s).
Proof.
  intros Hm Hg. rewrite bind_run. eapply rg_bind; [exact Hm|].
  intros x a t Ht. by eapply commits_start, Hg.
Qed.

(** While [lg] is committed, code that does not write the log keeps it, for
    nobody else writes it either. *)
Lemma commits_keeps {A} lg (m : M A) s :
  keeps k_log not_log true m → during lg (k_log s) → commits lg (.= k_log s) (m s).
Proof.
  intros Hm HJ. eapply commits_start.
  by apply (framed_rg _ _ _ _ _ _ (.= k_log s) _ _ (Hm s)); intros; subst.
Qed.

Lemma commits_plain {A B} lg Q (m : M A) (g : A → M B) s :
  keeps k_log not_log false m → (∀ a t, k_log t = k_log s → commits lg Q (g a t)) →
  commits lg Q ((m ≫= g) s).
Proof. apply rg_plain. Qed.

Lemma commits_last {A} lg (Q : log → Prop) (m : M A) s :
  keeps k_log not_log false m → Q (k_log s) → commits lg Q (m s).
Proof. intros Hm HQ. by eapply framed_plain; [apply Hm|]. Qed.

Lemma commit_commits lg s :
  lg_outstanding lg = 0 → 0 ≤ lh_n lg → k_log s = lg <| lg_committing := 1 |> →
  commits lg (.= lg <| lg_committing := 1 |> <| lh_n := 0 |>) (commit s).
Proof.
  intros Ho Hn Hs. unfold commit, get_log. rewrite bind_run. msimpl. rewrite Hs. ksimpl.
  destruct (Z.ltb_spec 0 (lh_n lg)) as [Hpos|Hz].
  - eapply commits_bind; [apply commits_keeps; [apply keeps_write_log|rewrite Hs; split; auto]|intros _ t Ht].
    eapply commits_bind; [apply commits_keeps; [apply keeps_write_head|rewrite Ht, Hs; split; auto]|intros _ t' Ht'].
    eapply commits_bind; [apply commits_keeps; [apply keeps_install_trans|rewrite Ht', Ht, Hs; split; auto]|intros _ t2 Ht2].
    unfold upd_log. rewrite bind_run. msimpl.
    set (t3 := t2 <| _ ::= _ |>).
    assert (k_log t3 = lg <| lg_committing := 1 |> <| lh_n := 0 |>) as Ht3
      by (unfold t3; ksimpl; by rewrite Ht2, Ht', Ht, Hs).
    rewrite <- Ht3. apply commits_keeps; [apply keeps_write_head|rewrite Ht3; split; auto].
  - unfold commits. simpl. rewrite Hs. destruct lg; simpl in *. by replace lh_n with 0 by lia.
Qed.

Lemma end_op_commits s (lg := closed (k_log s)) :
  lg_committing lg = 0 → 0 ≤ lh_n lg → commits lg (.= after lg) (end_op s).
Proof.
  intros Hc Hn. unfold end_op. apply commits_plain; [frame|intros _ t Ht].
  unfold upd_log, get_log. rewrite !bind_run. msimpl. rewrite !bind_run. msimpl.
  set (t' := t <| _ ::= _ |>). assert (k_log t' = lg) as Ht' by (unfold t', lg, closed; ksimpl; by rewrite Ht).
  rewrite Ht', Hc. cbn [truth Z.eqb negb]. unfold after. clearbody t' lg.
  destruct (Z.eqb_spec (lg_outstanding lg) 0) as [Ho|Ho].
  - rewrite bind_run. msimpl. rewrite bind_run. msimpl.
    set (u := t' <| _ ::= _ |>). assert (k_log u = lg <| lg_committing := 1 |>) as Hu by (unfold u; ksimpl; by rewrite Ht').
    clearbody u. apply commits_plain; [frame|intros _ u1 Hu1].
    eapply commits_bind; [apply commit_commits; [done|done|congruence]|intros _ u2 Hu2; simpl in Hu2].
    apply commits_plain; [frame|intros _ u3 Hu3]. rewrite bind_run. msimpl.
    apply commits_plain; [frame|intros _ u4 Hu4]. apply commits_last; [frame|].
    rewrite Hu4. ksimpl. rewrite Hu3, Hu2. destruct lg; simpl in *. by subst.
  - pose proof (keeps_wakeup k_log not_log false Ch_log t') as Hw. rewrite !bind_run.
    destruct (wakeup Ch_log t') as [[] u|msg|to u k| | |]; try done; [|by destruct Hw as [[? _] _]].
    msimpl. apply commits_plain; [frame|intros _ u1 Hu1]. unfold commits. simpl. simpl in Hw. congruence.
Qed.

(** ** [log_write] *)

Definition slot (blockno : Z) (lg : log) : nat := log_find (lh_block lg) (Z.to_nat (lh_n lg)) blockno.
Definition logged (blockno : Z) (lg : log) : log :=
  let lg' := lg <| lh_block ::= λ l, <[slot blockno lg := i32 blockno]> l |> in
  if Z.of_nat (slot blockno lg) =? lh_n lg then lg' <| lh_n ::= λ n, i32 (n + 1) |> else lg'.

Lemma log_write_plain b s :
  lh_n (k_log s) < LOGBLOCKS → 1 ≤ lg_outstanding (k_log s) →
  rg k_log not_log (λ _ _, True) (λ _ _, False)
    (λ _ _ y, ∃ x, k_bcache s !! b = Some x ∧ y = logged (b_blockno x) (k_log s)) (k_log s) (log_write b s).
Proof.
  intros Hn Ho. unfold log_write. pose proof (keeps_acquire log_bufs not_log false L_log s) as Ha.
  rewrite bind_run. destruct (acquire L_log s) as [[] t|msg|to u k| | |]; try done; [|by destruct Ha as [[? _] _]].
  injection Ha as Hl Hb. msimpl. unfold get_log. rewrite bind_run. msimpl. rewrite Hl.
  destruct (Z.leb_spec LOGBLOCKS (lh_n (k_log s))); [lia|].
  destruct (Z.ltb_spec (lg_outstanding (k_log s)) 1); [lia|].
  unfold get_buf. rewrite bind_run, Hb. destruct (k_bcache s !! b) as [x|] eqn:Ex; [|done]. msimpl.
  fold (slot (b_blockno x) (k_log s)). unfold set_lh_block, get_lh_block, get_log, upd_log. rewrite !bind_run. msimpl.
  destruct (lh_block (k_log t) !! _); [|done]. msimpl. set (u := t <| k_log ::= _ |>).
  assert (k_log u = k_log s <| lh_block ::= λ l, <[slot (b_blockno x) (k_log s) := i32 (b_blockno x)]> l |>) as Hu
    by (unfold u; ksimpl; by rewrite Hl).
  clearbody u. destruct (Z.of_nat (slot _ _) =? _) eqn:Es; msimpl.
  - rewrite !bind_run. pose proof (keeps_bpin k_log not_log false b u) as Hp.
    destruct (bpin b u) as [[] v|msg|to v k| | |]; try done; [|by destruct Hp as [[? _] _]].
    msimpl. eapply framed_plain; [apply keeps_release; apply _|]. intros _. exists x. split; [done|].
    unfold logged. rewrite Es. ksimpl. simpl in Hp. by rewrite Hp, Hu.
  - eapply framed_plain; [apply keeps_release; apply _|]. intros _. exists x. split; [done|].
    unfold logged. by rewrite Es, Hu.
Qed.

(** ** The header: distinct block numbers, at most [LOGBLOCKS] of them *)

Definition blocks (lg : log) : list Z := u32 <$> take (Z.to_nat (lh_n lg)) (lh_block lg).
Definition header_ok (lg : log) : Prop :=
  length (lh_block lg) = Z.to_nat LOGBLOCKS ∧ 0 ≤ lh_n lg ≤ LOGBLOCKS ∧ NoDup (blocks lg).

Lemma u32_i32 z : 0 ≤ z < 2 ^ 32 → u32 (i32 z) = z.
Proof.
  intros Hz. unfold u32, i32. rewrite Zminus_mod_idemp_l, Z.add_simpl_r. by apply Z.mod_small.
Qed.

Lemma log_find_spec l n b :
  (n ≤ length l)%nat → (log_find l n b ≤ n)%nat ∧
  (log_find l n b = n ∧ b ∉ u32 <$> take n l ∨
   (log_find l n b < n)%nat ∧ ∃ c, l !! log_find l n b = Some c ∧ u32 c = b).
Proof.
  revert l. induction n as [|n IH]; intros [|c l] Hn; simpl in *; try lia.
  - split; [done|]. left. split; [done|]. apply not_elem_of_nil.
  - split; [done|]. left. split; [done|]. apply not_elem_of_nil.
  - destruct (Z.eqb_spec (u32 c) b) as [Hc|Hc].
    + split; [lia|]. right. split; [lia|]. by exists c.
    + destruct (IH l) as [Hle [[-> Hnot]|[Hlt Hex]]]; [lia| |]; (split; [lia|]).
      * left. split; [done|]. rewrite list.not_elem_of_cons. naive_solver.
      * right. split; [lia|done].
Qed.

Lemma logged_ok blockno lg :
  header_ok lg → lh_n lg < LOGBLOCKS → 0 ≤ blockno < 2 ^ 32 →
  header_ok (logged blockno lg) ∧ lh_n lg ≤ lh_n (logged blockno lg) ≤ lh_n lg + 1 ∧
  lg_outstanding (logged blockno lg) = lg_outstanding lg ∧
  lg_committing (logged blockno lg) = lg_committing lg ∧
  (∀ z, z ∈ blocks (logged blockno lg) ↔ z = blockno ∨ z ∈ blocks lg).
Proof.
  intros (Hlen & Hn & Hnd) Hlt Hb. unfold header_ok, logged, blocks, slot, LOGBLOCKS, MAXOPBLOCKS in *.
  destruct (log_find_spec (lh_block lg) (Z.to_nat (lh_n lg)) blockno) as [Hle [[-> Hnot]|[Hi (c & Hc & Hcb)]]]; [lia| |].
  - rewrite Z2Nat.id, Z.eqb_refl by lia. ksimpl. rewrite length_insert, i32_small by lia.
    replace (Z.to_nat (lh_n lg + 1)) with (S (Z.to_nat (lh_n lg))) by lia.
    rewrite (take_S_r _ _ (i32 blockno)) by (rewrite list_lookup_insert_eq; [done|lia]).
    rewrite take_insert_ge, fmap_app by lia. simpl. rewrite u32_i32 by done. split; [split; [done|split; [lia|]]|split; [lia|split; [done|split; [done|]]]].
    + apply list.NoDup_app. split; [done|]. split; [|apply list.NoDup_singleton]. by intros z Hz ->%list_elem_of_singleton.
    + intros z. rewrite elem_of_app, list_elem_of_singleton. tauto.
  - destruct (Z.eqb_spec (Z.of_nat (log_find (lh_block lg) (Z.to_nat (lh_n lg)) blockno)) (lh_n lg)) as [|_]; [lia|].
    ksimpl. rewrite length_insert.
    rewrite take_insert_lt, list_fmap_insert, u32_i32 by done.
    assert ((u32 <$> take (Z.to_nat (lh_n lg)) (lh_block lg)) !! log_find (lh_block lg) (Z.to_nat (lh_n lg)) blockno = Some blockno) as Hat
      by (by rewrite list_lookup_fmap, lookup_take_lt, Hc, <- Hcb).
    rewrite list_insert_id by done. split; [done|]. split; [lia|]. split; [done|]. split; [done|].
    intros z. split; [auto|]. intros [->|]; [by eapply list_elem_of_lookup_2|done].
Qed.

(** What recovery leaves. *)
Definition quiet (lg : log) : Prop :=
  lg_outstanding lg = 0 ∧ lg_committing lg = 0 ∧ length (lh_block lg) = Z.to_nat LOGBLOCKS.
Definition fresh (lg : log) : Prop := quiet lg ∧ lh_n lg = 0.

(** ** Recovery, when nobody else uses the log *)

Definition quietly {A} (m : M A) : Prop := ∀ x s, quiet (k_log s) →
  rg k_log not_log (λ x y, y = x) (λ _ _, True) (λ _ _ y, quiet y) x (m s).

Lemma quietly_keeps {A} (m : M A) : keeps k_log not_log true m → quietly m.
Proof.
  intros Hm x s Hs. assert (∀ x x' r, rg k_log not_log (λ x y, y = x) (λ _ _, True) (λ (_ : log) (_ : A) y, quiet y) x' r →
    rg k_log not_log (λ x y, y = x) (λ _ _, True) (λ _ _ y, quiet y) x r) as Hx by (by intros ? ? []).
  apply (Hx x (k_log s)). apply (framed_rg _ _ _ _ _ _ quiet _ _ (Hm s)); [done| |done|done].
  by intros y z Hy ->.
Qed.

Lemma quietly_modify f : (∀ lg, quiet lg → quiet (f lg)) → quietly (upd_log f).
Proof. intros Hf x s Hs. by apply Hf. Qed.

Lemma quietly_bind {A B} (m : M A) (g : A → M B) : quietly m → (∀ a, quietly (g a)) → quietly (m ≫= g).
Proof. intros Hm Hg x s Hs. eapply rg_bind; [by apply Hm|]. intros y a t Ht. by apply Hg. Qed.

Lemma quietly_for_each {A} (l : list A) body : (∀ a, quietly (body a)) → quietly (for_each l body).
Proof.
  intros Hb. induction l as [|a l IH]; [by apply quietly_keeps, keeps_skip|].
  apply quietly_bind; [done|by intros _].
Qed.

Lemma quietly_read_head : quietly read_head.
Proof.
  apply quietly_bind; [apply quietly_keeps; frame|intros lg].
  apply quietly_bind; [apply quietly_keeps; frame|intros b].
  apply quietly_bind; [apply quietly_keeps; frame|intros data].
  apply quietly_bind; [by apply quietly_modify|intros _].
  apply quietly_bind; [|intros _; apply quietly_keeps; frame].
  apply quietly_for_each. intros i. apply quietly_bind; [apply quietly_keeps; frame|intros _].
  apply quietly_modify. intros y (? & ? & Hl). split; [done|]. split; [done|]. ksimpl. by rewrite length_insert.
Qed.

Lemma keeps_install_trans_recovering : keeps k_log not_log true (install_trans true).
Proof. unfold install_trans. change (when (negb true) _) with skip. frame. Qed.

(** [initlog] reads what the last run left in the header and ends with an
    empty log, whatever the disk holds. *)
Lemma initlog_fresh dev sb s : quiet (k_log s) →
  rg k_log not_log (λ x y, y = x) (λ _ _, True) (λ _ _ y, fresh y) (k_log s) (initlog dev sb s).
Proof.
  intros Hs. unfold initlog. change (BSIZE <=? LOGHEADER_SIZE) with false. cbv iota.
  eapply rg_bind; [by apply (quietly_keeps _ (keeps_initlock k_log not_log true L_log "log"))|intros x1 [] t1 Ht1].
  eapply rg_bind; [by apply quietly_modify|intros x2 [] t2 Ht2].
  eapply rg_bind; [by apply quietly_modify|intros x3 [] t3 Ht3].
  unfold recover_from_log. eapply rg_bind; [by apply quietly_read_head|intros x4 [] t4 Ht4].
  eapply rg_bind; [by apply (quietly_keeps _ keeps_install_trans_recovering)|intros x5 [] t5 Ht5].
  unfold upd_log. rewrite bind_run. msimpl. set (t6 := t5 <| k_log ::= _ |>).
  assert (fresh (k_log t6)) as Hf by (by split). clearbody t6.
  assert (∀ x r, rg k_log not_log (λ x y, y = x) (λ _ _, True) (λ (_ : log) (_ : unit) y, fresh y) (k_log t6) r →
    rg k_log not_log (λ x y, y = x) (λ _ _, True) (λ _ _ y, fresh y) x r) as Hx by (by intros ? []).
  apply Hx. apply (framed_rg _ _ _ _ _ _ fresh _ _ (keeps_write_head t6)); [done| |done|done].
  by intros y z Hy ->.
Qed.

(** ** Operations in progress

    One thread per process.  [In n] is inside an operation that may log [n]
    further blocks; [Entering] and [Leaving] wait inside [begin_op] and [end_op]. *)
Inductive thread :=
| Out
| In (n : nat)
| Entering (k : kernel → res unit)
| Leaving (k : kernel → res unit).

Definition in_op (t : thread) : nat := match t with In _ => 1 | _ => 0 end.
Definition budget (t : thread) : nat := match t with In n => n | _ => 0 end.
Definition leaving (t : thread) : nat := match t with Leaving _ => 1 | _ => 0 end.
Definition total (w : thread → nat) (T : list thread) : Z := Z.of_nat (sum_list_with w T).

(** A call has returned, or it waits. *)
Inductive outcome (back : thread) (wait : (kernel → res unit) → thread) : res unit → kernel → thread → Prop :=
| outcome_ret s : outcome back wait (Ret tt s) s back
| outcome_wait to s k : outcome back wait (Switch to s k) s (wait k).

(** Block numbers are of type [uint]. *)
Definition uint_blocks (s : kernel) : Prop :=
  ∀ b x, k_bcache s !! b = Some x → 0 ≤ b_blockno x < 2 ^ 32.

Inductive log_run : kernel → list thread → Prop :=
| run_start s :
    fresh (k_log s) → log_run s (replicate NPROC Out)
| run_other s T t :                 (* any code but the log's *)
    log_run s T → k_log t = k_log s → log_run t T
| run_begin s T i t th :
    log_run s T → T !! i = Some Out →
    outcome (In (Z.to_nat MAXOPBLOCKS)) Entering (begin_op s) t th → log_run t (<[i := th]> T)
| run_enter s T i k t th :
    log_run s T → T !! i = Some (Entering k) →
    outcome (In (Z.to_nat MAXOPBLOCKS)) Entering (k s) t th → log_run t (<[i := th]> T)
| run_write s T i n b t :
    log_run s T → T !! i = Some (In (S n)) → uint_blocks s → log_write b s = Ret tt t →
    log_run t (<[i := In (if lh_n (k_log t) =? lh_n (k_log s) then S n else n)]> T)
| run_end s T i n t th :
    log_run s T → T !! i = Some (In n) →
    outcome Out Leaving (end_op s) t th → log_run t (<[i := th]> T)
| run_leave s T i k t th :
    log_run s T → T !! i = Some (Leaving k) →
    outcome Out Leaving (k s) t th → log_run t (<[i := th]> T).

(** ** The invariant *)

Definition thread_ok (lg : log) (t : thread) : Prop :=
  match t with
  | Out => True
  | In n => Z.of_nat n ≤ MAXOPBLOCKS
  | Entering k => ∀ s, waits (λ x _ y, room x ∧ y = opened x) (k_log s) (k s)
  | Leaving k => ∃ lg0, during lg0 lg ∧ header_ok lg0 ∧ lg_committing lg0 = 0 ∧
      ∀ s, k_log s = lg → commits lg0 (.= after lg0) (k s)
  end.

Record log_inv (lg : log) (T : list thread) : Prop := {
  inv_header : header_ok lg;
  inv_length : length T = NPROC;
  inv_open : lg_outstanding lg = total in_op T;
  inv_commit : lg_committing lg = total leaving T;
  inv_alone : lg_committing lg ≠ 0 → lg_committing lg = 1 ∧ lg_outstanding lg = 0;
  inv_room : lh_n lg + total budget T ≤ LOGBLOCKS;
  inv_threads : Forall (thread_ok lg) T
}.

Lemma total_insert w T i t t' :
  T !! i = Some t → total w (<[i := t']> T) = total w T - Z.of_nat (w t) + Z.of_nat (w t').
Proof.
  unfold total. revert i. induction T as [|u T IH]; intros [|i] Hi; simpl in *; try done.
  - injection Hi as ->. lia.
  - specialize (IH i Hi). lia.
Qed.

Lemma total_nonneg w T : 0 ≤ total w T.
Proof. unfold total. lia. Qed.

Lemma total_lookup w T i t : T !! i = Some t → Z.of_nat (w t) ≤ total w T.
Proof.
  unfold total. revert i. induction T as [|u T IH]; intros [|i] Hi; simpl in *; try done.
  - injection Hi as ->. lia.
  - specialize (IH i Hi). lia.
Qed.

Lemma total_in_op T : total in_op T ≤ Z.of_nat (length T).
Proof. unfold total. induction T as [|[] T IH]; simpl in *; lia. Qed.

Lemma total_budget lg T : Forall (thread_ok lg) T → total budget T ≤ MAXOPBLOCKS * total in_op T.
Proof. unfold total. induction 1 as [|[] T Ht _ IH]; simpl in *; lia. Qed.

Lemma no_other_leaving T i t j u :
  total leaving T = Z.of_nat (leaving t) → T !! i = Some t → j ≠ i → T !! j = Some u → leaving u = 0%nat.
Proof.
  intros Ht Hi Hj Hu. pose proof (total_insert leaving T i t Out Hi) as Hins. simpl in Hins.
  assert (<[i := Out]> T !! j = Some u) as Hu' by (by rewrite list_lookup_insert_ne).
  apply (total_lookup leaving) in Hu'. lia.
Qed.

Lemma thread_ok_quiet lg lg' t : leaving t = 0%nat → thread_ok lg t → thread_ok lg' t.
Proof. by destruct t. Qed.

Lemma threads_insert lg lg' T i t' :
  Forall (thread_ok lg) T → (∀ j u, j ≠ i → T !! j = Some u → leaving u = 0%nat) →
  thread_ok lg' t' → Forall (thread_ok lg') (<[i := t']> T).
Proof.
  intros HT Hq Ht'. apply Forall_lookup. intros j u Hu.
  apply list_lookup_insert_Some in Hu as [(-> & <- & _)|[Hne Hu]]; [done|].
  eapply thread_ok_quiet; [by eapply Hq|]. rewrite Forall_lookup in HT. by eapply HT.
Qed.

(** A thread leaves [Entering] or [Leaving]: it is out, as far as the log is
    concerned, until its call returns. *)
Lemma inv_enter lg T i t : log_inv lg T → T !! i = Some t → in_op t = 0%nat → budget t = 0%nat →
  leaving t = 0%nat → log_inv lg (<[i := Out]> T).
Proof.
  intros [Hh Hl Ho Hc Ha Hr HT] Hi Hin Hb Hlv. split; try done.
  - by rewrite length_insert.
  - rewrite (total_insert _ _ _ _ _ Hi). simpl. lia.
  - rewrite (total_insert _ _ _ _ _ Hi). simpl. lia.
  - rewrite (total_insert _ _ _ _ _ Hi). simpl. lia.
  - by apply Forall_insert.
Qed.

Lemma begin_inv lg T i r t th :
  log_inv lg T → T !! i = Some Out → waits (λ x _ y, room x ∧ y = opened x) lg r →
  outcome (In (Z.to_nat MAXOPBLOCKS)) Entering r t th → log_inv (k_log t) (<[i := th]> T).
Proof.
  intros [Hh Hl Ho Hc Ha Hr HT] Hi Hw Hout. revert Hw. destruct Hout as [s|to s k]; simpl; intros Hw.
  - destruct Hw as [[Hc0 Hroom] ->]. pose proof (total_nonneg in_op T). destruct Hh as (Hlen & Hn & Hnd).
    unfold LOGBLOCKS, MAXOPBLOCKS in *.
    assert (i32 (lg_outstanding lg + 1) = lg_outstanding lg + 1) as Hi32 by (apply i32_small; lia).
    split; unfold opened; ksimpl; rewrite ?Hi32, ?(total_insert _ _ _ _ _ Hi); simpl; try done; try lia.
    + by rewrite length_insert.
    + pose proof (total_budget _ _ HT). unfold LOGBLOCKS, MAXOPBLOCKS in *. lia.
    + eapply threads_insert; [done| |simpl; unfold MAXOPBLOCKS; lia].
      intros j u Hj Hu. eapply no_other_leaving; [|exact Hi|exact Hj|exact Hu]. simpl. lia.
  - destruct Hw as [-> Hk].
    split; rewrite ?(total_insert _ _ _ _ _ Hi); simpl; try done; try lia.
    + by rewrite length_insert.
    + apply Forall_insert; [done|]. simpl. intros s'. by apply Hk.
Qed.

Lemma end_inv lg T i r t th :
  log_inv lg T → lg_committing lg = 0 → T !! i = Some Out → commits lg (.= after lg) r →
  outcome Out Leaving r t th → log_inv (k_log t) (<[i := th]> T).
Proof.
  intros [Hh Hl Ho Hc Ha Hr HT] Hc0 Hi Hw Hout. revert Hw. destruct Hout as [s|to s k]; intros Hw; simpl in Hw.
  - rewrite Hw. rewrite (list_insert_id T i Out) by done. unfold after. pose proof (total_budget _ _ HT).
    destruct (Z.eqb_spec (lg_outstanding lg) 0) as [Ho0|]; [|by split].
    split; ksimpl; try done.
    + destruct Hh as (Hlen & Hn & Hnd). split; [done|]. ksimpl. unfold LOGBLOCKS, MAXOPBLOCKS. split; [lia|constructor].
    + unfold LOGBLOCKS, MAXOPBLOCKS in *. lia.
    + apply Forall_lookup. intros j u Hu. eapply thread_ok_quiet; [|by eapply Forall_lookup_1].
      apply (total_lookup leaving) in Hu. lia.
  - destruct Hw as [[Ho0 Hd] Hk].
    assert (header_ok (k_log s) ∧ lg_outstanding (k_log s) = 0 ∧ lg_committing (k_log s) = 1 ∧
      lh_n (k_log s) ≤ lh_n lg) as (Hh' & Ho' & Hc' & Hn').
    { destruct Hh as (Hlen & Hn & Hnd). destruct Hd as [-> | ->]; ksimpl; (split; [|lia]); [done|].
      split; [done|]. ksimpl. unfold LOGBLOCKS, MAXOPBLOCKS. split; [lia|constructor]. }
    split; rewrite ?(total_insert _ _ _ _ _ Hi); simpl; try done; try lia.
    + by rewrite length_insert.
    + eapply threads_insert; [done| |].
      * intros j u Hj Hu. apply (total_lookup leaving) in Hu. lia.
      * exists lg. do 3 (split; [done|]). intros s' Hs'. eapply commits_start. by apply Hk.
Qed.

(** An operation writes a block, or ends: it is open, so nobody commits. *)
Lemma inv_not_committing lg T i n : log_inv lg T → T !! i = Some (In n) →
  lg_committing lg = 0 ∧ 1 ≤ lg_outstanding lg ∧ lh_n lg + Z.of_nat n ≤ LOGBLOCKS.
Proof.
  intros [Hh Hl Ho Hc Ha Hr HT] Hi. pose proof (total_lookup in_op T i _ Hi) as Hin.
  pose proof (total_lookup budget T i _ Hi) as Hb. simpl in *.
  destruct (decide (lg_committing lg = 0)); [lia|]. destruct Ha; [done|lia].
Qed.

Lemma write_inv s T i n b t :
  log_inv (k_log s) T → T !! i = Some (In (S n)) → uint_blocks s → log_write b s = Ret tt t →
  log_inv (k_log t) (<[i := In (if lh_n (k_log t) =? lh_n (k_log s) then S n else n)]> T).
Proof.
  intros Hinv Hi Hu Hw. destruct (inv_not_committing _ _ _ _ Hinv Hi) as (Hc0 & Ho1 & Hn).
  pose proof (log_write_plain b s ltac:(lia) Ho1) as Hp. rewrite Hw in Hp. destruct Hp as (x & Hx & ->).
  destruct Hinv as [Hh Hl Ho Hc Ha Hr HT].
  destruct (logged_ok (b_blockno x) (k_log s) Hh ltac:(lia) (Hu _ _ Hx)) as (Hh' & Hn' & Ho' & Hc' & _).
  set (m := if _ : bool then _ else _). assert (lh_n (logged (b_blockno x) (k_log s)) + Z.of_nat m ≤ lh_n (k_log s) + Z.of_nat (S n) ∧ (m ≤ S n)%nat) as [Hm Hm']
    by (unfold m; destruct (Z.eqb_spec (lh_n (logged (b_blockno x) (k_log s))) (lh_n (k_log s))); lia).
  clearbody m. split; rewrite ?Ho', ?Hc', ?(total_insert _ _ _ _ _ Hi); simpl; try done; try lia.
  - by rewrite length_insert.
  - eapply threads_insert; [done| |].
    + intros j u Hj Hju. apply (total_lookup leaving) in Hju. lia.
    + assert (thread_ok (k_log s) (In (S n))) as Hok by (by eapply Forall_lookup_1). simpl in *. lia.
Qed.

Lemma inv_end lg T i n : log_inv lg T → T !! i = Some (In n) →
  log_inv (closed lg) (<[i := Out]> T) ∧ lg_committing (closed lg) = 0.
Proof.
  intros Hinv Hi. destruct (inv_not_committing _ _ _ _ Hinv Hi) as (Hc0 & Ho1 & Hn).
  destruct Hinv as [Hh Hl Ho Hc Ha Hr HT]. split; [|done]. pose proof (total_in_op T).
  assert (i32 (lg_outstanding lg - 1) = lg_outstanding lg - 1) as Hi32.
  { apply i32_small. rewrite Hl in *. unfold NPROC in *. lia. }
  split; unfold closed; ksimpl; rewrite ?Hi32, ?(total_insert _ _ _ _ _ Hi); simpl; try done; try lia.
  - by rewrite length_insert.
  - eapply threads_insert; [done| |done]. intros j u Hj Hju. apply (total_lookup leaving) in Hju. lia.
Qed.

Lemma inv_leave lg T i k : log_inv lg T → T !! i = Some (Leaving k) →
  ∃ lg0, log_inv lg0 (<[i := Out]> T) ∧ lg_committing lg0 = 0 ∧
    ∀ s, k_log s = lg → commits lg0 (.= after lg0) (k s).
Proof.
  intros [Hh Hl Ho Hc Ha Hr HT] Hi. pose proof (total_lookup leaving T i _ Hi) as Hlv. simpl in Hlv.
  destruct Ha as [Hc1 Ho0]; [lia|].
  destruct (Forall_lookup_1 _ _ _ _ HT Hi) as (lg0 & [Hout Hd] & Hh0 & Hc0 & Hk).
  exists lg0. split; [|done]. pose proof (total_budget _ _ HT) as Hb. rewrite <- Ho, Ho0 in Hb.
  split; rewrite ?(total_insert _ _ _ _ _ Hi); simpl; try done; try lia.
  - by rewrite length_insert.
  - destruct Hh0 as (_ & ? & _). lia.
  - eapply threads_insert; [done| |done]. intros j u Hj Hju.
    eapply no_other_leaving; [|exact Hi|exact Hj|exact Hju]. simpl. lia.
Qed.

Lemma log_run_inv s T : log_run s T → log_inv (k_log s) T.
Proof.
  induction 1 as [s [(Ho & Hc & Hl) Hn]|s T t _ IH Hst|s T i t th _ IH Hi Hout|s T i k t th _ IH Hi Hout|s T i n b t _ IH Hi Hu Hw
    |s T i n t th _ IH Hi Hout|s T i k t th _ IH Hi Hout].
  - assert (∀ w, w Out = 0%nat → total w (replicate NPROC Out) = 0) as Hz.
    { intros w Hw. unfold total. induction NPROC as [|m IHm]; simpl; [done|]. rewrite Hw. exact IHm. }
    split; rewrite ?Hz, ?Hn by done; try done.
    + split; [done|]. unfold blocks. rewrite Hn. unfold LOGBLOCKS, MAXOPBLOCKS. split; [lia|constructor].
    + by apply Forall_replicate.
  - by rewrite Hst.
  - by eapply begin_inv; [exact IH|exact Hi|apply begin_op_waits|exact Hout].
  - rewrite <- (list_insert_insert_eq T i th Out). eapply begin_inv; [|by apply list_lookup_insert_eq; eapply lookup_lt_Some| |exact Hout].
    + by eapply inv_enter.
    + apply (Forall_lookup_1 _ _ _ _ (inv_threads _ _ IH) Hi).
  - by eapply write_inv.
  - rewrite <- (list_insert_insert_eq T i th Out). destruct (inv_end _ _ _ _ IH Hi) as [Hinv Hc0].
    eapply end_inv; [exact Hinv|done|by apply list_lookup_insert_eq; eapply lookup_lt_Some| |exact Hout].
    apply end_op_commits; [done|]. by destruct (inv_header _ _ Hinv) as (_ & [? _] & _).
  - rewrite <- (list_insert_insert_eq T i th Out). destruct (inv_leave _ _ _ _ IH Hi) as (lg0 & Hinv & Hc0 & Hk).
    eapply end_inv; [exact Hinv|done|by apply list_lookup_insert_eq; eapply lookup_lt_Some| |exact Hout]. by apply Hk.
Qed.

Lemma rg_panic R J {A} (Q : log → A → log → Prop) x (r : res A) msg :
  rg k_log not_log R J Q x r → msg ∈ log_panics → r ≠ Panic msg.
Proof. by intros Hr Hm ->. Qed.

(** C13: In every interleaving of file system operations by any processes, each
    of which logs at most [MAXOPBLOCKS] different blocks, from the log that
    recovery leaves on: [log.outstanding] counts the open operations, the
    blocks in the header and those still reserved fit into [LOGBLOCKS], no block is
    in the header twice, a commit runs only while no operation is open, and
    neither [begin_op], [log_write] nor [end_op] panics for want of log space
    or of an open operation. *)
Theorem log_never_overflows s T : log_run s T →
  lg_outstanding (k_log s) = total in_op T ∧
  0 ≤ lh_n (k_log s) ∧ lh_n (k_log s) + total budget T ≤ LOGBLOCKS ∧
  NoDup (blocks (k_log s)) ∧
  (lg_committing (k_log s) ≠ 0 → total in_op T = 0) ∧
  ∀ msg, msg ∈ log_panics →
    (∀ i n b, T !! i = Some (In (S n)) → log_write b s ≠ Panic msg) ∧
    (∀ i n, T !! i = Some (In n) → end_op s ≠ Panic msg) ∧
    (∀ i, T !! i = Some Out → begin_op s ≠ Panic msg) ∧
    (∀ i k, T !! i = Some (Entering k) ∨ T !! i = Some (Leaving k) → k s ≠ Panic msg).
Proof.
  intros Hrun. apply log_run_inv in Hrun as Hinv.
  split; [apply Hinv|]. split; [by destruct (inv_header _ _ Hinv) as (_ & [? _] & _)|]. split; [apply Hinv|].
  split; [by destruct (inv_header _ _ Hinv) as (_ & _ & ?)|].
  split; [intros Hc; destruct (inv_alone _ _ Hinv Hc) as [_ <-]; symmetry; apply Hinv|].
  intros msg Hm. split; [|split; [|split]].
  - intros i n b Hi. destruct (inv_not_committing _ _ _ _ Hinv Hi) as (_ & Ho & Hn).
    eapply rg_panic; [apply log_write_plain; lia|done].
  - intros i n Hi. destruct (inv_end _ _ _ _ Hinv Hi) as [Hinv' Hc0].
    eapply rg_panic; [apply end_op_commits; [done|]|done]. by destruct (inv_header _ _ Hinv') as (_ & [? _] & _).
  - intros i _. eapply rg_panic; [apply begin_op_waits|done].
  - intros i k [Hi|Hi]; pose proof (Forall_lookup_1 _ _ _ _ (inv_threads _ _ Hinv) Hi) as Hok; simpl in Hok.
    + eapply rg_panic; [apply Hok|done].
    + destruct Hok as (lg0 & _ & _ & _ & Hk). eapply rg_panic; [by apply Hk|done].
Qed.

(** ** The calls when nothing is in the way *)

Lemma log_twice s f g : s <| k_log ::= f |> <| k_log ::= g |> = s <| k_log ::= g ∘ f |>.
Proof. by destruct s. Qed.

Lemma begin_op_run n s :
  hart_at n (k_hw s) → lock_free L_log (k_hw s) → room (k_log s) →
  begin_op s = Ret tt (s <| k_log ::= opened |>).
Proof.
  intros Hh Hl [Hc Hroom]. unfold begin_op. mrun_with (acquire_run n _ s Hh Hl). unfold get_log, upd_log.
  cbn [while_]. mrun. ksimpl. rewrite Hc. cbn [truth Z.eqb negb].
  destruct (Z.ltb_spec LOGBLOCKS (lh_n (k_log s) + (lg_outstanding (k_log s) + 1) * MAXOPBLOCKS)); [lia|].
  mrun. mrun_with (release_run n L_log (k_hw s)); [|done|done|done]. by destruct s.
Qed.

Lemma log_write_run n s b x :
  hart_at n (k_hw s) → n + 1 < 2 ^ 30 → lock_free L_log (k_hw s) → lock_free L_bcache (k_hw s) → k_bcache s !! b = Some x →
  header_ok (k_log s) → lh_n (k_log s) < LOGBLOCKS → 1 ≤ lg_outstanding (k_log s) →
  Z.of_nat (slot (b_blockno x) (k_log s)) = lh_n (k_log s) →
  log_write b s = Ret tt (s <| k_log ::= logged (b_blockno x) |>
    <| k_bcache := alter (λ y, y <| b_refcnt ::= λ n, u32 (n + 1) |>) b (k_bcache s) |>).
Proof.
  intros Hh Hn30 Hl Hlb Hb (Hlen & Hn & _) Hlt Ho Hslot. unfold log_write. mrun_with (acquire_run n _ s Hh Hl).
  unfold set_lh_block, get_lh_block, get_log, upd_log, get_buf. mrun. ksimpl.
  destruct (Z.leb_spec LOGBLOCKS (lh_n (k_log s))); [lia|].
  destruct (Z.ltb_spec (lg_outstanding (k_log s)) 1); [lia|]. mrun. ksimpl. rewrite Hb. mrun. ksimpl.
  fold (slot (b_blockno x) (k_log s)).
  assert (is_Some (lh_block (k_log s) !! slot (b_blockno x) (k_log s))) as [z ->] by (apply lookup_lt_is_Some_2; lia).
  rewrite (proj2 (Z.eqb_eq _ _) Hslot). mrun. unfold bpin.
  rewrite (pin_run (n + 1)); ksimpl.
  - mrun. mrun_with (release_run n L_log (k_hw s)); [|done|done|done].
    f_equal. assert (s <| k_log ::= logged (b_blockno x) |> = s <| k_log := logged (b_blockno x) (k_log s) |>) as -> by by destruct s.
    unfold logged. rewrite (proj2 (Z.eqb_eq _ _) Hslot). by destruct s.
  - by apply hart_at_acq.
  - by apply lock_free_acq.
  - by eapply lookup_lt_Some.
Qed.

End log_ops.

(** ** Evaluation on the concrete machine *)

#[local] Existing Instance demo_image.
#[local] Existing Instance demo_device.
#[local] Instance demo_patience : Patience := {| patience := 1 |}.

(** Process 3 opens an operation and logs the block of buffer 0. *)
Definition demo_opened : kernel := demo_run <| k_log ::= opened |>.
Definition demo_logged : kernel :=
  demo_opened <| k_log ::= logged 0 |>
    <| k_bcache := alter (λ y, y <| b_refcnt ::= λ n, u32 (n + 1) |>) 0%nat (k_bcache demo_opened) |>.

Lemma log_never_overflows_witness :
  ∃ T, log_run demo_logged T ∧ lg_outstanding (k_log demo_logged) = 1 ∧ blocks (k_log demo_logged) = [0] ∧
    lh_n (k_log demo_logged) + total budget T ≤ LOGBLOCKS.
Proof.
  pose proof (run_start demo_run ltac:(vm_compute; auto 10)) as Hstart.
  assert (Hopen : begin_op demo_run = Ret tt demo_opened).
  { apply (begin_op_run 0); [apply demo_hart_at|apply is_free_lock_free; vm_compute; reflexivity|vm_compute; split; congruence]. }
  pose proof (run_begin _ _ 3 demo_opened (In 10) Hstart eq_refl) as Hin. rewrite Hopen in Hin.
  specialize (Hin (outcome_ret _ _ _)).
  assert (Hwrite : log_write 0 demo_opened = Ret tt demo_logged).
  { apply (log_write_run 0 _ _ zero_buf); try (vm_compute; reflexivity).
    - apply demo_hart_at.
    - apply is_free_lock_free; vm_compute; reflexivity.
    - apply is_free_lock_free; vm_compute; reflexivity.
    - split; [vm_compute; reflexivity|]. split; [vm_compute; split; congruence|]. vm_compute. constructor.
    - vm_compute. congruence. }
  pose proof (run_write _ _ 3 9 0 demo_logged Hin eq_refl) as Hout.
  assert (Hu : uint_blocks demo_opened).
  { intros b x Hx. change (k_bcache demo_opened) with (replicate (S NBUF) zero_buf) in Hx.
    apply lookup_replicate in Hx as [-> _]. vm_compute. split; congruence. }
  specialize (Hout Hu Hwrite). eexists. split; [exact Hout|].
  destruct (log_never_overflows _ _ Hout) as (_ & _ & Hroom & _).
  split; [vm_compute; reflexivity|]. split; [vm_compute; reflexivity|exact Hroom].
Defined.
