(* ===== verification/Fs.v ===== *)
(** * File system: kernel/fs.c

    Block allocator, inodes, inode contents, directories and path names.  An
    in-memory inode is its index in [itable.inode[]]; a local variable whose
    address is passed to [readi] or [writei] lives on the kernel stack of the
    current process. *)

From S2P Require Import Prelude Riscv State Spinlock CString Kalloc Vm Printf Sched Sleeplock FsDefs Virtio Bio Log.

Section fs.
Context `{Image, Device, Patience}.

Definition get_inode (i : nat) : M inode := λ s, of_option (k_itable s !! i) s.
Definition upd_inode (i : nat) (f : inode → inode) : M unit :=
  x ← get_inode i; modify (λ s, s <| k_itable ::= λ l, <[i := f x]> l |>).
Definition get_sb : M superblock := gets k_sb.

(** Address of a local variable in the stack frame of the running process. *)
Definition stack_addr (off : Z) : M Z :=
  p ← curproc; x ← get_proc p; mret (p_kstack x + off).

(** ** Superblock and blocks *)

Definition readsb (dev : Z) : M unit :=
  bp ← bread dev 1;
  data ← get_data bp;
  modify (λ s, s <| k_sb := superblock_get data |>);;
  brelse bp.

Definition bzero (dev bno : Z) : M unit :=
  bp ← bread dev (u32 bno);
  upd_data bp (λ _, replicate (Z.to_nat BSIZE) 0);;
  log_write bp;;
  brelse bp.

(** Bit [bi] of a bitmap block. *)
Definition bit_mask (bi : Z) : Z := Z.shiftl 1 (bi mod 8).
Definition bit_byte (bi : Z) (data : list Z) : Z := default 0 (data !! Z.to_nat (bi / 8)).

(** The inner loop of [balloc]: the first free bit of the block. *)
Fixpoint balloc_scan (fuel : nat) (bi limit : Z) (data : list Z) : option Z :=
  match fuel with
  | O => None
  | S fuel =>
      if (bi <? BPB) && (bi <? limit) then
        if Z.land (bit_byte bi data) (bit_mask bi) =? 0 then Some bi
        else balloc_scan fuel (bi + 1) limit data
      else None
  end.

Definition balloc (dev : Z) : M Z :=
  sb ← get_sb;
  r ← while_ (S (Z.to_nat ((sb_size sb + BPB - 1) / BPB)))
    (λ b,
      if b <? sb_size sb then
        bp ← bread dev (BBLOCK b sb);
        data ← get_data bp;
        match balloc_scan (S (Z.to_nat BPB)) 0 (sb_size sb - b) data with
        | Some bi =>
            upd_data bp (λ d, <[Z.to_nat (bi / 8) := Z.lor (bit_byte bi d) (bit_mask bi)]> d);;
            log_write bp;;
            brelse bp;;
            bzero dev (b + bi);;
            mret (inr (Some (b + bi)))
        | None => brelse bp;; mret (inl (b + BPB))
        end
      else mret (inr None)) 0;
  match r with
  | Some b => mret b
  | None => printf (str "balloc: out of blocks" ++ [10]) [];; mret 0
  end.

Definition bfree (dev b : Z) : M unit :=
  sb ← get_sb;
  bp ← bread dev (BBLOCK b sb);
  data ← get_data bp;
  let bi := b mod BPB in
  if Z.land (bit_byte bi data) (bit_mask bi) =? 0 then panic "freeing free block" else
  upd_data bp (λ d, <[Z.to_nat (bi / 8) := Z.land (bit_byte bi d) (u8 (Z.lnot (bit_mask bi)))]> d);;
  log_write bp;;
  brelse bp.

(** ** Inodes *)

Definition iinit : M unit :=
  initlock L_itable "itable";;
  for_each (seq 0 NINODE) (λ i, initsleeplock (SL_inode i) "inode").

(** The scan of [iget]: the entry of the inode, or the first empty one. *)
Fixpoint iget_scan (l : list inode) (i : nat) (dev inum : Z) (empty : option nat) : nat + option nat :=
  match l with
  | [] => inr empty
  | ip :: l =>
      if (0 <? i_ref ip) && (i_dev ip =? dev) && (i_inum ip =? inum) then inl i
      else iget_scan l (S i) dev inum
             (match empty with
              | None => if i_ref ip =? 0 then Some i else None
              | Some e => Some e
              end)
  end.

Definition iget (dev inum : Z) : M nat :=
  acquire L_itable;;
  t ← gets k_itable;
  match iget_scan t 0 dev inum None with
  | inl ip =>
      upd_inode ip (λ x, x <| i_ref ::= λ n, i32 (n + 1) |>);;
      release L_itable;;
      mret ip
  | inr None => panic "iget: no inodes"
  | inr (Some ip) =>
      upd_inode ip (λ x, x <| i_dev := dev |> <| i_inum := inum |>
                           <| i_ref := 1 |> <| i_valid := 0 |>);;
      release L_itable;;
      mret ip
  end.

Definition idup (ip : nat) : M nat :=
  acquire L_itable;;
  upd_inode ip (λ x, x <| i_ref ::= λ n, i32 (n + 1) |>);;
  release L_itable;;
  mret ip.

(** [ialloc]: an unlocked, referenced inode of the given type, or null. *)
Definition ialloc (dev type : Z) : M (option nat) :=
  sb ← get_sb;
  r ← for_ret (seq 1 (Z.to_nat (sb_ninodes sb - 1))) (λ n,
    let inum := Z.of_nat n in
    bp ← bread dev (IBLOCK inum sb);
    data ← get_data bp;
    let k := inum mod IPB in
    if di_type (dinode_get k data) =? 0 then
      upd_data bp (dinode_put k (Dinode type 0 0 0 0 (replicate 13 0)));;
      log_write bp;;
      brelse bp;;
      ip ← iget dev inum;
      mret (Some ip)
    else brelse bp;; mret None);
  match r with
  | Some ip => mret (Some ip)
  | None => printf (str "ialloc: no inodes" ++ [10]) [];; mret None
  end.

Definition iupdate (ip : nat) : M unit :=
  sb ← get_sb;
  x ← get_inode ip;
  bp ← bread (i_dev x) (IBLOCK (i_inum x) sb);
  x ← get_inode ip;
  upd_data bp (dinode_put (i_inum x mod IPB)
    (Dinode (i_type x) (i_major x) (i_minor x) (i_nlink x) (i_size x) (i_addrs x)));;
  log_write bp;;
  brelse bp.

Definition ilock (ip : nat) : M unit :=
  x ← get_inode ip;
  if i_ref x <? 1 then panic "ilock" else
  acquiresleep (SL_inode ip);;
  x ← get_inode ip;
  if i_valid x =? 0 then
    sb ← get_sb;
    bp ← bread (i_dev x) (IBLOCK (i_inum x) sb);
    data ← get_data bp;
    let d := dinode_get (i_inum x mod IPB) data in
    upd_inode ip (λ x, x <| i_type := di_type d |> <| i_major := di_major d |>
                         <| i_minor := di_minor d |> <| i_nlink := di_nlink d |>
                         <| i_size := di_size d |> <| i_addrs := di_addrs d |>);;
    brelse bp;;
    upd_inode ip (λ x, x <| i_valid := 1 |>);;
    x ← get_inode ip;
    if i_type x =? 0 then panic "ilock: no type" else skip
  else skip.

Definition iunlock (ip : nat) : M unit :=
  h ← holdingsleep (SL_inode ip);
  if negb h then panic "iunlock" else
  x ← get_inode ip;
  if i_ref x <? 1 then panic "iunlock" else
  releasesleep (SL_inode ip).

(** ** Inode contents *)

Definition addr_at (bn : Z) (x : inode) : Z := default 0 (i_addrs x !! Z.to_nat bn).
Definition set_addr (ip : nat) (bn addr : Z) : M unit :=
  upd_inode ip (λ x, x <| i_addrs ::= λ l, <[Z.to_nat bn := addr]> l |>).

Definition bmap (ip : nat) (bn : Z) : M Z :=
  if bn <? NDIRECT then
    x ← get_inode ip;
    if addr_at bn x =? 0 then
      addr ← balloc (i_dev x);
      if addr =? 0 then mret 0 else set_addr ip bn addr;; mret addr
    else mret (addr_at bn x)
  else
  let bn := bn - NDIRECT in
  if bn <? NINDIRECT then
    x ← get_inode ip;
    addr ← (if addr_at NDIRECT x =? 0 then
              addr ← balloc (i_dev x);
              when (negb (addr =? 0)) (set_addr ip NDIRECT addr);;
              mret addr
            else mret (addr_at NDIRECT x));
    if addr =? 0 then mret 0 else
    bp ← bread (i_dev x) addr;
    data ← get_data bp;
    let addr := rd_le 4 (4 * bn) data in
    addr ← (if addr =? 0 then
              addr ← balloc (i_dev x);
              when (truth addr)
                (upd_data bp (wr_le 4 (4 * bn) addr);; log_write bp);;
              mret addr
            else mret addr);
    brelse bp;;
    mret addr
  else panic "bmap: out of range".

Definition itrunc (ip : nat) : M unit :=
  for_each (seq 0 (Z.to_nat NDIRECT)) (λ i,
    x ← get_inode ip;
    let a := addr_at (Z.of_nat i) x in
    when (truth a) (bfree (i_dev x) a;; set_addr ip (Z.of_nat i) 0));;
  x ← get_inode ip;
  when (truth (addr_at NDIRECT x))
    (bp ← bread (i_dev x) (addr_at NDIRECT x);
     for_each (seq 0 (Z.to_nat NINDIRECT)) (λ j,
       data ← get_data bp;
       let a := rd_le 4 (4 * Z.of_nat j) data in
       when (truth a) (bfree (i_dev x) a));;
     brelse bp;;
     bfree (i_dev x) (addr_at NDIRECT x);;
     set_addr ip NDIRECT 0);;
  upd_inode ip (λ x, x <| i_size := 0 |>);;
  iupdate ip.

Definition iput (ip : nat) : M unit :=
  acquire L_itable;;
  x ← get_inode ip;
  when ((i_ref x =? 1) && truth (i_valid x) && (i_nlink x =? 0))
    (acquiresleep (SL_inode ip);;
     release L_itable;;
     itrunc ip;;
     upd_inode ip (λ x, x <| i_type := 0 |>);;
     iupdate ip;;
     upd_inode ip (λ x, x <| i_valid := 0 |>);;
     releasesleep (SL_inode ip);;
     acquire L_itable);;
  upd_inode ip (λ x, x <| i_ref ::= λ n, i32 (n - 1) |>);;
  release L_itable.

Definition iunlockput (ip : nat) : M unit := iunlock ip;; iput ip.

Definition ireclaim (dev : Z) : M unit :=
  sb ← get_sb;
  for_each (seq 1 (Z.to_nat (sb_ninodes sb - 1))) (λ n,
    let inum := Z.of_nat n in
    bp ← bread dev (IBLOCK inum sb);
    data ← get_data bp;
    let d := dinode_get (inum mod IPB) data in
    ip ← (if negb (di_type d =? 0) && (di_nlink d =? 0) then
            printf (str "ireclaim: orphaned inode %d" ++ [10]) [PInt inum];;
            ip ← iget dev inum; mret (Some ip)
          else mret None);
    brelse bp;;
    match ip with
    | Some ip => begin_op;; ilock ip;; iunlock ip;; iput ip;; end_op
    | None => skip
    end).

Definition fsinit (dev : Z) : M unit :=
  readsb dev;;
  sb ← get_sb;
  if negb (sb_magic sb =? FSMAGIC) then panic "invalid file system" else
  initlog dev sb;;
  ireclaim dev.

(** [stati]: the [struct stat] of an inode, as the bytes [filestat] copies
    out (dev, ino, type, nlink, padding, size). *)
Record stat := Stat { st_dev : Z; st_ino : Z; st_type : Z; st_nlink : Z; st_size : Z }.

Definition stati (ip : nat) : M stat :=
  x ← get_inode ip;
  mret (Stat (i_dev x) (i_inum x) (i_type x) (i_nlink x) (i_size x)).

Definition stat_bytes (st : stat) : list Z :=
  le_bytes 4 (st_dev st) ++ le_bytes 4 (st_ino st) ++ le_bytes 2 (u16 (st_type st)) ++
  le_bytes 2 (u16 (st_nlink st)) ++ replicate 4 0 ++ le_bytes 8 (st_size st).

(** A transfer of [n] bytes visits at most [n / BSIZE + 2] blocks. *)
Definition block_fuel (n : Z) : nat := Z.to_nat (n / BSIZE) + 3.

Definition readi (ip : nat) (user_dst : bool) (dst off n : Z) : M Z :=
  x ← get_inode ip;
  if (i_size x <? off) || (u32 (off + n) <? off) then mret 0 else
  let n := if i_size x <? u32 (off + n) then i_size x - off else n in
  tot ← while_ (block_fuel n)
    (λ '(tot, off, dst),
      if tot <? n then
        addr ← bmap ip (off / BSIZE);
        if addr =? 0 then mret (inr tot) else
        x ← get_inode ip;
        bp ← bread (i_dev x) addr;
        let m := Z.min (n - tot) (BSIZE - off mod BSIZE) in
        data ← get_data bp;
        r ← either_copyout user_dst dst (drop (Z.to_nat (off mod BSIZE)) data) m;
        if r =? -1 then brelse bp;; mret (inr (-1)) else
        brelse bp;;
        mret (inl (u32 (tot + m), u32 (off + m), u64 (dst + m)))
      else mret (inr tot))
    (0, off, dst);
  mret (i32 tot).

Definition writei (ip : nat) (user_src : bool) (src off n : Z) : M Z :=
  x ← get_inode ip;
  if (i_size x <? off) || (u32 (off + n) <? off) then mret (-1) else
  if MAXFILE * BSIZE <? u32 (off + n) then mret (-1) else
  '(tot, off) ← while_ (block_fuel n)
    (λ '(tot, off, src),
      if tot <? n then
        addr ← bmap ip (off / BSIZE);
        if addr =? 0 then mret (inr (tot, off)) else
        x ← get_inode ip;
        bp ← bread (i_dev x) addr;
        let m := Z.min (n - tot) (BSIZE - off mod BSIZE) in
        '(r, l) ← either_copyin user_src src m;
        upd_data bp (splice (Z.to_nat (off mod BSIZE)) l);;
        if r =? -1 then brelse bp;; mret (inr (tot, off)) else
        log_write bp;;
        brelse bp;;
        mret (inl (u32 (tot + m), u32 (off + m), u64 (src + m)))
      else mret (inr (tot, off)))
    (0, off, src);
  x ← get_inode ip;
  when (i_size x <? off) (upd_inode ip (λ x, x <| i_size := off |>));;
  iupdate ip;;
  mret (i32 tot).

(** ** Directories *)

Definition namecmp (s t : list Z) : Z := strncmp s t DIRSIZ.

(** Stack offsets of the local [struct dirent]s. *)
Definition DE_dirlookup : Z := 0.
Definition DE_dirlink : Z := 16.
Definition DE_isdirempty : Z := 32.
Definition DE_unlink : Z := 48.

(** [dirlookup(dp, name, poff)]: the inode and the offset stored in [*poff]. *)
Definition dirlookup (dp : nat) (name : list Z) : M (option (nat * Z)) :=
  x ← get_inode dp;
  if negb (i_type x =? T_DIR) then panic "dirlookup not DIR" else
  de ← stack_addr DE_dirlookup;
  while_ (Z.to_nat (i_size x / DIRENT_SIZE) + 2)
    (λ off,
      x ← get_inode dp;
      if off <? i_size x then
        r ← readi dp false de off DIRENT_SIZE;
        if negb (r =? DIRENT_SIZE) then panic "dirlookup read" else
        l ← load_bytes de (Z.to_nat DIRENT_SIZE);
        let inum := le_val (take 2 l) in
        if inum =? 0 then mret (inl (u32 (off + DIRENT_SIZE))) else
        if namecmp name (drop 2 l) =? 0 then
          ip ← iget (i_dev x) inum;
          mret (inr (Some (ip, off)))
        else mret (inl (u32 (off + DIRENT_SIZE)))
      else mret (inr None)) 0.

Definition dirlink (dp : nat) (name : list Z) (inum : Z) : M Z :=
  r ← dirlookup dp name;
  match r with
  | Some (ip, _) => iput ip;; mret (-1)
  | None =>
      x ← get_inode dp;
      de ← stack_addr DE_dirlink;
      off ← while_ (Z.to_nat (i_size x / DIRENT_SIZE) + 2)
        (λ off,
          x ← get_inode dp;
          if off <? i_size x then
            r ← readi dp false de off DIRENT_SIZE;
            if negb (r =? DIRENT_SIZE) then panic "dirlink read" else
            l ← load_bytes de 2;
            if le_val l =? 0 then mret (inr off) else mret (inl (off + DIRENT_SIZE))
          else mret (inr off)) 0;
      store_bytes (de + 2) (strncpy_bytes (Z.to_nat DIRSIZ) name);;
      store_bytes de (le_bytes 2 inum);;
      r ← writei dp false de off DIRENT_SIZE;
      if negb (r =? DIRENT_SIZE) then mret (-1) else mret 0
  end.

(** ** Path names *)

Fixpoint skip_slashes (path : list Z) : list Z :=
  match path with
  | c :: path' => if c =? chr "/" then skip_slashes path' else path
  | [] => []
  end.

(** The element up to the next slash, and the rest. *)
Fixpoint span_elem (path : list Z) : list Z * list Z :=
  match path with
  | c :: path' =>
      if (c =? chr "/") || (c =? 0) then ([], path)
      else let '(e, r) := span_elem path' in (c :: e, r)
  | [] => ([], [])
  end.

(** [skipelem(path, name)]: the rest of the path and the new contents of
    [name], or [None] when there is no name to remove. *)
Definition skipelem (path name : list Z) : option (list Z * list Z) :=
  let path := skip_slashes path in
  if default 0 (head path) =? 0 then None else
  let '(s, path) := span_elem path in
  let len := Z.of_nat (length s) in
  let name := if DIRSIZ <=? len then splice 0 (take (Z.to_nat DIRSIZ) s) name
              else splice 0 (s ++ [0]) name in
  Some (skip_slashes path, name).

(** Every round of the loop removes at least one character of the path. *)
Definition namex (path : list Z) (nameiparent : bool) (name : list Z) : M (option nat * list Z) :=
  ip ← (if default 0 (head path) =? chr "/" then iget ROOTDEV ROOTINO
        else p ← curproc; x ← get_proc p; cwd ← of_option (p_cwd x); idup cwd);
  while_ (S (length path))
    (λ '(ip, path, name),
      match skipelem path name with
      | None =>
          if nameiparent then iput ip;; mret (inr (None, name))
          else mret (inr (Some ip, name))
      | Some (path, name) =>
          ilock ip;;
          x ← get_inode ip;
          if negb (i_type x =? T_DIR) then iunlockput ip;; mret (inr (None, name)) else
          if nameiparent && (default 0 (head path) =? 0) then
            iunlock ip;; mret (inr (Some ip, name))
          else
          next ← dirlookup ip name;
          match next with
          | None => iunlockput ip;; mret (inr (None, name))
          | Some (next, _) => iunlockput ip;; mret (inl (next, path, name))
          end
      end) (ip, path, name).

Definition namei (path : list Z) : M (option nat) :=
  '(ip, _) ← namex path false (replicate (Z.to_nat DIRSIZ) 0);
  mret ip.

(** [nameiparent(path, name)]: the parent and the final path element. *)
Definition nameiparent (path : list Z) : M (option nat * list Z) :=
  namex path true (replicate (Z.to_nat DIRSIZ) 0).

End fs.
