(* ===== verification/Pipe.v ===== *)
(** * Pipes: kernel/pipe.c

    A pipe lives in a page from [kalloc]; [k_pipes] maps the page's address to
    the structure.  [pipealloc], which also allocates the two files, is in
    File.v. *)

From S2P Require Import Prelude Riscv State Spinlock CString Kalloc Vm Printf Sched.

Section pipe.
Context `{Image, Device, Patience}.

Definition PIPESIZE : Z := 512.

Definition get_pipe (pi : Z) : M pipe := λ s, of_option (k_pipes s !! pi) s.
Definition upd_pipe (pi : Z) (f : pipe → pipe) : M unit :=
  x ← get_pipe pi; modify (λ s, s <| k_pipes ::= λ m, <[pi := f x]> m |>).

(** [pi->data[pi->nwrite++ % PIPESIZE] = ch] and the matching read. *)
Definition pipe_put (ch : Z) (x : pipe) : pipe :=
  x <| pi_data ::= λ l, <[Z.to_nat (pi_nwrite x mod PIPESIZE) := ch]> l |>
    <| pi_nwrite ::= λ n, u32 (n + 1) |>.
Definition pipe_peek (x : pipe) : Z := default 0 (pi_data x !! Z.to_nat (pi_nread x mod PIPESIZE)).

Definition pipeclose (pi : Z) (writable : bool) : M unit :=
  acquire (L_pipe pi);;
  (if writable then
     upd_pipe pi (λ x, x <| pi_writeopen := 0 |>);; wakeup (Ch_nread pi)
   else
     upd_pipe pi (λ x, x <| pi_readopen := 0 |>);; wakeup (Ch_nwrite pi));;
  x ← get_pipe pi;
  if (pi_readopen x =? 0) && (pi_writeopen x =? 0) then
    release (L_pipe pi);;
    modify (λ s, s <| k_pipes ::= delete pi |>);;
    kfree pi
  else release (L_pipe pi).

Definition pipe_full (x : pipe) : bool := pi_nwrite x =? u32 (pi_nread x + PIPESIZE).
Definition pipe_empty (x : pipe) : bool := pi_nread x =? pi_nwrite x.

(** Each round of the loop writes a byte or sleeps. *)
Definition pipewrite (pi addr n : Z) : M Z :=
  pr ← curproc;
  acquire (L_pipe pi);;
  while_ (Z.to_nat n + S patience)
    (λ i,
      if i <? n then
        x ← get_pipe pi;
        k ← (if pi_readopen x =? 0 then mret true else killed pr);
        if (k : bool) then release (L_pipe pi);; mret (inr (-1)) else
        x ← get_pipe pi;
        if pipe_full x then
          wakeup (Ch_nread pi);;
          sleep (Ch_nwrite pi) (L_pipe pi);;
          mret (inl i)
        else
          y ← get_proc pr;
          '(r, ch) ← copyin (p_pagetable y) (u64 (addr + i)) 1;
          if r =? -1 then
            wakeup (Ch_nread pi);; release (L_pipe pi);; mret (inr i)
          else
            upd_pipe pi (pipe_put (default 0 (head ch)));;
            mret (inl (i + 1))
      else wakeup (Ch_nread pi);; release (L_pipe pi);; mret (inr i)) 0.

(** The copying loop of [piperead]. *)
Definition piperead_copy (pr : nat) (pi addr n : Z) : M Z :=
  while_ (S (Z.to_nat n))
    (λ i,
      if i <? n then
        x ← get_pipe pi;
        if pipe_empty x then mret (inr i) else
        let ch := pipe_peek x in
        y ← get_proc pr;
        r ← copyout (p_pagetable y) (u64 (addr + i)) [ch] 1;
        if r =? -1 then mret (inr (if i =? 0 then -1 else i)) else
        upd_pipe pi (λ x, x <| pi_nread ::= λ n, u32 (n + 1) |>);;
        mret (inl (i + 1))
      else mret (inr i)) 0.

Definition piperead (pi addr n : Z) : M Z :=
  pr ← curproc;
  acquire (L_pipe pi);;
  k ← while_ (S patience)
    (λ _ : unit,
      x ← get_pipe pi;
      if pipe_empty x && truth (pi_writeopen x) then
        k ← killed pr;
        if (k : bool) then release (L_pipe pi);; mret (inr true)
        else sleep (Ch_nread pi) (L_pipe pi);; mret (inl tt)
      else mret (inr false)) tt;
  if (k : bool) then mret (-1) else
  i ← piperead_copy pr pi addr n;
  wakeup (Ch_nwrite pi);;
  release (L_pipe pi);;
  mret i.

End pipe.
