(* ===== verification/PipeSpec.v ===== *)
(** * Pipe theorems: the ring buffer is a bounded queue

    The two 32-bit counters and the 512-byte array represent a queue of at
    most 512 bytes, also across the wrap-around of the counters; [pipewrite]
    appends the bytes the writer sees in its memory and [piperead] delivers
    them, in order, to the reader's memory, or the caller sleeps. *)

From S2P Require Import Prelude Riscv State Boot Spinlock ProcTable Machine CString Kalloc Vm VmSpec UserMem Printf Sched SchedSpec Pipe.

(** ** The queue a pipe represents *)

Definition count (x : pipe) : Z := u32 (pi_nwrite x - pi_nread x).

Definition contents (x : pipe) : list Z :=
  (λ i, default 0 (pi_data x !! Z.to_nat ((pi_nread x + Z.of_nat i) mod PIPESIZE))) <$> seq 0 (Z.to_nat (count x)).

Record pipe_wf (x : pipe) : Prop := {
  pw_len : length (pi_data x) = Z.to_nat PIPESIZE;
  pw_nread : 0 ≤ pi_nread x < 2 ^ 32;
  pw_nwrite : 0 ≤ pi_nwrite x < 2 ^ 32;
  pw_count : count x ≤ PIPESIZE
}.

(** [pi->nread++] *)
Definition pipe_pop (x : pipe) : pipe := x <| pi_nread ::= λ n, u32 (n + 1) |>.

(** The array size divides 2^32, so wrapping does not disturb the index. *)
Lemma mod_u32 x : u32 x mod PIPESIZE = x mod PIPESIZE.
Proof.
  unfold u32, PIPESIZE. apply Z.mod_mod_divide. by exists 8388608.
Qed.

Lemma length_contents x : length (contents x) = Z.to_nat (count x).
Proof. unfold contents. by rewrite length_fmap, length_seq. Qed.

Lemma count_nonneg x : 0 ≤ count x < 2 ^ 32.
Proof. apply u32_range. Qed.

Lemma u32_eq a b : 0 ≤ b < 2 ^ 32 → (∃ k, a = b + k * 2 ^ 32) → u32 a = b.
Proof. intros Hb [k ->]. unfold u32. rewrite Z.mod_add by lia. by apply Z.mod_small. Qed.

Lemma count_spec x : pipe_wf x → ∃ k, pi_nwrite x - pi_nread x = count x + k * 2 ^ 32.
Proof. intros _. exists ((pi_nwrite x - pi_nread x) / 2 ^ 32). unfold count, u32. pose proof (Z.div_mod (pi_nwrite x - pi_nread x) (2 ^ 32)). lia. Qed.

Lemma pipe_full_iff x : pipe_wf x → pipe_full x = true ↔ length (contents x) = 512%nat.
Proof.
  intros Hw. pose proof Hw as [Hlen Hr Hwr Hc]. rewrite length_contents. unfold pipe_full, PIPESIZE in *. rewrite Z.eqb_eq.
  pose proof (count_nonneg x). destruct (count_spec x Hw) as [k Hk]. split.
  - intros Hf. assert (count x = 512); [|lia]. apply u32_eq; [lia|]. rewrite Hf. unfold u32.
    exists (- ((pi_nread x + 512) / 2 ^ 32)). pose proof (Z.div_mod (pi_nread x + 512) (2 ^ 32)). lia.
  - intros Hf. assert (count x = 512) as E by lia. symmetry. apply u32_eq; [done|]. exists (- k). lia.
Qed.

Lemma pipe_empty_iff x : pipe_wf x → pipe_empty x = true ↔ contents x = [].
Proof.
  intros Hw. pose proof Hw as [Hlen Hr Hwr Hc]. unfold pipe_empty. rewrite Z.eqb_eq.
  pose proof (count_nonneg x). destruct (count_spec x Hw) as [k Hk]. rewrite <- length_zero_iff_nil, length_contents. split.
  - intros E. unfold count. by rewrite E, Z.sub_diag.
  - intros Hf. assert (count x = 0) as E by lia. lia.
Qed.

Lemma index_ne a i n : 0 ≤ i < n → n < 512 → (a + i) mod 512 ≠ (a + n) mod 512.
Proof.
  intros Hi Hn He. assert (Hz : (n - i) mod 512 = 0).
  { replace (n - i) with ((a + n) - (a + i)) by lia. rewrite Zminus_mod, He, Z.sub_diag. done. }
  rewrite Z.mod_small in Hz by lia. lia.
Qed.

(** Putting a byte appends it. *)
Lemma contents_put ch x :
  pipe_wf x → pipe_full x = false → pipe_wf (pipe_put ch x) ∧ contents (pipe_put ch x) = contents x ++ [ch].
Proof.
  intros Hw Hf. pose proof Hw as [Hlen Hr Hwr Hc]. pose proof (count_nonneg x) as Hcn.
  destruct (count_spec x Hw) as [k Hk].
  assert (Hlt : count x < 512).
  { destruct (decide (count x = 512)) as [E|E]; [|unfold PIPESIZE in Hc; lia].
    assert (pipe_full x = true); [|congruence]. apply pipe_full_iff; [done|]. rewrite length_contents. lia. }
  assert (Hcnt : count (pipe_put ch x) = count x + 1).
  { unfold count at 1, pipe_put. ksimpl. apply u32_eq; [lia|]. unfold u32.
    pose proof (Z.div_mod (pi_nwrite x + 1) (2 ^ 32)). exists (k - (pi_nwrite x + 1) / 2 ^ 32). lia. }
  split.
  - split; unfold pipe_put; ksimpl; [by rewrite length_insert|done|apply u32_range|]. fold (pipe_put ch x).
    rewrite Hcnt. unfold PIPESIZE. lia.
  - unfold contents at 1. rewrite Hcnt. replace (Z.to_nat (count x + 1)) with (Z.to_nat (count x) + 1)%nat by lia.
    rewrite seq_app, fmap_app. unfold pipe_put. ksimpl. cbn [seq fmap list_fmap Nat.add]. unfold PIPESIZE in *.
    assert (Hidx : (pi_nread x + count x) mod 512 = pi_nwrite x mod 512).
    { replace (pi_nwrite x) with (pi_nread x + count x + k * 8388608 * 512) by lia. by rewrite Z.mod_add by lia. }
    f_equal.
    + apply list_fmap_ext. intros _ i Hi%list_elem_of_lookup_2. apply elem_of_seq in Hi. f_equal.
      apply list_lookup_insert_ne. rewrite <- Hidx. intros E.
      pose proof (Z.mod_pos_bound (pi_nread x + count x) 512 ltac:(lia)).
      pose proof (Z.mod_pos_bound (pi_nread x + Z.of_nat i) 512 ltac:(lia)).
      apply (index_ne (pi_nread x) (Z.of_nat i) (count x)); [lia|lia|].
      apply Z2Nat.inj; [lia|lia|by symmetry].
    + rewrite Z2Nat.id, Hidx, list_lookup_insert_eq by (try (rewrite Hlen; pose proof (Z.mod_pos_bound (pi_nwrite x) 512)); lia).
      done.
Qed.

(** Reading a byte takes the first one. *)
Lemma contents_pop x :
  pipe_wf x → pipe_empty x = false →
  pipe_wf (pipe_pop x) ∧ contents x = pipe_peek x :: contents (pipe_pop x).
Proof.
  intros Hw He. pose proof Hw as [Hlen Hr Hwr Hc]. pose proof (count_nonneg x) as Hcn.
  destruct (count_spec x Hw) as [k Hk].
  assert (Hpos : 0 < count x).
  { destruct (decide (count x = 0)) as [E|E]; [|lia].
    assert (pipe_empty x = true); [|congruence]. apply pipe_empty_iff; [done|].
    apply length_zero_iff_nil. rewrite length_contents. lia. }
  assert (Hcnt : count (pipe_pop x) = count x - 1).
  { unfold count at 1, pipe_pop. ksimpl. apply u32_eq; [lia|]. unfold u32.
    pose proof (Z.div_mod (pi_nread x + 1) (2 ^ 32)). exists (k + (pi_nread x + 1) / 2 ^ 32). lia. }
  split.
  - split; unfold pipe_pop; ksimpl; [done|apply u32_range|done|]. fold (pipe_pop x). rewrite Hcnt. lia.
  - unfold contents. rewrite Hcnt. replace (Z.to_nat (count x)) with (S (Z.to_nat (count x - 1))) by lia.
    cbn [seq fmap list_fmap]. f_equal; [by rewrite Z.add_0_r|].
    rewrite <- fmap_S_seq, <- list_fmap_compose. apply list_fmap_ext. intros _ i _. unfold pipe_pop. ksimpl. cbn.
    do 3 f_equal. rewrite <- (Zplus_mod_idemp_l (u32 _)), mod_u32, Zplus_mod_idemp_l. f_equal. lia.
Qed.

(** ** Running the operations *)

(** A process calls in: interrupt nesting 0, it is the CPU's current process,
    nobody holds the locks involved, and it has not been killed. *)
Record caller (pi : Z) (p : nat) (y : proc) (s : kernel) : Prop := {
  ca_hart : hart_at 0 (k_hw s);
  ca_cur : cur_proc (k_hw s) = Some p;
  ca_procs : proc_locks_free (k_hw s);
  ca_pipe : lock_free (L_pipe pi) (k_hw s);
  ca_len : length (k_procs s) = NPROC;
  ca_proc : k_procs s !! p = Some y;
  ca_killed : p_killed y = 0
}.

Section ops.
Context `{Image, Device, Patience}.

Lemma killed_run n p y s :
  hart_at n (k_hw s) → lock_free (L_proc p) (k_hw s) → k_procs s !! p = Some y →
  killed p s = Ret (truth (p_killed y)) s.
Proof.
  intros Hh Hl Hy. unfold killed. mrun_with (acquire_run n _ s Hh Hl). mrun_with (get_proc_run _ p y); [|exact Hy].
  mrun_with (release_run n (L_proc p) (k_hw s)); [|done|done|done]. f_equal. exact (kernel_hw_id s).
Qed.

Lemma get_pipe_run s pi x : k_pipes s !! pi = Some x → get_pipe pi s = Ret x s.
Proof. intros Hx. unfold get_pipe. by rewrite Hx. Qed.

Lemma upd_pipe_run s pi x f :
  k_pipes s !! pi = Some x → upd_pipe pi f s = Ret tt (s <| k_pipes := <[pi := f x]> (k_pipes s) |>).
Proof. intros Hx. unfold upd_pipe. by mrun_with (get_pipe_run s pi x Hx). Qed.

(** Inside the pipe's lock, on a state that differs from [s] only in memory
    and in the pipes. *)
Record inside (pi : Z) (s t : kernel) : Prop := {
  in_hw : k_hw t = acq (L_pipe pi) (k_hw s);
  in_procs : k_procs t = k_procs s
}.

Lemma caller_killed pi p y s t : caller pi p y s → inside pi s t → killed p t = Ret false t.
Proof.
  intros [Hh Hc Hp Hl Hlen Hy Hk] [Hhw Hpr].
  assert (Hlt : (p < NPROC)%nat) by (rewrite <- Hlen; by eapply lookup_lt_Some).
  rewrite (killed_run 1 p y t); [by rewrite Hk|rewrite Hhw; by apply (hart_at_acq 0)| |by rewrite Hpr].
  rewrite Hhw. apply lock_free_acq; [done|]. by apply Hp.
Qed.

Lemma caller_wakeup pi p y s t chan :
  caller pi p y s → inside pi s t → wakeup chan t = Ret tt (t <| k_procs ::= imap (woken (Some p) chan) |>).
Proof.
  intros [Hh Hc Hp Hl Hlen Hy Hk] [Hhw Hpr]. rewrite (wakeup_run 1).
  - by rewrite Hhw, cur_proc_acq, Hc.
  - split; [rewrite Hhw; by apply (hart_at_acq 0)| |by rewrite Hpr].
    intros i Hi. rewrite Hhw. apply lock_free_acq; [done|]. by apply Hp.
Qed.

Lemma caller_release pi p y s t :
  caller pi p y s → k_hw t = acq (L_pipe pi) (k_hw s) → release (L_pipe pi) t = Ret tt (t <| k_hw := k_hw s |>).
Proof. intros [Hh Hc Hp Hl _ _ _] Hhw. by apply (release_run 0). Qed.

(** ** pipewrite *)

Definition write_body (pr : nat) (pi addr n : Z) : Z → M (Z + Z) := λ i,
  if i <? n then
    x ← get_pipe pi;
    k ← (if pi_readopen x =? 0 then mret true else killed pr);
    if (k : bool) then release (L_pipe pi);; mret (inr (-1)) else
    x ← get_pipe pi;
    if pipe_full x then
      wakeup (Ch_nread pi);;
      sleep (Ch_nwrite pi) (L_pipe pi);;
      mret (inl i)
    else
      y ← get_proc pr;
      '(r, ch) ← copyin (p_pagetable y) (u64 (addr + i)) 1;
      if r =? -1 then
        wakeup (Ch_nread pi);; release (L_pipe pi);; mret (inr i)
      else
        upd_pipe pi (pipe_put (default 0 (head ch)));;
        mret (inl (i + 1))
  else wakeup (Ch_nread pi);; release (L_pipe pi);; mret (inr i).

(** One byte. *)
Lemma write_step pi p y x addr n i s t :
  caller pi p y s → inside pi s t → k_pipes t !! pi = Some x → pi_readopen x ≠ 0 → pipe_full x = false →
  0 ≤ i < n → pt_wf (k_mem t) (p_pagetable y) [] → 0 ≤ addr → addr + n ≤ MAXVA →
  readable (k_mem t) (p_pagetable y) (addr + i) →
  write_body p pi addr n i t =
    Ret (inl (i + 1)) (t <| k_pipes := <[pi := pipe_put (default 0 (head (ubytes (k_mem t) (p_pagetable y) (addr + i) 1))) x]> (k_pipes t) |>).
Proof.
  intros Hca Hin Hx Hro Hfull Hi Hwf Haddr Hmax Hr. assert (HM : MAXVA < 2 ^ 64) by done.
  unfold write_body. destruct (Z.ltb_spec i n); [|lia]. mrun_with (get_pipe_run t pi x Hx).
  destruct (Z.eqb_spec (pi_readopen x) 0); [done|]. mrun_with (caller_killed pi p y s t Hca Hin).
  mrun_with (get_pipe_run t pi x Hx). rewrite Hfull.
  mrun_with (get_proc_run t p y); [|rewrite (in_procs _ _ _ Hin); apply Hca].
  rewrite u64_small by lia. mrun_with copyin_run; [|done|lia|lia|lia|].
  2:{ intros j Hj. by replace (addr + i + j) with (addr + i) by lia. }
  cbn [Z.eqb]. by mrun_with (upd_pipe_run t pi x _ Hx).
Qed.

Lemma write_end pi p y addr n s t :
  caller pi p y s → inside pi s t →
  write_body p pi addr n n t =
    Ret (inr n) (t <| k_procs ::= imap (woken (Some p) (Ch_nread pi)) |> <| k_hw := k_hw s |>).
Proof.
  intros Hca Hin. unfold write_body. destruct (Z.ltb_spec n n); [lia|].
  mrun_with (caller_wakeup pi p y s t (Ch_nread pi) Hca Hin).
  mrun_with (caller_release pi p y s); [|exact Hca|apply Hin]. done.
Qed.

Lemma write_loop pi p y addr n s k :
  caller pi p y s → ∀ fuel i x t,
  inside pi s t → k_pipes t !! pi = Some x → pipe_wf x → pi_readopen x ≠ 0 →
  0 ≤ i → n = i + Z.of_nat k → (k < fuel)%nat → (length (contents x) + k ≤ 512)%nat →
  pt_wf (k_mem t) (p_pagetable y) [] → 0 ≤ addr → addr + n ≤ MAXVA →
  (∀ j, i ≤ j < n → readable (k_mem t) (p_pagetable y) (addr + j)) →
  ∃ x', while_ fuel (write_body p pi addr n) i t =
      Ret n (t <| k_pipes := <[pi := x']> (k_pipes t) |>
               <| k_procs ::= imap (woken (Some p) (Ch_nread pi)) |> <| k_hw := k_hw s |>) ∧
    pipe_wf x' ∧ contents x' = contents x ++ ubytes (k_mem t) (p_pagetable y) (addr + i) k ∧
    pi_readopen x' = pi_readopen x ∧ pi_writeopen x' = pi_writeopen x.
Proof.
  intros Hca. induction k as [|k IH]; intros fuel i x t Hin Hx Hw Hro Hi Hn Hf Hroom Hwf Haddr Hmax Hr;
    (destruct fuel as [|fuel]; [lia|]); cbn [while_]; mrun.
  - assert (i = n) as -> by lia. rewrite (write_end pi p y addr n s t Hca Hin). mrun.
    exists x. rewrite insert_id by done. split_and!; [by destruct t|done|by rewrite app_nil_r|done|done].
  - assert (Hfull : pipe_full x = false).
    { destruct (pipe_full x) eqn:E; [|done]. apply pipe_full_iff in E; [lia|done]. }
    rewrite (write_step pi p y x addr n i s t) by (done || lia || (apply Hr; lia)). mrun.
    set (c := default 0 (head _)). destruct (contents_put c x Hw Hfull) as [Hw1 Hc1].
    set (t1 := t <| k_pipes := _ |>).
    destruct (IH fuel (i + 1) (pipe_put c x) t1) as (x' & Hrun & Hw' & Hc' & Ho1 & Ho2).
    { split; apply Hin. } { unfold t1. ksimpl. by rewrite lookup_insert_eq. } { done. } { done. }
    { lia. } { lia. } { lia. } { rewrite Hc1, length_app. cbn. lia. } { done. } { done. } { done. }
    { intros j Hj. apply Hr. lia. }
    exists x'. rewrite Hrun. split_and!; [|done| |done|done].
    + change (k_pipes t1) with (<[pi := pipe_put c x]> (k_pipes t)). by rewrite insert_insert_eq.
    + rewrite Hc', Hc1, <- app_assoc. f_equal. change (S k) with (1 + k)%nat. rewrite ubytes_app.
      replace (addr + (i + 1)) with (addr + i + Z.of_nat 1) by lia. done.
Qed.

(** ** piperead *)

Definition read_body (pr : nat) (pi addr n : Z) : Z → M (Z + Z) := λ i,
  if i <? n then
    x ← get_pipe pi;
    if pipe_empty x then mret (inr i) else
    let ch := pipe_peek x in
    y ← get_proc pr;
    r ← copyout (p_pagetable y) (u64 (addr + i)) [ch] 1;
    if r =? -1 then mret (inr (if i =? 0 then -1 else i)) else
    upd_pipe pi (λ x, x <| pi_nread ::= λ n, u32 (n + 1) |>);;
    mret (inl (i + 1))
  else mret (inr i).

Lemma read_step pi p y x addr n i s t :
  caller pi p y s → inside pi s t → k_pipes t !! pi = Some x → pipe_empty x = false →
  0 ≤ i < n → pt_wf (k_mem t) (p_pagetable y) [] → 0 ≤ addr → addr + n ≤ MAXVA →
  writable (k_mem t) (p_pagetable y) (addr + i) →
  ∃ m', read_body p pi addr n i t =
      Ret (inl (i + 1)) (t <| k_mem := m' |> <| k_pipes := <[pi := pipe_pop x]> (k_pipes t) |>) ∧
    stored (k_mem t) m' (p_pagetable y) (addr + i) [pipe_peek x].
Proof.
  intros Hca Hin Hx He Hi Hwf Haddr Hmax Hw. assert (HM : MAXVA < 2 ^ 64) by done.
  destruct (copyout_run (p_pagetable y) (addr + i) [pipe_peek x] [] t) as (m' & Hrun & Hst).
  { done. } { lia. } { cbn. lia. }
  { intros j Hj. cbn in Hj. by replace (addr + i + j) with (addr + i) by lia. }
  { intros a b Ha Hb _. cbn in Ha, Hb. lia. }
  exists m'. split; [|done]. rewrite app_nil_r in Hrun. change (Z.of_nat (length [pipe_peek x])) with 1 in Hrun.
  unfold read_body. destruct (Z.ltb_spec i n); [|lia]. mrun_with (get_pipe_run t pi x Hx). rewrite He.
  mrun_with (get_proc_run t p y); [|rewrite (in_procs _ _ _ Hin); apply Hca].
  rewrite u64_small by lia. rewrite Hrun. mrun. cbn [Z.eqb].
  mrun_with (upd_pipe_run (t <| k_mem := m' |>) pi x); [done|exact Hx].
Qed.

(** [take n] of a list that starts with [c]. *)
Lemma read_loop pi p y addr n s k :
  caller pi p y s → ∀ fuel i x t,
  inside pi s t → k_pipes t !! pi = Some x → pipe_wf x →
  0 ≤ i → n = i + Z.of_nat k → (k < fuel)%nat →
  pt_wf (k_mem t) (p_pagetable y) [] → 0 ≤ addr → addr + n ≤ MAXVA →
  (∀ j, i ≤ j < n → writable (k_mem t) (p_pagetable y) (addr + j)) →
  distinct (k_mem t) (p_pagetable y) (addr + i) (Z.of_nat k) →
  ∃ x' m', while_ fuel (read_body p pi addr n) i t =
      Ret (i + Z.of_nat (length (take k (contents x))))
        (t <| k_mem := m' |> <| k_pipes := <[pi := x']> (k_pipes t) |>) ∧
    pipe_wf x' ∧ contents x' = drop k (contents x) ∧
    pi_readopen x' = pi_readopen x ∧ pi_writeopen x' = pi_writeopen x ∧
    stored (k_mem t) m' (p_pagetable y) (addr + i) (take k (contents x)).
Proof.
  assert (Hnil : ∀ m pt a, stored m m pt a []) by (intros; split; [by intros ???|done|done]).
  intros Hca. induction k as [|k IH]; intros fuel i x t Hin Hx Hw Hi Hn Hf Hwf Haddr Hmax Hwr Hd;
    (destruct fuel as [|fuel]; [lia|]); cbn [while_]; mrun.
  - exists x, (k_mem t). unfold read_body at 1. destruct (Z.ltb_spec i n); [lia|]. mrun. rewrite insert_id by done.
    split_and!; [|done|done|done|done|done]. cbn. rewrite Z.add_0_r. by destruct t.
  - destruct (pipe_empty x) eqn:He.
    { exists x, (k_mem t). unfold read_body at 1. destruct (Z.ltb_spec i n); [|lia].
      mrun_with (get_pipe_run t pi x Hx). rewrite He. mrun. rewrite insert_id by done.
      apply pipe_empty_iff in He as ->; [|done]. split_and!; [|done|done|done|done|done].
      cbn. rewrite Z.add_0_r. by destruct t. }
    destruct (contents_pop x Hw He) as [Hw1 Hc1].
    destruct (read_step pi p y x addr n i s t) as (m1 & Hstep & Hst1); try (done || lia || (apply Hwr; lia)).
    rewrite Hstep. mrun. set (t1 := t <| k_mem := m1 |> <| k_pipes := _ |>).
    pose proof (st_tables _ _ _ _ _ Hst1) as T1. assert (HM : MAXVA < 2 ^ 64) by done.
    destruct (IH fuel (i + 1) (pipe_pop x) t1) as (x' & m' & Hrun & Hw' & Hc' & Ho1 & Ho2 & Hst2).
    { split; apply Hin. } { unfold t1. ksimpl. by rewrite lookup_insert_eq. } { done. }
    { lia. } { lia. } { lia. } { by apply (tables_same_wf (k_mem t)). } { done. } { done. }
    { intros j Hj. apply (tables_same_writable (k_mem t)); [done|lia|]. apply Hwr. lia. }
    { intros a b Ha Hb. unfold t1. ksimpl. rewrite !(tables_same_uaddr (k_mem t) m1) by (done || lia). intros Hu.
      assert (1 + a = 1 + b); [|lia]. apply Hd; [lia|lia|].
      by replace (addr + i + (1 + a)) with (addr + (i + 1) + a) by lia;
         replace (addr + i + (1 + b)) with (addr + (i + 1) + b) by lia. }
    exists x', m'. rewrite Hrun, Hc1. cbn [take drop length]. split_and!; [|done|done|done|done|].
    + change (k_pipes t1) with (<[pi := pipe_pop x]> (k_pipes t)). rewrite insert_insert_eq. f_equal. lia.
    + apply (stored_app (k_mem t) m1 m' _ _ [pipe_peek x]); [lia| | | |done|].
      * cbn [app length]. rewrite length_take. lia.
      * intros a b Ha Hb. cbn [app length] in Ha, Hb. rewrite length_take in Ha, Hb. apply Hd; lia.
      * intros j Hj. cbn in Hj. replace (addr + i + j) with (addr + i) by lia.
        destruct (Hwr i ltac:(lia)) as ((pa & Hpa & _) & _). unfold uaddr. by rewrite Hpa.
      * cbn [length]. by replace (addr + i + Z.of_nat 1) with (addr + (i + 1)) by lia.
Qed.

End ops.

(** ** Theorems *)

Section theorems.
Context `{Image, Device, Patience}.

(** the ring buffer refines a bounded queue.  With the counters anywhere in
    their 32-bit range, the pipe is full exactly when it holds 512 bytes and
    empty exactly when it holds none; storing a byte appends it, and the next
    byte to read is the oldest one; the invariant is kept. *)
Theorem pipe_is_queue x :
  pipe_wf x →
  (pipe_full x = true ↔ length (contents x) = 512%nat) ∧
  (pipe_empty x = true ↔ contents x = []) ∧
  (∀ ch, pipe_full x = false → pipe_wf (pipe_put ch x) ∧ contents (pipe_put ch x) = contents x ++ [ch]) ∧
  (pipe_empty x = false → pipe_wf (pipe_pop x) ∧ contents x = pipe_peek x :: contents (pipe_pop x)).
Proof.
  intros Hw. split_and!; [by apply pipe_full_iff|by apply pipe_empty_iff| |by apply contents_pop].
  intros ch. by apply contents_put.
Qed.

(** C25: [pipewrite] delivers.  When the pipe has room for the [n] bytes and the
    writer may read them, it returns [n]; the pipe then holds what it held
    followed by exactly the bytes in the writer's memory, sleeping readers of
    this pipe are made RUNNABLE, and locks, interrupts and everything else
    are as before. *)
Theorem pipewrite_appends pi p y x addr n s :
  caller pi p y s → k_pipes s !! pi = Some x → pipe_wf x → pi_readopen x ≠ 0 →
  0 ≤ n → Z.of_nat (length (contents x)) + n ≤ PIPESIZE →
  pt_wf (k_mem s) (p_pagetable y) [] → 0 ≤ addr → addr + n ≤ MAXVA →
  (∀ j, 0 ≤ j < n → readable (k_mem s) (p_pagetable y) (addr + j)) →
  ∃ x', pipewrite pi addr n s =
      Ret n (s <| k_pipes := <[pi := x']> (k_pipes s) |>
               <| k_procs ::= imap (woken (Some p) (Ch_nread pi)) |>) ∧
    pipe_wf x' ∧ contents x' = contents x ++ ubytes (k_mem s) (p_pagetable y) addr (Z.to_nat n).
Proof.
  intros Hca Hx Hw Hro Hn Hroom Hwf Haddr Hmax Hr. pose proof Hca as [Hh Hc Hp Hl _ _ _]. unfold PIPESIZE in Hroom.
  set (t := s <| k_hw := acq (L_pipe pi) (k_hw s) |>).
  destruct (write_loop pi p y addr n s (Z.to_nat n) Hca (Z.to_nat n + S patience) 0 x t)
    as (x' & Hrun & Hw' & Hc' & _); try (done || lia).
  exists x'. rewrite Z.add_0_r in Hc'. split_and!; [|done|done].
  unfold pipewrite. mrun_with (curproc_run 0 s p Hh Hc). mrun_with (acquire_run 0 _ s Hh Hl).
  fold t. change (while_ _ _ 0 t) with (while_ (Z.to_nat n + S patience) (write_body p pi addr n) 0 t).
  rewrite Hrun. by destruct s.
Qed.

(** C26: [piperead] delivers in order.  When the pipe holds bytes, or its write
    side is closed, [piperead] returns the smaller of [n] and the number of
    bytes held; the reader then sees exactly that many oldest bytes at [addr],
    they are gone from the pipe, sleeping writers are made RUNNABLE, and no
    other byte of memory changes. *)
Theorem piperead_takes pi p y x addr n s :
  caller pi p y s → k_pipes s !! pi = Some x → pipe_wf x →
  contents x ≠ [] ∨ pi_writeopen x = 0 →
  0 ≤ n → pt_wf (k_mem s) (p_pagetable y) [] → 0 ≤ addr → addr + n ≤ MAXVA →
  (∀ j, 0 ≤ j < n → writable (k_mem s) (p_pagetable y) (addr + j)) →
  distinct (k_mem s) (p_pagetable y) addr n →
  let got := take (Z.to_nat n) (contents x) in
  ∃ x' m', piperead pi addr n s =
      Ret (Z.of_nat (length got))
        (s <| k_mem := m' |> <| k_pipes := <[pi := x']> (k_pipes s) |>
           <| k_procs ::= imap (woken (Some p) (Ch_nwrite pi)) |>) ∧
    pipe_wf x' ∧ contents x' = drop (Z.to_nat n) (contents x) ∧
    stored (k_mem s) m' (p_pagetable y) addr got.
Proof.
  intros Hca Hx Hw Hready Hn Hwf Haddr Hmax Hwr Hd got. pose proof Hca as [Hh Hc Hp Hl _ _ _].
  set (t := s <| k_hw := acq (L_pipe pi) (k_hw s) |>).
  destruct (read_loop pi p y addr n s (Z.to_nat n) Hca (S (Z.to_nat n)) 0 x t)
    as (x' & m' & Hrun & Hw' & Hc' & _ & _ & Hst); try (done || lia).
  { rewrite Z.add_0_r, Z2Nat.id by lia. exact Hd. }
  exists x', m'. rewrite Z.add_0_r in Hst. split_and!; [|done|done|exact Hst].
  unfold piperead. mrun_with (curproc_run 0 s p Hh Hc). mrun_with (acquire_run 0 _ s Hh Hl). fold t.
  cbn [while_]. mrun_with (get_pipe_run t pi x Hx).
  assert (pipe_empty x && truth (pi_writeopen x) = false) as ->.
  { destruct (pipe_empty x) eqn:He; [|done]. destruct Hready as [Hne| ->]; [|done].
    apply pipe_empty_iff in He; [done|done]. }
  mrun. change (piperead_copy p pi addr n t) with (while_ (S (Z.to_nat n)) (read_body p pi addr n) 0 t).
  rewrite Hrun. mrun. set (t1 := t <| k_mem := m' |> <| k_pipes := _ |>).
  mrun_with (caller_wakeup pi p y s t1); [|exact Hca|done].
  mrun_with (caller_release pi p y s); [|exact Hca|done]. by destruct s.
Qed.

(** When a pipe operation waits or fails.  A read from an empty pipe whose
    write side is open, and a write to a full pipe whose read side is open,
    leave the CPU with the process SLEEPING on the pipe's channel and the pipe
    unlocked, the writer having woken the readers first; a write to a pipe
    nobody reads returns -1 and changes nothing. *)
Theorem pipe_waits pi p y x addr n s :
  caller pi p y s → k_pipes s !! pi = Some x → pipe_wf x → 0 < n →
  let asleep ch := alter (λ z, z <| p_chan := ch |> <| p_state := SLEEPING |>) p in
  (contents x = [] → pi_writeopen x ≠ 0 →
     ∃ k, piperead pi addr n s =
       Switch To_scheduler (s <| k_hw := acq (L_proc p) (k_hw s) |> <| k_procs ::= asleep (Ch_nread pi) |>) k) ∧
  (Z.of_nat (length (contents x)) = PIPESIZE → pi_readopen x ≠ 0 →
     ∃ k, pipewrite pi addr n s =
       Switch To_scheduler
         (s <| k_procs ::= imap (woken (Some p) (Ch_nread pi)) |> <| k_hw := acq (L_proc p) (k_hw s) |>
            <| k_procs ::= asleep (Ch_nwrite pi) |>) k) ∧
  (pi_readopen x = 0 → pipewrite pi addr n s = Ret (-1) s).
Proof.
  intros Hca Hx Hw Hn asleep. pose proof Hca as [Hh Hc Hp Hl Hlen Hy Hk].
  assert (Hlt : (p < NPROC)%nat) by (rewrite <- Hlen; by eapply lookup_lt_Some).
  set (t := s <| k_hw := acq (L_pipe pi) (k_hw s) |>). assert (Hin : inside pi s t) by done.
  split_and!.
  - intros He Hwo. unfold piperead. mrun_with (curproc_run 0 s p Hh Hc). mrun_with (acquire_run 0 _ s Hh Hl). fold t.
    cbn [while_]. mrun_with (get_pipe_run t pi x Hx).
    assert (pipe_empty x && truth (pi_writeopen x) = true) as ->.
    { apply andb_true_iff. split; [by apply pipe_empty_iff|]. unfold truth. by destruct (Z.eqb_spec (pi_writeopen x) 0). }
    mrun_with (caller_killed pi p y s t Hca Hin).
    destruct (sleep_run p y (Ch_nread pi) (L_pipe pi) (k_hw s) t) as (k & -> & _); try done; [by apply Hp|].
    mrun. by eexists.
  - intros Hfull Hro. unfold pipewrite. mrun_with (curproc_run 0 s p Hh Hc). mrun_with (acquire_run 0 _ s Hh Hl). fold t.
    rewrite Nat.add_succ_r. cbn [while_]. destruct (Z.ltb_spec 0 n); [|lia]. mrun_with (get_pipe_run t pi x Hx).
    destruct (Z.eqb_spec (pi_readopen x) 0); [done|]. mrun_with (caller_killed pi p y s t Hca Hin).
    mrun_with (get_pipe_run t pi x Hx).
    assert (pipe_full x = true) as -> by (apply pipe_full_iff; [done|unfold PIPESIZE in Hfull; lia]).
    mrun_with (caller_wakeup pi p y s t (Ch_nread pi) Hca Hin). set (t1 := t <| k_procs ::= _ |>).
    destruct (sleep_run p (woken (Some p) (Ch_nread pi) p y) (Ch_nwrite pi) (L_pipe pi) (k_hw s) t1) as (k & -> & _);
      try done; [by apply Hp| |].
    + change (k_procs t1) with (imap (woken (Some p) (Ch_nread pi)) (k_procs s)). by rewrite list_lookup_imap, Hy.
    + mrun. by eexists.
  - intros Hro. unfold pipewrite. mrun_with (curproc_run 0 s p Hh Hc). mrun_with (acquire_run 0 _ s Hh Hl). fold t.
    rewrite Nat.add_succ_r. cbn [while_]. destruct (Z.ltb_spec 0 n); [|lia]. mrun_with (get_pipe_run t pi x Hx).
    rewrite Hro. cbn [Z.eqb]. mrun. mrun_with (caller_release pi p y s); [|exact Hca|done].
    f_equal. by destruct s.
Qed.

End theorems.

(** ** Evaluation on the concrete machine *)

#[local] Existing Instance demo_image.
#[local] Existing Instance demo_device.
#[local] Instance demo_patience : Patience := {| patience := 0 |}.
#[local] Opaque demo_user.

(** A pipe whose counters are about to wrap around, and process 3 running with
    the user pages of [demo_user]. *)
Definition demo_pi : Z := 4096.
Definition demo_pipe (nread nwrite : Z) : pipe := Pipe (replicate 512 9) nread nwrite 1 1.
Definition demo_pipe_hart : hart :=
  demo_hart (Some 3%nat) <| h_locks ::= <[L_pipe demo_pi := Spinlock 0 "pipe" None]> |>.
Definition demo_reader : proc := demo_proc RUNNING Ch_null 4 <| p_pagetable := demo_pg 1 |>.
Definition demo_pipe_on (u : kernel) (x : pipe) : kernel :=
  u <| k_hw := demo_pipe_hart |> <| k_procs := <[3%nat := demo_reader]> demo_procs |>
    <| k_pipes := {[ demo_pi := x ]} |>.

Lemma demo_caller u x : caller demo_pi 3 demo_reader (demo_pipe_on u x).
Proof.
  split; unfold demo_pipe_on; ksimpl.
  - destruct (demo_hart_at (Some 3%nat)) as [H1 H2 H3 H4]. split; [exact H1|exact H2|exact H3|exact H4].
  - reflexivity.
  - intros i Hi. destruct (demo_proc_locks (Some 3%nat) i Hi) as [name Hn]. exists name.
    unfold demo_pipe_hart. ksimpl. rewrite lookup_insert_ne by done. exact Hn.
  - exists "pipe". unfold demo_pipe_hart. ksimpl. apply lookup_insert_eq.
  - rewrite length_insert. reflexivity.
  - apply list_lookup_insert_eq. vm_compute. lia.
  - reflexivity.
Qed.

Lemma demo_pipe_on_mem u x : k_mem (demo_pipe_on u x) = k_mem u.
Proof. reflexivity. Qed.

Lemma demo_pipe_on_pipe u x : k_pipes (demo_pipe_on u x) !! demo_pi = Some x.
Proof. unfold demo_pipe_on. ksimpl. apply lookup_singleton_eq. Qed.

Definition demo_pipe_state (x : pipe) : kernel := demo_pipe_on demo_user x.

Lemma demo_pipe_pt x : pt_wf (k_mem (demo_pipe_state x)) (p_pagetable demo_reader) [].
Proof. unfold demo_pipe_state. rewrite demo_pipe_on_mem. exact (proj1 (proj2 demo_user_map)). Qed.

Lemma demo_pipe_writable x va :
  0 ≤ va < 2 * PGSIZE → writable (k_mem (demo_pipe_state x)) (p_pagetable demo_reader) va.
Proof. intros Hva. unfold demo_pipe_state. rewrite demo_pipe_on_mem. exact (demo_user_writable va Hva). Qed.

Lemma demo_pipe_distinct x va len :
  0 ≤ va → va + len ≤ 2 * PGSIZE → distinct (k_mem (demo_pipe_state x)) (p_pagetable demo_reader) va len.
Proof. intros Hva Hl. unfold demo_pipe_state. rewrite demo_pipe_on_mem. exact (demo_user_distinct va len Hva Hl). Qed.

Lemma demo_pipe_wf nread nwrite :
  0 ≤ nread < 2 ^ 32 → 0 ≤ nwrite < 2 ^ 32 → u32 (nwrite - nread) ≤ 512 → pipe_wf (demo_pipe nread nwrite).
Proof. intros Hr Hw Hc. split; unfold demo_pipe; ksimpl; [apply length_replicate|exact Hr|exact Hw|exact Hc]. Qed.

Lemma pipe_is_queue_witness :
  contents (demo_pipe (2 ^ 32 - 2) 1) = [9; 9; 9] ∧
  contents (pipe_put 7 (demo_pipe (2 ^ 32 - 2) 1)) = [9; 9; 9; 7].
Proof.
  split; [vm_compute; reflexivity|].
  destruct (pipe_is_queue (demo_pipe (2 ^ 32 - 2) 1)) as (_ & _ & Hput & _).
  - apply demo_pipe_wf; [lia|lia|vm_compute; discriminate].
  - destruct (Hput 7) as [_ E]; [vm_compute; reflexivity|]. rewrite E. vm_compute. reflexivity.
Defined.

Lemma pipewrite_appends_witness :
  ∃ s', pipewrite demo_pi 4000 200 (demo_pipe_state (demo_pipe (2 ^ 32 - 2) 1)) = Ret 200 s'.
Proof.
  destruct (pipewrite_appends demo_pi 3 demo_reader (demo_pipe (2 ^ 32 - 2) 1) 4000 200
    (demo_pipe_state (demo_pipe (2 ^ 32 - 2) 1)) (demo_caller demo_user _)) as (x' & E & _).
  - exact (demo_pipe_on_pipe demo_user _).
  - apply demo_pipe_wf; [lia|lia|vm_compute; discriminate].
  - discriminate.
  - lia.
  - vm_compute. discriminate.
  - apply demo_pipe_pt.
  - lia.
  - vm_compute. discriminate.
  - intros j Hj. destruct (demo_pipe_writable (demo_pipe (2 ^ 32 - 2) 1) (4000 + j)) as [Hr _]; [unfold PGSIZE; lia|exact Hr].
  - eexists. exact E.
Defined.

Lemma piperead_takes_witness :
  ∃ s', piperead demo_pi 4000 200 (demo_pipe_state (demo_pipe (2 ^ 32 - 2) 1)) = Ret 3 s'.
Proof.
  destruct (piperead_takes demo_pi 3 demo_reader (demo_pipe (2 ^ 32 - 2) 1) 4000 200
    (demo_pipe_state (demo_pipe (2 ^ 32 - 2) 1)) (demo_caller demo_user _)) as (x' & m' & E & _).
  - exact (demo_pipe_on_pipe demo_user _).
  - apply demo_pipe_wf; [lia|lia|vm_compute; discriminate].
  - left. vm_compute. discriminate.
  - lia.
  - apply demo_pipe_pt.
  - lia.
  - vm_compute. discriminate.
  - intros j Hj. apply demo_pipe_writable. unfold PGSIZE. lia.
  - apply demo_pipe_distinct; [lia|]. vm_compute. discriminate.
  - eexists. exact E.
Defined.

Lemma pipe_waits_witness :
  ∃ s' k, piperead demo_pi 4000 200 (demo_pipe_state (demo_pipe 5 5)) = Switch To_scheduler s' k.
Proof.
  destruct (pipe_waits demo_pi 3 demo_reader (demo_pipe 5 5) 4000 200 (demo_pipe_state (demo_pipe 5 5)) (demo_caller demo_user _))
    as (Hr & _ & _).
  - exact (demo_pipe_on_pipe demo_user _).
  - apply demo_pipe_wf; [lia|lia|vm_compute; discriminate].
  - lia.
  - destruct Hr as [k E]; [vm_compute; reflexivity|discriminate|]. eexists _, k. exact E.
Defined.
