(* ===== verification/Console.v ===== *)
(** * Console driver: kernel/console.c and the interrupt side of kernel/uart.c *)

From S2P Require Import Prelude Riscv State Spinlock CString Kalloc Vm Printf Sched.

Section console.
Context `{Image, Device, Patience}.

Definition INPUT_BUF_SIZE : Z := 128.
(** [C(x)] *)
Definition ctrl (x : string) : Z := chr x - chr "@".

Definition get_cons : M console := gets k_cons.
Definition upd_cons (f : console → console) : M unit := modify (λ s, s <| k_cons ::= f |>).
(** [cons.buf[i % INPUT_BUF_SIZE]] *)
Definition cons_at (i : Z) (c : console) : Z := default 0 (cons_buf c !! Z.to_nat (i mod INPUT_BUF_SIZE)).

(** ** kernel/uart.c: interrupt-driven output *)

Definition uartwrite (buf : list Z) : M unit :=
  acquire L_tx;;
  for_each buf (λ c,
    while_ (S patience)
      (λ _ : unit,
        busy ← gets k_tx_busy;
        if truth busy then sleep Ch_tx L_tx;; mret (inl tt) else mret (inr tt)) tt;;
    WriteReg THR c;;
    modify (λ s, s <| k_tx_busy := 1 |>));;
  release L_tx.

(** ** Reading and writing the console *)

Definition consolewrite (user_src : bool) (src n : Z) : M Z :=
  while_ (S (Z.to_nat (n / 32 + 1)))
    (λ i,
      if i <? n then
        let nn := Z.min 32 (n - i) in
        '(r, buf) ← either_copyin user_src (u64 (src + i)) nn;
        if r =? -1 then mret (inr i) else
        uartwrite buf;;
        mret (inl (i + nn))
      else mret (inr i)) 0.

(** The wait for input; [true] when the process was killed. *)
Definition console_wait : M bool :=
  while_ (S patience)
    (λ _ : unit,
      c ← get_cons;
      if cons_r c =? cons_w c then
        p ← curproc;
        k ← killed p;
        if (k : bool) then release L_cons;; mret (inr true)
        else sleep Ch_cons_r L_cons;; mret (inl tt)
      else mret (inr false)) tt.

Definition consoleread (user_dst : bool) (dst n : Z) : M Z :=
  let target := u32 n in
  acquire L_cons;;
  while_ (S (Z.to_nat n))
    (λ '(dst, n),
      if 0 <? n then
        k ← console_wait;
        if (k : bool) then mret (inr (-1)) else
        cs ← get_cons;
        let c := cons_at (cons_r cs) cs in
        upd_cons (λ x, x <| cons_r ::= λ r, u32 (r + 1) |>);;
        if c =? ctrl "D" then
          when (u32 n <? target) (upd_cons (λ x, x <| cons_r ::= λ r, u32 (r - 1) |>));;
          release L_cons;;
          mret (inr (i32 (target - n)))
        else
        r ← either_copyout user_dst dst [c] 1;
        if r =? -1 then release L_cons;; mret (inr (i32 (target - n))) else
        if c =? 10 then release L_cons;; mret (inr (i32 (target - (n - 1))))
        else mret (inl (u64 (dst + 1), n - 1))
      else release L_cons;; mret (inr (i32 (target - n))))
    (dst, n).

(** ** The input interrupt *)

Definition erase_char : M unit :=
  upd_cons (λ x, x <| cons_e ::= λ e, u32 (e - 1) |>);;
  consputc BACKSPACE.

Definition consoleintr (c : Z) : M unit :=
  acquire L_cons;;
  (if c =? ctrl "P" then procdump
   else if c =? ctrl "U" then
     cs ← get_cons;
     while_ (S (Z.to_nat (u32 (cons_e cs - cons_w cs))))
       (λ _ : unit,
         cs ← get_cons;
         if negb (cons_e cs =? cons_w cs) && negb (cons_at (u32 (cons_e cs - 1)) cs =? 10)
         then erase_char;; mret (inl tt) else mret (inr tt)) tt
   else if (c =? ctrl "H") || (c =? 0x7f) then
     cs ← get_cons;
     when (negb (cons_e cs =? cons_w cs)) erase_char
   else
     cs ← get_cons;
     when (negb (c =? 0) && (u32 (cons_e cs - cons_r cs) <? INPUT_BUF_SIZE))
       (let c := if c =? 13 then 10 else c in
        consputc c;;
        upd_cons (λ x, x <| cons_buf ::= λ l, <[Z.to_nat (cons_e x mod INPUT_BUF_SIZE) := u8 c]> l |>
                         <| cons_e ::= λ e, u32 (e + 1) |>);;
        cs ← get_cons;
        when ((c =? 10) || (c =? ctrl "D") || (u32 (cons_e cs - cons_r cs) =? INPUT_BUF_SIZE))
          (upd_cons (λ x, x <| cons_w := cons_e x |>);;
           wakeup Ch_cons_r)));;
  release L_cons.

(** Input is read until the device has none; the model allows [POLL_FUEL]
    characters per interrupt. *)
Definition uartintr : M unit :=
  ReadReg ISR;;
  acquire L_tx;;
  v ← ReadReg LSR;
  when (truth (Z.land v LSR_TX_IDLE))
    (modify (λ s, s <| k_tx_busy := 0 |>);; wakeup Ch_tx);;
  release L_tx;;
  while_ POLL_FUEL
    (λ _ : unit,
      c ← uartgetc;
      if c =? -1 then mret (inr tt) else consoleintr c;; mret (inl tt)) tt.

Definition CONSOLE : nat := 1.

Definition consoleinit : M unit :=
  initlock L_cons "cons";;
  uartinit;;
  modify (λ s, s <| k_devsw ::= λ l, <[CONSOLE := Devsw (Some consoleread_fn) (Some consolewrite_fn)]> l |>).

End console.
