(* ===== verification/File.v ===== *)
(** * Open files: kernel/file.c and [pipealloc] of kernel/pipe.c *)

From S2P Require Import Prelude Riscv State Spinlock CString Kalloc Vm Printf Sched Sleeplock FsDefs Virtio Bio Log Fs Pipe Console.

Section file.
Context `{Image, Device, Patience}.

Definition get_file (i : nat) : M file := λ s, of_option (k_ftable s !! i) s.
Definition upd_file (i : nat) (f : file → file) : M unit :=
  x ← get_file i; modify (λ s, s <| k_ftable ::= λ l, <[i := f x]> l |>).

Definition fileinit : M unit := initlock L_ftable "ftable".

Definition filealloc : M (option nat) :=
  acquire L_ftable;;
  r ← for_ret (seq 0 NFILE) (λ f,
    x ← get_file f;
    if f_ref x =? 0 then
      upd_file f (λ x, x <| f_ref := 1 |>);;
      release L_ftable;;
      mret (Some f)
    else mret None);
  match r with
  | Some f => mret (Some f)
  | None => release L_ftable;; mret None
  end.

Definition filedup (f : nat) : M nat :=
  acquire L_ftable;;
  x ← get_file f;
  if f_ref x <? 1 then panic "filedup" else
  upd_file f (λ x, x <| f_ref ::= λ n, i32 (n + 1) |>);;
  release L_ftable;;
  mret f.

Definition fileclose (f : nat) : M unit :=
  acquire L_ftable;;
  x ← get_file f;
  if f_ref x <? 1 then panic "fileclose" else
  upd_file f (λ x, x <| f_ref ::= λ n, i32 (n - 1) |>);;
  x ← get_file f;
  if 0 <? f_ref x then release L_ftable else
  let ff := x in
  upd_file f (λ x, x <| f_ref := 0 |>);;
  upd_file f (λ x, x <| f_type := FD_NONE |>);;
  release L_ftable;;
  match f_type ff with
  | FD_PIPE => pipeclose (f_pipe ff) (truth (f_writable ff))
  | FD_INODE | FD_DEVICE =>
      begin_op;;
      ip ← of_option (f_ip ff);
      iput ip;;
      end_op
  | FD_NONE => skip
  end.

Definition filestat (f : nat) (addr : Z) : M Z :=
  p ← curproc;
  x ← get_file f;
  match f_type x with
  | FD_INODE | FD_DEVICE =>
      ip ← of_option (f_ip x);
      ilock ip;;
      st ← stati ip;
      iunlock ip;;
      y ← get_proc p;
      r ← copyout (p_pagetable y) addr (stat_bytes st) 24;
      if r <? 0 then mret (-1) else mret 0
  | _ => mret (-1)
  end.

(** [devsw[f->major]], when the number is in range. *)
Definition dev_of (x : file) : M (option devsw) :=
  if (f_major x <? 0) || (Z.of_nat NDEV <=? f_major x) then mret None
  else d ← gets k_devsw; e ← of_option (d !! Z.to_nat (f_major x)); mret (Some e).

Definition fileread (f : nat) (addr n : Z) : M Z :=
  x ← get_file f;
  if f_readable x =? 0 then mret (-1) else
  match f_type x with
  | FD_PIPE => piperead (f_pipe x) addr n
  | FD_DEVICE =>
      d ← dev_of x;
      match d ≫= dev_read with
      | Some consoleread_fn => consoleread true addr n
      | None => mret (-1)
      end
  | FD_INODE =>
      ip ← of_option (f_ip x);
      ilock ip;;
      y ← get_file f;
      r ← readi ip true addr (f_off y) (u32 n);
      when (0 <? r) (upd_file f (λ x, x <| f_off ::= λ o, u32 (o + r) |>));;
      iunlock ip;;
      mret r
  | FD_NONE => panic "fileread"
  end.

(** [int max] of [filewrite]. *)
Definition WRITE_MAX : Z := ((MAXOPBLOCKS - 1 - 1 - 2) / 2) * BSIZE.

Definition filewrite (f : nat) (addr n : Z) : M Z :=
  x ← get_file f;
  if f_writable x =? 0 then mret (-1) else
  match f_type x with
  | FD_PIPE => pipewrite (f_pipe x) addr n
  | FD_DEVICE =>
      d ← dev_of x;
      match d ≫= dev_write with
      | Some consolewrite_fn => consolewrite true addr n
      | None => mret (-1)
      end
  | FD_INODE =>
      ip ← of_option (f_ip x);
      i ← while_ (Z.to_nat (n / WRITE_MAX) + 2)
        (λ i,
          if i <? n then
            let n1 := Z.min (n - i) WRITE_MAX in
            begin_op;;
            ilock ip;;
            y ← get_file f;
            r ← writei ip true (u64 (addr + i)) (f_off y) (u32 n1);
            when (0 <? r) (upd_file f (λ x, x <| f_off ::= λ o, u32 (o + r) |>));;
            iunlock ip;;
            end_op;;
            if negb (r =? n1) then mret (inr i) else mret (inl (i + r))
          else mret (inr i)) 0;
      mret (if i =? n then n else -1)
  | FD_NONE => panic "filewrite"
  end.

(** ** [pipealloc] *)

(** [bad:] *)
Definition pipealloc_bad (pi : Z) (f0 f1 : option nat) : M (option (nat * nat)) :=
  when (truth pi) (kfree pi);;
  match f0 with Some f => fileclose f | None => skip end;;
  match f1 with Some f => fileclose f | None => skip end;;
  mret None.

Definition new_pipe : pipe := Pipe (replicate 512 5) 0 0 1 1.

(** The two files, or [None] for -1.  [kalloc] has filled the page with 5s. *)
Definition pipealloc : M (option (nat * nat)) :=
  f0 ← filealloc;
  match f0 with
  | None => pipealloc_bad 0 None None
  | Some a =>
      f1 ← filealloc;
      match f1 with
      | None => pipealloc_bad 0 f0 None
      | Some b =>
          pi ← kalloc;
          if pi =? 0 then pipealloc_bad 0 f0 f1 else
          modify (λ s, s <| k_pipes ::= λ m, <[pi := new_pipe]> m |>);;
          initlock (L_pipe pi) "pipe";;
          upd_file a (λ x, x <| f_type := FD_PIPE |> <| f_readable := 1 |>
                             <| f_writable := 0 |> <| f_pipe := pi |>);;
          upd_file b (λ x, x <| f_type := FD_PIPE |> <| f_readable := 0 |>
                             <| f_writable := 1 |> <| f_pipe := pi |>);;
          mret (Some (a, b))
      end
  end.

End file.
