(* ===== verification/Proc.v ===== *)
(** * Process life cycle: the other half of kernel/proc.c

    Allocation, fork, exit and wait. *)

From S2P Require Import Prelude Riscv State Spinlock CString Kalloc Vm Printf Sched Sleeplock FsDefs Virtio Bio Log Fs Pipe Console File.

Section proc.
Context `{Image, Device, Patience}.

(** Offsets of [struct trapframe] (kernel/proc.h). *)
Definition TF_kernel_satp : Z := 0.
Definition TF_kernel_sp : Z := 8.
Definition TF_kernel_trap : Z := 16.
Definition TF_epc : Z := 24.
Definition TF_kernel_hartid : Z := 32.
Definition TF_sp : Z := 48.
Definition TF_a0 : Z := 112.
Definition TF_a1 : Z := 120.
Definition TF_a7 : Z := 168.
Definition TF_SIZE : Z := 288.

Definition proc_pagetable (p : nat) : M Z :=
  pagetable ← uvmcreate;
  if pagetable =? 0 then mret 0 else
  r ← mappages pagetable TRAMPOLINE PGSIZE trampoline (Z.lor PTE_R PTE_X);
  if r <? 0 then uvmfree pagetable 0;; mret 0 else
  x ← get_proc p;
  r ← mappages pagetable TRAPFRAME PGSIZE (p_trapframe x) (Z.lor PTE_R PTE_W);
  if r <? 0 then
    uvmunmap pagetable TRAMPOLINE 1 false;;
    uvmfree pagetable 0;;
    mret 0
  else mret pagetable.

Definition proc_freepagetable (pagetable sz : Z) : M unit :=
  uvmunmap pagetable TRAMPOLINE 1 false;;
  uvmunmap pagetable TRAPFRAME 1 false;;
  uvmfree pagetable sz.

Definition freeproc (p : nat) : M unit :=
  x ← get_proc p;
  when (truth (p_trapframe x)) (kfree (p_trapframe x));;
  upd_proc p (λ x, x <| p_trapframe := 0 |>);;
  x ← get_proc p;
  when (truth (p_pagetable x)) (proc_freepagetable (p_pagetable x) (p_sz x));;
  upd_proc p (λ x, x <| p_pagetable := 0 |> <| p_sz := 0 |> <| p_pid := 0 |>
                     <| p_parent := None |> <| p_name ::= λ l, <[0%nat := 0]> l |>
                     <| p_chan := Ch_null |> <| p_killed := 0 |> <| p_xstate := 0 |>
                     <| p_cpu_ticks := 0 |> <| p_wait_ticks := 0 |>
                     <| p_io_count := 0 |> <| p_recent_cpu := 0 |>
                     <| p_state := UNUSED |>).

(** The search loop of [allocproc]: the slot, with its lock held. *)
Definition find_unused : M (option nat) :=
  for_ret (seq 0 NPROC) (λ p,
    acquire (L_proc p);;
    x ← get_proc p;
    if bool_decide (p_state x = UNUSED) then mret (Some p)
    else release (L_proc p);; mret None).

Definition new_context (kstack : Z) : context :=
  Context forkret_addr (kstack + PGSIZE) (replicate 12 0).

Definition allocproc : M (option nat) :=
  r ← find_unused;
  match r with
  | None => mret None
  | Some p =>
      pid ← allocpid;
      upd_proc p (λ x, x <| p_pid := pid |>);;
      upd_proc p (λ x, x <| p_state := USED |>);;
      upd_proc p (λ x, x <| p_cpu_ticks := 0 |> <| p_wait_ticks := 0 |>
                         <| p_io_count := 0 |> <| p_recent_cpu := 0 |> <| p_sz := 0 |>);;
      tf ← kalloc;
      upd_proc p (λ x, x <| p_trapframe := tf |>);;
      if tf =? 0 then freeproc p;; release (L_proc p);; mret None else
      pt ← proc_pagetable p;
      upd_proc p (λ x, x <| p_pagetable := pt |>);;
      if pt =? 0 then freeproc p;; release (L_proc p);; mret None else
      upd_proc p (λ x, x <| p_context := new_context (p_kstack x) |>);;
      mret (Some p)
  end.

Definition userinit : M unit :=
  r ← allocproc;
  match r with
  | None => panic "userinit: allocproc"
  | Some p =>
      modify (λ s, s <| k_initproc := Some p |>);;
      cwd ← namei (str "/");
      upd_proc p (λ x, x <| p_cwd := cwd |>);;
      upd_proc p (λ x, x <| p_state := RUNNABLE |>);;
      release (L_proc p)
  end.

Definition growproc (n : Z) : M Z :=
  p ← curproc;
  x ← get_proc p;
  let sz := p_sz x in
  if 0 <? n then
    if TRAPFRAME <? u64 (sz + n) then mret (-1) else
    sz ← uvmalloc (p_pagetable x) sz (u64 (sz + n)) PTE_W;
    if sz =? 0 then mret (-1) else
    upd_proc p (λ x, x <| p_sz := sz |>);; mret 0
  else if n <? 0 then
    sz ← uvmdealloc (p_pagetable x) sz (u64 (sz + n));
    upd_proc p (λ x, x <| p_sz := sz |>);; mret 0
  else
    upd_proc p (λ x, x <| p_sz := sz |>);; mret 0.

Definition kfork : M Z :=
  p ← curproc;
  r ← allocproc;
  match r with
  | None => mret (-1)
  | Some np =>
      x ← get_proc p;
      y ← get_proc np;
      r ← uvmcopy (p_pagetable x) (p_pagetable y) (p_sz x);
      if r <? 0 then freeproc np;; release (L_proc np);; mret (-1) else
      x ← get_proc p;
      upd_proc np (λ y, y <| p_sz := p_sz x |>);;
      do_memmove (p_trapframe y) (p_trapframe x) TF_SIZE;;
      store64 (p_trapframe y + TF_a0) 0;;
      for_each (seq 0 NOFILE) (λ i,
        x ← get_proc p;
        match p_ofile x !! i with
        | Some (Some f) =>
            f ← filedup f;
            upd_proc np (λ y, y <| p_ofile ::= λ l, <[i := Some f]> l |>)
        | _ => skip
        end);;
      x ← get_proc p;
      cwd ← of_option (p_cwd x);
      cwd ← idup cwd;
      upd_proc np (λ y, y <| p_cwd := Some cwd |>);;
      x ← get_proc p;
      upd_proc np (λ y, y <| p_name ::= λ l, safestrcpy l (p_name x) 16 |>);;
      y ← get_proc np;
      let pid := p_pid y in
      release (L_proc np);;
      acquire L_wait;;
      upd_proc np (λ y, y <| p_parent := Some p |>);;
      release L_wait;;
      acquire (L_proc np);;
      upd_proc np (λ y, y <| p_state := RUNNABLE |>);;
      release (L_proc np);;
      mret pid
  end.

(** The channel a possibly null [struct proc *] stands for. *)
Definition chan_of (p : option nat) : chan_id :=
  match p with Some i => Ch_proc i | None => Ch_null end.

Definition reparent (p : nat) : M unit :=
  for_each (seq 0 NPROC) (λ pp,
    x ← get_proc pp;
    when (bool_decide (p_parent x = Some p))
      (init ← gets k_initproc;
       upd_proc pp (λ x, x <| p_parent := init |>);;
       wakeup (chan_of init))).

Definition close_files (p : nat) : M unit :=
  for_each (seq 0 NOFILE) (λ fd,
    x ← get_proc p;
    match p_ofile x !! fd with
    | Some (Some f) =>
        fileclose f;;
        upd_proc p (λ x, x <| p_ofile ::= λ l, <[fd := None]> l |>)
    | _ => skip
    end).

Definition kexit {A} (status : Z) : M A :=
  p ← curproc;
  init ← gets k_initproc;
  if bool_decide (init = Some p) then panic "init exiting" else
  close_files p;;
  begin_op;;
  x ← get_proc p;
  cwd ← of_option (p_cwd x);
  iput cwd;;
  end_op;;
  upd_proc p (λ x, x <| p_cwd := None |>);;
  acquire L_wait;;
  reparent p;;
  x ← get_proc p;
  wakeup (chan_of (p_parent x));;
  acquire (L_proc p);;
  upd_proc p (λ x, x <| p_xstate := status |>);;
  upd_proc p (λ x, x <| p_state := ZOMBIE |>);;
  release L_wait;;
  sched;;
  panic "zombie exit".

(** One scan of the table by [kwait]: either a value to return (both locks
    released) or whether the caller has children. *)
Definition kwait_scan (p : nat) (addr : Z) : M (Z + bool) :=
  r ← while_ (S NPROC)
    (λ '(pp, havekids),
      if (pp <? NPROC)%nat then
        x ← get_proc pp;
        if bool_decide (p_parent x = Some p) then
          acquire (L_proc pp);;
          x ← get_proc pp;
          if bool_decide (p_state x = ZOMBIE) then
            let pid := p_pid x in
            r ← (if negb (addr =? 0) then
                   y ← get_proc p;
                   copyout (p_pagetable y) addr (le_bytes 4 (u32 (p_xstate x))) 4
                 else mret 0);
            if r <? 0 then
              release (L_proc pp);; release L_wait;; mret (inr (inl (-1)))
            else
              freeproc pp;;
              release (L_proc pp);;
              release L_wait;;
              mret (inr (inl pid))
          else release (L_proc pp);; mret (inl (S pp, true))
        else mret (inl (S pp, havekids))
      else mret (inr (inr havekids))) (0%nat, false);
  mret r.

Definition kwait (addr : Z) : M Z :=
  p ← curproc;
  acquire L_wait;;
  while_ (S patience)
    (λ _ : unit,
      r ← kwait_scan p addr;
      match r with
      | inl v => mret (inr v)
      | inr havekids =>
          stop ← (if negb havekids then mret true else killed p);
          if (stop : bool) then release L_wait;; mret (inr (-1))
          else sleep (Ch_proc p) L_wait;; mret (inl tt)
      end) tt.

End proc.
