(* ===== verification/Exec.v ===== *)
(** * Program loading: kernel/exec.c with the ELF structures of kernel/elf.h *)

From S2P Require Import Prelude Riscv State Spinlock CString Kalloc Vm Printf Sched Sleeplock FsDefs Virtio Bio Log Fs Pipe Console File Proc.

Section exec.
Context `{Image, Device, Patience}.

Definition ELF_MAGIC : Z := 0x464C457F.
Definition ELF_PROG_LOAD : Z := 1.

(** The fields of [struct elfhdr] that are used, at their offsets. *)
Definition ELFHDR_SIZE : Z := 64.
Record elfhdr := Elfhdr { eh_magic : Z; eh_entry : Z; eh_phoff : Z; eh_phnum : Z }.
Definition elfhdr_get (l : list Z) : elfhdr :=
  Elfhdr (rd_le 4 0 l) (rd_le 8 24 l) (rd_le 8 32 l) (rd_le 2 56 l).

(** [struct proghdr]. *)
Definition PROGHDR_SIZE : Z := 56.
Record proghdr := Proghdr {
  ph_type : Z; ph_flags : Z; ph_off : Z; ph_vaddr : Z; ph_paddr : Z;
  ph_filesz : Z; ph_memsz : Z; ph_align : Z
}.
Definition proghdr_get (l : list Z) : proghdr :=
  Proghdr (rd_le 4 0 l) (rd_le 4 4 l) (rd_le 8 8 l) (rd_le 8 16 l) (rd_le 8 24 l)
          (rd_le 8 32 l) (rd_le 8 40 l) (rd_le 8 48 l).

Definition flags2perm (flags : Z) : Z :=
  let perm := if truth (Z.land flags 0x1) then PTE_X else 0 in
  if truth (Z.land flags 0x2) then Z.lor perm PTE_W else perm.

Definition loadseg (pagetable va : Z) (ip : nat) (offset sz : Z) : M Z :=
  while_ (S (Z.to_nat ((sz + PGSIZE - 1) / PGSIZE)))
    (λ i,
      if i <? sz then
        pa ← walkaddr pagetable (u64 (va + i));
        if pa =? 0 then panic "loadseg: address should exist" else
        let n := if sz - i <? PGSIZE then sz - i else PGSIZE in
        r ← readi ip false pa (u32 (offset + i)) n;
        if negb (u32 r =? n) then mret (inr (-1)) else mret (inl (u32 (i + PGSIZE)))
      else mret (inr 0)) 0.

(** Stack offsets of the locals [elf] and [ph]. *)
Definition LOCAL_elf : Z := 64.
Definition LOCAL_ph : Z := 128.

(** [bad:] *)
Definition kexec_bad (pagetable sz : Z) (ip : option nat) : M Z :=
  when (truth pagetable) (proc_freepagetable pagetable sz);;
  match ip with
  | Some ip => iunlockput ip;; end_op
  | None => skip
  end;;
  mret (-1).

(** The loop over the program headers: the new size, or the size at the
    failure.  [phnum] rounds. *)
Definition load_segments (pagetable : Z) (ip : nat) (elf : elfhdr) (phaddr : Z) : M (Z + Z) :=
  while_ (S (Z.to_nat (eh_phnum elf)))
    (λ '(i, off, sz),
      if i <? eh_phnum elf then
        r ← readi ip false phaddr (u32 off) PROGHDR_SIZE;
        if negb (r =? PROGHDR_SIZE) then mret (inr (inr sz)) else
        l ← load_bytes phaddr (Z.to_nat PROGHDR_SIZE);
        let ph := proghdr_get l in
        let next sz := inl (i + 1, i32 (off + PROGHDR_SIZE), sz) in
        if negb (ph_type ph =? ELF_PROG_LOAD) then mret (next sz) else
        if ph_memsz ph <? ph_filesz ph then mret (inr (inr sz)) else
        if u64 (ph_vaddr ph + ph_memsz ph) <? ph_vaddr ph then mret (inr (inr sz)) else
        if negb (ph_vaddr ph mod PGSIZE =? 0) then mret (inr (inr sz)) else
        sz1 ← uvmalloc pagetable sz (u64 (ph_vaddr ph + ph_memsz ph)) (flags2perm (i32 (ph_flags ph)));
        if sz1 =? 0 then mret (inr (inr sz)) else
        r ← loadseg pagetable (ph_vaddr ph) ip (u32 (ph_off ph)) (u32 (ph_filesz ph));
        if r <? 0 then mret (inr (inr sz1)) else mret (next sz1)
      else mret (inr (inl sz)))
    (0, i32 (eh_phoff elf), 0).

(** The loop that pushes the argument strings: [sp] and [ustack], or [None]. *)
Fixpoint push_args (pagetable stackbase : Z) (argv : list (list Z)) (sp : Z) (ustack : list Z) :
    M (option (Z * list Z)) :=
  match argv with
  | [] => mret (Some (sp, ustack))
  | arg :: argv =>
      if (MAXARG <=? length ustack)%nat then mret None else
      let sp := u64 (sp - (strlen arg + 1)) in
      let sp := sp - sp mod 16 in
      if sp <? stackbase then mret None else
      r ← copyout pagetable sp (cstr arg ++ [0]) (strlen arg + 1);
      if r <? 0 then mret None
      else push_args pagetable stackbase argv sp (ustack ++ [sp])
  end.

(** The last element of a path: what follows its last slash. *)
Fixpoint last_elem (path last : list Z) : list Z :=
  match path with
  | [] => last
  | c :: path => if c =? 0 then last else last_elem path (if c =? chr "/" then path else last)
  end.

Definition kexec (path : list Z) (argv : list (list Z)) : M Z :=
  p ← curproc;
  begin_op;;
  r ← namei path;
  match r with
  | None => end_op;; mret (-1)
  | Some ip =>
      ilock ip;;
      elfaddr ← stack_addr LOCAL_elf;
      phaddr ← stack_addr LOCAL_ph;
      r ← readi ip false elfaddr 0 ELFHDR_SIZE;
      if negb (r =? ELFHDR_SIZE) then kexec_bad 0 0 (Some ip) else
      l ← load_bytes elfaddr (Z.to_nat ELFHDR_SIZE);
      let elf := elfhdr_get l in
      if negb (eh_magic elf =? ELF_MAGIC) then kexec_bad 0 0 (Some ip) else
      pagetable ← proc_pagetable p;
      if pagetable =? 0 then kexec_bad 0 0 (Some ip) else
      r ← load_segments pagetable ip elf phaddr;
      match r with
      | inr sz => kexec_bad pagetable sz (Some ip)
      | inl sz =>
          iunlockput ip;;
          end_op;;
          x ← get_proc p;
          let oldsz := p_sz x in
          let sz := PGROUNDUP sz in
          sz1 ← uvmalloc pagetable sz (u64 (sz + (USERSTACK + 1) * PGSIZE)) PTE_W;
          if sz1 =? 0 then kexec_bad pagetable sz None else
          let sz := sz1 in
          uvmclear pagetable (u64 (sz - (USERSTACK + 1) * PGSIZE));;
          let stackbase := u64 (sz - USERSTACK * PGSIZE) in
          r ← push_args pagetable stackbase argv sz [];
          match r with
          | None => kexec_bad pagetable sz None
          | Some (sp, ustack) =>
              let argc := Z.of_nat (length ustack) in
              let sp := u64 (sp - (argc + 1) * 8) in
              let sp := sp - sp mod 16 in
              if sp <? stackbase then kexec_bad pagetable sz None else
              r ← copyout pagetable sp ((ustack ++ [0]) ≫= le_bytes 8) ((argc + 1) * 8);
              if r <? 0 then kexec_bad pagetable sz None else
              x ← get_proc p;
              store64 (p_trapframe x + TF_a1) sp;;
              upd_proc p (λ x, x <| p_name ::= λ l, safestrcpy l (last_elem path path) 16 |>);;
              let oldpagetable := p_pagetable x in
              upd_proc p (λ x, x <| p_pagetable := pagetable |>);;
              upd_proc p (λ x, x <| p_sz := sz |>);;
              store64 (p_trapframe x + TF_epc) (eh_entry elf);;
              store64 (p_trapframe x + TF_sp) sp;;
              proc_freepagetable oldpagetable oldsz;;
              mret (i32 argc)
          end
      end
  end.

End exec.
