(* ===== verification/Syscall.v ===== *)
(** * System calls on processes: kernel/syscall.c (arguments) and
    kernel/sysproc.c *)

From S2P Require Import Prelude Riscv State Spinlock CString Kalloc Vm Printf Sched Sleeplock FsDefs Virtio Bio Log Fs Pipe Console File Proc.

Section syscall.
Context `{Image, Device, Patience}.

(** ** Arguments (kernel/syscall.c) *)

Definition argraw (n : Z) : M Z :=
  p ← curproc;
  x ← get_proc p;
  if (0 <=? n) && (n <=? 5) then load64 (p_trapframe x + TF_a0 + 8 * n)
  else panic "argraw".

Definition argint (n : Z) : M Z := v ← argraw n; mret (i32 v).
Definition argaddr (n : Z) : M Z := argraw n.

(** [fetchaddr(addr, ip)]: the status and the value stored in [*ip]. *)
Definition fetchaddr (addr : Z) : M (Z * Z) :=
  p ← curproc;
  x ← get_proc p;
  if (p_sz x <=? addr) || (p_sz x <? u64 (addr + 8)) then mret (-1, 0) else
  '(r, l) ← copyin (p_pagetable x) addr 8;
  if negb (r =? 0) then mret (-1, 0) else mret (0, le_val l).

(** [fetchstr(addr, buf, max)]: the length or -1, and the string in [buf]. *)
Definition fetchstr (addr max : Z) : M (Z * list Z) :=
  p ← curproc;
  x ← get_proc p;
  '(r, buf) ← copyinstr (p_pagetable x) addr max;
  if r <? 0 then mret (-1, buf) else mret (strlen buf, cstr buf).

Definition argstr (n max : Z) : M (Z * list Z) :=
  addr ← argaddr n;
  fetchstr addr max.

(** ** kernel/sysproc.c *)

Definition sys_exit : M Z :=
  n ← argint 0;
  kexit n.

Definition sys_getpid : M Z :=
  p ← curproc; x ← get_proc p; mret (u64 (p_pid x)).

Definition sys_fork : M Z := r ← kfork; mret (u64 r).

(** [if(p != 0) p->io_count++;] *)
Definition count_io : M unit :=
  cur ← myproc;
  match cur with
  | Some p => upd_proc p (λ x, x <| p_io_count ::= λ n, i32 (n + 1) |>)
  | None => skip
  end.

Definition sys_wait : M Z :=
  count_io;;
  p ← argaddr 0;
  r ← kwait p;
  mret (u64 r).

Definition sys_sbrk : M Z :=
  n ← argint 0;
  t ← argint 1;
  p ← curproc;
  x ← get_proc p;
  let addr := p_sz x in
  if (t =? SBRK_EAGER) || (n <? 0) then
    r ← growproc n;
    if r <? 0 then mret (u64 (-1)) else mret addr
  else
    if u64 (addr + n) <? addr then mret (u64 (-1)) else
    if TRAPFRAME <? u64 (addr + n) then mret (u64 (-1)) else
    p ← curproc;
    upd_proc p (λ x, x <| p_sz ::= λ sz, u64 (sz + n) |>);;
    mret addr.

Definition sys_pause : M Z :=
  count_io;;
  n ← argint 0;
  let n := if n <? 0 then 0 else n in
  acquire L_ticks;;
  ticks0 ← gets k_ticks;
  while_ (S patience)
    (λ _ : unit,
      t ← gets k_ticks;
      if u32 (t - ticks0) <? n then
        p ← curproc;
        k ← killed p;
        if (k : bool) then release L_ticks;; mret (inr (u64 (-1)))
        else sleep Ch_ticks L_ticks;; mret (inl tt)
      else release L_ticks;; mret (inr 0)) tt.

Definition sys_kill : M Z :=
  pid ← argint 0;
  r ← kkill pid;
  mret (u64 r).

Definition sys_uptime : M Z :=
  acquire L_ticks;;
  xticks ← gets k_ticks;
  release L_ticks;;
  mret xticks.

Definition sys_set_llm_advice : M Z :=
  pid ← argint 0;
  if pid <=? 0 then mret (u64 (-1)) else
  acquire L_llm;;
  modify (λ s, s <| k_llm ::= set llm_recommended_pid (λ _, pid) |>);;
  modify (λ s, s <| k_llm ::= set llm_advice_valid (λ _, 1) |>);;
  modify (λ s, s <| k_llm ::= set llm_advice_timestamp (λ _, k_ticks s) |>);;
  release L_llm;;
  mret 0.

End syscall.
