(* ===== verification/SyscallSpec.v ===== *)
(** * Correctness of the advice system call *)

From S2P Require Import Prelude Riscv State Boot Spinlock ProcTable Machine CString Kalloc Vm Printf Sched SchedSpec Sleeplock FsDefs Virtio Bio Log Fs Pipe Console File Proc Syscall.

(** The process [p] is on the CPU, and its trapframe holds [v] as argument [n]. *)
Record in_syscall (p : nat) (s : kernel) : Prop := {
  is_hart : hart_at 0 (k_hw s);
  is_cur : cur_proc (k_hw s) = Some p;
  is_proc : is_Some (k_procs s !! p)
}.

Definition arg_of (p : nat) (n : Z) (s : kernel) : Z :=
  match k_procs s !! p with
  | Some x => mload64 (k_mem s) (p_trapframe x + TF_a0 + 8 * n)
  | None => 0
  end.

Section syscalls.
Context `{Image, Device, Patience}.

Lemma argraw_run p n s : in_syscall p s → 0 ≤ n ≤ 5 → argraw n s = Ret (arg_of p n s) s.
Proof.
  intros [Hh Hc [x Hx]] Hn. unfold argraw, arg_of. mrun_with (curproc_run 0); [|done|done].
  mrun_with get_proc_run; [|done]. rewrite Hx.
  destruct (Z.leb_spec 0 n), (Z.leb_spec n 5); try lia. done.
Qed.

Lemma argint_run p n s : in_syscall p s → 0 ≤ n ≤ 5 → argint n s = Ret (i32 (arg_of p n s)) s.
Proof. intros Hs Hn. unfold argint. by mrun_with (argraw_run p). Qed.

(** C3: the advice system call.  A positive pid is recorded as fresh advice with the
    current tick as its time, so that the next scheduling round selects the
    first ready process with that pid, if there is one; any other argument is
    refused with -1 and changes nothing. *)
Theorem set_llm_advice_takes_effect p s :
  in_syscall p s → lock_free L_llm (k_hw s) →
  let pid := i32 (arg_of p 0 s) in
  if 0 <? pid then
    sys_set_llm_advice s = Ret 0 (s <| k_llm := Llm_advice pid 1 (k_ticks s) |>) ∧
    fresh_advice (s <| k_llm := Llm_advice pid 1 (k_ticks s) |>) = Some pid ∧
    candidate (s <| k_llm := Llm_advice pid 1 (k_ticks s) |>) =
      find_proc (λ x, runnable x && (p_pid x =? pid)) (k_procs s)
  else sys_set_llm_advice s = Ret (u64 (-1)) s.
Proof.
  intros Hs Hl pid. unfold sys_set_llm_advice. pose proof (is_hart _ _ Hs) as Hh.
  destruct (Z.ltb_spec 0 pid) as [Hpos|Hneg].
  - assert (Hf : fresh_advice (s <| k_llm := Llm_advice pid 1 (k_ticks s) |>) = Some pid).
    { unfold fresh_advice. ksimpl. by rewrite Z.sub_diag. }
    split_and!; [|done|unfold candidate; by rewrite Hf].
    mrun_with (argint_run p); [|done|lia]. fold pid. destruct (Z.leb_spec pid 0); [lia|].
    mrun_with (acquire_run 0); [|done|done].
    by mrun_with (release_run 0 L_llm (k_hw s)).
  - mrun_with (argint_run p); [|done|lia]. fold pid. by destruct (Z.leb_spec pid 0); [|lia].
Qed.

End syscalls.

(** Process 3 calls [set_llm_advice(3)]. *)
Definition demo_call : kernel :=
  demo_run <| k_procs ::= alter (λ x, x <| p_trapframe := 0x80100000 |>) 3%nat |>
           <| k_mem := mstore64 ∅ (0x80100000 + TF_a0 + 8 * 0) 3 |>.

Lemma set_llm_advice_takes_effect_witness :
  sys_set_llm_advice demo_call = Ret 0 (demo_call <| k_llm := Llm_advice 3 1 0 |>) ∧
  candidate (demo_call <| k_llm := Llm_advice 3 1 0 |>) = Some 2%nat.
Proof.
  destruct (set_llm_advice_takes_effect 3 demo_call) as (H1 & _ & H2).
  - split; [apply demo_hart_at|reflexivity|by eexists].
  - by apply is_free_lock_free.
  - split; [exact H1|exact H2].
Defined.
