(* ===== verification/Sysfile.v ===== *)
(** * File system calls: kernel/sysfile.c, and the dispatcher of
    kernel/syscall.c *)

From S2P Require Import Prelude Riscv State Spinlock CString Kalloc Vm Printf Sched Sleeplock FsDefs Virtio Bio Log Fs Pipe Console File Proc Exec Syscall.

Section sysfile.
Context `{Image, Device, Patience}.

Definition ERR : Z := u64 (-1).

(** [argfd(n, pfd, pf)]: the descriptor and the file, or [None] for -1. *)
Definition argfd (n : Z) : M (option (Z * nat)) :=
  fd ← argint n;
  if (fd <? 0) || (Z.of_nat NOFILE <=? fd) then mret None else
  p ← curproc;
  x ← get_proc p;
  match p_ofile x !! Z.to_nat fd with
  | Some (Some f) => mret (Some (fd, f))
  | _ => mret None
  end.

Definition set_ofile (p : nat) (fd : Z) (f : option nat) : M unit :=
  upd_proc p (λ x, x <| p_ofile ::= λ l, <[Z.to_nat fd := f]> l |>).

Definition fdalloc (f : nat) : M Z :=
  p ← curproc;
  r ← for_ret (seq 0 NOFILE) (λ fd,
    x ← get_proc p;
    match p_ofile x !! fd with
    | Some None =>
        set_ofile p (Z.of_nat fd) (Some f);;
        mret (Some (Z.of_nat fd))
    | _ => mret None
    end);
  mret (default (-1) r).

Definition sys_dup : M Z :=
  r ← argfd 0;
  match r with
  | None => mret ERR
  | Some (_, f) =>
      fd ← fdalloc f;
      if fd <? 0 then mret ERR else
      filedup f;;
      mret fd
  end.

Definition sys_read : M Z :=
  p ← argaddr 1;
  n ← argint 2;
  r ← argfd 0;
  match r with
  | None => mret ERR
  | Some (_, f) => v ← fileread f p n; mret (u64 v)
  end.

Definition sys_write : M Z :=
  p ← argaddr 1;
  n ← argint 2;
  r ← argfd 0;
  match r with
  | None => mret ERR
  | Some (_, f) => v ← filewrite f p n; mret (u64 v)
  end.

Definition sys_close : M Z :=
  r ← argfd 0;
  match r with
  | None => mret ERR
  | Some (fd, f) =>
      p ← curproc;
      set_ofile p fd None;;
      fileclose f;;
      mret 0
  end.

Definition sys_fstat : M Z :=
  st ← argaddr 1;
  r ← argfd 0;
  match r with
  | None => mret ERR
  | Some (_, f) => v ← filestat f st; mret (u64 v)
  end.

(** [bad:] of [sys_link] *)
Definition link_bad (ip : nat) : M Z :=
  ilock ip;;
  upd_inode ip (λ x, x <| i_nlink ::= λ n, i16 (n - 1) |>);;
  iupdate ip;;
  iunlockput ip;;
  end_op;;
  mret ERR.

Definition sys_link : M Z :=
  '(r, old) ← argstr 0 (Z.of_nat MAXPATH);
  if r <? 0 then mret ERR else
  '(r, new) ← argstr 1 (Z.of_nat MAXPATH);
  if r <? 0 then mret ERR else
  begin_op;;
  o ← namei old;
  match o with
  | None => end_op;; mret ERR
  | Some ip =>
      ilock ip;;
      x ← get_inode ip;
      if i_type x =? T_DIR then iunlockput ip;; end_op;; mret ERR else
      upd_inode ip (λ x, x <| i_nlink ::= λ n, i16 (n + 1) |>);;
      iupdate ip;;
      iunlock ip;;
      '(d, name) ← nameiparent new;
      match d with
      | None => link_bad ip
      | Some dp =>
          ilock dp;;
          y ← get_inode dp;
          x ← get_inode ip;
          r ← (if negb (i_dev y =? i_dev x) then mret (-1) else dirlink dp name (i_inum x));
          if r <? 0 then iunlockput dp;; link_bad ip else
          iunlockput dp;;
          iput ip;;
          end_op;;
          mret 0
      end
  end.

Definition isdirempty (dp : nat) : M bool :=
  x ← get_inode dp;
  de ← stack_addr DE_isdirempty;
  while_ (Z.to_nat (i_size x / DIRENT_SIZE) + 2)
    (λ off,
      x ← get_inode dp;
      if off <? i_size x then
        r ← readi dp false de off DIRENT_SIZE;
        if negb (r =? DIRENT_SIZE) then panic "isdirempty: readi" else
        l ← load_bytes de 2;
        if negb (le_val l =? 0) then mret (inr false) else mret (inl (off + DIRENT_SIZE))
      else mret (inr true)) (2 * DIRENT_SIZE).

(** [bad:] of [sys_unlink] *)
Definition unlink_bad (dp : nat) : M Z := iunlockput dp;; end_op;; mret ERR.

Definition sys_unlink : M Z :=
  '(r, path) ← argstr 0 (Z.of_nat MAXPATH);
  if r <? 0 then mret ERR else
  begin_op;;
  '(d, name) ← nameiparent path;
  match d with
  | None => end_op;; mret ERR
  | Some dp =>
      ilock dp;;
      if (namecmp name (str ".") =? 0) || (namecmp name (str "..") =? 0) then unlink_bad dp else
      e ← dirlookup dp name;
      match e with
      | None => unlink_bad dp
      | Some (ip, off) =>
          ilock ip;;
          x ← get_inode ip;
          if i_nlink x <? 1 then panic "unlink: nlink < 1" else
          full ← (if i_type x =? T_DIR then e ← isdirempty ip; mret (negb e) else mret false);
          if (full : bool) then iunlockput ip;; unlink_bad dp else
          de ← stack_addr DE_unlink;
          store_bytes de (replicate (Z.to_nat DIRENT_SIZE) 0);;
          r ← writei dp false de off DIRENT_SIZE;
          if negb (r =? DIRENT_SIZE) then panic "unlink: writei" else
          x ← get_inode ip;
          when (i_type x =? T_DIR)
            (upd_inode dp (λ y, y <| i_nlink ::= λ n, i16 (n - 1) |>);; iupdate dp);;
          iunlockput dp;;
          upd_inode ip (λ x, x <| i_nlink ::= λ n, i16 (n - 1) |>);;
          iupdate ip;;
          iunlockput ip;;
          end_op;;
          mret 0
      end
  end.

(** [fail:] of [create] *)
Definition create_fail (ip dp : nat) : M (option nat) :=
  upd_inode ip (λ x, x <| i_nlink := 0 |>);;
  iupdate ip;;
  iunlockput ip;;
  iunlockput dp;;
  mret None.

(** [create]: a locked inode, or null. *)
Definition create (path : list Z) (type major minor : Z) : M (option nat) :=
  '(d, name) ← nameiparent path;
  match d with
  | None => mret None
  | Some dp =>
      ilock dp;;
      e ← dirlookup dp name;
      match e with
      | Some (ip, _) =>
          iunlockput dp;;
          ilock ip;;
          x ← get_inode ip;
          if (type =? T_FILE) && ((i_type x =? T_FILE) || (i_type x =? T_DEVICE)) then mret (Some ip)
          else iunlockput ip;; mret None
      | None =>
          y ← get_inode dp;
          r ← ialloc (i_dev y) type;
          match r with
          | None => iunlockput dp;; mret None
          | Some ip =>
              ilock ip;;
              upd_inode ip (λ x, x <| i_major := major |>);;
              upd_inode ip (λ x, x <| i_minor := minor |>);;
              upd_inode ip (λ x, x <| i_nlink := 1 |>);;
              iupdate ip;;
              x ← get_inode ip;
              y ← get_inode dp;
              r ← (if type =? T_DIR then
                     r ← dirlink ip (str ".") (i_inum x);
                     if r <? 0 then mret (-1) else dirlink ip (str "..") (i_inum y)
                   else mret 0);
              if r <? 0 then create_fail ip dp else
              r ← dirlink dp name (i_inum x);
              if r <? 0 then create_fail ip dp else
              when (type =? T_DIR)
                (upd_inode dp (λ y, y <| i_nlink ::= λ n, i16 (n + 1) |>);; iupdate dp);;
              iunlockput dp;;
              mret (Some ip)
          end
      end
  end.

(** The rest of [sys_open], with the locked inode. *)
Definition open_inode (ip : nat) (omode : Z) : M Z :=
  x ← get_inode ip;
  if (i_type x =? T_DEVICE) && ((i_major x <? 0) || (Z.of_nat NDEV <=? i_major x)) then
    iunlockput ip;; end_op;; mret ERR
  else
  fo ← filealloc;
  fd ← match fo with Some f => fdalloc f | None => mret (-1) end;
  match fo with
  | Some f =>
      if fd <? 0 then fileclose f;; iunlockput ip;; end_op;; mret ERR else
      x ← get_inode ip;
      (if i_type x =? T_DEVICE then
         upd_file f (λ y, y <| f_type := FD_DEVICE |> <| f_major := i_major x |>)
       else
         upd_file f (λ y, y <| f_type := FD_INODE |> <| f_off := 0 |>));;
      upd_file f (λ y, y <| f_ip := Some ip |>
        <| f_readable := Z_of_bool (Z.land omode O_WRONLY =? 0) |>
        <| f_writable := Z_of_bool (truth (Z.land omode O_WRONLY) || truth (Z.land omode O_RDWR)) |>);;
      x ← get_inode ip;
      when (truth (Z.land omode O_TRUNC) && (i_type x =? T_FILE)) (itrunc ip);;
      iunlock ip;;
      end_op;;
      mret fd
  | None => iunlockput ip;; end_op;; mret ERR
  end.

Definition sys_open : M Z :=
  omode ← argint 1;
  '(r, path) ← argstr 0 (Z.of_nat MAXPATH);
  if r <? 0 then mret ERR else
  begin_op;;
  if truth (Z.land omode O_CREATE) then
    r ← create path T_FILE 0 0;
    match r with
    | None => end_op;; mret ERR
    | Some ip => open_inode ip omode
    end
  else
    r ← namei path;
    match r with
    | None => end_op;; mret ERR
    | Some ip =>
        ilock ip;;
        x ← get_inode ip;
        if (i_type x =? T_DIR) && negb (omode =? O_RDONLY) then
          iunlockput ip;; end_op;; mret ERR
        else open_inode ip omode
    end.

(** The common part of [sys_mkdir] and [sys_mknod]. *)
Definition sys_create (type major minor : Z) : M Z :=
  '(r, path) ← argstr 0 (Z.of_nat MAXPATH);
  ip ← (if r <? 0 then mret None else create path type major minor);
  match ip with
  | None => end_op;; mret ERR
  | Some ip => iunlockput ip;; end_op;; mret 0
  end.

Definition sys_mkdir : M Z := begin_op;; sys_create T_DIR 0 0.

Definition sys_mknod : M Z :=
  begin_op;;
  major ← argint 1;
  minor ← argint 2;
  sys_create T_DEVICE (i16 major) (i16 minor).

Definition sys_chdir : M Z :=
  p ← curproc;
  begin_op;;
  '(r, path) ← argstr 0 (Z.of_nat MAXPATH);
  ip ← (if r <? 0 then mret None else namei path);
  match ip with
  | None => end_op;; mret ERR
  | Some ip =>
      ilock ip;;
      x ← get_inode ip;
      if negb (i_type x =? T_DIR) then iunlockput ip;; end_op;; mret ERR else
      iunlock ip;;
      y ← get_proc p;
      cwd ← of_option (p_cwd y);
      iput cwd;;
      end_op;;
      upd_proc p (λ y, y <| p_cwd := Some ip |>);;
      mret 0
  end.

(** The argument loop of [sys_exec]: the pages in [argv] so far (address and
    string), and whether the terminating null was reached. *)
Fixpoint exec_args (fuel : nat) (uargv i : Z) (argv : list (Z * list Z)) :
    M (bool * list (Z * list Z)) :=
  match fuel with
  | O => mret (false, argv)
  | S fuel =>
      '(r, uarg) ← fetchaddr (u64 (uargv + 8 * i));
      if r <? 0 then mret (false, argv) else
      if uarg =? 0 then mret (true, argv) else
      pa ← kalloc;
      if pa =? 0 then mret (false, argv) else
      '(r, s) ← fetchstr uarg PGSIZE;
      store_bytes pa (if r <? 0 then s else s ++ [0]);;
      if r <? 0 then mret (false, argv ++ [(pa, s)]) else
      exec_args fuel uargv (i + 1) (argv ++ [(pa, s)])
  end.

Definition free_args (argv : list (Z * list Z)) : M unit := for_each argv (λ a, kfree a.1).

(** [argv[]] has [MAXARG] slots, the last of which must hold the null. *)
Definition sys_exec : M Z :=
  uargv ← argaddr 1;
  '(r, path) ← argstr 0 (Z.of_nat MAXPATH);
  if r <? 0 then mret ERR else
  '(ok, argv) ← exec_args MAXARG uargv 0 [];
  if (ok : bool) then
    ret ← kexec path argv.*2;
    free_args argv;;
    mret (u64 ret)
  else free_args argv;; mret ERR.

Definition sys_pipe : M Z :=
  p ← curproc;
  fdarray ← argaddr 0;
  r ← pipealloc;
  match r with
  | None => mret ERR
  | Some (rf, wf) =>
      fd0 ← fdalloc rf;
      fd1 ← (if fd0 <? 0 then mret (-1) else fdalloc wf);
      if (fd0 <? 0) || (fd1 <? 0) then
        when (0 <=? fd0) (set_ofile p fd0 None);;
        fileclose rf;;
        fileclose wf;;
        mret ERR
      else
      x ← get_proc p;
      r ← copyout (p_pagetable x) fdarray (le_bytes 4 fd0) 4;
      r ← (if r <? 0 then mret (-1)
           else copyout (p_pagetable x) (u64 (fdarray + 4)) (le_bytes 4 fd1) 4);
      if r <? 0 then
        set_ofile p fd0 None;;
        set_ofile p fd1 None;;
        fileclose rf;;
        fileclose wf;;
        mret ERR
      else mret 0
  end.

(** ** The dispatcher (kernel/syscall.c, kernel/syscall.h) *)

Definition syscalls (num : Z) : option (M Z) :=
  match num with
  | 1 => Some sys_fork
  | 2 => Some sys_exit
  | 3 => Some sys_wait
  | 4 => Some sys_pipe
  | 5 => Some sys_read
  | 6 => Some sys_kill
  | 7 => Some sys_exec
  | 8 => Some sys_fstat
  | 9 => Some sys_chdir
  | 10 => Some sys_dup
  | 11 => Some sys_getpid
  | 12 => Some sys_sbrk
  | 13 => Some sys_pause
  | 14 => Some sys_uptime
  | 15 => Some sys_open
  | 16 => Some sys_write
  | 17 => Some sys_mknod
  | 18 => Some sys_unlink
  | 19 => Some sys_link
  | 20 => Some sys_mkdir
  | 21 => Some sys_close
  | 22 => Some sys_set_llm_advice
  | _ => None
  end.

Definition set_a0 (p : nat) (v : Z) : M unit :=
  x ← get_proc p; store64 (p_trapframe x + TF_a0) v.

Definition syscall : M unit :=
  p ← curproc;
  x ← get_proc p;
  a7 ← load64 (p_trapframe x + TF_a7);
  let num := i32 a7 in
  match syscalls num with
  | Some f => r ← f; set_a0 p r
  | None =>
      printf (str "%d %s: unknown sys call %d" ++ [10])
        [PInt (p_pid x); PStr (Some (p_name x)); PInt num];;
      set_a0 p (u64 (-1))
  end.

End sysfile.
