(* ===== verification/Trap.v ===== *)
(** * Traps and boot: kernel/trap.c, kernel/plic.c, kernel/start.c,
    kernel/main.c and [forkret] of kernel/proc.c *)

From S2P Require Import Prelude Riscv State Spinlock CString Kalloc Vm Printf Sched Sleeplock FsDefs Virtio Bio Log Fs Pipe Console File Proc Exec Syscall Sysfile.

Section trap.
Context `{Image, Device, Patience}.

Definition LOG_INTERVAL : Z := 100.

Definition trapinit : M unit := initlock L_ticks "time".
Definition trapinithart : M unit := w_stvec kernelvec.

(** ** kernel/plic.c *)

Definition plicinit : M unit :=
  mmio_write (PLIC + UART0_IRQ * 4) 1;;
  mmio_write (PLIC + VIRTIO0_IRQ * 4) 1.

Definition plicinithart : M unit :=
  hart ← cpuid;
  mmio_write (PLIC_SENABLE hart) (Z.lor (Z.shiftl 1 UART0_IRQ) (Z.shiftl 1 VIRTIO0_IRQ));;
  mmio_write (PLIC_SPRIORITY hart) 0.

Definition plic_claim : M Z :=
  hart ← cpuid;
  irq ← mmio_read (PLIC_SCLAIM hart);
  mret (i32 irq).

Definition plic_complete (irq : Z) : M unit :=
  hart ← cpuid;
  mmio_write (PLIC_SCLAIM hart) irq.

(** ** Interrupts *)

Definition clockintr : M unit :=
  id ← cpuid;
  when (id =? 0)
    (acquire L_ticks;;
     modify (λ s, s <| k_ticks ::= λ t, u32 (t + 1) |>);;
     wakeup Ch_ticks;;
     release L_ticks;;
     update_sched_stats;;
     modify (λ s, s <| k_log_counter ::= λ n, u32 (n + 1) |>);;
     n ← gets k_log_counter;
     when (n mod LOG_INTERVAL =? 0) log_scheduling_state);;
  t ← r_time;
  w_stimecmp (u64 (t + 1000000)).

Definition devintr : M Z :=
  scause ← r_scause;
  if scause =? 0x8000000000000009 then
    irq ← plic_claim;
    (if irq =? UART0_IRQ then uartintr
     else if irq =? VIRTIO0_IRQ then virtio_disk_intr
     else when (truth irq) (printf (str "unexpected interrupt irq=%d" ++ [10]) [PInt irq]));;
    when (truth irq) (plic_complete irq);;
    mret 1
  else if scause =? 0x8000000000000005 then clockintr;; mret 2
  else mret 0.

(** ** Traps from user space *)

Definition prepare_return : M unit :=
  p ← curproc;
  intr_off;;
  w_stvec (u64 (TRAMPOLINE + (uservec - trampoline)));;
  x ← get_proc p;
  let tf := p_trapframe x in
  satp ← r_satp;
  store64 (tf + TF_kernel_satp) satp;;
  store64 (tf + TF_kernel_sp) (u64 (p_kstack x + PGSIZE));;
  store64 (tf + TF_kernel_trap) usertrap_addr;;
  tp ← r_tp;
  store64 (tf + TF_kernel_hartid) tp;;
  x ← r_sstatus;
  let x := Z.land x (u64 (Z.lnot SSTATUS_SPP)) in
  let x := Z.lor x SSTATUS_SPIE in
  w_sstatus x;;
  epc ← load64 (tf + TF_epc);
  w_sepc epc.

(** The page-fault test of [usertrap]. *)
Definition lazy_fault (p : nat) : M bool :=
  scause ← r_scause;
  if (scause =? 15) || (scause =? 13) then
    x ← get_proc p;
    stval ← r_stval;
    pa ← vmfault (p_pagetable x) stval;
    mret (negb (pa =? 0))
  else mret false.

Definition usertrap : M Z :=
  ss ← r_sstatus;
  if negb (Z.land ss SSTATUS_SPP =? 0) then panic "usertrap: not from user mode" else
  w_stvec kernelvec;;
  p ← curproc;
  x ← get_proc p;
  sepc ← r_sepc;
  store64 (p_trapframe x + TF_epc) sepc;;
  scause ← r_scause;
  which_dev ←
    (if scause =? 8 then
       k ← killed p;
       when k (kexit (-1));;
       x ← get_proc p;
       epc ← load64 (p_trapframe x + TF_epc);
       store64 (p_trapframe x + TF_epc) (u64 (epc + 4));;
       intr_on;;
       syscall;;
       mret 0
     else
       which_dev ← devintr;
       if negb (which_dev =? 0) then mret which_dev else
       ok ← lazy_fault p;
       if (ok : bool) then mret 0 else
       scause ← r_scause;
       x ← get_proc p;
       printf (str "usertrap(): unexpected scause 0x%lx pid=%d" ++ [10]) [PInt scause; PInt (p_pid x)];;
       sepc ← r_sepc;
       stval ← r_stval;
       printf (str "            sepc=0x%lx stval=0x%lx" ++ [10]) [PInt sepc; PInt stval];;
       setkilled p;;
       mret 0);
  k ← killed p;
  when k (kexit (-1));;
  when (which_dev =? 2) yield;;
  prepare_return;;
  x ← get_proc p;
  mret (MAKE_SATP (p_pagetable x)).

Definition kerneltrap : M unit :=
  sepc ← r_sepc;
  sstatus ← r_sstatus;
  scause ← r_scause;
  if Z.land sstatus SSTATUS_SPP =? 0 then panic "kerneltrap: not from supervisor mode" else
  ie ← intr_get;
  if truth ie then panic "kerneltrap: interrupts enabled" else
  which_dev ← devintr;
  if which_dev =? 0 then
    pc ← r_sepc;
    stval ← r_stval;
    printf (str "scause=0x%lx sepc=0x%lx stval=0x%lx" ++ [10]) [PInt scause; PInt pc; PInt stval];;
    panic "kerneltrap"
  else
  (if which_dev =? 2 then
     me ← myproc;
     match me with Some _ => yield | None => skip end
   else skip);;
  w_sepc sepc;;
  w_sstatus sstatus.

(** The first switch to a new process starts here.  The jump to [userret] in
    the trampoline is the result: its address and the satp value. *)
Definition forkret : M (Z * Z) :=
  p ← curproc;
  release (L_proc p);;
  first ← gets k_first;
  when (truth first)
    (fsinit ROOTDEV;;
     modify (λ s, s <| k_first := 0 |>);;
     r ← kexec (str "/init") [str "/init"];
     x ← get_proc p;
     store64 (p_trapframe x + TF_a0) (u64 r);;
     a0 ← load64 (p_trapframe x + TF_a0);
     if a0 =? u64 (-1) then panic "exec" else skip);;
  prepare_return;;
  x ← get_proc p;
  mret (u64 (TRAMPOLINE + (userret - trampoline)), MAKE_SATP (p_pagetable x)).

(** ** Boot *)

Definition timerinit : M unit :=
  x ← r_mie;
  w_mie (Z.lor x MIE_STIE);;
  x ← r_menvcfg;
  w_menvcfg (Z.lor x (Z.shiftl 1 63));;
  x ← r_mcounteren;
  w_mcounteren (Z.lor x 2);;
  t ← r_time;
  w_stimecmp (u64 (t + 1000000)).

(** [start] ends with [mret], which enters [main] in supervisor mode. *)
Definition start : M unit :=
  x ← r_mstatus;
  let x := Z.land x (u64 (Z.lnot MSTATUS_MPP_MASK)) in
  let x := Z.lor x MSTATUS_MPP_S in
  w_mstatus x;;
  w_mepc main_addr;;
  w_satp 0;;
  w_medeleg 0xffff;;
  w_mideleg 0xffff;;
  x ← r_sie;
  w_sie (Z.lor (Z.lor x SIE_SEIE) SIE_STIE);;
  w_pmpaddr0 0x3fffffffffffff;;
  w_pmpcfg0 0xf;;
  timerinit;;
  id ← r_mhartid;
  w_tp (i32 id).

(** [main] on the boot hart up to [started = 1], and on the others behind their
    wait for it. *)
Definition main_boot : M unit :=
  consoleinit;;
  printfinit;;
  printf [10] [];;
  printf (str "xv6 kernel is booting" ++ [10]) [];;
  printf [10] [];;
  kinit;;
  kvminit;;
  kvminithart;;
  procinit;;
  trapinit;;
  trapinithart;;
  plicinit;;
  plicinithart;;
  binit;;
  iinit;;
  fileinit;;
  virtio_disk_init;;
  userinit.
Definition main_other : M unit :=
  hart ← cpuid;
  printf (str "hart %d starting" ++ [10]) [PInt hart];;
  kvminithart;;
  trapinithart;;
  plicinithart.

(** [started] is the value a hart that is not the first reads; while it is 0 the hart waits for another
    one to change it.  [scheduler] runs for [rounds] rounds. *)
Definition main (started : Z) (rounds : nat) : M unit :=
  hart ← cpuid;
  (if hart =? 0 then main_boot else if started =? 0 then spin else main_other);;
  scheduler rounds.

End trap.
