(* ===== verification/User.v ===== *)
(** * User programs

    A user program is a tree of system calls: it computes on its own data
    until it traps into the kernel, and goes on with the answer.  The answer
    of a call is its return value and, for calls that fill a buffer, the bytes
    stored there.  [exec_user] runs a program against an environment that
    answers its calls. *)

From S2P Require Import Prelude.

Inductive ucall :=
| U_fork | U_wait | U_exec (path : list Z) (argv : list (list Z))
| U_open (path : list Z) (mode : Z) | U_mknod (path : list Z) (major minor : Z)
| U_close (fd : Z) | U_dup (fd : Z) | U_pipe | U_fstat (fd : Z)
| U_read (fd n : Z) | U_write (fd : Z) (buf : list Z)
| U_sbrk (n type : Z) | U_set_llm_advice (pid : Z)
| U_kill (pid : Z) | U_link (old new : list Z) | U_unlink (path : list Z) | U_mkdir (path : list Z)
| U_chdir (path : list Z) | U_pause (n : Z) | U_getpid.

Record resp := Resp { r_val : Z; r_buf : list Z }.

Inductive prog (A : Type) : Type :=
| Done (a : A)
| Call (c : ucall) (k : resp → prog A)
| Exit (status : Z)
| Wild          (* a write outside its array *)
| Tired.        (* a bounded loop ran out *)
Arguments Done {A} a.
Arguments Call {A} c k.
Arguments Exit {A} status.
Arguments Wild {A}.
Arguments Tired {A}.

#[export] Instance prog_ret : MRet prog := @Done.
#[export] Instance prog_bind : MBind prog := λ A B f,
  fix go p := match p with
  | Done a => f a
  | Call c k => Call c (λ r, go (k r))
  | Exit status => Exit status
  | Wild => Wild
  | Tired => Tired
  end.

Definition sys (c : ucall) : prog resp := Call c Done.
(** A call of which only the return value matters. *)
Definition sysv (c : ucall) : prog Z := r ← sys c; mret (r_val r).

Definition uwhen (b : bool) (p : prog unit) : prog unit := if b then p else mret tt.

Fixpoint ufor {A} (l : list A) (body : A → prog unit) : prog unit :=
  match l with
  | [] => mret tt
  | x :: l => body x;; ufor l body
  end.

Fixpoint uloop {X B} (fuel : nat) (body : X → prog (X + B)) (x : X) : prog B :=
  match fuel with
  | O => Tired
  | S fuel => r ← body x; match r with inl x' => uloop fuel body x' | inr b => mret b end
  end.

(** [a[i] = v] *)
Definition aset (i v : Z) (a : list Z) : prog (list Z) :=
  if (0 <=? i) && (i <? Z.of_nat (length a)) then mret (<[Z.to_nat i := v]> a) else Wild.
(** [a[i]] *)
Definition aget (i : Z) (a : list Z) : prog Z :=
  if 0 <=? i then match a !! Z.to_nat i with Some v => mret v | None => Wild end else Wild.

Lemma ubind_ret {A B} (a : A) (f : A → prog B) : (mret a ≫= f) = f a.
Proof. done. Qed.

(** ** Running against an environment *)

Inductive outcome (A : Type) :=
| O_done (a : A) | O_exit (status : Z) | O_wild | O_tired.
Arguments O_done {A} a.
Arguments O_exit {A} status.
Arguments O_wild {A}.
Arguments O_tired {A}.

Section exec.
Context {S : Type} (h : ucall → S → resp * S).

Fixpoint exec_user {A} (p : prog A) (st : S) : outcome A * S :=
  match p with
  | Done a => (O_done a, st)
  | Call c k => let '(r, st') := h c st in exec_user (k r) st'
  | Exit status => (O_exit status, st)
  | Wild => (O_wild, st)
  | Tired => (O_tired, st)
  end.

Lemma exec_bind {A B} (p : prog A) (f : A → prog B) st a st' :
  exec_user p st = (O_done a, st') → exec_user (p ≫= f) st = exec_user (f a) st'.
Proof.
  revert st. induction p as [b|c k IH| | |]; intros st Hp; simplify_eq/=; [done|].
  destruct (h c st) as [r st1]. by apply IH.
Qed.

Lemma exec_bind_exit {A B} (p : prog A) (f : A → prog B) st e st' :
  exec_user p st = (O_exit e, st') → exec_user (p ≫= f) st = (O_exit e, st').
Proof.
  revert st. induction p as [b|c k IH| | |]; intros st Hp; simplify_eq/=; [|done].
  destruct (h c st) as [r st1]. by apply IH.
Qed.

(** A loop body that leaves the environment in a known state. *)
Lemma exec_for {A} (l : list A) (body : A → prog unit) (f : A → S → S) st :
  (∀ x st, exec_user (body x) st = (O_done tt, f x st)) →
  exec_user (ufor l body) st = (O_done tt, foldl (λ st x, f x st) st l).
Proof.
  intros Hb. revert st. induction l as [|x l IH]; intros st; [done|]. cbn [ufor foldl].
  by rewrite (exec_bind _ _ _ _ _ (Hb x st)), IH.
Qed.

End exec.
