(* ===== verification/Ulib.v ===== *)
(** * The user library: user/ulib.c and user/printf.c

    Strings are lists of bytes; reading past the end of the list yields the
    terminating NUL.  Functions that move bytes take the array both pointers
    point into and indices. *)

From S2P Require Import Prelude User.

(** ** user/ulib.c *)

Definition ch (s : list Z) (i : nat) : Z := default 0 (s !! i).

(** The entry point: a [main] that returns is followed by [exit]. *)
Definition start (main : prog Z) : prog unit := r ← main; Exit r.

(** [strcpy(s, t)]: the bytes stored, the NUL included. *)
Fixpoint strcpy_bytes (t : list Z) : list Z :=
  match t with
  | [] => [0]
  | c :: t => if c =? 0 then [0] else c :: strcpy_bytes t
  end.
Definition strcpy (s t : list Z) : prog (list Z) :=
  if (length (strcpy_bytes t) <=? length s)%nat then mret (splice 0 (strcpy_bytes t) s) else Wild.

Fixpoint strcmp (p q : list Z) : Z :=
  match p with
  | [] => 0 - u8 (ch q 0)
  | c :: p' =>
      if truth c && (c =? ch q 0) then strcmp p' (tail q) else u8 c - u8 (ch q 0)
  end.

Fixpoint strlen_nat (s : list Z) : nat :=
  match s with
  | [] => 0
  | c :: s => if c =? 0 then 0 else S (strlen_nat s)
  end.
Definition strlen (s : list Z) : Z := u32 (Z.of_nat (strlen_nat s)).

Fixpoint memset_loop (n i : nat) (c : Z) (a : list Z) : list Z :=
  match n with
  | O => a
  | S n => memset_loop n (S i) c (<[i := u8 c]> a)
  end.
(** [memset(a, c, n)] on an array of at least [n] bytes. *)
Definition memset (a : list Z) (c n : Z) : prog (list Z) :=
  if u32 n <=? Z.of_nat (length a) then mret (memset_loop (Z.to_nat (u32 n)) 0 c a) else Wild.

(** [strchr(s, c)]: the index of the first [c], or [None] for null. *)
Fixpoint strchr (s : list Z) (c : Z) : option nat :=
  match s with
  | [] => None
  | x :: s => if x =? 0 then None else if x =? c then Some 0%nat else S <$> strchr s c
  end.

(** [gets(buf, max)] reads standard input a byte at a time. *)
Definition gets (buf : list Z) (max : Z) : prog (list Z) :=
  '(buf, i) ← uloop (S (Z.to_nat max))
    (λ '(buf, i),
      if i + 1 <? max then
        r ← sys (U_read 0 1);
        if r_val r <? 1 then mret (inr (buf, i)) else
        let c := ch (r_buf r) 0 in
        buf ← aset i c buf;
        if (c =? 10) || (c =? 13) then mret (inr (buf, i + 1)) else mret (inl (buf, i + 1))
      else mret (inr (buf, i))) (buf, 0);
  aset i 0 buf.

(** [stat(n, st)]: the status and the structure [fstat] filled. *)
Definition stat (n : list Z) : prog (Z * list Z) :=
  fd ← sysv (U_open n 0);
  if fd <? 0 then mret (-1, []) else
  r ← sys (U_fstat fd);
  sysv (U_close fd);;
  mret (r_val r, r_buf r).

Definition is_digit (c : Z) : bool := (chr "0" <=? c) && (c <=? chr "9").

Fixpoint atoi_loop (s : list Z) (n : Z) : Z :=
  match s with
  | [] => n
  | c :: s => if is_digit c then atoi_loop s (i32 (n * 10 + c - chr "0")) else n
  end.
Definition atoi (s : list Z) : Z := atoi_loop s 0.

(** [*dst++ = *src++] and [*--dst = *--src], [n] times. *)
Fixpoint copy_up (n dst src : nat) (a : list Z) : list Z :=
  match n with
  | O => a
  | S n => copy_up n (S dst) (S src) (<[dst := ch a src]> a)
  end.
Fixpoint copy_down (n dst src : nat) (a : list Z) : list Z :=
  match n with
  | O => a
  | S n => copy_down n dst src (<[(dst + n)%nat := ch a (src + n)%nat]> a)
  end.
(** [memmove(a + dst, a + src, n)] *)
Definition memmove (a : list Z) (dst src n : Z) : prog (list Z) :=
  if (Z.max dst src + n <=? Z.of_nat (length a)) && (0 <=? dst) && (0 <=? src) then
    mret (if dst <? src then copy_up (Z.to_nat n) (Z.to_nat dst) (Z.to_nat src) a
          else copy_down (Z.to_nat n) (Z.to_nat dst) (Z.to_nat src) a)
  else Wild.

Fixpoint memcmp_loop (n : nat) (p1 p2 : list Z) : Z :=
  match n with
  | O => 0
  | S n => if ch p1 0 =? ch p2 0 then memcmp_loop n (tail p1) (tail p2) else ch p1 0 - ch p2 0
  end.
Definition memcmp (s1 s2 : list Z) (n : Z) : Z := memcmp_loop (Z.to_nat (u32 n)) s1 s2.

Definition memcpy (a : list Z) (dst src n : Z) : prog (list Z) := memmove a dst src (i32 (u32 n)).

Definition sbrk (n : Z) : prog Z := sysv (U_sbrk n 1).
Definition sbrklazy (n : Z) : prog Z := sysv (U_sbrk n 2).

(** ** user/printf.c *)

Definition digits : list Z := str "0123456789ABCDEF".
Definition digit (d : Z) : Z := default 0 (digits !! Z.to_nat d).

Definition putc (fd c : Z) : prog unit := sysv (U_write fd [u8 c]);; mret tt.

(** The digits, least significant first; 64 rounds are enough for any base. *)
Fixpoint printint_digits (fuel : nat) (x base : Z) : list Z :=
  match fuel with
  | O => []
  | S fuel =>
      digit (x mod base) ::
      (if x / base =? 0 then [] else printint_digits fuel (x / base) base)
  end.

Definition printint_buf (xx base : Z) (sgn : bool) : list Z :=
  let neg := sgn && (xx <? 0) in
  let x := u64 (if neg : bool then - xx else xx) in
  printint_digits 64 x base ++ (if neg : bool then [chr "-"] else []).

Definition printint (fd xx base : Z) (sgn : bool) : prog unit :=
  ufor (rev (printint_buf xx base sgn)) (putc fd).

Fixpoint printptr_loop (n : nat) (fd x : Z) : prog unit :=
  match n with
  | O => mret tt
  | S n => putc fd (digit (Z.shiftr x 60));; printptr_loop n fd (u64 (Z.shiftl x 4))
  end.
Definition printptr (fd x : Z) : prog unit :=
  putc fd (chr "0");; putc fd (chr "x");; printptr_loop 16 fd x.

Inductive varg := VInt (z : Z) | VStr (s : option (list Z)).

Definition va_int (ap : list varg) : prog (Z * list varg) :=
  match ap with VInt z :: ap => mret (z, ap) | _ => Wild end.
Definition va_str (ap : list varg) : prog (option (list Z) * list varg) :=
  match ap with VStr s :: ap => mret (s, ap) | _ => Wild end.

(** The conversion whose first character [c0] is at the head of [fmt]; the
    result is the format after it and the remaining arguments. *)
Definition vprintf_conv (fd : Z) (fmt : list Z) (ap : list varg) : prog (list Z * list varg) :=
  let c0 := ch fmt 0 in
  let c1 := if truth c0 then ch fmt 1 else 0 in
  let c2 := if truth c1 then ch fmt 2 else 0 in
  let conv (skip : nat) (conv_arg : Z → Z) base sgn :=
    '(z, ap) ← va_int ap;
    printint fd (conv_arg z) base sgn;;
    mret (drop (S skip) fmt, ap) in
  if c0 =? chr "d" then conv 0%nat i32 10 true
  else if (c0 =? chr "l") && (c1 =? chr "d") then conv 1%nat i64 10 true
  else if (c0 =? chr "l") && (c1 =? chr "l") && (c2 =? chr "d") then conv 2%nat i64 10 true
  else if c0 =? chr "u" then conv 0%nat u32 10 false
  else if (c0 =? chr "l") && (c1 =? chr "u") then conv 1%nat i64 10 false
  else if (c0 =? chr "l") && (c1 =? chr "l") && (c2 =? chr "u") then conv 2%nat i64 10 false
  else if c0 =? chr "x" then conv 0%nat u32 16 false
  else if (c0 =? chr "l") && (c1 =? chr "x") then conv 1%nat i64 16 false
  else if (c0 =? chr "l") && (c1 =? chr "l") && (c2 =? chr "x") then conv 2%nat i64 16 false
  else if c0 =? chr "p" then
    ('(z, ap) ← va_int ap; printptr fd (u64 z);; mret (drop 1 fmt, ap))
  else if c0 =? chr "c" then
    ('(z, ap) ← va_int ap; putc fd (u32 z);; mret (drop 1 fmt, ap))
  else if c0 =? chr "s" then
    ('(s, ap) ← va_str ap;
     let s := default (str "(null)") s in
     ufor (take (strlen_nat s) s) (putc fd);;
     mret (drop 1 fmt, ap))
  else if c0 =? chr "%" then putc fd (chr "%");; mret (drop 1 fmt, ap)
  else putc fd (chr "%");; putc fd c0;; mret (drop 1 fmt, ap).

(** The loop over the format; [state] is set after a percent sign.  Every
    round consumes at least one character. *)
Definition vprintf (fd : Z) (fmt : list Z) (ap : list varg) : prog unit :=
  uloop (S (length fmt))
    (λ '(fmt, ap, state),
      let c0 := ch fmt 0 in
      if c0 =? 0 then mret (inr tt)
      else if negb state then
        if c0 =? chr "%" then mret (inl (tail fmt, ap, true))
        else putc fd c0;; mret (inl (tail fmt, ap, false))
      else '(fmt, ap) ← vprintf_conv fd fmt ap; mret (inl (fmt, ap, false)))
    (fmt, ap, false).

Definition fprintf (fd : Z) (fmt : list Z) (ap : list varg) : prog unit := vprintf fd fmt ap.
Definition printf (fmt : list Z) (ap : list varg) : prog unit := vprintf 1 fmt ap.
