(* ===== verification/UlibSpec.v ===== *)
(** * Programs that end whatever the kernel answers

    [always Q p] holds of a program that, for all answers to its calls, comes
    to its end with a value in [Q]: it neither leaves an array, nor runs out of
    rounds, nor exits.  [printf] is such a program when its arguments match the
    format. *)

From S2P Require Import Prelude User Ulib.

Fixpoint always {A} (Q : A → Prop) (p : prog A) : Prop :=
  match p with
  | Done a => Q a
  | Call c k => ∀ r, always Q (k r)
  | Exit _ | Wild | Tired => False
  end.

Lemma always_mono {A} (P Q : A → Prop) (p : prog A) : (∀ a, P a → Q a) → always P p → always Q p.
Proof. intros HPQ. induction p; simpl; auto. Qed.

Lemma always_bind {A B} (P : A → Prop) (Q : B → Prop) (p : prog A) (f : A → prog B) :
  always P p → (∀ a, P a → always Q (f a)) → always Q (p ≫= f).
Proof. intros Hp Hf. induction p; simpl in *; auto. Qed.

Lemma always_exec {A S} (env : ucall → S → resp * S) (Q : A → Prop) (p : prog A) st :
  always Q p → ∃ a st', exec_user env p st = (O_done a, st') ∧ Q a.
Proof.
  revert st. induction p as [a|c k IH| | |]; intros st Hp; simpl in *; try done; [by eexists _, _|].
  destruct (env c st) as [r st']. by apply IH.
Qed.

Lemma always_sysv c : always (λ _, True) (sysv c).
Proof. by intros r. Qed.

Lemma always_putc fd c : always (λ _, True) (putc fd c).
Proof. by intros r. Qed.

Lemma always_for {A} (l : list A) (body : A → prog unit) :
  (∀ x, x ∈ l → always (λ _, True) (body x)) → always (λ _, True) (ufor l body).
Proof.
  induction l as [|x l IH]; intros Hb; [done|]. cbn [ufor].
  eapply always_bind; [apply Hb; by left|]. intros _ _. apply IH. intros y Hy. apply Hb. by right.
Qed.

Lemma always_loop {X B} n (body : X → prog (X + B)) x Q :
  always (λ r, match r with inl x' => always Q (uloop n body x') | inr b => Q b end) (body x) →
  always Q (uloop (S n) body x).
Proof. intros Hb. cbn [uloop]. eapply always_bind; [exact Hb|]. by intros [x'|b]. Qed.

Lemma always_uwhen b p : always (λ _, True) p → always (λ _, True) (uwhen b p).
Proof. by destruct b. Qed.

(** ** Formats and their arguments *)

Inductive conversion := C_int | C_str | C_none.

(** The argument a conversion takes and the characters it has after its
    first. *)
Definition conversion_of (fmt : list Z) : conversion * nat :=
  let c0 := ch fmt 0 in
  let c1 := if truth c0 then ch fmt 1 else 0 in
  let c2 := if truth c1 then ch fmt 2 else 0 in
  if c0 =? chr "d" then (C_int, 0%nat)
  else if (c0 =? chr "l") && (c1 =? chr "d") then (C_int, 1%nat)
  else if (c0 =? chr "l") && (c1 =? chr "l") && (c2 =? chr "d") then (C_int, 2%nat)
  else if c0 =? chr "u" then (C_int, 0%nat)
  else if (c0 =? chr "l") && (c1 =? chr "u") then (C_int, 1%nat)
  else if (c0 =? chr "l") && (c1 =? chr "l") && (c2 =? chr "u") then (C_int, 2%nat)
  else if c0 =? chr "x" then (C_int, 0%nat)
  else if (c0 =? chr "l") && (c1 =? chr "x") then (C_int, 1%nat)
  else if (c0 =? chr "l") && (c1 =? chr "l") && (c2 =? chr "x") then (C_int, 2%nat)
  else if (c0 =? chr "p") || (c0 =? chr "c") then (C_int, 0%nat)
  else if c0 =? chr "s" then (C_str, 0%nat)
  else (C_none, 0%nat).

(** The arguments match the format, which is read from a plain character or,
    when [state] is set, from a conversion. *)
Fixpoint matches (fuel : nat) (fmt : list Z) (ap : list varg) (state : bool) : bool :=
  match fuel with
  | O => false
  | S fuel =>
      let c0 := ch fmt 0 in
      if c0 =? 0 then true
      else if negb state then matches fuel (tail fmt) ap (c0 =? chr "%")
      else
        let '(k, n) := conversion_of fmt in
        match k, ap with
        | C_int, VInt _ :: ap => matches fuel (drop (S n) fmt) ap false
        | C_str, VStr _ :: ap => matches fuel (drop (S n) fmt) ap false
        | C_none, _ => matches fuel (drop (S n) fmt) ap false
        | _, _ => false
        end
  end.

Lemma always_printint fd xx base sgn : always (λ _, True) (printint fd xx base sgn).
Proof. apply always_for. intros x _. apply always_putc. Qed.

Lemma always_printptr fd x : always (λ _, True) (printptr fd x).
Proof.
  unfold printptr. do 2 (eapply always_bind; [apply always_putc|intros _ _]).
  generalize 16%nat as n, x as y. induction n as [|n IH]; intros y; [done|].
  cbn [printptr_loop]. eapply always_bind; [apply always_putc|]. intros _ _. apply IH.
Qed.

(** A conversion with its argument takes it and goes on behind its last
    character. *)
Lemma conv_ends fd fmt ap ap' n k :
  conversion_of fmt = (k, n) →
  match k with
  | C_int => ∃ z, ap = VInt z :: ap'
  | C_str => ∃ s, ap = VStr s :: ap'
  | C_none => ap = ap'
  end →
  always (eq (drop (S n) fmt, ap')) (vprintf_conv fd fmt ap).
Proof.
  unfold conversion_of, vprintf_conv. cbv zeta.
  repeat (match goal with |- context [if ?b then _ else _] => destruct b eqn:? end);
    intros E; injection E as <- <-; try (intros [z ->]); try (intros ->);
    cbn [va_int va_str]; rewrite ?ubind_ret; simplify_eq/=;
    try (by eapply always_bind; [apply always_printint|]); try done.
  eapply always_bind; [apply always_for; intros x _; apply always_putc|done].
Qed.

(** The loop of [vprintf], with enough rounds. *)
Lemma vprintf_loop_ends fd n fmt ap state :
  matches n fmt ap state = true →
  always (λ _, True) (uloop n (λ '(fmt, ap, state),
    let c0 := ch fmt 0 in
    if c0 =? 0 then mret (inr tt)
    else if negb state then
      if c0 =? chr "%" then mret (inl (tail fmt, ap, true))
      else putc fd c0;; mret (inl (tail fmt, ap, false))
    else '(fmt, ap) ← vprintf_conv fd fmt ap; mret (inl (fmt, ap, false))) (fmt, ap, state)).
Proof.
  revert fmt ap state. induction n as [|n IH]; intros fmt ap state Hm; [done|].
  apply always_loop. cbn [matches] in Hm. cbv zeta in *.
  destruct (ch fmt 0 =? 0); [done|]. destruct state; cbn [negb] in *.
  - destruct (conversion_of fmt) as [k j] eqn:Ek.
    assert (∃ ap', match k with
      | C_int => ∃ z, ap = VInt z :: ap' | C_str => ∃ s, ap = VStr s :: ap' | C_none => ap = ap' end ∧
      matches n (drop (S j) fmt) ap' false = true) as (ap' & Hap & Hm').
    { destruct k, ap as [|[z|s] ap]; try done; eexists; split; try done; by eexists. }
    eapply always_bind; [by apply (conv_ends fd _ _ ap' _ _ Ek)|]. intros ? <-. by apply IH.
  - destruct (ch fmt 0 =? chr "%").
    + by apply IH.
    + eapply always_bind; [apply always_putc|]. intros _ _. by apply IH.
Qed.

(** [printf] and [fprintf] on a format with the arguments it asks for end,
    whatever the kernel answers to their writes: no conversion reads an argument
    that is not there or of the wrong kind, and every round of the loop over the
    format makes progress. *)
Theorem fprintf_ends {S} (env : ucall → S → resp * S) fd fmt ap st :
  matches (Datatypes.S (length fmt)) fmt ap false = true →
  ∃ st', exec_user env (fprintf fd fmt ap) st = (O_done tt, st').
Proof.
  intros Hm. destruct (always_exec env (λ _, True) (fprintf fd fmt ap) st) as ([] & st' & He & _).
  - by apply vprintf_loop_ends.
  - by exists st'.
Qed.

Lemma always_fprintf fd fmt ap :
  matches (S (length fmt)) fmt ap false = true → always (λ _, True) (fprintf fd fmt ap).
Proof. apply vprintf_loop_ends. Qed.

Lemma always_printf fmt ap :
  matches (S (length fmt)) fmt ap false = true → always (λ _, True) (printf fmt ap).
Proof. apply vprintf_loop_ends. Qed.

Lemma fprintf_ends_witness :
  ∃ st', exec_user (λ _ (n : nat), (Resp (-1) [], S n)) (fprintf 2 (str "%s: %d of %lu%%") [VStr None; VInt (-7); VInt 10]) 0%nat = (O_done tt, st').
Proof. apply (fprintf_ends _ 2 (str "%s: %d of %lu%%")). reflexivity. Defined.
