(* ===== verification/Umalloc.v ===== *)
(** * The user memory allocator (user/umalloc.c)

    Free memory is a circular list of blocks, each led by a header: the
    address of the next block and a size in units of one header.  The static
    header [base] is a block of size 0 that is always on the list.

    Headers live in the memory the program also uses, so the heap keeps the two
    fields of a header apart: a block that is handed out keeps only the size
    that [malloc] stored.  A read of a field that was never written ends the
    program in [Wild].  Pointers are byte addresses ([p + n] in the C code is
    [p + 16 * n] here), sizes are 32-bit. *)

From S2P Require Import Prelude User Ulib.

(** [union header] *)
Definition HDR : Z := 16.

(** The static variables and the headers in memory. *)
Record heap := Heap { h_ptr : gmap Z Z; h_size : gmap Z Z; freep : Z }.

Definition set_ptr (p v : Z) (h : heap) : heap := Heap (<[p := v]> (h_ptr h)) (h_size h) (freep h).
Definition set_size (p v : Z) (h : heap) : heap := Heap (h_ptr h) (<[p := v]> (h_size h)) (freep h).
Definition set_freep (v : Z) (h : heap) : heap := Heap (h_ptr h) (h_size h) v.

(** [p->s.ptr] and [p->s.size] *)
Definition ptr_of (h : heap) (p : Z) : prog Z :=
  match h_ptr h !! p with Some q => mret q | None => Wild end.
Definition size_of (h : heap) (p : Z) : prog Z :=
  match h_size h !! p with Some s => mret s | None => Wild end.

(** The loop of [free] that looks for the block before [bp]. *)
Definition free_find (bp : Z) (h : heap) (p : Z) : prog (Z + Z) :=
  q ← ptr_of h p;
  if (p <? bp) && (bp <? q) then mret (inr p)
  else if (q <=? p) && ((p <? bp) || (bp <? q)) then mret (inr p)
  else mret (inl q).

(** [bp] joined with the block after it, or linked in front of it. *)
Definition free_upper (bp p : Z) (h : heap) : prog heap :=
  sz ← size_of h bp;
  q ← ptr_of h p;
  if bp + HDR * sz =? q then
    qsz ← size_of h q;
    qq ← ptr_of h q;
    mret (set_ptr bp qq (set_size bp (u32 (sz + qsz)) h))
  else mret (set_ptr bp q h).

(** [bp] joined with the block before it, or linked behind it. *)
Definition free_lower (bp p : Z) (h : heap) : prog heap :=
  psz ← size_of h p;
  if p + HDR * psz =? bp then
    bsz ← size_of h bp;
    bnext ← ptr_of h bp;
    mret (set_ptr p bnext (set_size p (u32 (psz + bsz)) h))
  else mret (set_ptr p bp h).

Definition free (fuel : nat) (ap : Z) (h : heap) : prog heap :=
  let bp := ap - HDR in
  p ← uloop fuel (free_find bp h) (freep h);
  h ← free_upper bp p h;
  h ← free_lower bp p h;
  mret (set_freep p h).

(** The size in bytes is computed in 64 bits and passed as an [int]. *)
Definition morecore (fuel : nat) (nu : Z) (h : heap) : prog (heap * Z) :=
  let nu := if nu <? 4096 then 4096 else nu in
  p ← sbrk (i32 (nu * HDR));
  if p =? -1 then mret (h, 0) else
  let h := set_size p nu h in
  h ← free fuel (p + HDR) h;
  mret (h, freep h).

(** [nunits]: 64-bit arithmetic, because of [sizeof], stored in a [uint]. *)
Definition units_for (nbytes : Z) : Z := u32 (u64 (nbytes + HDR - 1) / HDR + 1).

(** A block that is large enough: all of it, or its last [nunits] units. *)
Definition malloc_take (nunits prevp p psz : Z) (h : heap) : prog (heap * Z) :=
  if psz =? nunits then
    q ← ptr_of h p;
    mret (set_freep prevp (set_ptr prevp q h), p + HDR)
  else
    let rest := u32 (psz - nunits) in
    let b := p + HDR * rest in
    mret (set_freep prevp (set_size b nunits (set_size p rest h)), b + HDR).

(** One round of the loop of [malloc]; the state is the heap, [prevp] and
    [p]. *)
Definition malloc_round (fuel : nat) (nunits : Z) (st : heap * Z * Z) : prog (heap * Z * Z + heap * Z) :=
  let '(h, prevp, p) := st in
  psz ← size_of h p;
  if nunits <=? psz then r ← malloc_take nunits prevp p psz h; mret (inr r) else
  if p =? freep h then
    '(h, p) ← morecore fuel nunits h;
    if p =? 0 then mret (inr (h, 0)) else
    q ← ptr_of h p;
    mret (inl (h, p, q))
  else
    q ← ptr_of h p;
    mret (inl (h, p, q)).

(** The first call makes [base] a list of one block. *)
Definition malloc_init (base : Z) (h : heap) : heap :=
  if freep h =? 0 then set_size base 0 (set_freep base (set_ptr base base h)) else h.

(** [malloc], with the address of the static [base]; [fuel] bounds the rounds
    of each loop. *)
Definition malloc (fuel : nat) (base nbytes : Z) (h : heap) : prog (heap * Z) :=
  let nunits := units_for nbytes in
  let h := malloc_init base h in
  let prevp := freep h in
  p ← ptr_of h prevp;
  uloop fuel (malloc_round fuel nunits) (h, prevp, p).
