(* ===== verification/UmallocSpec.v ===== *)
(** * The user memory allocator: what [malloc] and [free] promise

    The free list is seen as a list of (address, units) in address order that
    starts at [base]; no two of its blocks touch.  Such a list is determined by
    the bytes it covers ([blocks_ext]), so [free] is specified by the bytes it
    adds and [malloc] by the bytes it takes. *)

From Stdlib Require Import Sorted.
From S2P Require Import Prelude User Ulib Umalloc.

(** ** Lists of blocks *)

Definition block := (Z * Z)%type.

(** The bytes of a block and of a list of blocks. *)
Definition covers (b : block) (x : Z) : Prop := b.1 ≤ x < b.1 + HDR * b.2.
Definition covered (l : list block) (x : Z) : Prop := ∃ b, b ∈ l ∧ covers b x.

(** In address order from [lo] on, none empty, no two touching. *)
Fixpoint ordered (lo : Z) (l : list block) : Prop :=
  match l with
  | [] => True
  | (a, s) :: l => lo < a ∧ 0 < s ∧ ordered (a + HDR * s) l
  end.

(** Each block below [hi]. *)
Definition below (hi : Z) (l : list block) : Prop := Forall (λ b : block, b.1 + HDR * b.2 ≤ hi) l.

Lemma covered_nil x : ¬ covered [] x.
Proof. intros (b & Hb & _). by apply elem_of_nil in Hb. Qed.

Lemma covered_cons b l x : covered (b :: l) x ↔ covers b x ∨ covered l x.
Proof. unfold covered. set_solver. Qed.

Lemma covered_app l1 l2 x : covered (l1 ++ l2) x ↔ covered l1 x ∨ covered l2 x.
Proof. unfold covered. set_solver. Qed.

Lemma ordered_weaken lo lo' l : lo' ≤ lo → ordered lo l → ordered lo' l.
Proof. destruct l as [|[a s] l]; simpl; [done|]. intros ? (? & ? & ?). split_and!; [lia|done..]. Qed.

Lemma ordered_app lo l1 b l2 :
  ordered lo (l1 ++ b :: l2) ↔ ordered lo l1 ∧ Forall (λ c : block, c.1 + HDR * c.2 < b.1) l1 ∧
    lo < b.1 ∧ 0 < b.2 ∧ ordered (b.1 + HDR * b.2) l2.
Proof.
  revert lo. induction l1 as [|[a s] l1 IH]; intros lo; simpl.
  - destruct b as [a s]; simpl. split; [intros (? & ? & ?)|intros (? & ? & ? & ? & ?)]; by split_and!.
  - rewrite IH, list.Forall_cons. unfold HDR. simpl. split.
    + intros (? & ? & ? & ? & ? & ? & ?). split_and!; try done; lia.
    + intros ((? & ? & ?) & (? & ?) & ? & ? & ?). split_and!; done.
Qed.

Lemma ordered_covered lo l x : ordered lo l → covered l x → lo < x.
Proof.
  revert lo. induction l as [|[a s] l IH]; intros lo; simpl; [by intros _ []%covered_nil|].
  intros (Ha & Hs & Ho) [Hc|Hc]%covered_cons.
  - unfold covers in Hc; simpl in Hc. lia.
  - apply IH in Ho; [|done]. unfold HDR in Ho. lia.
Qed.

(** The end of a covered run. *)
Lemma ordered_ends lo a s l :
  ordered lo ((a, s) :: l) → ¬ covered ((a, s) :: l) (a + HDR * s).
Proof.
  intros (Ha & Hs & Ho) [Hc|Hc]%covered_cons.
  - unfold covers in Hc; simpl in Hc. lia.
  - apply (ordered_covered _ _ _ Ho) in Hc. lia.
Qed.

Lemma ordered_head lo a s l : ordered lo ((a, s) :: l) → covered ((a, s) :: l) a.
Proof. intros (? & ? & ?). apply covered_cons. left. unfold covers, HDR; simpl. lia. Qed.

Lemma covered_ge lo a s l x : ordered lo ((a, s) :: l) → covered ((a, s) :: l) x → a ≤ x.
Proof.
  intros (Ha & Hs & Ho) [Hc|Hc]%covered_cons.
  - unfold covers in Hc; simpl in Hc. lia.
  - apply (ordered_covered _ _ _ Ho) in Hc. unfold HDR in Hc. lia.
Qed.

(** A list without touching blocks is determined by its bytes. *)
Lemma blocks_ext lo l lo' l' :
  ordered lo l → ordered lo' l' → (∀ x, covered l x ↔ covered l' x) → l = l'.
Proof.
  revert lo lo' l'. induction l as [|[a s] l IH]; intros lo lo' l' Ho Ho' Hx.
  { destruct l' as [|[a' s'] l']; [done|]. by apply ordered_head, Hx, covered_nil in Ho'. }
  destruct l' as [|[a' s'] l']; [by apply ordered_head, Hx, covered_nil in Ho|].
  assert (a = a') as <-.
  { pose proof (covered_ge _ _ _ _ _ Ho' (proj1 (Hx a) (ordered_head _ _ _ _ Ho))).
    pose proof (covered_ge _ _ _ _ _ Ho (proj2 (Hx a') (ordered_head _ _ _ _ Ho'))). lia. }
  destruct Ho as (Ha & Hs & Ho), Ho' as (Ha' & Hs' & Ho').
  assert (s = s') as <-.
  { destruct (Z.lt_trichotomy s s') as [Hlt|[?|Hlt]]; [exfalso|done|exfalso].
    - apply (ordered_ends lo a s l); [by split_and!|]. apply Hx, covered_cons. left.
      unfold covers, HDR; simpl. lia.
    - apply (ordered_ends lo' a s' l'); [by split_and!|]. apply Hx, covered_cons. left.
      unfold covers, HDR; simpl. lia. }
  f_equal. apply (IH _ _ _ Ho Ho'). intros x. specialize (Hx x).
  rewrite !covered_cons in Hx. split; intros Hc.
  - pose proof (ordered_covered _ _ _ Ho Hc). unfold covers in Hx; simpl in Hx.
    destruct Hx as [[?|?] _]; [by right|lia|done].
  - pose proof (ordered_covered _ _ _ Ho' Hc). unfold covers in Hx; simpl in Hx.
    destruct Hx as [_ [?|?]]; [by right|lia|done].
Qed.

(** ** The list in memory *)

(** The blocks [l] are linked from [p] to [q]. *)
Fixpoint lseg (h : heap) (p : Z) (l : list block) (q : Z) : Prop :=
  match l with
  | [] => p = q
  | (a, s) :: l => a = p ∧ h_size h !! a = Some s ∧ ∃ n, h_ptr h !! a = Some n ∧ lseg h n l q
  end.

Lemma lseg_app h p l1 l2 q : lseg h p (l1 ++ l2) q ↔ ∃ m, lseg h p l1 m ∧ lseg h m l2 q.
Proof.
  revert p. induction l1 as [|[a s] l1 IH]; intros p; simpl.
  - split; [by exists p|by intros (? & <- & ?)].
  - split.
    + intros (-> & ? & n & ? & (m & ? & ?)%IH). naive_solver.
    + intros (m & (-> & ? & n & ? & ?) & ?). split_and!; [done..|]. exists n. split; [done|].
      apply IH. by exists m.
Qed.

Lemma lseg_frame h h' p l q :
  (∀ b, b ∈ l → h_ptr h' !! b.1 = h_ptr h !! b.1 ∧ h_size h' !! b.1 = h_size h !! b.1) →
  lseg h p l q → lseg h' p l q.
Proof.
  revert p. induction l as [|[a s] l IH]; intros p Hf; simpl; [done|].
  intros (-> & Hs & n & Hn & Hl). destruct (Hf (p, s)) as [Hp' Hs']; [by left|]. simpl in *.
  rewrite Hs', Hp'. split_and!; [done..|]. exists n. split; [done|].
  apply IH; [|done]. intros b Hb. apply Hf. by right.
Qed.

Lemma lseg_head h p b l q : lseg h p (b :: l) q → b.1 = p.
Proof. destruct b. by intros [? _]. Qed.

(** The address a segment starts with. *)
Lemma lseg_start h p l q : lseg h p l q → p ∈ q :: l.*1.
Proof. destruct l as [|b l]; simpl; [intros ->|intros <-%lseg_head]; set_solver. Qed.

Abbreviation ascending := (StronglySorted (λ b c : block, b.1 < c.1)).

Lemma ordered_ascending lo l : ordered lo l → ascending l ∧ Forall (λ b : block, lo < b.1) l.
Proof.
  revert lo. induction l as [|[a s] l IH]; intros lo; simpl; [by repeat constructor|].
  intros (Ha & Hs & [Ho Hf]%IH). unfold HDR in Hf. split; constructor; try done.
  - eapply list.Forall_impl; [exact Hf|]. simpl. lia.
  - eapply list.Forall_impl; [exact Hf|]. simpl. lia.
Qed.

(** The place of an address in a list of blocks. *)
Lemma ascending_split bp p l :
  p.1 < bp → Forall (λ b : block, b.1 ≠ bp) l → ascending (p :: l) →
  ∃ l1 b l2, p :: l = l1 ++ b :: l2 ∧ b.1 < bp ∧ Forall (λ c : block, bp < c.1) l2.
Proof.
  revert p. induction l as [|c l IH]; intros p Hp Hne Hs; [by exists [], p, []|].
  apply list.Forall_cons in Hne as [Hc Hne]. apply StronglySorted_inv in Hs as [Hs Hf].
  destruct (decide (c.1 < bp)) as [Hlt|Hge].
  - destruct (IH c Hlt Hne Hs) as (l1 & b & l2 & E & ? & ?). exists (p :: l1), b, l2.
    split_and!; [simpl; by f_equal|done..].
  - exists [], p, (c :: l). split_and!; [done..|]. constructor; [lia|].
    apply StronglySorted_inv in Hs as [_ Hs]. eapply list.Forall_impl; [exact Hs|]. simpl. lia.
Qed.

Lemma ascending_app l1 b l2 :
  ascending (l1 ++ b :: l2) →
  Forall (λ c : block, c.1 < b.1) l1 ∧ Forall (λ c : block, b.1 < c.1) l2 ∧ ascending (l1 ++ [b]) ∧ ascending l2.
Proof.
  induction l1 as [|c l1 IH]; simpl; intros [Hs Hf]%StronglySorted_inv.
  - split_and!; [constructor|done| |done]. repeat constructor.
  - destruct (IH Hs) as (? & ? & ? & ?). apply Forall_app in Hf as [Hf1 [Hb Hf2]%list.Forall_cons].
    split_and!; [by constructor|done| |done]. constructor; [done|].
    apply Forall_app. split; [done|]. by repeat constructor.
Qed.

Lemma ascending_suffix u v : ascending (u ++ v) → ascending v.
Proof. induction u as [|c u IH]; [done|]. by intros [? _]%StronglySorted_inv; apply IH. Qed.

(** ** The loop of [free] *)

#[local] Arguments uloop : simpl never.

Section exec.
Context {S : Type} (env : ucall → S → resp * S).

Lemma exec_loop {X B} n (body : X → prog (X + B)) x st r st' :
  exec_user env (body x) st = (O_done r, st') →
  exec_user env (uloop (Datatypes.S n) body x) st =
  match r with inl x' => exec_user env (uloop n body x') st' | inr b => (O_done b, st') end.
Proof.
  intros Hb. change (uloop (Datatypes.S n) body x) with
    (body x ≫= λ r, match r with inl x' => uloop n body x' | inr b => mret b end).
  rewrite (exec_bind _ _ _ _ _ _ Hb). by destruct r.
Qed.

Lemma find_step bp h p q st :
  h_ptr h !! p = Some q →
  exec_user env (free_find bp h p) st =
  (O_done (if decide (p < bp ∧ (bp < q ∨ q ≤ p) ∨ q ≤ p ∧ bp < q) then inr p else inl q), st).
Proof.
  intros Hq. unfold free_find, ptr_of. rewrite Hq, ubind_ret.
  destruct (Z.ltb_spec p bp), (Z.ltb_spec bp q), (Z.leb_spec q p), decide; simpl; try done; exfalso; lia.
Qed.

Lemma find_forward bp h e l p b r k st :
  ascending (l ++ [b]) → lseg h p (l ++ b :: r) e → b.1 < bp →
  (∀ n, h_ptr h !! b.1 = Some n → bp < n ∨ n ≤ b.1) →
  exec_user env (uloop (length l + Datatypes.S k) (free_find bp h) p) st = (O_done b.1, st).
Proof.
  intros Hs Hl Hb Hn. revert p Hl. induction l as [|[c sc] l IH]; intros p Hl; simpl in *.
  - destruct b as [a s]. destruct Hl as (-> & Hsz & n & Hptr & Hl). simpl in *.
    rewrite (exec_loop _ _ _ _ _ _ (find_step bp h p n st Hptr)).
    case_decide as Hd; [done|]. specialize (Hn _ Hptr). lia.
  - destruct Hl as (-> & Hsz & n & Hptr & Hl). apply StronglySorted_inv in Hs as [Hs Hf].
    rewrite (exec_loop _ _ _ _ _ _ (find_step bp h p n st Hptr)).
    assert (p < n ∧ n < bp) as [Hpn Hnb].
    { destruct l as [|d l]; [apply lseg_head in Hl as <-|].
      - apply list.Forall_cons in Hf as [? _]. simpl in *. lia.
      - apply lseg_head in Hl as <-. apply list.Forall_cons in Hf as [? _]. simpl in *.
        apply StronglySorted_inv in Hs as [_ [_ [? _]%list.Forall_cons]%Forall_app]. lia. }
    rewrite decide_False by lia. by apply IH.
Qed.

Lemma find_wrap bp h e r p k st :
  ascending r → Forall (λ c : block, bp < c.1) r → lseg h p r e → e < bp →
  exec_user env (uloop (length r + k) (free_find bp h) p) st = exec_user env (uloop k (free_find bp h) e) st.
Proof.
  intros Hs Hf Hl He. revert p Hl. induction r as [|[c sc] r IH]; intros p Hl; simpl in *; [by subst|].
  destruct Hl as (-> & Hsz & n & Hptr & Hl).
  apply StronglySorted_inv in Hs as [Hs Hc]. apply list.Forall_cons in Hf as [Hp Hf]. simpl in *.
  rewrite (exec_loop _ _ _ _ _ _ (find_step bp h p n st Hptr)).
  destruct r as [|d r].
  - simpl in Hl. subst. rewrite decide_False by lia. done.
  - pose proof (lseg_head _ _ _ _ _ Hl). apply list.Forall_cons in Hc as [? _]. simpl in *.
    rewrite decide_False by lia. by apply IH.
Qed.

(** The loop finds the block before [bp], wherever it starts. *)
Lemma find_exec bp base h l1 b l2 fuel st :
  lseg h base (l1 ++ b :: l2) base → ascending (l1 ++ b :: l2) → base ≤ b.1 → b.1 < bp →
  Forall (λ c : block, bp < c.1) l2 → freep h ∈ (l1 ++ b :: l2).*1 →
  (2 * length (l1 ++ b :: l2) ≤ fuel)%nat →
  exec_user env (uloop fuel (free_find bp h) (freep h)) st = (O_done b.1, st).
Proof.
  intros Hl Hs Hbase Hb Hl2 Hin Hfuel.
  destruct (ascending_app _ _ _ Hs) as (Ha1 & Ha2 & Hs1 & Hs2). rewrite length_app in Hfuel. simpl in Hfuel.
  assert (∀ n, h_ptr h !! b.1 = Some n → bp < n ∨ n ≤ b.1) as Hnext.
  { intros n Hn. apply lseg_app in Hl as (m & _ & Hl). destruct b as [a s]. simpl in *.
    destruct Hl as (-> & _ & n' & Hn' & Hl). simplify_eq.
    destruct l2 as [|c l2]; [simpl in Hl; subst; by right|].
    apply lseg_head in Hl as <-. apply list.Forall_cons in Hl2 as [? _]. by left. }
  rewrite fmap_app in Hin. apply elem_of_app in Hin as [Hin|Hin]; simpl in Hin.
  { apply list_elem_of_fmap in Hin as (f & Ef & (u & v & ->)%list_elem_of_split).
    rewrite <-app_assoc in Hl. apply lseg_app in Hl as (m & _ & Hl). simpl in Hl.
    rewrite Ef. rewrite <-(lseg_head _ _ _ _ _ Hl) in Hl. rewrite <-app_assoc in Hs1.
    apply ascending_suffix in Hs1. rewrite length_app in Hfuel. simpl in Hfuel.
    replace fuel with (length (f :: v) + Datatypes.S (fuel - length v - 2))%nat by (simpl; lia).
    by apply (find_forward _ _ base _ _ b l2). }
  apply elem_of_cons in Hin as [Hin|Hin].
  { apply lseg_app in Hl as (m & _ & Hl). rewrite Hin. rewrite <-(lseg_head _ _ _ _ _ Hl) in Hl.
    replace fuel with (length (@nil block) + Datatypes.S (fuel - 1))%nat by (simpl; lia).
    apply (find_forward _ _ base _ _ b l2); [repeat constructor|done..]. }
  apply list_elem_of_fmap in Hin as (f & Ef & (u & v & ->)%list_elem_of_split).
  pose proof Hl as Hall. apply lseg_app in Hl as (m & _ & Hl). destruct b as [a s]. simpl in *.
  destruct Hl as (_ & _ & n & _ & (m' & _ & Hl)%lseg_app).
  rewrite Ef. rewrite <-(lseg_head _ _ _ _ _ Hl) in Hl.
  apply ascending_suffix in Hs2. apply Forall_app in Hl2 as [_ Hl2].
  rewrite length_app in Hfuel. simpl in Hfuel.
  replace fuel with (length (f :: v) + (fuel - length (f :: v)))%nat by (simpl; lia).
  rewrite (find_wrap _ _ base) by (done || lia).
  replace (fuel - length (f :: v))%nat
    with (length l1 + Datatypes.S (fuel - length (f :: v) - length l1 - 1))%nat by (simpl; lia).
  by apply (find_forward _ _ base _ _ (a, s) (u ++ f :: v)).
Qed.

(** ** Joining a block with its neighbours *)

Lemma covers_join a n m x :
  0 ≤ n → 0 ≤ m → covers (a, n + m) x ↔ covers (a, n) x ∨ covers (a + HDR * n, m) x.
Proof. unfold covers, HDR; simpl. lia. Qed.

Lemma upper_exec bp p n q hi base l2 h st :
  h_size h !! bp = Some n → h_ptr h !! p = Some q → lseg h q l2 base → base < bp → 0 < n →
  ordered (bp + HDR * n - 1) l2 → 0 < bp → (∀ x, covered l2 x → x < hi) → hi < 2 ^ 36 →
  ∃ n' q' l2',
    exec_user env (free_upper bp p h) st =
      (O_done (Heap (<[bp := q']> (h_ptr h)) (<[bp := n']> (h_size h)) (freep h)), st) ∧
    lseg h q' l2' base ∧ ordered (bp + HDR * n') l2' ∧ 0 < n' ∧ l2' `suffix_of` l2 ∧
    (∀ x, covers (bp, n') x ∨ covered l2' x ↔ covers (bp, n) x ∨ covered l2 x).
Proof.
  intros Hbp Hp Hl Hbase Hn Ho Hpos Hhi Hmax. unfold free_upper, size_of, ptr_of.
  rewrite Hbp, ubind_ret, Hp, ubind_ret.
  destruct (Z.eqb_spec (bp + HDR * n) q) as [E|E].
  - destruct l2 as [|[a s] l2]; simpl in Hl; [unfold HDR in *; lia|].
    destruct Hl as (-> & Hs & n2 & Hn2 & Hl). destruct Ho as (Ha & Hs0 & Ho).
    rewrite Hs, ubind_ret, Hn2, ubind_ret.
    assert (u32 (n + s) = n + s) as ->.
    { apply u32_small. specialize (Hhi (q + HDR * s - 1)). rewrite covered_cons in Hhi.
      unfold covers, HDR in *; simpl in *. lia. }
    exists (n + s), n2, l2. split_and!; [done|done| |lia|by exists [(q, s)]|].
    + eapply ordered_weaken; [|done]. unfold HDR in *. lia.
    + intros x. rewrite covered_cons, covers_join, E by lia. tauto.
  - exists n, q, l2. split_and!; [|done| |done|done|done].
    + cbn. unfold set_ptr. by rewrite (insert_id _ _ _ Hbp).
    + destruct l2 as [|[a s] l2]; [done|]. apply lseg_head in Hl. simpl in *.
      destruct Ho as (? & ? & ?). split_and!; [lia|done..].
Qed.

(** [bp] of [n] units in front of [q], behind the block [(p, s)]. *)
Definition link_behind (p s bp n : Z) (l2 : list block) : list block :=
  if decide (p + HDR * s = bp) then (p, s + n) :: l2 else (p, s) :: (bp, n) :: l2.

Lemma lower_exec bp p s n q base l2 h st :
  h_size h !! p = Some s → h_size h !! bp = Some n → h_ptr h !! bp = Some q → lseg h q l2 base →
  p ≠ bp → Forall (λ c : block, c.1 ≠ p) l2 → 0 ≤ s + n < 2 ^ 32 →
  ∃ h', exec_user env (free_lower bp p h) st = (O_done h', st) ∧
    lseg h' p (link_behind p s bp n l2) base ∧ freep h' = freep h ∧
    (∀ a, a ≠ p → h_ptr h' !! a = h_ptr h !! a ∧ h_size h' !! a = h_size h !! a).
Proof.
  intros Hp Hbp Hq Hl Hne Hf Hsum. unfold free_lower, size_of, ptr_of, link_behind.
  rewrite Hp, ubind_ret.
  destruct (Z.eqb_spec (p + HDR * s) bp) as [E|E]; [rewrite decide_True by done|rewrite decide_False by done].
  - rewrite Hbp, ubind_ret, Hq, ubind_ret, u32_small by done.
    eexists. split_and!; [done| |done|].
    + simpl. rewrite !lookup_insert_eq. split_and!; [done..|]. exists q. split; [done|].
      eapply lseg_frame; [|done]. intros b Hb. rewrite list.Forall_forall in Hf. specialize (Hf b Hb).
      simpl. by rewrite !lookup_insert_ne.
    + intros a Ha. simpl. by rewrite !lookup_insert_ne.
  - eexists. split_and!; [done| |done|].
    + simpl. rewrite lookup_insert_eq, lookup_insert_ne by done. split_and!; [done..|].
      exists bp. split_and!; [done..|]. exists q. split; [done|].
      eapply lseg_frame; [|done]. intros b Hb. rewrite list.Forall_forall in Hf. specialize (Hf b Hb).
      simpl. by rewrite !lookup_insert_ne.
    + intros a Ha. simpl. by rewrite !lookup_insert_ne.
Qed.
End exec.

(** ** The list in order *)

Lemma ordered_pos lo l b : ordered lo l → b ∈ l → lo < b.1 ∧ 0 < b.2.
Proof.
  revert lo. induction l as [|[a s] l IH]; intros lo Ho; [by intros []%elem_of_nil|].
  destruct Ho as (Ha & Hs & Ho). intros [->|Hb]%elem_of_cons; [done|].
  destruct (IH _ Ho Hb). unfold HDR in *. lia.
Qed.

Lemma block_start a s : 0 < s → covers (a, s) a.
Proof. unfold covers, HDR; simpl. lia. Qed.

(** A block apart from the list ends before the part of the list behind it. *)
Lemma ordered_after c l bp n :
  ordered c l → 0 < n → (∀ x, covers (bp, n) x → ¬ covered l x) → Forall (λ b : block, bp < b.1) l →
  ordered (bp + HDR * n - 1) l.
Proof.
  destruct l as [|[a s] l]; [done|]. intros Ho Hn Hd [Ha _]%list.Forall_cons.
  pose proof (ordered_head _ _ _ _ Ho). destruct Ho as (? & ? & ?). split_and!; [|done..].
  destruct (decide (bp + HDR * n - 1 < a)); [done|]. exfalso. apply (Hd a); [|done].
  unfold covers; simpl in *. lia.
Qed.

Lemma covered_link p s bp n l x :
  0 ≤ s → 0 ≤ n → covered (link_behind p s bp n l) x ↔ covers (p, s) x ∨ covers (bp, n) x ∨ covered l x.
Proof.
  intros Hs Hn. unfold link_behind. case_decide as E; rewrite !covered_cons; [|done].
  rewrite covers_join, E by done. tauto.
Qed.

Lemma ordered_link lo p s bp n l :
  ordered (bp + HDR * n) l → lo < p → 0 < s → 0 < n → p + HDR * s ≤ bp → ordered lo (link_behind p s bp n l).
Proof.
  intros Ho Hp Hs Hn Hle. unfold link_behind. case_decide as E; simpl; split_and!; try done; try lia.
  eapply ordered_weaken; [|done]. unfold HDR in *. lia.
Qed.

(** What the heap's list of free blocks [B] is, for a heap below [hi]. *)
Record free_list (base hi : Z) (B : list block) (h : heap) : Prop := FreeList {
  fl_ring : lseg h base ((base, 0) :: B) base;
  fl_ordered : ordered (base + HDR - 1) B;
  fl_bounded : ∀ x, covered B x → x < hi;
  fl_freep : freep h ∈ base :: B.*1;
  fl_base : 0 < base ∧ base + HDR ≤ hi;
  fl_hi : hi < 2 ^ 36 }.

(** The list with a block linked in. *)
Lemma insert_block base B l1 p s l2 bp n n' l2' :
  (base, 0) :: B = l1 ++ (p, s) :: l2 → ordered (base + HDR - 1) B → base + HDR - 1 < bp →
  p < bp → 0 < n' → (∀ x, covers (bp, n) x → ¬ covered B x) → 0 < n →
  ordered (bp + HDR * n') l2' →
  (∀ x, covers (bp, n') x ∨ covered l2' x ↔ covers (bp, n) x ∨ covered l2 x) →
  ∃ B', l1 ++ link_behind p s bp n' l2' = (base, 0) :: B' ∧ ordered (base + HDR - 1) B' ∧
    0 ≤ s ∧ p + HDR * s ≤ bp ∧ (∀ x, covered B' x ↔ covered B x ∨ covers (bp, n) x) ∧
    (length B' ≤ length l1 + 1 + length l2')%nat.
Proof.
  intros E Ho Hbp Hp Hn' Hd Hn Ho' Hc.
  assert (∀ k, (length (k ++ link_behind p s bp n' l2') ≤ length k + 2 + length l2')%nat) as Hlen.
  { intros k. rewrite length_app. unfold link_behind. case_decide; simpl; lia. }
  destruct l1 as [|c l1]; simpl in E; simplify_eq/=.
  - assert (link_behind p 0 bp n' l2' = (p, 0) :: (bp, n') :: l2') as ->.
    { unfold link_behind. rewrite decide_False; [done|]. unfold HDR. lia. }
    exists ((bp, n') :: l2'). split_and!; try done; [unfold HDR in *; lia|].
    intros x. rewrite covered_cons, Hc. tauto.
  - pose proof Ho as (Ho1 & Hf1 & Hlo & Hs & Ho2)%ordered_app. simpl in *.
    assert (p + HDR * s ≤ bp) as Hle.
    { destruct (decide (bp < p + HDR * s)); [exfalso|lia].
      apply (Hd bp); [by apply block_start|]. rewrite covered_app, covered_cons.
      right. left. unfold covers; simpl. lia. }
    exists (l1 ++ link_behind p s bp n' l2').
    split_and!; [done| |lia|done| |specialize (Hlen l1); unfold block in *; simpl; lia].
    + pose proof (ordered_link (base + HDR - 1) p s bp n' l2' Ho' Hlo Hs Hn' Hle) as Hl.
      unfold link_behind in *. case_decide; apply ordered_app; simpl in *; naive_solver.
    + intros x. rewrite !covered_app, covered_cons, covered_link by lia. specialize (Hc x). tauto.
Qed.

(** The parts of the list before and behind an address outside it. *)
Lemma free_list_split base hi B h bp n :
  free_list base hi B h → base + HDR - 1 < bp → 0 < n → (∀ x, covers (bp, n) x → ¬ covered B x) →
  ∃ l1 p s l2, (base, 0) :: B = l1 ++ (p, s) :: l2 ∧ p < bp ∧ base ≤ p ∧ Forall (λ c : block, bp < c.1) l2 ∧
    ascending (l1 ++ (p, s) :: l2) ∧ ordered (bp + HDR * n - 1) l2 ∧ (∀ x, covered l2 x → covered B x).
Proof.
  intros Hfl Hbp Hn Hd. destruct Hfl as [_ Ho _ _ Hb _].
  destruct (ordered_ascending _ _ Ho) as [Ha Hf].
  assert (Forall (λ b : block, b.1 ≠ bp) B) as Hne.
  { apply list.Forall_forall. intros [a s] Hin Heq. simpl in Heq. subst a.
    apply (Hd bp); [by apply block_start|]. exists (bp, s). split; [done|]. apply block_start.
    by apply (ordered_pos _ _ (bp, s) Ho). }
  assert (ascending ((base, 0) :: B)) as Hasc.
  { constructor; [done|]. eapply list.Forall_impl; [exact Hf|]. simpl. unfold HDR. lia. }
  destruct (ascending_split bp (base, 0) B) as (l1 & [p s] & l2 & E & Hp & Hl2); try done.
  { simpl. unfold HDR in *. lia. }
  simpl in Hp. assert (∀ x, covered l2 x → covered B x) as Hc.
  { destruct l1 as [|c l1]; simpl in E; simplify_eq; [done|].
    intros x Hx. rewrite covered_app, covered_cons. tauto. }
  exists l1, p, s, l2. split_and!; try done.
  - destruct l1 as [|c l1]; simpl in E; simplify_eq; [lia|].
    apply ordered_app in Ho as (_ & _ & ? & _). unfold HDR in *. simpl in *. lia.
  - by rewrite <-E.
  - destruct l1 as [|c l1]; simpl in E; simplify_eq.
    + apply (ordered_after _ _ _ _ Ho); [done| |done]. naive_solver.
    + apply ordered_app in Ho as (_ & _ & _ & _ & Ho). apply (ordered_after _ _ _ _ Ho); [done| |done]. naive_solver.
Qed.

Section ops.
Context {S : Type} (env : ucall → S → resp * S).

(** [free] adds the bytes of the block, and writes no other header. *)
Lemma free_exec base hi B h bp n fuel st :
  free_list base hi B h → base + HDR - 1 < bp → 0 < n → bp + HDR * n ≤ hi →
  (∀ x, covers (bp, n) x → ¬ covered B x) → h_size h !! bp = Some n →
  (2 * (1 + length B) ≤ fuel)%nat →
  ∃ h' B', exec_user env (free fuel (bp + HDR) h) st = (O_done h', st) ∧ free_list base hi B' h' ∧
    (∀ x, covered B' x ↔ covered B x ∨ covers (bp, n) x) ∧
    (∀ a, a ≠ base → a ≠ bp → ¬ covered B a → h_size h' !! a = h_size h !! a) ∧
    (length B' ≤ length B + 1)%nat.
Proof.
  intros Hfl Hbp Hn Hhi Hd Hsz Hfuel.
  destruct (free_list_split _ _ _ _ _ _ Hfl Hbp Hn Hd) as (l1 & p & s & l2 & E & Hp & Hpb & Hl2 & Hasc & Ho2 & Hc2).
  destruct Hfl as [Hring Ho Hbd Hfp Hb0 Hmax].
  change (base :: B.*1) with (((base, 0) :: B).*1) in Hfp.
  change (1 + length B)%nat with (length ((base, 0) :: B)) in Hfuel. rewrite E in Hring, Hfp, Hfuel.
  destruct (ascending_app _ _ _ Hasc) as (Hl1 & Hpl2 & _ & _). simpl in Hl1, Hpl2.
  pose proof (find_exec env bp base h l1 (p, s) l2 fuel st Hring Hasc Hpb Hp Hl2 Hfp Hfuel) as Hfind.
  pose proof (proj1 (lseg_app _ _ _ _ _) Hring) as (m & Hseg1 & Hseg2).
  simpl in Hseg2. destruct Hseg2 as (<- & Hps & q & Hpq & Hseg2).
  destruct (upper_exec env bp p n q hi base l2 h st)
    as (n' & q' & l2' & Hup & Hseg3 & Ho3 & Hn' & [k Hk] & Hc3); try done; try (unfold HDR in *; lia).
  { intros x Hx. by apply Hbd, Hc2. }
  destruct (insert_block base B l1 p s l2 bp n n' l2') as (B' & EB & HoB & Hs0 & Hps' & HcB & HlB); try done.
  assert (bp + HDR * n' ≤ hi) as Htop.
  { specialize (Hc3 (bp + HDR * n' - 1)) as [[Hin|Hin] _].
    - left. unfold covers, HDR; simpl. lia.
    - unfold covers, HDR in *; simpl in *. lia.
    - apply Hc2, Hbd in Hin. lia. }
  subst l2. apply Forall_app in Hl2 as [_ Hl2'], Hpl2 as [_ Hpl2'].
  set (h1 := Heap (<[bp := q']> (h_ptr h)) (<[bp := n']> (h_size h)) (freep h)) in *.
  destruct (lower_exec env bp p s n' q' base l2' h1 st) as (h2 & Hlo & Hseg4 & Hfp4 & Hother).
  { simpl. by rewrite lookup_insert_ne by lia. }
  { simpl. by rewrite lookup_insert_eq. }
  { simpl. by rewrite lookup_insert_eq. }
  { eapply lseg_frame; [|exact Hseg3]. intros b Hb. rewrite list.Forall_forall in Hl2'. specialize (Hl2' b Hb).
    simpl. by rewrite !lookup_insert_ne by lia. }
  { lia. }
  { eapply list.Forall_impl; [exact Hpl2'|]. simpl. lia. }
  { unfold HDR in *. lia. }
  exists (set_freep p h2), B'. split_and!.
  - unfold free. replace (bp + HDR - HDR) with bp by lia.
    rewrite (exec_bind _ _ _ _ _ _ Hfind), (exec_bind _ _ _ _ _ _ Hup). by rewrite (exec_bind _ _ _ _ _ _ Hlo).
  - split; try done.
    + apply (lseg_frame h2); [done|]. rewrite <-EB. apply lseg_app. exists p. split; [|exact Hseg4].
      apply (lseg_frame h); [|exact Hseg1]. intros b Hb. rewrite list.Forall_forall in Hl1.
      specialize (Hl1 b Hb). destruct (Hother b.1) as [-> ->]; [lia|]. simpl. by rewrite !lookup_insert_ne by lia.
    + intros x [Hx|Hx]%HcB; [by apply Hbd|]. unfold covers in Hx; simpl in Hx. lia.
    + change (p ∈ ((base, 0) :: B').*1). rewrite <-EB, fmap_app. apply elem_of_app. right.
      unfold link_behind. case_decide; by left.
  - exact HcB.
  - intros a Ha Hab Hac. assert (a ≠ p) as Hap.
    { intros ->. apply Hac. destruct l1 as [|c l1]; simpl in E; simplify_eq.
      apply covered_app. right. apply covered_cons. left. apply block_start.
      by apply (ordered_pos _ _ (p, s) Ho), elem_of_app; right; left. }
    destruct (Hother a Hap) as [_ H2]. simpl. rewrite H2. simpl. by rewrite lookup_insert_ne.
  - apply (f_equal length) in E. rewrite length_app in E. simpl in E. rewrite length_app in E. unfold block in *. lia.
Qed.

(** ** The loop of [malloc] *)

Lemma round_next fuel nunits h prev p s q st :
  h_size h !! p = Some s → s < nunits → p ≠ freep h → h_ptr h !! p = Some q →
  exec_user env (malloc_round fuel nunits (h, prev, p)) st = (O_done (inl (h, p, q)), st).
Proof.
  intros Hs Hlt Hp Hq. unfold malloc_round, size_of, ptr_of. rewrite Hs, ubind_ret.
  destruct (Z.leb_spec nunits s); [lia|]. destruct (Z.eqb_spec p (freep h)); [done|]. by rewrite Hq.
Qed.

(** Blocks that are too small are passed over. *)
Lemma walk_exec nunits u q h prev p :
  lseg h p u q → Forall (λ b : block, b.2 < nunits) u → freep h ∉ u.*1 → h_ptr h !! prev = Some p →
  ∃ prev', prev' ∈ prev :: u.*1 ∧ h_ptr h !! prev' = Some q ∧
    ∀ fuel k st, exec_user env (uloop (length u + k) (malloc_round fuel nunits) (h, prev, p)) st =
    exec_user env (uloop k (malloc_round fuel nunits) (h, prev', q)) st.
Proof.
  revert prev p. induction u as [|[a s] u IH]; intros prev p Hl Hf Hfp Hprev; simpl in *.
  { subst. exists prev. split_and!; [set_solver|done..]. }
  destruct Hl as (-> & Hs & n & Hn & Hl). apply list.Forall_cons in Hf as [Hlt Hf]. simpl in Hlt.
  destruct (IH p n) as (prev' & Hin & ? & E); try done; [set_solver|].
  exists prev'. split_and!; [set_solver|done|]. intros fuel k st.
  rewrite (exec_loop env _ _ _ _ _ _ (round_next fuel nunits h prev p s n st Hs Hlt ltac:(set_solver) Hn)).
  apply E.
Qed.

Lemma first_fit n (l : list block) :
  Forall (λ b : block, b.2 < n) l ∨ ∃ u b v, l = u ++ b :: v ∧ Forall (λ b : block, b.2 < n) u ∧ n ≤ b.2.
Proof.
  induction l as [|b l IH]; [by left|].
  destruct (decide (n ≤ b.2)); [right; by exists [], b, l|].
  destruct IH as [Hf|(u & c & v & -> & Hf & Hc)]; [left; constructor; [lia|done]|].
  right. exists (b :: u), c, v. split_and!; [done|constructor; [lia|done]|done].
Qed.

(** The list without its first block at [f], read from the block behind it. *)
Lemma ring_rotate base hi B h :
  free_list base hi B h →
  ∃ w f sf, lseg h f ((f, sf) :: w) f ∧ f = freep h ∧ (f ∉ w.*1) ∧ ((f, sf) :: w ≡ₚ (base, 0) :: B).
Proof.
  intros [Hring Ho _ Hfp _ _]. change (base :: B.*1) with (((base, 0) :: B).*1) in Hfp.
  assert (ascending ((base, 0) :: B)) as Hasc.
  { destruct (ordered_ascending _ _ Ho) as [Ha Hf]. constructor; [done|].
    eapply list.Forall_impl; [exact Hf|]. simpl. unfold HDR. lia. }
  apply list_elem_of_fmap in Hfp as ([f sf] & Ef & (l1 & l2 & E)%list_elem_of_split).
  rewrite E in Hring, Hasc. apply lseg_app in Hring as (m & H1 & H2).
  pose proof (lseg_head _ _ _ _ _ H2) as <-. cbn [fst] in *.
  exists (l2 ++ l1), f, sf. destruct (ascending_app _ _ _ Hasc) as (Hl1 & Hl2 & _ & _).
  split; [|split; [done|split]].
  - change ((f, sf) :: l2 ++ l1) with (((f, sf) :: l2) ++ l1). apply lseg_app. by exists base.
  - rewrite fmap_app, elem_of_app. intros [Hin|Hin]; apply list_elem_of_fmap in Hin as (c & Ec & Hc).
    + rewrite list.Forall_forall in Hl2. specialize (Hl2 c Hc). simpl in *. lia.
    + rewrite list.Forall_forall in Hl1. specialize (Hl1 c Hc). simpl in *. lia.
  - change ((base, 0) :: B) with (((base, 0) : block) :: B) in *. unfold block in *. rewrite E.
    rewrite Permutation_app_comm. apply Permutation_middle.
Qed.

(** One pass over the list ends at the first block that is large enough, or
    at [freep] when there is none. *)
Lemma pass_exec base hi B h nunits p :
  free_list base hi B h → h_ptr h !! freep h = Some p →
  ∃ prev q s j, prev ∈ base :: B.*1 ∧ h_ptr h !! prev = Some q ∧ h_size h !! q = Some s ∧ (j ≤ length B)%nat ∧
    (nunits ≤ s ∨ q = freep h ∧ s < nunits ∧ Forall (λ b : block, b.2 < nunits) B) ∧
    ∀ fuel k st,
      exec_user env (uloop (j + k) (malloc_round fuel nunits) (h, freep h, p)) st =
      exec_user env (uloop k (malloc_round fuel nunits) (h, prev, q)) st.
Proof.
  intros Hfl Hp. destruct (ring_rotate _ _ _ _ Hfl) as (w & f & sf & Hl & -> & Hf & Hperm).
  destruct Hl as (_ & Hsf & p' & Hp' & Hl). simplify_eq.
  assert (∀ l v : list block, w = l ++ v → ∀ a, a ∈ freep h :: l.*1 → a ∈ base :: B.*1) as Hin.
  { intros l v -> a Ha. change (base :: B.*1) with (((base, 0) :: B).*1). rewrite <-Hperm. simpl.
    rewrite fmap_app. set_solver. }
  assert (length w = length B) as Hlen by (apply Permutation_length in Hperm; simpl in Hperm; unfold block in *; lia).
  destruct (first_fit nunits w) as [Hsmall|(u & [a s] & v & -> & Hsmall & Hfit)].
  - destruct (walk_exec nunits w (freep h) h (freep h) p) as (prev & Hprev & Hq & Hex); try done.
    exists prev, (freep h), sf, (length w). split_and!; [|done|done|lia| |exact Hex].
    + apply (Hin w []); [by rewrite app_nil_r|done].
    + destruct (Z.le_gt_cases nunits sf); [by left|]. right. split_and!; [done|lia|].
      assert (Forall (λ b : block, b.2 < nunits) ((base, 0) :: B)) as HF.
      { rewrite <-Hperm. constructor; [simpl; lia|done]. }
      by apply list.Forall_cons in HF as [_ ?].
  - apply lseg_app in Hl as (m & Hl1 & <- & Hs & _).
    destruct (walk_exec nunits u a h (freep h) p) as (prev & Hprev & Hq & Hex); try done; [set_solver|].
    rewrite length_app in Hlen. simpl in Hlen.
    exists prev, a, s, (length u). split_and!; [|done|done|lia|by left|exact Hex].
    by apply (Hin u ((a, s) :: v)).
Qed.

(** The block behind [prev] on the list. *)
Lemma free_list_at base hi B h prev q s :
  free_list base hi B h → prev ∈ base :: B.*1 → h_ptr h !! prev = Some q → h_size h !! q = Some s → 0 < s →
  ∃ B1 B2 r, B = B1 ++ (q, s) :: B2 ∧ lseg h base ((base, 0) :: B1) q ∧ h_ptr h !! q = Some r ∧
    lseg h r B2 base ∧ ∃ l sp, (base, 0) :: B1 = l ++ [(prev, sp)].
Proof.
  intros [Hring Ho _ _ _ _] Hprev Hq Hs Hpos. change (base :: B.*1) with (((base, 0) :: B).*1) in Hprev.
  apply list_elem_of_fmap in Hprev as ([f sf] & -> & (l1 & l2 & E)%list_elem_of_split). cbn [fst] in *.
  rewrite E in Hring. pose proof Hring as (m & H1 & <- & Hsf & n & Hn & H2)%lseg_app. simplify_eq.
  destruct l2 as [|[a s'] l2].
  { simpl in H2. subst q. destruct l1 as [|c l1]; simplify_eq/=.
    - destruct Hring as (_ & ? & _). simplify_eq. lia.
    - destruct Hring as (_ & ? & _). simplify_eq. lia. }
  destruct H2 as (-> & Hs' & r & Hr & H2). simplify_eq.
  assert (∃ B1, (base, 0) :: B1 = l1 ++ [(f, sf)] ∧ B = B1 ++ (q, s) :: l2) as (B1 & E1 & EB).
  { destruct l1 as [|c l1]; simplify_eq/=; [by exists []|].
    exists (l1 ++ [(f, sf)]). by rewrite <-app_assoc. }
  exists B1, l2, r. split; [done|]. split; [|split; [done|split; [done|by exists l1, sf]]].
  rewrite E1. apply lseg_app. exists f. split; [done|]. simpl. eauto.
Qed.

Lemma ordered_drop lo l1 b l2 : ordered lo (l1 ++ b :: l2) → ordered lo (l1 ++ l2).
Proof.
  revert lo. induction l1 as [|[a s] l1 IH]; intros lo; simpl.
  - destruct b as [a s]. intros (? & ? & Ho). eapply ordered_weaken; [|exact Ho]. unfold HDR. lia.
  - intros (? & ? & Ho). split_and!; [done..|]. by apply IH.
Qed.

Lemma ordered_gap lo l c : ordered lo l → c ∈ l → ¬ covered l (c.1 + HDR * c.2).
Proof.
  intros Ho (l1 & l2 & ->)%list_elem_of_split. apply ordered_app in Ho as (Ho1 & Hf & _ & Hs & Ho2).
  rewrite covered_app, covered_cons. intros [(b & Hb & Hc)|[Hc|Hc]].
  - rewrite list.Forall_forall in Hf. specialize (Hf b Hb). unfold covers, HDR in *. lia.
  - unfold covers in Hc. lia.
  - apply (ordered_covered _ _ _ Ho2) in Hc. lia.
Qed.

(** A run of free bytes lies in one block. *)
Lemma covers_one lo l a n :
  ordered lo l → 0 < n → (∀ x, covers (a, n) x → covered l x) → ∃ c, c ∈ l ∧ n ≤ c.2.
Proof.
  intros Ho Hn Hc. destruct (Hc a (block_start _ _ Hn)) as (c & Hin & Hca).
  exists c. split; [done|]. destruct (decide (n ≤ c.2)); [done|exfalso].
  apply (ordered_gap _ _ _ Ho Hin), Hc. unfold covers, HDR in *; simpl in *. lia.
Qed.

Lemma free_list_disjoint lo B1 a s B2 x :
  ordered lo (B1 ++ (a, s) :: B2) → covers (a, s) x → ¬ covered (B1 ++ B2) x.
Proof.
  intros (_ & Hf & _ & _ & Ho2)%ordered_app Hx [(b & Hb & Hc)|Hc]%covered_app.
  - rewrite list.Forall_forall in Hf. specialize (Hf b Hb). unfold covers, HDR in *; simpl in *. lia.
  - apply (ordered_covered _ _ _ Ho2) in Hc. unfold covers, HDR in *; simpl in *. lia.
Qed.

Lemma ordered_shrink lo l1 a s s' l2 :
  ordered lo (l1 ++ (a, s) :: l2) → 0 < s' ≤ s → ordered lo (l1 ++ (a, s') :: l2).
Proof.
  intros (? & ? & ? & ? & Ho)%ordered_app ?. apply ordered_app. simpl in *. split_and!; try done; [lia|].
  eapply ordered_weaken; [|exact Ho]. unfold HDR. lia.
Qed.

(** The end of a list without its first block keeps the headers before it. *)
Lemma unlink_ring base hi B1 q s B2 r h prev l sp :
  free_list base hi (B1 ++ (q, s) :: B2) h → lseg h base ((base, 0) :: B1) q → lseg h r B2 base →
  (base, 0) :: B1 = l ++ [(prev, sp)] →
  lseg (set_freep prev (set_ptr prev r h)) base ((base, 0) :: B1 ++ B2) base.
Proof.
  intros Hfl H1 H2 E. destruct Hfl as [_ Ho _ _ _ _].
  assert (ascending ((base, 0) :: B1 ++ (q, s) :: B2)) as Hasc.
  { destruct (ordered_ascending _ _ Ho) as [Ha Hf]. constructor; [done|].
    eapply list.Forall_impl; [exact Hf|]. simpl. unfold HDR. lia. }
  rewrite app_comm_cons in Hasc |- *. rewrite E in Hasc, H1 |- *. rewrite <-app_assoc in Hasc |- *.
  destruct (ascending_app _ _ _ Hasc) as (Hl & Hr & _ & _). simpl in Hl, Hr.
  apply list.Forall_cons in Hr as [_ Hr].
  apply lseg_app in H1 as (m & H1 & <- & Hsp & _). apply lseg_app. exists prev. split.
  - eapply lseg_frame; [|exact H1]. intros b Hb. rewrite list.Forall_forall in Hl. specialize (Hl b Hb).
    simpl. by rewrite lookup_insert_ne by lia.
  - simpl. rewrite lookup_insert_eq. split_and!; [done..|]. exists r. split; [done|].
    eapply lseg_frame; [|exact H2]. intros b Hb. rewrite list.Forall_forall in Hr. specialize (Hr b Hb).
    simpl. by rewrite lookup_insert_ne by lia.
Qed.

(** [b] of [n] units has been taken out of the free list. *)
Record taken (base hi : Z) (B : list block) (h : heap) (b n : Z) (B' : list block) (h' : heap) : Prop := Taken {
  tk_list : free_list base hi B' h';
  tk_size : h_size h' !! b = Some n;
  tk_bytes : ∀ x, covered B x ↔ covered B' x ∨ covers (b, n) x;
  tk_apart : ∀ x, covers (b, n) x → ¬ covered B' x;
  tk_frame : ∀ a, a ≠ base → ¬ covered B a → h_size h' !! a = h_size h !! a;
  tk_length : (length B' ≤ length B)%nat }.

Lemma covered_middle B1 b B2 x : covered (B1 ++ b :: B2) x ↔ covered (B1 ++ B2) x ∨ covers b x.
Proof. rewrite !covered_app, covered_cons. tauto. Qed.

Lemma in_blocks_l (base a : Z) (B1 B2 : list block) : a ∈ base :: B1.*1 → a ∈ base :: (B1 ++ B2).*1.
Proof. rewrite fmap_app. intros [->|H]%elem_of_cons; [by left|right]. apply elem_of_app. by left. Qed.

Lemma take_whole base hi B1 q s B2 h prev r l sp :
  free_list base hi (B1 ++ (q, s) :: B2) h → lseg h base ((base, 0) :: B1) q → lseg h r B2 base →
  (base, 0) :: B1 = l ++ [(prev, sp)] → h_size h !! q = Some s →
  taken base hi (B1 ++ (q, s) :: B2) h q s (B1 ++ B2) (set_freep prev (set_ptr prev r h)).
Proof.
  intros Hfl H1 H2 E Hs. pose proof Hfl as [Hring Ho Hbd Hfp Hb0 Hhi].
  split; [|done|apply covered_middle|by intros x; apply (free_list_disjoint _ _ _ _ _ _ Ho)|done|].
  2: { rewrite !length_app. simpl. lia. }
  split; [by eapply unlink_ring|by eapply ordered_drop| | |done..].
  - intros x Hx. apply Hbd, covered_middle. by left.
  - apply in_blocks_l. change (prev ∈ ((base, 0) :: B1).*1). rewrite E, fmap_app.
    apply elem_of_app. right. by left.
Qed.

(** The headers of the other blocks lie outside a block of the list. *)
Lemma headers_outside base hi B1 q s B2 h c :
  free_list base hi (B1 ++ (q, s) :: B2) h → c ∈ (base, 0) :: B1 ++ B2 → ¬ covers (q, s) c.1.
Proof.
  intros [_ Ho _ _ _ _] [->|Hc]%elem_of_cons Hx.
  - pose proof (ordered_covered _ _ base Ho (proj2 (covered_middle _ _ _ _) (or_intror Hx))) as Hlo.
    unfold HDR in *. simpl in *. lia.
  - apply (free_list_disjoint _ _ _ _ _ _ Ho Hx). exists c. split; [done|]. destruct c as [a n].
    apply block_start.
    assert ((a, n) ∈ B1 ++ (q, s) :: B2) as Hc' by (apply elem_of_app in Hc as []; apply elem_of_app; by repeat (left + right)).
    by destruct (ordered_pos _ _ _ Ho Hc').
Qed.

Lemma take_tail base hi B1 q s B2 h prev r nunits :
  free_list base hi (B1 ++ (q, s) :: B2) h → lseg h base ((base, 0) :: B1) q → lseg h r B2 base →
  prev ∈ base :: B1.*1 → h_ptr h !! q = Some r → 0 < nunits < s →
  let b := q + HDR * (s - nunits) in
  taken base hi (B1 ++ (q, s) :: B2) h b nunits (B1 ++ (q, s - nunits) :: B2)
    (set_freep prev (set_size b nunits (set_size q (s - nunits) h))).
Proof.
  intros Hfl H1 H2 Hprev Hr Hn b. set (h' := set_freep prev _).
  pose proof (λ c, headers_outside _ _ _ _ _ _ _ c Hfl) as Hout.
  pose proof Hfl as [Hring Ho Hbd Hfp Hb0 Hhi].
  assert (covers (q, s) q ∧ covers (q, s) b) as [Hcq Hcb] by (unfold covers, b, HDR; simpl; lia).
  assert (∀ a, ¬ covers (q, s) a → h_size h' !! a = h_size h !! a) as Hframe.
  { intros a Ha. unfold h'. simpl. rewrite !lookup_insert_ne; [done|congruence..]. }
  assert (∀ x, covers (q, s) x ↔ covers (q, s - nunits) x ∨ covers (b, nunits) x) as Hcut.
  { intros x. unfold covers, b, HDR; simpl. lia. }
  split.
  - split; [|eapply ordered_shrink; [exact Ho|lia]| |by apply in_blocks_l|done..].
    + rewrite app_comm_cons. apply lseg_app. exists q. split; [|split; [done|split]].
      * eapply lseg_frame; [|exact H1]. intros c Hc. split; [done|]. apply Hframe, Hout.
        rewrite app_comm_cons. apply elem_of_app. by left.
      * unfold h', b. simpl. rewrite lookup_insert_ne by (unfold HDR; lia). apply lookup_insert_eq.
      * exists r. split; [done|]. eapply lseg_frame; [|exact H2]. intros c Hc. split; [done|].
        apply Hframe, Hout. right. apply elem_of_app. by right.
    + intros x Hx. apply Hbd. apply covered_middle. apply covered_middle in Hx. rewrite Hcut. tauto.
  - unfold h'. simpl. apply lookup_insert_eq.
  - intros x. rewrite !covered_middle, Hcut. tauto.
  - intros x Hx. rewrite covered_middle. pose proof (free_list_disjoint _ _ _ _ _ x Ho) as Hd.
    rewrite Hcut in Hd. intros [?|Hl]; [tauto|]. unfold covers, b, HDR in *; simpl in *. lia.
  - intros a _ Ha. apply Hframe. rewrite covered_middle in Ha. tauto.
  - rewrite !length_app. simpl. lia.
Qed.

(** [malloc] takes a block out of the free bytes. *)
Lemma take_exec base hi B h prev q s nunits st :
  free_list base hi B h → prev ∈ base :: B.*1 → h_ptr h !! prev = Some q → h_size h !! q = Some s →
  0 < nunits ≤ s →
  ∃ h' b B', exec_user env (malloc_take nunits prev q s h) st = (O_done (h', b + HDR), st) ∧
    taken base hi B h b nunits B' h'.
Proof.
  intros Hfl Hprev Hq Hs Hn.
  destruct (free_list_at _ _ _ _ _ _ _ Hfl Hprev Hq Hs) as (B1 & B2 & r & -> & H1 & Hr & H2 & l & sp & E); [lia|].
  unfold malloc_take, ptr_of. destruct (Z.eqb_spec s nunits) as [->|Hne].
  - rewrite Hr, ubind_ret. eexists _, q, _. split; [done|]. by eapply take_whole.
  - assert (u32 (s - nunits) = s - nunits) as ->.
    { destruct Hfl as [_ Ho Hbd _ Hb0 Hhi]. pose proof (ordered_covered _ _ q Ho) as Hlo.
      specialize (Hbd (q + HDR * s - 1)). rewrite covered_middle in Hlo, Hbd. apply u32_small.
      unfold covers, HDR in *; simpl in *. lia. }
    eexists _, _, _. split; [done|]. eapply take_tail; try done; [|lia].
    change (prev ∈ ((base, 0) :: B1).*1). rewrite E, fmap_app. apply elem_of_app. right. by left.
Qed.

(** ** Memory from the kernel *)

(** What [sbrk] promises for a count that is not negative: the break moves by
    that much and its old value is returned, or nothing happens. *)
Class Sbrk (brk : S → Z) : Prop := sbrk_grows : ∀ n st, 0 ≤ n < 2 ^ 31 →
  ∃ v buf st', env (U_sbrk n 1) st = (Resp v buf, st') ∧
    (v = -1 ∧ brk st' = brk st ∨ v = brk st ∧ brk st' = brk st + n ∧ brk st' < 2 ^ 36).

Context (brk : S → Z) `{!Sbrk brk}.

Lemma free_list_grow base hi hi' B h :
  free_list base hi B h → hi ≤ hi' → hi' < 2 ^ 36 → free_list base hi' B h.
Proof.
  intros [? ? Hbd ? [? ?] ?] ? ?. split; try done; [|lia].
  intros x Hx. specialize (Hbd x Hx). lia.
Qed.

Lemma free_list_set_size base hi B h p n :
  free_list base hi B h → hi ≤ p → free_list base hi B (set_size p n h).
Proof.
  intros [Hring Ho Hbd Hfp Hb0 Hhi] Hp. split; try done.
  eapply lseg_frame; [|exact Hring]. intros [a s] Hin. split; [done|]. simpl. apply lookup_insert_ne.
  apply elem_of_cons in Hin as [Hin|Hin]; [simplify_eq; unfold HDR in *; lia|].
  destruct (ordered_pos _ _ _ Ho Hin). simpl in *.
  assert (a < hi); [|lia]. apply Hbd. exists (a, s). split; [done|]. by apply block_start.
Qed.

(** What [morecore] asks [sbrk] for to serve [n] units, in units, and the answers. *)
Definition grow_units (n : Z) : Z := Z.max 4096 n.
Definition sbrk_refuses (n : Z) (st st' : S) : Prop :=
  ∃ buf, env (U_sbrk (HDR * grow_units n) 1) st = (Resp (-1) buf, st').
Definition sbrk_grants (n : Z) (st st' : S) : Prop :=
  ∃ buf, env (U_sbrk (HDR * grow_units n) 1) st = (Resp (brk st) buf, st').

(** [morecore] adds at least the units asked for at the old break. *)
Lemma morecore_exec base B h nu fuel st :
  free_list base (brk st) B h → 0 < nu < 2 ^ 27 → (2 * (1 + length B) ≤ fuel)%nat →
  ∃ st',
    (exec_user env (morecore fuel nu h) st = (O_done (h, 0), st') ∧ brk st' = brk st ∧ sbrk_refuses nu st st') ∨
    ∃ h' B' n, exec_user env (morecore fuel nu h) st = (O_done (h', freep h'), st') ∧
      free_list base (brk st') B' h' ∧ n = grow_units nu ∧ sbrk_grants nu st st' ∧
      brk st' = brk st + HDR * n ∧ (length B' ≤ length B + 1)%nat ∧
      (∀ x, covered B' x ↔ covered B x ∨ covers (brk st, n) x) ∧
      (∀ a, a ≠ base → a < brk st → ¬ covered B a → h_size h' !! a = h_size h !! a).
Proof.
  intros Hfl Hnu Hfuel. set (n := if nu <? 4096 then 4096 else nu).
  assert (n = grow_units nu) as Hng by (unfold n, grow_units; destruct (Z.ltb_spec nu 4096); lia).
  assert (nu ≤ n ∧ 0 < n < 2 ^ 27) as [Hle Hn] by (unfold n; destruct (Z.ltb_spec nu 4096); lia).
  pose proof (fl_base _ _ _ _ Hfl) as [Hb0 Hb]. destruct (sbrk_grows (n * HDR) st) as (v & buf & st' & Hs & Hv).
  { unfold HDR. lia. }
  exists st'. unfold morecore, sbrk, sysv, sys. fold n. rewrite i32_small by (unfold HDR; lia).
  assert (n * HDR = HDR * grow_units nu) as Hask by lia.
  simpl. rewrite Hs. rewrite Hask in Hs.
  destruct Hv as [[-> Hv]|(-> & Hv & Hmax)]; [left; split_and!; [done|done|by exists buf]|right].
  cbn [r_val]. destruct (Z.eqb_spec (brk st) (-1)); [unfold HDR in *; lia|].
  assert (free_list base (brk st') B (set_size (brk st) n h)) as Hfl1.
  { apply (free_list_grow _ (brk st)); [by apply free_list_set_size|unfold HDR in *; lia|done]. }
  destruct (free_exec base (brk st') B (set_size (brk st) n h) (brk st) n fuel st')
    as (h' & B' & Hex & Hfl' & Hc & Hfr & Hlen); try done.
  - unfold HDR in *. lia.
  - lia.
  - unfold HDR in *. lia.
  - intros x Hx Hc. apply (fl_bounded _ _ _ _ Hfl) in Hc. unfold covers in Hx; simpl in Hx. lia.
  - simpl. apply lookup_insert_eq.
  - exists h', B', n. rewrite (exec_bind _ _ _ _ _ _ Hex).
    split_and!; try done; [by exists buf|unfold HDR in *; lia|].
    intros a Ha Hab Hac. rewrite Hfr by (done || lia). simpl. by rewrite lookup_insert_ne by lia.
Qed.

(** ** [malloc] on the free list *)

(** The request in units: header included, rounded up. *)
Lemma units_for_fits nbytes :
  0 ≤ nbytes ≤ 2 ^ 31 - 32 → 0 < units_for nbytes < 2 ^ 27 ∧ nbytes ≤ HDR * (units_for nbytes - 1) < nbytes + HDR.
Proof.
  intros Hn. unfold units_for, HDR. rewrite u64_small by lia.
  pose proof (Z.div_mod (nbytes + 16 - 1) 16). pose proof (Z.mod_pos_bound (nbytes + 16 - 1) 16).
  rewrite u32_small by lia. lia.
Qed.

Lemma malloc_init_idem base hi B h : free_list base hi B h → malloc_init base h = h.
Proof.
  intros [_ Ho _ Hfp [Hb _] _]. unfold malloc_init. destruct (Z.eqb_spec (freep h) 0) as [E|]; [exfalso|done].
  rewrite E in Hfp. apply elem_of_cons in Hfp as [?|([a s] & Ea & Hin)%list_elem_of_fmap]; [lia|].
  destruct (ordered_pos _ _ _ Ho Hin). simpl in *. unfold HDR in *. lia.
Qed.

(** A round that finds a block. *)
Lemma round_hit base hi B h prev q s nunits k fuel st :
  free_list base hi B h → prev ∈ base :: B.*1 → h_ptr h !! prev = Some q → h_size h !! q = Some s →
  0 < nunits ≤ s →
  ∃ h' b B', exec_user env (uloop (Datatypes.S k) (malloc_round fuel nunits) (h, prev, q)) st = (O_done (h', b + HDR), st) ∧
    taken base hi B h b nunits B' h'.
Proof.
  intros Hfl Hprev Hq Hs Hn.
  destruct (take_exec _ _ _ _ _ _ _ _ st Hfl Hprev Hq Hs Hn) as (h' & b & B' & Hex & Htk).
  exists h', b, B'. split; [|done].
  assert (exec_user env (malloc_round fuel nunits (h, prev, q)) st = (O_done (inr (h', b + HDR)), st)) as Hr.
  { unfold malloc_round, size_of. rewrite Hs, ubind_ret. destruct (Z.leb_spec nunits s); [|lia].
    by rewrite (exec_bind _ _ _ _ _ _ Hex). }
  by rewrite (exec_loop _ _ _ _ _ _ _ Hr).
Qed.

(** What a call of [malloc] leaves: a block of [n] units at [b], taken from
    the free bytes and those the break moved over. *)
Record served (base brk0 brk1 : Z) (B : list block) (h : heap) (b n : Z) (B' : list block) (h' : heap) : Prop := Served {
  sv_list : free_list base brk1 B' h';
  sv_brk : brk0 ≤ brk1;
  sv_size : h_size h' !! b = Some n;
  sv_bytes : ∀ x, covered B' x ∨ covers (b, n) x ↔ covered B x ∨ brk0 ≤ x < brk1;
  sv_apart : ∀ x, covers (b, n) x → ¬ covered B' x;
  sv_frame : ∀ a, a ≠ base → a < brk0 → ¬ covered B a → h_size h' !! a = h_size h !! a;
  sv_length : (length B' ≤ length B + 1)%nat }.

Lemma taken_served base hi B h b n B' h' :
  taken base hi B h b n B' h' → served base hi hi B h b n B' h'.
Proof.
  intros [? ? Hb ? Hf Hl]. split; try done; [|by intros a ? _; apply Hf|lia].
  intros x. rewrite Hb. split; [tauto|]. intros [?|?]; [done|lia].
Qed.

(** A round at [freep]: [morecore] is refused, or the loop goes on from the
    block it returned. *)
Lemma round_refused fuel n h prev s k st st' :
  h_size h !! freep h = Some s → s < n → exec_user env (morecore fuel n h) st = (O_done (h, 0), st') →
  exec_user env (uloop (Datatypes.S k) (malloc_round fuel n) (h, prev, freep h)) st = (O_done (h, 0), st').
Proof.
  intros Hs Hlt Hm.
  assert (exec_user env (malloc_round fuel n (h, prev, freep h)) st = (O_done (inr (h, 0)), st')) as Hr.
  { unfold malloc_round, size_of. rewrite Hs, ubind_ret. destruct (Z.leb_spec n s); [lia|].
    rewrite Z.eqb_refl. by rewrite (exec_bind _ _ _ _ _ _ Hm). }
  by rewrite (exec_loop _ _ _ _ _ _ _ Hr).
Qed.

Lemma round_grown fuel n h prev s k st h1 p1 q st' :
  h_size h !! freep h = Some s → s < n → exec_user env (morecore fuel n h) st = (O_done (h1, p1), st') →
  p1 ≠ 0 → h_ptr h1 !! p1 = Some q →
  exec_user env (uloop (Datatypes.S k) (malloc_round fuel n) (h, prev, freep h)) st =
  exec_user env (uloop k (malloc_round fuel n) (h1, p1, q)) st'.
Proof.
  intros Hs Hlt Hm Hnz Hq.
  assert (exec_user env (malloc_round fuel n (h, prev, freep h)) st = (O_done (inl (h1, p1, q)), st')) as Hr.
  { unfold malloc_round, size_of, ptr_of. rewrite Hs, ubind_ret. destruct (Z.leb_spec n s); [lia|].
    rewrite Z.eqb_refl. rewrite (exec_bind _ _ _ _ _ _ Hm).
    destruct (Z.eqb_spec p1 0); [done|]. by rewrite Hq. }
  by rewrite (exec_loop _ _ _ _ _ _ _ Hr).
Qed.

Lemma freep_nonzero base hi B h : free_list base hi B h → freep h ≠ 0.
Proof.
  intros Hfl E. pose proof (malloc_init_idem _ _ _ _ Hfl) as Hi. unfold malloc_init in Hi.
  rewrite E in Hi. simpl in Hi. rewrite <-Hi in E. simpl in E. pose proof (fl_base _ _ _ _ Hfl). lia.
Qed.

Lemma fits_exists base hi B h prev q s n :
  free_list base hi B h → prev ∈ base :: B.*1 → h_ptr h !! prev = Some q → h_size h !! q = Some s →
  0 < n ≤ s → Exists (λ c, n ≤ c.2) B.
Proof.
  intros Hfl Hprev Hq Hs Hn.
  destruct (free_list_at _ _ _ _ _ _ _ Hfl Hprev Hq Hs) as (B1 & B2 & r & -> & _); [lia|].
  apply Exists_app. right. apply Exists_cons. left. simpl. lia.
Qed.

Lemma malloc_list base B h nbytes fuel st :
  let n := units_for nbytes in
  free_list base (brk st) B (malloc_init base h) → 0 ≤ nbytes ≤ 2 ^ 31 - 32 → (2 * length B + 3 ≤ fuel)%nat →
  ∃ st',
    (exec_user env (malloc fuel base nbytes h) st = (O_done (malloc_init base h, 0), st') ∧ brk st' = brk st ∧
     Forall (λ c, c.2 < n) B ∧ sbrk_refuses n st st') ∨
    ∃ h' b B', exec_user env (malloc fuel base nbytes h) st = (O_done (h', b + HDR), st') ∧
      served base (brk st) (brk st') B (malloc_init base h) b n B' h' ∧
      (Exists (λ c, n ≤ c.2) B ∧ st' = st ∨
       Forall (λ c, c.2 < n) B ∧ sbrk_grants n st st' ∧ brk st' = brk st + HDR * grow_units n).
Proof.
  intros n Hfl Hnb Hfuel. destruct (units_for_fits _ Hnb) as [Hn _]. fold n in Hn.
  unfold malloc. fold n. set (h0 := malloc_init base h) in *.
  destruct (ring_rotate _ _ _ _ Hfl) as (w & f & sf & (_ & _ & p & Hp & _) & -> & _).
  unfold ptr_of. rewrite Hp, ubind_ret.
  destruct (pass_exec _ _ _ _ n p Hfl Hp) as (prev & q & s & j & Hprev & Hq & Hs & Hj & Hfit & Hex).
  specialize (Hex fuel (Datatypes.S (fuel - j - 1)) st).
  replace (j + Datatypes.S (fuel - j - 1))%nat with fuel in Hex by lia. rewrite Hex.
  destruct Hfit as [Hfit|(-> & Hsmall & HB)].
  { destruct (round_hit _ _ _ _ _ _ _ n (fuel - j - 1) fuel st Hfl Hprev Hq Hs) as (h' & b & B' & Hr & Htk); [lia|].
    exists st. right. exists h', b, B'. split; [exact Hr|]. split; [by apply taken_served|]. left. split; [|done].
    eapply fits_exists; [exact Hfl|exact Hprev|exact Hq|exact Hs|lia]. }
  destruct (morecore_exec _ _ _ n fuel st Hfl)
    as (st' & [(Hm & Hbrk & Href)|(h1 & B1 & nu & Hm & Hfl1 & Hnu & Hgr & Hbrk & Hlen & Hc & Hfr)]);
    [lia|lia|..]; exists st'.
  { left. split_and!; [by eapply round_refused|done|done|done]. }
  assert (n ≤ nu) as Hnnu by (unfold grow_units in Hnu; lia).
  right. destruct (ring_rotate _ _ _ _ Hfl1) as (w1 & f1 & sf1 & (_ & _ & p1 & Hp1 & _) & -> & _).
  rewrite (round_grown _ _ _ _ _ _ _ _ _ _ _ Hs Hsmall Hm (freep_nonzero _ _ _ _ Hfl1) Hp1).
  destruct (pass_exec _ _ _ _ n p1 Hfl1 Hp1) as (prev1 & q1 & s1 & j1 & Hprev1 & Hq1 & Hs1 & Hj1 & Hfit1 & Hex1).
  replace (fuel - j - 1)%nat with (j1 + Datatypes.S (fuel - j - j1 - 2))%nat by lia. rewrite Hex1.
  destruct Hfit1 as [Hfit1|(_ & _ & HB1)]; [|exfalso].
  - destruct (round_hit _ _ _ _ _ _ _ n (fuel - j - j1 - 2) fuel st' Hfl1 Hprev1 Hq1 Hs1)
      as (h' & b & B' & Hr1 & [? ? Hb ? Hf Hl]); [lia|].
    exists h', b, B'. split; [exact Hr1|]. split; [|right; split_and!; [done|done|by rewrite <- Hnu]].
    split; try done; [unfold HDR in *; lia| | |lia].
    + intros x. rewrite <-Hb, Hc. unfold covers; simpl. rewrite Hbrk. tauto.
    + intros a Ha Hlt Hna. rewrite <-Hfr by done. apply Hf; [done|]. rewrite Hc. unfold covers; simpl. intros [?|?]; [done|lia].
  - destruct (covers_one _ _ (brk st) nu (fl_ordered _ _ _ _ Hfl1)) as (c & Hc1 & Hc2); [lia| |].
    { intros x Hx. apply Hc. by right. }
    rewrite list.Forall_forall in HB1. specialize (HB1 c Hc1). simpl in HB1. lia.
Qed.
End ops.

(** ** The allocator and its client *)

(** The heap below [hi] with free blocks [B] and the blocks [A] handed out, by
    the address of their header. *)
Record heap_inv (base hi : Z) (B : list block) (A : gmap Z Z) (h : heap) : Prop := HeapInv {
  hp_list : free_list base hi B h;
  hp_block : ∀ a n, A !! a = Some n → 0 < n ∧ base + HDR ≤ a ∧ a + HDR * n ≤ hi ∧ h_size h !! a = Some n;
  hp_apart : ∀ a n x, A !! a = Some n → covers (a, n) x → ¬ covered B x;
  hp_disjoint : ∀ a n b m x, A !! a = Some n → A !! b = Some m → covers (a, n) x → covers (b, m) x → a = b }.

Lemma heap_inv_init base hi : 0 < base → base + HDR ≤ hi → hi < 2 ^ 36 →
  heap_inv base hi [] ∅ (malloc_init base (Heap ∅ ∅ 0)).
Proof.
  intros ? ? ?. split; [split| | |]; try by intros *; rewrite lookup_empty.
  - simpl. rewrite !lookup_insert_eq. eauto.
  - done.
  - by intros x []%covered_nil.
  - by left.
  - done.
  - done.
Qed.

(** A served request extends the blocks handed out. *)
Lemma served_inv base brk0 brk1 B A h b n B' h' :
  heap_inv base brk0 B A h → served base brk0 brk1 B h b n B' h' → 0 < n →
  A !! b = None ∧ heap_inv base brk1 B' (<[b := n]> A) h'.
Proof.
  intros [Hfl Hblk Hap Hdis] [Hfl' Hle Hsz Hby Hap' Hfr _] Hn.
  pose proof (fl_base _ _ _ _ Hfl) as [_ Hb0].
  assert (∀ x, covers (b, n) x → covered B x ∨ brk0 ≤ x < brk1) as Hin by (intros x Hx; apply Hby; by right).
  assert (∀ x, covered B x ∨ brk0 ≤ x < brk1 → base + HDR ≤ x < brk1) as Hrange.
  { intros x [Hx|Hx]; [|lia]. pose proof (fl_bounded _ _ _ _ Hfl x Hx).
    pose proof (ordered_covered _ _ _ (fl_ordered _ _ _ _ Hfl) Hx). lia. }
  assert (∀ a m x, A !! a = Some m → covers (a, m) x → ¬ (covered B x ∨ brk0 ≤ x < brk1)) as Hold.
  { intros a m x Ha Hx [Hc|Hc]; [by apply (Hap a m x)|].
    destruct (Hblk a m Ha) as (_ & _ & ? & _). unfold covers in Hx; simpl in Hx. lia. }
  assert (A !! b = None) as HbA.
  { destruct (A !! b) as [m|] eqn:E; [exfalso|done]. destruct (Hblk b m E) as (Hm & _).
    apply (Hold b m b E (block_start _ _ Hm)), Hin. by apply block_start. }
  split; [done|]. split; [done| | |].
  - intros a m [[<- <-]|[Hne Ha]]%lookup_insert_Some.
    + pose proof (Hrange b (Hin b (block_start _ _ Hn))).
      assert (covers (b, n) (b + HDR * n - 1)) as Hl by (unfold covers, HDR; simpl; lia).
      pose proof (Hrange _ (Hin _ Hl)). split_and!; [done|lia|lia|done].
    + destruct (Hblk a m Ha) as (Hm & ? & ? & Hs). split_and!; [done|done|lia|].
      rewrite Hfr; [done|unfold HDR in *; lia|unfold HDR in *; lia|]. apply (Hap a m a Ha). by apply block_start.
  - intros a m x [[<- <-]|[Hne Ha]]%lookup_insert_Some Hx; [by apply Hap'|].
    intros Hc. apply (Hold a m x Ha Hx), Hby. by left.
  - intros a m c k x [[<- <-]|[Hne Ha]]%lookup_insert_Some [[<- <-]|[Hne' Hc]]%lookup_insert_Some Hx Hy.
    + done.
    + by destruct (Hold c k x Hc Hy (Hin x Hx)).
    + by destruct (Hold a m x Ha Hx (Hin x Hy)).
    + by apply (Hdis a m c k x).
Qed.

Section client.
Context {S : Type} (env : ucall → S → resp * S) (brk : S → Z) `{!Sbrk env brk}.

(** C20: [malloc] for up to 2^31 - 32 bytes always returns.  When a free block
    is large enough the request is served from the free list without a system
    call.  When none is, [malloc] asks [sbrk] for the request or 4096 units,
    whichever is more, and serves it if the kernel grants that; null, with the
    heap and the break unchanged, is returned only when no free block is large
    enough and [sbrk] refuses.  A block served lies behind its header, holds the
    request and is apart from every block handed out before, whose headers it
    keeps; no free byte is lost. *)
Theorem malloc_allocates base B A h nbytes fuel st :
  heap_inv base (brk st) B A (malloc_init base h) → 0 ≤ nbytes ≤ 2 ^ 31 - 32 → (2 * length B + 3 ≤ fuel)%nat →
  ∃ n h' p st', nbytes ≤ HDR * (n - 1) < nbytes + HDR ∧
    exec_user env (malloc fuel base nbytes h) st = (O_done (h', p), st') ∧
    (if decide (p = 0)
     then h' = malloc_init base h ∧ brk st' = brk st ∧
       Forall (λ c, c.2 < n) B ∧ ∃ buf, env (U_sbrk (HDR * Z.max 4096 n) 1) st = (Resp (-1) buf, st')
     else ∃ B', A !! (p - HDR) = None ∧
       heap_inv base (brk st') B' (<[p - HDR := n]> A) h' ∧
       (∀ x, covered B' x ∨ covers (p - HDR, n) x ↔ covered B x ∨ brk st ≤ x < brk st') ∧
       (Exists (λ c, n ≤ c.2) B ∧ st' = st ∨
        Forall (λ c, c.2 < n) B ∧ brk st' = brk st + HDR * Z.max 4096 n ∧
        ∃ buf, env (U_sbrk (HDR * Z.max 4096 n) 1) st = (Resp (brk st) buf, st'))).
Proof.
  intros Hinv Hnb Hfuel. destruct (units_for_fits _ Hnb) as [Hn Hfit]. exists (units_for nbytes).
  destruct (malloc_list env brk base B h nbytes fuel st (hp_list _ _ _ _ _ Hinv) Hnb Hfuel)
    as (st' & [(Hex & Hb & Hno & Href)|(h' & b & B' & Hex & Hsv & Hhow)]).
  - exists (malloc_init base h), 0, st'. split; [lia|]. split; [done|]. by rewrite decide_True.
  - exists h', (b + HDR), st'. split; [lia|]. split; [done|].
    destruct (served_inv _ _ _ _ _ _ _ _ _ _ Hinv Hsv) as [? Hinv']; [lia|].
    pose proof (hp_block _ _ _ _ _ Hinv' b (units_for nbytes) (lookup_insert_eq _ _ _)) as (_ & Hlo & _).
    pose proof (fl_base _ _ _ _ (hp_list _ _ _ _ _ Hinv)) as [Hb0 _].
    rewrite decide_False by (unfold HDR in *; lia). exists B'.
    replace (b + HDR - HDR) with b by lia.
    split_and!; [done|done|by apply (sv_bytes _ _ _ _ _ _ _ _ _ Hsv)|].
    destruct Hhow as [?|(? & ? & ?)]; [by left|by right].
Qed.

(** [free] of a block in hand, with the heap's invariant. *)
Lemma free_inv base hi B A h b n fuel st :
  heap_inv base hi B A h → A !! b = Some n → (2 * length B + 2 ≤ fuel)%nat →
  ∃ h' B', exec_user env (free fuel (b + HDR) h) st = (O_done h', st) ∧
    heap_inv base hi B' (delete b A) h' ∧ ∀ x, covered B' x ↔ covered B x ∨ covers (b, n) x.
Proof.
  intros [Hfl Hblk Hap Hdis] Hb Hfuel. destruct (Hblk b n Hb) as (Hn & Hlo & Hhi & Hsz).
  destruct (free_exec env base hi B h b n fuel st) as (h' & B' & Hex & Hfl' & Hc & Hfr & Hlen); try done.
  - lia.
  - intros x Hx. by apply (Hap b n x).
  - lia.
  - exists h', B'. split_and!; [done| |done]. split; [done| | |].
    + intros a m [Hne Ha]%lookup_delete_Some. destruct (Hblk a m Ha) as (Hm & ? & ? & Hs).
      split_and!; [done..|]. rewrite Hfr; [done|unfold HDR in *; lia|congruence|].
      apply (Hap a m a Ha). by apply block_start.
    + intros a m x [Hne Ha]%lookup_delete_Some Hx [Hc'|Hc']%Hc; [by apply (Hap a m x)|].
      by destruct Hne, (Hdis b n a m x).
    + intros a m c k x [_ Ha]%lookup_delete_Some [_ Hk]%lookup_delete_Some. by apply Hdis.
Qed.

(** C21: [free] of a block that [malloc] handed out always finds its place in
    the circular list and puts its bytes back on it, in address order and
    joined with its free neighbours; every other block stays as it is. *)
Theorem free_releases base hi B A h b n fuel st :
  heap_inv base hi B A h → A !! b = Some n → (2 * length B + 2 ≤ fuel)%nat →
  ∃ h' B', exec_user env (free fuel (b + HDR) h) st = (O_done h', st) ∧
    heap_inv base hi B' (delete b A) h' ∧
    (∀ x, covered B' x ↔ covered B x ∨ covers (b, n) x) ∧
    (∀ c m, c ≠ b → A !! c = Some m → h_size h' !! c = Some m).
Proof.
  intros Hinv Hb Hfuel. destruct (free_inv _ _ _ _ _ _ _ _ st Hinv Hb Hfuel) as (h' & B' & Hex & Hinv' & Hc).
  exists h', B'. split_and!; [done..|]. intros c m Hne Hcm.
  destruct (hp_block _ _ _ _ _ Hinv' c m) as (_ & _ & _ & ?); [by rewrite lookup_delete_ne|done].
Qed.

(** C22: A block that [malloc] took from the free list and [free] gives back
    leaves the same free list, block by block, and the same blocks in hand. *)
Theorem malloc_free_restores base B A h nbytes fuel st h1 p st1 :
  heap_inv base (brk st) B A (malloc_init base h) → 0 ≤ nbytes ≤ 2 ^ 31 - 32 → (2 * length B + 6 ≤ fuel)%nat →
  exec_user env (malloc fuel base nbytes h) st = (O_done (h1, p), st1) → p ≠ 0 → brk st1 = brk st →
  ∃ h2, exec_user env (free fuel p h1) st1 = (O_done h2, st1) ∧ heap_inv base (brk st) B A h2.
Proof.
  intros Hinv Hnb Hfuel Hm Hp Hbrk. destruct (units_for_fits _ Hnb) as [Hn Hfit].
  destruct (malloc_list env brk base B h nbytes fuel st (hp_list _ _ _ _ _ Hinv) Hnb)
    as (st' & [(Hex & Hb & _)|(h' & b & B' & Hex & Hsv & _)]); [lia|by rewrite Hm in Hex; injection Hex as -> -> ->|].
  rewrite Hm in Hex. injection Hex as -> -> ->.
  destruct (served_inv _ _ _ _ _ _ _ _ _ _ Hinv Hsv) as [Hnone Hinv']; [lia|].
  rewrite Hbrk in Hinv', Hsv.
  destruct (free_inv base (brk st) B' _ h' b (units_for nbytes) fuel st' Hinv') as (h2 & B2 & Hfr & Hinv2 & Hc2).
  { apply lookup_insert_eq. }
  { pose proof (sv_length _ _ _ _ _ _ _ _ _ Hsv). lia. }
  exists h2. split; [done|]. rewrite delete_insert_id in Hinv2 by done.
  replace B with B2; [done|].
  apply (blocks_ext (base + HDR - 1) _ (base + HDR - 1)).
  - apply (fl_ordered _ _ _ _ (hp_list _ _ _ _ _ Hinv2)).
  - apply (fl_ordered _ _ _ _ (hp_list _ _ _ _ _ Hinv)).
  - intros x. rewrite Hc2, (sv_bytes _ _ _ _ _ _ _ _ _ Hsv). split; [|tauto]. intros [?|?]; [done|lia].
Qed.

(** A request of 2^32 - 16 bytes: the size of the new memory is computed in
    64 bits and cut to an [int], so [sbrk] is asked for 0 bytes.  Its answer is
    linked into the list as 2^28 units, and [malloc] hands out a block that
    ends 4 GB above a break that has not moved. *)
Theorem malloc_overcommits base fuel st buf :
  0 < base → base + HDR ≤ brk st < 2 ^ 32 → env (U_sbrk 0 1) st = (Resp (brk st) buf, st) → (4 ≤ fuel)%nat →
  ∃ h', exec_user env (malloc fuel base (2 ^ 32 - 16) (Heap ∅ ∅ 0)) st = (O_done (h', brk st + HDR), st) ∧
    h_size h' !! brk st = Some (2 ^ 28).
Proof.
  intros Hbase Hbrk Hs Hfuel. set (n := 2 ^ 28). set (hi := brk st + HDR * n).
  assert (units_for (2 ^ 32 - 16) = n) as Hu by reflexivity.
  set (h0 := malloc_init base (Heap ∅ ∅ 0)).
  assert (free_list base hi [] h0) as Hfl.
  { apply heap_inv_init; unfold hi, n, HDR in *; lia. }
  destruct (free_exec env base hi [] (set_size (brk st) n h0) (brk st) n fuel st)
    as (h1 & B1 & Hfree & Hfl1 & Hc1 & _ & Hl1); try (unfold hi, n, HDR in *; simpl; lia).
  { destruct Hfl as [Hring ? ? ? ? ?]. split; try done. eapply lseg_frame; [|exact Hring].
    intros c ->%list_elem_of_singleton. split; [done|]. apply lookup_insert_ne. simpl. unfold HDR in *. lia. }
  { intros x _. apply covered_nil. }
  { simpl. apply lookup_insert_eq. }
  assert (exec_user env (morecore fuel n h0) st = (O_done (h1, freep h1), st)) as Hm.
  { unfold morecore. change (n <? 4096) with false. cbv iota zeta. unfold sbrk, sysv, sys.
    change (i32 (n * HDR)) with 0. simpl. rewrite Hs. cbn [r_val].
    destruct (Z.eqb_spec (brk st) (-1)); [unfold HDR in *; lia|]. by rewrite (exec_bind _ _ _ _ _ _ Hfree). }
  destruct (ring_rotate _ _ _ _ Hfl1) as (w1 & f1 & sf1 & (_ & _ & p1 & Hp1 & _) & -> & _).
  destruct (pass_exec env _ _ _ _ n p1 Hfl1 Hp1) as (prev & q & s & j & Hprev & Hq & Hqs & Hj & Hfit & Hex).
  destruct Hfit as [Hfit|(_ & _ & HB1)]; [|exfalso].
  - destruct (round_hit env _ _ _ _ _ _ _ n (fuel - j - 2) fuel st Hfl1 Hprev Hq Hqs)
      as (h' & b & B' & Hr & [? Hsz Hb ? ? ?]); [unfold n in *; lia|].
    assert (b = brk st) as ->.
    { assert (∀ x, covers (b, n) x → covers (brk st, n) x) as Hin.
      { intros x Hx. destruct (proj1 (Hc1 x)) as [[]%covered_nil|?]; [apply Hb; by right|done]. }
      pose proof (Hin b). pose proof (Hin (b + HDR * n - 1)). unfold covers, HDR, n in *; simpl in *. lia. }
    exists h'. split; [|done]. unfold malloc. rewrite Hu. fold h0.
    assert (h_ptr h0 !! freep h0 = Some (freep h0)) as Hp0 by (simpl; apply lookup_insert_eq).
    unfold ptr_of. rewrite Hp0, ubind_ret.
    assert (h_size h0 !! freep h0 = Some 0) as H0 by (simpl; apply lookup_insert_eq).
    pose proof (round_grown env fuel n h0 (freep h0) 0 (j + Datatypes.S (fuel - j - 2)) st h1 (freep h1) p1 st
      H0 ltac:(done) Hm (freep_nonzero _ _ _ _ Hfl1) Hp1) as Hg.
    replace (Datatypes.S (j + Datatypes.S (fuel - j - 2))) with fuel in Hg by (simpl in Hl1; lia).
    by rewrite Hg, Hex, Hr.
  - destruct (covers_one _ _ (brk st) n (fl_ordered _ _ _ _ Hfl1)) as (c & Hc & Hcn); [done| |].
    { intros x Hx. apply Hc1. by right. }
    rewrite list.Forall_forall in HB1. specialize (HB1 c Hc). simpl in HB1. lia.
Qed.
End client.

(** ** Witnesses *)

(** A break between 0 and [limit]. *)
Definition brk_env (limit : Z) (c : ucall) (b : Z) : resp * Z :=
  match c with
  | U_sbrk n _ => if (0 <=? n) && (b + n <=? Z.min limit (2 ^ 36 - 1)) then (Resp b [], b + n) else (Resp (-1) [], b)
  | _ => (Resp (-1) [], b)
  end.

#[export] Instance brk_env_sbrk limit : Sbrk (brk_env limit) id.
Proof.
  intros n st Hn. simpl. destruct (Z.leb_spec 0 n); [|lia].
  destruct (Z.leb_spec (st + n) (Z.min limit (2 ^ 36 - 1))); simpl; eexists _, _, _; split; try done; [right|left]; unfold id; lia.
Qed.

(** A heap with two free units at 200 and three units handed out at 304. *)
Definition demo_heap : heap :=
  Heap (<[100 := 200]> (<[200 := 100]> ∅)) (<[100 := 0]> (<[200 := 2]> (<[304 := 3]> ∅))) 100.
Definition demo_A : gmap Z Z := {[ 304 := 3 ]}.

Lemma demo_inv : heap_inv 100 4096 [(200, 2)] demo_A demo_heap.
Proof.
  unfold demo_A. split; [split| | |].
  - simpl. split_and!; [done..|]. exists 200. split; [done|]. split_and!; [done..|]. by exists 100.
  - done.
  - intros x [Hx|[]%covered_nil]%covered_cons. unfold covers, HDR in Hx; simpl in Hx. lia.
  - by left.
  - done.
  - done.
  - intros a n [<- <-]%lookup_singleton_Some. done.
  - intros a n x [<- <-]%lookup_singleton_Some Hx [Hy|[]%covered_nil]%covered_cons.
    unfold covers, HDR in *; simpl in *. lia.
  - intros a n b m x [<- <-]%lookup_singleton_Some [<- <-]%lookup_singleton_Some. done.
Qed.

Lemma malloc_allocates_witness :
  (∃ h' st', exec_user (brk_env 1000000) (malloc 10 100 100 (Heap ∅ ∅ 0)) 4096 = (O_done (h', 69520), st') ∧ st' = 69632) ∧
  (∃ h' st', exec_user (brk_env 5000) (malloc 10 100 100 (Heap ∅ ∅ 0)) 4096 = (O_done (h', 0), st') ∧ st' = 4096).
Proof.
  assert (Hinv : heap_inv 100 4096 [] ∅ (malloc_init 100 (Heap ∅ ∅ 0))) by (by apply heap_inv_init).
  split.
  - destruct (malloc_allocates (brk_env 1000000) id 100 [] ∅ (Heap ∅ ∅ 0) 100 10 4096 Hinv) as (n & h' & p & st' & _ & Hex & _).
    + lia.
    + simpl. lia.
    + exists h', st'. vm_compute in Hex. injection Hex as <- <- <-. split; reflexivity.
  - destruct (malloc_allocates (brk_env 5000) id 100 [] ∅ (Heap ∅ ∅ 0) 100 10 4096 Hinv) as (n & h' & p & st' & _ & Hex & _).
    + lia.
    + simpl. lia.
    + exists h', st'. vm_compute in Hex. injection Hex as <- <- <-. split; reflexivity.
Defined.

Lemma free_releases_witness :
  ∃ h' B', heap_inv 100 4096 B' ∅ h' ∧ ∀ x, covered B' x ↔ covered [(200, 2)] x ∨ covers (304, 3) x.
Proof.
  destruct (free_releases (brk_env 1000000) 100 4096 [(200, 2)] demo_A demo_heap 304 3 10 4096)
    as (h' & B' & _ & Hinv & Hc & _); [exact demo_inv|reflexivity|simpl; lia|].
  exists h', B'. split; [|exact Hc]. unfold demo_A in Hinv. by rewrite delete_singleton_eq in Hinv.
Defined.

Lemma malloc_free_restores_witness :
  ∃ h1 h2, exec_user (brk_env 1000000) (malloc 10 100 8 demo_heap) 4096 = (O_done (h1, 216), 4096) ∧
    heap_inv 100 4096 [(200, 2)] demo_A h2.
Proof.
  assert (∃ h1, exec_user (brk_env 1000000) (malloc 10 100 8 demo_heap) 4096 = (O_done (h1, 216), 4096)) as [h1 Hex].
  { eexists. vm_compute. reflexivity. }
  destruct (malloc_free_restores (brk_env 1000000) id 100 [(200, 2)] demo_A demo_heap 8 10 4096 h1 216 4096)
    as (h2 & _ & Hinv); [exact demo_inv|lia|simpl; lia|exact Hex|done|done|].
  exists h1, h2. by split.
Defined.

Lemma malloc_overcommits_witness :
  ∃ h', exec_user (brk_env 8192) (malloc 4 100 (2 ^ 32 - 16) (Heap ∅ ∅ 0)) 8192 = (O_done (h', 8208), 8192).
Proof.
  destruct (malloc_overcommits (brk_env 8192) id 100 4 8192 []) as (h' & Hex & _);
    [lia|unfold HDR, id; lia|reflexivity|lia|].
  exists h'. exact Hex.
Defined.
