(* ===== verification/PrintfSpec.v ===== *)
(** * Printing theorems: number buffers and the scheduler log

    [printint] stays within its buffer in the kernel and in the user library.
    With a UART that accepts characters, [printf] writes the rendered text to
    the transmit register and changes nothing else; the scheduler log it
    prints for the agent can be read back into the table snapshot. *)

From S2P Require Import Prelude Decimal User Ulib Riscv State Boot Spinlock ProcTable Machine CString Kalloc Vm Printf Sched.

Lemma kernel_buf_gen xx base sign : Printf.printint_buf xx base sign = gen_buf Printf.digit xx base sign.
Proof. reflexivity. Qed.

Lemma user_buf_gen xx base sign : Ulib.printint_buf xx base sign = gen_buf Ulib.digit xx base sign.
Proof. reflexivity. Qed.

Lemma kernel_digit d : 0 ≤ d < 10 → Printf.digit d = d + 48.
Proof.
  intros Hd. assert (d = 0 ∨ d = 1 ∨ d = 2 ∨ d = 3 ∨ d = 4 ∨ d = 5 ∨ d = 6 ∨ d = 7 ∨ d = 8 ∨ d = 9) as Hc by lia.
  by repeat destruct Hc as [->|Hc]; [..|subst].
Qed.

(** ** What is printed *)

(** The text of [%d] and [%u]. *)
Definition sdec (z : Z) : list Z := rev (Printf.printint_buf (i32 z) 10 true).
Definition udec (z : Z) : list Z := rev (Printf.printint_buf (u32 z) 10 false).

(** The text of a format with plain characters, [%d] and [%u]. *)
Fixpoint render (fmt : list Z) (ap : list parg) : option (list Z) :=
  match fmt with
  | [] => Some []
  | c :: fmt' =>
      if c =? chr "%" then
        match fmt', ap with
        | d :: fmt'', PInt z :: ap' =>
            if d =? chr "d" then app (sdec z) <$> render fmt'' ap'
            else if d =? chr "u" then app (udec z) <$> render fmt'' ap' else None
        | _, _ => None
        end
      else if (0 <? c) && (c <? 256) then cons c <$> render fmt' ap else None
  end.

(** The state after the UART has been given the characters [l]. *)
Definition printed (l : list Z) (s : kernel) : kernel :=
  s <| k_mmio_reads ::= λ n, (length l + n)%nat |>
    <| k_mmio_out ::= λ o, o ++ ((λ c, (UART0 + THR, c)) <$> l) |>.

Lemma printed_nil s : printed [] s = s.
Proof. destruct s. unfold printed. cbv [set set_k_mmio_reads set_k_mmio_out]. ksimpl. by rewrite app_nil_r. Qed.

Lemma printed_app l l' s : printed l' (printed l s) = printed (l ++ l') s.
Proof.
  unfold printed. cbv [set set_k_mmio_reads set_k_mmio_out]. ksimpl. rewrite fmap_app, length_app, app_assoc.
  f_equal. lia.
Qed.

(** The UART is always ready to transmit. *)
Definition uart_ready (d : Device) : Prop :=
  ∀ n, Z.land (u8 (@mmio_in d n (UART0 + LSR))) LSR_TX_IDLE ≠ 0.

(** Printing is possible: no panic is in progress. *)
Record can_print (n : Z) (s : kernel) : Prop := {
  cp_hart : hart_at n (k_hw s);
  cp_panicking : k_panicking s = 0;
  cp_panicked : k_panicked s = 0
}.

Lemma can_print_printed n l s : can_print n s → can_print n (printed l s).
Proof. by intros [? ? ?]. Qed.
#[export] Hint Resolve can_print_printed : kern.

#[local] Opaque u8 u32.

Section print.
Context `{D : Device} (Hready : uart_ready D).

Lemma uartputc_run n c s : can_print n s → uartputc_sync c s = Ret tt (printed [u8 c] s).
Proof.
  intros [Hh Hp Hq]. unfold uartputc_sync. mrun. rewrite Hp. cbn [Z.eqb]. mrun.
  mrun_with (push_off_run n s (hart_at_pre _ _ Hh)). ksimpl. rewrite Hq. cbn [truth negb Z.eqb].
  change POLL_FUEL with (S 99). cbn [while_]. unfold ReadReg, mmio_read, WriteReg, mmio_write. mrun. ksimpl.
  destruct (Z.eqb_spec (Z.land (u8 (mmio_in (k_mmio_reads s) (UART0 + LSR))) LSR_TX_IDLE) 0) as [E|_].
  { by destruct (Hready (k_mmio_reads s)). }
  mrun. ksimpl. rewrite Hp. cbn [Z.eqb]. mrun.
  rewrite (pop_off_run n (k_hw s)); [|done|done]. by destruct s.
Qed.

Lemma consputc_run n c s : can_print n s → 0 ≤ c < 256 → consputc c s = Ret tt (printed [c] s).
Proof.
  intros Hs Hc. unfold consputc, BACKSPACE. destruct (Z.eqb_spec c 256); [lia|].
  rewrite (uartputc_run n) by done. by rewrite u8_small by lia.
Qed.

Lemma print_chars n l s :
  can_print n s → Forall (λ c, 0 ≤ c < 256) l → for_each l consputc s = Ret tt (printed l s).
Proof.
  intros Hs Hl. revert s Hs. induction Hl as [|c l Hc Hl IH]; intros s Hs; cbn [for_each].
  - mrun. by rewrite printed_nil.
  - mrun_with (consputc_run n c s Hs Hc). rewrite IH by (by apply can_print_printed). by rewrite printed_app.
Qed.

Lemma gen_buf_chars xx sign : Forall (λ c, 0 ≤ c < 256) (gen_buf Printf.digit xx 10 sign).
Proof.
  unfold gen_buf. apply Forall_app_2; [|destruct (sign && (xx <? 0)); repeat constructor; done].
  eapply list.Forall_impl; [apply (gen_digits_val Printf.digit kernel_digit 64)|].
  - pose proof (u64_range (if sign && (xx <? 0) then - xx else xx)) as Hu. split; [lia|].
    eapply Z.lt_trans; [apply Hu|reflexivity].
  - lia.
  - intros c Hc%dec_digit_range. lia.
Qed.

Lemma printint_run n xx sign s :
  can_print n s → printint xx 10 sign s = Ret tt (printed (rev (Printf.printint_buf xx 10 sign)) s).
Proof. intros Hs. apply (print_chars n); [done|]. apply Forall_rev. rewrite kernel_buf_gen. apply gen_buf_chars. Qed.

Lemma printf_loop_run n fmt ap out s :
  can_print n s → render fmt ap = Some out → printf_loop fmt ap s = Ret tt (printed out s).
Proof.
  unfold printf_loop. assert (Hn : (length fmt < S (length fmt))%nat) by lia. revert Hn.
  generalize (S (length fmt)) as fuel. intros fuel. revert fmt ap out s.
  induction fuel as [|fuel IH]; intros fmt ap out s Hn Hs Hr; [lia|]. cbn [while_].
  destruct fmt as [|c fmt]; cbn [render] in Hr.
  { simplify_eq. mrun. cbn [head default from_option id]. mrun. by rewrite printed_nil. }
  cbn [length] in Hn. cbn [head default from_option tail id]. destruct (Z.eqb_spec c (chr "%")) as [->|Hc].
  - destruct fmt as [|d fmt]; [done|]. destruct ap as [|[z|] ap]; [done| |done]. cbn [length] in Hn.
    assert (Hz : (chr "%" =? 0) = false) by done. mrun. rewrite Hz.
    cbn [negb].
    destruct (Z.eqb_spec d (chr "d")) as [->|Hd].
    + destruct (render fmt ap) as [out'|] eqn:Hr'; simplify_eq/=. unfold printf_conv.
      change (default 0 ((chr "d" :: fmt) !! 0%nat)) with (chr "d"). rewrite Z.eqb_refl. cbn [va_int]. mrun.
      rewrite (printint_run n) by done. mrun. cbn [drop].
      rewrite (IH fmt ap out') by (try apply can_print_printed; done || lia). by rewrite printed_app.
    + destruct (Z.eqb_spec d (chr "u")) as [->|Hu]; [|done].
      destruct (render fmt ap) as [out'|] eqn:Hr'; simplify_eq/=. unfold printf_conv.
      change (default 0 ((chr "u" :: fmt) !! 0%nat)) with (chr "u").
      assert ((chr "u" =? chr "d") = false) as -> by done. assert ((chr "u" =? chr "l") = false) as -> by done.
      rewrite Z.eqb_refl. cbn [andb va_int]. mrun.
      rewrite (printint_run n) by done. mrun. cbn [drop].
      rewrite (IH fmt ap out') by (try apply can_print_printed; done || lia). by rewrite printed_app.
  - destruct ((0 <? c) && (c <? 256)) eqn:Hrange; [|done].
    apply andb_true_iff in Hrange as [H0%Z.ltb_lt H1%Z.ltb_lt].
    destruct (render fmt ap) as [out'|] eqn:Hr'; simplify_eq/=.
    destruct (Z.eqb_spec c 0); [lia|]. cbn [negb]. mrun_with (consputc_run n c s Hs); [|lia].
    rewrite (IH fmt ap out') by (try apply can_print_printed; done || lia). by rewrite printed_app.
Qed.

Lemma printf_run n fmt ap out s :
  can_print n s → lock_free L_pr (k_hw s) → n + 1 < 2 ^ 30 → render fmt ap = Some out →
  Printf.printf fmt ap s = Ret tt (printed out s).
Proof.
  intros Hs Hl Hn Hr. pose proof Hs as [Hh Hp Hq]. unfold Printf.printf. mrun. rewrite Hp. cbn [Z.eqb]. mrun.
  mrun_with (acquire_run n L_pr s Hh Hl).
  rewrite (printf_loop_run (n + 1) fmt ap out); [|split; [by apply hart_at_acq|done|done]|done]. mrun.
  change (k_panicking (printed out _)) with (k_panicking s). rewrite Hp. cbn [Z.eqb]. mrun.
  rewrite (release_run n L_pr (k_hw s)); [|done|done|done]. by destruct s.
Qed.

(** ** The scheduler log *)

Definition in_use (x : proc) : bool := negb (bool_decide (p_state x = UNUSED)).
Definition snapshot (l : list proc) : list (list Z) := snap_row <$> filter (λ x, in_use x = true) l.

Lemma snapshot_cons x l : snapshot (x :: l) = (if in_use x then [snap_row x] else []) ++ snapshot l.
Proof. unfold snapshot. rewrite filter_cons. destruct (in_use x) eqn:E; by rewrite ?decide_True, ?decide_False by done. Qed.

Definition snap_step (s : kernel) (a : list (list Z)) (i : nat) : list (list Z) :=
  match k_procs s !! i with
  | Some x => if in_use x && (length a <? NPROC)%nat then a ++ [snap_row x] else a
  | None => a
  end.

Lemma for_fold_pure {A X} (l : list A) (body : X → A → M X) f a s :
  (∀ a x, x ∈ l → body a x s = Ret (f a x) s) → for_fold l body a s = Ret (foldl f a l) s.
Proof.
  revert a. induction l as [|x l IH]; intros a Hb; [done|]. cbn [for_fold foldl]. mrun.
  rewrite Hb by set_solver. mrun. apply IH. intros a' y Hy. apply Hb. set_solver.
Qed.

Lemma snap_fold s n k a :
  (k + n = length (k_procs s))%nat → (length (k_procs s) ≤ NPROC)%nat → (length a ≤ k)%nat →
  foldl (snap_step s) a (seq k n) = a ++ snapshot (drop k (k_procs s)).
Proof.
  revert k a. induction n as [|n IH]; intros k a Hk Hl Ha; cbn [seq foldl].
  - rewrite drop_ge by lia. by rewrite app_nil_r.
  - destruct (lookup_lt_is_Some_2 (k_procs s) k) as [x Hx]; [lia|].
    rewrite (drop_S _ _ _ Hx), snapshot_cons. unfold snap_step at 2. rewrite Hx.
    destruct (in_use x); cbn [andb].
    + destruct (Nat.ltb_spec (length a) NPROC); [|lia]. rewrite IH by (rewrite ?length_app; cbn; lia).
      by rewrite <- app_assoc.
    + rewrite IH by lia. done.
Qed.

(** The text of one log entry and of the whole block. *)
Definition log_row (row : list Z) : list Z :=
  match row with
  | [pid; st; cpu; wait; io; recent] =>
      str "PROC:" ++ sdec pid ++ str "," ++ sdec st ++ str "," ++ sdec cpu ++ str "," ++
      sdec wait ++ str "," ++ sdec io ++ str "," ++ sdec recent ++ [10]
  | _ => []
  end.
Definition log_text (s : kernel) : list Z :=
  str "SCHED_LOG_START" ++ [10] ++ str "TIMESTAMP:" ++ udec (k_ticks s) ++ [10] ++
  mjoin (log_row <$> snapshot (k_procs s)) ++ str "SCHED_LOG_END" ++ [10].

Definition spec_d : list Z := [chr "%"; chr "d"].

Lemma render_d fmt z ap : render (spec_d ++ fmt) (PInt z :: ap) = app (sdec z) <$> render fmt ap.
Proof. reflexivity. Qed.

Lemma render_plain l fmt ap :
  forallb (λ c, negb (c =? chr "%") && ((0 <? c) && (c <? 256))) l = true →
  render (l ++ fmt) ap = app l <$> render fmt ap.
Proof.
  induction l as [|c l IH]; intros Hl; cbn [app render]; [by destruct (render fmt ap)|].
  cbn [forallb] in Hl. apply andb_true_iff in Hl as [[Hc Hr]%andb_true_iff Hl].
  apply negb_true_iff in Hc. rewrite Hc, Hr, IH by done. by destruct (render fmt ap).
Qed.

Lemma render_row x :
  render (str "PROC:%d,%d,%d,%d,%d,%d" ++ [10]) (PInt <$> snap_row x) = Some (log_row (snap_row x)).
Proof.
  change (str "PROC:%d,%d,%d,%d,%d,%d" ++ [10]) with
    (str "PROC:" ++ spec_d ++ str "," ++ spec_d ++ str "," ++ spec_d ++ str "," ++ spec_d ++ str "," ++
     spec_d ++ str "," ++ spec_d ++ [10]).
  unfold snap_row, log_row. cbn [fmap list_fmap].
  rewrite !render_plain by done. rewrite !render_d, !render_plain by done.
  rewrite !render_d, !render_plain by done. by rewrite !render_d, !render_plain by done.
Qed.

Lemma log_rows_run n l s :
  can_print n s → lock_free L_pr (k_hw s) → n + 1 < 2 ^ 30 →
  for_each (snapshot l) (λ row, Printf.printf (str "PROC:%d,%d,%d,%d,%d,%d" ++ [10]) (PInt <$> row)) s =
  Ret tt (printed (mjoin (log_row <$> snapshot l)) s).
Proof.
  intros Hs Hl Hn. unfold snapshot. generalize (filter (λ x, in_use x = true) l). clear l. intros l.
  revert s Hs Hl. induction l as [|x l IH]; intros s Hs Hl.
  - cbn. by rewrite printed_nil.
  - change (mjoin (log_row <$> (snap_row <$> x :: l))) with (log_row (snap_row x) ++ mjoin (log_row <$> (snap_row <$> l))).
    cbn [fmap list_fmap for_each]. mrun. rewrite (printf_run n _ _ (log_row (snap_row x))); [|done|done|done|apply render_row].
    mrun. rewrite IH; [|by apply can_print_printed|done]. by rewrite printed_app.
Qed.

Lemma log_scheduling_state_run n s :
  can_print n s → sweepable n s → lock_free L_pr (k_hw s) → n + 1 < 2 ^ 30 →
  log_scheduling_state s = Ret tt (printed (log_text s) s).
Proof.
  intros Hs [Hh Hf Hlen] Hl Hn. unfold log_scheduling_state. mrun.
  rewrite (for_fold_pure _ _ (snap_step s)).
  2:{ intros a i Hi. apply elem_of_seq in Hi. destruct (lookup_lt_is_Some_2 (k_procs s) i) as [x Hx]; [lia|].
      assert (Hfi : lock_free (L_proc i) (k_hw s)) by (apply Hf; lia).
      mrun_with (acquire_run n _ s Hh Hfi). mrun_with (get_proc_run _ i x); [|exact Hx].
      mrun_with (release_run n (L_proc i) (k_hw s)); [|done|done|done]. unfold snap_step. rewrite Hx.
      f_equal. exact (kernel_hw_id s). }
  rewrite snap_fold by (cbn; lia). rewrite drop_0. cbn [app]. mrun.
  rewrite (printf_run n _ _ (str "SCHED_LOG_START" ++ [10])); [|auto with kern|done|done|vm_compute; reflexivity]. mrun.
  rewrite (printf_run n _ _ (str "TIMESTAMP:" ++ udec (k_ticks s) ++ [10])); [|auto with kern|done|done|].
  2:{ change (k_ticks (printed _ s)) with (k_ticks s).
      change (str "TIMESTAMP:%u" ++ [10]) with (str "TIMESTAMP:" ++ [chr "%"; chr "u"; 10]).
      by rewrite render_plain by done. }
  mrun. rewrite (log_rows_run n) by auto with kern. mrun.
  rewrite (printf_run n _ _ (str "SCHED_LOG_END" ++ [10])); [|auto with kern|done|done|vm_compute; reflexivity].
  rewrite !printed_app. unfold log_text. by rewrite <- !app_assoc.
Qed.

End print.

(** ** Reading the log back

    A reader for the block, as the agent has it: a header, the time stamp, one
    row of six numbers per process, a trailer. *)

Fixpoint expect (p l : list Z) : option (list Z) :=
  match p, l with
  | [], _ => Some l
  | c :: p, d :: l => if c =? d then expect p l else None
  | _, [] => None
  end.

Fixpoint read_row (n : nat) (l : list Z) : option (list Z * list Z) :=
  '(z, r) ← read_int l;
  match n with
  | O => Some ([z], r)
  | S n => r ← expect (str ",") r; '(zs, r) ← read_row n r; Some (z :: zs, r)
  end.

Definition read_line (l : list Z) : option (list Z * list Z) :=
  r ← expect (str "PROC:") l; '(row, r) ← read_row 5 r; r ← expect [10] r; Some (row, r).

Fixpoint read_rows (fuel : nat) (l : list Z) : list (list Z) * list Z :=
  match fuel with
  | O => ([], l)
  | S fuel =>
      match read_line l with
      | Some (row, r) => (row :: (read_rows fuel r).1, (read_rows fuel r).2)
      | None => ([], l)
      end
  end.

Definition read_log (l : list Z) : option (Z * list (list Z)) :=
  r ← expect (str "SCHED_LOG_START" ++ [10] ++ str "TIMESTAMP:") l;
  '(t, r) ← read_int r;
  r ← expect [10] r;
  let '(rows, r) := read_rows (length r) r in
  r ← expect (str "SCHED_LOG_END" ++ [10]) r;
  match r with [] => Some (t, rows) | _ => None end.

Lemma expect_app p l : expect p (p ++ l) = Some l.
Proof. induction p as [|c p IH]; [done|]. cbn. by rewrite Z.eqb_refl. Qed.

Definition int32 (z : Z) : Prop := - 2 ^ 31 ≤ z < 2 ^ 31.

Lemma read_sdec z c rest : int32 z → dec_digit c = false → read_int (sdec z ++ c :: rest) = Some (z, c :: rest).
Proof.
  intros Hz Hc. unfold sdec. rewrite kernel_buf_gen, i32_small by done. unfold int32 in Hz.
  apply (read_int_gen_buf _ kernel_digit); [lia|]. intros d [= <-]. done.
Qed.

Lemma read_udec z c rest :
  0 ≤ z < 2 ^ 32 → dec_digit c = false → read_int (udec z ++ c :: rest) = Some (z, c :: rest).
Proof.
  intros Hz Hc. unfold udec. rewrite kernel_buf_gen, u32_small by done.
  assert (gen_buf Printf.digit z 10 false = gen_buf Printf.digit z 10 true) as ->.
  { unfold gen_buf. cbn [andb]. by destruct (Z.ltb_spec z 0); [lia|]. }
  apply (read_int_gen_buf _ kernel_digit); [lia|]. intros d [= <-]. done.
Qed.

Lemma read_line_row x rest : Forall int32 (snap_row x) → read_line (log_row (snap_row x) ++ rest) = Some (snap_row x, rest).
Proof.
  unfold snap_row. intros Hr. repeat (apply Forall_cons_1 in Hr as [? Hr]).
  unfold read_line, log_row. rewrite <- !app_assoc, expect_app. cbn [mbind option_bind read_row].
  change (str ",") with [44]. cbn [app].
  do 6 (rewrite read_sdec by done; cbn [mbind option_bind expect Z.eqb Pos.eqb]). done.
Qed.

Lemma read_rows_app l rest fuel :
  Forall (λ x, Forall int32 (snap_row x)) l → read_line rest = None → (length l < fuel)%nat →
  read_rows fuel (mjoin (log_row <$> (snap_row <$> l)) ++ rest) = (snap_row <$> l, rest).
Proof.
  intros Hl Hr. revert fuel. induction Hl as [|x l Hx Hl IH]; intros fuel Hf; (destruct fuel as [|fuel]; [lia|]).
  - cbn [fmap list_fmap mjoin list_join app read_rows]. by rewrite Hr.
  - change (mjoin (log_row <$> (snap_row <$> x :: l))) with (log_row (snap_row x) ++ mjoin (log_row <$> (snap_row <$> l))).
    rewrite <- app_assoc. cbn [read_rows]. rewrite read_line_row by done.
    cbn [length] in Hf. rewrite IH by lia. done.
Qed.

Lemma length_log_rows l : (length l ≤ length (mjoin (log_row <$> (snap_row <$> l))))%nat.
Proof.
  induction l as [|x l IH]; [done|].
  change (mjoin (log_row <$> (snap_row <$> x :: l))) with (log_row (snap_row x) ++ mjoin (log_row <$> (snap_row <$> l))).
  rewrite length_app. unfold log_row at 1, snap_row at 1. rewrite length_app. cbn [length]. change (length (str "PROC:")) with 5%nat. lia.
Qed.

Lemma read_log_text s :
  0 ≤ k_ticks s < 2 ^ 32 → Forall (λ x, Forall int32 (snap_row x)) (k_procs s) →
  read_log (log_text s) = Some (k_ticks s, snapshot (k_procs s)).
Proof.
  intros Ht Hp. unfold read_log, log_text, snapshot.
  set (l := filter (λ x, in_use x = true) (k_procs s)).
  assert (Hl : Forall (λ x, Forall int32 (snap_row x)) l).
  { apply list.Forall_forall. intros x [_ Hx]%list_elem_of_filter. by apply (proj1 (list.Forall_forall _ _) Hp). }
  set (rows := mjoin _).
  replace (str "SCHED_LOG_START" ++ [10] ++ str "TIMESTAMP:" ++ udec (k_ticks s) ++ [10] ++ rows ++ str "SCHED_LOG_END" ++ [10])
    with ((str "SCHED_LOG_START" ++ [10] ++ str "TIMESTAMP:") ++ udec (k_ticks s) ++ 10 :: rows ++ str "SCHED_LOG_END" ++ [10])
    by (by rewrite <- !app_assoc).
  rewrite expect_app. cbn [mbind option_bind]. rewrite read_udec by done. cbn [mbind option_bind expect Z.eqb Pos.eqb].
  rewrite (read_rows_app l); [|done|vm_compute; reflexivity|].
  - by rewrite <- (app_nil_r (str "SCHED_LOG_END" ++ [10])), expect_app.
  - pose proof (length_log_rows l). rewrite length_app. unfold rows. cbn [length]. change (length (str "SCHED_LOG_END" ++ [10])) with 14%nat. lia.
Qed.

(** ** Theorems *)

(** [printint] never overruns its 20-byte buffer.  In the kernel and in
    the user library, for every argument the conversions pass and both bases,
    between one and twenty characters are stored. *)
Theorem printint_fits xx base sign :
  base = 10 ∨ base = 16 → - 2 ^ 63 ≤ xx < 2 ^ 63 →
  (0 < length (Printf.printint_buf xx base sign) ≤ 20)%nat ∧
  (0 < length (Ulib.printint_buf xx base sign) ≤ 20)%nat.
Proof.
  intros Hb Hx. split.
  - rewrite (kernel_buf_gen xx). by apply gen_buf_fits.
  - rewrite (user_buf_gen xx). by apply gen_buf_fits.
Qed.

(** C19: the scheduler log is faithful.  On a UART that accepts characters,
    [log_scheduling_state] prints one block, leaves every process and every
    lock as it was, and a reader of the block's format gets back the tick
    counter and, for each table entry in use, in table order, the pid, state
    and counters it holds, negative values included. *)
Theorem sched_log_readable `{D : Device} n s :
  uart_ready D → can_print n s → sweepable n s → lock_free L_pr (k_hw s) → n + 1 < 2 ^ 30 →
  0 ≤ k_ticks s < 2 ^ 32 → Forall (λ x, Forall int32 (snap_row x)) (k_procs s) →
  ∃ text, log_scheduling_state s = Ret tt (printed text s) ∧
    read_log text = Some (k_ticks s, snap_row <$> filter (λ x, in_use x = true) (k_procs s)).
Proof.
  intros Hd Hc Hs Hl Hn Ht Hp. exists (log_text s). split; [by apply (log_scheduling_state_run Hd n)|].
  by apply read_log_text.
Qed.

(** ** The theorems on concrete inputs *)

Lemma printint_fits_witness :
  (length (Printf.printint_buf (- 2 ^ 63) 10 true) ≤ 20)%nat ∧ length (Printf.printint_buf (- 2 ^ 63) 10 true) = 20%nat.
Proof.
  split; [|vm_compute; reflexivity].
  destruct (printint_fits (- 2 ^ 63) 10 true) as [[_ H] _]; [left; reflexivity|lia|exact H].
Defined.

Lemma demo_rows : Forall (λ x, Forall int32 (snap_row x)) demo_procs.
Proof.
  unfold demo_procs. apply Forall_app_2; [repeat constructor; vm_compute; congruence|].
  apply Forall_replicate. repeat constructor; vm_compute; congruence.
Qed.

Lemma sched_log_readable_witness :
  ∃ text, @log_scheduling_state demo_device demo = Ret tt (printed text demo) ∧
    read_log text = Some (0, [[1; 2; 0; 0; 0; 0]; [2; 3; 0; 0; 0; 0]; [3; 3; 0; 0; 0; 0]; [4; 4; 0; 0; 0; 0]]).
Proof.
  apply (@sched_log_readable demo_device 0 demo).
  - intros n. vm_compute. discriminate.
  - split; [apply demo_hart_at|reflexivity|reflexivity].
  - apply (demo_sweepable None).
  - apply is_free_lock_free. vm_compute. reflexivity.
  - reflexivity.
  - vm_compute. split; congruence.
  - apply demo_rows.
Defined.
