(* ===== verification/CrashSpec.v ===== *)
(** * Crash recovery

    A commit is atomic with respect to crashes: wherever the machine stops,
    what recovery makes of the disk is the file system before the commit or the
    file system after it; and recovery itself may be interrupted and repeated.
    The process that commits or recovers is the only one that uses the buffer
    cache meanwhile (CacheSpec.v). *)

From S2P Require Import Prelude Decimal Riscv State Boot Spinlock ProcTable Machine CString Kalloc Vm Printf Sched SchedSpec Sleeplock SleeplockSpec FsDefs Virtio Bio BioSpec Frame Log LogSpec DiskSpec CacheSpec PrintfSpec.

(** ** Integers in blocks *)

Lemma length_wr_le n off v l : length (wr_le n off v l) = length l.
Proof. apply length_splice. Qed.

Lemma slice_splice_same {A} i (l' l : list A) : (i + length l' ≤ length l)%nat → slice i (length l') (splice i l' l) = l'.
Proof.
  intros Hl. unfold slice, splice. rewrite drop_app_ge by (rewrite length_take; lia).
  rewrite length_take, Nat.min_l, Nat.sub_diag, drop_0 by lia.
  rewrite (take_ge l') by lia. by rewrite take_app_length.
Qed.

Lemma slice_splice_other {A} i j n (l' l : list A) : (i + length l' ≤ length l)%nat →
  (j + n ≤ i ∨ i + length l' ≤ j)%nat → slice j n (splice i l' l) = slice j n l.
Proof.
  intros Hl Hj. apply list_eq. intros k. unfold slice, splice. rewrite (take_ge l') by lia.
  destruct (decide (k < n)%nat) as [Hk|Hk].
  - rewrite !lookup_take_lt, !lookup_drop by done. destruct Hj as [Hj|Hj].
    + rewrite lookup_app_l by (rewrite length_take; lia). by rewrite lookup_take_lt by lia.
    + rewrite lookup_app_r by (rewrite length_take; lia). rewrite length_take, Nat.min_l by lia.
      rewrite lookup_app_r by lia. rewrite lookup_drop. f_equal. lia.
  - rewrite !lookup_take_ge by lia. done.
Qed.

Lemma rd_wr_same off v l : 0 ≤ off → off + 4 ≤ Z.of_nat (length l) → 0 ≤ v < 2 ^ 32 → rd_le 4 off (wr_le 4 off v l) = v.
Proof.
  intros Ho Hl Hv. unfold rd_le, wr_le. change 4%nat with (length (le_bytes 4 v)) at 1.
  rewrite slice_splice_same by (rewrite length_le_bytes; lia). by apply le_val_bytes.
Qed.

Lemma rd_wr_other off off' v l : 0 ≤ off → 0 ≤ off' → off' + 4 ≤ Z.of_nat (length l) → off + 4 ≤ off' ∨ off' + 4 ≤ off →
  rd_le 4 off (wr_le 4 off' v l) = rd_le 4 off l.
Proof.
  intros Ho Ho' Hl Hd. unfold rd_le, wr_le. rewrite slice_splice_other; [done| |]; rewrite length_le_bytes; lia.
Qed.

(** ** The header block *)

Definition hd_n (bs : list Z) : Z := i32 (rd_le 4 0 bs).
Definition hd_dst (bs : list Z) (i : nat) : Z := u32 (i32 (rd_le 4 (4 + 4 * Z.of_nat i) bs)).

(** What [write_head] makes of the header block. *)
Definition put_dst (lg : log) (bs : list Z) (i : nat) : list Z :=
  wr_le 4 (4 + 4 * Z.of_nat i) (u32 (default 0 (lh_block lg !! i))) bs.
Definition put_head (lg : log) (bs : list Z) : list Z :=
  foldl (put_dst lg) (wr_le 4 0 (u32 (lh_n lg)) bs) (tails (lh_n lg)).

Lemma length_put lg l bs : length (foldl (put_dst lg) bs l) = length bs.
Proof. revert bs. induction l as [|i l IH]; intros bs; [done|]. cbn. rewrite IH. apply length_wr_le. Qed.

Lemma put_n lg l bs : (∀ i, i ∈ l → 8 + 4 * Z.of_nat i ≤ Z.of_nat (length bs)) → hd_n (foldl (put_dst lg) bs l) = hd_n bs.
Proof.
  revert bs. induction l as [|i l IH]; intros bs Hl; [done|]. cbn. specialize (Hl i ltac:(by left)) as Hi.
  rewrite IH; unfold put_dst.
  - unfold hd_n. by rewrite rd_wr_other by lia.
  - intros j Hj. rewrite length_wr_le. apply Hl. by right.
Qed.

Lemma put_dst_other lg l bs i : (∀ j, j ∈ l → 8 + 4 * Z.of_nat j ≤ Z.of_nat (length bs)) → i ∉ l →
  hd_dst (foldl (put_dst lg) bs l) i = hd_dst bs i.
Proof.
  revert bs. induction l as [|j l IH]; intros bs Hl Hi; [done|]. cbn. apply list.not_elem_of_cons in Hi as [Hij Hi].
  specialize (Hl j ltac:(by left)) as Hj. rewrite IH; [|intros k Hk; unfold put_dst; rewrite length_wr_le; apply Hl; by right|done].
  unfold put_dst, hd_dst. by rewrite rd_wr_other by lia.
Qed.

Lemma put_dst_same lg l bs i : (∀ j, j ∈ l → 8 + 4 * Z.of_nat j ≤ Z.of_nat (length bs)) → i ∈ l → NoDup l →
  hd_dst (foldl (put_dst lg) bs l) i = u32 (default 0 (lh_block lg !! i)).
Proof.
  revert bs. induction l as [|j l IH]; intros bs Hl Hi Hnd; [by apply not_elem_of_nil in Hi|]. cbn.
  apply list.NoDup_cons in Hnd as [Hj Hnd]. specialize (Hl j ltac:(by left)) as Hlj.
  assert (∀ k, k ∈ l → 8 + 4 * Z.of_nat k ≤ Z.of_nat (length (put_dst lg bs j))) as Hl'
    by (intros k Hk; unfold put_dst; rewrite length_wr_le; apply Hl; by right).
  destruct (decide (i = j)) as [->|Hne].
  - rewrite put_dst_other by done. unfold hd_dst, put_dst. rewrite rd_wr_same by (try apply u32_range; lia).
    apply u32_i32, u32_range.
  - apply IH; [done| |done]. by apply elem_of_cons in Hi as [|].
Qed.

Lemma put_head_spec lg bs : length bs = Z.to_nat BSIZE → 0 ≤ lh_n lg ≤ LOGBLOCKS →
  length (put_head lg bs) = Z.to_nat BSIZE ∧ hd_n (put_head lg bs) = lh_n lg ∧
  ∀ i, (i < Z.to_nat (lh_n lg))%nat → hd_dst (put_head lg bs) i = u32 (default 0 (lh_block lg !! i)).
Proof.
  intros Hl Hn. unfold put_head. set (bs0 := wr_le 4 0 (u32 (lh_n lg)) bs).
  assert (length bs0 = Z.to_nat BSIZE) as Hl0 by (unfold bs0; by rewrite length_wr_le).
  assert (∀ i, i ∈ tails (lh_n lg) → 8 + 4 * Z.of_nat i ≤ Z.of_nat (length bs0)) as Hin.
  { intros i Hi%elem_of_seq. rewrite Hl0. unfold BSIZE, LOGBLOCKS, MAXOPBLOCKS in *. lia. }
  split; [by rewrite length_put|]. split.
  - rewrite put_n by done. unfold hd_n, bs0. unfold BSIZE, LOGBLOCKS, MAXOPBLOCKS in *.
    rewrite rd_wr_same by (try apply u32_range; lia). rewrite u32_small by lia. apply i32_small. lia.
  - intros i Hi. apply put_dst_same; [done|apply elem_of_seq; lia|apply NoDup_seq].
Qed.

(** ** What recovery makes of a disk

    The header is in block [start], the logged blocks follow it. *)

Definition log_block (start : Z) (i : nat) : Z := start + 1 + Z.of_nat i.
(** The blocks outside the log. *)
Definition is_home (start bn : Z) : Prop := blockno_ok bn ∧ ¬ (start ≤ bn ≤ start + LOGBLOCKS).

(** The file system on [d] with the first [t] logged blocks copied to their
    places. *)
Definition replay (start : Z) (dst : nat → Z) (t : nat) (d : disk) : Z → list Z :=
  foldl (λ c i, <[dst i := block d (log_block start i)]> c) (block d) (seq 0 t).
Definition recovered (start : Z) (d : disk) : Z → list Z :=
  replay start (hd_dst (block d start)) (Z.to_nat (hd_n (block d start))) d.

(** Two disks that recovery makes the same file system of. *)
Definition same_files (start : Z) (f g : Z → list Z) : Prop := ∀ bn, is_home start bn → f bn = g bn.

Lemma replay_S start dst t d : replay start dst (S t) d = <[dst t := block d (log_block start t)]> (replay start dst t d).
Proof. unfold replay. rewrite seq_S, foldl_app. done. Qed.

Lemma foldl_ins (dst dst' : nat → Z) (v v' : nat → list Z) l (f g : Z → list Z) bn :
  (∀ i, i ∈ l → dst i = dst' i ∧ v i = v' i) → (f bn = g bn ∨ ∃ i, i ∈ l ∧ dst i = bn) →
  foldl (λ c i, <[dst i := v i]> c) f l bn = foldl (λ c i, <[dst' i := v' i]> c) g l bn.
Proof.
  revert f g. induction l as [|i l IH]; intros f g Hl Hbn; cbn.
  - destruct Hbn as [|(i & Hi & _)]; [done|by apply not_elem_of_nil in Hi].
  - apply IH; [intros j Hj; apply Hl; by right|]. destruct (Hl i ltac:(by left)) as [<- <-].
    destruct (decide (dst i = bn)) as [<-|Hne]; [left; by rewrite !fn_lookup_insert|].
    rewrite !fn_lookup_insert_ne by done. destruct Hbn as [|(j & [->|Hj]%elem_of_cons & Hd)]; [by left|done|right; by exists j].
Qed.

Lemma replay_ext start dst dst' t d d' bn :
  (∀ i, (i < t)%nat → dst i = dst' i ∧ block d (log_block start i) = block d' (log_block start i)) →
  (block d bn = block d' bn ∨ ∃ i, (i < t)%nat ∧ dst i = bn) →
  replay start dst t d bn = replay start dst' t d' bn.
Proof.
  intros Hl Hbn. apply (foldl_ins dst dst' (λ i, block d (log_block start i)) (λ i, block d' (log_block start i))).
  - intros i Hi%elem_of_seq. apply Hl. lia.
  - destruct Hbn as [|(i & Hi & Hd)]; [by left|]. right. exists i. split; [apply elem_of_seq; lia|done].
Qed.

(** With an empty header the disk is as it is. *)
Lemma recovered_empty start d : hd_n (block d start) = 0 → recovered start d = block d.
Proof. intros Hn. unfold recovered. by rewrite Hn. Qed.

(** Copying logged blocks to their places changes nothing that recovery sees. *)
Lemma recovered_installed start d d' : (∀ bn, ¬ is_home start bn → block d' bn = block d bn) → 0 ≤ start → start + LOGBLOCKS < 2 ^ 31 →
  0 ≤ hd_n (block d start) ≤ LOGBLOCKS →
  (∀ bn, is_home start bn → block d' bn = block d bn ∨
     ∃ i, (i < Z.to_nat (hd_n (block d start)))%nat ∧ hd_dst (block d start) i = bn) →
  same_files start (recovered start d') (recovered start d).
Proof.
  intros Hlog Hs1 Hs2 Hn Hhome bn Hbn. unfold recovered.
  assert (block d' start = block d start) as ->. { apply Hlog. unfold is_home, LOGBLOCKS, MAXOPBLOCKS. lia. }
  apply replay_ext.
  - intros i Hi. split; [done|]. apply Hlog. unfold is_home, log_block, LOGBLOCKS, MAXOPBLOCKS in *. lia.
  - by apply Hhome.
Qed.

Section crash.
Context `{IM : Image, DV : Device, PT : Patience, OW : Own} (serve : device) (Hserve : device_ok serve).
Context (p : nat) (pid : Z) (dev : Z) (Hdev : 0 < dev < 2 ^ 32) (Hpat : (0 < patience)%nat).
Context (Huart : uart_ready DV).
Context (start : Z) (Hstart : 0 ≤ start ∧ start + LOGBLOCKS + 1 < 2 ^ 31).

Abbreviation cwp := (cwp serve p pid).
Abbreviation cst := (cache_st p pid dev).
Abbreviation bread_st := (bread_cwp serve Hserve p pid dev Hdev Hpat).
Abbreviation bwrite_st := (bwrite_cwp serve Hserve p pid dev Hdev Hpat).
Abbreviation brelse_st := (brelse_run_st serve Hserve p pid dev Hdev Hpat).
Abbreviation bunpin_st := (bunpin_run_st p pid dev Hdev Hpat).
Abbreviation get_data_st := (get_data_run p pid dev).
Abbreviation upd_data_st := (upd_data_run p pid dev Hdev Hpat).

Lemma cwp_for_each (I : nat → kernel → disk → Prop) Cr n body :
  (∀ i s d, (i < n)%nat → I i s d → cwp Cr (λ _ s' d', I (S i) s' d') d (body i s)) →
  (∀ i s d, (i ≤ n)%nat → I i s d → Cr d) →
  ∀ s d, I 0%nat s d → cwp Cr (λ _ s' d', I n s' d') d (for_each (seq 0 n) body s).
Proof.
  intros Hb Hc. assert (∀ m k s d, (k + m = n)%nat → I k s d → cwp Cr (λ _ s' d', I n s' d') d (for_each (seq k m) body s)) as Hall.
  { induction m as [|m IH]; intros k s d Hk HI; cbn [seq for_each].
    - rewrite Nat.add_0_r in Hk. subst. split; [by eapply Hc; [|]|done].
    - rewrite bind_run. eapply cwp_bind; [apply Hb; [lia|done]|]. intros [] s' d' HI'. apply IH; [lia|done]. }
  intros s d HI. by apply Hall.
Qed.

(** Running an operation that neither waits nor fails. *)
Lemma cwp_step {A B} Cr (Q : B → kernel → disk → Prop) d s s' (m : M A) (g : A → M B) a :
  m s = Ret a s' → cwp Cr Q d (g a s') → cwp Cr Q d ((m ≫= g) s).
Proof. intros Hm Hg. by rewrite bind_run, Hm. Qed.

(** The log in memory: where it is, and what it holds. *)
Record log_at (dst : nat → Z) (n : nat) (lg : log) : Prop := {
  la_start : lg_start lg = start;
  la_dev : lg_dev lg = dev;
  la_n : lh_n lg = Z.of_nat n;
  la_max : Z.of_nat n ≤ LOGBLOCKS;
  la_len : length (lh_block lg) = Z.to_nat LOGBLOCKS;
  la_dst : ∀ i, (i < n)%nat → u32 (default 0 (lh_block lg !! i)) = dst i;
  la_home : ∀ i, (i < n)%nat → is_home start (dst i)
}.

Lemma home_not_log bn i : is_home start bn → 0 ≤ Z.of_nat i < LOGBLOCKS → bn ≠ log_block start i ∧ bn ≠ start.
Proof. intros [_ Hb] Hi. unfold log_block. lia. Qed.

Lemma log_block_ok i : Z.of_nat i < LOGBLOCKS → blockno_ok (log_block start i) ∧ u32 (start + Z.of_nat i + 1) = log_block start i.
Proof. intros Hi. unfold blockno_ok, log_block. split; [lia|]. rewrite u32_small by lia. lia. Qed.

Lemma dev_u32 : u32 dev = dev.
Proof. apply u32_small. lia. Qed.

(** ** write_head *)

Lemma put_head_loop c pins s d b bn lg bs l :
  cst c pins [(b, bn)] s d → c bn = bs → k_log s = lg → (∀ i, i ∈ l → (i < length (lh_block lg))%nat) →
  ∃ s' c', for_each l (λ i, v ← get_lh_block i; upd_data b (wr_le 4 (4 + 4 * Z.of_nat i) (u32 v))) s = Ret tt s' ∧
    cst c' pins [(b, bn)] s' d ∧ same_log s s' ∧ c' bn = foldl (put_dst lg) bs l ∧ (∀ n, n ≠ bn → c' n = c n).
Proof.
  revert c s bs. induction l as [|i l IH]; intros c s bs Hst Hbs Hlg Hl; cbn [for_each foldl].
  - exists s, c. split; [done|]. split; [done|]. split; [reflexivity|]. done.
  - destruct (lookup_lt_is_Some_2 (lh_block lg) i) as [v Hv]; [apply Hl; by left|].
    assert (get_lh_block i s = Ret v s) as Hg by (unfold get_lh_block, get_log; mrun; by rewrite Hlg, Hv).
    destruct (upd_data_st c pins [(b, bn)] s d b bn (wr_le 4 (4 + 4 * Z.of_nat i) (u32 v)) Hst) as (s1 & Hr & Hst1 & Hlog1);
      [by left|rewrite length_wr_le; apply (cs_length _ _ _ _ _ _ _ _ Hst)|].
    destruct (IH _ s1 (put_dst lg bs i) Hst1) as (s' & c' & Hrun & Hst' & Hlog' & Hc' & Hother).
    + unfold put_dst. by rewrite fn_lookup_insert, Hbs, Hv.
    + by destruct Hlog1 as [-> _ _ _ _ _].
    + intros j Hj. apply Hl. by right.
    + exists s', c'. split; [by mrun_with Hg; mrun_with Hr|]. split; [done|]. split; [by etransitivity|]. split; [done|].
      intros n Hn. rewrite Hother by done. by rewrite fn_lookup_insert_ne.
Qed.

Lemma write_head_cwp c pins s d lg Cr (Q : unit → kernel → disk → Prop) :
  cst c pins [] s d → k_log s = lg → lg_start lg = start → lg_dev lg = dev → 0 ≤ lh_n lg ≤ LOGBLOCKS →
  length (lh_block lg) = Z.to_nat LOGBLOCKS → start ∉ pins → (length pins < NBUF)%nat →
  let hd := put_head lg (c start) in
  Cr d → Cr (wr_block start hd d) →
  (∀ s' c', cst c' pins [] s' (wr_block start hd d) → same_log s s' → (∀ n, n ≠ start → c' n = c n) →
     Q tt s' (wr_block start hd d)) →
  cwp Cr Q d (write_head s).
Proof.
  intros Hst Hlg Hls Hld Hn Hlen Hpins Hroom hd Hc Hc' HQ. unfold write_head, get_log.
  rewrite bind_run. msimpl. rewrite Hlg, Hls, Hld, dev_u32, (u32_small start) by (unfold LOGBLOCKS, MAXOPBLOCKS in *; lia).
  rewrite bind_run. eapply (cwp_bind _ _ _ _ (λ b s1 d1, d1 = d ∧ cst c pins [(b, start)] s1 d ∧ same_log s s1)).
  { eapply bread_st; try done.
    - apply not_elem_of_nil.
    - unfold blockno_ok, LOGBLOCKS, MAXOPBLOCKS in *. lia.
    - right. cbn. lia. }
  intros b s1 d1 (-> & Hst1 & Hlog1). rewrite bind_run. msimpl.
  pose proof (sg_log _ _ Hlog1) as Hk1. rewrite Hk1, Hlg.
  destruct (upd_data_st c pins [(b, start)] s1 d b start (wr_le 4 0 (u32 (lh_n lg))) Hst1) as (s2 & Hr2 & Hst2 & Hlog2);
    [by left|rewrite length_wr_le; apply (cs_length _ _ _ _ _ _ _ _ Hst)|].
  eapply cwp_step; [exact Hr2|]. cbn beta.
  destruct (put_head_loop _ pins s2 d b start lg (wr_le 4 0 (u32 (lh_n lg)) (c start)) (tails (lh_n lg)) Hst2)
    as (s3 & c3 & Hr3 & Hst3 & Hlog3 & Hc3 & Ho3).
  - by rewrite fn_lookup_insert.
  - destruct Hlog2 as [-> _ _ _ _ _]. congruence.
  - intros i Hi%elem_of_seq. lia.
  - eapply cwp_step; [exact Hr3|]. cbn beta. fold (put_head lg (c start)) in Hc3. fold hd in Hc3.
    rewrite bind_run. eapply (cwp_bind _ _ _ _ (λ _ s4 d4, d4 = wr_block start hd d ∧ cst c3 pins [(b, start)] s4 d4 ∧ same_log s3 s4)).
    { eapply bwrite_st; try done; rewrite ?Hc3; try done. by left. }
    intros _ s4 d4 (-> & Hst4 & Hlog4).
    destruct (brelse_st c3 pins [] s4 _ b start Hst4) as (s5 & Hr5 & Hst5 & Hlog5).
    { right. rewrite Hc3, block_wr_same; [done|]. unfold hd. apply put_head_spec; [apply (cs_length _ _ _ _ _ _ _ _ Hst)|done]. }
    rewrite Hr5. split; [done|]. apply (HQ s5 c3); [done| |].
    + transitivity s1; [done|]. transitivity s2; [done|]. transitivity s3; [done|]. by transitivity s4.
    + intros n Hne. rewrite Ho3 by done. by rewrite fn_lookup_insert_ne.
Qed.

(** ** write_log *)

Lemma log_lookup dst n lg i : log_at dst n lg → (i < n)%nat → ∃ v, lh_block lg !! i = Some v ∧ u32 v = dst i.
Proof.
  intros Hla Hi. pose proof (la_max _ _ _ Hla) as Hm.
  destruct (lookup_lt_is_Some_2 (lh_block lg) i) as [v Hv]; [rewrite (la_len _ _ _ Hla); lia|].
  exists v. split; [done|]. rewrite <- (la_dst _ _ _ Hla i Hi). by rewrite Hv.
Qed.

Lemma get_lh_block_run s lg i v : k_log s = lg → lh_block lg !! i = Some v → get_lh_block i s = Ret v s.
Proof. intros Hlg Hv. unfold get_lh_block, get_log. mrun. by rewrite Hlg, Hv. Qed.

(** Block [tail] of the transaction has been copied into the log. *)
Record copied (dst : nat → Z) (c : Z → list Z) (pins : list Z) (d : disk) (lg : log) (s0 : kernel) (t : nat) (s' : kernel) (d' : disk) : Prop := {
  cp_log : k_log s' = lg;
  cp_rest0 : same_rest s0 s';
  cp_st : ∃ c', cst c' pins [] s' d' ∧ ∀ bn, is_home start bn → c' bn = c bn;
  cp_done : ∀ i, (i < t)%nat → block d' (log_block start i) = c (dst i);
  cp_rest : ∀ bn, is_home start bn ∨ bn = start → block d' bn = block d bn
}.

Lemma write_log_body dst c n d lg s0 t Cr s' d' (pins := dst <$> seq 0 n) :
  log_at dst n lg → (n < NBUF)%nat → (t < n)%nat →
  (∀ d', (∀ bn, is_home start bn ∨ bn = start → block d' bn = block d bn) → Cr d') →
  copied dst c pins d lg s0 t s' d' →
  cwp Cr (λ _ s' d', copied dst c pins d lg s0 (S t) s' d') d'
    ((lg ← get_log;
      to ← bread (u32 (lg_dev lg)) (u32 (lg_start lg + Z.of_nat t + 1));
      src ← get_lh_block t;
      from ← bread (u32 (lg_dev lg)) (u32 src);
      data ← get_data from;
      upd_data to (λ _, data);;
      bwrite to;;
      brelse from;;
      brelse to) s').
Proof.
  intros Hla Hroom Ht Hcr [Hlg Hsr (c' & Hst & Hc') Hdone Hrest]. pose proof (la_max _ _ _ Hla) as Hmax.
  destruct (log_lookup dst n lg t Hla Ht) as (v & Hv & Hvd). pose proof (la_home _ _ _ Hla t Ht) as Hhome.
  destruct (log_block_ok t ltac:(lia)) as [Hok Hu].
  destruct (home_not_log _ t Hhome ltac:(lia)) as [Hne Hne2].
  unfold get_log. rewrite bind_run. msimpl. rewrite Hlg, (la_start _ _ _ Hla), (la_dev _ _ _ Hla), dev_u32, Hu.
  rewrite bind_run. eapply (cwp_bind _ _ _ _ (λ b s1 d1, d1 = d' ∧ cst c' pins [(b, log_block start t)] s1 d' ∧ same_log s' s1)).
  { eapply bread_st; try done; [apply not_elem_of_nil| |by apply Hcr]. right. unfold pins. rewrite length_fmap, length_seq. cbn. lia. }
  intros to s1 d1 (-> & Hst1 & Hlog1). assert (k_log s1 = lg) as Hlg1 by (destruct Hlog1 as [-> _ _ _ _ _]; done).
  eapply cwp_step; [by eapply get_lh_block_run|]. cbn beta. rewrite Hvd.
  rewrite bind_run. eapply (cwp_bind _ _ _ _ (λ b s2 d2, d2 = d' ∧ cst c' pins [(b, dst t); (to, log_block start t)] s2 d' ∧ same_log s1 s2)).
  { eapply bread_st; try done; [cbn; by rewrite list_elem_of_singleton|by apply Hhome| |by apply Hcr].
    left. apply list_elem_of_fmap. exists t. split; [done|]. apply elem_of_seq. lia. }
  intros from s2 d2 (-> & Hst2 & Hlog2).
  eapply cwp_step; [eapply get_data_st; [exact Hst2|by left]|]. cbn beta.
  destruct (upd_data_st c' pins _ s2 d' to (log_block start t) (λ _, c' (dst t)) Hst2) as (s3 & Hr3 & Hst3 & Hlog3);
    [right; by left|apply (cs_length _ _ _ _ _ _ _ _ Hst)|].
  eapply cwp_step; [exact Hr3|]. cbn beta. set (c3 := <[_ := _]> c') in *.
  assert (c3 (log_block start t) = c (dst t)) as Hc3 by (unfold c3; rewrite fn_lookup_insert; by apply Hc').
  assert (∀ bn, bn ≠ log_block start t → c3 bn = c' bn) as Hc3o by (intros bn Hbn; unfold c3; by rewrite fn_lookup_insert_ne).
  assert (length (c (dst t)) = Z.to_nat BSIZE) as Hlen by (rewrite <- Hc'; [apply (cs_length _ _ _ _ _ _ _ _ Hst)|done]).
  set (d4 := wr_block (log_block start t) (c (dst t)) d').
  assert (∀ bn, bn ≠ log_block start t → block d4 bn = block d' bn) as Hd4 by (intros bn Hbn; unfold d4; by apply block_wr_other).
  assert (∀ bn, is_home start bn ∨ bn = start → block d4 bn = block d bn) as Hd4h.
  { intros bn Hbn. rewrite Hd4; [by apply Hrest|]. destruct Hbn as [Hbn| ->]; [apply (home_not_log _ t Hbn); lia|unfold log_block; lia]. }
  rewrite bind_run. eapply (cwp_bind _ _ _ _ (λ _ s4 e, e = d4 ∧ cst c3 pins [(from, dst t); (to, log_block start t)] s4 d4 ∧ same_log s3 s4)).
  { eapply bwrite_st; try done; [right; by left|by apply Hcr| |]; rewrite Hc3; [by apply Hcr|done]. }
  intros _ s4 e (-> & Hst4 & Hlog4).
  destruct (brelse_st c3 pins _ s4 d4 from (dst t) Hst4) as (s5 & Hr5 & Hst5 & Hlog5).
  { left. apply list_elem_of_fmap. exists t. split; [done|]. apply elem_of_seq. lia. }
  eapply cwp_step; [exact Hr5|]. cbn beta.
  destruct (brelse_st c3 pins _ s5 d4 to (log_block start t) Hst5) as (s6 & Hr6 & Hst6 & Hlog6).
  { right. rewrite Hc3. unfold d4. by rewrite block_wr_same. }
  rewrite Hr6. split; [by apply Hcr|]. split.
  - apply sg_log in Hlog2, Hlog3, Hlog4, Hlog5, Hlog6. congruence.
  - transitivity s'; [exact Hsr|]. apply same_log_rest. transitivity s1; [done|]. transitivity s2; [done|].
    transitivity s3; [done|]. transitivity s4; [done|]. by transitivity s5.
  - exists c3. split; [done|]. intros bn Hbn. rewrite Hc3o; [by apply Hc'|]. apply (home_not_log _ t Hbn). lia.
  - intros i Hi. destruct (decide (i = t)) as [->|Hit]; [unfold d4; by apply block_wr_same|].
    rewrite Hd4 by (unfold log_block; lia). apply Hdone. lia.
  - exact Hd4h.
Qed.

Lemma write_log_cwp dst c n s d lg Cr (pins := dst <$> seq 0 n) :
  log_at dst n lg → (n < NBUF)%nat → cst c pins [] s d → k_log s = lg →
  (∀ d', (∀ bn, is_home start bn ∨ bn = start → block d' bn = block d bn) → Cr d') →
  cwp Cr (λ _ s' d', copied dst c pins d lg s n s' d') d (write_log s).
Proof.
  intros Hla Hroom Hst Hlg Hcr. unfold write_log, get_log. rewrite bind_run. msimpl. rewrite Hlg.
  unfold tails. rewrite (la_n _ _ _ Hla), Nat2Z.id.
  apply (cwp_for_each (copied dst c pins d lg s)).
  - intros t s' d' Ht Hc. by apply (write_log_body dst c n).
  - intros t s' d' _ [_ _ _ _ Hrest]. by apply Hcr.
  - split; [done|done|by exists c|lia|done].
Qed.

(** ** install_trans *)

Lemma recovering_text a b : ∃ out, render (str "recovering tail %d dst %d" ++ [10]) [PInt a; PInt b] = Some out.
Proof.
  change (str "recovering tail %d dst %d" ++ [10]) with (str "recovering tail " ++ spec_d ++ str " dst " ++ spec_d ++ [10]).
  rewrite render_plain, render_d, render_plain, render_d by (by apply (bool_decide_unpack _)). by eexists.
Qed.

Lemma cache_st_printed c pins H l s d : cst c pins H s d → cst c pins H (printed l s) d.
Proof. intros [[Hu Hv] Hwf Hb Hh Hf Hp Hd Hl Hc]. split; try done. intros b bn Hin. by destruct (Hh b bn Hin). Qed.

Definition pins_at (recovering : bool) (dst : nat → Z) (n t : nat) : list Z :=
  if recovering then [] else dst <$> seq t (n - t).

Lemma recovering_step (recovering : bool) c pins s d a b : cst c pins [] s d → (recovering = true → k_panicking s = 0 ∧ k_panicked s = 0) →
  ∃ s0, when recovering (printf (str "recovering tail %d dst %d" ++ [10]) [PInt a; PInt b]) s = Ret tt s0 ∧
    cst c pins [] s0 d ∧ same_log s s0.
Proof.
  intros Hst Hpn. destruct recovering; [|by exists s]. destruct (Hpn eq_refl) as [H1 H2]. destruct (recovering_text a b) as [out Ho].
  destruct (cs_io _ _ _ _ _ _ _ _ Hst) as [[Hh _ _ Hl _ _] _].
  exists (printed out s). split; [|split; [by apply cache_st_printed|done]].
  apply (printf_run Huart 0); [by split|by apply Hl, io_lock_pr|lia|done].
Qed.

(** The first [t] logged blocks have been copied to their places. *)
Record progress (dst : nat → Z) (d : disk) (t : nat) (d' : disk) : Prop := {
  pr_home : ∀ bn, is_home start bn → block d' bn = replay start dst t d bn;
  pr_rest : ∀ bn, ¬ is_home start bn → block d' bn = block d bn
}.

Record installed (recovering : bool) (dst : nat → Z) (n : nat) (s : kernel) (d : disk) (t : nat) (s' : kernel) (d' : disk) : Prop := {
  in_log : same_log s s';
  in_st : ∃ c, cst c (pins_at recovering dst n t) [] s' d';
  in_disk : progress dst d t d'
}.

Lemma progress_S dst d t d' : is_home start (dst t) → progress dst d t d' →
  progress dst d (S t) (wr_block (dst t) (block d (log_block start t)) d').
Proof.
  intros Hdh [Hh Hr]. split; intros bn Hbn.
  - rewrite replay_S. destruct (decide (bn = dst t)) as [->|Hne].
    + rewrite fn_lookup_insert, block_wr_same; [done|apply length_block].
    + rewrite fn_lookup_insert_ne, block_wr_other by (done || apply length_block). by apply Hh.
  - rewrite block_wr_other; [by apply Hr|apply length_block|]. by intros <-.
Qed.

Lemma pins_at_S dst n t : (t < n)%nat → pins_at false dst n t = dst t :: pins_at false dst n (S t).
Proof. intros Ht. unfold pins_at. by replace (n - t)%nat with (S (n - S t)) by lia. Qed.

Lemma install_body recovering dst n s d t Cr s' d' lg :
  log_at dst n lg → k_log s = lg → (recovering = true → k_panicking s = 0 ∧ k_panicked s = 0) → (recovering = false → (n < NBUF)%nat) → (t < n)%nat →
  (recovering = false → NoDup (dst <$> seq 0 n)) →
  (∀ t d', (t ≤ n)%nat → progress dst d t d' → Cr d') →
  installed recovering dst n s d t s' d' →
  cwp Cr (λ _ s' d', installed recovering dst n s d (S t) s' d') d'
    ((dst ← get_lh_block t;
      when recovering
        (printf (str "recovering tail %d dst %d" ++ [10]) [PInt (Z.of_nat t); PInt dst]);;
      lg ← get_log;
      lbuf ← bread (u32 (lg_dev lg)) (u32 (lg_start lg + Z.of_nat t + 1));
      dst ← get_lh_block t;
      dbuf ← bread (u32 (lg_dev lg)) (u32 dst);
      data ← get_data lbuf;
      upd_data dbuf (λ _, data);;
      bwrite dbuf;;
      when (negb recovering) (bunpin dbuf);;
      brelse lbuf;;
      brelse dbuf) s').
Proof.
  intros Hla Hlg Hp12 Hroom Ht Hnd Hcr Hinst. pose proof Hinst as [Hlog (c & Hst) Hpr].
  assert (Cr d') as Hcd by (apply (Hcr t); [lia|done]).
  pose proof (la_max _ _ _ Hla) as Hmax. destruct (log_lookup dst n lg t Hla Ht) as (v & Hv & Hvd).
  pose proof (la_home _ _ _ Hla t Ht) as Hdh. destruct (log_block_ok t ltac:(lia)) as [Hok Hu].
  destruct (home_not_log _ t Hdh ltac:(lia)) as [Hne Hne2].
  assert (k_log s' = lg) as Hlg' by (destruct Hlog as [-> _ _ _ _ _]; done).
  eapply cwp_step; [by eapply get_lh_block_run|]. cbn beta.
  destruct (recovering_step recovering c (pins_at recovering dst n t) s' d' (Z.of_nat t) v) as (s0 & Hr0 & Hst0 & Hlog0); [done| |].
  { destruct Hlog as [_ -> -> _ _ _]. done. }
  eapply cwp_step; [exact Hr0|]. cbn beta. assert (k_log s0 = lg) as Hlg0 by (destruct Hlog0 as [-> _ _ _ _ _]; done).
  unfold get_log. rewrite bind_run. msimpl. rewrite Hlg0, (la_start _ _ _ Hla), (la_dev _ _ _ Hla), dev_u32, Hu.
  assert (length (pins_at recovering dst n t) < NBUF)%nat as Hpl.
  { unfold pins_at. destruct recovering; cbn; [unfold NBUF; lia|]. rewrite length_fmap, length_seq. specialize (Hroom eq_refl). lia. }
  assert (log_block start t ∉ pins_at recovering dst n t) as Hlp.
  { unfold pins_at. destruct recovering; [apply not_elem_of_nil|]. intros (i & Hi & Hin%elem_of_seq)%list_elem_of_fmap.
    by destruct (home_not_log (dst i) t (la_home _ _ _ Hla i ltac:(lia)) ltac:(lia)) as [Hx _]; destruct (Hx (eq_sym Hi)). }
  assert (c (log_block start t) = block d (log_block start t)) as Hcl.
  { rewrite (cs_clean _ _ _ _ _ _ _ _ Hst) by (done || apply not_elem_of_nil). apply (pr_rest _ _ _ _ Hpr). unfold is_home, log_block. lia. }
  rewrite bind_run. eapply (cwp_bind _ _ _ _ (λ b s1 d1, d1 = d' ∧ cst c (pins_at recovering dst n t) [(b, log_block start t)] s1 d' ∧ same_log s0 s1)).
  { eapply bread_st; try done; [apply not_elem_of_nil|]. right. cbn. lia. }
  intros lbuf s1 d1 (-> & Hst1 & Hlog1). assert (k_log s1 = lg) as Hlg1 by (destruct Hlog1 as [-> _ _ _ _ _]; done).
  eapply cwp_step; [by eapply get_lh_block_run|]. cbn beta. rewrite Hvd.
  rewrite bind_run. eapply (cwp_bind _ _ _ _ (λ b s2 d2, d2 = d' ∧ cst c (pins_at recovering dst n t) [(b, dst t); (lbuf, log_block start t)] s2 d' ∧ same_log s1 s2)).
  { eapply bread_st; try done; [cbn; by rewrite list_elem_of_singleton|by apply Hdh|].
    destruct recovering; [right; cbn; unfold NBUF; lia|]. left. rewrite pins_at_S by done. by left. }
  intros dbuf s2 d2 (-> & Hst2 & Hlog2).
  eapply cwp_step; [eapply get_data_st; [exact Hst2|right; by left]|]. cbn beta. rewrite Hcl.
  destruct (upd_data_st c _ _ s2 d' dbuf (dst t) (λ _, block d (log_block start t)) Hst2) as (s3 & Hr3 & Hst3 & Hlog3);
    [by left|apply length_block|].
  eapply cwp_step; [exact Hr3|]. cbn beta. set (c3 := <[_ := _]> c) in *.
  assert (c3 (dst t) = block d (log_block start t)) as Hc3 by (unfold c3; by rewrite fn_lookup_insert).
  set (d4 := wr_block (dst t) (block d (log_block start t)) d').
  assert (progress dst d (S t) d4) as Hpr4 by (by apply progress_S). assert (Cr d4) as Hcd4 by (apply (Hcr (S t)); [lia|done]).
  rewrite bind_run. eapply (cwp_bind _ _ _ _ (λ _ s4 e, e = d4 ∧ cst c3 (pins_at recovering dst n t) [(dbuf, dst t); (lbuf, log_block start t)] s4 d4 ∧ same_log s3 s4)).
  { eapply bwrite_st; try done; [by left| |]; rewrite Hc3; done. }
  intros _ s4 e (-> & Hst4 & Hlog4).
  assert (∃ s5, when (negb recovering) (bunpin dbuf) s4 = Ret tt s5 ∧
    cst c3 (pins_at recovering dst n (S t)) [(lbuf, log_block start t); (dbuf, dst t)] s5 d4 ∧ same_log s4 s5) as (s5 & Hr5 & Hst5 & Hlog5).
  { destruct recovering; cbn [when negb]; [exists s4; split; [done|]; split; [|done]; by eapply cache_st_perm; [apply Permutation_swap|]|].
    rewrite pins_at_S in Hst4 by done. destruct (bunpin_st c3 _ _ s4 d4 dbuf (dst t) Hst4) as (s5 & Hr5 & Hst5 & Hlog5); [by left| |].
    - specialize (Hnd eq_refl). intros Hin. unfold pins_at in Hin.
      replace n with (t + S (n - S t))%nat in Hnd by lia. rewrite seq_app, fmap_app in Hnd. apply list.NoDup_app in Hnd as (_ & _ & Hnd).
      cbn in Hnd. apply list.NoDup_cons in Hnd as [Hnd _]. done.
    - exists s5. split; [done|]. split; [|done]. eapply cache_st_perm; [apply Permutation_swap|done]. }
  eapply cwp_step; [exact Hr5|]. cbn beta.
  assert (block d4 (log_block start t) = block d (log_block start t)) as Hd4l.
  { apply (pr_rest _ _ _ _ Hpr4). unfold is_home, log_block. lia. }
  destruct (brelse_st c3 _ _ s5 d4 lbuf (log_block start t) Hst5) as (s6 & Hr6 & Hst6 & Hlog6).
  { right. unfold c3. rewrite fn_lookup_insert_ne by done. congruence. }
  eapply cwp_step; [exact Hr6|]. cbn beta.
  destruct (brelse_st c3 _ _ s6 d4 dbuf (dst t) Hst6) as (s7 & Hr7 & Hst7 & Hlog7).
  { right. rewrite Hc3. unfold d4. rewrite block_wr_same; [done|apply length_block]. }
  rewrite Hr7. split; [done|]. split; [|by exists c3|done].
  transitivity s'; [done|]. transitivity s0; [done|]. transitivity s1; [done|].
  transitivity s2; [done|]. transitivity s3; [done|]. transitivity s4; [done|].
  transitivity s5; [done|]. by transitivity s6.
Qed.

Lemma install_trans_cwp recovering dst n c s d Cr lg :
  log_at dst n lg → k_log s = lg → (recovering = true → k_panicking s = 0 ∧ k_panicked s = 0) → (recovering = false → (n < NBUF)%nat) →
  (recovering = false → NoDup (dst <$> seq 0 n)) → cst c (pins_at recovering dst n 0) [] s d →
  (∀ t d', (t ≤ n)%nat → progress dst d t d' → Cr d') →
  cwp Cr (λ _ s' d', installed recovering dst n s d n s' d') d (install_trans recovering s).
Proof.
  intros Hla Hlg Hp12 Hroom Hnd Hst Hcr. unfold install_trans, get_log. rewrite bind_run. msimpl. rewrite Hlg.
  unfold tails. rewrite (la_n _ _ _ Hla), Nat2Z.id.
  apply (cwp_for_each (installed recovering dst n s d)).
  - intros t s' d' Ht Hc. exact (install_body recovering dst n s d t Cr s' d' lg Hla Hlg Hp12 Hroom Ht Hnd Hcr Hc).
  - intros t s' d' Ht [_ _ Hpr]. by apply (Hcr t).
  - split; [reflexivity|by exists c|by split].
Qed.

(** ** commit *)

(** The header on the disk is one that [write_head] wrote. *)
Record header_valid (d : disk) : Prop := {
  hv_n : 0 ≤ hd_n (block d start) ≤ LOGBLOCKS;
  hv_home : ∀ i, Z.of_nat i < hd_n (block d start) → is_home start (hd_dst (block d start) i)
}.

Lemma header_empty d : hd_n (block d start) = 0 → header_valid d.
Proof. clear -start. intros Hn. split; rewrite Hn; [unfold LOGBLOCKS, MAXOPBLOCKS; lia|]. intros i Hi. lia. Qed.

(** What recovery sees: a valid header, and the file system [g]. *)
Definition recovers (g : Z → list Z) (e : disk) : Prop := header_valid e ∧ same_files start (recovered start e) g.

Lemma replay_at dst n d t i : NoDup (dst <$> seq 0 n) → (i < t ≤ n)%nat → replay start dst t d (dst i) = block d (log_block start i).
Proof.
  intros Hnd. induction t as [|t IH]; intros Ht; [lia|]. rewrite replay_S. destruct (decide (dst i = dst t)) as [He|Hne].
  - rewrite He, fn_lookup_insert. f_equal. f_equal.
    apply (NoDup_lookup _ t i (dst t) Hnd); rewrite list_lookup_fmap, lookup_seq_lt by lia; cbn; congruence.
  - rewrite fn_lookup_insert_ne by done. apply IH. split; [|lia]. destruct (decide (i = t)) as [->|]; [done|lia].
Qed.

Lemma replay_not_in dst d t bn : (∀ i, (i < t)%nat → dst i ≠ bn) → replay start dst t d bn = block d bn.
Proof.
  induction t as [|t IH]; intros Hn; [done|]. rewrite replay_S, fn_lookup_insert_ne; [|apply Hn; lia].
  apply IH. intros i Hi. apply Hn. lia.
Qed.
Lemma cache_st_log c pins H f s d : cst c pins H s d → cst c pins H (s <| k_log ::= f |>) d.
Proof. intros [[Hu Hv] Hwf Hb Hh Hf Hp Hd Hl Hc]. split; try done. intros b bn Hin. by destruct (Hh b bn Hin). Qed.

(** A disk whose header lists the blocks [dst] and whose log holds their new
    contents: recovery makes the new file system of it. *)
Lemma recovered_committed dst n lg (c : Z → list Z) bs d : log_at dst n lg → NoDup (dst <$> seq 0 n) →
  length bs = Z.to_nat BSIZE → block d start = put_head lg bs →
  (∀ i, (i < n)%nat → block d (log_block start i) = c (dst i)) →
  (∀ bn, is_home start bn → (∀ i, (i < n)%nat → dst i ≠ bn) → block d bn = c bn) →
  hd_n (block d start) = Z.of_nat n ∧ (∀ i, (i < n)%nat → hd_dst (block d start) i = dst i) ∧
  same_files start (replay start dst n d) c ∧ same_files start (recovered start d) c.
Proof.
  intros Hla Hnd Hlen Hh Hlog Hrest. pose proof (la_max _ _ _ Hla) as Hm. pose proof (la_n _ _ _ Hla) as Hn.
  destruct (put_head_spec lg bs Hlen ltac:(lia)) as (_ & Hhn & Hhd). rewrite <- Hh in *. rewrite Hn, Nat2Z.id in *.
  assert (∀ i, (i < n)%nat → hd_dst (block d start) i = dst i) as Hdst by (intros i Hi; rewrite Hhd by done; by apply (la_dst _ _ _ Hla)).
  assert (same_files start (replay start dst n d) c) as Hrep.
  { intros bn Hbn. destruct (decide (bn ∈ dst <$> seq 0 n)) as [(i & -> & Hi%elem_of_seq)%list_elem_of_fmap|Hnot].
    - rewrite (replay_at dst n) by (done || lia). apply Hlog. lia.
    - assert (∀ i, (i < n)%nat → dst i ≠ bn) as Hno.
      { intros i Hi <-. apply Hnot, list_elem_of_fmap. exists i. split; [done|]. apply elem_of_seq. lia. }
      rewrite replay_not_in by done. by apply Hrest. }
  split; [done|]. split; [done|]. split; [done|]. intros bn Hbn. rewrite <- Hrep by done. unfold recovered.
  rewrite Hhn, Nat2Z.id. apply replay_ext; [|by left]. intros i Hi. split; [by apply Hdst|done].
Qed.

Definition atomically (f g : Z → list Z) (e : disk) : Prop :=
  recovers f e ∨ recovers g e.

(** The state after a commit or a recovery whose outcome is the file system [g]. *)
Record clean (g : Z → list Z) (lg : log) (s0 s : kernel) (e : disk) : Prop := {
  cl_cache : ∃ c, cst c [] [] s e;
  cl_files : same_files start (block e) g;
  cl_header : hd_n (block e start) = 0;
  cl_log : k_log s = lg;
  cl_rest : same_rest s0 s
}.

Lemma erase_cwp c s d lg g Cr (Q : unit → kernel → disk → Prop) :
  cst c [] [] s d → k_log s = lg → lg_start lg = start → lg_dev lg = dev → length (lh_block lg) = Z.to_nat LOGBLOCKS →
  same_files start (block d) g → Cr d → (∀ e, recovers g e → Cr e) →
  (∀ s' e, clean g (lg <| lh_n := 0 |>) s s' e → Q tt s' e) →
  cwp Cr Q d ((upd_log (λ lg, lg <| lh_n := 0 |>);; write_head) s).
Proof.
  intros Hst Hlg Hls Hld Hlen Hg Hc Hcr HQ. unfold upd_log. rewrite bind_run. msimpl.
  set (lg0 := lg <| lh_n := 0 |>). set (s0 := s <| k_log ::= _ |>).
  assert (k_log s0 = lg0) as Hlg0 by (unfold s0, lg0; ksimpl; by rewrite Hlg).
  assert (cst c [] [] s0 d) as Hst0 by (by apply cache_st_log).
  pose proof (cs_length _ _ _ _ _ _ _ _ Hst start) as Hcl.
  destruct (put_head_spec lg0 (c start) Hcl) as (Hl & Hn & _); [unfold lg0; ksimpl; unfold LOGBLOCKS, MAXOPBLOCKS; lia|].
  set (hd := put_head lg0 (c start)) in *. set (e := wr_block start hd d).
  assert (hd_n (block e start) = 0) as Hen by (unfold e; by rewrite block_wr_same).
  assert (same_files start (block e) g) as Heg.
  { intros bn Hbn. unfold e. rewrite block_wr_other; [by apply Hg|done|]. destruct Hbn. unfold LOGBLOCKS, MAXOPBLOCKS in *. lia. }
  apply (write_head_cwp c [] s0 d lg0); try done.
  - apply not_elem_of_nil.
  - cbn. unfold NBUF. lia.
  - apply Hcr. fold hd. fold e. split; [by apply header_empty|]. by rewrite recovered_empty.
  - fold hd. fold e. intros s' c' Hst' Hlog' _. apply HQ. split; [by exists c'|done|done| |].
    + by rewrite (sg_log _ _ Hlog').
    + transitivity s0; [by split|by apply same_log_rest].
Qed.

(** The moment the header is written: [d1] holds the new blocks in its log. *)
Record committed (dst : nat → Z) (n : nat) (c : Z → list Z) (d2 : disk) : Prop := {
  co_files : same_files start (replay start dst n d2) c;
  co_progress : ∀ t e, (t ≤ n)%nat → progress dst d2 t e → recovers c e
}.

Lemma commit_point dst n lg c c1 pins s1 s d d1 : pins = dst <$> seq 0 n → log_at dst n lg → NoDup pins →
  cst c pins [] s d → cst c1 pins [] s1 d1 → copied dst c pins d lg s n s1 d1 →
  committed dst n c (wr_block start (put_head lg (c1 start)) d1).
Proof.
  intros Hpins Hla Hnd Hst Hst1 [_ _ _ Hdone Hrest]. pose proof (la_max _ _ _ Hla) as Hm.
  pose proof (cs_length _ _ _ _ _ _ _ _ Hst1 start) as Hcl1.
  destruct (put_head_spec lg (c1 start) Hcl1) as (Hl & _); [rewrite (la_n _ _ _ Hla); lia|].
  set (hd := put_head lg (c1 start)) in *. set (d2 := wr_block start hd d1).
  assert (∀ bn, bn ≠ start → block d2 bn = block d1 bn) as Hd2 by (intros bn Hbn; unfold d2; by apply block_wr_other).
  assert (Hin : ∀ i, (i < n)%nat → dst i ∈ pins).
  { intros i Hi. rewrite Hpins. apply list_elem_of_fmap. exists i. split; [done|]. apply elem_of_seq. lia. }
  subst pins.
  destruct (recovered_committed dst n lg c (c1 start) d2 Hla Hnd Hcl1) as (Hn2 & Hdst2 & Hrep2 & Hrec2).
  { unfold d2. by rewrite block_wr_same. }
  { intros i Hi. rewrite Hd2 by (unfold log_block; lia). by apply Hdone. }
  { intros bn Hbn Hno. assert (bn ≠ start) as Hbs by (destruct Hbn; unfold LOGBLOCKS, MAXOPBLOCKS in *; lia).
    rewrite Hd2 by done. rewrite Hrest by (by left). symmetry. apply (cs_clean _ _ _ _ _ _ _ _ Hst); [|apply not_elem_of_nil].
    intros (i & -> & Hi%elem_of_seq)%list_elem_of_fmap. apply (Hno i); [lia|done]. }
  split; [done|]. intros t e Ht [Hph Hpr].
  assert (block e start = block d2 start) as He by (apply Hpr; unfold is_home, LOGBLOCKS, MAXOPBLOCKS; lia).
  split; [split; rewrite He, Hn2; [lia|intros i Hi; rewrite Hdst2 by lia; apply (la_home _ _ _ Hla); lia]|].
  intros bn Hbn. rewrite <- Hrec2 by done. apply recovered_installed; try done; try lia.
  intros bn' Hbn'. rewrite Hph by done. destruct (decide (bn' ∈ dst <$> seq 0 n)) as [(i & -> & Hi%elem_of_seq)%list_elem_of_fmap|Hnot].
  - right. exists i. rewrite Hn2. split; [lia|]. apply Hdst2. lia.
  - left. apply replay_not_in. intros i Hi <-. apply Hnot, Hin. lia.
Qed.

Lemma commit_cwp dst n c s d lg (pins := dst <$> seq 0 n) :
  log_at dst n lg → k_log s = lg → (0 < n < NBUF)%nat → NoDup pins →
  cst c pins [] s d → hd_n (block d start) = 0 →
  cwp (atomically (block d) c) (λ _ s' e, clean c (lg <| lh_n := 0 |>) s s' e) d (commit s).
Proof.
  intros Hla Hlg Hn Hnd Hst Hh0. pose proof (la_max _ _ _ Hla) as Hm.
  unfold commit, get_log. rewrite bind_run. msimpl. rewrite Hlg, (la_n _ _ _ Hla).
  rewrite (proj2 (Z.ltb_lt _ _)) by lia. cbn iota.
  assert (Hold : ∀ e, (∀ bn, is_home start bn ∨ bn = start → block e bn = block d bn) → atomically (block d) c e).
  { intros e He. assert (hd_n (block e start) = 0) as He0 by (rewrite He; [done|by right]).
    left. split; [by apply header_empty|]. intros bn Hbn. rewrite recovered_empty by done. apply He. by left. }
  assert (Hlp : (length pins < NBUF)%nat) by (unfold pins; rewrite length_fmap, length_seq; lia).
  assert (Hps : start ∉ pins).
  { intros (i & Hi & Hin%elem_of_seq)%list_elem_of_fmap. destruct (la_home _ _ _ Hla i ltac:(lia)) as [_ Hh]. lia. }
  rewrite bind_run. eapply cwp_bind; [by eapply write_log_cwp; try done; lia|]. cbn beta.
  intros _ s1 d1 Hcp. pose proof Hcp as [Hlg1 Hsr1 (c1 & Hst1 & Hc1) Hdone Hrest]. fold pins in Hst1, Hcp.
  destruct (commit_point dst n lg c c1 pins s1 s d d1 eq_refl Hla Hnd Hst Hst1 Hcp) as [Hrep Hprog].
  set (d2 := wr_block start (put_head lg (c1 start)) d1) in *.
  assert (Hcr2 : atomically (block d) c d2) by (right; apply (Hprog 0%nat); [lia|by split]).
  rewrite bind_run. eapply (cwp_bind _ _ _ _ (λ _ s2 e, e = d2 ∧ (∃ c2, cst c2 pins [] s2 d2) ∧ same_log s1 s2)).
  { eapply (write_head_cwp c1 pins s1 d1 lg); try done; try apply Hla; [rewrite (la_n _ _ _ Hla); lia|by apply Hold|].
    intros s2 c2 Hst2 Hlog2 _. split; [done|]. split; [by exists c2|done]. }
  intros _ s2 e (-> & (c2 & Hst2) & Hlog2). assert (k_log s2 = lg) as Hlg2 by (destruct Hlog2 as [-> _ _ _ _ _]; done).
  rewrite bind_run. eapply cwp_bind; [eapply (install_trans_cwp false dst n c2 s2 d2); try done|].
  { lia. } { unfold pins_at. by rewrite Nat.sub_0_r. }
  { intros t e Ht Hpr. right. by apply (Hprog t). }
  cbn beta. intros _ s3 d3 [Hlog3 (c3 & Hst3) Hpr3]. unfold pins_at in Hst3. rewrite Nat.sub_diag in Hst3. cbn in Hst3.
  assert (k_log s3 = lg) as Hlg3 by (destruct Hlog3 as [-> _ _ _ _ _]; done).
  apply (erase_cwp c3 s3 d3 lg c); try done; try apply Hla; [| | |intros s4 e [? ? ? ? Hr]; split; try done; transitivity s3; [|exact Hr]; transitivity s1; [exact Hsr1|]; apply same_log_rest; by transitivity s2].
  - intros bn Hbn. rewrite (pr_home _ _ _ _ Hpr3) by done. by apply Hrep.
  - right. by apply (Hprog n).
  - intros e He. by right.
Qed.

(** ** Recovery *)

Record reading (bs : list Z) (s0 : kernel) (c : Z → list Z) (b : nat) (d : disk) (i : nat) (s : kernel) (d' : disk) : Prop := {
  rd_disk_same : d' = d;
  rd_cache : cst c [] [(b, start)] s d;
  rd_rest : same_rest s0 s;
  rd_where : lg_start (k_log s) = start ∧ lg_dev (k_log s) = dev;
  rd_n : lh_n (k_log s) = hd_n bs;
  rd_len : length (lh_block (k_log s)) = Z.to_nat LOGBLOCKS;
  rd_done : ∀ j, (j < i)%nat → lh_block (k_log s) !! j = Some (i32 (rd_le 4 (4 + 4 * Z.of_nat j) bs))
}.

Lemma read_head_cwp c s d Cr (Q : unit → kernel → disk → Prop) :
  cst c [] [] s d → lg_start (k_log s) = start → lg_dev (k_log s) = dev → length (lh_block (k_log s)) = Z.to_nat LOGBLOCKS →
  header_valid d → Cr d →
  (∀ s', cst c [] [] s' d → same_rest s s' →
     log_at (hd_dst (block d start)) (Z.to_nat (hd_n (block d start))) (k_log s') → Q tt s' d) →
  cwp Cr Q d (read_head s).
Proof.
  intros Hst Hls Hld Hlen [Hn Hhome] Hc HQ. unfold read_head, get_log.
  rewrite bind_run. msimpl. rewrite Hls, Hld, dev_u32, (u32_small start) by (unfold LOGBLOCKS, MAXOPBLOCKS in *; lia).
  rewrite bind_run. eapply (cwp_bind _ _ _ _ (λ b s1 d1, d1 = d ∧ cst c [] [(b, start)] s1 d ∧ same_log s s1)).
  { eapply bread_st; try done.
    - apply not_elem_of_nil.
    - unfold blockno_ok, LOGBLOCKS, MAXOPBLOCKS in *. lia.
    - right. cbn. unfold NBUF. lia. }
  intros b s1 d1 (-> & Hst1 & Hlog1). pose proof (sg_log _ _ Hlog1) as Hk1.
  eapply cwp_step; [eapply get_data_st; [exact Hst1|by left]|]. cbn beta.
  assert (Hcs : c start = block d start) by (apply (cs_clean _ _ _ _ _ _ _ _ Hst); apply not_elem_of_nil).
  rewrite Hcs. set (bs := block d start) in *. change (i32 (rd_le 4 0 bs)) with (hd_n bs).
  unfold upd_log. rewrite bind_run. msimpl. set (s2 := s1 <| k_log ::= _ |>).
  rewrite bind_run. eapply (cwp_bind _ _ _ _ (λ _ s3 e, reading bs s c b d (Z.to_nat (hd_n bs)) s3 e)).
  - apply (cwp_for_each (reading bs s c b d)).
    + intros i s3 e Hi [-> Hst3 Hp3 Hw3 Hn3 Hl3 Hd3].
      destruct (lookup_lt_is_Some_2 (lh_block (k_log s3)) i) as [v Hv]; [rewrite Hl3; lia|].
      unfold set_lh_block, upd_log. eapply cwp_step; [by eapply get_lh_block_run|]. cbn beta. split; [done|].
      split; ksimpl; try done; [by apply cache_st_log|by transitivity s3; [|by split]|by rewrite length_insert|].
      intros j Hj. destruct (decide (j = i)) as [->|Hne]; [apply list_lookup_insert_eq; rewrite Hl3; lia|].
      rewrite list_lookup_insert_ne by done. apply Hd3. lia.
    + intros i s3 e _ [-> _ _ _ _ _ _]. done.
    + unfold s2. split; ksimpl; rewrite ?Hk1; try done; [by apply cache_st_log|transitivity s1; [by apply same_log_rest|by split]|lia].
  - intros _ s3 e [-> Hst3 Hp3 [Hw3 Hw4] Hn3 Hl3 Hd3].
    destruct (brelse_st c [] [] s3 d b start Hst3) as (s4 & Hr4 & Hst4 & Hlog4); [by right|].
    rewrite Hr4. split; [done|]. apply HQ; [done|by transitivity s3; [|apply same_log_rest]|]. rewrite (sg_log _ _ Hlog4).
    split; try done; try lia.
    + intros i Hi. rewrite (Hd3 i Hi). done.
    + intros i Hi. apply Hhome. lia.
Qed.

Lemma recover_cwp c s d : cst c [] [] s d → lg_start (k_log s) = start → lg_dev (k_log s) = dev →
  length (lh_block (k_log s)) = Z.to_nat LOGBLOCKS → k_panicking s = 0 → k_panicked s = 0 → header_valid d →
  cwp (recovers (recovered start d))
    (λ _ s' e, clean (recovered start d) (k_log s') s s' e ∧ lh_n (k_log s') = 0) d (recover_from_log s).
Proof.
  intros Hst Hls Hld Hlen Hp1 Hp2 Hv. unfold recover_from_log. rewrite bind_run. eapply cwp_bind.
  { eapply (read_head_cwp c s d (recovers (recovered start d)) (λ _ s1 d1, d1 = d ∧ cst c [] [] s1 d ∧ same_rest s s1 ∧
      log_at (hd_dst (block d start)) (Z.to_nat (hd_n (block d start))) (k_log s1))); done. }
  intros _ s1 d1 (-> & Hst1 & Hsr1 & Hla).
  assert (k_panicking s1 = 0 ∧ k_panicked s1 = 0) as [Hq1 Hq2] by (destruct Hsr1 as [[-> -> _ _] _]; done). pose proof Hv as [Hn Hhome].
  set (n := Z.to_nat (hd_n (block d start))) in *. set (dst := hd_dst (block d start)) in *.
  assert (Hprog : ∀ t e, (t ≤ n)%nat → progress dst d t e → recovers (recovered start d) e).
  { intros t e Ht [Hph Hpr].
    assert (block e start = block d start) as He by (apply Hpr; unfold is_home, LOGBLOCKS, MAXOPBLOCKS; lia).
    split; [split; by rewrite He|]. apply recovered_installed; try done; try lia. intros bn Hbn. rewrite Hph by done.
    destruct (decide (bn ∈ dst <$> seq 0 t)) as [(i & -> & Hi%elem_of_seq)%list_elem_of_fmap|Hnot].
    - right. exists i. split; [unfold n in Ht; lia|done].
    - left. apply replay_not_in. intros i Hi <-. apply Hnot, list_elem_of_fmap. exists i. split; [done|]. apply elem_of_seq. lia. }
  rewrite bind_run. eapply cwp_bind; [eapply (install_trans_cwp true dst n c s1 d); try done|].
  cbn beta. intros _ s2 d2 [Hlog2 (c2 & Hst2) Hpr2]. pose proof (sg_log _ _ Hlog2) as Hk2.
  eapply (erase_cwp c2 s2 d2 (k_log s1) (recovered start d)); rewrite ?Hk2; try done; try apply Hla.
  - intros bn Hbn. by rewrite (pr_home _ _ _ _ Hpr2).
  - by apply (Hprog n).
  - intros s' e Hcl. rewrite (cl_log _ _ _ _ _ Hcl). split; [|done]. destruct Hcl as [? ? ? Hk Hr]. split; try done. transitivity s2; [|exact Hr]. transitivity s1; [exact Hsr1|by apply same_log_rest].
Qed.

(** ** Crashes and reboots *)

(** A machine that has just booted: nothing is cached. *)
Record booted (s : kernel) (d : disk) : Prop := {
  bt_cache : cst (block d) [] [] s d;
  bt_start : lg_start (k_log s) = start;
  bt_dev : lg_dev (k_log s) = dev;
  bt_len : length (lh_block (k_log s)) = Z.to_nat LOGBLOCKS;
  bt_panic : k_panicking s = 0 ∧ k_panicked s = 0
}.

(** [e] is [d] after any number of recoveries that were interrupted. *)
Inductive reboots : disk → disk → Prop :=
| reboots_none d : reboots d d
| reboots_crash d s e f : booted s d → crashes serve p pid d (recover_from_log s) e → reboots e f → reboots d f.

Lemma booted_cwp g s d : booted s d → recovers g d →
  cwp (recovers g) (λ _ s' e, clean g (k_log s') s s' e) d (recover_from_log s).
Proof.
  intros [Hst Hs Hd Hl [Hp1 Hp2]] [Hv Hg]. eapply cwp_mono; [by apply (recover_cwp (block d))| |].
  - intros e [Hve Hge]. split; [done|]. intros bn Hbn. by rewrite Hge, Hg.
  - intros [] s' e [[Hc Hf Hh Hk Hr] _]. split; try done. intros bn Hbn. by rewrite Hf, Hg.
Qed.

Lemma reboots_recovers g d e : recovers g d → reboots d e → recovers g e.
Proof.
  intros Hg Hr. induction Hr as [d|d s e f Hb Hc _ IH]; [done|]. apply IH.
  eapply cwp_crash; [by apply (booted_cwp g)|exact Hc].
Qed.

(** C7: a commit is atomic.  Start it with the header on the disk empty and the
    blocks of the transaction pinned in the cache, whose contents [c] the
    file system is to have afterwards.  It ends, with the new contents on the
    disk and the header erased.  And wherever the machine stops meanwhile, even if
    the recoveries that follow are interrupted any number of times, the recovery
    that is let finish does finish and leaves on the disk either the file system
    before the commit or the one after it, whole. *)
Theorem commit_survives_crashes dst n c s d :
  log_at dst n (k_log s) → (0 < n < NBUF)%nat → NoDup (dst <$> seq 0 n) →
  cst c (dst <$> seq 0 n) [] s d → hd_n (block d start) = 0 →
  (∃ t f, finishes serve p pid d (commit s) tt t f) ∧
  (∀ t f, finishes serve p pid d (commit s) tt t f → clean c (k_log s <| lh_n := 0 |>) s t f) ∧
  (∀ e e' s', crashes serve p pid d (commit s) e → reboots e e' → booted s' e' →
     (∃ t f, finishes serve p pid e' (recover_from_log s') tt t f) ∧
     ∃ g, (g = block d ∨ g = c) ∧
       ∀ t f, finishes serve p pid e' (recover_from_log s') tt t f → clean g (k_log t) s' t f).
Proof.
  intros Hla Hn Hnd Hst Hh. pose proof (commit_cwp dst n c s d (k_log s) Hla eq_refl Hn Hnd Hst Hh) as Hw.
  split; [destruct (cwp_total serve p pid _ _ _ _ Hw) as ([] & t & f & Hf); by exists t, f|].
  split; [intros t f Hf; by apply (cwp_finish serve p pid _ _ _ _ _ _ _ Hw Hf)|].
  intros e e' s' Hc Hr Hb. assert (∃ g, (g = block d ∨ g = c) ∧ recovers g e) as (g & Hg & He).
  { destruct (cwp_crash serve p pid _ _ _ _ _ Hw Hc); [exists (block d)|exists c]; auto. }
  pose proof (booted_cwp g s' e' Hb (reboots_recovers g e e' He Hr)) as Hw'.
  split; [destruct (cwp_total serve p pid _ _ _ _ Hw') as ([] & t & f & Hf); by exists t, f|].
  exists g. split; [done|]. intros t f Hf. by apply (cwp_finish serve p pid _ _ _ _ _ _ _ Hw' Hf).
Qed.

End crash.

(** ** A transaction of one block *)

#[local] Existing Instance demo_image.
#[local] Existing Instance demo_device.
#[local] Instance demo_patience : Patience := {| patience := 1 |}.
#[local] Existing Instance demo_own.

Definition demo_new : list Z := replicate (Z.to_nat BSIZE) 7.
(** Block 45 of disk 1, dirty and pinned in buffer 0. *)
Definition demo_dirty (x : buf) : buf :=
  x <| b_dev := 1 |> <| b_blockno := 45 |> <| b_valid := 1 |> <| b_refcnt := 1 |> <| b_data := demo_new |>.
Definition demo_dirty_bufs : list buf := alter demo_dirty 0%nat demo_bufs.
Definition demo_view : Z → list Z := <[45 := demo_new]> (block (λ _, 0)).
Definition demo_log (lg : log) : log :=
  lg <| lg_start := 2 |> <| lg_dev := 1 |> <| lh_n := 1 |> <| lh_block := 45 :: replicate 29 0 |>.
Definition demo_txn : kernel := demo_io <| k_bcache := demo_dirty_bufs |> <| k_log ::= demo_log |>.

Lemma demo_dirty_lookup b x : demo_dirty_bufs !! b = Some x →
  (b = 0%nat ∧ x = demo_dirty (Buf 0 0 0 0 0 1 NBUF [])) ∨ (b ≠ 0%nat ∧ b_refcnt x = 0 ∧ b_dev x = 0).
Proof.
  intros Hx. unfold demo_dirty_bufs in Hx. destruct (decide (b = 0%nat)) as [->|Hne].
  - left. rewrite list_lookup_alter_eq in Hx. unfold demo_bufs in Hx. rewrite list_lookup_fmap in Hx. cbn in Hx. by simplify_eq.
  - right. rewrite list_lookup_alter_ne in Hx by done. unfold demo_bufs in Hx. apply list_lookup_fmap_Some in Hx as (i & -> & _). done.
Qed.

Lemma demo_dirty_wf : cache_wf demo_order demo_dirty_bufs (k_sleeplocks demo_sl).
Proof.
  split.
  - split; [reflexivity|apply reverse_Permutation|]. vm_compute. repeat split.
  - intros b x _ [(-> & ->)|(_ & -> & _)]%demo_dirty_lookup; cbn; lia.
  - intros i j x y _ _ Hx Hy Hd He Hb.
    destruct (demo_dirty_lookup i x Hx) as [(-> & ->)|(_ & _ & H0)], (demo_dirty_lookup j y Hy) as [(-> & ->)|(_ & _ & H1)];
      [done| |done|done]. rewrite H1 in He. discriminate.
  - intros b x Hb _. eexists. split; [exact (proj2 (demo_sl_locks b Hb))|done].
Qed.

Lemma demo_txn_cache : cache_st 3 4 1 demo_view [45] [] demo_txn (λ _, 0).
Proof.
  assert (Hb0 : k_bcache demo_txn !! 0%nat = Some (demo_dirty (Buf 0 0 0 0 0 1 NBUF []))) by reflexivity.
  split.
  - split; [exact demo_io_user|exact idle_vdisk_idle].
  - exists demo_order. exact demo_dirty_wf.
  - intros b x _ [(-> & ->)|(_ & Hr & Hd)]%demo_dirty_lookup.
    + split; [reflexivity|]. intros _ _. split; [unfold blockno_ok; cbn; lia|]. unfold demo_view. by rewrite fn_lookup_insert.
    + split; [rewrite Hr; unfold Z_of_prop; by rewrite !decide_False by (rewrite ?Hd; set_solver)|by rewrite Hd].
  - intros b bn Hin. by apply not_elem_of_nil in Hin.
  - intros b k Hb _ Hk. change (k_sleeplocks demo_txn) with (k_sleeplocks demo_sl) in Hk.
    rewrite (proj2 (demo_sl_locks b Hb)) in Hk. by injection Hk as <-.
  - intros bn Hbn. apply list_elem_of_singleton in Hbn as ->. exists 0%nat, (demo_dirty (Buf 0 0 0 0 0 1 NBUF [])).
    split; [unfold NBUF; lia|]. by split_and!.
  - apply NoDup_nil_2.
  - intros bn. unfold demo_view. destruct (decide (bn = 45)) as [->|Hne].
    + rewrite fn_lookup_insert. apply length_replicate.
    + rewrite fn_lookup_insert_ne by done. apply length_block.
  - intros bn Hbn _. unfold demo_view. rewrite fn_lookup_insert_ne; [done|]. set_solver.
Qed.

Lemma demo_txn_log : log_at 1 2 (λ _, 45) 1 (k_log demo_txn).
Proof.
  split; try reflexivity.
  - vm_compute. discriminate.
  - intros i Hi. assert (i = 0%nat) as -> by lia. reflexivity.
  - intros i _. unfold is_home, blockno_ok, LOGBLOCKS, MAXOPBLOCKS. lia.
Qed.

Lemma demo_uart : uart_ready demo_device.
Proof. intros n. vm_compute. discriminate. Qed.

Lemma commit_survives_crashes_witness :
  ∃ t f, finishes demo_serve 3 4 (λ _, 0) (commit demo_txn) tt t f ∧ block f 45 = demo_new.
Proof.
  destruct (commit_survives_crashes (DV := demo_device) (PT := demo_patience) demo_serve demo_serve_ok 3 4 1 ltac:(lia) (le_n 1) demo_uart 2
    ltac:(unfold LOGBLOCKS, MAXOPBLOCKS; lia) (λ _, 45) 1 demo_view demo_txn (λ _, 0)) as ((t & f & Hf) & Hall & _).
  - exact demo_txn_log.
  - unfold NBUF. lia.
  - apply list.NoDup_singleton.
  - exact demo_txn_cache.
  - vm_compute. reflexivity.
  - exists t, f. split; [exact Hf|]. destruct (Hall t f Hf) as [_ Hfiles _ _ _].
    rewrite Hfiles by (unfold is_home, blockno_ok, LOGBLOCKS, MAXOPBLOCKS; lia). unfold demo_view. apply fn_lookup_insert.
Defined.
