(* ===== verification/TxnSpec.v ===== *)
(** * Writing blocks inside a transaction

    One operation of the file system is open and one process runs it.  [c]
    gives the contents of every block as that process sees them: the blocks
    [pins] have been written and logged, the others are as on the disk.  Nothing is
    written to the disk before the commit, so each lemma leaves the disk alone. *)

From S2P Require Import Prelude Decimal Riscv State Boot Spinlock ProcTable Machine CString Kalloc Vm Printf Sched SchedSpec Sleeplock SleeplockSpec FsDefs Virtio Bio BioSpec Frame Log LogSpec DiskSpec CacheSpec PrintfSpec CrashSpec.

(** The setting: the disk, the process that runs, the device number of the
    file system, where its log starts, and a console that accepts output. *)
Class Session {DV : Device} {PT : Patience} {OW : Own} := {
  serve : device; serve_ok : device_ok serve;
  me : nat; my_pid : Z;
  dev : Z; dev_ok : 0 < dev < 2 ^ 32;
  log_start : Z; log_start_ok : 0 ≤ log_start ∧ log_start + LOGBLOCKS + 1 < 2 ^ 31;
  patient : (0 < patience)%nat;
  uart_ok : uart_ready DV
}.

Section txn.
Context `{IM : Image, DV : Device, PT : Patience, OW : Own, SS : !Session}.

Abbreviation cst := (cache_st me my_pid dev).

(** Blocks outside the log. *)
Definition home (bn : Z) : Prop := is_home log_start bn.

Record txn (c : Z → list Z) (pins : list Z) (H : list (nat * Z)) (s : kernel) (d : disk) : Prop := {
  tx_cache : cst c pins H s d;
  tx_len : length (lh_block (k_log s)) = Z.to_nat LOGBLOCKS;
  tx_n : lh_n (k_log s) = Z.of_nat (length pins);
  tx_pins : blocks (k_log s) = pins;
  tx_nodup : NoDup pins;
  tx_home : ∀ n, n ∈ pins → home n;
  tx_where : lg_start (k_log s) = log_start ∧ lg_dev (k_log s) = dev;
  tx_open : lg_outstanding (k_log s) = 1 ∧ lg_committing (k_log s) = 0
}.

Lemma txn_same c pins H H' c' s s' d : txn c pins H s d → cst c' pins H' s' d → same_log s s' → txn c' pins H' s' d.
Proof. intros [Hst Hl Hn Hp Hd Hh Hw Ho] Hst' [Hlog _ _ _ _ _]. split; rewrite ?Hlog; done. Qed.

(** The blocks logged after one more. *)
Definition pin (bn : Z) (pins : list Z) : list Z := if decide (bn ∈ pins) then pins else pins ++ [bn].

Lemma elem_of_pin bn n pins : n ∈ pin bn pins ↔ n = bn ∨ n ∈ pins.
Proof. unfold pin. destruct (decide _); set_solver. Qed.
Lemma length_pin bn pins : (length (pin bn pins) ≤ S (length pins))%nat.
Proof. unfold pin. destruct (decide _); [lia|]. rewrite length_app. cbn. lia. Qed.
Lemma NoDup_pin bn pins : NoDup pins → NoDup (pin bn pins).
Proof.
  intros Hnd. unfold pin. destruct (decide _) as [|Hn]; [done|]. apply list.NoDup_app. split; [done|]. split; [|apply list.NoDup_singleton].
  intros n Hin Hn'. apply list_elem_of_singleton in Hn' as ->. done.
Qed.

(** ** log_write *)

Lemma cache_st_pins c pins pins' H s d : (∀ n, n ∈ pins ↔ n ∈ pins') → cst c pins H s d → cst c pins' H s d.
Proof.
  intros Hp [Hio Hwf Hb Hh Hf Hpin Hd Hl Hc]. split; try done.
  - intros b x Hlt Hx. destruct (Hb b x Hlt Hx) as [Hr Hdt]. split; [|done]. rewrite Hr. f_equal. unfold Z_of_prop.
    apply decide_ext. by rewrite Hp.
  - intros n Hn. by apply Hpin, Hp.
  - intros n Hn. apply Hc. by rewrite Hp.
Qed.

Lemma bpin_st c pins H s d b bn : cst c pins H s d → (b, bn) ∈ H → bn ∉ pins →
  cst c (bn :: pins) H (s <| k_bcache := alter referenced b (k_bcache s) |>) d.
Proof.
  intros Hst Hin Hnp. destruct (held_buf me my_pid dev _ _ _ _ _ _ _ Hst Hin) as (x & Hx & Hd & Hbn & Hv & Hdt & Hok & Hlt).
  destruct (cs_wf _ _ _ _ _ _ _ _ Hst) as [l Hw]. destruct (cs_held _ _ _ _ _ _ _ _ Hst b bn Hin) as [_ _ (k & Hk & Hlk & Hpk)].
  assert (Hbh : b ∈ H.*1) by (apply list_elem_of_fmap; by exists (b, bn)).
  assert (b_refcnt x = 1) as Hr1.
  { destruct (cs_buf _ _ _ _ _ _ _ _ Hst b x Hlt Hx) as [-> _]. unfold Z_of_prop. rewrite decide_False, decide_True; [done|done|].
    rewrite Hbn. tauto. }
  assert (b_refcnt (referenced x) = 2) as Hr2 by (unfold referenced; ksimpl; by rewrite Hr1).
  assert (k_bcache s !! b = Some x) as Hx' by done. rewrite <- (list_insert_alter referenced _ _ _ Hx).
  set (s' := s <| k_bcache := _ |>). assert (k_bcache s' = <[b := referenced x]> (k_bcache s)) as HB by done.
  assert (b < length (k_bcache s))%nat as Hbl by (by eapply lookup_lt_Some).
  assert (∀ j w, k_bcache s !! j = Some w → ∃ z, k_bcache s' !! j = Some z ∧ b_dev z = b_dev w ∧ b_blockno z = b_blockno w ∧ b_valid z = b_valid w) as Hfwd.
  { intros j w Hw2. rewrite HB. destruct (decide (j = b)) as [->|Hne].
    - rewrite list_lookup_insert_eq by done. simplify_eq. by exists (referenced x).
    - rewrite list_lookup_insert_ne by done. by exists w. }
  split; try apply Hst.
  - destruct (cs_io _ _ _ _ _ _ _ _ Hst). by split.
  - exists l. rewrite HB, (list_insert_alter referenced _ _ _ Hx). change (k_sleeplocks s') with (k_sleeplocks s). rewrite <- (insert_id _ _ _ Hk).
    apply (cache_wf_alter _ _ _ _ _ x); try done; [rewrite Hr2; lia|rewrite Hr2; lia|by left].
  - intros j z Hj Hz. rewrite HB in Hz. apply list_lookup_insert_Some in Hz as [(<- & <- & _)|[Hne Hz]].
    + destruct (cs_buf _ _ _ _ _ _ _ _ Hst b x Hlt Hx) as [_ Hdx]. split; [|exact Hdx]. rewrite Hr2.
      unfold Z_of_prop. rewrite !decide_True; [done|done|]. split; [done|]. cbn. rewrite Hbn. by left.
    + destruct (cs_buf _ _ _ _ _ _ _ _ Hst j z Hj Hz) as [Hr Hdx]. split; [|exact Hdx]. rewrite Hr. f_equal.
      unfold Z_of_prop. apply decide_ext. rewrite elem_of_cons. split; [tauto|]. intros [Hdz [Hbz|?]]; [|done].
      destruct Hne. symmetry. eapply held_unique; try exact dev_ok; try exact patient; done.
  - intros j bj Hj. destruct (cs_held _ _ _ _ _ _ _ _ Hst j bj Hj) as [Hlj (z & Hz & Hdz & Hbz & Hvz) Hkj]. split; [done| |done].
    destruct (Hfwd j z Hz) as (z' & Hz' & ? & ? & ?). exists z'. split_and!; congruence.
  - intros n [->|Hn]%elem_of_cons.
    + exists b, (referenced x). rewrite HB, list_lookup_insert_eq by done. by split_and!.
    + destruct (cs_pinned _ _ _ _ _ _ _ _ Hst n Hn) as (j & z & Hj & Hz & Hdz & Hbz & Hvz).
      destruct (Hfwd j z Hz) as (z' & Hz' & ? & ? & ?). exists j, z'. split_and!; congruence.
  - intros n Hn1 Hn2. apply (cs_clean _ _ _ _ _ _ _ _ Hst); [|done]. intros Hn. apply Hn1. by right.
Qed.

Lemma txn_header c pins H s d : txn c pins H s d → Z.of_nat (length pins) ≤ LOGBLOCKS → header_ok (k_log s).
Proof. intros [Hst Hl Hn Hp Hd Hh Hw Ho] Hlt. split; [done|]. rewrite Hp, Hn. split; [lia|done]. Qed.

(** [log_write] of a block that is logged already. *)
Lemma log_write_absorb s b x :
  hart_at 0 (k_hw s) → lock_free L_log (k_hw s) → k_bcache s !! b = Some x →
  length (lh_block (k_log s)) = Z.to_nat LOGBLOCKS → lh_n (k_log s) < LOGBLOCKS → 1 ≤ lg_outstanding (k_log s) →
  (slot (b_blockno x) (k_log s) < Z.to_nat (lh_n (k_log s)))%nat →
  log_write b s = Ret tt (s <| k_log ::= logged (b_blockno x) |>).
Proof.
  intros Hh Hl Hb Hlen Hlt Ho Hslot. unfold log_write. mrun_with (acquire_run 0 _ s Hh Hl).
  unfold set_lh_block, get_lh_block, get_log, upd_log, get_buf. mrun. ksimpl.
  destruct (Z.leb_spec LOGBLOCKS (lh_n (k_log s))); [lia|].
  destruct (Z.ltb_spec (lg_outstanding (k_log s)) 1); [lia|]. mrun. ksimpl. rewrite Hb. mrun. ksimpl.
  fold (slot (b_blockno x) (k_log s)).
  assert (is_Some (lh_block (k_log s) !! slot (b_blockno x) (k_log s))) as [z ->] by (apply lookup_lt_is_Some_2; lia).
  assert ((Z.of_nat (slot (b_blockno x) (k_log s)) =? lh_n (k_log s)) = false) as Hne by (apply Z.eqb_neq; lia).
  rewrite Hne. mrun. mrun_with (release_run 0 L_log (k_hw s)); [|done|done|done].
  f_equal. assert (s <| k_log ::= logged (b_blockno x) |> = s <| k_log := logged (b_blockno x) (k_log s) |>) as -> by by destruct s.
  unfold logged. rewrite Hne. by destruct s.
Qed.

Lemma log_write_st c pins H s d b bn : txn c pins H s d → (b, bn) ∈ H → home bn → Z.of_nat (length pins) < LOGBLOCKS →
  ∃ s', log_write b s = Ret tt s' ∧ txn c (pin bn pins) H s' d ∧ same_rest s s'.
Proof.
  intros Ht Hin Hhm Hlt. pose proof Ht as [Hst Hlen Hn Hp Hd Hph Hwh [Ho Hcm]].
  assert (Hphm : ∀ n, n ∈ pin bn pins → home n) by (intros n Hin'; apply elem_of_pin in Hin' as [->|]; auto).
  destruct (held_buf me my_pid dev _ _ _ _ _ _ _ Hst Hin) as (x & Hx & _ & Hbn & _ & _ & Hok & _).
  destruct (cs_io _ _ _ _ _ _ _ _ Hst) as [[Hh _ _ Hlk _ _] _].
  pose proof (txn_header _ _ _ _ _ Ht ltac:(lia)) as Hhd. pose proof Hhd as (Hl & _).
  assert (0 ≤ bn < 2 ^ 32) as Hbn32 by (unfold blockno_ok in Hok; lia).
  destruct (logged_ok bn (k_log s) Hhd ltac:(lia) Hbn32) as ((Hlen' & Hn' & Hnd') & _ & Ho' & Hcm' & _).
  assert (lg_start (logged bn (k_log s)) = lg_start (k_log s) ∧ lg_dev (logged bn (k_log s)) = lg_dev (k_log s)) as [Hls Hld]
    by (unfold logged; by destruct (_ =? _)).
  destruct (log_find_spec (lh_block (k_log s)) (Z.to_nat (lh_n (k_log s))) bn) as [_ Hf]; [unfold LOGBLOCKS, MAXOPBLOCKS in *; lia|].
  fold (slot bn (k_log s)) in Hf.
  assert (blocks (k_log s) = pins) as Hbl by done. unfold blocks in Hbl.
  destruct Hf as [[Hs Hni]|[Hs (v & Hv & Hvb)]].
  - rewrite Hbl in Hni. assert (pin bn pins = pins ++ [bn]) as Hpin by (unfold pin; by rewrite decide_False). rewrite Hpin in *.
    rewrite (log_write_run 0 s b x); rewrite ?Hbn; try done; [|by apply Hlk, io_lock_log|by apply Hlk, io_lock_bcache|lia|lia|lia].
    eexists. split; [done|]. split; [|by split].
    assert ((Z.of_nat (slot bn (k_log s)) =? lh_n (k_log s)) = true) as Heq by (apply Z.eqb_eq; lia).
    assert (blocks (logged bn (k_log s)) = pins ++ [bn] ∧ lh_n (logged bn (k_log s)) = Z.of_nat (length (pins ++ [bn]))) as [Hb1 Hb2].
    { unfold blocks, logged. rewrite Heq. ksimpl. rewrite length_app. cbn. rewrite i32_small, Hn by (unfold LOGBLOCKS, MAXOPBLOCKS in *; lia).
      split; [|lia]. rewrite Hn, Nat2Z.id in Hs, Hbl. rewrite Hs.
      replace (Z.to_nat (Z.of_nat (length pins) + 1)) with (S (length pins)) by lia.
      rewrite (take_S_r _ _ (i32 bn)), fmap_app by (apply list_lookup_insert_eq; rewrite Hl; unfold LOGBLOCKS, MAXOPBLOCKS in *; lia).
      rewrite take_insert_ge, Hbl by lia. simpl. by rewrite u32_i32. }
    assert (NoDup (pins ++ [bn])) as Hnd2 by (rewrite <- Hb1; exact Hnd').
    split; try done.
    + change (s <| k_log ::= logged bn |> <| k_bcache := alter (λ y, y <| b_refcnt ::= λ n, u32 (n + 1) |>) b (k_bcache s) |>)
        with (s <| k_bcache := alter referenced b (k_bcache s) |> <| k_log ::= logged bn |>).
      apply cache_st_log. apply (cache_st_pins c (bn :: pins)); [set_solver|]. by apply bpin_st.
    + ksimpl. by rewrite Hls, Hld.
    + ksimpl. by rewrite Ho', Hcm'.
  - assert (bn ∈ pins) as Hbp.
    { rewrite <- Hbl. apply list_elem_of_fmap. exists v. split; [done|]. apply (list_elem_of_lookup_2 _ (slot bn (k_log s))).
      by rewrite lookup_take_lt. }
    assert (pin bn pins = pins) as Hpin by (unfold pin; by rewrite decide_True). rewrite Hpin in *. rewrite (log_write_absorb s b x); rewrite ?Hbn; try done; [|by apply Hlk, io_lock_log|lia|lia].
    eexists. split; [done|]. split; [|by split].
    assert ((Z.of_nat (slot bn (k_log s)) =? lh_n (k_log s)) = false) as Hne by (apply Z.eqb_neq; lia).
    split; try done.
    + by apply cache_st_log.
    + ksimpl. unfold logged. by rewrite Hne.
    + ksimpl. unfold logged, blocks. rewrite Hne. ksimpl. rewrite take_insert_lt, list_fmap_insert, u32_i32 by done. rewrite Hbl.
      apply list_insert_id. rewrite <- Hbl, list_lookup_fmap, lookup_take_lt, Hv by done. cbn. by rewrite Hvb.
    + ksimpl. by rewrite Hls, Hld.
    + ksimpl. by rewrite Ho', Hcm'.
Qed.

(** ** Operations inside a transaction

    [op d r Q]: the run [r] ends, the disk being [d] all the way, with a result and
    a state of which [Q] holds. *)

Definition op {A} (d : disk) (r : res A) (Q : A → kernel → Prop) : Prop :=
  cwp serve me my_pid (λ e, e = d) (λ a s e, e = d ∧ Q a s) d r.

Lemma op_ret {A} d (a : A) s (Q : A → kernel → Prop) : Q a s → op d (Ret a s) Q.
Proof. intros HQ. by split. Qed.

Lemma op_bind {A B} d s (m : M A) (g : A → M B) Q' Q :
  op d (m s) Q' → (∀ a s', Q' a s' → op d (g a s') Q) → op d ((m ≫= g) s) Q.
Proof.
  intros Hm Hg. unfold op. rewrite bind_run. eapply cwp_bind; [exact Hm|]. intros a s' d' [-> HQ]. by apply Hg.
Qed.

Lemma op_step {A B} d s s' (m : M A) (g : A → M B) a Q : m s = Ret a s' → op d (g a s') Q → op d ((m ≫= g) s) Q.
Proof. intros Hm Hg. unfold op. by rewrite bind_run, Hm. Qed.

Lemma op_mono {A} d (r : res A) (Q Q' : A → kernel → Prop) : op d r Q → (∀ a s, Q a s → Q' a s) → op d r Q'.
Proof. intros Hr HQ. eapply cwp_mono; [exact Hr|done|]. intros a s e [-> H']. auto. Qed.

(** A loop with an invariant and a bound on the rounds left. *)
Lemma op_while {X B} d (body : X → M (X + B)) (I : nat → X → kernel → Prop) Q :
  (∀ n x s, I (S n) x s → op d (body x s) (λ r s', match r with inl x' => I n x' s' | inr b => Q b s' end)) →
  (∀ x s, ¬ I 0%nat x s) →
  ∀ n x s, I n x s → op d (while_ n body x s) Q.
Proof.
  intros Hb H0 n. induction n as [|n IH]; intros x s HI; [by destruct (H0 x s)|].
  cbn [while_]. eapply op_bind; [by apply Hb|]. intros [x'|b] s' HI'; [by apply IH|by apply op_ret].
Qed.

Lemma op_for {d} (body : nat → M unit) (I : nat → kernel → Prop) n :
  (∀ i s, (i < n)%nat → I i s → op d (body i s) (λ _ s', I (S i) s')) →
  ∀ s, I 0%nat s → op d (for_each (seq 0 n) body s) (λ _ s', I n s').
Proof.
  intros Hb. assert (∀ m k s, (k + m = n)%nat → I k s → op d (for_each (seq k m) body s) (λ _ s', I n s')) as Hall.
  { induction m as [|m IH]; intros k s Hk HI; cbn [seq for_each].
    - rewrite Nat.add_0_r in Hk. subst. by apply op_ret.
    - eapply op_bind; [apply Hb; [lia|done]|]. intros [] s' HI'. apply IH; [lia|done]. }
  intros s HI. by apply Hall.
Qed.

(** Room for [k] more blocks in the log and for the buffers an operation holds. *)
Definition fits (pins : list Z) (k : nat) : Prop := (length pins + k + 4 ≤ NBUF)%nat.

Lemma fits_log pins k : fits pins (S k) → Z.of_nat (length pins) < LOGBLOCKS.
Proof. unfold fits, NBUF, LOGBLOCKS, MAXOPBLOCKS. lia. Qed.
Lemma fits_pin bn pins k : fits pins (S k) → fits (pin bn pins) k.
Proof. unfold fits. pose proof (length_pin bn pins). lia. Qed.
Lemma fits_le pins k k' : fits pins k → (k' ≤ k)%nat → fits pins k'.
Proof. unfold fits. lia. Qed.

Lemma bread_op {B} c pins H s d bn (g : nat → M B) Q :
  txn c pins H s d → bn ∉ H.*2 → blockno_ok bn → (length pins + length H < NBUF)%nat →
  (∀ b s', txn c pins ((b, bn) :: H) s' d → same_rest s s' → op d (g b s') Q) →
  op d ((bread dev bn ≫= g) s) Q.
Proof.
  intros Ht Hn Hok Hroom Hg. eapply (op_bind _ _ _ _ (λ b s', txn c pins ((b, bn) :: H) s' d ∧ same_rest s s')).
  - eapply (bread_cwp serve serve_ok me my_pid dev dev_ok patient); [apply Ht|done|done|by right|done|].
    intros b s' Hst Hlog. split; [done|]. split; [by eapply txn_same|by apply same_log_rest].
  - intros b s' []. by apply Hg.
Qed.

Lemma get_data_op {B} c pins H s d b bn (g : list Z → M B) Q :
  txn c pins H s d → (b, bn) ∈ H → op d (g (c bn) s) Q → op d ((get_data b ≫= g) s) Q.
Proof. intros Ht Hin. apply op_step. eapply (get_data_run me my_pid dev); [apply Ht|done]. Qed.

Lemma upd_data_op {B} c pins H s d b bn f (g : unit → M B) Q :
  txn c pins H s d → (b, bn) ∈ H → length (f (c bn)) = Z.to_nat BSIZE →
  (∀ s', txn (<[bn := f (c bn)]> c) pins H s' d → same_rest s s' → op d (g tt s') Q) →
  op d ((upd_data b f ≫= g) s) Q.
Proof.
  intros Ht Hin Hl Hg. destruct (upd_data_run me my_pid dev dev_ok patient c pins H s d b bn f) as (s' & Hr & Hst & Hlog); [apply Ht|done|done|].
  eapply op_step; [exact Hr|]. apply Hg; [by eapply txn_same|by apply same_log_rest].
Qed.

Lemma log_write_op {B} c pins H s d b bn k (g : unit → M B) Q :
  txn c pins H s d → (b, bn) ∈ H → home bn → fits pins (S k) →
  (∀ s', txn c (pin bn pins) H s' d → same_rest s s' → op d (g tt s') Q) →
  op d ((log_write b ≫= g) s) Q.
Proof.
  intros Ht Hin Hh Hf Hg. destruct (log_write_st c pins H s d b bn Ht Hin Hh) as (s' & Hr & Ht' & Hs); [by eapply fits_log|].
  eapply op_step; [exact Hr|]. by apply Hg.
Qed.

Lemma brelse_run_txn c pins H s d b bn :
  txn c pins ((b, bn) :: H) s d → (bn ∈ pins ∨ c bn = block d bn) →
  ∃ s', brelse b s = Ret tt s' ∧ txn c pins H s' d ∧ same_rest s s'.
Proof.
  intros Ht Hc. destruct (brelse_run_st serve serve_ok me my_pid dev dev_ok patient c pins H s d b bn) as (s' & Hr & Hst & Hlog); [apply Ht|done|].
  exists s'. split; [done|]. split; [by eapply txn_same|by apply same_log_rest].
Qed.

Lemma brelse_op {B} c pins H s d b bn (g : unit → M B) Q :
  txn c pins ((b, bn) :: H) s d → (bn ∈ pins ∨ c bn = block d bn) →
  (∀ s', txn c pins H s' d → same_rest s s' → op d (g tt s') Q) →
  op d ((brelse b ≫= g) s) Q.
Proof.
  intros Ht Hc Hg. destruct (brelse_run_txn _ _ _ _ _ _ _ Ht Hc) as (s' & Hr & Ht' & Hs). eapply op_step; [exact Hr|]. by apply Hg.
Qed.

(** A block that is not held is as on the disk or logged. *)
Lemma clean_or_pinned c pins H s d bn : txn c pins H s d → bn ∉ H.*2 → bn ∈ pins ∨ c bn = block d bn.
Proof. intros Ht Hn. destruct (decide (bn ∈ pins)); [by left|right]. by apply (cs_clean _ _ _ _ _ _ _ _ (tx_cache _ _ _ _ _ Ht)). Qed.

(** ** Reading, inside a transaction or not *)

Lemma bread_view {B} c pins H s d bn (g : nat → M B) Q :
  cst c pins H s d → bn ∉ H.*2 → blockno_ok bn → (length pins + length H < NBUF)%nat →
  (∀ b s', cst c pins ((b, bn) :: H) s' d → same_log s s' → op d (g b s') Q) →
  op d ((bread dev bn ≫= g) s) Q.
Proof.
  intros Ht Hn Hok Hroom Hg. eapply (op_bind _ _ _ _ (λ b s', cst c pins ((b, bn) :: H) s' d ∧ same_log s s')).
  - eapply (bread_cwp serve serve_ok me my_pid dev dev_ok patient); [exact Ht|done|done|by right|done|done].
  - intros b s' []. by apply Hg.
Qed.

Lemma get_data_view {B} c pins H s d b bn (g : list Z → M B) Q :
  cst c pins H s d → (b, bn) ∈ H → op d (g (c bn) s) Q → op d ((get_data b ≫= g) s) Q.
Proof. intros Ht Hin. apply op_step. by eapply (get_data_run me my_pid dev). Qed.

Lemma brelse_view {B} c pins H s d b bn (g : unit → M B) Q :
  cst c pins ((b, bn) :: H) s d → (bn ∈ pins ∨ c bn = block d bn) →
  (∀ s', cst c pins H s' d → same_log s s' → op d (g tt s') Q) →
  op d ((brelse b ≫= g) s) Q.
Proof.
  intros Ht Hc Hg. destruct (brelse_run_st serve serve_ok me my_pid dev dev_ok patient c pins H s d b bn Ht Hc) as (s' & Hr & Ht' & Hs).
  eapply op_step; [exact Hr|]. by apply Hg.
Qed.

Lemma view_clean c pins H s d bn : cst c pins H s d → bn ∉ H.*2 → bn ∈ pins ∨ c bn = block d bn.
Proof. intros Ht Hn. destruct (decide (bn ∈ pins)); [by left|right]. by apply (cs_clean _ _ _ _ _ _ _ _ Ht). Qed.

End txn.
