(* ===== verification/AllocSpec.v ===== *)
(** * The block allocator

    The bitmap on the disk as a set of blocks in use: [balloc] takes the
    first free block and clears it, [bfree] gives a block back, both through the
    buffer cache and the log. *)

From S2P Require Import Prelude Decimal Riscv State Boot Spinlock ProcTable Machine CString Kalloc Vm Printf Sched SchedSpec Sleeplock SleeplockSpec FsDefs Virtio Bio BioSpec Frame Log LogSpec DiskSpec CacheSpec PrintfSpec CrashSpec TxnSpec Fs.

(** ** Bits of a block *)

Definition bit_at (data : list Z) (bi : Z) : bool := Z.testbit (bit_byte bi data) (bi mod 8).
Definition set_bit (bi : Z) (data : list Z) : list Z := <[Z.to_nat (bi / 8) := Z.lor (bit_byte bi data) (bit_mask bi)]> data.
Definition clear_bit (bi : Z) (data : list Z) : list Z :=
  <[Z.to_nat (bi / 8) := Z.land (bit_byte bi data) (u8 (Z.lnot (bit_mask bi)))]> data.

Lemma land_bit x k : 0 ≤ k → (Z.land x (Z.shiftl 1 k) =? 0) = negb (Z.testbit x k).
Proof.
  intros Hk. rewrite Z.shiftl_1_l. destruct (Z.testbit x k) eqn:E; cbn.
  - apply Z.eqb_neq. intros H0. assert (Z.testbit (Z.land x (2 ^ k)) k = false) as H1 by (rewrite H0; apply Z.bits_0).
    rewrite Z.land_spec, E, Z.pow2_bits_true in H1 by done. done.
  - apply Z.eqb_eq, Z.bits_inj'. intros n Hn. rewrite Z.land_spec, Z.bits_0. destruct (decide (n = k)) as [->|Hne]; [by rewrite E|].
    rewrite (Z.pow2_bits_false k n) by lia. apply andb_false_r.
Qed.

Lemma bit_test data bi : (Z.land (bit_byte bi data) (bit_mask bi) =? 0) = negb (bit_at data bi).
Proof. apply land_bit. apply Z.mod_pos_bound. lia. Qed.

Lemma bit_byte_insert bi bj v data : 0 ≤ bi < BPB → 0 ≤ bj < BPB → length data = Z.to_nat BSIZE →
  bit_byte bj (<[Z.to_nat (bi / 8) := v]> data) = if bi / 8 =? bj / 8 then v else bit_byte bj data.
Proof.
  intros Hi Hj Hl. unfold bit_byte, BPB, BSIZE in *. pose proof (Z.div_pos bi 8). pose proof (Z.div_pos bj 8).
  pose proof (Z.div_lt_upper_bound bi 8 1024). destruct (Z.eqb_spec (bi / 8) (bj / 8)) as [<-|Hne].
  - rewrite list_lookup_insert_eq by lia. done.
  - rewrite list_lookup_insert_ne by lia. done.
Qed.

Lemma mask_bit bi k : 0 ≤ k → Z.testbit (bit_mask bi) k = (bi mod 8 =? k).
Proof.
  intros Hk. pose proof (Z.mod_pos_bound bi 8). unfold bit_mask. rewrite Z.shiftl_1_l, Z.pow2_bits_eqb by lia. done.
Qed.

Lemma same_bit bi bj : (bi / 8 =? bj / 8) && (bi mod 8 =? bj mod 8) = (bi =? bj).
Proof.
  pose proof (Z.div_mod bi 8). pose proof (Z.div_mod bj 8).
  destruct (Z.eqb_spec bi bj) as [->|Hne]; [by rewrite !Z.eqb_refl|].
  destruct (Z.eqb_spec (bi / 8) (bj / 8)), (Z.eqb_spec (bi mod 8) (bj mod 8)); try done. lia.
Qed.

Lemma bit_at_set data bi bj : 0 ≤ bi < BPB → 0 ≤ bj < BPB → length data = Z.to_nat BSIZE →
  bit_at (set_bit bi data) bj = (bi =? bj) || bit_at data bj.
Proof.
  intros Hi Hj Hl. unfold bit_at, set_bit. rewrite bit_byte_insert, <- (same_bit bi bj) by done. pose proof (Z.mod_pos_bound bj 8).
  destruct (Z.eqb_spec (bi / 8) (bj / 8)) as [He|]; [|done]. rewrite Z.lor_spec, mask_bit, orb_comm by lia. cbn. f_equal.
  unfold bit_byte. by rewrite He.
Qed.

Lemma bit_at_clear data bi bj : 0 ≤ bi < BPB → 0 ≤ bj < BPB → length data = Z.to_nat BSIZE →
  bit_at (clear_bit bi data) bj = negb (bi =? bj) && bit_at data bj.
Proof.
  intros Hi Hj Hl. unfold bit_at, clear_bit. rewrite bit_byte_insert, <- (same_bit bi bj) by done. pose proof (Z.mod_pos_bound bj 8).
  destruct (Z.eqb_spec (bi / 8) (bj / 8)) as [He|]; [|done]. unfold u8.
  rewrite Z.land_spec, Z.mod_pow2_bits_low, Z.lnot_spec, mask_bit, andb_comm by lia. cbn. f_equal. unfold bit_byte. by rewrite He.
Qed.

Lemma length_set_bit bi data : length (set_bit bi data) = length data.
Proof. apply length_insert. Qed.
Lemma length_clear_bit bi data : length (clear_bit bi data) = length data.
Proof. apply length_insert. Qed.

(** The inner loop of [balloc] finds the first clear bit. *)
Lemma balloc_scan_first fuel bi limit data : 0 ≤ bi → BPB - bi < Z.of_nat fuel →
  match balloc_scan fuel bi limit data with
  | Some r => bi ≤ r < BPB ∧ r < limit ∧ bit_at data r = false ∧ ∀ k, bi ≤ k < r → bit_at data k = true
  | None => ∀ k, bi ≤ k < BPB → k < limit → bit_at data k = true
  end.
Proof.
  revert bi. induction fuel as [|fuel IH]; intros bi Hbi Hf; cbn [balloc_scan]; [lia|].
  destruct (Z.ltb_spec bi BPB); [|intros k Hk; lia]. destruct (Z.ltb_spec bi limit); [|intros k Hk Hl; lia]. cbn [andb].
  rewrite bit_test. destruct (bit_at data bi) eqn:E; cbn [negb].
  - specialize (IH (bi + 1) ltac:(lia) ltac:(lia)). destruct (balloc_scan fuel (bi + 1) limit data) as [r|].
    + destruct IH as (H1 & H2 & H3 & H4). split; [lia|]. split; [done|]. split; [done|]. intros k Hk.
      destruct (decide (k = bi)) as [->|]; [done|apply H4; lia].
    + intros k Hk Hl. destruct (decide (k = bi)) as [->|]; [done|apply IH; lia].
  - split; [lia|]. split; [done|]. split; [done|]. intros k Hk. lia.
Qed.

(** ** The bitmap of a file system *)

(** The regions of the superblock lie below block 2^31; the bitmap overlaps neither the
    inodes nor the log. *)
Record geometry `{Session} (sb : superblock) : Prop := {
  ge_size : 0 < sb_size sb < 2 ^ 31;
  ge_bmap : 0 ≤ sb_bmapstart sb ∧ sb_bmapstart sb + sb_size sb / BPB < 2 ^ 31;
  ge_inodes : 0 < sb_inodestart sb ∧ 0 ≤ sb_ninodes sb ∧ sb_inodestart sb + sb_ninodes sb / IPB < 2 ^ 31;
  ge_apart : ∀ i b, 0 ≤ i < sb_ninodes sb → 0 ≤ b < sb_size sb → IBLOCK i sb ≠ BBLOCK b sb;
  ge_bmap_home : ∀ b, 0 ≤ b < sb_size sb → home (BBLOCK b sb);
  ge_inodes_home : ∀ i, 0 ≤ i < sb_ninodes sb → home (IBLOCK i sb)
}.

Definition is_block (sb : superblock) (b : Z) : Prop := 0 ≤ b < sb_size sb.

Lemma BBLOCK_eq `{Session} sb b : geometry sb → is_block sb b →
  BBLOCK b sb = b / BPB + sb_bmapstart sb ∧ blockno_ok (BBLOCK b sb).
Proof.
  intros Hg Hi. pose proof (ge_size _ Hg) as Hs. pose proof (ge_bmap _ Hg) as Hb. unfold BBLOCK, blockno_ok, is_block in *. assert (0 ≤ b / BPB ≤ sb_size sb / BPB) as Hd.
  { split; [apply Z.div_pos; unfold BPB, BSIZE; lia|apply Z.div_le_mono; unfold BPB, BSIZE; lia]. }
  rewrite u32_small by lia. lia.
Qed.

Definition used (sb : superblock) (c : Z → list Z) (b : Z) : bool := bit_at (c (BBLOCK b sb)) (b mod BPB).
Definition mark (sb : superblock) (b : Z) (c : Z → list Z) : Z → list Z := <[BBLOCK b sb := set_bit (b mod BPB) (c (BBLOCK b sb))]> c.
Definition unmark (sb : superblock) (b : Z) (c : Z → list Z) : Z → list Z := <[BBLOCK b sb := clear_bit (b mod BPB) (c (BBLOCK b sb))]> c.
Definition zero_block : list Z := replicate (Z.to_nat BSIZE) 0.
(** What [balloc] makes of the blocks when it returns [b]. *)
Definition allocated (sb : superblock) (b : Z) (c : Z → list Z) : Z → list Z := <[b := zero_block]> (mark sb b c).

Lemma mod_BPB b : 0 ≤ b mod BPB < BPB.
Proof. apply Z.mod_pos_bound. done. Qed.

Lemma same_block_bit `{Session} sb b b' : geometry sb → is_block sb b → is_block sb b' → BBLOCK b sb = BBLOCK b' sb →
  (b mod BPB =? b' mod BPB) = (b =? b').
Proof.
  intros Hg Hb Hb'. rewrite (proj1 (BBLOCK_eq sb b Hg Hb)), (proj1 (BBLOCK_eq sb b' Hg Hb')). intros He.
  pose proof (Z.div_mod b BPB ltac:(done)) as H1. pose proof (Z.div_mod b' BPB ltac:(done)) as H2.
  destruct (Z.eqb_spec b b') as [->|Hne]; [by rewrite Z.eqb_refl|]. apply Z.eqb_neq. intros Hm. apply Hne.
  assert (b / BPB = b' / BPB) as Hd by lia. rewrite Hd in H1. lia.
Qed.

Lemma used_mark `{Session} sb c b b' : geometry sb → is_block sb b → is_block sb b' → (∀ n, length (c n) = Z.to_nat BSIZE) →
  used sb (mark sb b c) b' = (b =? b') || used sb c b'.
Proof.
  intros Hg Hb Hb' Hl. unfold used, mark. destruct (decide (BBLOCK b sb = BBLOCK b' sb)) as [He|Hne].
  - rewrite He, fn_lookup_insert, bit_at_set by (apply mod_BPB || done). by rewrite (same_block_bit sb).
  - rewrite fn_lookup_insert_ne by done. destruct (Z.eqb_spec b b') as [->|]; [done|]. done.
Qed.

Lemma used_unmark `{Session} sb c b b' : geometry sb → is_block sb b → is_block sb b' → (∀ n, length (c n) = Z.to_nat BSIZE) →
  used sb (unmark sb b c) b' = negb (b =? b') && used sb c b'.
Proof.
  intros Hg Hb Hb' Hl. unfold used, unmark. destruct (decide (BBLOCK b sb = BBLOCK b' sb)) as [He|Hne].
  - rewrite He, fn_lookup_insert, bit_at_clear by (apply mod_BPB || done). by rewrite (same_block_bit sb).
  - rewrite fn_lookup_insert_ne by done. destruct (Z.eqb_spec b b') as [->|]; [done|]. done.
Qed.

Section alloc.
Context `{IM : Image, DV : Device, PT : Patience, OW : Own, SS : !Session} (sb : superblock) (Hgeo : geometry sb).

(** The file system is mounted and nothing has panicked. *)
Record mounted (s : kernel) : Prop := {
  mt_sb : k_sb s = sb;
  mt_panicking : k_panicking s = 0;
  mt_panicked : k_panicked s = 0
}.

Lemma mounted_env s s' : mounted s → same_env s s' → mounted s'.
Proof. intros [] []. split; congruence. Qed.
Lemma mounted_same s s' : mounted s → same_rest s s' → mounted s'.
Proof. intros Hm []. by eapply mounted_env. Qed.

Lemma txn_length c pins H s d n : txn c pins H s d → length (c n) = Z.to_nat BSIZE.
Proof. intros Ht. apply (cs_length _ _ _ _ _ _ _ _ (tx_cache _ _ _ _ _ Ht)). Qed.

(** The free blocks do not belong to the log. *)
Definition free_home (c : Z → list Z) : Prop := ∀ b, is_block sb b → used sb c b = false → home b.

(** The blocks held are in use and not part of the bitmap. *)
Definition holds_data (c : Z → list Z) (H : list (nat * Z)) : Prop :=
  ∀ n, n ∈ H.*2 → is_block sb n ∧ used sb c n = true ∧ ∀ b, is_block sb b → BBLOCK b sb ≠ n.

Lemma bzero_op c pins H s d bno k :
  txn c pins H s d → is_block sb bno → home bno → bno ∉ H.*2 → (length H ≤ 3)%nat → fits pins (S k) →
  op d (bzero dev bno s) (λ _ s', txn (<[bno := zero_block]> c) (pin bno pins) H s' d ∧ same_rest s s').
Proof.
  intros Ht Hb Hh Hn Hlen Hf. unfold bzero. destruct (ge_size _ Hgeo) as [_ Hsz]. unfold is_block in Hb.
  rewrite u32_small by lia. eapply bread_op; [exact Ht|done|unfold blockno_ok; lia|unfold fits in Hf; lia|].
  intros b s1 Ht1 Hs1. eapply upd_data_op; [exact Ht1|by left|apply length_replicate|]. intros s2 Ht2 Hs2.
  eapply log_write_op; [exact Ht2|by left|exact Hh|exact Hf|]. intros s3 Ht3 Hs3.
  destruct (brelse_run_txn _ _ _ _ _ _ _ Ht3) as (s4 & -> & Ht4 & Hs4); [left; apply elem_of_pin; by left|].
  apply op_ret. split; [exact Ht4|]. by rewrite Hs1, Hs2, Hs3.
Qed.

(** What [balloc] does: the first free block, marked, cleared and logged; or 0. *)
Inductive balloc_post (c : Z → list Z) (pins : list Z) (H : list (nat * Z)) (s : kernel) (d : disk) (r : Z) (s' : kernel) : Prop :=
| balloc_none : r = 0 → (∀ b, is_block sb b → used sb c b = true) → txn c pins H s' d → same_rest s s' →
    balloc_post c pins H s d r s'
| balloc_some : is_block sb r → used sb c r = false → (∀ b, 0 ≤ b < r → used sb c b = true) →
    txn (allocated sb r c) (pin r (pin (BBLOCK r sb) pins)) H s' d → same_rest s s' → balloc_post c pins H s d r s'.

Record balloc_at (c : Z → list Z) (pins : list Z) (H : list (nat * Z)) (s0 : kernel) (d : disk) (n : nat) (b : Z) (s : kernel) : Prop := {
  ba_fuel : sb_size sb + BPB ≤ Z.of_nat n * BPB + b;
  ba_range : 0 ≤ b < sb_size sb + BPB;
  ba_align : b mod BPB = 0;
  ba_used : ∀ k, 0 ≤ k < b → is_block sb k → used sb c k = true;
  ba_txn : txn c pins H s d;
  ba_same : same_rest s0 s
}.

Lemma block_split b bi : b mod BPB = 0 → 0 ≤ bi < BPB → (b + bi) mod BPB = bi ∧ BBLOCK (b + bi) sb = BBLOCK b sb.
Proof.
  intros Hb Hbi. assert (b = BPB * (b / BPB)) as Hd by (pose proof (Z.div_mod b BPB); unfold BPB, BSIZE in *; lia).
  set (q := b / BPB) in *. rewrite Hd, (Z.add_comm (BPB * q)), (Z.mul_comm BPB). unfold BBLOCK. rewrite Z.mod_add, Z.div_add by done.
  rewrite Z.mod_small by done. rewrite Z.div_small by done. split; [done|]. by rewrite Z.div_mul.
Qed.

Lemma txn_printed c pins H out s d : txn c pins H s d → txn c pins H (printed out s) d ∧ same_rest s (printed out s).
Proof. intros [Hst ? ? ? ? ? ? ?]. split; [|by split]. split; try done. by apply cache_st_printed. Qed.

Lemma print_run out fmt c pins H s d : txn c pins H s d → mounted s → render fmt [] = Some out →
  printf fmt [] s = Ret tt (printed out s).
Proof.
  intros Ht [_ Hp1 Hp2] Hr. destruct (cs_io _ _ _ _ _ _ _ _ (tx_cache _ _ _ _ _ Ht)) as [[Hh _ _ Hl _ _] _].
  apply (printf_run uart_ok 0); [by split|by apply Hl, io_lock_pr|lia|done].
Qed.
Lemma balloc_text : ∃ out, render (str "balloc: out of blocks" ++ [10]) [] = Some out.
Proof. eexists. vm_compute. reflexivity. Qed.

(** The round that takes block [b + bi]. *)
Lemma balloc_take c pins H s0 s d n b bp bi k :
  balloc_at c pins H s0 d n b s → free_home c → holds_data c H → (length H ≤ 2)%nat → fits pins (S (S k)) →
  0 ≤ bi < BPB → bi < sb_size sb - b → bit_at (c (BBLOCK b sb)) bi = false →
  (∀ j, 0 ≤ j < bi → bit_at (c (BBLOCK b sb)) j = true) →
  ∀ s1, txn c pins ((bp, BBLOCK b sb) :: H) s1 d → same_rest s s1 →
  op d ((upd_data bp (set_bit bi);; log_write bp;; brelse bp;; bzero dev (b + bi);; mret (inr (A := Z) (Some (b + bi)))) s1)
    (λ r s', match r with inl _ => False | inr None => False | inr (Some r) => balloc_post c pins H s0 d r s' end).
Proof.
  intros [_ [Hb _] Hal Hu _ Hsame] Hfh HH Hlen Hf Hbi Hlim Hbit Hset s1 Ht1 Hs1. destruct (block_split b bi Hal Hbi) as [Hm HB].
  assert (is_block sb (b + bi)) as Hib by (unfold is_block; lia).
  assert (used sb c (b + bi) = false) as Hfree by (unfold used; by rewrite Hm, HB).
  eapply upd_data_op; [exact Ht1|by left|rewrite length_set_bit; by eapply txn_length|]. intros s2 Ht2 Hs2.
  eapply log_write_op; [exact Ht2|by left|rewrite <- HB; by apply ge_bmap_home|exact Hf|]. intros s3 Ht3 Hs3.
  eapply brelse_op; [exact Ht3|left; apply elem_of_pin; by left|]. intros s4 Ht4 Hs4.
  eapply op_bind; [eapply (bzero_op _ _ _ _ _ _ k); [exact Ht4|done|by apply Hfh| |lia|by apply fits_pin]|].
  - intros Hin. destruct (HH _ Hin) as (_ & Hus & _). congruence.
  - intros _ s5 [Ht5 Hs5]. apply op_ret. apply balloc_some; [done|done| | |by rewrite Hsame, Hs1, Hs2, Hs3, Hs4].
    + intros j Hj. destruct (decide (j < b)) as [|Hge]; [apply Hu; [lia|unfold is_block; lia]|].
      destruct (block_split b (j - b) Hal ltac:(lia)) as [Hmj HBj]. replace (b + (j - b)) with j in Hmj, HBj by lia.
      unfold used. rewrite Hmj, HBj. apply Hset. lia.
    + unfold allocated, mark. rewrite Hm, HB. exact Ht5.
Qed.

Lemma balloc_op c pins H s d k :
  txn c pins H s d → mounted s → free_home c → holds_data c H → (length H ≤ 2)%nat → fits pins (S (S k)) →
  op d (balloc dev s) (λ r s', balloc_post c pins H s d r s').
Proof.
  intros Ht Hm Hfh HH Hlen Hf. pose proof (ge_size _ Hgeo) as Hsz. unfold balloc, get_sb.
  eapply op_step; [reflexivity|]. rewrite (mt_sb _ Hm).
  eapply (op_bind _ _ _ _ (λ r s', match r with
    | Some r => balloc_post c pins H s d r s'
    | None => (∀ b, is_block sb b → used sb c b = true) ∧ txn c pins H s' d ∧ same_rest s s' end)).
  - eapply (op_while d _ (λ n b s', balloc_at c pins H s d n b s')).
    + intros n b s1 Hat. pose proof Hat as [Hfu Hr Hal Hu Ht1 Hs1]. destruct (Z.ltb_spec b (sb_size sb)) as [Hlt|Hge].
      2:{ apply op_ret. split; [|done]. intros j Hj. apply Hu; [unfold is_block in Hj; lia|done]. }
      assert (is_block sb b) as Hb by (split; [lia|done]). destruct (BBLOCK_eq sb b Hgeo Hb) as [_ Hok].
      eapply bread_op; [exact Ht1| |done|unfold fits in Hf; lia|].
      { intros Hin. destruct (HH _ Hin) as (_ & _ & Hno). by destruct (Hno b Hb). }
      intros bp s2 Ht2 Hs2. eapply get_data_op; [exact Ht2|by left|].
      pose proof (balloc_scan_first (S (Z.to_nat BPB)) 0 (sb_size sb - b) (c (BBLOCK b sb)) ltac:(lia) ltac:(unfold BPB, BSIZE; lia)) as Hscan.
      destruct (balloc_scan _ _ _ _) as [bi|].
      * destruct Hscan as (Hbi & Hlim & Hbit & Hset). eapply op_mono; [by eapply balloc_take|].
        intros [?|[r|]] s3 Hp; [done|done|done].
      * eapply brelse_op; [exact Ht2| |].
        { eapply clean_or_pinned; [exact Ht1|]. intros Hin. destruct (HH _ Hin) as (_ & _ & Hno). by destruct (Hno b Hb). }
        intros s3 Ht3 Hs3. apply op_ret. split; try done; [unfold BPB, BSIZE in *; lia|unfold BPB, BSIZE in *; lia| | |by rewrite Hs1, Hs2].
        { rewrite <- Zplus_mod_idemp_r, Z.mod_same by done. by rewrite Z.add_0_r. }
        intros j Hj Hjb. destruct (decide (j < b)); [apply Hu; [lia|done]|].
        destruct (block_split b (j - b) Hal ltac:(lia)) as [Hmj HBj]. replace (b + (j - b)) with j in Hmj, HBj by lia.
        unfold used. rewrite Hmj, HBj. unfold is_block in Hjb. apply Hscan; lia.
    + intros b s1 [Hfu Hr _ _ _ _]. lia.
    + split; try done; [|unfold BPB, BSIZE; lia|intros j Hj; lia].
      assert (sb_size sb ≤ (sb_size sb + BPB - 1) / BPB * BPB) as Hd.
      { pose proof (Z.div_mod (sb_size sb + BPB - 1) BPB ltac:(done)). pose proof (mod_BPB (sb_size sb + BPB - 1)). lia. }
      assert (0 ≤ (sb_size sb + BPB - 1) / BPB) by (apply Z.div_pos; unfold BPB, BSIZE; lia).
      rewrite Nat2Z.inj_succ, Z2Nat.id by done. lia.
  - intros [r|] s1 HQ; [by apply op_ret|]. destruct HQ as (Hall & Ht1 & Hs1). destruct balloc_text as [out Ho].
    eapply op_step; [eapply print_run; [exact Ht1|by eapply mounted_same|exact Ho]|].
    destruct (txn_printed c pins H out s1 d Ht1) as [Ht2 Hs2]. apply op_ret. apply balloc_none; [done|done|done|by rewrite Hs1].
Qed.

(** C15: [balloc] inside a transaction.  It ends without touching the disk.  If any block is
    free it returns the first one, whose bit is then set and whose contents are zero,
    both logged, and no other block has changed; it returns 0 with nothing changed only
    when every block is in use. *)
Theorem balloc_first_free c pins s d :
  txn c pins [] s d → mounted s → free_home c → fits pins 2 →
  (∃ r t e, finishes serve me my_pid d (balloc dev s) r t e) ∧
  ∀ r t e, finishes serve me my_pid d (balloc dev s) r t e → e = d ∧ same_rest s t ∧
    ((r = 0 ∧ (∀ b, is_block sb b → used sb c b = true) ∧ txn c pins [] t d) ∨
     (is_block sb r ∧ used sb c r = false ∧ (∀ b, 0 ≤ b < r → used sb c b = true) ∧
      ∃ c' pins', txn c' pins' [] t d ∧ c' r = replicate (Z.to_nat BSIZE) 0 ∧ r ∈ pins' ∧ BBLOCK r sb ∈ pins' ∧
        (∀ b, b ≠ r → b ≠ BBLOCK r sb → c' b = c b) ∧
        (BBLOCK r sb ≠ r → ∀ b, is_block sb b → BBLOCK b sb ≠ r → used sb c' b = (r =? b) || used sb c b))).
Proof.
  intros Ht Hm Hfh Hfit. assert (Hop : op d (balloc dev s) (λ r t, balloc_post c pins [] s d r t)).
  { eapply (balloc_op c pins [] s d 0); try done; [|cbn; lia]. intros n Hn. by apply not_elem_of_nil in Hn. }
  split; [exact (cwp_total serve me my_pid _ _ _ _ Hop)|].
  intros r t e Hf. destruct (cwp_finish serve me my_pid _ _ _ _ _ _ _ Hop Hf) as [-> [Hr Hall Ht' Hs|Hb Hu Hmin Ht' Hs]].
  - split; [done|]. split; [done|]. by left.
  - split; [done|]. split; [done|]. right. do 3 (split; [done|]). eexists _, _. split; [exact Ht'|]. unfold allocated, mark.
    split; [apply fn_lookup_insert|]. split; [apply elem_of_pin; by left|]. split; [apply elem_of_pin; right; apply elem_of_pin; by left|].
    split; [intros b H1 H2; by rewrite !fn_lookup_insert_ne by congruence|].
    intros Hbr b Hib Hne. unfold used. rewrite (fn_lookup_insert_ne _ r) by congruence.
    exact (used_mark sb c r b Hgeo Hb Hib (λ n, txn_length _ _ _ _ _ n Ht)).
Qed.

(** ** bfree *)

Lemma bfree_op c pins H s d b k :
  txn c pins H s d → mounted s → holds_data c H → (length H ≤ 2)%nat → fits pins (S k) → is_block sb b → used sb c b = true →
  op d (bfree dev b s) (λ _ s', txn (unmark sb b c) (pin (BBLOCK b sb) pins) H s' d ∧ same_rest s s').
Proof.
  intros Ht Hm HH Hlen Hf Hb Hu. unfold bfree, get_sb. eapply op_step; [reflexivity|]. rewrite (mt_sb _ Hm).
  destruct (BBLOCK_eq sb b Hgeo Hb) as [_ Hok].
  eapply bread_op; [exact Ht| |done|unfold fits in Hf; lia|].
  { intros Hin. destruct (HH _ Hin) as (_ & _ & Hno). by destruct (Hno b Hb). }
  intros bp s1 Ht1 Hs1. eapply get_data_op; [exact Ht1|by left|]. cbn zeta. rewrite bit_test. unfold used in Hu. rewrite Hu. cbn [negb].
  eapply (upd_data_op c pins _ s1 d bp (BBLOCK b sb) (clear_bit (b mod BPB))); [exact Ht1|by left|rewrite length_clear_bit; by eapply txn_length|].
  intros s2 Ht2 Hs2. eapply log_write_op; [exact Ht2|by left|by apply ge_bmap_home|exact Hf|]. intros s3 Ht3 Hs3.
  destruct (brelse_run_txn _ _ _ _ _ _ _ Ht3) as (s4 & -> & Ht4 & Hs4); [left; apply elem_of_pin; by left|].
  apply op_ret. split; [exact Ht4|]. by rewrite Hs1, Hs2, Hs3.
Qed.

End alloc.
