(* ===== verification/InodeSpec.v ===== *)
(** * Inode contents: bmap

    The blocks of a file, by number within the file; how [bmap] finds them and
    adds new ones without disturbing any other block in use. *)

From S2P Require Import Prelude Decimal Riscv State Boot Spinlock ProcTable Machine CString Kalloc Vm Printf Sched SchedSpec Sleeplock SleeplockSpec FsDefs Virtio Bio BioSpec Frame Log LogSpec DiskSpec CacheSpec PrintfSpec CrashSpec TxnSpec Fs AllocSpec.

(** ** The blocks of a file *)

(** The indirect block of an inode. *)
Definition ind (x : inode) : Z := addr_at NDIRECT x.
(** The block on the disk that is block [bn] of the file; 0 if there is none. *)
Definition data_addr (x : inode) (c : Z → list Z) (bn : Z) : Z :=
  if bn <? NDIRECT then addr_at bn x
  else if ind x =? 0 then 0 else rd_le 4 (4 * (bn - NDIRECT)) (c (ind x)).

Definition in_file (bn : Z) : Prop := 0 ≤ bn < MAXFILE.

Lemma NINDIRECT_eq : NINDIRECT = 256.
Proof. reflexivity. Qed.
Lemma MAXFILE_eq : MAXFILE = 268.
Proof. reflexivity. Qed.

(** A block that may hold data of files: neither the boot block nor part of the bitmap, the
    inodes or the log. *)
Record data_block `{Session} (sb : superblock) (b : Z) : Prop := {
  db_block : is_block sb b;
  db_zero : b ≠ 0;
  db_bitmap : ∀ b', is_block sb b' → BBLOCK b' sb ≠ b;
  db_inodes : ∀ i, 0 ≤ i < sb_ninodes sb → IBLOCK i sb ≠ b;
  db_home : home b
}.

(** All other blocks are marked as used. *)
Definition meta_used `{Session} (sb : superblock) (c : Z → list Z) : Prop :=
  ∀ b, is_block sb b → used sb c b = false → data_block sb b.

(** The blocks [A] and the indirect block [I] of a file are different blocks in use. *)
Record layout_ok `{Session} (sb : superblock) (c : Z → list Z) (A : Z → Z) (I : Z) : Prop := {
  lo_data : ∀ bn, in_file bn → A bn ≠ 0 → data_block sb (A bn) ∧ used sb c (A bn) = true;
  lo_ind : I ≠ 0 → data_block sb I ∧ used sb c I = true;
  lo_ne : ∀ bn, in_file bn → A bn ≠ 0 → A bn ≠ I;
  lo_inj : ∀ bn bn', in_file bn → in_file bn' → A bn ≠ 0 → A bn = A bn' → bn = bn'
}.

Lemma layout_add `{Session} sb c c' A A' I r bn : layout_ok sb c A I → data_block sb r → used sb c r = false →
  (∀ b, is_block sb b → used sb c' b = (r =? b) || used sb c b) →
  (∀ n, in_file n → A' n = if n =? bn then r else A n) → layout_ok sb c' A' I.
Proof.
  intros [Hd Hi Hne Hinj] Hr Hfree Hu HA.
  assert (Hub : ∀ b, is_block sb b → used sb c b = true → used sb c' b = true) by (intros b Hb Hc; rewrite Hu, Hc by done; apply orb_true_r).
  assert (Hnr : ∀ n, in_file n → A n ≠ 0 → A n ≠ r) by (intros n Hn Hz Heq; destruct (Hd n Hn Hz); congruence).
  split.
  - intros n Hn. rewrite HA by done. destruct (Z.eqb_spec n bn) as [->|].
    + intros _. split; [done|]. rewrite Hu by apply Hr. by rewrite Z.eqb_refl.
    + intros Hz. destruct (Hd n Hn Hz) as [Hdb Hus]. split; [done|]. apply Hub; [apply Hdb|done].
  - intros HI. destruct (Hi HI) as [Hdb Hus]. split; [done|]. apply Hub; [apply Hdb|done].
  - intros n Hn. rewrite HA by done. destruct (Z.eqb_spec n bn) as [->|]; [|by apply Hne]. intros Hz Heq.
    destruct (Hi ltac:(congruence)). congruence.
  - intros n n' Hn Hn'. rewrite !HA by done. destruct (Z.eqb_spec n bn) as [->|], (Z.eqb_spec n' bn) as [->|]; try done.
    + intros Hz Heq. destruct (Hnr n'); [done|congruence|done].
    + intros Hz Heq. destruct (Hnr n); done.
    + by apply Hinj.
Qed.

Lemma layout_ind `{Session} sb c c' A A' r : layout_ok sb c A 0 → data_block sb r → used sb c r = false →
  (∀ b, is_block sb b → used sb c' b = (r =? b) || used sb c b) →
  (∀ n, in_file n → A' n = A n) → layout_ok sb c' A' r.
Proof.
  intros [Hd Hi Hne Hinj] Hr Hfree Hu HA. split.
  - intros n Hn. rewrite HA by done. intros Hz. destruct (Hd n Hn Hz) as [Hdb Hus]. split; [done|].
    rewrite Hu, Hus by apply Hdb. apply orb_true_r.
  - intros _. split; [done|]. rewrite Hu by apply Hr. by rewrite Z.eqb_refl.
  - intros n Hn. rewrite HA by done. intros Hz Heq. destruct (Hd n Hn Hz). congruence.
  - intros n n' Hn Hn'. rewrite !HA by done. by apply Hinj.
Qed.

(** A file whose blocks below its size are all there. *)
Record file_ok `{Session} (sb : superblock) (c : Z → list Z) (x : inode) : Prop := {
  fo_len : length (i_addrs x) = 13%nat;
  fo_size : 0 ≤ i_size x ≤ MAXFILE * BSIZE;
  fo_dev : i_dev x = dev;
  fo_mapped : ∀ bn, 0 ≤ bn → bn * BSIZE < i_size x → data_addr x c bn ≠ 0;
  fo_layout : layout_ok sb c (data_addr x c) (ind x)
}.

(** Bytes of the file. *)
Definition file_byte (x : inode) (c : Z → list Z) (o : Z) : Z :=
  default 0 (c (data_addr x c (o / BSIZE)) !! Z.to_nat (o mod BSIZE)).
Definition file_bytes (x : inode) (c : Z → list Z) : list Z :=
  (λ i, file_byte x c (Z.of_nat i)) <$> seq 0 (Z.to_nat (i_size x)).

(** ** Growing a file *)

Definition on_bitmap (sb : superblock) (b : Z) : Prop := ∃ b', is_block sb b' ∧ BBLOCK b' sb = b.

(** [x'] in [c'] is [x] in [c] with more blocks, which are cleared; no other
    block in use has changed, the bitmap apart. *)
Record grows `{Session} (sb : superblock) (c : Z → list Z) (x : inode) (c' : Z → list Z) (x' : inode) : Prop := {
  gr_ok : file_ok sb c' x';
  gr_meta : meta_used sb c';
  gr_attr : x' = x <| i_addrs := i_addrs x' |>;
  gr_addr : ∀ bn, in_file bn → data_addr x c bn ≠ 0 → data_addr x' c' bn = data_addr x c bn;
  gr_new : ∀ bn, in_file bn → data_addr x c bn = 0 → data_addr x' c' bn ≠ 0 →
    used sb c (data_addr x' c' bn) = false ∧ c' (data_addr x' c' bn) = zero_block;
  gr_ind : ind x' = ind x ∨ (ind x = 0 ∧ is_block sb (ind x') ∧ used sb c (ind x') = false);
  gr_frame : ∀ b, ¬ on_bitmap sb b → (is_block sb b → used sb c b = true) → b ≠ ind x → c' b = c b;
  gr_used : ∀ b, is_block sb b → used sb c b = true → used sb c' b = true
}.

Section inode.
Context `{IM : Image, DV : Device, PT : Patience, OW : Own, SS : !Session} (sb : superblock) (Hgeo : geometry sb).

Abbreviation used := (used sb).

Lemma data_not_bitmap b : data_block sb b → ¬ on_bitmap sb b.
Proof. intros [_ _ Hb _ _] (b' & Hb' & He). by apply (Hb b'). Qed.

Lemma file_grows_refl c x : file_ok sb c x → meta_used sb c → grows sb c x c x.
Proof. intros Hf Hm. split; try done; [by destruct x|by left]. Qed.

(** Blocks of the file are neither on the bitmap nor the indirect block. *)
Lemma file_block_kept c x c' x' bn : file_ok sb c x → grows sb c x c' x' → in_file bn → data_addr x c bn ≠ 0 →
  c' (data_addr x' c' bn) = c (data_addr x c bn).
Proof.
  intros [_ _ _ _ [Hd _ Hne _]] Hg Hb Hz. rewrite (gr_addr _ _ _ _ _ Hg) by done. destruct (Hd bn Hb Hz) as [Hdb Hu].
  apply (gr_frame _ _ _ _ _ Hg); [by apply data_not_bitmap|done|by apply Hne].
Qed.

Lemma file_grows_trans c x c1 x1 c2 x2 : file_ok sb c x → grows sb c x c1 x1 → grows sb c1 x1 c2 x2 → grows sb c x c2 x2.
Proof.
  intros Hf H1 H2. pose proof (gr_ok _ _ _ _ _ H1) as Hf1.
  split; [apply H2|apply H2| | | | | |].
  - rewrite (gr_attr _ _ _ _ _ H2). rewrite (gr_attr _ _ _ _ _ H1). by destruct x, x1, x2.
  - intros bn Hb Hz. pose proof (gr_addr _ _ _ _ _ H1 bn Hb Hz) as He. rewrite <- He. apply (gr_addr _ _ _ _ _ H2); [done|congruence].
  - intros bn Hb Hz Hnz. destruct (decide (data_addr x1 c1 bn = 0)) as [Hz1|Hz1].
    + destruct (gr_new _ _ _ _ _ H2 bn Hb Hz1 Hnz) as [Hu Hc]. split; [|done].
      destruct (used c (data_addr x2 c2 bn)) eqn:Hu0; [|done]. rewrite (gr_used _ _ _ _ _ H1) in Hu; [done| |done].
      by apply (lo_data _ _ _ _ (fo_layout _ _ _ (gr_ok _ _ _ _ _ H2)) bn Hb Hnz).
    + pose proof (file_block_kept _ _ _ _ _ Hf1 H2 Hb Hz1) as He. rewrite (gr_addr _ _ _ _ _ H2 bn Hb Hz1) in *.
      destruct (gr_new _ _ _ _ _ H1 bn Hb Hz Hz1) as [Hu Hc]. split; [done|congruence].
  - destruct (gr_ind _ _ _ _ _ H2) as [->|(Hz & Hb & Hu)]; [apply H1|]. right.
    destruct (gr_ind _ _ _ _ _ H1) as [He|(Hz' & Hb' & Hu')].
    + split; [congruence|]. split; [done|]. destruct (used c (ind x2)) eqn:E; [|done]. by rewrite (gr_used _ _ _ _ _ H1) in Hu.
    + split; [done|]. split; [done|]. destruct (used c (ind x2)) eqn:E; [|done]. by rewrite (gr_used _ _ _ _ _ H1) in Hu.
  - intros b Hnb Hu Hbi. rewrite (gr_frame _ _ _ _ _ H2); [by apply (gr_frame _ _ _ _ _ H1)|done| |].
    + intros Hib'. apply (gr_used _ _ _ _ _ H1); [done|by apply Hu].
    + intros ->. destruct (gr_ind _ _ _ _ _ H1) as [He|(_ & Hb & Hfree)]; [congruence|]. by rewrite Hu in Hfree.
  - intros b Hb Hu. by apply (gr_used _ _ _ _ _ H2), (gr_used _ _ _ _ _ H1).
Qed.

(** ** The three ways a file grows *)

Lemma allocated_used c r b : (∀ n, length (c n) = Z.to_nat BSIZE) → data_block sb r → is_block sb b →
  used (allocated sb r c) b = (r =? b) || used c b.
Proof.
  intros Hl Hr Hb. rewrite <- (used_mark sb c r b Hgeo (db_block _ _ Hr) Hb Hl). unfold AllocSpec.used, allocated.
  rewrite fn_lookup_insert_ne; [done|]. intros He. by apply (db_bitmap _ _ Hr b).
Qed.

Lemma allocated_frame c r b : is_block sb r → ¬ on_bitmap sb b → b ≠ r → allocated sb r c b = c b.
Proof.
  intros Hr Hb Hne. unfold allocated, mark. rewrite !fn_lookup_insert_ne; [done| |done]. intros He. apply Hb. by exists r.
Qed.

Lemma allocated_new c r : allocated sb r c r = zero_block.
Proof. unfold allocated. apply fn_lookup_insert. Qed.

Lemma allocated_meta c r : (∀ n, length (c n) = Z.to_nat BSIZE) → data_block sb r → meta_used sb c → meta_used sb (allocated sb r c).
Proof.
  intros Hl Hr Hm b Hb. rewrite allocated_used by done. destruct (r =? b); [done|]. by apply Hm.
Qed.

Lemma ind_allocated c x r : file_ok sb c x → used c r = false → data_block sb r → ind x ≠ 0 → allocated sb r c (ind x) = c (ind x).
Proof.
  intros Hf Hr Hdr Hz. destruct (lo_ind _ _ _ _ (fo_layout _ _ _ Hf) Hz) as [Hdb Hu].
  apply allocated_frame; [apply Hdr|by apply data_not_bitmap|]. intros He. congruence.
Qed.

Lemma addr_at_set bn n r x : length (i_addrs x) = 13%nat → 0 ≤ bn ≤ NDIRECT → 0 ≤ n →
  addr_at n (x <| i_addrs ::= <[Z.to_nat bn := r]> |>) = if n =? bn then r else addr_at n x.
Proof.
  intros Hl Hbn Hn. unfold addr_at, NDIRECT in *. ksimpl. destruct (Z.eqb_spec n bn) as [->|Hne].
  - rewrite list_lookup_insert_eq by lia. done.
  - rewrite list_lookup_insert_ne by lia. done.
Qed.

Lemma rd_zero_block off : rd_le 4 off zero_block = 0.
Proof.
  unfold rd_le, zero_block, slice. rewrite drop_replicate, take_replicate. generalize (4 `min` (Z.to_nat BSIZE - Z.to_nat off))%nat.
  intros n. induction n as [|n IH]; [done|]. cbn [replicate le_val]. by rewrite IH.
Qed.

Lemma grow_direct c x bn r : (∀ n, length (c n) = Z.to_nat BSIZE) → file_ok sb c x → meta_used sb c → 0 ≤ bn < NDIRECT →
  addr_at bn x = 0 → is_block sb r → used c r = false →
  grows sb c x (allocated sb r c) (x <| i_addrs ::= <[Z.to_nat bn := r]> |>) ∧
  data_addr (x <| i_addrs ::= <[Z.to_nat bn := r]> |>) (allocated sb r c) bn = r.
Proof.
  intros Hl Hf Hm Hbn Hz Hr Hu. pose proof (Hm r Hr Hu) as Hdr. pose proof (db_zero _ _ Hdr) as Hr0.
  set (c' := allocated sb r c). set (x' := x <| i_addrs ::= _ |>). pose proof (fo_len _ _ _ Hf) as Hlen.
  assert (Hind : ind x' = ind x) by (unfold ind, x'; rewrite addr_at_set by (done || unfold NDIRECT in *; lia); destruct (Z.eqb_spec NDIRECT bn); [lia|done]).
  assert (HA : ∀ n, in_file n → data_addr x' c' n = if n =? bn then r else data_addr x c n).
  { intros n [Hn _]. unfold data_addr. rewrite Hind. destruct (Z.ltb_spec n NDIRECT).
    - unfold x'. apply addr_at_set; [done|unfold NDIRECT in *; lia|done].
    - destruct (Z.eqb_spec n bn); [lia|]. destruct (Z.eqb_spec (ind x) 0); [done|]. unfold c'. by rewrite (ind_allocated c x r). }
  assert (HU : ∀ b, is_block sb b → used c' b = (r =? b) || used c b) by (intros b Hb; by apply allocated_used).
  assert (in_file bn) as Hin by (unfold in_file; rewrite MAXFILE_eq; unfold NDIRECT in *; lia).
  assert (data_addr x c bn = 0) as Hdz by (unfold data_addr; rewrite (proj2 (Z.ltb_lt _ _)) by lia; done).
  split; [|rewrite HA, Z.eqb_refl by done; done].
  split; try done.
  - split; try apply Hf.
    + unfold x'. ksimpl. by rewrite length_insert.
    + intros n Hn Hs. change (i_size x') with (i_size x) in Hs.
      assert (in_file n) as Hinn by (destruct (fo_size _ _ _ Hf); unfold in_file, BSIZE in *; lia). rewrite HA by done.
      destruct (Z.eqb_spec n bn); [done|]. by apply (fo_mapped _ _ _ Hf).
    + rewrite Hind. by apply (layout_add sb c c' (data_addr x c) _ _ r bn); [apply Hf| | | |].
  - by apply allocated_meta.
  - intros n Hn Hnz. rewrite HA by done. destruct (Z.eqb_spec n bn); [congruence|done].
  - intros n Hn Hnz. rewrite HA by done. destruct (Z.eqb_spec n bn); [|done]. intros _. split; [done|apply allocated_new].
  - by left.
  - intros b Hnb Hub Hbi. apply allocated_frame; [done|done|]. intros ->. rewrite Hub in Hu by done. done.
  - intros b Hb Hub. rewrite HU, Hub by done. apply orb_true_r.
Qed.

Lemma grow_indirect c x r : (∀ n, length (c n) = Z.to_nat BSIZE) → file_ok sb c x → meta_used sb c →
  ind x = 0 → is_block sb r → used c r = false →
  grows sb c x (allocated sb r c) (x <| i_addrs ::= <[Z.to_nat NDIRECT := r]> |>) ∧
  ind (x <| i_addrs ::= <[Z.to_nat NDIRECT := r]> |>) = r.
Proof.
  intros Hl Hf Hm Hz Hr Hu. pose proof (Hm r Hr Hu) as Hdr. pose proof (db_zero _ _ Hdr) as Hr0.
  set (c' := allocated sb r c). set (x' := x <| i_addrs ::= _ |>). pose proof (fo_len _ _ _ Hf) as Hlen.
  assert (Hind : ind x' = r) by (unfold ind, x'; rewrite addr_at_set by (done || unfold NDIRECT in *; lia); by rewrite Z.eqb_refl).
  assert (HA : ∀ n, in_file n → data_addr x' c' n = data_addr x c n).
  { intros n [Hn _]. unfold data_addr. rewrite Hind, Hz. destruct (Z.ltb_spec n NDIRECT).
    - unfold x'. rewrite addr_at_set by (done || unfold NDIRECT in *; lia). destruct (Z.eqb_spec n NDIRECT); [lia|done].
    - destruct (Z.eqb_spec r 0); [done|]. unfold c'. by rewrite allocated_new, rd_zero_block. }
  assert (HU : ∀ b, is_block sb b → used c' b = (r =? b) || used c b) by (intros b Hb; by apply allocated_used).
  split; [|done]. split; try done.
  - split; try apply Hf.
    + unfold x'. ksimpl. by rewrite length_insert.
    + intros n Hn Hs. change (i_size x') with (i_size x) in Hs.
      assert (in_file n) as Hinn by (destruct (fo_size _ _ _ Hf); unfold in_file, BSIZE in *; lia). rewrite HA by done.
      by apply (fo_mapped _ _ _ Hf).
    + rewrite Hind. apply (layout_ind sb c c' (data_addr x c)); try done. rewrite <- Hz. apply Hf.
  - by apply allocated_meta.
  - intros n Hn Hnz. by rewrite HA.
  - intros n Hn Hnz. rewrite HA by done. done.
  - right. by rewrite Hind.
  - intros b Hnb Hub Hbi. apply allocated_frame; [done|done|]. intros ->. rewrite Hub in Hu by done. done.
  - intros b Hb Hub. rewrite HU, Hub by done. apply orb_true_r.
Qed.

Definition indirect_write (x : inode) (bn r : Z) (c : Z → list Z) : Z → list Z :=
  <[ind x := wr_le 4 (4 * (bn - NDIRECT)) r (c (ind x))]> c.

Lemma grow_under c x bn r : (∀ n, length (c n) = Z.to_nat BSIZE) → file_ok sb c x → meta_used sb c → NDIRECT ≤ bn < MAXFILE →
  ind x ≠ 0 → data_addr x c bn = 0 → is_block sb r → used c r = false →
  grows sb c x (indirect_write x bn r (allocated sb r c)) x ∧ data_addr x (indirect_write x bn r (allocated sb r c)) bn = r.
Proof.
  intros Hl Hf Hm Hbn Hi Hz Hr Hu. pose proof (Hm r Hr Hu) as Hdr. pose proof (db_zero _ _ Hdr) as Hr0.
  unfold indirect_write. rewrite (ind_allocated c x r) by done.
  set (w := wr_le 4 _ r (c (ind x))). set (c' := <[ind x := w]> _).
  destruct (lo_ind _ _ _ _ (fo_layout _ _ _ Hf) Hi) as [Hdi Hui]. assert (ind x ≠ r) as Hir by congruence.
  assert (in_file bn) as Hin by (unfold in_file; unfold NDIRECT in *; lia).
  assert (r < 2 ^ 32) as Hr32 by (destruct (ge_size _ Hgeo); unfold is_block in Hr; lia).
  assert (HA : ∀ n, in_file n → data_addr x c' n = if n =? bn then r else data_addr x c n).
  { intros n [Hn Hn2]. unfold data_addr. destruct (Z.ltb_spec n NDIRECT); [destruct (Z.eqb_spec n bn); [lia|done]|].
    rewrite (proj2 (Z.eqb_neq _ _) Hi). unfold c'. rewrite fn_lookup_insert. unfold w. unfold is_block in Hr.
    assert (length (c (ind x)) = 1024%nat) as Hli by (by rewrite Hl). rewrite MAXFILE_eq in *. unfold NDIRECT in *.
    destruct (Z.eqb_spec n bn) as [->|Hne]; [by rewrite rd_wr_same by lia|by rewrite rd_wr_other by lia]. }
  assert (HU : ∀ b, is_block sb b → used c' b = (r =? b) || used c b).
  { intros b Hb. rewrite <- (allocated_used c r b) by done. unfold AllocSpec.used, c'. rewrite fn_lookup_insert_ne; [done|].
    intros He. by apply (db_bitmap _ _ Hdi b). }
  split; [|rewrite HA, Z.eqb_refl by done; done].
  split; try done.
  - split; try apply Hf.
    + intros n Hn Hs. assert (in_file n) as Hinn by (destruct (fo_size _ _ _ Hf); unfold in_file, BSIZE in *; lia). rewrite HA by done.
      destruct (Z.eqb_spec n bn); [done|]. by apply (fo_mapped _ _ _ Hf).
    + by apply (layout_add sb c c' (data_addr x c) _ _ r bn); [apply Hf| | | |].
  - intros b Hb. rewrite HU by done. destruct (r =? b); [done|]. by apply Hm.
  - by destruct x.
  - intros n Hn Hnz. rewrite HA by done. destruct (Z.eqb_spec n bn); [congruence|done].
  - intros n Hn Hnz. rewrite HA by done. destruct (Z.eqb_spec n bn); [|done]. intros _. split; [done|].
    unfold c'. rewrite fn_lookup_insert_ne by done. apply allocated_new.
  - by left.
  - intros b Hnb Hub Hbi. unfold c'. rewrite fn_lookup_insert_ne by done. apply allocated_frame; [done|done|].
    intros ->. rewrite Hub in Hu by done. done.
  - intros b Hb Hub. rewrite HU, Hub by done. apply orb_true_r.
Qed.

(** ** bmap *)

Lemma get_inode_run ip s x : k_itable s !! ip = Some x → get_inode ip s = Ret x s.
Proof. intros Hx. unfold get_inode. by rewrite Hx. Qed.

Lemma upd_inode_run ip f s x : k_itable s !! ip = Some x →
  upd_inode ip f s = Ret tt (s <| k_itable ::= λ l, <[ip := f x]> l |>).
Proof. intros Hx. unfold upd_inode. by mrun_with (get_inode_run ip s x Hx). Qed.

Lemma txn_itable c pins H s d f : txn c pins H s d → txn c pins H (s <| k_itable ::= f |>) d ∧ same_env s (s <| k_itable ::= f |>).
Proof.
  intros [[[Hu Hv] Hwf Hb Hh Hf Hp Hd Hl Hc] ? ? ? ? ? ? ?]. split; [|by split]. split; try done. split; try done.
  intros b bn Hin. by destruct (Hh b bn Hin).
Qed.

(** Where an inode of the process is, and what it holds. *)
Record at_inode (ip : nat) (x : inode) (s0 s : kernel) : Prop := {
  ai_table : k_itable s = <[ip := x]> (k_itable s0);
  ai_lt : (ip < length (k_itable s0))%nat;
  ai_env : same_env s0 s
}.

Lemma at_inode_lookup ip x s0 s : at_inode ip x s0 s → k_itable s !! ip = Some x.
Proof. intros [-> Hlt _]. by apply list_lookup_insert_eq. Qed.

Lemma at_inode_same ip x s0 s s' : at_inode ip x s0 s → same_rest s s' → at_inode ip x s0 s'.
Proof. intros [Ht Hlt He] [He' Hi]. split; [congruence|done|by rewrite He]. Qed.

Lemma at_inode_refl ip x s : k_itable s !! ip = Some x → at_inode ip x s s.
Proof. intros Hx. split; [by rewrite list_insert_id|by eapply lookup_lt_Some|done]. Qed.

Lemma at_inode_trans ip x x' s0 s1 s2 : at_inode ip x s0 s1 → at_inode ip x' s1 s2 → at_inode ip x' s0 s2.
Proof.
  intros [Ht Hlt He] [Ht' Hlt' He']. split; [|done|by rewrite He]. by rewrite Ht', Ht, list_insert_insert_eq.
Qed.

Lemma set_addr_op {B} c pins H ip x s0 s d bn a (g : unit → M B) Q :
  txn c pins H s d → at_inode ip x s0 s →
  (∀ s', txn c pins H s' d → at_inode ip (x <| i_addrs ::= <[Z.to_nat bn := a]> |>) s0 s' → op d (g tt s') Q) →
  op d ((set_addr ip bn a ≫= g) s) Q.
Proof.
  intros Ht Hi Hg. pose proof (at_inode_lookup _ _ _ _ Hi) as Hx. eapply op_step; [by apply (upd_inode_run ip _ s x)|].
  destruct (txn_itable c pins H s d (λ l, <[ip := x <| i_addrs ::= <[Z.to_nat bn := a]> |>]> l) Ht) as [Ht' He].
  apply Hg; [exact Ht'|]. destruct Hi as [Hit Hlt Hen]. split; [|done|by rewrite Hen].
  ksimpl. by rewrite Hit, list_insert_insert_eq.
Qed.

Definition full (c : Z → list Z) : Prop := ∀ b, is_block sb b → used c b = true.

(** The outcome of an operation that may add blocks to the inode [ip]: at most
    [k] more blocks are logged. *)
Definition grown (ip : nat) (c : Z → list Z) (x : inode) (pins : list Z) (d : disk) (k : nat) (s s' : kernel) (c' : Z → list Z) (x' : inode) : Prop :=
  ∃ pins', txn c' pins' [] s' d ∧ at_inode ip x' s s' ∧ grows sb c x c' x' ∧ (length pins' ≤ length pins + k)%nat.

Lemma meta_free c : meta_used sb c → free_home sb c.
Proof. intros Hm b Hb Hu. by apply Hm. Qed.

Lemma holds_nothing c : holds_data sb c [].
Proof. intros n Hn. by apply not_elem_of_nil in Hn. Qed.

Lemma length_pin2 a b pins : (length (pin a (pin b pins)) ≤ length pins + 2)%nat.
Proof. pose proof (length_pin a (pin b pins)). pose proof (length_pin b pins). lia. Qed.

Lemma bmap_direct ip bn c x pins s d k : txn c pins [] s d → mounted sb s → k_itable s !! ip = Some x →
  file_ok sb c x → meta_used sb c → fits pins (S (S k)) → 0 ≤ bn < NDIRECT →
  op d (bmap ip bn s) (λ r s', ∃ c' x', grown ip c x pins d 2 s s' c' x' ∧ r = data_addr x' c' bn ∧ (r = 0 → full c')).
Proof.
  intros Ht Hmt Hx Hf Hm Hfit Hbn. unfold bmap. rewrite (proj2 (Z.ltb_lt _ _)) by lia.
  eapply op_step; [by apply get_inode_run|]. cbn beta. pose proof (at_inode_refl _ _ _ Hx) as Hai.
  assert (Hda : data_addr x c bn = addr_at bn x) by (unfold data_addr; by rewrite (proj2 (Z.ltb_lt _ _)) by lia).
  destruct (Z.eqb_spec (addr_at bn x) 0) as [Hz|Hz].
  - rewrite (fo_dev _ _ _ Hf). eapply op_bind; [eapply (balloc_op sb Hgeo _ _ _ _ _ k); [exact Ht|done|by apply meta_free|apply holds_nothing|cbn; lia|done]|].
    intros r s1 [-> Hall Ht1 Hs1|Hr Hfree _ Ht1 Hs1].
    + apply op_ret. exists c, x. split; [|split; [congruence|done]]. exists pins. split; [done|].
      split; [by eapply at_inode_same|]. split; [by apply file_grows_refl|lia].
    + pose proof (db_zero _ _ (Hm r Hr Hfree)) as Hr0. rewrite (proj2 (Z.eqb_neq _ _) Hr0).
      destruct (grow_direct c x bn r) as [Hg Hd]; try done; [intros n; by eapply txn_length|].
      eapply set_addr_op; [exact Ht1|by eapply at_inode_same|]. intros s2 Ht2 Hai2. apply op_ret.
      exists (allocated sb r c), (x <| i_addrs ::= <[Z.to_nat bn := r]> |>). split; [|by rewrite Hd].
      exists (pin r (pin (BBLOCK r sb) pins)). split; [done|]. split; [done|]. split; [done|apply length_pin2].
  - apply op_ret. exists c, x. split; [|split; [done|congruence]]. exists pins. split; [done|].
    split; [done|]. split; [by apply file_grows_refl|lia].
Qed.

(** The first half for a block beyond the direct ones: the indirect block. *)
Lemma bmap_ind ip c x pins s d k : txn c pins [] s d → mounted sb s → k_itable s !! ip = Some x →
  file_ok sb c x → meta_used sb c → fits pins (S (S k)) →
  op d ((if addr_at NDIRECT x =? 0 then addr ← balloc (i_dev x); when (negb (addr =? 0)) (set_addr ip NDIRECT addr);; mret addr
         else mret (addr_at NDIRECT x)) s)
    (λ r s', ∃ c' x', grown ip c x pins d 2 s s' c' x' ∧ r = ind x' ∧ (r = 0 → full c')).
Proof.
  intros Ht Hmt Hx Hf Hm Hfit. pose proof (at_inode_refl _ _ _ Hx) as Hai.
  destruct (Z.eqb_spec (addr_at NDIRECT x) 0) as [Hz|Hz].
  - rewrite (fo_dev _ _ _ Hf). eapply op_bind; [eapply (balloc_op sb Hgeo _ _ _ _ _ k); [exact Ht|done|by apply meta_free|apply holds_nothing|cbn; lia|done]|].
    intros r s1 [-> Hall Ht1 Hs1|Hr Hfree _ Ht1 Hs1].
    + eapply op_step; [reflexivity|]. apply op_ret. exists c, x. split; [|split; [done|done]]. exists pins. split; [done|].
      split; [by eapply at_inode_same|]. split; [by apply file_grows_refl|lia].
    + pose proof (db_zero _ _ (Hm r Hr Hfree)) as Hr0. rewrite (proj2 (Z.eqb_neq _ _) Hr0).
      destruct (grow_indirect c x r) as [Hg Hd]; try done; [intros n; by eapply txn_length|].
      eapply set_addr_op; [exact Ht1|by eapply at_inode_same|]. intros s2 Ht2 Hai2. apply op_ret.
      exists (allocated sb r c), (x <| i_addrs ::= <[Z.to_nat NDIRECT := r]> |>). split; [|by rewrite Hd].
      exists (pin r (pin (BBLOCK r sb) pins)). split; [done|]. split; [done|]. split; [done|apply length_pin2].
  - apply op_ret. exists c, x. split; [|split; [done|by intros Hz']]. exists pins. split; [done|].
    split; [done|]. split; [by apply file_grows_refl|lia].
Qed.

(** A new block for an empty entry of the indirect block, which is held. *)
Definition slot_taken (c : Z → list Z) (x : inode) (pins : list Z) (bp : nat) (bn : Z) (d : disk) (s : kernel) (r : Z) (s' : kernel) : Prop :=
  same_rest s s' ∧
  (r = 0 ∧ full c ∧ txn c pins [(bp, ind x)] s' d ∨
   is_block sb r ∧ used c r = false ∧
   txn (indirect_write x bn r (allocated sb r c)) (pin (ind x) (pin r (pin (BBLOCK r sb) pins))) [(bp, ind x)] s' d).

Lemma bmap_slot bp bn c x pins s d k : txn c pins [(bp, ind x)] s d → mounted sb s →
  file_ok sb c x → meta_used sb c → fits pins (S (S (S k))) → ind x ≠ 0 →
  op d ((addr ← balloc dev;
         when (truth addr) (upd_data bp (wr_le 4 (4 * (bn - NDIRECT)) addr);; log_write bp);;
         mret addr) s) (slot_taken c x pins bp bn d s).
Proof.
  intros Ht Hmt Hf Hm Hfit Hi. destruct (lo_ind _ _ _ _ (fo_layout _ _ _ Hf) Hi) as [Hdi Hui].
  assert (HH : holds_data sb c [(bp, ind x)]).
  { intros n Hn. cbn in Hn. apply list_elem_of_singleton in Hn as ->. split; [apply Hdi|]. split; [done|]. apply Hdi. }
  eapply op_bind; [eapply (balloc_op sb Hgeo _ _ _ _ _ (S k)); [exact Ht|done|by apply meta_free|done|cbn; lia|done]|].
  intros r s1 [-> Hall Ht1 Hs1|Hr Hfree _ Ht1 Hs1].
  - eapply op_step; [reflexivity|]. apply op_ret. split; [done|]. by left.
  - pose proof (db_zero _ _ (Hm r Hr Hfree)) as Hr0. unfold truth. rewrite (proj2 (Z.eqb_neq _ _) Hr0). cbn [negb when].
    eapply (op_bind _ _ _ _ (λ _ s', same_rest s1 s' ∧
      txn (indirect_write x bn r (allocated sb r c)) (pin (ind x) (pin r (pin (BBLOCK r sb) pins))) [(bp, ind x)] s' d)).
    + eapply upd_data_op; [exact Ht1|by left|rewrite length_wr_le; by eapply txn_length|]. intros s2 Ht2 Hs2.
      destruct (log_write_st _ _ _ _ _ bp (ind x) Ht2) as (s3 & -> & Ht3 & Hs3); [by left|apply Hdi|eapply (fits_log _ k); by apply fits_pin, fits_pin|].
      apply op_ret. split; [by rewrite Hs2|exact Ht3].
    + intros _ s2 [Hs2 Ht2]. apply op_ret. split; [by rewrite Hs1|]. right. done.
Qed.

(** The second half: the entry of the indirect block. *)
Lemma bmap_under ip bn c x pins s d k : txn c pins [] s d → mounted sb s → k_itable s !! ip = Some x →
  file_ok sb c x → meta_used sb c → fits pins (S (S (S k))) → NDIRECT ≤ bn < MAXFILE → ind x ≠ 0 →
  op d ((bp ← bread dev (ind x);
         data ← get_data bp;
         addr ← (if rd_le 4 (4 * (bn - NDIRECT)) data =? 0 then
                   addr ← balloc dev;
                   when (truth addr) (upd_data bp (wr_le 4 (4 * (bn - NDIRECT)) addr);; log_write bp);;
                   mret addr
                 else mret (rd_le 4 (4 * (bn - NDIRECT)) data));
         brelse bp;;
         mret addr) s)
    (λ r s', ∃ c', grown ip c x pins d 3 s s' c' x ∧ r = data_addr x c' bn ∧ (r = 0 → full c')).
Proof.
  intros Ht Hmt Hx Hf Hm Hfit Hbn Hi. pose proof (at_inode_refl _ _ _ Hx) as Hai.
  destruct (lo_ind _ _ _ _ (fo_layout _ _ _ Hf) Hi) as [Hdi Hui]. pose proof (db_block _ _ Hdi) as Hib.
  assert (Hda : data_addr x c bn = rd_le 4 (4 * (bn - NDIRECT)) (c (ind x))).
  { unfold data_addr. rewrite (proj2 (Z.ltb_ge _ _)) by lia. by rewrite (proj2 (Z.eqb_neq _ _) Hi). }
  assert (Hcp : ind x ∈ pins ∨ c (ind x) = block d (ind x)) by (eapply clean_or_pinned; [exact Ht|apply not_elem_of_nil]).
  eapply bread_op; [exact Ht|apply not_elem_of_nil| |unfold fits in Hfit; cbn; lia|].
  { destruct (ge_size _ Hgeo). unfold is_block, blockno_ok in *. lia. }
  intros bp s1 Ht1 Hs1. eapply get_data_op; [exact Ht1|by left|]. rewrite <- Hda.
  assert (Hrel : ∀ r s2, txn c pins [(bp, ind x)] s2 d → same_rest s s2 → r = data_addr x c bn → (r = 0 → full c) →
    op d ((brelse bp;; mret r) s2) (λ r s', ∃ c', grown ip c x pins d 3 s s' c' x ∧ r = data_addr x c' bn ∧ (r = 0 → full c'))).
  { intros r s2 Ht2 Hs2 Hr Hfull. eapply brelse_op; [exact Ht2|done|]. intros s3 Ht3 Hs3. apply op_ret.
    exists c. split; [|done]. exists pins. split; [done|]. split; [eapply at_inode_same; [exact Hai|by rewrite Hs2]|].
    split; [by apply file_grows_refl|lia]. }
  destruct (Z.eqb_spec (data_addr x c bn) 0) as [Hz|Hz].
  - eapply op_bind; [by eapply bmap_slot; [exact Ht1|by eapply mounted_same| | | |]|].
    intros r s2 [Hs2 [(-> & Hall & Ht2)|(Hr & Hfree & Ht2)]]; [by apply Hrel; [|rewrite Hs1| |]|].
    destruct (grow_under c x bn r) as [Hg Hd]; try done; [intros n; by eapply txn_length|].
    eapply brelse_op; [exact Ht2|left; apply elem_of_pin; by left|]. intros s3 Ht3 Hs3. apply op_ret.
    exists (indirect_write x bn r (allocated sb r c)). split.
    + eexists. split; [exact Ht3|]. split; [eapply at_inode_same; [exact Hai|by rewrite Hs1, Hs2]|]. split; [done|].
      pose proof (length_pin (ind x) (pin r (pin (BBLOCK r sb) pins))). pose proof (length_pin2 r (BBLOCK r sb) pins). lia.
    + split; [done|]. intros ->. by destruct (db_zero _ _ (Hm _ Hr Hfree)).
  - eapply op_step; [reflexivity|]. by apply Hrel.
Qed.

Lemma grown_trans ip c x pins d k k' s s1 s2 c1 x1 c2 x2 pins1 : file_ok sb c x → (length pins1 ≤ length pins + k)%nat →
  at_inode ip x1 s s1 → grows sb c x c1 x1 → grown ip c1 x1 pins1 d k' s1 s2 c2 x2 → grown ip c x pins d (k + k') s s2 c2 x2.
Proof.
  intros Hf Hp Ha Hg (pins2 & Ht & Ha2 & Hg2 & Hp2). exists pins2. split; [done|]. split; [by eapply at_inode_trans|].
  split; [by eapply file_grows_trans|lia].
Qed.

Lemma bmap_op ip bn c x pins s d k : txn c pins [] s d → mounted sb s → k_itable s !! ip = Some x →
  file_ok sb c x → meta_used sb c → fits pins (5 + k) → in_file bn →
  op d (bmap ip bn s) (λ r s', ∃ c' x', grown ip c x pins d 5 s s' c' x' ∧ r = data_addr x' c' bn ∧ (r = 0 → full c')).
Proof.
  intros Ht Hmt Hx Hf Hm Hfit [Hb0 Hb1]. destruct (decide (bn < NDIRECT)) as [Hlt|Hge].
  - eapply op_mono; [by eapply (bmap_direct _ _ _ _ _ _ _ (3 + k))|]. intros r s' (c' & x' & (pins' & H1 & H2 & H3 & H4) & Hr & Hz).
    exists c', x'. split; [|done]. exists pins'. split_and!; try done. lia.
  - unfold bmap. rewrite (proj2 (Z.ltb_ge _ _)) by lia. cbn zeta.
    rewrite (proj2 (Z.ltb_lt (bn - NDIRECT) NINDIRECT)) by (rewrite MAXFILE_eq, NINDIRECT_eq in *; unfold NDIRECT in *; lia).
    eapply op_step; [by apply get_inode_run|]. cbn beta.
    eapply op_bind; [by eapply (bmap_ind ip c x pins s d (3 + k))|].
    intros r s1 (c1 & x1 & (pins1 & Ht1 & Ha1 & Hg1 & Hp1) & -> & Hfull).
    destruct (Z.eqb_spec (ind x1) 0) as [Hz|Hz].
    + apply op_ret. exists c1, x1. split; [exists pins1; split_and!; try done; lia|]. split; [|by auto].
      unfold data_addr. rewrite (proj2 (Z.ltb_ge _ _)) by lia. by rewrite Hz.
    + rewrite (fo_dev _ _ _ Hf).
      eapply op_mono; [eapply (bmap_under ip bn c1 x1 pins1 s1 d k); try done|].
      * eapply mounted_env; [exact Hmt|apply Ha1].
      * by eapply at_inode_lookup.
      * apply Hg1.
      * apply Hg1.
      * unfold fits in *. lia.
      * lia.
      * intros r s2 (c2 & Hgr & Hr & Hfu). exists c2, x1. split; [|done]. change 5%nat with (2 + 3)%nat. by eapply grown_trans.
Qed.

(** A block that is there is found, and nothing changes. *)
(** C14: [bmap] keeps files in order.  For a file whose blocks are blocks in use, all different and
    none of them part of the log, the inodes or the bitmap, and for any block number that
    a file may have, it ends without touching the disk; the file afterwards is again such a file,
    its old blocks and all other blocks in use are as they were, a new block is
    one that was free and reads as zeros, and the number returned is that of the block; it
    is 0 only when the disk is full. *)
Theorem bmap_grows ip bn c x pins s d : txn c pins [] s d → mounted sb s → k_itable s !! ip = Some x →
  file_ok sb c x → meta_used sb c → fits pins 5 → in_file bn →
  (∃ r t e, finishes serve me my_pid d (bmap ip bn s) r t e) ∧
  ∀ r t e, finishes serve me my_pid d (bmap ip bn s) r t e → e = d ∧
    ∃ c' x', grown ip c x pins d 5 s t c' x' ∧ r = data_addr x' c' bn ∧ (r = 0 → full c').
Proof.
  intros Ht Hm Hx Hf Hmu Hfit Hbn. pose proof (bmap_op ip bn c x pins s d 0 Ht Hm Hx Hf Hmu Hfit Hbn) as Hop.
  split; [exact (cwp_total serve me my_pid _ _ _ _ Hop)|].
  intros r t e Hfin. exact (cwp_finish serve me my_pid _ _ _ _ _ _ _ Hop Hfin).
Qed.

Lemma bmap_found ip bn c x pins s d : cache_st me my_pid dev c pins [] s d → k_itable s !! ip = Some x → file_ok sb c x → fits pins 0 →
  in_file bn → data_addr x c bn ≠ 0 →
  op d (bmap ip bn s) (λ r s', r = data_addr x c bn ∧ cache_st me my_pid dev c pins [] s' d ∧ same_log s s').
Proof.
  intros Ht Hx Hf Hfit [Hb0 Hb1] Hnz. unfold bmap, data_addr in *. destruct (Z.ltb_spec bn NDIRECT) as [Hlt|Hge].
  - eapply op_step; [by apply get_inode_run|]. cbn beta. rewrite (proj2 (Z.eqb_neq _ _) Hnz). by apply op_ret.
  - destruct (Z.eqb_spec (ind x) 0) as [|Hi]; [done|]. unfold ind in *.
    rewrite (proj2 (Z.ltb_lt (bn - NDIRECT) NINDIRECT)) by (rewrite MAXFILE_eq, NINDIRECT_eq in *; unfold NDIRECT in *; lia).
    eapply op_step; [by apply get_inode_run|]. cbn beta. rewrite (proj2 (Z.eqb_neq _ _) Hi).
    eapply op_step; [reflexivity|]. rewrite (proj2 (Z.eqb_neq _ _) Hi), (fo_dev _ _ _ Hf).
    destruct (lo_ind _ _ _ _ (fo_layout _ _ _ Hf) Hi) as [[Hib _ _ _ _] _].
    eapply bread_view; [exact Ht|apply not_elem_of_nil| |unfold fits in Hfit; cbn; lia|].
    { destruct (ge_size _ Hgeo). unfold is_block, ind, blockno_ok in *. lia. }
    intros bp s1 Ht1 Hs1. eapply get_data_view; [exact Ht1|by left|]. cbn zeta. rewrite (proj2 (Z.eqb_neq _ _) Hnz).
    eapply op_step; [reflexivity|]. eapply brelse_view; [exact Ht1|eapply view_clean; [exact Ht|apply not_elem_of_nil]|].
    intros s2 Ht2 Hs2. apply op_ret. split; [done|]. split; [done|]. by rewrite Hs1.
Qed.

End inode.
