(* ===== verification/FileSpec.v ===== *)
(** * Reading and writing files

    [readi] and [writei] against the bytes of a file, through [bmap], the
    buffer cache, the log and the disk driver.  Where the bytes go to or come from is
    described by a [sink] or a [source], so that the theorems do not depend on the address
    space. *)

From S2P Require Import Prelude Decimal Riscv State Boot Spinlock ProcTable Machine CString Kalloc Vm VmSpec UserMem Printf Sched SchedSpec Sleeplock SleeplockSpec FsDefs Virtio Bio BioSpec Frame Log LogSpec DiskSpec CacheSpec PrintfSpec CrashSpec TxnSpec Fs AllocSpec InodeSpec.

(** ** Bytes of a file by range *)

Definition file_slice (x : inode) (c : Z → list Z) (off : Z) (n : nat) : list Z :=
  (λ i, file_byte x c (off + Z.of_nat i)) <$> seq 0 n.

Lemma length_file_slice x c off n : length (file_slice x c off n) = n.
Proof. unfold file_slice. by rewrite length_fmap, length_seq. Qed.

Lemma file_slice_lookup x c off n i : (i < n)%nat → file_slice x c off n !! i = Some (file_byte x c (off + Z.of_nat i)).
Proof. intros Hi. unfold file_slice. by rewrite list_lookup_fmap, lookup_seq_lt by done. Qed.

Lemma file_slice_app x c off n m : file_slice x c off n ++ file_slice x c (off + Z.of_nat n) m = file_slice x c off (n + m).
Proof.
  apply list_eq. intros i. destruct (decide (i < n)%nat) as [Hi|Hi].
  - rewrite lookup_app_l by (rewrite length_file_slice; lia). by rewrite !file_slice_lookup by lia.
  - rewrite lookup_app_r by (rewrite length_file_slice; lia). rewrite length_file_slice.
    destruct (decide (i < n + m)%nat) as [Hi2|Hi2].
    + rewrite !file_slice_lookup by lia. do 2 f_equal. lia.
    + rewrite !lookup_ge_None_2 by (rewrite length_file_slice; lia). done.
Qed.

Lemma file_slice_bytes x c off n : 0 ≤ off → off + Z.of_nat n ≤ i_size x →
  slice (Z.to_nat off) n (file_bytes x c) = file_slice x c off n.
Proof.
  intros Ho Hn. apply list_eq. intros i. unfold slice. destruct (decide (i < n)%nat) as [Hi|Hi].
  - rewrite lookup_take_lt, lookup_drop, file_slice_lookup by done. unfold file_bytes.
    rewrite list_lookup_fmap, lookup_seq_lt by lia. cbn. do 2 f_equal. lia.
  - rewrite lookup_take_ge by lia. by rewrite lookup_ge_None_2 by (rewrite length_file_slice; lia).
Qed.

(** The part of a file inside one block. *)
Lemma block_slice x c off m : (∀ n, length (c n) = Z.to_nat BSIZE) → 0 ≤ off → 0 ≤ m ≤ BSIZE - off mod BSIZE →
  take (Z.to_nat m) (drop (Z.to_nat (off mod BSIZE)) (c (data_addr x c (off / BSIZE)))) = file_slice x c off (Z.to_nat m).
Proof.
  intros Hl Ho Hm. assert (Hmod : 0 ≤ off mod BSIZE < BSIZE) by (by apply Z.mod_pos_bound). pose proof (Z.div_mod off BSIZE ltac:(done)) as Hdm.
  apply list_eq. intros i. destruct (decide (i < Z.to_nat m)%nat) as [Hi|Hi].
  - rewrite lookup_take_lt, lookup_drop, file_slice_lookup by done. unfold file_byte.
    assert ((off + Z.of_nat i) / BSIZE = off / BSIZE ∧ (off + Z.of_nat i) mod BSIZE = off mod BSIZE + Z.of_nat i) as [-> ->].
    { set (q := off / BSIZE) in *. set (r := off mod BSIZE) in *. clearbody q r. subst off.
      replace (BSIZE * q + r + Z.of_nat i) with (r + Z.of_nat i + q * BSIZE) by lia.
      rewrite Z.div_add, Z.mod_add by done. rewrite Z.div_small, Z.mod_small by lia. done. }
    replace (Z.to_nat (off mod BSIZE + Z.of_nat i)) with (Z.to_nat (off mod BSIZE) + i)%nat by lia.
    destruct (lookup_lt_is_Some_2 (c (data_addr x c (off / BSIZE))) (Z.to_nat (off mod BSIZE) + i)) as [v ->]; [rewrite Hl; lia|done].
  - rewrite lookup_take_ge by lia. by rewrite lookup_ge_None_2 by (rewrite length_file_slice; lia).
Qed.

(** The rounds left when the copy has reached [off] and is to end at [lim]. *)
Definition rounds (off lim : Z) : Z := (lim - 1) / BSIZE - off / BSIZE + 2.

Lemma rounds_step off lim m : 0 ≤ off < lim → m = Z.min (lim - off) (BSIZE - off mod BSIZE) →
  off + m = lim ∨ (off + m < lim ∧ rounds (off + m) lim = rounds off lim - 1).
Proof.
  intros Ho ->. assert (Hmod : 0 ≤ off mod BSIZE < BSIZE) by (by apply Z.mod_pos_bound). pose proof (Z.div_mod off BSIZE ltac:(done)) as Hdm.
  destruct (Z.min_spec (lim - off) (BSIZE - off mod BSIZE)) as [[Hle ->]|[Hle ->]]; [left; lia|].
  destruct (decide (off + (BSIZE - off mod BSIZE) = lim)); [by left|right]. split; [lia|]. unfold rounds.
  replace (off + (BSIZE - off mod BSIZE)) with ((off / BSIZE + 1) * BSIZE) by lia. rewrite Z.div_mul by done. lia.
Qed.

Lemma rounds_pos off lim : 0 ≤ off < lim → 2 ≤ rounds off lim.
Proof. intros H. unfold rounds. pose proof (Z.div_le_mono off (lim - 1) BSIZE ltac:(done)). lia. Qed.

Lemma rounds_fuel off n : 0 ≤ off → 0 < n → rounds off (off + n) ≤ Z.of_nat (block_fuel n).
Proof.
  intros Ho Hn. unfold rounds, block_fuel. assert ((off + n - 1) / BSIZE ≤ off / BSIZE + n / BSIZE + 1) as Hd.
  { assert (Hm1 : 0 ≤ off mod BSIZE < BSIZE) by (by apply Z.mod_pos_bound). assert (Hm2 : 0 ≤ n mod BSIZE < BSIZE) by (by apply Z.mod_pos_bound).
    pose proof (Z.div_mod off BSIZE ltac:(done)). pose proof (Z.div_mod n BSIZE ltac:(done)).
    apply Z.lt_succ_r, Z.div_lt_upper_bound; [done|]. lia. }
  assert (0 ≤ n / BSIZE) by (apply Z.div_pos; [lia|done]). lia.
Qed.

Section file.
Context `{IM : Image, DV : Device, PT : Patience, OW : Own, SS : !Session} (sb : superblock) (Hgeo : geometry sb).

Abbreviation used := (used sb).
Abbreviation cst := (cache_st me my_pid dev).

(** ** Destinations and sources *)

(** The process runs. *)
Abbreviation runs s := (disk_user me my_pid (k_hw s) (k_procs s)).

(** A destination of [n] bytes: [R l s] holds when the bytes [l] have arrived. *)
Record sink (us : bool) (dst n : Z) (R : list Z → kernel → Prop) : Prop := {
  sk_copy : ∀ l data m s, R l s → runs s → 0 ≤ m ≤ Z.of_nat (length data) → Z.of_nat (length l) + m ≤ n →
    ∃ mem, either_copyout us (u64 (dst + Z.of_nat (length l))) data m s = Ret 0 (s <| k_mem := mem |>) ∧
      R (l ++ take (Z.to_nat m) data) (s <| k_mem := mem |>);
  sk_same : ∀ l s s', R l s → same_mem s s' → R l s'
}.

(** A source of the bytes [l]. *)
Definition source (us : bool) (src : Z) (l : list Z) (s : kernel) : Prop :=
  ∀ s' k m, same_mem s s' → runs s' → 0 ≤ k → 0 ≤ m → k + m ≤ Z.of_nat (length l) →
    either_copyin us (u64 (src + k)) m s' = Ret (0, slice (Z.to_nat k) (Z.to_nat m) l) s'.

(** Memory of the kernel that the process owns. *)
Record kernel_range (a n : Z) : Prop := {
  kr_range : 0 ≤ a ∧ a + n ≤ 2 ^ 64;
  kr_own : ∀ i, 0 ≤ i < n → own_mem (a + i)
}.

(** The first bytes of the range are [l], and the rest of the memory is as in [s0]. *)
Definition delivered (a n : Z) (s0 : kernel) (l : list Z) (s : kernel) : Prop :=
  Z.of_nat (length l) ≤ n ∧ mbytes (k_mem s) a (length l) = l ∧
  ∀ b, own_mem b → ¬ (a ≤ b < a + Z.of_nat (length l)) → mget (k_mem s) b = mget (k_mem s0) b.

Lemma same_mget s s' a : same_mem s s' → own_mem a → mget (k_mem s') a = mget (k_mem s) a.
Proof. intros Hs Ha. unfold mget. by rewrite Hs. Qed.

Lemma mbytes_lookup m a n i : (i < n)%nat → mbytes m a n !! i = Some (mget m (a + Z.of_nat i)).
Proof. intros Hi. unfold mbytes. by rewrite list_lookup_fmap, lookup_seq_lt. Qed.

Lemma mbytes_same s s' a n : kernel_range a n → same_mem s s' → ∀ k, Z.of_nat k ≤ n → mbytes (k_mem s') a k = mbytes (k_mem s) a k.
Proof.
  intros [_ Ho] Hm k Hk. apply list_eq. intros i. destruct (decide (i < k)%nat).
  - rewrite !mbytes_lookup by done. f_equal. apply same_mget; [done|]. apply Ho. lia.
  - by rewrite !lookup_ge_None_2 by (rewrite length_mbytes; lia).
Qed.

Lemma kernel_sink a n s0 : kernel_range a n → sink false a n (delivered a n s0).
Proof.
  intros Hkr. pose proof Hkr as [Hr Ho]. split.
  - intros l data m s (Hle & Hl & Hf) Hh Hm Hn. unfold either_copyout. mrun_with (myproc_run 0 s (du_hart _ _ _ _ Hh)). unfold store_bytes. mrun.
    eexists. split; [by destruct s|]. destruct (decide (Z.of_nat (length l) = n)) as [Hfull|Hfull].
    + assert (m = 0) as -> by lia. rewrite take_0, app_nil_r. done.
    + rewrite u64_small by lia. set (l' := take (Z.to_nat m) data). assert (length l' = Z.to_nat m) as Hl' by (unfold l'; rewrite length_take; lia).
      split; [rewrite length_app; lia|]. split.
      * apply list_eq. intros i. ksimpl. rewrite length_app. destruct (decide (i < length l + length l')%nat) as [Hi|Hi].
        2:{ rewrite !lookup_ge_None_2; [done|rewrite length_app; lia|rewrite length_mbytes; lia]. }
        rewrite mbytes_lookup by done. rewrite mget_mwrite. destruct (decide (i < length l)%nat) as [Hil|Hil].
        -- rewrite decide_False by lia. rewrite lookup_app_l by done.
           pose proof (mbytes_lookup (k_mem s) a (length l) i Hil) as Hx. by rewrite Hl in Hx.
        -- rewrite decide_True by lia. rewrite lookup_app_r by lia.
           replace (Z.to_nat (a + Z.of_nat i - (a + Z.of_nat (length l)))) with (i - length l)%nat by lia.
           destruct (lookup_lt_is_Some_2 l' (i - length l)) as [v ->]; [lia|done].
      * intros b Hb Hnot. ksimpl. rewrite length_app in Hnot. rewrite mget_mwrite, decide_False by lia. apply Hf; [done|lia].
  - intros l s s' (Hle & Hl & Hf) Hm. split; [done|]. split.
    + transitivity (mbytes (k_mem s) a (length l)); [by apply (mbytes_same s s' a n)|done].
    + intros b Hb Hnot. rewrite <- (Hf b Hb Hnot). by apply same_mget.
Qed.

Lemma kernel_source a l s : kernel_range a (Z.of_nat (length l)) → mbytes (k_mem s) a (length l) = l → source false a l s.
Proof.
  intros Hkr Hl s' k m He Hh Hk Hm Hkm. pose proof Hkr as [Hr Ho].
  unfold either_copyin. mrun_with (myproc_run 0 s' (du_hart _ _ _ _ Hh)). unfold load_bytes. mrun. do 2 f_equal.
  apply list_eq. intros i. unfold slice. destruct (decide (i < Z.to_nat m)%nat) as [Hi|Hi].
  - rewrite mbytes_lookup, lookup_take_lt, lookup_drop by done. rewrite u64_small by lia.
    pose proof (mbytes_lookup (k_mem s) a (length l) (Z.to_nat k + i) ltac:(lia)) as Hx. rewrite Hl in Hx. rewrite Hx. f_equal.
    replace (a + k + Z.of_nat i) with (a + Z.of_nat (Z.to_nat k + i)) by lia. apply same_mget; [done|]. apply Ho. lia.
  - by rewrite lookup_take_ge, lookup_ge_None_2 by (rewrite ?length_mbytes; lia).
Qed.

(** Memory of the program: the range is mapped for user code, and the process owns the
    page tables and the pages. *)
Record user_range (a n : Z) (s : kernel) : Prop := {
  ur_wf : pt_wf (k_mem s) own_pagetable [];
  ur_range : 0 ≤ a ∧ 0 ≤ n ∧ a + n ≤ MAXVA;
  ur_mapped : ∀ i, 0 ≤ i < n → readable (k_mem s) own_pagetable (a + i);
  ur_tables : ∀ q x, is_table (k_mem s) own_pagetable q → in_page q x → own_mem x;
  ur_own : ∀ i x, 0 ≤ i < n → uaddr (k_mem s) own_pagetable (a + i) = Some x → own_mem x
}.

Lemma user_source a n s : user_range a n s → source true a (ubytes (k_mem s) own_pagetable a (Z.to_nat n)) s.
Proof.
  intros [Hwf Hr Hm Ht Ho] s' k m Hs Hh Hk Hm0 Hkm. rewrite length_ubytes in Hkm.
  assert (HV : MAXVA < 2 ^ 64) by done.
  assert (Hts : tables_same (k_mem s) (k_mem s') own_pagetable).
  { intros q x Hq Hx. apply same_mget; [done|]. by eapply Ht. }
  destruct (du_proc _ _ _ _ Hh) as (y & Hy & _ & _ & Hpt). unfold either_copyin.
  mrun_with (myproc_run 0 s' (du_hart _ _ _ _ Hh)). rewrite (du_cur _ _ _ _ Hh). cbn [of_option].
  mrun_with (get_proc_run s' me y Hy). rewrite Hpt, u64_small by lia.
  rewrite copyin_run; try lia; [|by apply (tables_same_wf _ _ _ _ Hts)|].
  - do 2 f_equal. apply list_eq. intros i. unfold slice. destruct (decide (i < Z.to_nat m)%nat) as [Hi|Hi].
    2:{ rewrite lookup_take_ge by lia. by rewrite lookup_ge_None_2 by (rewrite length_ubytes; lia). }
    rewrite lookup_take_lt, lookup_drop by done. unfold ubytes. rewrite !list_lookup_fmap, !lookup_seq_lt by lia. cbn [fmap option_fmap option_map]. f_equal.
    rewrite !Nat.add_0_l. replace (a + k + Z.of_nat i) with (a + Z.of_nat (Z.to_nat k + i)) by lia.
    rewrite (tables_same_uaddr _ _ _ _ Hts) by lia. destruct (uaddr (k_mem s) own_pagetable _) as [x|] eqn:Hx.
    + apply same_mget; [done|]. apply (Ho (Z.of_nat (Z.to_nat k + i))); [lia|done].
    + exfalso. destruct (Hm (Z.of_nat (Z.to_nat k + i)) ltac:(lia)) as (pa & Hpa & _). unfold uaddr in Hx. by rewrite Hpa in Hx.
  - intros i Hi. destruct (Hm (k + i) ltac:(lia)) as (pa & Hpa & Hne). exists pa. split; [|done].
    rewrite (tables_same_user_pa _ _ _ _ Hts) by lia. by rewrite <- Z.add_assoc.
Qed.

(** The same for a destination: every address is writable and a byte of its own. *)
Record user_dest (a n : Z) (m : gmap Z Z) : Prop := {
  ud_wf : pt_wf m own_pagetable [];
  ud_range : 0 ≤ a ∧ 0 ≤ n ∧ a + n ≤ MAXVA;
  ud_mapped : ∀ i, 0 ≤ i < n → writable m own_pagetable (a + i);
  ud_distinct : distinct m own_pagetable a n;
  ud_tables : ∀ q x, is_table m own_pagetable q → in_page q x → own_mem x;
  ud_own : ∀ i x, 0 ≤ i < n → uaddr m own_pagetable (a + i) = Some x → own_mem x
}.

Lemma user_dest_same a n m m' : tables_same m m' own_pagetable → user_dest a n m → user_dest a n m'.
Proof.
  intros Hs [Hwf Hr Hm Hd Ht Ho]. assert (HV : MAXVA < 2 ^ 64) by done. split; try done.
  - by apply (tables_same_wf m).
  - intros i Hi. apply (tables_same_writable m); [done|lia|by apply Hm].
  - intros i j Hi Hj. rewrite !(tables_same_uaddr m m') by (done || lia). by apply Hd.
  - intros q x Hq. apply Ht. by apply (tables_same_is_table m m').
  - intros i x Hi. rewrite (tables_same_uaddr m m') by (done || lia). by apply Ho.
Qed.

Lemma user_dest_tables a n s s' : user_dest a n (k_mem s) → same_mem s s' → tables_same (k_mem s) (k_mem s') own_pagetable.
Proof. intros Hud Hs q x Hq Hx. apply same_mget; [done|]. by eapply ud_tables. Qed.

(** What the program sees at [a]: the bytes [l] have arrived. *)
Definition received (a n : Z) (l : list Z) (s : kernel) : Prop :=
  user_dest a n (k_mem s) ∧ Z.of_nat (length l) ≤ n ∧ ubytes (k_mem s) own_pagetable a (length l) = l.

Lemma user_sink a n : sink true a n (received a n).
Proof.
  assert (HV : MAXVA < 2 ^ 64) by done. split.
  - intros l data m s (Hud & Hle & Hl) Hh Hm Hn. pose proof Hud as [Hwf Hr Hw Hd Ht Ho].
    destruct (du_proc _ _ _ _ Hh) as (y & Hy & _ & _ & Hpt). unfold either_copyout.
    mrun_with (myproc_run 0 s (du_hart _ _ _ _ Hh)). rewrite (du_cur _ _ _ _ Hh). cbn [of_option].
    mrun_with (get_proc_run s me y Hy). rewrite Hpt, u64_small by lia.
    set (l1 := take (Z.to_nat m) data). assert (Z.of_nat (length l1) = m) as Hl1 by (unfold l1; rewrite length_take; lia).
    destruct (copyout_run own_pagetable (a + Z.of_nat (length l)) l1 (drop (Z.to_nat m) data) s) as (mem & Hrun & Hst); try done; rewrite ?Hl1; try lia.
    { intros i Hi. rewrite <- Z.add_assoc. apply Hw. lia. }
    { intros i j Hi Hj Hu. rewrite <- !Z.add_assoc in Hu. apply Hd in Hu; lia. }
    unfold l1 in Hrun. rewrite take_drop in Hrun. fold l1 in Hrun. rewrite Hl1 in Hrun. exists mem. split; [exact Hrun|].
    pose proof (st_tables _ _ _ _ _ Hst) as Hts. split; [by apply (user_dest_same a n (k_mem s))|]. split; [rewrite length_app; lia|].
    rewrite length_app, ubytes_app. ksimpl. f_equal; [|apply (st_bytes _ _ _ _ _ Hst)]. transitivity (ubytes (k_mem s) own_pagetable a (length l)); [|done].
    apply ubytes_ext. intros i Hi. rewrite (tables_same_uaddr _ _ _ _ Hts) by lia.
    destruct (Hw (Z.of_nat i) ltac:(lia)) as ((pa & Hpa & _) & _). unfold uaddr at 1 2. rewrite Hpa. cbn [fmap option_fmap option_map default].
    apply (st_frame _ _ _ _ _ Hst). intros j Hj Hu. rewrite <- Z.add_assoc in Hu.
    assert (Z.of_nat i = Z.of_nat (length l) + j); [|lia]. apply Hd; [lia|lia|]. rewrite Hu. unfold uaddr. by rewrite Hpa.
  - intros l s s' (Hud & Hle & Hl) Hs. pose proof (user_dest_tables _ _ _ _ Hud Hs) as Hts. pose proof Hud as [Hwf Hr Hw Hd Ht Ho].
    split; [by eapply user_dest_same|]. split; [done|]. transitivity (ubytes (k_mem s) own_pagetable a (length l)); [|done].
    apply ubytes_ext. intros i Hi. rewrite (tables_same_uaddr _ _ _ _ Hts) by lia.
    destruct (uaddr (k_mem s) own_pagetable (a + Z.of_nat i)) as [x|] eqn:Hx.
    + apply same_mget; [done|]. apply (Ho (Z.of_nat i)); [lia|done].
    + exfalso. destruct (Hw (Z.of_nat i) ltac:(lia)) as ((pa & Hpa & _) & _). unfold uaddr in Hx. by rewrite Hpa in Hx.
Qed.

(** ** readi *)

(** Nothing but memory has changed for the process. *)
Record same_but_mem (s s' : kernel) : Prop := {
  sm_log : k_log s' = k_log s;
  sm_sb : k_sb s' = k_sb s;
  sm_panicking : k_panicking s' = k_panicking s;
  sm_panicked : k_panicked s' = k_panicked s;
  sm_itable : k_itable s' = k_itable s;
  sm_ilocks : same_ilocks s s';
  sm_files : ∀ f, own_file f → k_ftable s' !! f = k_ftable s !! f
}.

#[local] Instance same_but_mem_preorder : PreOrder same_but_mem.
Proof.
  split; [by intros s; split|]. intros s t u [? ? ? ? ? ? Hf] [? ? ? ? ? ? Hf']. split; try congruence.
  intros f Ho. by rewrite Hf', Hf.
Qed.

Lemma same_log_but_mem s s' : same_log s s' → same_but_mem s s'.
Proof. intros [? ? ? ? ? ? []]. by split. Qed.
Lemma same_log_mem s s' : same_log s s' → same_mem s s'.
Proof. by intros [? ? ? ? ? ? []]. Qed.
#[local] Hint Resolve same_log_but_mem same_log_mem : core.

Lemma mounted_but_mem s s' : mounted sb s → same_but_mem s s' → mounted sb s'.
Proof. intros [] []. split; congruence. Qed.

Record read_only (c : Z → list Z) (pins : list Z) (d : disk) (s s' : kernel) : Prop := {
  ro_view : cst c pins [] s' d;
  ro_same : same_but_mem s s'
}.

Lemma view_mem c pins H s d mem : cst c pins H s d → cst c pins H (s <| k_mem := mem |>) d.
Proof. intros [[Hu Hv] Hwf Hb Hh Hf Hp Hd Hl Hc]. split; try done. intros b bn Hin. by destruct (Hh b bn Hin). Qed.

Record reading (x : inode) (c : Z → list Z) (pins : list Z) (d : disk) (R : list Z → kernel → Prop) (off n dst : Z) (s0 : kernel)
    (fuel : nat) (st : Z * Z * Z) (s : kernel) : Prop := {
  rg_tot : 0 ≤ st.1.1 ≤ n;
  rg_off : st.1.2 = off + st.1.1;
  rg_dst : st.2 = u64 (dst + st.1.1);
  rg_fuel : (1 ≤ fuel)%nat ∧ (st.1.1 < n → rounds st.1.2 (off + n) ≤ Z.of_nat fuel);
  rg_data : R (file_slice x c off (Z.to_nat st.1.1)) s;
  rg_same : read_only c pins d s0 s
}.

Lemma fo_bound c x : file_ok sb c x → 0 ≤ i_size x ≤ 274432.
Proof. intros Hf. destruct (fo_size _ _ _ Hf). rewrite MAXFILE_eq in *. unfold BSIZE in *. lia. Qed.

Lemma in_file_of o lim : 0 ≤ o → o < lim → lim ≤ MAXFILE * BSIZE → in_file (o / BSIZE).
Proof.
  intros Ho Hl Hm. split; [by apply Z.div_pos|]. apply Z.div_lt_upper_bound; [done|]. lia.
Qed.

Lemma readi_round ip us dst off n c x pins s0 d R fuel tot o a s :
  file_ok sb c x → k_itable s0 !! ip = Some x → fits pins 0 → 0 ≤ off → off + n ≤ i_size x → 0 ≤ dst < 2 ^ 64 →
  sink us dst n R → tot < n → reading x c pins d R off n dst s0 (S fuel) (tot, o, a) s →
  op d ((addr ← bmap ip (o / BSIZE);
        if addr =? 0 then mret (inr tot) else
        x ← get_inode ip;
        bp ← bread (i_dev x) addr;
        let m := Z.min (n - tot) (BSIZE - o mod BSIZE) in
        data ← get_data bp;
        r ← either_copyout us a (drop (Z.to_nat (o mod BSIZE)) data) m;
        if r =? -1 then brelse bp;; mret (inr (-1)) else
        brelse bp;;
        mret (inl (u32 (tot + m), u32 (o + m), u64 (a + m)))) s)
    (λ r s', match r with inl st => reading x c pins d R off n dst s0 fuel st s' | inr _ => False end).
Proof.
  intros Hf Hx Hfit Hoff Hn Hdst Hsink Hlt [Htot Ho Ha Hfu HR Hro]. cbn [fst snd] in *. subst o.
  pose proof (fo_bound _ _ Hf) as Hbound. pose proof Hro as [Ht Hsm]. pose proof (sm_itable _ _ Hsm) as Hi.
  assert (Hin : in_file ((off + tot) / BSIZE)) by (apply (in_file_of _ (i_size x)); [lia|lia|apply Hf]).
  assert (Hmap : data_addr x c ((off + tot) / BSIZE) ≠ 0).
  { apply (fo_mapped _ _ _ Hf); [apply Hin|]. pose proof (Z.mul_div_le (off + tot) BSIZE ltac:(done)). lia. }
  assert (Hmod : 0 ≤ (off + tot) mod BSIZE < BSIZE) by (by apply Z.mod_pos_bound).
  eapply op_bind; [eapply (bmap_found sb Hgeo ip _ c x pins s d); try done; by rewrite Hi|].
  intros r s1 (-> & Ht1 & Hs1). rewrite (proj2 (Z.eqb_neq _ _) Hmap).
  eapply op_step; [apply get_inode_run; rewrite (sg_itable _ _ Hs1), Hi; exact Hx|]. rewrite (fo_dev _ _ _ Hf).
  destruct (lo_data _ _ _ _ (fo_layout _ _ _ Hf) _ Hin Hmap) as [[Hib _ _ _ Hihm] _].
  eapply bread_view; [exact Ht1|apply not_elem_of_nil| |unfold fits in Hfit; cbn; lia|].
  { destruct (ge_size _ Hgeo). unfold is_block, blockno_ok in *. lia. }
  intros bp s2 Ht2 Hs2. cbv zeta. set (m := Z.min (n - tot) _). assert (Hmr : 0 < m ≤ BSIZE - (off + tot) mod BSIZE) by lia.
  eapply get_data_view; [exact Ht2|by left|].
  assert (Hlen : ∀ k, length (c k) = Z.to_nat BSIZE) by (intros k; by apply (cs_length _ _ _ _ _ _ _ _ Ht)).
  assert (Htn : length (file_slice x c off (Z.to_nat tot)) = Z.to_nat tot) by apply length_file_slice.
  assert (HR2 : R (file_slice x c off (Z.to_nat tot)) s2) by (eapply (sk_same _ _ _ _ Hsink); [exact HR|apply same_log_mem; by rewrite Hs1]).
  destruct (sk_copy _ _ _ _ Hsink (file_slice x c off (Z.to_nat tot)) (drop (Z.to_nat ((off + tot) mod BSIZE)) (c (data_addr x c ((off + tot) / BSIZE)))) m s2 HR2)
    as (mem & Hcopy & HR3).
  { apply (cs_io _ _ _ _ _ _ _ _ Ht2). }
  { rewrite length_drop, Hlen. lia. }
  { rewrite Htn. lia. }
  rewrite Htn, Z2Nat.id in Hcopy by lia. rewrite <- Ha in Hcopy.
  eapply op_step; [exact Hcopy|]. change (0 =? -1) with false. cbn iota.
  eapply brelse_view; [by apply view_mem|eapply view_clean; [exact Ht1|apply not_elem_of_nil]|].
  intros s4 Ht4 Hs4. apply op_ret. rewrite !u32_small by lia.
  split; cbn [fst snd].
  - lia.
  - lia.
  - subst a. unfold u64. rewrite Zplus_mod_idemp_l. f_equal. lia.
  - destruct (rounds_step (off + tot) (off + n) m) as [He|[Hl Hr]]; [lia|unfold m; f_equal; lia| |].
    + pose proof (rounds_pos (off + tot) (off + n) ltac:(lia)). split; [|lia]. destruct Hfu as [_ Hfu]. specialize (Hfu Hlt). lia.
    + pose proof (rounds_pos (off + tot + m) (off + n) ltac:(lia)). destruct Hfu as [_ Hfu]. specialize (Hfu Hlt). split; [lia|]. intros _. lia.
  - rewrite block_slice in HR3 by (done || lia). replace (off + tot) with (off + Z.of_nat (Z.to_nat tot)) in HR3 by lia.
    rewrite file_slice_app in HR3. replace (Z.to_nat (tot + m)) with (Z.to_nat tot + Z.to_nat m)%nat by lia.
    eapply (sk_same _ _ _ _ Hsink); [exact HR3|by apply same_log_mem].
  - split; [done|]. rewrite Hsm. transitivity s1; [auto|]. transitivity s2; [auto|]. transitivity (s2 <| k_mem := mem |>); [by split|auto].
Qed.

(** The bytes of the file from [off] on, at most [n] of them. *)
Definition available (x : inode) (off n : Z) : Z := Z.max 0 (Z.min n (i_size x - off)).

Lemma readi_op ip us dst off n c x pins s d R (k := available x off n) :
  cst c pins [] s d → k_itable s !! ip = Some x → file_ok sb c x → fits pins 0 →
  0 ≤ off → 0 ≤ n → off + n < 2 ^ 32 → 0 ≤ dst < 2 ^ 64 → sink us dst k R → R [] s →
  op d (readi ip us dst off n s) (λ r s', r = k ∧ R (file_slice x c off (Z.to_nat k)) s' ∧ read_only c pins d s s').
Proof.
  intros Ht Hx Hf Hfit Hoff Hn Hon Hdst Hsink HR. pose proof (fo_bound _ _ Hf) as Hbound. unfold readi.
  eapply op_step; [by apply get_inode_run|]. rewrite u32_small by lia. rewrite (proj2 (Z.ltb_ge (off + n) off)) by lia. rewrite orb_false_r.
  destruct (Z.ltb_spec (i_size x) off) as [Hbeyond|Hwithin].
  { assert (k = 0) as Hk by (unfold k, available; lia). rewrite Hk. apply op_ret. split; [done|]. split; [exact HR|by split]. }
  set (n' := if i_size x <? off + n then i_size x - off else n).
  assert (n' = k) as Hnk by (unfold n', k, available; destruct (Z.ltb_spec (i_size x) (off + n)); lia).
  cbv zeta. fold n'. rewrite Hnk. assert (0 ≤ k ≤ n ∧ off + k ≤ i_size x) as [Hk Hks] by (unfold k, available; lia). clearbody k. clear n' Hnk.
  eapply (op_bind _ _ _ _ (λ tot s', tot = k ∧ R (file_slice x c off (Z.to_nat k)) s' ∧ read_only c pins d s s')).
  - eapply (op_while d _ (λ fuel st s', reading x c pins d R off k dst s fuel st s')).
    + intros fuel [[tot o] a] s1 Hr. destruct (Z.ltb_spec tot k) as [Hlt|Hge].
      * eapply op_mono; [by apply (readi_round ip us dst off k c x pins s d R fuel)|]. by intros [st|b] s2.
      * destruct Hr as [Htot _ _ _ HRt Hro]. cbn [fst snd] in *. assert (tot = k) as -> by lia. apply op_ret. done.
    + intros st s1 [_ _ _ [Hf0 _] _ _]. lia.
    + split; cbn [fst snd]; try done; [lia|by rewrite Z.add_0_r|by rewrite Z.add_0_r, u64_small|].
      split; [unfold block_fuel; lia|]. intros Hlt. by apply rounds_fuel.
  - intros tot s1 (-> & HR1 & Hro). rewrite i32_small by lia. by apply op_ret.
Qed.

(** ** iupdate *)

Definition on_disk_inode (x : inode) : dinode := Dinode (i_type x) (i_major x) (i_minor x) (i_nlink x) (i_size x) (i_addrs x).
Definition put_inode (x : inode) (c : Z → list Z) : Z → list Z :=
  <[IBLOCK (i_inum x) sb := dinode_put (i_inum x mod IPB) (on_disk_inode x) (c (IBLOCK (i_inum x) sb))]> c.

Lemma IBLOCK_ok i : 0 ≤ i < sb_ninodes sb → IBLOCK i sb = i / IPB + sb_inodestart sb ∧ blockno_ok (IBLOCK i sb).
Proof.
  intros Hi. destruct (ge_inodes _ Hgeo) as (H1 & H2 & H3). unfold IBLOCK, blockno_ok.
  assert (0 ≤ i / IPB ≤ sb_ninodes sb / IPB) by (split; [apply Z.div_pos; [lia|done]|apply Z.div_le_mono; [done|lia]]).
  rewrite u32_small by lia. lia.
Qed.

Lemma length_dinode_put k x data : length (dinode_put k x data) = length data.
Proof. apply length_splice. Qed.

Lemma iupdate_op ip c x pins s d k : txn c pins [] s d → mounted sb s → k_itable s !! ip = Some x → i_dev x = dev →
  0 ≤ i_inum x < sb_ninodes sb → fits pins (S k) →
  op d (iupdate ip s) (λ _ s', txn (put_inode x c) (pin (IBLOCK (i_inum x) sb) pins) [] s' d ∧ same_rest s s').
Proof.
  intros Ht Hm Hx Hdev Hin Hfit. unfold iupdate, get_sb. eapply op_step; [reflexivity|]. rewrite (mt_sb _ _ Hm).
  eapply op_step; [by apply get_inode_run|]. rewrite Hdev. destruct (IBLOCK_ok _ Hin) as [_ Hok].
  eapply bread_op; [exact Ht|apply not_elem_of_nil|done|unfold fits in Hfit; cbn; lia|]. intros bp s1 Ht1 Hs1.
  eapply op_step; [apply get_inode_run; rewrite (sr_itable _ _ Hs1); exact Hx|].
  eapply upd_data_op; [exact Ht1|by left|rewrite length_dinode_put; by eapply txn_length|]. intros s2 Ht2 Hs2.
  eapply log_write_op; [exact Ht2|by left|by apply ge_inodes_home|exact Hfit|]. intros s3 Ht3 Hs3.
  destruct (brelse_run_txn _ _ _ _ _ _ _ Ht3) as (s4 & -> & Ht4 & Hs4); [left; apply elem_of_pin; by left|].
  apply op_ret. split; [exact Ht4|]. by rewrite Hs1, Hs2, Hs3.
Qed.

(** ** Writing inside blocks *)

(** [x'] in [c'] is [x] in [c] with the bytes [l] written at [off], the size apart. *)
Record written (c : Z → list Z) (x : inode) (off : Z) (l : list Z) (c' : Z → list Z) (x' : inode) : Prop := {
  wr_ok : file_ok sb c' x';
  wr_meta : meta_used sb c';
  wr_attr : x' = x <| i_addrs := i_addrs x' |>;
  wr_mapped : ∀ bn, 0 ≤ bn → bn * BSIZE < off + Z.of_nat (length l) → data_addr x' c' bn ≠ 0;
  wr_bytes : ∀ o, 0 ≤ o → o < off + Z.of_nat (length l) ∨ o < i_size x →
    file_byte x' c' o = if decide (off ≤ o < off + Z.of_nat (length l)) then default 0 (l !! Z.to_nat (o - off)) else file_byte x c o;
  wr_addr : ∀ bn, in_file bn → data_addr x c bn ≠ 0 → data_addr x' c' bn = data_addr x c bn;
  wr_fresh : ∀ bn, in_file bn → data_addr x c bn = 0 → data_addr x' c' bn ≠ 0 → used c (data_addr x' c' bn) = false;
  wr_ind : ind x' = ind x ∨ (ind x = 0 ∧ is_block sb (ind x') ∧ used c (ind x') = false);
  wr_frame : ∀ b, ¬ on_bitmap sb b → (is_block sb b → used c b = true) → b ≠ ind x →
    (∀ bn, in_file bn → data_addr x c bn ≠ 0 → data_addr x c bn ≠ b) → c' b = c b;
  wr_used : ∀ b, is_block sb b → used c b = true → used c' b = true
}.

Lemma fo_mapped_size c x off : file_ok sb c x → 0 ≤ off ≤ i_size x →
  ∀ bn, 0 ≤ bn → bn * BSIZE < off → data_addr x c bn ≠ 0.
Proof. intros Hf Hoff bn Hb Hlt. apply (fo_mapped _ _ _ Hf); [done|lia]. Qed.

Lemma written_nil c x off : file_ok sb c x → meta_used sb c → 0 ≤ off ≤ i_size x → written c x off [] c x.
Proof.
  intros Hf Hm Hoff. split; try done.
  - by destruct x.
  - cbn [length]. rewrite Z.add_0_r. by apply fo_mapped_size.
  - intros o Ho _. cbn [length]. rewrite decide_False by lia. done.
  - by left.
Qed.

Lemma written_grow c x off l c1 x1 c2 x2 : off + Z.of_nat (length l) ≤ MAXFILE * BSIZE →
  written c x off l c1 x1 → grows sb c1 x1 c2 x2 → written c x off l c2 x2.
Proof.
  intros Hlim Hw Hg. pose proof (wr_ok _ _ _ _ _ _ Hw) as Hf1.
  assert (Hsz : i_size x1 = i_size x) by (rewrite (wr_attr _ _ _ _ _ _ Hw); by destruct x).
  assert (Hkeep : ∀ o, 0 ≤ o → o < off + Z.of_nat (length l) ∨ o < i_size x → file_byte x2 c2 o = file_byte x1 c1 o).
  { intros o Ho Hor. assert (Hmp : data_addr x1 c1 (o / BSIZE) ≠ 0).
    { pose proof (Z.mul_div_le o BSIZE ltac:(done)). assert (0 ≤ o / BSIZE) by (by apply Z.div_pos).
      destruct Hor; [apply (wr_mapped _ _ _ _ _ _ Hw)|apply (fo_mapped _ _ _ Hf1)]; lia. }
    assert (Hin : in_file (o / BSIZE)).
    { destruct (fo_size _ _ _ Hf1). destruct Hor; [by apply (in_file_of _ (off + Z.of_nat (length l)))|apply (in_file_of _ (i_size x)); lia]. }
    unfold file_byte. by rewrite (file_block_kept sb c1 x1 c2 x2). }
  split; [apply Hg|apply Hg| | | | | | | |].
  - rewrite (gr_attr _ _ _ _ _ Hg), (wr_attr _ _ _ _ _ _ Hw). by destruct x, x1, x2.
  - intros bn Hb Hlt. pose proof (wr_mapped _ _ _ _ _ _ Hw bn Hb Hlt) as Hz. rewrite (gr_addr _ _ _ _ _ Hg); [done| |done].
    split; [done|]. unfold BSIZE in *. lia.
  - intros o Ho Hor. rewrite Hkeep by done. by apply (wr_bytes _ _ _ _ _ _ Hw).
  - intros bn Hb Hz. pose proof (wr_addr _ _ _ _ _ _ Hw bn Hb Hz) as He. rewrite <- He. apply (gr_addr _ _ _ _ _ Hg); [done|congruence].
  - intros bn Hb Hz Hnz. destruct (decide (data_addr x1 c1 bn = 0)) as [Hz1|Hz1].
    + destruct (gr_new _ _ _ _ _ Hg bn Hb Hz1 Hnz) as [Hu _]. destruct (used c (data_addr x2 c2 bn)) eqn:E; [|done].
      rewrite (wr_used _ _ _ _ _ _ Hw) in Hu; [done| |done].
      by apply (lo_data _ _ _ _ (fo_layout _ _ _ (gr_ok _ _ _ _ _ Hg)) bn Hb Hnz).
    + rewrite (gr_addr _ _ _ _ _ Hg bn Hb Hz1). by apply (wr_fresh _ _ _ _ _ _ Hw).
  - destruct (gr_ind _ _ _ _ _ Hg) as [->|(Hz & Hb & Hu)]; [apply Hw|]. right.
    destruct (wr_ind _ _ _ _ _ _ Hw) as [He|(Hz' & _)]; (split; [congruence|]; split; [done|]);
      (destruct (used c (ind x2)) eqn:E; [|done]; by rewrite (wr_used _ _ _ _ _ _ Hw) in Hu).
  - intros b Hnb Hu Hbi Hbd. rewrite (gr_frame _ _ _ _ _ Hg); [by apply (wr_frame _ _ _ _ _ _ Hw)|done| |].
    + intros Hb. apply (wr_used _ _ _ _ _ _ Hw); [done|by apply Hu].
    + intros ->. destruct (wr_ind _ _ _ _ _ _ Hw) as [He|(_ & Hb & Hfree)]; [congruence|]. by rewrite Hu in Hfree.
  - intros b Hb Hu. by apply (gr_used _ _ _ _ _ Hg), (wr_used _ _ _ _ _ _ Hw).
Qed.

Lemma lookup_splice {A} i j (l' l : list A) : (i + length l' ≤ length l)%nat →
  splice i l' l !! j = if decide (i ≤ j < i + length l')%nat then l' !! (j - i)%nat else l !! j.
Proof.
  intros Hl. unfold splice. rewrite (take_ge l') by lia. destruct (decide (i ≤ j < i + length l')%nat) as [Hj|Hj].
  - rewrite lookup_app_r, length_take, Nat.min_l by (rewrite ?length_take; lia). by rewrite lookup_app_l by lia.
  - destruct (decide (j < i)%nat).
    + rewrite lookup_app_l by (rewrite length_take; lia). by rewrite lookup_take_lt.
    + rewrite lookup_app_r, length_take, Nat.min_l by (rewrite ?length_take; lia). rewrite lookup_app_r by lia.
      rewrite lookup_drop. f_equal. lia.
Qed.

Definition put_data (a o : Z) (l : list Z) (c : Z → list Z) : Z → list Z := <[a := splice (Z.to_nat (o mod BSIZE)) l (c a)]> c.

(** Bytes of the file after one block is written. *)
Lemma put_data_byte c x bn o l o' : (∀ n, length (c n) = Z.to_nat BSIZE) → file_ok sb c x → 0 ≤ o → bn = o / BSIZE → in_file bn →
  data_addr x c bn ≠ 0 → Z.of_nat (length l) ≤ BSIZE - o mod BSIZE → 0 ≤ o' → in_file (o' / BSIZE) →
  (∀ n, in_file n → data_addr x (put_data (data_addr x c bn) o l c) n = data_addr x c n) →
  file_byte x (put_data (data_addr x c bn) o l c) o' =
    if decide (o ≤ o' < o + Z.of_nat (length l)) then default 0 (l !! Z.to_nat (o' - o)) else file_byte x c o'.
Proof.
  intros Hl Hf Ho -> Hin Hz Hlen Ho' Hin' HA. unfold file_byte. rewrite HA by done. unfold put_data.
  assert (Hm : 0 ≤ o mod BSIZE < BSIZE) by (by apply Z.mod_pos_bound). assert (Hm' : 0 ≤ o' mod BSIZE < BSIZE) by (by apply Z.mod_pos_bound).
  pose proof (Z.div_mod o BSIZE ltac:(done)) as Hd. pose proof (Z.div_mod o' BSIZE ltac:(done)) as Hd'.
  destruct (decide (o / BSIZE = o' / BSIZE)) as [He|Hne].
  - rewrite <- He, fn_lookup_insert, lookup_splice by (rewrite Hl; lia). rewrite <- He in Hd'.
    set (q := BSIZE * (o / BSIZE)) in *. destruct (decide (o ≤ o' < o + Z.of_nat (length l))).
    + rewrite decide_True by lia. do 2 f_equal. lia.
    + rewrite decide_False by lia. done.
  - rewrite fn_lookup_insert_ne.
    + rewrite decide_False; [done|]. intros Hr. apply Hne.
      assert (o / BSIZE ≤ o' / BSIZE) by (apply Z.div_le_mono; [done|lia]).
      assert (o' / BSIZE < o / BSIZE + 1) by (apply Z.div_lt_upper_bound; [done|]; lia). lia.
    + intros He. apply Hne. apply (lo_inj _ _ _ _ (fo_layout _ _ _ Hf)); done.
Qed.

Lemma written_put c x off l c1 x1 l' (o := off + Z.of_nat (length l)) (a := data_addr x1 c1 (o / BSIZE)) :
  (∀ n, length (c1 n) = Z.to_nat BSIZE) → 0 ≤ off →
  written c x off l c1 x1 → a ≠ 0 → Z.of_nat (length l') ≤ BSIZE - o mod BSIZE → o + Z.of_nat (length l') ≤ MAXFILE * BSIZE → o < MAXFILE * BSIZE →
  written c x off (l ++ l') (put_data a o l' c1) x1.
Proof.
  intros Hl Hoff Hw Ha Hl' Hlim Holim. set (c2 := put_data a o l' c1).
  pose proof (wr_ok _ _ _ _ _ _ Hw) as Hf1. pose proof (fo_layout _ _ _ Hf1) as Hlay.
  assert (Ho : 0 ≤ o) by (unfold o; lia).
  assert (Hin : in_file (o / BSIZE)) by (by apply (in_file_of o (MAXFILE * BSIZE))).
  destruct (lo_data _ _ _ _ Hlay _ Hin Ha) as [Hda Hua]. fold a in Hda, Hua. pose proof (data_not_bitmap sb a Hda) as Hnb.
  assert (Hc2 : ∀ b, b ≠ a → c2 b = c1 b) by (intros b Hb; unfold c2, put_data; by rewrite fn_lookup_insert_ne).
  assert (HA : ∀ n, in_file n → data_addr x1 c2 n = data_addr x1 c1 n).
  { intros n _. unfold data_addr. destruct (n <? NDIRECT); [done|]. destruct (ind x1 =? 0); [done|]. rewrite Hc2; [done|].
    intros He. by apply (lo_ne _ _ _ _ Hlay _ Hin Ha). }
  assert (HU : ∀ b, is_block sb b → used c2 b = used c1 b).
  { intros b Hb. unfold AllocSpec.used. rewrite Hc2; [done|]. intros He. apply Hnb. by exists b. }
  assert (Hsz : i_size x1 = i_size x) by (rewrite (wr_attr _ _ _ _ _ _ Hw); by destruct x).
  assert (Hbound : ∀ o', 0 ≤ o' → o' < o + Z.of_nat (length l') ∨ o' < i_size x → in_file (o' / BSIZE)).
  { intros o' Ho' Hor. destruct (fo_size _ _ _ Hf1). apply (in_file_of o' (MAXFILE * BSIZE)); [done|lia|done]. }
  assert (Happ : off + Z.of_nat (length (l ++ l')) = o + Z.of_nat (length l')) by (rewrite length_app; unfold o; lia).
  split.
  - destruct Hf1 as [H1 H2 H3 H4 [H5 H6 H7 H8]]. split; try done.
    + intros bn Hb Hlt. rewrite HA; [by apply H4|]. split; [done|]. unfold BSIZE in *. lia.
    + split.
      * intros bn Hb. rewrite HA by done. intros Hz. destruct (H5 bn Hb Hz) as [Hdb Hu]. split; [done|]. by rewrite HU by apply Hdb.
      * intros Hz. destruct (H6 Hz) as [Hdb Hu]. split; [done|]. by rewrite HU by apply Hdb.
      * intros bn Hb. rewrite HA by done. by apply H7.
      * intros bn bn' Hb Hb'. rewrite !HA by done. by apply H8.
  - intros b Hb Hu. apply (wr_meta _ _ _ _ _ _ Hw); [done|]. by rewrite HU in Hu.
  - apply Hw.
  - rewrite Happ. intros bn Hb Hlt. rewrite HA by (split; [done|unfold BSIZE in *; lia]).
    destruct (decide (bn * BSIZE < o)) as [Hlto|]; [by apply (wr_mapped _ _ _ _ _ _ Hw)|].
    assert (bn = o / BSIZE) as ->; [|done]. assert (Hm : 0 ≤ o mod BSIZE < BSIZE) by (by apply Z.mod_pos_bound).
    pose proof (Z.div_mod o BSIZE ltac:(done)). unfold BSIZE in *. lia.
  - rewrite Happ. intros o' Ho' Hor. unfold c2, a. rewrite put_data_byte by auto.
    destruct (decide (o ≤ o' < o + Z.of_nat (length l'))) as [Hr|Hr].
    + rewrite decide_True by (unfold o in *; lia). rewrite lookup_app_r by (unfold o in *; lia). do 2 f_equal. unfold o. lia.
    + rewrite (wr_bytes _ _ _ _ _ _ Hw o' Ho') by (unfold o in *; lia). fold o.
      destruct (decide (off ≤ o' < o)) as [Hr2|Hr2].
      * rewrite decide_True by lia. rewrite lookup_app_l by (unfold o in *; lia). done.
      * rewrite decide_False by lia. done.
  - intros bn Hb Hz. rewrite HA by done. by apply (wr_addr _ _ _ _ _ _ Hw).
  - intros bn Hb Hz. rewrite HA by done. by apply (wr_fresh _ _ _ _ _ _ Hw).
  - apply Hw.
  - intros b Hb Hu Hbi Hbd. rewrite Hc2; [by apply (wr_frame _ _ _ _ _ _ Hw)|]. intros ->.
    destruct (decide (data_addr x c (o / BSIZE) = 0)) as [Hz|Hz].
    + pose proof (wr_fresh _ _ _ _ _ _ Hw _ Hin Hz Ha) as Hfr. fold a in Hfr. rewrite Hu in Hfr; [done|apply Hda].
    + apply (Hbd _ Hin Hz). symmetry. by apply (wr_addr _ _ _ _ _ _ Hw).
  - intros b Hb Hu. rewrite HU by done. by apply (wr_used _ _ _ _ _ _ Hw).
Qed.

(** ** writei *)

(** Blocks still to be visited. *)
Definition remaining (off lim : Z) : nat := if off <? lim then Z.to_nat (rounds off lim - 1) else 0.

Definition written_at (ip : nat) (c : Z → list Z) (x : inode) (off : Z) (l : list Z) (budget : nat) (d : disk) (s0 s : kernel)
    (c' : Z → list Z) (x' : inode) : Prop :=
  written c x off l c' x' ∧ at_inode ip x' s0 s ∧ ∃ pins', txn c' pins' [] s d ∧ (length pins' ≤ budget)%nat.

Record writing (ip : nat) (x : inode) (c : Z → list Z) (d : disk) (off src : Z) (l : list Z) (budget : nat) (s0 : kernel)
    (fuel : nat) (st : Z * Z * Z) (s : kernel) : Prop := {
  wg_tot : 0 ≤ st.1.1 ≤ Z.of_nat (length l);
  wg_off : st.1.2 = off + st.1.1;
  wg_src : st.2 = u64 (src + st.1.1);
  wg_fuel : (1 ≤ fuel)%nat ∧ (st.1.1 < Z.of_nat (length l) → rounds st.1.2 (off + Z.of_nat (length l)) ≤ Z.of_nat fuel);
  wg_data : ∃ c' x', written_at ip c x off (take (Z.to_nat st.1.1) l)
    (budget - 6 * remaining st.1.2 (off + Z.of_nat (length l))) d s0 s c' x'
}.

Lemma mounted_at ip x s0 s : mounted sb s0 → at_inode ip x s0 s → mounted sb s.
Proof. intros Hm [_ _ He]. by eapply mounted_env. Qed.

Lemma remaining_step off lim m : 0 ≤ off < lim → m = Z.min (lim - off) (BSIZE - off mod BSIZE) →
  (remaining (off + m) lim + 1 ≤ remaining off lim)%nat.
Proof.
  intros Ho Hm. pose proof (rounds_pos off lim Ho). unfold remaining. rewrite (proj2 (Z.ltb_lt off lim)) by lia.
  destruct (rounds_step off lim m Ho Hm) as [He|[Hlt Hr]].
  - rewrite (proj2 (Z.ltb_ge (off + m) lim)) by lia. lia.
  - rewrite (proj2 (Z.ltb_lt (off + m) lim)) by lia. rewrite Hr. assert (Hmod : 0 ≤ off mod BSIZE < BSIZE) by (by apply Z.mod_pos_bound). pose proof (rounds_pos (off + m) lim ltac:(lia)). lia.
Qed.

Lemma remaining_mono off o lim : off ≤ o → (remaining o lim ≤ remaining off lim)%nat.
Proof.
  intros Ho. unfold remaining, rounds. pose proof (Z.div_le_mono off o BSIZE ltac:(done) Ho).
  destruct (Z.ltb_spec o lim), (Z.ltb_spec off lim); lia.
Qed.

Lemma take_slice_app {A} k m (l : list A) : take k l ++ slice k m l = take (k + m) l.
Proof. unfold slice. by rewrite take_take_drop. Qed.

Lemma writei_round ip us src off l c x s0 d budget fuel tot o a s :
  mounted sb s0 → 0 ≤ off ≤ i_size x → off + Z.of_nat (length l) ≤ MAXFILE * BSIZE → (budget + 4 ≤ NBUF)%nat →
  (6 * remaining o (off + Z.of_nat (length l)) ≤ budget)%nat →
  source us src l s0 → tot < Z.of_nat (length l) → writing ip x c d off src l budget s0 (S fuel) (tot, o, a) s →
  op d ((addr ← bmap ip (o / BSIZE);
        if addr =? 0 then mret (inr (tot, o)) else
        x ← get_inode ip;
        bp ← bread (i_dev x) addr;
        let m := Z.min (Z.of_nat (length l) - tot) (BSIZE - o mod BSIZE) in
        '(r, l) ← either_copyin us a m;
        upd_data bp (splice (Z.to_nat (o mod BSIZE)) l);;
        if r =? -1 then brelse bp;; mret (inr (tot, o)) else
        log_write bp;;
        brelse bp;;
        mret (inl (u32 (tot + m), u32 (o + m), u64 (a + m)))) s)
    (λ r s', match r with
      | inl st => writing ip x c d off src l budget s0 fuel st s'
      | inr (t, o') => t = tot ∧ o' = o ∧ ∃ c' x', written_at ip c x off (take (Z.to_nat tot) l) budget d s0 s' c' x' ∧ full sb c'
      end).
Proof.
  intros Hm Hoff Hlim Hbud Hrem Hsrc Hlt [Htot Ho Ha Hfu (c1 & x1 & Hw & Hai & pins1 & Ht & Hp)]. cbn [fst snd] in *. subst o.
  set (n := Z.of_nat (length l)) in *. rewrite MAXFILE_eq in Hlim. change (268 * BSIZE) with 274432 in Hlim.
  set (m := Z.min (n - tot) _). pose proof (wr_ok _ _ _ _ _ _ Hw) as Hf1.
  assert (Hlt1 : Z.of_nat (length (take (Z.to_nat tot) l)) = tot) by (rewrite length_take; lia).
  assert (Hmod : 0 ≤ (off + tot) mod BSIZE < BSIZE) by (by apply Z.mod_pos_bound). assert (Hmr : 0 < m ≤ BSIZE - (off + tot) mod BSIZE) by lia.
  assert (Hrs : (remaining (off + tot + m) (off + n) + 1 ≤ remaining (off + tot) (off + n))%nat)
    by (apply remaining_step; [lia|unfold m; f_equal; lia]).
  assert (Hin : in_file ((off + tot) / BSIZE)) by (apply (in_file_of _ (off + n)); [lia|lia|rewrite MAXFILE_eq; unfold BSIZE; lia]).
  eapply op_bind; [eapply (bmap_op sb Hgeo ip _ c1 x1 pins1 s d 1); [exact Ht|by eapply mounted_at|by eapply at_inode_lookup|done|apply Hw|unfold fits; lia|done]|].
  intros r s1 (c2 & x2 & (pins2 & Ht2 & Hai2 & Hg2 & Hp2) & -> & Hfull).
  pose proof (at_inode_trans _ _ _ _ _ _ Hai Hai2) as Hai02.
  assert (Hw2 : written c x off (take (Z.to_nat tot) l) c2 x2).
  { eapply written_grow; [|exact Hw|exact Hg2]. rewrite MAXFILE_eq; unfold BSIZE; lia. }
  destruct (Z.eqb_spec (data_addr x2 c2 ((off + tot) / BSIZE)) 0) as [Hz|Hz].
  { apply op_ret. split; [done|]. split; [done|]. exists c2, x2. split; [|by apply Hfull]. split; [done|]. split; [done|].
    exists pins2. split; [done|]. lia. }
  eapply op_step; [apply get_inode_run; by eapply at_inode_lookup|]. pose proof (wr_ok _ _ _ _ _ _ Hw2) as Hf2. rewrite (fo_dev _ _ _ Hf2).
  destruct (lo_data _ _ _ _ (fo_layout _ _ _ Hf2) _ Hin Hz) as [[Hib _ _ _ Hihm] _].
  eapply bread_op; [exact Ht2|apply not_elem_of_nil| |cbn [length]; lia|].
  { destruct (ge_size _ Hgeo). unfold is_block, blockno_ok in *. lia. }
  intros bp s2 Ht3 Hs2. cbv zeta.
  assert (Hai3 : at_inode ip x2 s0 s2) by (by eapply at_inode_same).
  eapply op_step.
  { rewrite Ha. apply Hsrc; [apply Hai3|apply (cs_io _ _ _ _ _ _ _ _ (tx_cache _ _ _ _ _ Ht3))|lia|lia|unfold n in *; lia]. }
  cbn beta iota. set (l' := slice (Z.to_nat tot) (Z.to_nat m) l). assert (Hl' : length l' = Z.to_nat m) by (unfold l', slice; rewrite length_take, length_drop; lia).
  assert (Hlen : ∀ k, length (c2 k) = Z.to_nat BSIZE) by (intros k; by eapply txn_length).
  eapply upd_data_op; [exact Ht3|by left|by rewrite length_splice|]. intros s3 Ht4 Hs3.
  change (0 =? -1) with false. cbn iota.
  eapply (log_write_op _ _ _ _ _ _ _ 0); [exact Ht4|by left|exact Hihm|unfold fits; lia|]. intros s4 Ht5 Hs4.
  eapply brelse_op; [exact Ht5|left; apply elem_of_pin; by left|]. intros s5 Ht6 Hs5. apply op_ret. rewrite !u32_small by lia.
  split; cbn [fst snd].
  - lia.
  - lia.
  - subst a. unfold u64. rewrite Zplus_mod_idemp_l. f_equal. lia.
  - destruct (rounds_step (off + tot) (off + n) m) as [He|[Hl Hr]]; [lia|unfold m; f_equal; lia| |].
    + pose proof (rounds_pos (off + tot) (off + n) ltac:(lia)). split; [|lia]. destruct Hfu as [_ Hfu]. specialize (Hfu Hlt). lia.
    + pose proof (rounds_pos (off + tot + m) (off + n) ltac:(lia)). destruct Hfu as [_ Hfu]. specialize (Hfu Hlt). fold n. split; [lia|]. intros _. lia.
  - fold n. eexists (put_data (data_addr x2 c2 ((off + tot) / BSIZE)) (off + tot) l' c2), x2. split; [|split].
    + replace (Z.to_nat (tot + m)) with (Z.to_nat tot + Z.to_nat m)%nat by lia. rewrite <- take_slice_app. fold l'.
      pose proof (written_put c x off (take (Z.to_nat tot) l) c2 x2 l') as Hput. cbv zeta in Hput. rewrite Hlt1 in Hput.
      apply Hput; try done; try lia; rewrite MAXFILE_eq; unfold BSIZE in *; lia.
    + eapply at_inode_same; [exact Hai3|by rewrite Hs3, Hs4].
    + eexists. split; [exact Ht6|]. pose proof (length_pin (data_addr x2 c2 ((off + tot) / BSIZE)) pins2). lia.
Qed.

(** ** The file after a write *)

(** The inode as [writei] leaves it: it has grown if the bytes go past its end. *)
Definition resized (x : inode) (lim : Z) : inode := if i_size x <? lim then x <| i_size := lim |> else x.

Record file_written (c : Z → list Z) (x : inode) (off : Z) (l : list Z) (c' : Z → list Z) (x' : inode) : Prop := {
  fw_ok : file_ok sb c' x';
  fw_meta : meta_used sb c';
  fw_attr : x' = resized (x <| i_addrs := i_addrs x' |>) (off + Z.of_nat (length l));
  fw_bytes : file_bytes x' c' =
    take (Z.to_nat off) (file_bytes x c) ++ l ++ drop (Z.to_nat off + length l) (file_bytes x c);
  fw_dinode : c' (IBLOCK (i_inum x) sb) = dinode_put (i_inum x mod IPB) (on_disk_inode x') (c (IBLOCK (i_inum x) sb));
  fw_addr : ∀ bn, in_file bn → data_addr x c bn ≠ 0 → data_addr x' c' bn = data_addr x c bn;
  fw_fresh : ∀ bn, in_file bn → data_addr x c bn = 0 → data_addr x' c' bn ≠ 0 → used c (data_addr x' c' bn) = false;
  fw_ind : ind x' = ind x ∨ (ind x = 0 ∧ is_block sb (ind x') ∧ used c (ind x') = false);
  fw_frame : ∀ b, home b → ¬ on_bitmap sb b → (is_block sb b → used c b = true) → b ≠ IBLOCK (i_inum x) sb → b ≠ ind x →
    (∀ bn, in_file bn → data_addr x c bn ≠ 0 → data_addr x c bn ≠ b) → c' b = c b;
  fw_used : ∀ b, is_block sb b → used c b = true → used c' b = true
}.

Lemma resized_addrs x lim : i_addrs (resized x lim) = i_addrs x.
Proof. unfold resized. by destruct (_ <? _). Qed.
Lemma resized_inum x lim : i_inum (resized x lim) = i_inum x.
Proof. unfold resized. by destruct (_ <? _). Qed.
Lemma resized_dev x lim : i_dev (resized x lim) = i_dev x.
Proof. unfold resized. by destruct (_ <? _). Qed.
Lemma resized_size x lim : i_size (resized x lim) = Z.max (i_size x) lim.
Proof. unfold resized. destruct (Z.ltb_spec (i_size x) lim); ksimpl; lia. Qed.

Lemma same_addrs_data x x' c bn : i_addrs x' = i_addrs x → data_addr x' c bn = data_addr x c bn.
Proof. intros He. unfold data_addr, ind, addr_at. by rewrite He. Qed.

Lemma inode_block_apart c x i b : file_ok sb c x → 0 ≤ i < sb_ninodes sb →
  (ind x ≠ 0 → IBLOCK i sb ≠ ind x) ∧ (is_block sb b → IBLOCK i sb ≠ BBLOCK b sb) ∧
  (∀ bn, in_file bn → data_addr x c bn ≠ 0 → IBLOCK i sb ≠ data_addr x c bn).
Proof.
  intros Hf Hi. split; [|split].
  - intros Hz. by apply (lo_ind _ _ _ _ (fo_layout _ _ _ Hf) Hz).
  - intros Hb. by apply (ge_apart _ Hgeo).
  - intros bn Hb Hz. by apply (lo_data _ _ _ _ (fo_layout _ _ _ Hf) bn Hb Hz).
Qed.

Lemma length_file_bytes x c : length (file_bytes x c) = Z.to_nat (i_size x).
Proof. unfold file_bytes. by rewrite length_fmap, length_seq. Qed.

Lemma file_bytes_lookup x c i : (i < Z.to_nat (i_size x))%nat → file_bytes x c !! i = Some (file_byte x c (Z.of_nat i)).
Proof. intros Hi. unfold file_bytes. by rewrite list_lookup_fmap, lookup_seq_lt. Qed.

Lemma written_sealed c x off l c1 x1 (x2 := resized x1 (off + Z.of_nat (length l))) : file_ok sb c x → meta_used sb c →
  written c x off l c1 x1 → 0 ≤ off ≤ i_size x → off + Z.of_nat (length l) ≤ MAXFILE * BSIZE → 0 ≤ i_inum x < sb_ninodes sb →
  file_written c x off l (put_inode x2 c1) x2.
Proof.
  intros Hf Hmu Hw Hoff Hlim Hin. set (lim := off + Z.of_nat (length l)) in *. set (c2 := put_inode x2 c1).
  pose proof (wr_ok _ _ _ _ _ _ Hw) as Hf1.
  assert (Hsz1 : i_size x1 = i_size x) by (rewrite (wr_attr _ _ _ _ _ _ Hw); by destruct x).
  assert (Hnum : i_inum x2 = i_inum x) by (unfold x2; rewrite resized_inum, (wr_attr _ _ _ _ _ _ Hw); by destruct x).
  assert (Hsz2 : i_size x2 = Z.max (i_size x) lim) by (unfold x2; rewrite resized_size, Hsz1; done).
  assert (Hc2 : ∀ b, b ≠ IBLOCK (i_inum x) sb → c2 b = c1 b) by (intros b Hb; unfold c2, put_inode; rewrite fn_lookup_insert_ne; congruence).
  destruct (inode_block_apart c1 x1 (i_inum x) 0 Hf1 Hin) as (Hai & _ & Had).
  assert (HB : ∀ b, is_block sb b → BBLOCK b sb ≠ IBLOCK (i_inum x) sb) by (intros b Hb; symmetry; by apply (ge_apart _ Hgeo)).
  assert (Hind : ind x2 = ind x1) by (unfold ind, addr_at, x2; by rewrite resized_addrs).
  assert (HA : ∀ bn, data_addr x2 c2 bn = data_addr x1 c1 bn).
  { intros bn. rewrite (same_addrs_data x1 x2) by apply resized_addrs. unfold data_addr. destruct (bn <? NDIRECT); [done|].
    destruct (Z.eqb_spec (ind x1) 0) as [|Hz]; [done|]. rewrite Hc2; [done|]. symmetry. by apply Hai. }
  assert (HU : ∀ b, is_block sb b → used c2 b = used c1 b).
  { intros b Hb. unfold AllocSpec.used. rewrite Hc2; [done|]. by apply HB. }
  assert (Hbyte : ∀ o, 0 ≤ o < i_size x2 → file_byte x2 c2 o = file_byte x1 c1 o).
  { intros o Ho. unfold file_byte. rewrite HA, Hc2; [done|]. symmetry. rewrite Hsz2 in Ho. destruct (fo_size _ _ _ Hf).
    apply Had; [apply (in_file_of o (MAXFILE * BSIZE)); [lia|lia|done]|].
    pose proof (Z.mul_div_le o BSIZE ltac:(done)). assert (0 ≤ o / BSIZE) by (apply Z.div_pos; [lia|done]).
    destruct (decide (o < i_size x)); [apply (fo_mapped _ _ _ Hf1)|apply (wr_mapped _ _ _ _ _ _ Hw)]; unfold lim in *; lia. }
  split.
  - destruct Hf1 as [H1 H2 H3 H4 [H5 H6 H7 H8]]. split.
    + unfold x2. by rewrite resized_addrs.
    + rewrite Hsz2. destruct (fo_size _ _ _ Hf). lia.
    + unfold x2. by rewrite resized_dev.
    + intros bn Hb Hlt. rewrite HA, Hsz2 in *. destruct (decide (bn * BSIZE < i_size x)); [apply H4; [done|lia]|].
      apply (wr_mapped _ _ _ _ _ _ Hw); [done|]. unfold lim in *. lia.
    + rewrite Hind. split.
      * intros bn Hb. rewrite HA. intros Hz. destruct (H5 bn Hb Hz) as [Hdb Hu]. split; [done|]. by rewrite HU by apply Hdb.
      * intros Hz. destruct (H6 Hz) as [Hdb Hu]. split; [done|]. by rewrite HU by apply Hdb.
      * intros bn Hb. rewrite HA. by apply H7.
      * intros bn bn' Hb Hb'. rewrite !HA. by apply H8.
  - intros b Hb. rewrite HU by done. by apply (wr_meta _ _ _ _ _ _ Hw).
  - unfold x2 at 2. rewrite resized_addrs. unfold x2. f_equal. apply Hw.
  - apply list_eq. intros i. destruct (decide (i < Z.to_nat (i_size x2))%nat) as [Hi|Hi].
    2:{ rewrite !lookup_ge_None_2; [done| |]; rewrite ?length_app, ?length_take, ?length_drop, ?length_file_bytes; unfold lim in *; lia. }
    rewrite file_bytes_lookup, Hbyte, (wr_bytes _ _ _ _ _ _ Hw) by (unfold lim in *; lia). fold lim.
    destruct (decide (off ≤ Z.of_nat i < lim)) as [Hr|Hr].
    + rewrite lookup_app_r by (rewrite length_take, length_file_bytes; lia). rewrite length_take, length_file_bytes, Nat.min_l by lia.
      rewrite lookup_app_l by (unfold lim in *; lia). replace (Z.to_nat (Z.of_nat i - off)) with (i - Z.to_nat off)%nat by lia.
      destruct (lookup_lt_is_Some_2 l (i - Z.to_nat off)) as [v ->]; [unfold lim in *; lia|done].
    + destruct (decide (i < Z.to_nat off)%nat).
      * rewrite lookup_app_l by (rewrite length_take, length_file_bytes; lia). rewrite lookup_take_lt by done. by rewrite file_bytes_lookup by lia.
      * rewrite lookup_app_r by (rewrite length_take, length_file_bytes; lia). rewrite length_take, length_file_bytes, Nat.min_l by lia.
        rewrite lookup_app_r by (unfold lim in *; lia). rewrite lookup_drop.
        replace (Z.to_nat off + length l + (i - Z.to_nat off - length l))%nat with i by (unfold lim in *; lia). by rewrite file_bytes_lookup by lia.
  - unfold c2, put_inode. rewrite Hnum, fn_lookup_insert. f_equal. apply (wr_frame _ _ _ _ _ _ Hw).
    + intros (b' & Hb' & He). by apply (HB b').
    + intros Hb. destruct (used c (IBLOCK (i_inum x) sb)) eqn:E; [done|]. by destruct (db_inodes _ _ (Hmu _ Hb E) (i_inum x)).
    + destruct (inode_block_apart c x (i_inum x) 0 Hf Hin) as (Hai' & _). destruct (decide (ind x = 0)) as [Hz|Hz]; [|by apply Hai'].
      destruct (IBLOCK_ok (i_inum x) Hin) as [-> _]. destruct (ge_inodes _ Hgeo) as (H1 & _).
      assert (0 ≤ i_inum x / IPB) by (apply Z.div_pos; [lia|done]). lia.
    + intros bn Hb Hz. symmetry. by apply (inode_block_apart c x (i_inum x) 0 Hf Hin).
  - intros bn. rewrite HA. apply Hw.
  - intros bn. rewrite HA. apply Hw.
  - rewrite Hind. apply Hw.
  - intros b _ Hnb Hu Hbi Hbx Hbd. rewrite Hc2 by done. by apply (wr_frame _ _ _ _ _ _ Hw).
  - intros b Hb Hu. rewrite HU by done. by apply (wr_used _ _ _ _ _ _ Hw).
Qed.

Lemma full_put_inode x c : 0 ≤ i_inum x < sb_ninodes sb → full sb c → full sb (put_inode x c).
Proof.
  intros Hin Hf b Hb. unfold AllocSpec.used, put_inode. rewrite fn_lookup_insert_ne; [by apply Hf|].
  by apply (ge_apart _ Hgeo).
Qed.

(** What [writei] leaves when it returns [tot]. *)
Record writei_post (ip : nat) (c : Z → list Z) (x : inode) (pins : list Z) (off : Z) (l : list Z) (d : disk) (s : kernel)
    (tot : Z) (s' : kernel) (c' : Z → list Z) (x' : inode) : Prop := {
  wp_tot : 0 ≤ tot ≤ Z.of_nat (length l) ∧ (tot = Z.of_nat (length l) ∨ full sb c');
  wp_file : file_written c x off (take (Z.to_nat tot) l) c' x';
  wp_inode : at_inode ip x' s s';
  wp_txn : ∃ pins', txn c' pins' [] s' d ∧
    (length pins' ≤ length pins + 6 * remaining off (off + Z.of_nat (length l)) + 1)%nat
}.

Lemma writei_end ip c x pins off l d s0 s tot c1 x1 budget : mounted sb s0 → file_ok sb c x → meta_used sb c →
  0 ≤ off ≤ i_size x → off + Z.of_nat (length l) ≤ MAXFILE * BSIZE → 0 ≤ i_inum x < sb_ninodes sb →
  0 ≤ tot ≤ Z.of_nat (length l) → written_at ip c x off (take (Z.to_nat tot) l) budget d s0 s c1 x1 →
  (tot = Z.of_nat (length l) ∨ full sb c1) → (budget + 5 ≤ NBUF)%nat →
  (budget ≤ length pins + 6 * remaining off (off + Z.of_nat (length l)))%nat →
  op d ((x ← get_inode ip;
         when (i_size x <? off + tot) (upd_inode ip (λ x, x <| i_size := off + tot |>));;
         iupdate ip;;
         mret (i32 tot)) s)
    (λ r s', r = tot ∧ ∃ c' x', writei_post ip c x pins off l d s0 tot s' c' x').
Proof.
  intros Hm Hf Hmu Hoff Hlim Hin Htot (Hw & Hai & pins1 & Ht & Hp) Hend Hbud Hbp.
  pose proof (fo_bound _ _ Hf) as Hsz. rewrite MAXFILE_eq in Hlim. change (268 * BSIZE) with 274432 in Hlim.
  assert (Hlt : Z.of_nat (length (take (Z.to_nat tot) l)) = tot) by (rewrite length_take; lia).
  eapply op_step; [apply get_inode_run; by eapply at_inode_lookup|]. cbn beta.
  set (x2 := resized x1 (off + tot)).
  assert (Hattr : i_inum x2 = i_inum x ∧ i_dev x2 = dev).
  { unfold x2. rewrite resized_inum, resized_dev. split; [|apply (fo_dev _ _ _ (wr_ok _ _ _ _ _ _ Hw))].
    rewrite (wr_attr _ _ _ _ _ _ Hw). by destruct x. }
  destruct Hattr as [Hnum Hdv].
  eapply (op_bind _ _ _ _ (λ _ s', txn c1 pins1 [] s' d ∧ at_inode ip x2 s0 s')).
  { unfold x2, resized. destruct (i_size x1 <? off + tot); cbn [when]; [|by apply op_ret].
    rewrite (upd_inode_run ip _ s x1) by (by eapply at_inode_lookup). apply op_ret.
    destruct (txn_itable c1 pins1 [] s d (λ l, <[ip := x1 <| i_size := off + tot |>]> l) Ht) as [Ht' He]. split; [done|].
    destruct Hai as [Hi Hl He0]. split; [ksimpl; by rewrite Hi, list_insert_insert_eq|done|by rewrite He0]. }
  intros _ s2 [Ht2 Hai2].
  eapply op_bind; [eapply (iupdate_op ip c1 x2 pins1 s2 d 0); [done|by eapply mounted_at|by eapply at_inode_lookup|done|by rewrite Hnum|unfold fits; lia]|].
  intros _ s3 [Ht3 Hs3]. apply op_ret. split; [apply i32_small; lia|]. exists (put_inode x2 c1), x2.
  pose proof (written_sealed c x off (take (Z.to_nat tot) l) c1 x1 Hf Hmu Hw Hoff) as Hsl. rewrite Hlt in Hsl. split.
  - split; [done|]. destruct Hend as [|Hfull]; [by left|right]. apply full_put_inode; [by rewrite Hnum|done].
  - apply Hsl; [rewrite MAXFILE_eq; unfold BSIZE; lia|done].
  - by eapply at_inode_same.
  - eexists. split; [exact Ht3|]. pose proof (length_pin (IBLOCK (i_inum x2) sb) pins1). lia.
Qed.

Lemma writei_op ip us src off l c x pins s d :
  txn c pins [] s d → mounted sb s → k_itable s !! ip = Some x → file_ok sb c x → meta_used sb c →
  0 ≤ i_inum x < sb_ninodes sb → 0 ≤ off ≤ i_size x → off + Z.of_nat (length l) ≤ MAXFILE * BSIZE →
  0 ≤ src < 2 ^ 64 → source us src l s → fits pins (6 * remaining off (off + Z.of_nat (length l)) + 1) →
  op d (writei ip us src off (Z.of_nat (length l)) s)
    (λ r s', ∃ c' x', writei_post ip c x pins off l d s r s' c' x').
Proof.
  intros Ht Hm Hx Hf Hmu Hin Hoff Hlim Hsrc Hs Hfit. set (n := Z.of_nat (length l)) in *. pose proof (fo_bound _ _ Hf) as Hsz.
  pose proof Hlim as Hlim'. rewrite MAXFILE_eq in Hlim. change (268 * BSIZE) with 274432 in Hlim. unfold writei.
  eapply op_step; [by apply get_inode_run|]. rewrite u32_small by lia. rewrite (proj2 (Z.ltb_ge (i_size x) off)), (proj2 (Z.ltb_ge (off + n) off)) by lia.
  cbn [orb]. rewrite (proj2 (Z.ltb_ge (MAXFILE * BSIZE) (off + n))) by lia.
  set (budget := (length pins + 6 * remaining off (off + n))%nat).
  eapply (op_bind _ _ _ _ (λ r s', r.2 = off + r.1 ∧ 0 ≤ r.1 ≤ n ∧ ∃ c' x', written_at ip c x off (take (Z.to_nat r.1) l) budget d s s' c' x' ∧
    (r.1 = n ∨ full sb c'))).
  - eapply (op_while d _ (λ fuel st s', writing ip x c d off src l budget s fuel st s')).
    + intros fuel [[tot o] a] s1 Hr. destruct (Z.ltb_spec tot n) as [Hlt|Hge].
      * pose proof (wg_off _ _ _ _ _ _ _ _ _ _ _ _ Hr) as Ho. pose proof (wg_tot _ _ _ _ _ _ _ _ _ _ _ _ Hr) as Htot. cbn [fst snd] in Ho, Htot.
        pose proof (remaining_mono off o (off + n) ltac:(lia)).
        eapply op_mono; [apply (writei_round ip us src off l c x s d budget fuel tot o a s1); try done; fold n; unfold fits, budget in *; lia|].
        intros [st|[t o']] s2; cbn beta iota; [done|].
        intros (-> & -> & c' & x' & Hw & Hfull). cbn [fst snd]. split; [done|]. split; [lia|]. exists c', x'. split; [done|]. by right.
      * destruct Hr as [Htot Ho _ _ (c' & x' & Hw)]. cbn [fst snd] in *. assert (tot = n) as -> by (unfold n in *; lia).
        apply op_ret. cbn [fst snd]. split; [done|]. split; [lia|]. exists c', x'. split; [|by left].
        destruct Hw as (Hw & Hai & pins' & Ht' & Hp'). split; [done|]. split; [done|]. exists pins'. split; [done|]. lia.
    + intros st s1 [_ _ _ [Hf0 _] _]. lia.
    + split; cbn [fst snd]; try done; [lia|by rewrite Z.add_0_r|by rewrite Z.add_0_r, u64_small| |].
      * split; [unfold block_fuel; lia|]. intros Hlt. apply rounds_fuel; [lia|done].
      * exists c, x. rewrite take_0. split; [by apply written_nil|]. split; [by apply at_inode_refl|]. exists pins. split; [done|].
        unfold budget. fold n. lia.
  - intros [tot o] s1 (Ho & Htot & c1 & x1 & Hw & Hend). cbn [fst snd] in *. subst o. 
    eapply op_mono; [eapply (writei_end ip c x pins off l d s s1 tot c1 x1 budget); try done; unfold fits, budget in *; fold n; lia|].
    intros r s2 (-> & Hp). exact Hp.
Qed.

End file.
