(* ===== verification/TransSpec.v ===== *)
(** * Transactions

    [begin_op], the body of a system call, [end_op]: the body runs on the
    blocks as the process sees them (TxnSpec.v) and the commit at the end makes them the file
    system, atomically with respect to crashes (CrashSpec.v). *)

From S2P Require Import Prelude Decimal Riscv State Boot Spinlock ProcTable Machine CString Kalloc Vm Printf Sched SchedSpec Sleeplock SleeplockSpec FsDefs Virtio Bio BioSpec Frame Log LogSpec DiskSpec CacheSpec PrintfSpec CrashSpec TxnSpec Fs AllocSpec InodeSpec.

Section trans.
Context `{IM : Image, DV : Device, PT : Patience, OW : Own, SS : !Session}.

Abbreviation cst := (cache_st me my_pid dev).
Abbreviation cwp := (cwp serve me my_pid).
Abbreviation recovers := (recovers log_start).
Abbreviation same_files := (same_files log_start).

(** Between operations: the cache agrees with the disk, and the log is empty in memory and
    on the disk. *)
Record quiet (s : kernel) (d : disk) : Prop := {
  q_cache : cst (block d) [] [] s d;
  q_where : lg_start (k_log s) = log_start ∧ lg_dev (k_log s) = dev;
  q_len : length (lh_block (k_log s)) = Z.to_nat LOGBLOCKS;
  q_n : lh_n (k_log s) = 0;
  q_open : lg_outstanding (k_log s) = 0 ∧ lg_committing (k_log s) = 0;
  q_header : hd_n (block d log_start) = 0
}.

Lemma begin_st s d : quiet s d →
  ∃ s', begin_op s = Ret tt s' ∧ txn (block d) [] [] s' d ∧ same_rest s s'.
Proof.
  intros [Hst [Hw1 Hw2] Hlen Hn [Ho Hc] Hh]. destruct (cs_io _ _ _ _ _ _ _ _ Hst) as [[Hhart _ _ Hlk _ _] _].
  exists (s <| k_log ::= opened |>). split; [|split; [|by split]].
  - apply (begin_op_run 0); [done|by apply Hlk, io_lock_log|]. split; [done|]. rewrite Hn, Ho. unfold LOGBLOCKS, MAXOPBLOCKS. lia.
  - split; ksimpl; try done.
    + by apply cache_st_log.
    + unfold blocks, opened. ksimpl. by rewrite Hn.
    + apply NoDup_nil_2.
    + intros n Hin. by apply not_elem_of_nil in Hin.
    + unfold opened. ksimpl. by rewrite Ho.
Qed.

(** ** end_op *)

Lemma pins_seq (pins : list Z) : (λ i, default 0 (pins !! i)) <$> seq 0 (length pins) = pins.
Proof.
  apply list_eq. intros i. rewrite list_lookup_fmap. destruct (decide (i < length pins)%nat) as [Hi|Hi].
  - rewrite lookup_seq_lt by done. cbn. destruct (lookup_lt_is_Some_2 pins i Hi) as [x ->]. done.
  - rewrite !lookup_ge_None_2 by (rewrite ?length_seq; lia). done.
Qed.

Lemma txn_log_at c pins H s d : txn c pins H s d → Z.of_nat (length pins) ≤ LOGBLOCKS →
  log_at dev log_start (λ i, default 0 (pins !! i)) (length pins) (k_log s).
Proof.
  intros [Hst Hl Hn Hp Hd Hh [Hw1 Hw2] Ho] Hle. split; try done.
  - intros i Hi. rewrite <- Hp. unfold blocks. rewrite list_lookup_fmap, lookup_take_lt by lia.
    destruct (lookup_lt_is_Some_2 (lh_block (k_log s)) i) as [x ->]; [lia|done].
  - intros i Hi. apply Hh. destruct (lookup_lt_is_Some_2 pins i Hi) as [x Hx]. rewrite Hx. by eapply list_elem_of_lookup_2.
Qed.

Lemma cst_hw_log c pins H s d f h : cst c pins H s d → h = k_hw s → cst c pins H (s <| k_hw := h |> <| k_log ::= f |>) d.
Proof. intros Hst ->. apply cache_st_log. by rewrite kernel_hw_id. Qed.

Lemma cst_woken c pins H s d ch : cst c pins H s d → cst c pins H (s <| k_procs ::= imap (woken (cur_proc (k_hw s)) ch) |>) d.
Proof.
  intros [[Hu Hv] Hwf Hb Hh Hf Hp Hd Hl Hc]. split; try done.
  - split; [|done]. by apply disk_user_woken.
  - intros b bn Hin. by destruct (Hh b bn Hin).
Qed.

Lemma cst_clean c s e : cst c [] [] s e → cst (block e) [] [] s e.
Proof.
  intros [Hio Hwf Hb Hh Hf Hp Hd Hl Hc]. split; try done.
  - intros b x Hlt Hx. destruct (Hb b x Hlt Hx) as [Hr Hdt]. split; [done|]. intros Hv Hdv. destruct (Hdt Hv Hdv) as [Hok ->].
    split; [done|]. apply Hc; apply not_elem_of_nil.
Qed.

Lemma empty_recovers g d : hd_n (block d log_start) = 0 → same_files (block d) g → recovers g d.
Proof. intros Hd Hg. split; [by apply header_empty|]. by rewrite recovered_empty. Qed.

(** [end_op] without the commit: the operation is closed before it, the log opened
    again after it. *)
Definition closing (s : kernel) : kernel := s <| k_log ::= λ lg, closed lg <| lg_committing := 1 |> |>.
Definition closed_op : M unit :=
  acquire L_log;; upd_log (λ lg, lg <| lg_committing := 0 |>);; wakeup Ch_log;; release L_log.

Lemma end_op_run c pins s d : txn c pins [] s d → end_op s = bind_res (commit (closing s)) (λ _ t, closed_op t).
Proof.
  intros Ht. destruct (cs_io _ _ _ _ _ _ _ _ (tx_cache _ _ _ _ _ Ht)) as [[Hh _ _ Hlk _ _] _]. destruct (tx_open _ _ _ _ _ Ht) as [Ho Hc].
  unfold end_op. mrun_with (acquire_run 0 _ s Hh (Hlk _ io_lock_log)). unfold upd_log, get_log. mrun. ksimpl. rewrite Hc, Ho. cbn [truth Z.eqb negb]. change (i32 (1 - 1) =? 0) with true. cbn iota.
  mrun.
  mrun_with (release_run 0 L_log (k_hw s)); [|done|by apply Hlk, io_lock_log|done]. unfold closing. by destruct s.
Qed.

Lemma closed_op_run c t d : cst c [] [] t d →
  ∃ t', closed_op t = Ret tt t' ∧ cst c [] [] t' d ∧ same_rest t t' ∧ k_log t' = k_log t <| lg_committing := 0 |>.
Proof.
  intros Hst. destruct (cs_io _ _ _ _ _ _ _ _ Hst) as [[Hh _ Hp Hlk Hlen _] _].
  unfold closed_op. mrun_with (acquire_run 0 _ t Hh (Hlk _ io_lock_log)). unfold upd_log. mrun.
  mrun_with (wakeup_run 1).
  2:{ split; ksimpl; [by apply (hart_at_acq 0)| |done]. intros i Hi. apply lock_free_acq; [done|by apply Hp]. }
  mrun_with (release_run 0 L_log (k_hw t)); [|done|by apply Hlk, io_lock_log|done]. eexists. split; [done|]. split; [|split; [by split|done]].
  assert (cst c [] [] (t <| k_log ::= λ lg, lg <| lg_committing := 0 |> |> <| k_procs ::= imap (woken (cur_proc (acq L_log (k_hw t))) Ch_log) |>) d) as H0.
  { rewrite cur_proc_acq. exact (cst_woken _ _ _ _ _ Ch_log (cache_st_log _ _ _ _ _ _ (λ lg, lg <| lg_committing := 0 |>) _ _ Hst)). }
  by destruct t.
Qed.

Lemma quiet_ends c s1 t e lg : cst c [] [] t e → same_rest s1 t → k_log t = lg → hd_n (block e log_start) = 0 →
  lg_start lg = log_start → lg_dev lg = dev → length (lh_block lg) = Z.to_nat LOGBLOCKS → lh_n lg = 0 → lg_outstanding lg = 0 →
  cwp (λ f, f = e) (λ _ s' f, f = e ∧ quiet s' f ∧ same_rest s1 s') e (closed_op t).
Proof.
  intros Hst Hr Hlg Hh Hw1 Hw2 Hl Hn Ho. destruct (closed_op_run c t e Hst) as (t' & Hrun & Hst' & Hr' & Hlg').
  rewrite Hrun. split; [done|]. split; [done|]. split; [|by transitivity t].
  split; rewrite ?Hlg', ?Hlg; try done. by apply (cst_clean c).
Qed.

Lemma end_op_cwp c pins s d : txn c pins [] s d → (length pins < NBUF)%nat → hd_n (block d log_start) = 0 →
  cwp (λ e, recovers (block d) e ∨ recovers c e)
    (λ _ s' e, quiet s' e ∧ same_files (block e) c ∧ same_rest s s') d (end_op s).
Proof.
  intros Ht Hlt Hh. pose proof Ht as [Hst Hl Hn Hp Hd Hph [Hw1 Hw2] [Ho Hcm]]. rewrite (end_op_run _ _ _ _ Ht).
  set (s1 := closing s). assert (same_rest s s1) as Hr1 by by split.
  assert (cst c pins [] s1 d) as Hst1 by (by apply cache_st_log).
  assert (k_log s1 = closed (k_log s) <| lg_committing := 1 |>) as Hlg by done.
  assert (lg_outstanding (k_log s1) = 0) as Ho1 by (rewrite Hlg; unfold closed; ksimpl; by rewrite Ho).
  assert (Hdone : ∀ c' t e, cst c' [] [] t e → same_rest s1 t → k_log t = k_log s1 <| lh_n := 0 |> → hd_n (block e log_start) = 0 →
      same_files (block e) c → (∀ f, f = e → recovers (block d) f ∨ recovers c f) →
      cwp (λ e, recovers (block d) e ∨ recovers c e) (λ _ s' e, quiet s' e ∧ same_files (block e) c ∧ same_rest s s') e (closed_op t)).
  { intros c' t e Hst' Hr Hlg' He Hf Hcr. eapply cwp_mono; [eapply (quiet_ends c' s1 t e _ Hst' Hr Hlg'); try done| |].
    - exact Hcr.
    - intros [] s' f (-> & Hq & Hr'). split; [done|]. split; [done|]. by transitivity s1. }
  destruct (decide (pins = [])) as [->|Hne].
  - unfold commit, get_log. rewrite bind_run. msimpl. assert (lh_n (k_log s1) = 0) as Hn1 by done. rewrite Hn1. cbn [Z.ltb Z.compare when]. cbn.
    assert (∀ bn, c bn = block d bn) as Hcd by (intros bn; apply (cs_clean _ _ _ _ _ _ _ _ Hst); apply not_elem_of_nil).
    apply (Hdone c); try done.
    + rewrite <- Hn1. by destruct (k_log s1).
    + intros bn _. by rewrite Hcd.
    + intros f ->. left. by apply empty_recovers.
  - pose proof (pins_seq pins) as Hps. set (dst := λ i, default 0 (pins !! i)) in *.
    assert (Z.of_nat (length pins) ≤ LOGBLOCKS) as Hle by (unfold NBUF, LOGBLOCKS, MAXOPBLOCKS in *; lia).
    eapply cwp_bind.
    { apply (commit_cwp serve serve_ok me my_pid dev dev_ok patient uart_ok log_start log_start_ok dst (length pins) c s1 d (k_log s1)); rewrite ?Hps; try done.
      - destruct (txn_log_at c pins [] s d Ht Hle). by split.
      - destruct pins; [done|]. cbn. cbn in Hlt. lia. }
    cbn beta. intros [] t e [(c' & Hst') Hf He Hlg' Hr']. apply (Hdone c'); try done.
    intros f ->. right. by apply empty_recovers.
Qed.

(** ** Parts of a transaction *)

(** An operation in a transaction, and then the rest. *)
Lemma op_cwp {A B} d s (m : M A) (g : A → M B) Q' Cr Q :
  op d (m s) Q' → Cr d → (∀ a s', Q' a s' → cwp Cr Q d (g a s')) → cwp Cr Q d ((m ≫= g) s).
Proof.
  intros Hm Hc Hg. rewrite bind_run. eapply cwp_bind; [eapply cwp_mono; [exact Hm|intros e ->; exact Hc|intros a s' e H; exact H]|].
  cbn beta. intros a s' e [-> HQ]. by apply Hg.
Qed.

(** A loop with an invariant that bounds the rounds left. *)
Lemma cwp_while {X B} Cr (body : X → M (X + B)) (I : nat → X → kernel → disk → Prop) Q :
  (∀ n x s d, I (S n) x s d → cwp Cr (λ r s' d', match r with inl x' => I n x' s' d' | inr b => Q b s' d' end) d (body x s)) →
  (∀ x s d, ¬ I 0%nat x s d) → (∀ b s d, Q b s d → Cr d) →
  ∀ n x s d, I n x s d → cwp Cr Q d (while_ n body x s).
Proof.
  intros Hb H0 Hc n. induction n as [|n IH]; intros x s d HI; [by destruct (H0 x s d)|].
  cbn [while_]. rewrite bind_run. eapply cwp_bind; [by apply Hb|]. intros [x'|b] s' d' HI'; [by apply IH|].
  split; [by eapply Hc|done].
Qed.

Lemma cst_ilock c pins H s d ip k : cst c pins H s d → cst c pins H (s <| k_sleeplocks ::= <[SL_inode ip := k]> |>) d.
Proof.
  intros [[Hu Hv] [l Hw] Hb Hh Hf Hp Hd Hl Hc]. split; try done.
  - exists l. destruct Hw as [H1 H2 H3 H4]. split; try done. intros b x Hlt Hx. destruct (H4 b x Hlt Hx) as (k' & Hk & Hz).
    exists k'. split; [|done]. ksimpl. by rewrite lookup_insert_ne.
  - intros b bn Hin. destruct (Hh b bn Hin) as [? ? (k' & Hk & ?)]. split; try done. exists k'. split; [|done].
    ksimpl. by rewrite lookup_insert_ne.
  - intros b k' Hlt Hn Hk. change (<[SL_inode ip := k]> (k_sleeplocks s) !! SL_buf b = Some k') in Hk. rewrite lookup_insert_ne in Hk by done. by eapply Hf.
Qed.

Lemma txn_cst c pins H s s' d : txn c pins H s d → k_log s' = k_log s → cst c pins H s' d → txn c pins H s' d.
Proof. intros [Hst Hl Hn Hp Hd Hh Hw Ho] Hlog Hst'. split; rewrite ?Hlog; done. Qed.

Lemma inode_user c pins H s d ip : cst c pins H s d → (ip < NINODE)%nat →
  ∃ y, sl_user (SL_inode ip) me y s ∧ p_pid y = my_pid.
Proof.
  intros Ht Hip. destruct (cs_io _ _ _ _ _ _ _ _ Ht) as [[Hh Hc Hp Hl Hlen (y & Hy & Hpid & _)] _].
  exists y. split; [|done]. split; try done. by apply Hl, io_lock_inode.
Qed.

(** ** Locking an inode whose contents are in memory *)

(** All but the processes and the lock of inode [ip]. *)
Definition locked (ip : nat) (k : sleeplock) (s : kernel) : kernel := s <| k_sleeplocks ::= <[SL_inode ip := k]> |>.

Lemma ilock_run c pins H s d ip x k : cst c pins H s d → (ip < NINODE)%nat → k_itable s !! ip = Some x → 1 ≤ i_ref x → i_valid x ≠ 0 →
  k_sleeplocks s !! SL_inode ip = Some k → sl_locked k = 0 →
  ilock ip s = Ret tt (locked ip (sl_taken my_pid k) s) ∧ cst c pins H (locked ip (sl_taken my_pid k) s) d.
Proof.
  intros Ht Hip Hx Hr Hv Hk Hz. destruct (inode_user _ _ _ _ _ _ Ht Hip) as (y & Hu & Hpid). rewrite <- Hpid. split.
  - unfold ilock. mrun_with (get_inode_run ip s x Hx). rewrite (proj2 (Z.ltb_ge _ _)) by lia.
    mrun_with (acquiresleep_free _ _ _ _ _ Hu Hk Hz). unfold get_inode. mrun. ksimpl. rewrite Hx. mrun.
    by rewrite (proj2 (Z.eqb_neq _ _) Hv).
  - rewrite Hpid. by apply cst_ilock.
Qed.

Definition unlocked (ip : nat) (k : sleeplock) (s : kernel) : kernel :=
  s <| k_sleeplocks ::= <[SL_inode ip := sl_free k]> |> <| k_procs ::= imap (woken (Some me) (Ch_sleeplock (SL_inode ip))) |>.

Lemma iunlock_run c pins H s d ip x k : cst c pins H s d → (ip < NINODE)%nat → k_itable s !! ip = Some x → 1 ≤ i_ref x →
  k_sleeplocks s !! SL_inode ip = Some k → sl_locked k ≠ 0 → sl_pid k = my_pid →
  iunlock ip s = Ret tt (unlocked ip k s) ∧ cst c pins H (unlocked ip k s) d.
Proof.
  intros Ht Hip Hx Hr Hk Hz Hp. destruct (inode_user _ _ _ _ _ _ Ht Hip) as (y & Hu & Hpid). split.
  - unfold iunlock. mrun_with (holdingsleep_run _ _ _ _ _ Hu Hk). unfold truth. rewrite (proj2 (Z.eqb_neq _ _) Hz), Hp, Hpid, Z.eqb_refl. cbn.
    mrun_with (get_inode_run ip s x Hx). rewrite (proj2 (Z.ltb_ge _ _)) by lia. by apply (releasesleep_run _ _ _ _ _ Hu).
  - pose proof (cst_ilock _ _ _ _ _ ip (sl_free k) Ht) as Hst.
    pose proof (cst_woken _ _ _ _ _ (Ch_sleeplock (SL_inode ip)) Hst) as Hst'. unfold unlocked. rewrite <- (su_cur _ _ _ _ Hu). exact Hst'.
Qed.

End trans.
