(* ===== verification/WriteSpec.v ===== *)
(** * Writing files in transactions

    [filewrite] cuts a write into transactions.  How the writes of successive transactions
    compose, and what a crash leaves of the whole. *)

From S2P Require Import Prelude Decimal Riscv State Boot Spinlock ProcTable Machine CString Kalloc Vm VmSpec UserMem Printf Sched SchedSpec Sleeplock SleeplockSpec FsDefs Virtio Bio BioSpec Frame Log LogSpec DiskSpec CacheSpec PrintfSpec CrashSpec TxnSpec Fs AllocSpec InodeSpec FileSpec TransSpec Pipe Console File.

Lemma splice_splice_same {A} i (l l' k : list A) : length l = length l' → (i + length l ≤ length k)%nat →
  splice i l (splice i l' k) = splice i l k.
Proof.
  intros Hl Hk. unfold splice. rewrite !(take_ge l), !(take_ge l') by (rewrite ?length_app, ?length_take, ?length_drop; lia).
  rewrite take_app_length' by (rewrite length_take; lia). f_equal. f_equal.
  rewrite drop_app_ge by (rewrite length_take; lia). rewrite length_take, Nat.min_l by lia.
  rewrite drop_app_ge by lia. rewrite drop_drop. f_equal. lia.
Qed.

Section write.
Context `{IM : Image, DV : Device, PT : Patience, OW : Own, SS : !Session} (sb : superblock) (Hgeo : geometry sb).

Abbreviation used := (used sb).
Abbreviation file_written := (file_written sb).

(** ** Blocks outside the log decide *)

Lemma used_ext c g b : (∀ b, home b → g b = c b) → is_block sb b → used g b = used c b.
Proof. intros He Hb. unfold AllocSpec.used. rewrite He; [done|]. by apply ge_bmap_home. Qed.

Lemma data_addr_ext c g x bn : (∀ b, home b → g b = c b) → file_ok sb c x → data_addr x g bn = data_addr x c bn.
Proof.
  intros He Hf. unfold data_addr. destruct (bn <? NDIRECT); [done|]. destruct (Z.eqb_spec (ind x) 0) as [|Hz]; [done|].
  rewrite He; [done|]. apply (lo_ind _ _ _ _ (fo_layout _ _ _ Hf) Hz).
Qed.

Lemma file_ok_ext c g x : (∀ b, home b → g b = c b) → file_ok sb c x → file_ok sb g x.
Proof.
  intros He Hf. pose proof Hf as [H1 H2 H3 H4 [H5 H6 H7 H8]]. split; try done.
  - intros bn. rewrite (data_addr_ext c) by done. apply H4.
  - split.
    + intros bn Hb. rewrite (data_addr_ext c) by done. intros Hz. destruct (H5 bn Hb Hz) as [Hdb Hu]. split; [done|].
      by rewrite (used_ext c) by (done || apply Hdb).
    + intros Hz. destruct (H6 Hz) as [Hdb Hu]. split; [done|]. by rewrite (used_ext c) by (done || apply Hdb).
    + intros bn Hb. rewrite (data_addr_ext c) by done. by apply H7.
    + intros bn bn' Hb Hb'. rewrite (data_addr_ext c g x bn), (data_addr_ext c g x bn') by done. by apply H8.
Qed.

Lemma meta_used_ext c g : (∀ b, home b → g b = c b) → meta_used sb c → meta_used sb g.
Proof. intros He Hm b Hb. rewrite (used_ext c) by done. by apply Hm. Qed.

Lemma mapped_block c x o : file_ok sb c x → 0 ≤ o < i_size x → in_file (o / BSIZE) ∧ data_addr x c (o / BSIZE) ≠ 0.
Proof.
  intros Hf Ho. destruct (fo_size _ _ _ Hf). split; [apply (in_file_of _ (i_size x)); lia|].
  pose proof (Z.mul_div_le o BSIZE ltac:(done)). apply (fo_mapped _ _ _ Hf); [apply Z.div_pos; [lia|done]|lia].
Qed.

Lemma file_bytes_ext c g x : (∀ b, home b → g b = c b) → file_ok sb c x → file_bytes x g = file_bytes x c.
Proof.
  intros He Hf. apply list_eq. intros i. destruct (decide (i < Z.to_nat (i_size x))%nat) as [Hi|Hi].
  - rewrite !file_bytes_lookup by done. f_equal. unfold file_byte. rewrite (data_addr_ext c) by done.
    destruct (mapped_block c x (Z.of_nat i) Hf) as [Hin Hz]; [lia|]. rewrite He; [done|].
    by apply (lo_data _ _ _ _ (fo_layout _ _ _ Hf) _ Hin Hz).
  - by rewrite !lookup_ge_None_2 by (rewrite length_file_bytes; lia).
Qed.

Lemma file_written_ext c x off l c' x' g : (∀ b, home b → g b = c' b) → 0 ≤ i_inum x < sb_ninodes sb →
  file_written c x off l c' x' → file_written c x off l g x'.
Proof.
  intros He Hin Hw. pose proof Hw as [H1 H2 H3 H4 H5 H6 H7 H8 H9 H10]. split; try done.
  - by apply (file_ok_ext c').
  - by apply (meta_used_ext c').
  - by rewrite (file_bytes_ext c').
  - rewrite He; [done|]. by apply ge_inodes_home.
  - intros bn. rewrite (data_addr_ext c' g x') by done. apply H6.
  - intros bn. rewrite (data_addr_ext c' g x') by done. apply H7.
  - intros b Hb. rewrite He by done. by apply H9.
  - intros b Hb. rewrite (used_ext c' g) by done. by apply H10.
Qed.

(** ** One write after another *)

Lemma length_dinode_bytes x : length (di_addrs x) = 13%nat → length (dinode_bytes x) = 64%nat.
Proof.
  intros Hl. unfold dinode_bytes. rewrite !length_app, !length_le_bytes.
  assert (∀ l : list Z, length (l ≫= le_bytes 4) = (4 * length l)%nat) as Hb.
  { intros l. induction l as [|a l IH]; [done|]. cbn [mbind list_bind length]. rewrite length_app, length_le_bytes.
    rewrite IH. lia. }
  rewrite Hb, Hl. done.
Qed.

Lemma dinode_put_twice k x y data : 0 ≤ k < IPB → length data = Z.to_nat BSIZE → length (di_addrs x) = 13%nat → length (di_addrs y) = 13%nat →
  dinode_put k x (dinode_put k y data) = dinode_put k x data.
Proof.
  intros Hk Hl Hx Hy. unfold dinode_put. apply splice_splice_same; rewrite !length_dinode_bytes by done; [done|].
  rewrite Hl. change IPB with 16 in Hk. unfold DINODE_SIZE, BSIZE. lia.
Qed.

Lemma resized_eq x lim : resized x lim = x <| i_size := Z.max (i_size x) lim |>.
Proof. unfold resized. destruct (Z.ltb_spec (i_size x) lim); [by rewrite Z.max_r by lia|]. rewrite Z.max_l by lia. by destruct x. Qed.

Lemma file_written_app c x off l1 c1 x1 l2 c2 x2 : 
  (∀ b, length (c b) = Z.to_nat BSIZE) → file_ok sb c x → 0 ≤ off ≤ i_size x → off + Z.of_nat (length l1 + length l2) ≤ MAXFILE * BSIZE →
  file_written c x off l1 c1 x1 → file_written c1 x1 (off + Z.of_nat (length l1)) l2 c2 x2 →
  file_written c x off (l1 ++ l2) c2 x2.
Proof.
  intros Hlen Hf Hoff Hlim Hw1 Hw2.
  pose proof Hw1 as [A1 A2 A3 A4 A5 A6 A7 A8 A9 A10]. pose proof Hw2 as [B1 B2 B3 B4 B5 B6 B7 B8 B9 B10].
  assert (Hnum : i_inum x1 = i_inum x) by (rewrite A3, resized_inum; by destruct x).
  assert (Hbl : length (file_bytes x c) = Z.to_nat (i_size x)) by apply length_file_bytes.
  assert (Hub : ∀ b, is_block sb b → used c1 b = false → used c b = false).
  { intros b Hb Hu. destruct (used c b) eqn:E; [|done]. by rewrite A10 in Hu. }
  split; try done.
  - rewrite B3 at 1. rewrite length_app, Nat2Z.inj_add. rewrite A3, !resized_eq. ksimpl.
    rewrite <- Z.max_assoc, (Z.max_r (off + Z.of_nat (length l1))), Z.add_assoc by lia. by destruct x.
  - rewrite B4, A4. rewrite length_app. replace (Z.to_nat (off + Z.of_nat (length l1))) with (Z.to_nat off + length l1)%nat by lia.
    set (A := take (Z.to_nat off) (file_bytes x c)). assert (length A = Z.to_nat off) as HA by (unfold A; rewrite length_take; lia).
    rewrite (app_assoc A l1), take_app_length' by (rewrite length_app; lia). rewrite <- !app_assoc. do 3 f_equal.
    rewrite (app_assoc A l1), drop_app_ge by (rewrite length_app; lia). rewrite length_app, drop_drop. f_equal. lia.
  - rewrite Hnum in B5. rewrite B5, A5. apply dinode_put_twice; [by apply Z.mod_pos_bound|done|apply (fo_len _ _ _ B1)|apply (fo_len _ _ _ A1)].
  - intros bn Hb Hz. rewrite B6, A6; [done|done|done|done|]. by rewrite A6.
  - intros bn Hb Hz Hnz. destruct (decide (data_addr x1 c1 bn = 0)) as [Hz1|Hz1].
    + apply Hub; [|by apply B7]. by apply (lo_data _ _ _ _ (fo_layout _ _ _ B1) bn Hb Hnz).
    + rewrite B6 by done. by apply A7.
  - destruct B8 as [->|(Hz & Hb & Hu)]; [done|]. right. destruct A8 as [He|(Hz' & Hb' & Hu')].
    + split; [congruence|]. split; [done|]. by apply Hub.
    + split; [done|]. split; [done|]. by apply Hub.
  - intros b Hh Hnb Hu Hbi Hbx Hbd. rewrite B9; [by apply A9|done|done| |by rewrite Hnum| |].
    + intros Hb. apply A10; [done|by apply Hu].
    + intros ->. destruct A8 as [He|(_ & Hb & Hfree)]; [congruence|]. by rewrite Hu in Hfree.
    + intros bn Hb Hz He. destruct (decide (data_addr x c bn = 0)) as [Hz0|Hz0].
      * pose proof (A7 bn Hb Hz0 Hz) as Hfree. rewrite He in Hfree. rewrite Hu in Hfree; [done|]. rewrite <- He.
        by apply (lo_data _ _ _ _ (fo_layout _ _ _ A1) bn Hb Hz).
      * rewrite A6 in He by done. by apply (Hbd bn).
  - intros b Hb Hu. apply B10; [done|]. by apply A10.
Qed.

(** ** One transaction of [filewrite] *)

(** The open file [f] is the inode in entry [ip], which nobody has locked. *)
Record ready (f ip : nat) (fl : file) (x : inode) (s : kernel) : Prop := {
  rd_file : k_ftable s !! f = Some fl;
  rd_inode : k_itable s !! ip = Some x;
  rd_ref : 1 ≤ i_ref x;
  rd_valid : i_valid x ≠ 0;
  rd_lock : ∃ k, k_sleeplocks s !! SL_inode ip = Some k ∧ sl_locked k = 0;
  rd_mounted : mounted sb s
}.

(** The file system on a disk is in order as far as the file is concerned, and the inode in
    memory is the one on the disk. *)
Record file_on (c : Z → list Z) (x : inode) : Prop := {
  on_ok : file_ok sb c x;
  on_meta : meta_used sb c;
  on_inum : 0 ≤ i_inum x < sb_ninodes sb;
  on_sync : c (IBLOCK (i_inum x) sb) = dinode_put (i_inum x mod IPB) (on_disk_inode x) (c (IBLOCK (i_inum x) sb))
}.

Lemma file_written_on c x off l c' x' : (∀ b, length (c b) = Z.to_nat BSIZE) → file_on c x → file_written c x off l c' x' → file_on c' x'.
Proof.
  intros Hl [Hok _ Hin _] Hw. pose proof (fw_ok _ _ _ _ _ _ _ Hw) as Hok'.
  assert (i_inum x' = i_inum x) as Hnum by (rewrite (fw_attr _ _ _ _ _ _ _ Hw), resized_inum; by destruct x).
  split; [done|apply Hw|by rewrite Hnum|]. rewrite Hnum, (fw_dinode _ _ _ _ _ _ _ Hw).
  rewrite dinode_put_twice; [done|by apply Z.mod_pos_bound|done|apply (fo_len _ _ _ Hok')|apply (fo_len _ _ _ Hok')].
Qed.

Lemma file_written_nil c x off : file_on c x → 0 ≤ off ≤ i_size x → file_written c x off [] c x.
Proof.
  intros [Hok Hm Hin Hs] Hoff. split; try done.
  - rewrite resized_eq. change (Z.of_nat (length [])) with 0. ksimpl. rewrite Z.add_0_r, Z.max_l by lia. by destruct x.
  - cbn [length]. rewrite Nat.add_0_r. cbn [app]. by rewrite take_drop.
  - by left.
Qed.

(** The body of the loop of [filewrite]. *)
Definition write_round (f ip : nat) (addr n i : Z) : M (Z + Z) :=
  if i <? n then
    let n1 := Z.min (n - i) WRITE_MAX in
    begin_op;;
    ilock ip;;
    y ← get_file f;
    r ← writei ip true (u64 (addr + i)) (f_off y) (u32 n1);
    when (0 <? r) (upd_file f (λ x, x <| f_off ::= λ o, u32 (o + r) |>));;
    iunlock ip;;
    end_op;;
    if negb (r =? n1) then mret (inr i) else mret (inl (i + r))
  else mret (inr i).

Lemma slice_slice {A} i k m n (l : list A) : (k + m ≤ n)%nat → slice k m (slice i n l) = slice (i + k) m l.
Proof.
  intros Hm. unfold slice. rewrite <- drop_drop, skipn_firstn_comm, take_take. f_equal. lia.
Qed.

Lemma source_part us a l s i n : source us a l s → 0 ≤ i ≤ Z.of_nat (length l) → source us (u64 (a + i)) (slice (Z.to_nat i) n l) s.
Proof.
  intros Hs Hi s' k m He Hh Hk Hm Hkm. unfold slice in Hkm. rewrite length_take, length_drop in Hkm.
  replace (u64 (u64 (a + i) + k)) with (u64 (a + (i + k))) by (unfold u64; rewrite Zplus_mod_idemp_l; f_equal; lia).
  rewrite (Hs s' (i + k) m) by (done || lia). do 2 f_equal. rewrite slice_slice by lia. f_equal. lia.
Qed.

Lemma source_same us a l s s' : source us a l s → same_mem s s' → source us a l s'.
Proof. intros Hs Hm t k m He. apply Hs. by rewrite Hm. Qed.

Lemma txn_ftable c pins H s d g : txn c pins H s d → txn c pins H (s <| k_ftable ::= g |>) d.
Proof.
  intros [[[Hu Hv] Hwf Hb Hh Hf Hp Hd Hl Hc] ? ? ? ? ? ? ?]. split; try done. split; try done. intros b bn Hin. by destruct (Hh b bn Hin).
Qed.

Lemma written_attrs c x off l c' x' : file_written c x off l c' x' →
  i_ref x' = i_ref x ∧ i_valid x' = i_valid x ∧ i_inum x' = i_inum x ∧ i_size x' = Z.max (i_size x) (off + Z.of_nat (length l)).
Proof. intros Hw. rewrite (fw_attr _ _ _ _ _ _ _ Hw), resized_eq. by destruct x. Qed.

(** All that the process owns but file [f]. *)
Definition same_but (f : nat) (s s' : kernel) : Prop :=
  same_mem s s' ∧ ∀ g, g ≠ f → own_file g → k_ftable s' !! g = k_ftable s !! g.

#[export] Instance same_but_preorder f : PreOrder (same_but f).
Proof.
  split; [by intros s|]. intros s t u [Hm Hf] [Hm' Hf']. split; [by rewrite Hm|]. intros g Hg Ho. by rewrite Hf', Hf.
Qed.

Lemma same_own_but f s s' : same_own s s' → same_but f s s'.
Proof. intros [Hm Hf]. split; [done|]. intros g _. apply Hf. Qed.

(** The outcome of a round that was to write [n1] bytes. *)
Record wrote (f ip : nat) (fl : file) (x : inode) (l1 : list Z) (i : Z) (s : kernel) (d : disk) (tot : Z) (x' : inode)
    (r : Z + Z) (s' : kernel) (e : disk) : Prop := {
  wo_tot : 0 ≤ tot ≤ Z.of_nat (length l1);
  wo_quiet : quiet s' e;
  wo_ready : ready f ip (fl <| f_off := f_off fl + tot |>) x' s';
  wo_mem : same_but f s s';
  wo_written : file_written (block d) x (f_off fl) (take (Z.to_nat tot) l1) (block e) x';
  wo_full : tot = Z.of_nat (length l1) ∨ full sb (block e);
  wo_result : r = if tot =? Z.of_nat (length l1) then inl (i + tot) else inr i
}.

(** What a crash in such a round leaves. *)
Definition partly_written (x : inode) (off : Z) (l1 : list Z) (d : disk) (e : disk) : Prop :=
  recovers log_start (block d) e ∨
  ∃ tot c' x', 0 ≤ tot ≤ Z.of_nat (length l1) ∧ (tot = Z.of_nat (length l1) ∨ full sb c') ∧
    file_written (block d) x off (take (Z.to_nat tot) l1) c' x' ∧ recovers log_start c' e.

(** From the end of [writei] on. *)
Lemma write_round_end f ip fl x l1 i s s2 s3 k d c' x' tot :
  ready f ip fl x s2 → own_file f → (ip < NINODE)%nat → file_on (block d) x → 0 ≤ f_off fl → f_off fl + Z.of_nat (length l1) < 2 ^ 31 →
  same_but f s s2 → hd_n (block d log_start) = 0 → fits [] (6 * remaining (f_off fl) (f_off fl + Z.of_nat (length l1)) + 1) →
  writei_post sb ip (block d) x [] (f_off fl) l1 d (locked ip (sl_taken my_pid k) s2) tot s3 c' x' →
  cwp serve me my_pid (partly_written x (f_off fl) l1 d) (λ r s' e, ∃ tot x', wrote f ip fl x l1 i s d tot x' r s' e) d
    ((when (0 <? tot) (upd_file f (λ x, x <| f_off ::= λ o, u32 (o + tot) |>));;
      iunlock ip;;
      end_op;;
      if negb (tot =? Z.of_nat (length l1)) then mret (inr i) else mret (inl (i + tot))) s3).
Proof.
  intros [Hf Hx Hr Hv _ Hm] Hof Hip [Hok Hmu Hin _] Ho0 Ho1 Hmem Hhd Hfit [[Ht0 Hfull] Hw [Hi3 Hlt3 [Hp1 Hp2 Hsb Hil Hown]] (pins & Ht3 & Hpl)].
  destruct (written_attrs _ _ _ _ _ _ Hw) as (Hr' & Hv' & Hnum' & _).
  assert (Hf3 : k_ftable s3 !! f = Some fl) by (rewrite (proj2 Hown) by done; exact Hf).
  set (fl' := fl <| f_off := f_off fl + tot |>).
  assert (∃ s4, when (0 <? tot) (upd_file f (λ x, x <| f_off ::= λ o, u32 (o + tot) |>)) s3 = Ret tt s4 ∧ txn c' pins [] s4 d ∧
    k_ftable s4 !! f = Some fl' ∧ k_itable s4 = k_itable s3 ∧ k_sleeplocks s4 = k_sleeplocks s3 ∧ mounted sb s4 ∧ same_but f s3 s4)
    as (s4 & Hrun4 & Ht4 & Hf4 & Hi4 & Hl4 & Hm4 & Hmem4).
  { assert (Hm3 : mounted sb s3) by (destruct Hm; split; [by rewrite Hsb|by rewrite Hp1|by rewrite Hp2]). destruct (Z.ltb_spec 0 tot) as [Hlt|Hge]; cbn [when].
    - unfold upd_file, get_file. mrun. rewrite Hf3. mrun. eexists. split; [done|]. split; [by apply txn_ftable|].
      split; [|split; [done|split; [done|split; [by destruct Hm3; split|split; [done|]]]]].
      2:{ intros g Hg _. ksimpl. by rewrite list_lookup_insert_ne. }
      ksimpl. rewrite list_lookup_insert_eq by (by eapply lookup_lt_Some). unfold fl'.
      change (fl <| f_off ::= λ o, u32 (o + tot) |>) with (fl <| f_off := u32 (f_off fl + tot) |>). rewrite u32_small by lia. done.
    - exists s3. split; [done|]. split; [done|]. split; [|done]. unfold fl'. replace tot with 0 by lia. rewrite Z.add_0_r, Hf3. by destruct fl. }
  eapply cwp_step; [exact Hrun4|]. cbn beta. set (kk := sl_taken my_pid k) in *.
  assert (Hk4 : k_sleeplocks s4 !! SL_inode ip = Some kk) by (rewrite Hl4, Hil; apply lookup_insert_eq).
  assert (Hx4 : k_itable s4 !! ip = Some x') by (rewrite Hi4, Hi3; by apply list_lookup_insert_eq).
  destruct (iunlock_run c' pins [] s4 d ip x' kk (tx_cache _ _ _ _ _ Ht4) Hip Hx4 ltac:(lia) Hk4) as [Hrun5 Hst5]; [done|done|].
  pose proof (txn_cst _ _ _ _ (unlocked ip kk s4) _ Ht4 eq_refl Hst5) as Ht5.
  eapply cwp_step; [exact Hrun5|]. cbn beta. set (s5 := unlocked ip kk s4) in *.
  rewrite bind_run. eapply cwp_bind.
  { eapply cwp_mono; [eapply (end_op_cwp c' pins s5 d Ht5); [unfold fits in Hfit; cbn in Hfit, Hpl; lia|done]| |].
    - intros e [He|He]; [by left|right]. exists tot, c', x'. done.
    - intros u s6 e H6. exact H6. }
  cbn beta. intros u s6 e (Hq & Hsf & [[Hq1 Hq2 Hsb6 Hil6 Hown6] Hi6]).
  assert (Hw6 : file_written (block d) x (f_off fl) (take (Z.to_nat tot) l1) (block e) x') by (by apply (file_written_ext _ _ _ _ c')).
  assert (Hfull6 : tot = Z.of_nat (length l1) ∨ full sb (block e)).
  { destruct Hfull as [|Hfull]; [by left|right]. intros b Hb. rewrite (used_ext c') by done. by apply Hfull. }
  assert (cwp serve me my_pid (partly_written x (f_off fl) l1 d) (λ r s' e, ∃ tot x', wrote f ip fl x l1 i s d tot x' r s' e) e
    (Ret (if tot =? Z.of_nat (length l1) then inl (i + tot) else inr i) s6)) as Hend.
  { split.
    - right. exists tot, (block e), x'. do 3 (split; [done|]). apply empty_recovers; [apply Hq|done].
    - exists tot, x'. split; try done.
      + split; try done; try lia.
        * rewrite (proj2 Hown6) by done. exact Hf4.
        * by rewrite Hi6.
        * rewrite Hil6. exists (sl_free kk). split; [apply lookup_insert_eq|done].
        * destruct Hm4; split; [by rewrite Hsb6|by rewrite Hq1|by rewrite Hq2].
      + rewrite Hmem. transitivity s3; [exact (same_own_but f _ _ Hown)|]. transitivity s4; [done|]. exact (same_own_but f _ _ Hown6). }
  by destruct (tot =? Z.of_nat (length l1)).
Qed.

Lemma ready_same f ip fl x s s' : ready f ip fl x s → own_file f → same_rest s s' → ready f ip fl x s'.
Proof.
  intros [Hf Hx Hr Hv (k & Hk & Hz) Hm] Hof Hs. pose proof Hs as [[Hp1 Hp2 Hsb Hil Hown] Hi]. split; try done.
  - by rewrite (proj2 Hown).
  - by rewrite Hi.
  - exists k. by rewrite Hil.
  - by eapply mounted_same.
Qed.

Lemma remaining_chunk off m : 0 ≤ off → 0 ≤ m ≤ WRITE_MAX → (remaining off (off + m) ≤ 4)%nat.
Proof.
  intros Ho Hm. unfold remaining. destruct (Z.ltb_spec off (off + m)); [|lia]. unfold rounds.
  assert ((off + m - 1) / BSIZE ≤ off / BSIZE + 3); [|lia].
  rewrite <- Z.div_add by done. apply Z.div_le_mono; [done|]. change WRITE_MAX with 3072 in Hm. unfold BSIZE. lia.
Qed.

Lemma write_round_cwp f ip fl x addr l i s d (n := Z.of_nat (length l)) (l1 := slice (Z.to_nat i) (Z.to_nat WRITE_MAX) l) :
  quiet s d → ready f ip fl x s → own_file f → (ip < NINODE)%nat → file_on (block d) x → 0 ≤ f_off fl ≤ i_size x →
  0 ≤ i < n → f_off fl + (n - i) ≤ MAXFILE * BSIZE → source true addr l s →
  cwp serve me my_pid (partly_written x (f_off fl) l1 d) (λ r s' e, ∃ tot x', wrote f ip fl x l1 i s d tot x' r s' e) d
    (write_round f ip addr n i s).
Proof.
  intros Hq Hrd Hof Hip Hon Hoff Hi Hlim Hsrc. unfold write_round. rewrite (proj2 (Z.ltb_lt i n)) by lia. cbn zeta.
  assert (Hl1 : Z.of_nat (length l1) = Z.min (n - i) WRITE_MAX).
  { unfold l1, slice. rewrite length_take, length_drop. unfold n in *. change WRITE_MAX with 3072. change (Z.to_nat 3072) with 3072%nat. lia. }
  rewrite <- Hl1. assert (0 ≤ Z.of_nat (length l1) ≤ WRITE_MAX) as Hmax by lia.
  assert (Hlim2 : f_off fl + Z.of_nat (length l1) ≤ MAXFILE * BSIZE) by lia.
  assert (Hlim3 : f_off fl + Z.of_nat (length l1) < 2 ^ 31) by (change (MAXFILE * BSIZE) with 274432 in Hlim2; lia).
  destruct (begin_st s d Hq) as (s1 & Hr1 & Ht1 & Hs1). pose proof (q_header _ _ Hq) as Hh.
  eapply cwp_step; [exact Hr1|]. cbn beta. pose proof (ready_same _ _ _ _ _ _ Hrd Hof Hs1) as Hrd1.
  pose proof Hrd1 as [Hf Hx Hr Hv (k & Hk & Hz) Hm].
  destruct (ilock_run (block d) [] [] s1 d ip x k (tx_cache _ _ _ _ _ Ht1) Hip Hx Hr Hv Hk Hz) as [Hr2 Hst2].
  pose proof (txn_cst _ _ _ _ (locked ip (sl_taken my_pid k) s1) _ Ht1 eq_refl Hst2) as Ht2.
  eapply cwp_step; [exact Hr2|]. cbn beta. set (s2 := locked ip (sl_taken my_pid k) s1) in *.
  assert (get_file f s2 = Ret fl s2) as Hg by (unfold get_file; change (k_ftable s2) with (k_ftable s1); by rewrite Hf).
  eapply cwp_step; [exact Hg|]. cbn beta. rewrite u32_small by lia.
  assert (Hfit : fits [] (6 * remaining (f_off fl) (f_off fl + Z.of_nat (length l1)) + 1)).
  { pose proof (remaining_chunk (f_off fl) (Z.of_nat (length l1)) ltac:(lia) Hmax). unfold fits, NBUF. cbn [length]. lia. }
  eapply (op_cwp d s2 _ _ (λ r s', ∃ c' x', writei_post sb ip (block d) x [] (f_off fl) l1 d s2 r s' c' x')).
  - eapply writei_op; try done; try apply Hon; [by destruct Hm; split|apply u64_range|].
    apply (source_part true addr l s2 i (Z.to_nat WRITE_MAX)); [|fold n; lia]. eapply source_same; [exact Hsrc|].
    exact (same_rest_mem _ _ Hs1).
  - left. by apply empty_recovers.
  - intros tot s3 (c' & x' & Hp). eapply (write_round_end f ip fl x l1 i s s1 s3 k d c' x' tot); try done; [lia|].
    apply same_own_but, Hs1.
Qed.

(** ** The whole of [filewrite] *)

(** [x'] in [c'] is the file [x] of [d] after the first [k] bytes of [l] have been written at [off]: whole
    transactions, or as much as the disk would take. *)
Record prefix_written (x : inode) (off : Z) (l : list Z) (d : disk) (k : Z) (c' : Z → list Z) (x' : inode) : Prop := {
  pw_range : 0 ≤ k ≤ Z.of_nat (length l);
  pw_whole : k mod WRITE_MAX = 0 ∨ k = Z.of_nat (length l) ∨ full sb c';
  pw_written : file_written (block d) x off (take (Z.to_nat k) l) c' x'
}.

(** What recovery finds after a crash. *)
Definition some_written (x : inode) (off : Z) (l : list Z) (d e : disk) : Prop :=
  ∃ k c' x', prefix_written x off l d k c' x' ∧ recovers log_start c' e.

(** The state after [k] bytes. *)
Record advanced (f ip : nat) (fl : file) (x : inode) (l : list Z) (s : kernel) (d : disk) (k : Z) (x' : inode) (s' : kernel) (e : disk) : Prop := {
  ad_prefix : prefix_written x (f_off fl) l d k (block e) x';
  ad_quiet : quiet s' e;
  ad_ready : ready f ip (fl <| f_off := f_off fl + k |>) x' s';
  ad_mem : same_but f s s'
}.

Lemma advanced_some f ip fl x l s d k x' s' e : advanced f ip fl x l s d k x' s' e → some_written x (f_off fl) l d e.
Proof. intros [Hp Hq _ _]. exists k, (block e), x'. split; [done|]. apply empty_recovers; [apply Hq|done]. Qed.

Lemma prefix_app x off l d k x' e tot c' x'' (l1 := slice (Z.to_nat k) (Z.to_nat WRITE_MAX) l) :
  file_on (block d) x → 0 ≤ off ≤ i_size x → off + Z.of_nat (length l) ≤ MAXFILE * BSIZE →
  prefix_written x off l d k (block e) x' → k mod WRITE_MAX = 0 →
  0 ≤ tot ≤ Z.of_nat (length l1) → tot = Z.of_nat (length l1) ∨ full sb c' →
  file_written (block e) x' (off + k) (take (Z.to_nat tot) l1) c' x'' →
  prefix_written x off l d (k + tot) c' x''.
Proof.
  intros [Hok _ _ _] Hoff Hlim [Hk _ Hw] Hmod Htot Hfull Hw'.
  assert (Hl1 : Z.of_nat (length l1) = Z.min (Z.of_nat (length l) - k) WRITE_MAX).
  { unfold l1, slice. rewrite length_take, length_drop. change WRITE_MAX with 3072. change (Z.to_nat 3072) with 3072%nat. lia. }
  assert (Htk : length (take (Z.to_nat k) l) = Z.to_nat k) by (rewrite length_take; lia).
  split; [lia| |].
  - destruct Hfull as [->|Hfull]; [|by do 2 right]. rewrite Hl1.
    destruct (Z.min_spec (Z.of_nat (length l) - k) WRITE_MAX) as [[_ ->]|[_ ->]]; [right; left; lia|left].
    rewrite <- Zplus_mod_idemp_r, Z_mod_same_full, Z.add_0_r. done.
  - assert (take (Z.to_nat (k + tot)) l = take (Z.to_nat k) l ++ take (Z.to_nat tot) l1) as ->.
    { unfold l1, slice. rewrite take_take, Nat.min_l by lia. rewrite Z2Nat.inj_add by lia. symmetry. apply (take_slice_app (Z.to_nat k)). }
    eapply (file_written_app (block d) x off _ (block e) x'); [intros b; apply length_block|done|done| |done|].
    + rewrite Htk, length_take. lia.
    + by rewrite Htk, Z2Nat.id by lia.
Qed.

(** The loop: where it is after some rounds, and how it ends. *)
Definition at_round (f ip : nat) (fl : file) (x : inode) (l : list Z) (s : kernel) (d : disk) (fuel : nat) (i : Z) (s' : kernel) (e : disk) : Prop :=
  Z.of_nat (length l) - i ≤ (Z.of_nat fuel - 1) * WRITE_MAX ∧ (1 ≤ fuel)%nat ∧
  (i mod WRITE_MAX = 0 ∨ i = Z.of_nat (length l)) ∧ ∃ x', advanced f ip fl x l s d i x' s' e.
Definition at_end (f ip : nat) (fl : file) (x : inode) (l : list Z) (s : kernel) (d : disk) (i : Z) (s' : kernel) (e : disk) : Prop :=
  ∃ k x', advanced f ip fl x l s d k x' s' e ∧
    ((i = Z.of_nat (length l) ∧ k = i) ∨ (i < Z.of_nat (length l) ∧ k < Z.of_nat (length l) ∧ full sb (block e))).

Section loop.
Context (f ip : nat) (fl : file) (x : inode) (addr : Z) (l : list Z) (s : kernel) (d : disk).
Context (Hof : own_file f) (Hip : (ip < NINODE)%nat) (Hon : file_on (block d) x) (Hoff : 0 ≤ f_off fl ≤ i_size x).
Context (Hlim : f_off fl + Z.of_nat (length l) ≤ MAXFILE * BSIZE) (Hsrc : source true addr l s).

Abbreviation n := (Z.of_nat (length l)).

Lemma filewrite_round fuel i s' e : at_round f ip fl x l s d (S fuel) i s' e →
  cwp serve me my_pid (some_written x (f_off fl) l d)
    (λ r t e', match r with inl i' => at_round f ip fl x l s d fuel i' t e' | inr i => at_end f ip fl x l s d i t e' end) e
    (write_round f ip addr n i s').
Proof.
  intros (Hfu & _ & Hmod & x' & Had). pose proof Had as [Hp Hq Hrd Hm]. pose proof Hp as [Hi _ Hw].
  destruct (decide (i < n)) as [Hlt|Hge].
  2:{ assert (i = n) as -> by lia. unfold write_round. rewrite Z.ltb_irrefl. split; [by eapply advanced_some|].
      exists n, x'. split; [done|by left]. }
  assert (i mod WRITE_MAX = 0) as Hmod0 by (destruct Hmod; [done|lia]).
  destruct (written_attrs _ _ _ _ _ _ Hw) as (_ & _ & Hnum & Hsz). rewrite length_take_le in Hsz by lia. rewrite Z2Nat.id in Hsz by lia.
  set (fl' := fl <| f_off := f_off fl + i |>) in *. set (l1 := slice (Z.to_nat i) (Z.to_nat WRITE_MAX) l).
  assert (Hl1 : Z.of_nat (length l1) = Z.min (n - i) WRITE_MAX).
  { unfold l1, slice. rewrite length_take, length_drop. change WRITE_MAX with 3072. change (Z.to_nat 3072) with 3072%nat. lia. }
  eapply cwp_mono; [eapply (write_round_cwp f ip fl' x' addr l i s' e)|..]; try done; fold l1; cbn [f_off].
  - eapply file_written_on; [intros b; apply length_block|exact Hon|exact Hw].
  - change (f_off fl') with (f_off fl + i). lia.
  - lia.
  - change (f_off fl') with (f_off fl + i). lia.
  - eapply source_same; [exact Hsrc|apply Hm].
  - intros e' [He'|(tot & c' & x'' & Htot & Hfull & Hw' & Hrec)].
    + by exists i, (block e), x'.
    + exists (i + tot), c', x''. split; [|done]. by eapply prefix_app.
  - intros r t e' (tot & x'' & [Htot Hq' Hrd' Hm' Hw' Hfull ->]).
    assert (advanced f ip fl x l s d (i + tot) x'' t e') as Had'.
    { split; [by eapply prefix_app|done| |by rewrite Hm]. rewrite Z.add_assoc. exact Hrd'. }
    pose proof (pw_range _ _ _ _ _ _ _ (ad_prefix _ _ _ _ _ _ _ _ _ _ _ Had')) as Hr'. fold l1 in Htot, Hfull.
    destruct (Z.eqb_spec tot (Z.of_nat (length l1))) as [->|Hne].
    + rewrite Hl1 in *. split; [|split; [|split; [|by exists x'']]]; [change WRITE_MAX with 3072 in *; lia..|].
      destruct (Z.min_spec (n - i) WRITE_MAX) as [[_ ->]|[_ ->]]; [right; lia|left].
      by rewrite <- Zplus_mod_idemp_r, Z_mod_same_full, Z.add_0_r.
    + exists (i + tot), x''. split; [done|]. right. split; [done|]. destruct Hfull as [|Hfull]; [done|]. split; [|done].
      rewrite Hl1 in *. lia.
Qed.

Lemma filewrite_cwp : quiet s d → ready f ip fl x s → f_writable fl ≠ 0 → f_type fl = FD_INODE → f_ip fl = Some ip →
  cwp serve me my_pid (some_written x (f_off fl) l d)
    (λ r s' e, ∃ k x', advanced f ip fl x l s d k x' s' e ∧ ((r = n ∧ k = n) ∨ (r = -1 ∧ k < n ∧ full sb (block e)))) d
    (filewrite f addr n s).
Proof.
  intros Hq Hrd Hw Hty Hfip. unfold filewrite.
  eapply cwp_step; [unfold get_file; by rewrite (rd_file _ _ _ _ _ Hrd)|]. cbn beta.
  rewrite (proj2 (Z.eqb_neq _ _) Hw), Hty, Hfip. cbn iota. eapply cwp_step; [done|]. cbn beta. rewrite bind_run.
  change (λ i : Z, if i <? n then _ else _) with (write_round f ip addr n).
  eapply (cwp_bind _ _ _ _ (at_end f ip fl x l s d)).
  - apply (cwp_while _ _ (at_round f ip fl x l s d)); [by intros; apply filewrite_round|by intros i s' e (_ & ? & _); lia| |].
    + intros i s' e (k & x' & Had & _). by eapply advanced_some.
    + split; [|split; [lia|split; [by left|]]].
      * pose proof (Z.div_mod n WRITE_MAX ltac:(done)). pose proof (Z.mod_pos_bound n WRITE_MAX ltac:(done)).
        assert (0 ≤ n / WRITE_MAX) by (apply Z.div_pos; [lia|done]). rewrite Z.sub_0_r. set (q := n / WRITE_MAX) in *. change WRITE_MAX with 3072 in *. lia.
      * exists x. split; [|done| |done].
        -- split; [lia|left; done|]. rewrite take_0. by apply file_written_nil.
        -- rewrite Z.add_0_r. by destruct fl.
  - intros i t e (k & x' & Had & Hc). destruct Hc as [[-> ->]|(Hi & Hk & Hfull)].
    + rewrite Z.eqb_refl. split; [by eapply advanced_some|]. exists n, x'. split; [done|by left].
    + rewrite (proj2 (Z.eqb_neq _ _)) by lia. split; [by eapply advanced_some|]. exists k, x'. split; [done|by right].
Qed.

End loop.

(** C8: [filewrite] on an open file.  It ends.  When the disk has room it returns [n]
    and the bytes of the program's buffer stand at the file's offset, the rest of the file and
    of the file system is as it was and the offset has advanced by [n]; when the disk fills
    up it returns -1 with a prefix written.  And wherever the machine stops meanwhile,
    even if the recoveries that follow are interrupted any number of times, the
    recovery that is let finish does finish, and the file then holds the bytes of some
    of the transactions, the first ones, each of them whole (but for the last one of a full disk). *)
Theorem filewrite_survives_crashes f ip fl x addr n s d (l := ubytes (k_mem s) own_pagetable addr (Z.to_nat n)) :
  quiet s d → ready f ip fl x s → own_file f → (ip < NINODE)%nat → file_on (block d) x → user_range addr n s →
  f_writable fl ≠ 0 → f_type fl = FD_INODE → f_ip fl = Some ip → 0 ≤ f_off fl ≤ i_size x → f_off fl + n ≤ MAXFILE * BSIZE →
  (∃ r t e, finishes serve me my_pid d (filewrite f addr n s) r t e) ∧
  (∀ r t e, finishes serve me my_pid d (filewrite f addr n s) r t e → ∃ k x', advanced f ip fl x l s d k x' t e ∧
     ((r = n ∧ k = n) ∨ (r = -1 ∧ k < n ∧ full sb (block e)))) ∧
  (∀ e e' s', crashes serve me my_pid d (filewrite f addr n s) e →
     reboots serve me my_pid dev log_start e e' → booted me my_pid dev log_start s' e' →
     (∃ t g, finishes serve me my_pid e' (recover_from_log s') tt t g) ∧
     ∃ k c' x', prefix_written x (f_off fl) l d k c' x' ∧
       ∀ t g, finishes serve me my_pid e' (recover_from_log s') tt t g → clean me my_pid dev log_start c' (k_log t) s' t g).
Proof.
  intros Hq Hrd Hof Hip Hon Hur Hw Hty Hfip Hoff Hlim. destruct (ur_range _ _ _ Hur) as (Ha & Hn & _).
  assert (Hl : Z.of_nat (length l) = n) by (unfold l; rewrite length_ubytes; lia).
  pose proof (filewrite_cwp f ip fl x addr l s d Hof Hip Hon Hoff ltac:(by rewrite Hl) (user_source _ _ _ Hur) Hq Hrd Hw Hty Hfip) as Hwp.
  rewrite Hl in Hwp. split; [exact (cwp_total serve me my_pid _ _ _ _ Hwp)|].
  split; [intros r t e Hf; exact (cwp_finish serve me my_pid _ _ _ _ _ _ _ Hwp Hf)|].
  intros e e' s' Hc Hr Hb. destruct (cwp_crash serve me my_pid _ _ _ _ _ Hwp Hc) as (k & c' & x' & Hpre & Hrec).
  pose proof (booted_cwp serve serve_ok me my_pid dev dev_ok patient uart_ok log_start log_start_ok c' s' e' Hb
    (reboots_recovers serve serve_ok me my_pid dev dev_ok patient uart_ok log_start log_start_ok c' e e' Hrec Hr)) as Hwb.
  split; [destruct (cwp_total serve me my_pid _ _ _ _ Hwb) as ([] & t & g & Hf); by exists t, g|].
  exists k, c', x'. split; [done|]. intros t g Hf. exact (cwp_finish serve me my_pid _ _ _ _ _ _ _ Hwb Hf).
Qed.

End write.
