(* ===== verification/DinodeSpec.v ===== *)
(** * Inodes on the disk

    A dinode read back from its block is the one that was put there, and [ilock] loads into
    the inode table what [iupdate] put on the disk. *)

From S2P Require Import Prelude Decimal Riscv State Boot Spinlock ProcTable Machine CString Kalloc Vm VmSpec UserMem Printf Sched SchedSpec Sleeplock SleeplockSpec FsDefs Virtio Bio BioSpec Frame Log LogSpec DiskSpec CacheSpec PrintfSpec CrashSpec TxnSpec Fs AllocSpec InodeSpec FileSpec TransSpec WriteSpec.

Lemma le_val_mod n z : le_val (le_bytes n z) = z mod 256 ^ Z.of_nat n.
Proof.
  revert z. induction n as [|n IH]; intros z; [by rewrite Z.mod_1_r|]. cbn [le_bytes le_val]. rewrite IH.
  rewrite Nat2Z.inj_succ, Z.pow_succ_r by lia. rewrite Z.rem_mul_r; [done|lia|]. apply Z.pow_pos_nonneg; lia.
Qed.

Lemma i16_mod z : - 2 ^ 15 ≤ z < 2 ^ 15 → i16 (z mod 256 ^ Z.of_nat 2) = z.
Proof. intros Hz. unfold i16. change (256 ^ Z.of_nat 2) with (2 ^ 16). rewrite Zplus_mod_idemp_l, Z.mod_small; lia. Qed.

Lemma u32_mod z : 0 ≤ z < 2 ^ 32 → z mod 256 ^ Z.of_nat 4 = z.
Proof. intros Hz. by apply Z.mod_small. Qed.

(** Part of what was written. *)
Lemma slice_splice_in {A} i j n (l' l : list A) : (i + length l' ≤ length l)%nat → (j + n ≤ length l')%nat →
  slice (i + j) n (splice i l' l) = slice j n l'.
Proof.
  intros Hl Hj. rewrite <- (slice_splice_same i l' l Hl) at 2. symmetry. apply slice_slice. lia.
Qed.

Lemma rd_put n j k x data : 0 ≤ k < IPB → length data = Z.to_nat BSIZE → length (di_addrs x) = 13%nat → 0 ≤ j → (Z.to_nat j + n ≤ 64)%nat →
  rd_le n (DINODE_SIZE * k + j) (dinode_put k x data) = le_val (slice (Z.to_nat j) n (dinode_bytes x)).
Proof.
  intros Hk Hl Hx Hj Hn. change IPB with 16 in Hk. unfold rd_le, dinode_put. rewrite Z2Nat.inj_add by (unfold DINODE_SIZE; lia).
  rewrite slice_splice_in; rewrite ?(length_dinode_bytes x Hx); [done| |lia]. rewrite Hl. unfold DINODE_SIZE, BSIZE. lia.
Qed.

(** The fields fit their widths. *)
Record dinode_ok (x : dinode) : Prop := {
  dk_type : - 2 ^ 15 ≤ di_type x < 2 ^ 15;
  dk_major : - 2 ^ 15 ≤ di_major x < 2 ^ 15;
  dk_minor : - 2 ^ 15 ≤ di_minor x < 2 ^ 15;
  dk_nlink : - 2 ^ 15 ≤ di_nlink x < 2 ^ 15;
  dk_size : 0 ≤ di_size x < 2 ^ 32;
  dk_len : length (di_addrs x) = 13%nat;
  dk_addrs : Forall (λ a, 0 ≤ a < 2 ^ 32) (di_addrs x)
}.

(** The addresses, four bytes each. *)
Lemma slice_addrs l i a : l !! i = Some a → slice (4 * i) 4 (l ≫= le_bytes 4) = le_bytes 4 a.
Proof.
  revert i. induction l as [|b l IH]; intros [|i] Hi; [done|done| |].
  - injection Hi as ->. done.
  - cbn [mbind list_bind]. unfold slice in *. replace (4 * S i)%nat with (length (le_bytes 4 b) + 4 * i)%nat by (rewrite length_le_bytes; lia).
    rewrite <- drop_drop, drop_app_length. by apply IH.
Qed.

Lemma dinode_get_put k x data : 0 ≤ k < IPB → length data = Z.to_nat BSIZE → dinode_ok x →
  dinode_get k (dinode_put k x data) = x.
Proof.
  intros Hk Hl [H1 H2 H3 H4 H5 Hlen Ha]. unfold dinode_get. destruct x as [ty ma mi nl sz addrs]. cbn in *. f_equal.
  - rewrite <- (Z.add_0_r (DINODE_SIZE * k)), rd_put by (done || lia). transitivity (i16 (le_val (le_bytes 2 ty))); [done|]. rewrite le_val_mod. by apply i16_mod.
  - rewrite rd_put by (done || lia). transitivity (i16 (le_val (le_bytes 2 ma))); [done|]. rewrite le_val_mod. by apply i16_mod.
  - rewrite rd_put by (done || lia). transitivity (i16 (le_val (le_bytes 2 mi))); [done|]. rewrite le_val_mod. by apply i16_mod.
  - rewrite rd_put by (done || lia). transitivity (i16 (le_val (le_bytes 2 nl))); [done|]. rewrite le_val_mod. by apply i16_mod.
  - rewrite rd_put by (done || lia). transitivity (le_val (le_bytes 4 sz)); [done|]. rewrite le_val_mod. by apply u32_mod.
  - transitivity ((λ i, rd_le 4 (DINODE_SIZE * k + 12 + 4 * Z.of_nat i) (dinode_put k (Dinode ty ma mi nl sz addrs) data)) <$> seq 0 (length addrs)); [by rewrite Hlen|]. apply list_eq. intros i. rewrite list_lookup_fmap.
    destruct (decide (i < length addrs)%nat) as [Hi|Hi]; [|by rewrite !lookup_ge_None_2 by (rewrite ?length_seq; lia)].
    rewrite lookup_seq_lt by done. destruct (lookup_lt_is_Some_2 addrs i Hi) as [a Hia]. rewrite Hia. cbn [fmap option_fmap option_map]. f_equal.
    rewrite <- Z.add_assoc, rd_put by (done || lia).
    replace (Z.to_nat (12 + 4 * Z.of_nat (0 + i))) with (12 + 4 * i)%nat by lia. unfold slice. rewrite <- drop_drop.
    change (drop 12 (dinode_bytes (Dinode ty ma mi nl sz addrs))) with (addrs ≫= le_bytes 4). fold (slice (4 * i) 4 (addrs ≫= le_bytes 4)).
    rewrite (slice_addrs addrs i a Hia), le_val_mod. apply u32_mod. by eapply Forall_lookup_1 in Ha.
Qed.

Section dinode.
Context `{IM : Image, DV : Device, PT : Patience, OW : Own, SS : !Session} (sb : superblock) (Hgeo : geometry sb).

Abbreviation cst := (cache_st me my_pid dev).

Lemma cst_itable c pins H s d g : cst c pins H s d → cst c pins H (s <| k_itable ::= g |>) d.
Proof. intros [[Hu Hv] Hwf Hb Hh Hf Hp Hd Hl Hc]. split; try done. intros b bn Hin. by destruct (Hh b bn Hin). Qed.

Lemma quiet_itable s d g : quiet s d → quiet (s <| k_itable ::= g |>) d.
Proof. intros [H1 H2 H3 H4 H5 H6]. split; try done. by apply cst_itable. Qed.

(** The inode with the contents of a dinode. *)
Definition loaded (x : inode) (y : dinode) : inode :=
  x <| i_type := di_type y |> <| i_major := di_major y |> <| i_minor := di_minor y |> <| i_nlink := di_nlink y |>
    <| i_size := di_size y |> <| i_addrs := di_addrs y |> <| i_valid := 1 |>.

Lemma ilock_load_op c pins s d ip x k (y := dinode_get (i_inum x mod IPB) (c (IBLOCK (i_inum x) sb))) :
  cst c pins [] s d → k_sb s = sb → (ip < NINODE)%nat → k_itable s !! ip = Some x → i_dev x = dev → 1 ≤ i_ref x → i_valid x = 0 →
  0 ≤ i_inum x < sb_ninodes sb → k_sleeplocks s !! SL_inode ip = Some k → sl_locked k = 0 → (length pins < NBUF)%nat → di_type y ≠ 0 →
  op d (ilock ip s) (λ _ t, cst c pins [] t d ∧ k_itable t !! ip = Some (loaded x y) ∧
    k_sleeplocks t !! SL_inode ip = Some (sl_taken my_pid k) ∧ k_log t = k_log s).
Proof.
  intros Hst Hsb Hip Hx Hdev Hr Hv Hin Hk Hz Hlen Hty. destruct (inode_user _ _ _ _ _ _ Hst Hip) as (u & Hu & Hpid).
  unfold ilock. eapply op_step; [by apply get_inode_run|]. rewrite (proj2 (Z.ltb_ge _ _)) by lia.
  eapply op_step; [exact (acquiresleep_free _ _ _ _ _ Hu Hk Hz)|]. cbn beta. rewrite Hpid. set (s1 := s <| k_sleeplocks ::= _ |>).
  assert (Hst1 : cst c pins [] s1 d) by (by apply cst_ilock). eapply op_step; [by apply (get_inode_run ip s1 x)|].
  rewrite (proj2 (Z.eqb_eq _ _) Hv). unfold get_sb. eapply op_step; [reflexivity|]. change (k_sb s1) with (k_sb s). rewrite Hsb, Hdev.
  destruct (IBLOCK_ok sb Hgeo _ Hin) as [_ Hok]. eapply bread_view; [exact Hst1|apply not_elem_of_nil|done|cbn; lia|].
  intros bp s2 Hst2 Hs2. eapply get_data_view; [exact Hst2|by left|]. cbv zeta. fold y.
  assert (Hx2 : k_itable s2 !! ip = Some x) by (rewrite (sg_itable _ _ Hs2); exact Hx). assert (Hipl : (ip < length (k_itable s2))%nat) by (by eapply lookup_lt_Some).
  eapply op_step; [by apply upd_inode_run|]. cbn beta. set (s3 := s2 <| k_itable ::= _ |>).
  eapply brelse_view; [by apply cst_itable|eapply view_clean; [exact Hst1|apply not_elem_of_nil]|]. intros s4 Hst4 Hs4.
  set (x4 := x <| i_type := di_type y |> <| i_major := di_major y |> <| i_minor := di_minor y |> <| i_nlink := di_nlink y |> <| i_size := di_size y |> <| i_addrs := di_addrs y |>) in *.
  assert (Hx4 : k_itable s4 !! ip = Some x4) by (rewrite (sg_itable _ _ Hs4); by apply list_lookup_insert_eq).
  assert (Hipl4 : (ip < length (k_itable s4))%nat) by (by eapply lookup_lt_Some).
  eapply op_step; [by apply upd_inode_run|]. cbn beta. set (s5 := s4 <| k_itable ::= _ |>).
  assert (Hx5 : k_itable s5 !! ip = Some (loaded x y)) by (by apply list_lookup_insert_eq).
  eapply op_step; [by apply get_inode_run|]. change (i_type (loaded x y)) with (di_type y). rewrite (proj2 (Z.eqb_neq _ _) Hty).
  apply op_ret. split; [by apply cst_itable|]. split; [done|]. split.
  - change (k_sleeplocks s5) with (k_sleeplocks s4). rewrite (sg_ilocks _ _ Hs4). change (k_sleeplocks s3) with (k_sleeplocks s2).
    rewrite (sg_ilocks _ _ Hs2). apply lookup_insert_eq.
  - change (k_log s5) with (k_log s4). rewrite (sg_log _ _ Hs4). change (k_log s3) with (k_log s2). by rewrite (sg_log _ _ Hs2).
Qed.

(** Another dinode of the block. *)
Lemma rd_put_other n j k i x data : 0 ≤ k < IPB → 0 ≤ i < IPB → i ≠ k → length data = Z.to_nat BSIZE → length (di_addrs x) = 13%nat →
  0 ≤ j → (Z.to_nat j + n ≤ 64)%nat → rd_le n (DINODE_SIZE * i + j) (dinode_put k x data) = rd_le n (DINODE_SIZE * i + j) data.
Proof.
  intros Hk Hi Hne Hl Hx Hj Hn. change IPB with 16 in Hk, Hi. unfold rd_le, dinode_put.
  rewrite slice_splice_other; [done|..]; rewrite (length_dinode_bytes x Hx), ?Hl; unfold DINODE_SIZE, BSIZE; lia.
Qed.

Lemma dinode_get_other k i x data : 0 ≤ k < IPB → 0 ≤ i < IPB → i ≠ k → length data = Z.to_nat BSIZE → length (di_addrs x) = 13%nat →
  dinode_get i (dinode_put k x data) = dinode_get i data.
Proof.
  intros Hk Hi Hne Hl Hx. pose proof (λ n j, rd_put_other n j k i x data Hk Hi Hne Hl Hx) as Hrd.
  assert (rd_le 2 (DINODE_SIZE * i) (dinode_put k x data) = rd_le 2 (DINODE_SIZE * i) data) as H0.
  { rewrite <- (Z.add_0_r (DINODE_SIZE * i)). apply Hrd; lia. }
  unfold dinode_get. rewrite H0, !Hrd by (done || lia). f_equal. apply list_fmap_ext. intros m b Hb.
  apply lookup_seq in Hb as [-> Hm]. rewrite <- !Z.add_assoc. apply Hrd; lia.
Qed.

(** Inode [i] as the blocks [c] hold it. *)
Definition disk_inode (c : Z → list Z) (i : Z) : dinode := dinode_get (i mod IPB) (c (IBLOCK i sb)).

Lemma put_inode_get x c : (∀ b, length (c b) = Z.to_nat BSIZE) → dinode_ok (on_disk_inode x) →
  disk_inode (put_inode sb x c) (i_inum x) = on_disk_inode x.
Proof.
  intros Hl Hdk. unfold disk_inode, put_inode. rewrite fn_lookup_insert.
  apply dinode_get_put; [by apply Z.mod_pos_bound|done|done].
Qed.

Lemma put_inode_other x c i : (∀ b, length (c b) = Z.to_nat BSIZE) → dinode_ok (on_disk_inode x) →
  0 ≤ i_inum x < sb_ninodes sb → 0 ≤ i < sb_ninodes sb → i ≠ i_inum x →
  disk_inode (put_inode sb x c) i = disk_inode c i.
Proof.
  intros Hl Hdk Hx Hi Hne. unfold disk_inode, put_inode. destruct (decide (IBLOCK i sb = IBLOCK (i_inum x) sb)) as [E|E].
  - rewrite E, fn_lookup_insert. apply dinode_get_other; [by apply Z.mod_pos_bound|by apply Z.mod_pos_bound| |done|apply Hdk].
    rewrite (proj1 (IBLOCK_ok sb Hgeo _ Hx)), (proj1 (IBLOCK_ok sb Hgeo _ Hi)) in E. intros Em.
    apply Hne. rewrite (Z.div_mod i IPB), (Z.div_mod (i_inum x) IPB) by done. lia.
  - by rewrite fn_lookup_insert_ne.
Qed.

(** The transaction in which the kernel writes an inode back. *)
Definition update_inode (ip : nat) : M unit := begin_op;; iupdate ip;; end_op.

Lemma update_inode_cwp ip x s d :
  quiet s d → mounted sb s → k_itable s !! ip = Some x → i_dev x = dev → 0 ≤ i_inum x < sb_ninodes sb →
  cwp serve me my_pid (λ e, recovers log_start (block d) e ∨ recovers log_start (put_inode sb x (block d)) e)
    (λ _ t e, quiet t e ∧ same_rest s t ∧ same_files log_start (block e) (put_inode sb x (block d))) d (update_inode ip s).
Proof.
  intros Hq Hm Hx Hdev Hin. unfold update_inode. destruct (begin_st s d Hq) as (s1 & Hb & Ht & Hs1).
  rewrite bind_run, Hb. msimpl.
  eapply op_cwp; [eapply (iupdate_op sb Hgeo ip _ x [] s1 d 0 Ht)| |].
  - by apply (mounted_same sb s s1).
  - by rewrite (sr_itable _ _ Hs1).
  - done.
  - done.
  - unfold fits, NBUF. cbn. lia.
  - left. apply empty_recovers; [by apply (q_header s)|done].
  - intros [] s2 [Ht2 Hs2]. eapply cwp_mono; [apply (end_op_cwp _ _ _ _ Ht2)|done|].
    + pose proof (length_pin (IBLOCK (i_inum x) sb) []). unfold NBUF. cbn in *. lia.
    + by apply (q_header s).
    + intros [] t e (? & ? & Hs). split; [done|]. split; [by rewrite Hs1, Hs2|done].
Qed.

(** C16: An inode written back is the inode loaded again.  The transaction
    [begin_op; iupdate; end_op] on an inode in memory always ends; on the disk
    it leaves, every other inode reads as before.  Let the kernel then be in
    any state that agrees with that disk, as after a reboot or when the entry
    was given up and taken again, with an entry of the inode table for the same
    inode and nothing loaded yet: [ilock] on it ends with all fields that
    [iupdate] was given (type, device numbers, links, size and the block
    addresses), locks the entry for the caller and leaves the disk as it was.
    After a crash in the middle of the transaction recovery leaves the blocks
    with the old inode or with the new one. *)
Theorem ilock_loads ip x s d :
  quiet s d → mounted sb s → k_itable s !! ip = Some x → i_dev x = dev → 0 ≤ i_inum x < sb_ninodes sb →
  dinode_ok (on_disk_inode x) → i_type x ≠ 0 →
  (∃ t e, finishes serve me my_pid d (update_inode ip s) tt t e) ∧
  (∀ e, crashes serve me my_pid d (update_inode ip s) e →
     recovers log_start (block d) e ∨
     ∃ c, recovers log_start c e ∧ disk_inode c (i_inum x) = on_disk_inode x ∧
       ∀ i, 0 ≤ i < sb_ninodes sb → i ≠ i_inum x → disk_inode c i = disk_inode (block d) i) ∧
  ∀ t e, finishes serve me my_pid d (update_inode ip s) tt t e →
    quiet t e ∧ same_rest s t ∧
    (∀ i, 0 ≤ i < sb_ninodes sb → i ≠ i_inum x → disk_inode (block e) i = disk_inode (block d) i) ∧
    ∀ jp x0 k u, quiet u e → k_sb u = sb → (jp < NINODE)%nat → k_itable u !! jp = Some x0 →
      i_dev x0 = dev → i_inum x0 = i_inum x → 1 ≤ i_ref x0 → i_valid x0 = 0 →
      k_sleeplocks u !! SL_inode jp = Some k → sl_locked k = 0 →
      (∃ v f, finishes serve me my_pid e (ilock jp u) tt v f) ∧
      ∀ v f, finishes serve me my_pid e (ilock jp u) tt v f →
        f = e ∧ k_itable v !! jp = Some (x <| i_ref := i_ref x0 |> <| i_valid := 1 |>) ∧
        k_sleeplocks v !! SL_inode jp = Some (sl_taken my_pid k).
Proof.
  intros Hq Hm Hx Hdev Hin Hdk Hty. pose proof (update_inode_cwp ip x s d Hq Hm Hx Hdev Hin) as Hw.
  assert (Hlen : ∀ b, length (block d b) = Z.to_nat BSIZE) by apply length_block.
  split; [destruct (cwp_total serve me my_pid _ _ _ _ Hw) as ([] & t & e & Hf); by exists t, e|]. split.
  { intros e Hc. destruct (cwp_crash serve me my_pid _ _ _ _ _ Hw Hc) as [?|?]; [by left|right].
    exists (put_inode sb x (block d)). split; [done|]. split; [by apply put_inode_get|].
    intros i Hi Hne. by apply put_inode_other. }
  intros t e Hf. destruct (cwp_finish serve me my_pid _ _ _ _ _ _ _ Hw Hf) as (Hqe & Hrest & Hsame).
  assert (Hdi : ∀ i, 0 ≤ i < sb_ninodes sb → disk_inode (block e) i = disk_inode (put_inode sb x (block d)) i).
  { intros i Hi. unfold disk_inode. rewrite Hsame; [done|]. by apply (ge_inodes_home _ Hgeo). }
  split; [done|]. split; [done|]. split; [intros i Hi Hne; rewrite Hdi by done; by apply put_inode_other|].
  intros jp x0 k u Hqu Hsb Hjp Hx0 Hdev0 Hnum Hr Hv Hk Hz.
  assert (Hget : disk_inode (block e) (i_inum x0) = on_disk_inode x) by (rewrite Hnum, Hdi by done; by apply put_inode_get).
  pose proof (ilock_load_op (block e) [] u e jp x0 k (q_cache _ _ Hqu) Hsb Hjp Hx0 Hdev0 Hr Hv) as Hop.
  fold (disk_inode (block e) (i_inum x0)) in Hop. rewrite Hget, Hnum in Hop.
  specialize (Hop Hin Hk Hz ltac:(unfold NBUF; cbn; lia) Hty).
  split; [destruct (cwp_total serve me my_pid _ _ _ _ Hop) as ([] & v & f & Hv'); by exists v, f|].
  intros v f Hv'. destruct (cwp_finish serve me my_pid _ _ _ _ _ _ _ Hop Hv') as (-> & _ & Hv2 & Hlk & _). split; [done|]. split; [|done].
  rewrite Hv2. f_equal. unfold loaded. destruct x, x0. cbn in *. by subst.
Qed.

End dinode.
