(* ===== verification/ReadSpec.v ===== *)
(** * Reading files

    [fileread] against the bytes of the file, and what a program reads after
    it has written. *)

From S2P Require Import Prelude Decimal Riscv State Boot Spinlock ProcTable Machine CString Kalloc Vm VmSpec UserMem Printf Sched SchedSpec Sleeplock SleeplockSpec FsDefs Virtio Bio BioSpec Frame Log LogSpec DiskSpec CacheSpec PrintfSpec CrashSpec TxnSpec Fs AllocSpec InodeSpec FileSpec TransSpec WriteSpec Pipe Console File.

Section read.
Context `{IM : Image, DV : Device, PT : Patience, OW : Own, SS : !Session} (sb : superblock) (Hgeo : geometry sb).

Abbreviation cst := (cache_st me my_pid dev).
Abbreviation ready := (ready sb).

Lemma quiet_same s s' d : quiet s d → k_log s' = k_log s → cst (block d) [] [] s' d → quiet s' d.
Proof. intros [Hst Hw Hl Hn Ho Hh] Hlog Hst'. split; rewrite ?Hlog; done. Qed.

Lemma cst_ftable c pins H s d g : cst c pins H s d → cst c pins H (s <| k_ftable ::= g |>) d.
Proof. intros [[Hu Hv] Hwf Hb Hh Hf Hp Hd Hl Hc]. split; try done. intros b bn Hin. by destruct (Hh b bn Hin). Qed.

(** The outcome of a read of [k] bytes at [off]: the program has them, the file's offset has
    advanced, and nothing else has changed. *)
Record was_read (f ip : nat) (fl : file) (x : inode) (addr k : Z) (d : disk) (t : kernel) : Prop := {
  wd_quiet : quiet t d;
  wd_ready : ready f ip (fl <| f_off := f_off fl + k |>) x t;
  wd_bytes : ubytes (k_mem t) own_pagetable addr (Z.to_nat k) = file_slice x (block d) (f_off fl) (Z.to_nat k)
}.

(** From the end of [readi] on. *)
Lemma fileread_end f ip fl x addr n k m s s3 d : (ip < NINODE)%nat → own_file f → 0 ≤ f_off fl → 0 ≤ k → f_off fl + k < 2 ^ 32 →
  quiet s d → ready f ip fl x s → received addr n (file_slice x (block d) (f_off fl) (Z.to_nat k)) s3 →
  cst (block d) [] [] s3 d → same_but_mem (locked ip (sl_taken my_pid m) s) s3 →
  op d ((when (0 <? k) (upd_file f (λ x, x <| f_off ::= λ o, u32 (o + k) |>));; iunlock ip;; mret k) s3)
    (λ r t, r = k ∧ was_read f ip fl x addr k d t).
Proof.
  intros Hip Hof Ho Hk Hlt Hq [Hf Hx Hr Hv _ Hm] Hrc Hst3 [Hlog Hsb Hp1 Hp2 Hi Hil Hfl].
  assert (Hf3 : k_ftable s3 !! f = Some fl) by (rewrite Hfl by done; exact Hf).
  set (fl' := fl <| f_off := f_off fl + k |>).
  assert (∃ s4, when (0 <? k) (upd_file f (λ x, x <| f_off ::= λ o, u32 (o + k) |>)) s3 = Ret tt s4 ∧ cst (block d) [] [] s4 d ∧
    k_ftable s4 !! f = Some fl' ∧ k_mem s4 = k_mem s3 ∧ k_log s4 = k_log s3 ∧ k_itable s4 = k_itable s3 ∧ k_sleeplocks s4 = k_sleeplocks s3 ∧ mounted sb s4)
    as (s4 & Hrun4 & Hst4 & Hf4 & Hm4 & Hl4 & Hi4 & Hs4 & Hmt4).
  { assert (Hm3 : mounted sb s3) by (destruct Hm; split; [by rewrite Hsb|by rewrite Hp1|by rewrite Hp2]). destruct (Z.ltb_spec 0 k) as [Hlt0|Hge]; cbn [when].
    - unfold upd_file, get_file. mrun. rewrite Hf3. mrun. eexists. split; [done|]. split; [by apply cst_ftable|].
      split; [|do 4 (split; [done|]); by destruct Hm3; split].
      ksimpl. rewrite list_lookup_insert_eq by (by eapply lookup_lt_Some). unfold fl'.
      change (fl <| f_off ::= λ o, u32 (o + k) |>) with (fl <| f_off := u32 (f_off fl + k) |>). by rewrite u32_small by lia.
    - exists s3. split; [done|]. split; [done|]. split; [|done]. unfold fl'. replace k with 0 by lia. rewrite Z.add_0_r, Hf3. by destruct fl. }
  eapply op_step; [exact Hrun4|]. cbn beta. set (kk := sl_taken my_pid m) in *.
  assert (Hk4 : k_sleeplocks s4 !! SL_inode ip = Some kk) by (rewrite Hs4, Hil; apply lookup_insert_eq).
  assert (Hx4 : k_itable s4 !! ip = Some x) by (rewrite Hi4, Hi; exact Hx).
  destruct (iunlock_run (block d) [] [] s4 d ip x kk Hst4 Hip Hx4 Hr Hk4) as [Hrun5 Hst5]; [done|done|].
  eapply op_step; [exact Hrun5|]. cbn beta. apply op_ret. split; [done|]. split.
  - apply (quiet_same s); [done| |done]. change (k_log (unlocked ip kk s4)) with (k_log s4). by rewrite Hl4, Hlog.
  - split; try done; [|by destruct Hmt4; split]. exists (sl_free kk). split; [apply lookup_insert_eq|done].
  - change (k_mem (unlocked ip kk s4)) with (k_mem s4). rewrite Hm4. destruct Hrc as (_ & _ & Hb). by rewrite length_file_slice in Hb.
Qed.

Lemma fileread_op f ip fl x addr n s d (k := available x (f_off fl) n) :
  quiet s d → ready f ip fl x s → own_file f → (ip < NINODE)%nat → file_ok sb (block d) x → user_dest addr k (k_mem s) →
  f_readable fl ≠ 0 → f_type fl = FD_INODE → f_ip fl = Some ip → 0 ≤ f_off fl → 0 ≤ n → f_off fl + n < 2 ^ 32 →
  op d (fileread f addr n s) (λ r t, r = k ∧ was_read f ip fl x addr k d t).
Proof.
  intros Hq Hrd Hof Hip Hok Hud Hr Hty Hfip Ho Hn Hlt. pose proof Hrd as [Hf Hx Href Hv (m & Hk & Hz) Hm]. pose proof (fo_bound sb _ _ Hok) as Hb.
  assert (Hka : 0 ≤ k ≤ n) by (unfold k, available; lia). unfold fileread.
  assert (Hg : get_file f s = Ret fl s) by (unfold get_file; by rewrite Hf).
  eapply op_step; [exact Hg|]. cbn beta. rewrite (proj2 (Z.eqb_neq _ _) Hr), Hty, Hfip. cbn iota. eapply op_step; [done|]. cbn beta.
  destruct (ilock_run (block d) [] [] s d ip x m (q_cache _ _ Hq) Hip Hx Href Hv Hk Hz) as [Hr2 Hst2].
  eapply op_step; [exact Hr2|]. cbn beta. set (s2 := locked ip (sl_taken my_pid m) s) in *.
  assert (Hg2 : get_file f s2 = Ret fl s2) by (unfold get_file; change (k_ftable s2) with (k_ftable s); by rewrite Hf).
  eapply op_step; [exact Hg2|]. cbn beta. rewrite u32_small by lia.
  eapply op_bind.
  - apply (readi_op sb Hgeo ip true addr (f_off fl) n (block d) x [] s2 d (received addr k)); try done.
    + unfold fits, NBUF. cbn. lia.
    + assert (HV : MAXVA < 2 ^ 64) by done. destruct (ud_range _ _ _ Hud). lia.
    + apply user_sink.
    + split; [done|]. split; [cbn; lia|done].
  - cbn beta. intros r s3 (-> & Hrc & [Hst3 Hsm]). eapply (fileread_end f ip fl x addr k k m s s3 d); try done; lia.
Qed.

(** C11: [fileread] on an open file ends; it returns the
    number of bytes that the file has from its offset on, at most [n]; the program's buffer
    then holds exactly those bytes, the offset has advanced by as many, and the disk is
    as it was. *)
Theorem fileread_reads f ip fl x addr n s d (k := available x (f_off fl) n) :
  quiet s d → ready f ip fl x s → own_file f → (ip < NINODE)%nat → file_ok sb (block d) x → user_dest addr k (k_mem s) →
  f_readable fl ≠ 0 → f_type fl = FD_INODE → f_ip fl = Some ip → 0 ≤ f_off fl → 0 ≤ n → f_off fl + n < 2 ^ 32 →
  (∃ r t e, finishes serve me my_pid d (fileread f addr n s) r t e) ∧
  ∀ r t e, finishes serve me my_pid d (fileread f addr n s) r t e →
    r = k ∧ e = d ∧ quiet t d ∧ ready f ip (fl <| f_off := f_off fl + k |>) x t ∧
    ubytes (k_mem t) own_pagetable addr (Z.to_nat k) = slice (Z.to_nat (f_off fl)) (Z.to_nat k) (file_bytes x (block d)).
Proof.
  intros Hq Hrd Hof Hip Hok Hud Hr Hty Hfip Ho Hn Hlt.
  pose proof (fileread_op f ip fl x addr n s d Hq Hrd Hof Hip Hok Hud Hr Hty Hfip Ho Hn Hlt) as Hop.
  split; [exact (cwp_total serve me my_pid _ _ _ _ Hop)|].
  intros r t e Hf. destruct (cwp_finish serve me my_pid _ _ _ _ _ _ _ Hop Hf) as (-> & -> & [Hq' Hrd' Hb]).
  do 4 (split; [done|]). fold k in Hb. rewrite Hb. destruct (decide (k = 0)) as [->|Hk]; [done|].
  symmetry. apply file_slice_bytes; [done|]. unfold k, available in *. lia.
Qed.

(** C9: What is written is what is read.  Let a program write [n] bytes through one open
    file and read as many through another that is open on the same inode at the same offset.
    When the write returns [n], the read ends, returns [n], and the buffer it filled holds
    the bytes of the buffer that was written, whatever blocks, pages and transactions they passed
    through. *)
Theorem write_then_read f g ip fl gl x addr addr' n s d :
  quiet s d → ready f ip fl x s → own_file f → own_file g → g ≠ f → k_ftable s !! g = Some gl → (ip < NINODE)%nat →
  file_on sb (block d) x → user_range addr n s → user_dest addr' n (k_mem s) →
  f_writable fl ≠ 0 → f_type fl = FD_INODE → f_ip fl = Some ip →
  f_readable gl ≠ 0 → f_type gl = FD_INODE → f_ip gl = Some ip → f_off gl = f_off fl →
  0 ≤ f_off fl ≤ i_size x → f_off fl + n ≤ MAXFILE * BSIZE →
  (∃ r t e, finishes serve me my_pid d (filewrite f addr n s) r t e) ∧
  ∀ t e, finishes serve me my_pid d (filewrite f addr n s) n t e →
    (∃ r u e', finishes serve me my_pid e (fileread g addr' n t) r u e') ∧
    ∀ r u e', finishes serve me my_pid e (fileread g addr' n t) r u e' →
      r = n ∧ e' = e ∧
      ubytes (k_mem u) own_pagetable addr' (Z.to_nat n) = ubytes (k_mem s) own_pagetable addr (Z.to_nat n).
Proof.
  intros Hq Hrd Hof Hog Hne Hg Hip Hon Hur Hud Hw Hty Hfip Hr Hty' Hgip Ho' Ho Hlim. destruct (ur_range _ _ _ Hur) as (Ha & Hn & _).
  set (l := ubytes (k_mem s) own_pagetable addr (Z.to_nat n)). assert (Hl : length l = Z.to_nat n) by apply length_ubytes.
  pose proof (filewrite_cwp sb Hgeo f ip fl x addr l s d Hof Hip Hon Ho ltac:(rewrite Hl; lia) (user_source _ _ _ Hur) Hq Hrd Hw Hty Hfip) as Hwp.
  rewrite Hl, Z2Nat.id in Hwp by done. split; [exact (cwp_total serve me my_pid _ _ _ _ Hwp)|]. intros t e Hf.
  destruct (cwp_finish serve me my_pid _ _ _ _ _ _ _ Hwp Hf) as (k & x' & [[_ _ Hfw] Hq' [_ Hx' Href' Hv' Hlk' Hm'] Hsb] & Hcase).
  assert (k = n) as -> by (destruct Hcase as [[_ ->]|[? _]]; lia). clear Hcase.
  rewrite <- Hl, firstn_all in Hfw. destruct (written_attrs _ _ _ _ _ _ _ Hfw) as (_ & _ & _ & Hsz). rewrite Hl, Z2Nat.id in Hsz by done.
  assert (Hav : available x' (f_off gl) n = n) by (unfold available; lia). pose proof (fw_bytes _ _ _ _ _ _ _ Hfw) as Hb.
  assert (Hop : op e (fileread g addr' n t) (λ r u, r = n ∧ was_read g ip gl x' addr' n e u)).
  { eapply op_mono; [eapply (fileread_op g ip gl x' addr' n t e); try done; rewrite ?Hav|by rewrite Hav].
    - split; try done. by rewrite (proj2 Hsb) by done.
    - apply Hfw.
    - eapply user_dest_same; [|exact Hud]. eapply user_dest_tables; [exact Hud|apply Hsb].
    - lia.
    - change (MAXFILE * BSIZE) with 274432 in Hlim. lia. }
  split; [exact (cwp_total serve me my_pid _ _ _ _ Hop)|].
  intros r u e' Hfr. destruct (cwp_finish serve me my_pid _ _ _ _ _ _ _ Hop Hfr) as (-> & -> & [_ _ Hbytes]).
  do 2 (split; [done|]). rewrite Hbytes, Ho'. rewrite <- file_slice_bytes by lia. rewrite Hb. unfold slice.
  assert (Hlt : length (take (Z.to_nat (f_off fl)) (file_bytes x (block d))) = Z.to_nat (f_off fl)) by (rewrite length_take, length_file_bytes; lia).
  rewrite drop_app_ge by lia. rewrite Hlt, Nat.sub_diag, drop_0. by rewrite take_app_length' by done.
Qed.

End read.
