(* ===== verification/FsDemo.v ===== *)
(** * A small file system

    A disk of 100 blocks with one file, and the machine that uses it: the theorems on the
    file system at work on concrete data. *)

From S2P Require Import Prelude Decimal Riscv State Boot Spinlock ProcTable Machine CString Kalloc Vm VmSpec UserMem Printf Sched SchedSpec Sleeplock SleeplockSpec FsDefs Virtio Bio BioSpec Frame Log LogSpec DiskSpec CacheSpec PrintfSpec CrashSpec TxnSpec Fs AllocSpec InodeSpec FileSpec TransSpec WriteSpec DinodeSpec ReadSpec Pipe Console File.

#[local] Existing Instance demo_image.
#[local] Existing Instance demo_device.
#[local] Instance demo_patience : Patience := {| patience := 1 |}.
(** The process owns all of the memory and of the file table. *)
#[local] Instance fs_own : Own :=
  {| own_mem := λ _, True; own_file := λ _, True; own_kstack := 0x80200000; own_pagetable := demo_pg 1 |}.
#[local] Instance fs_session : Session :=
  {| serve := demo_serve; serve_ok := demo_serve_ok; me := 3; my_pid := 4; dev := 1;
     dev_ok := conj eq_refl eq_refl; log_start := 2; log_start_ok := ltac:(unfold LOGBLOCKS, MAXOPBLOCKS; lia);
     patient := le_n 1; uart_ok := demo_uart |}.

(** ** The disk *)

(** The log is in blocks 2 to 32, the inodes in 33, the bitmap in 34; the file is inode 1, its
    five bytes in block 35; blocks 0 to 39 are in use. *)
Definition fs_sb : superblock := Superblock 0x10203040 100 65 10 30 2 33 34.
Definition fs_inode : inode := Inode 1 1 2 1 2 0 0 1 5 (35 :: replicate 12 0).
Definition fs_bitmap : list Z := replicate 5 255 ++ replicate (Z.to_nat BSIZE - 5) 0.
Definition fs_hello : list Z := str "hello" ++ replicate (Z.to_nat BSIZE - 5) 0.
Definition fs_dinodes : list Z := dinode_put 1 (on_disk_inode fs_inode) zero_block.
Definition fs_disk : disk := wr_block 33 fs_dinodes (wr_block 34 fs_bitmap (wr_block 35 fs_hello (λ _, 0))).

Lemma fs_blocks : block fs_disk 33 = fs_dinodes ∧ block fs_disk 34 = fs_bitmap ∧ block fs_disk 35 = fs_hello.
Proof.
  assert (length fs_dinodes = Z.to_nat BSIZE ∧ length fs_bitmap = Z.to_nat BSIZE ∧ length fs_hello = Z.to_nat BSIZE) as (H1 & H2 & H3)
    by (split_and!; vm_compute; reflexivity).
  unfold fs_disk. split; [by rewrite block_wr_same|]. split.
  - by rewrite block_wr_other, block_wr_same.
  - by rewrite block_wr_other, block_wr_other, block_wr_same.
Qed.

Lemma fs_geometry : geometry fs_sb.
Proof.
  assert (HB : ∀ b, 0 ≤ b < 100 → BBLOCK b fs_sb = 34).
  { intros b Hb. unfold BBLOCK. change BPB with 8192. by rewrite Z.div_small by lia. }
  assert (HI : ∀ i, 0 ≤ i < 10 → IBLOCK i fs_sb = 33).
  { intros i Hi. unfold IBLOCK. change IPB with 16. by rewrite Z.div_small by lia. }
  split.
  - cbn. lia.
  - change (sb_size fs_sb / BPB) with 0. cbn. lia.
  - change (sb_ninodes fs_sb / IPB) with 0. cbn. lia.
  - intros i b Hi Hb. by rewrite HB, HI.
  - intros b Hb. rewrite HB by done. unfold home, is_home, blockno_ok, LOGBLOCKS, MAXOPBLOCKS. cbn. lia.
  - intros i Hi. rewrite HI by done. unfold home, is_home, blockno_ok, LOGBLOCKS, MAXOPBLOCKS. cbn. lia.
Qed.

Lemma fs_data_addr c bn : 0 ≤ bn → data_addr fs_inode c bn = if bn =? 0 then 35 else 0.
Proof.
  intros Hb. unfold data_addr. destruct (Z.ltb_spec bn NDIRECT) as [Hlt|Hge].
  - unfold addr_at. destruct (Z.eqb_spec bn 0) as [->|Hne]; [done|]. replace (Z.to_nat bn) with (S (Z.to_nat (bn - 1))) by lia.
    cbn [i_addrs fs_inode lookup list_lookup]. destruct (replicate 12 0 !! _) eqn:E; [|done]. by apply lookup_replicate in E as [-> _].
  - destruct (Z.eqb_spec bn 0) as [->|Hne]; [unfold NDIRECT in Hge; lia|done].
Qed.

Lemma fs_data b : 35 ≤ b < 100 → data_block fs_sb b.
Proof.
  intros Hb. split.
  - unfold is_block. cbn. lia.
  - lia.
  - intros b' Hb'. unfold is_block in Hb'. cbn in Hb'. unfold BBLOCK. change BPB with 8192. rewrite Z.div_small by lia.
    change (u32 (0 + sb_bmapstart fs_sb)) with 34. lia.
  - intros i Hi. cbn in Hi. unfold IBLOCK. change IPB with 16. rewrite Z.div_small by lia.
    change (u32 (0 + sb_inodestart fs_sb)) with 33. lia.
  - unfold home, is_home, blockno_ok, LOGBLOCKS, MAXOPBLOCKS. cbn. lia.
Qed.

Lemma fs_used b : 0 ≤ b < 40 → used fs_sb (block fs_disk) b = true.
Proof.
  intros Hb. unfold used. assert (BBLOCK b fs_sb = 34) as -> by (unfold BBLOCK; change BPB with 8192; by rewrite Z.div_small by lia).
  rewrite (proj1 (proj2 fs_blocks)). assert (Hall : forallb (λ i, bit_at fs_bitmap (Z.of_nat i mod BPB)) (seq 0 40) = true) by (vm_compute; reflexivity).
  rewrite forallb_forall in Hall. specialize (Hall (Z.to_nat b) ltac:(apply in_seq; lia)). by rewrite Z2Nat.id in Hall by lia.
Qed.

Lemma fs_file_ok : file_ok fs_sb (block fs_disk) fs_inode.
Proof.
  split; [done|vm_compute; done|done| |].
  - intros bn Hb Hlt. rewrite fs_data_addr by done. change (i_size fs_inode) with 5 in Hlt. change BSIZE with 1024 in Hlt.
    by rewrite (proj2 (Z.eqb_eq bn 0)) by lia.
  - split.
    + intros bn [Hb _]. rewrite fs_data_addr by done. destruct (bn =? 0); [|done]. intros _. split; [apply fs_data; lia|apply fs_used; lia].
    + intros Hi. by destruct Hi.
    + intros bn [Hb _]. rewrite fs_data_addr by done. destruct (bn =? 0); [done|done].
    + intros bn bn' [Hb _] [Hb' _]. rewrite !fs_data_addr by done. destruct (Z.eqb_spec bn 0), (Z.eqb_spec bn' 0); lia.
Qed.

Lemma fs_meta : meta_used fs_sb (block fs_disk).
Proof.
  intros b Hb Hu. apply fs_data. unfold is_block in Hb. cbn in Hb. destruct (decide (b < 40)); [|lia]. rewrite fs_used in Hu; [done|lia].
Qed.

Lemma fs_file_on : file_on fs_sb (block fs_disk) fs_inode.
Proof.
  split; [exact fs_file_ok|exact fs_meta|cbn; lia|]. change (IBLOCK (i_inum fs_inode) fs_sb) with 33. rewrite (proj1 fs_blocks).
  change (i_inum fs_inode mod IPB) with 1. unfold fs_dinodes. rewrite dinode_put_twice; [done|vm_compute; done|apply length_replicate|done|done].
Qed.

(** ** The machine *)

(** Process 3 runs; file 0 stands at the end of the file, file 1 too, file 2 at its
    beginning. *)
Definition fs_self : proc := demo_proc RUNNING Ch_null 4 <| p_kstack := 0x80200000 |> <| p_pagetable := demo_pg 1 |>.
Definition fs_file (off : Z) : file := File FD_INODE 1 1 1 0 (Some 0%nat) off 0.
Definition fs_log : log := Log 2 0 0 1 0 (replicate (Z.to_nat LOGBLOCKS) 0).
Definition fs_state (x : inode) : kernel :=
  demo_sl <| k_vdisk := idle_vdisk |> <| k_procs := <[3%nat := fs_self]> demo_procs |> <| k_mem := k_mem demo_user |>
    <| k_bcache := demo_bufs |> <| k_log := fs_log |> <| k_itable := x :: replicate 49 zero_inode |>
    <| k_ftable := fs_file 5 :: fs_file 5 :: fs_file 0 :: replicate 97 zero_file |> <| k_sb := fs_sb |>.

#[local] Opaque demo_user fs_disk.

Lemma fs_user : disk_user 3 4 demo_sl_hart (<[3%nat := fs_self]> demo_procs).
Proof.
  destruct (@demo_io_user) as [H1 H2 H3 H4 _ _]. split; [exact H1|exact H2|exact H3|exact H4|reflexivity|].
  exists fs_self. split; [reflexivity|by split].
Qed.

Lemma fs_cache x : cache_st 3 4 1 (block fs_disk) [] [] (fs_state x) fs_disk.
Proof.
  assert (Hz : ∀ b y, demo_bufs !! b = Some y → b_refcnt y = 0 ∧ b_dev y = 0).
  { intros b y Hy. unfold demo_bufs in Hy. apply list_lookup_fmap_Some in Hy as (i & -> & _). done. }
  split.
  - split; [exact fs_user|exact idle_vdisk_idle].
  - exists demo_order. exact demo_cache_wf.
  - intros b y _ Hy. destruct (Hz b y Hy) as [Hr Hd]. split; [|rewrite Hd; intros _; discriminate].
    rewrite Hr. unfold Z_of_prop. rewrite !decide_False; [done|apply not_elem_of_nil|rewrite Hd; by intros [? _]].
  - intros b bn Hin. by apply not_elem_of_nil in Hin.
  - intros b k Hb _ Hk. change (k_sleeplocks (fs_state x)) with (k_sleeplocks demo_sl) in Hk.
    rewrite (proj2 (demo_sl_locks b Hb)) in Hk. by injection Hk as <-.
  - intros bn Hbn. by apply not_elem_of_nil in Hbn.
  - apply NoDup_nil_2.
  - intros bn. apply length_block.
  - done.
Qed.

Lemma fs_header : hd_n (block fs_disk 2) = 0.
Proof.
  assert (block fs_disk 2 = zero_block) as ->; [|vm_compute; reflexivity]. Transparent fs_disk.
  unfold fs_disk. rewrite block_wr_other, block_wr_other, block_wr_other by (done || (vm_compute; reflexivity)). vm_compute. reflexivity.
Qed.

Lemma fs_quiet x : quiet (fs_state x) fs_disk.
Proof. split; [apply fs_cache|done|done|done|done|exact fs_header]. Qed.

Lemma fs_inode_lock x : k_sleeplocks (fs_state x) !! SL_inode 0 = Some (Sleeplock 0 "inode" 0).
Proof. change (k_sleeplocks (fs_state x)) with (k_sleeplocks demo_sl). vm_compute. reflexivity. Qed.

Lemma fs_mounted x : mounted fs_sb (fs_state x).
Proof. by split. Qed.

Lemma fs_ready f off : (f = 0%nat ∧ off = 5) ∨ (f = 2%nat ∧ off = 0) → ready fs_sb f 0 (fs_file off) fs_inode (fs_state fs_inode).
Proof.
  intros Hf. split; [|done|vm_compute; done|done|by eexists; split; [apply fs_inode_lock|]|apply fs_mounted].
  by destruct Hf as [[-> ->]|[-> ->]].
Qed.

Lemma fs_source : user_range 4000 200 (fs_state fs_inode).
Proof.
  change (k_mem (fs_state fs_inode)) with (k_mem demo_user). split.
  - apply demo_user_map.
  - split_and!; [lia|lia|vm_compute; done].
  - intros i Hi. destruct (demo_user_writable (4000 + i)) as [Hr _]; [unfold PGSIZE; lia|exact Hr].
  - done.
  - done.
Qed.

Lemma fs_dest n : 0 ≤ n ≤ 200 → user_dest 1000 n (k_mem (fs_state fs_inode)).
Proof.
  intros Hn. change (k_mem (fs_state fs_inode)) with (k_mem demo_user). split.
  - apply demo_user_map.
  - split_and!; [lia|lia|]. assert (1200 ≤ MAXVA) by (vm_compute; done). lia.
  - intros i Hi. apply demo_user_writable. unfold PGSIZE. lia.
  - apply demo_user_distinct; [lia|]. unfold PGSIZE. lia.
  - done.
  - done.
Qed.

(** ** The theorems at work *)

Lemma filewrite_survives_crashes_witness :
  ∃ r t e, finishes demo_serve 3 4 fs_disk (filewrite 0 4000 200 (fs_state fs_inode)) r t e ∧ (r = 200 ∨ r = -1).
Proof.
  destruct (filewrite_survives_crashes fs_sb fs_geometry 0 0 (fs_file 5) fs_inode 4000 200 (fs_state fs_inode) fs_disk) as ((r & t & e & Hf) & Hall & _).
  - apply fs_quiet.
  - apply fs_ready. left. done.
  - exact I.
  - unfold NINODE. lia.
  - exact fs_file_on.
  - exact fs_source.
  - discriminate.
  - reflexivity.
  - reflexivity.
  - cbn. lia.
  - vm_compute. discriminate.
  - exists r, t, e. split; [exact Hf|]. destruct (Hall r t e Hf) as (k & x' & _ & [[Hr _]|[Hr _]]); [left|right]; exact Hr.
Defined.

Lemma fileread_reads_witness :
  ∃ t, finishes demo_serve 3 4 fs_disk (fileread 2 1000 200 (fs_state fs_inode)) 5 t fs_disk ∧
    ubytes (k_mem t) (demo_pg 1) 1000 5 = str "hello".
Proof.
  destruct (fileread_reads fs_sb fs_geometry 2 0 (fs_file 0) fs_inode 1000 200 (fs_state fs_inode) fs_disk) as ((r & t & e & Hf) & Hall).
  - apply fs_quiet.
  - apply fs_ready. right. done.
  - exact I.
  - unfold NINODE. lia.
  - exact fs_file_ok.
  - apply fs_dest. vm_compute. split; discriminate.
  - discriminate.
  - reflexivity.
  - reflexivity.
  - cbn. lia.
  - lia.
  - cbn. lia.
  - destruct (Hall r t e Hf) as (Hr & He & _ & _ & Hb). change (available fs_inode (f_off (fs_file 0)) 200) with 5 in Hr, Hb.
    subst r e. exists t. split; [exact Hf|]. etransitivity; [exact Hb|]. change (f_off (fs_file 0)) with 0. unfold slice. rewrite drop_0.
    rewrite take_ge by (rewrite length_file_bytes; vm_compute; lia). unfold file_bytes. change (Z.to_nat (i_size fs_inode)) with 5%nat.
    assert (Hbyte : ∀ i, 0 ≤ i < 1024 → file_byte fs_inode (block fs_disk) i = default 0 (fs_hello !! Z.to_nat i)).
    { intros i Hi. unfold file_byte. change BSIZE with 1024. rewrite Z.div_small, Z.mod_small, fs_data_addr by lia.
      change (if 0 =? 0 then 35 else 0) with 35. by rewrite (proj2 (proj2 fs_blocks)). }
    cbn [seq fmap list_fmap]. rewrite !Hbyte by lia. vm_compute. reflexivity.
Defined.

Lemma write_then_read_witness :
  ∃ r t e, finishes demo_serve 3 4 fs_disk (filewrite 0 4000 200 (fs_state fs_inode)) r t e ∧
    (r = 200 → ∃ u, finishes demo_serve 3 4 e (fileread 1 1000 200 t) 200 u e).
Proof.
  destruct (write_then_read fs_sb fs_geometry 0 1 0 (fs_file 5) (fs_file 5) fs_inode 4000 1000 200 (fs_state fs_inode) fs_disk) as ((r & t & e & Hf) & Hall).
  - apply fs_quiet.
  - apply fs_ready. left. done.
  - exact I.
  - exact I.
  - discriminate.
  - reflexivity.
  - unfold NINODE. lia.
  - exact fs_file_on.
  - exact fs_source.
  - apply fs_dest. lia.
  - discriminate.
  - reflexivity.
  - reflexivity.
  - discriminate.
  - reflexivity.
  - reflexivity.
  - reflexivity.
  - cbn. lia.
  - vm_compute. discriminate.
  - exists r, t, e. split; [exact Hf|]. intros ->. destruct (Hall t e Hf) as ((r & u & e' & Hr) & Hread).
    destruct (Hread r u e' Hr) as (-> & -> & _). exists u. exact Hr.
Defined.

(** The file gets a second link; the entry is given up and taken again. *)
Definition fs_linked : inode := fs_inode <| i_nlink := 2 |>.
Definition fs_forgotten : inode := Inode 1 1 1 0 0 0 0 0 0 (replicate 13 0).

Lemma ilock_loads_witness :
  ∃ t e v, finishes demo_serve 3 4 fs_disk (update_inode 0 (fs_state fs_linked)) tt t e ∧
    finishes demo_serve 3 4 e (ilock 0 (t <| k_itable ::= <[0%nat := fs_forgotten]> |>)) tt v e ∧
    k_itable v !! 0%nat = Some (fs_linked <| i_ref := 1 |>).
Proof.
  destruct (ilock_loads fs_sb fs_geometry 0 fs_linked (fs_state fs_linked) fs_disk) as ((t & e & Hf) & _ & Hall).
  - apply fs_quiet.
  - split; reflexivity.
  - reflexivity.
  - reflexivity.
  - cbn. lia.
  - split; try (cbn; lia). apply (bool_decide_unpack _). vm_compute. exact I.
  - discriminate.
  - destruct (Hall t e Hf) as (Hq & Hrest & _ & Hload). pose proof (sr_itable _ _ Hrest) as Hit.
    destruct (Hload 0%nat fs_forgotten (Sleeplock 0 "inode" 0) (t <| k_itable ::= <[0%nat := fs_forgotten]> |>)) as ((v & f & Hv) & Hthen).
    + apply quiet_itable. exact Hq.
    + exact (mt_sb _ _ (mounted_same fs_sb (fs_state fs_linked) t ltac:(split; reflexivity) Hrest)).
    + unfold NINODE. lia.
    + ksimpl. rewrite Hit. reflexivity.
    + reflexivity.
    + reflexivity.
    + cbn. lia.
    + reflexivity.
    + ksimpl. rewrite (se_ilocks _ _ (sr_env _ _ Hrest)). apply fs_inode_lock.
    + reflexivity.
    + destruct (Hthen v f Hv) as (-> & Hx & _). exists t, e, v. split; [exact Hf|]. split; [exact Hv|exact Hx].
Defined.

(** In a transaction. *)
Lemma fs_txn : ∃ s, txn (block fs_disk) [] [] s fs_disk ∧ mounted fs_sb s ∧ k_itable s !! 0%nat = Some fs_inode.
Proof.
  destruct (begin_st (fs_state fs_inode) fs_disk (fs_quiet _)) as (s & _ & Ht & Hs). exists s. split; [exact Ht|].
  split; [by apply (mounted_same fs_sb (fs_state fs_inode))|]. by rewrite (sr_itable _ _ Hs).
Qed.

Lemma balloc_first_free_witness : ∃ s t e, finishes demo_serve 3 4 fs_disk (balloc 1 s) 40 t e.
Proof.
  destruct fs_txn as (s & Ht & Hm & _). exists s.
  destruct (balloc_first_free fs_sb fs_geometry (block fs_disk) [] s fs_disk Ht Hm) as ((r & t & e & Hf) & Hall).
  - apply meta_free, fs_meta.
  - vm_compute. lia.
  - exists t, e. assert (used fs_sb (block fs_disk) 40 = false) as H40.
    { unfold used. change (BBLOCK 40 fs_sb) with 34. rewrite (proj1 (proj2 fs_blocks)). vm_compute. reflexivity. }
    destruct (Hall r t e Hf) as (_ & _ & [(_ & Hu & _)|([Hr _] & Hu & Hmin & _)]).
    + exfalso. rewrite Hu in H40; [discriminate|]. unfold is_block. cbn. lia.
    + assert (r = 40) as <-; [|exact Hf]. destruct (Z.lt_trichotomy r 40) as [Hlt|[He|Hgt]]; [|exact He|].
      * exfalso. rewrite fs_used in Hu; [discriminate|lia].
      * exfalso. rewrite Hmin in H40; [discriminate|lia].
Defined.

Lemma bmap_grows_witness : ∃ s r t e, finishes demo_serve 3 4 fs_disk (bmap 0 20 s) r t e.
Proof.
  destruct fs_txn as (s & Ht & Hm & Hx). exists s.
  destruct (bmap_grows fs_sb fs_geometry 0 20 (block fs_disk) fs_inode [] s fs_disk Ht Hm Hx fs_file_ok fs_meta) as ((r & t & e & Hf) & _).
  - vm_compute. lia.
  - vm_compute. split; [discriminate|reflexivity].
  - exists r, t, e. exact Hf.
Defined.
