(* ===== verification/Mkfs.v ===== *)
(** * The image builder (mkfs/mkfs.c)

    mkfs runs on the host and writes the disk the kernel boots from.  The image
    is a file: bytes by offset and a length in blocks.  A program that prints an
    error and exits, or whose assertion fails, ends in [Died] or [Asserted].

    The host is little-endian, so that the fields of the structures, which the
    code converts with [xint] and [xshort], are the numbers of fs.h.  The files to
    be added are given by their names and what [read] returns for each, piece by
    piece, up to the first 0 or -1.  The host's [lseek] and [write] succeed; the
    messages, the check of the number of arguments and the opening of the image are left out. *)

From S2P Require Import Prelude Riscv State CString FsDefs Log.

Definition NINODES : Z := 200.

Definition nbitmap : Z := FSSIZE / BPB + 1.
Definition ninodeblocks : Z := NINODES / IPB + 1.
Definition nlog : Z := LOGBLOCKS + 1.
Definition nmeta : Z := 2 + nlog + ninodeblocks + nbitmap.
Definition nblocks : Z := FSSIZE - nmeta.

(** ** The program's state *)

(** The image file and the two counters. *)
Record mkst := Mkst {
  img : Z → Z; img_blocks : Z;
  freeinode : Z; freeblock : Z
}.

Inductive mkres (A : Type) :=
| Ok (a : A) (m : mkst)
| Died (what : list Z)
| Asserted.
Arguments Ok {A} a m.
Arguments Died {A} what.
Arguments Asserted {A}.

Definition MK (A : Type) : Type := mkst → mkres A.
#[export] Instance mk_ret : MRet MK := λ A a m, Ok a m.
#[export] Instance mk_bind : MBind MK := λ A B f p m,
  match p m with Ok a m' => f a m' | Died w => Died w | Asserted => Asserted end.

Definition die {A} (what : list Z) : MK A := λ _, Died what.
Definition assert_ (b : bool) : MK unit := λ m, if b then Ok tt m else Asserted.

Fixpoint mk_for {A} (l : list A) (body : A → MK unit) : MK unit :=
  match l with
  | [] => mret tt
  | x :: l => body x;; mk_for l body
  end.

(** [freeblock++] and [freeinode++] *)
Definition take_block : MK Z := λ m, Ok (freeblock m) (Mkst (img m) (img_blocks m) (freeinode m) (u32 (freeblock m + 1))).
Definition take_inum : MK Z := λ m, Ok (freeinode m) (Mkst (img m) (img_blocks m) (u32 (freeinode m + 1)) (freeblock m)).

(** [pread] and [pwrite] of the image file. *)
Definition pread (d : Z → Z) (off : Z) (n : nat) : list Z := (λ i, d (off + Z.of_nat i)) <$> seq 0 n.
Definition pwrite (off : Z) (bs : list Z) (d : Z → Z) : Z → Z := λ a,
  if (off <=? a) && (a <? off + Z.of_nat (length bs)) then default 0 (bs !! Z.to_nat (a - off)) else d a.

(** ** Blocks *)

(** [xshort] and [xint]: the value with the bytes of its argument in
    little-endian order. *)
Definition xshort (x : Z) : Z := le_val [u8 x; u8 (Z.shiftr x 8)].
Definition xint (x : Z) : Z := le_val [u8 x; u8 (Z.shiftr x 8); u8 (Z.shiftr x 16); u8 (Z.shiftr x 24)].

(** A write may extend the file, a read behind its end is short. *)
Definition wsect (sec : Z) (buf : list Z) : MK unit := λ m,
  let off := u32 (sec * BSIZE) in
  Ok tt (Mkst (pwrite off buf (img m)) (Z.max (img_blocks m) (off / BSIZE + 1)) (freeinode m) (freeblock m)).
Definition rsect (sec : Z) : MK (list Z) := λ m,
  let off := u32 (sec * BSIZE) in
  if off / BSIZE <? img_blocks m then Ok (pread (img m) off (Z.to_nat BSIZE)) m else Died (str "read").

(** The superblock; its fields go through [xint], the magic number does not. *)
Definition sb : superblock :=
  Superblock FSMAGIC (xint FSSIZE) (xint nblocks) (xint NINODES) (xint nlog) (xint 2) (xint (2 + nlog)) (xint (2 + nlog + ninodeblocks)).
Definition sb_bytes (x : superblock) : list Z :=
  le_bytes 4 (sb_magic x) ++ le_bytes 4 (sb_size x) ++ le_bytes 4 (sb_nblocks x) ++ le_bytes 4 (sb_ninodes x) ++
  le_bytes 4 (sb_nlog x) ++ le_bytes 4 (sb_logstart x) ++ le_bytes 4 (sb_inodestart x) ++ le_bytes 4 (sb_bmapstart x).

Definition zeroes : list Z := replicate (Z.to_nat BSIZE) 0.

(** ** Inodes *)

Definition winode (inum : Z) (ip : dinode) : MK unit :=
  let bn := IBLOCK inum sb in
  buf ← rsect bn;
  wsect bn (dinode_put (inum mod IPB) ip buf).

Definition rinode (inum : Z) : MK dinode :=
  let bn := IBLOCK inum sb in
  buf ← rsect bn;
  mret (dinode_get (inum mod IPB) buf).

Definition ialloc (type : Z) : MK Z :=
  inum ← take_inum;
  winode inum (Dinode (i16 (xshort type)) 0 0 (i16 (xshort 1)) (xint 0) (replicate 13 0));;
  mret inum.

(** The bitmap, with the first [used] blocks marked. *)
Definition balloc (used : Z) : MK unit :=
  assert_ (used <? BPB);;
  let buf := foldl (λ buf i, <[(i / 8)%nat := u8 (Z.lor (default 0 (buf !! (i / 8)%nat)) (Z.shiftl 1 (Z.of_nat (i mod 8))))]> buf)
               zeroes (seq 0 (Z.to_nat used)) in
  wsect (sb_bmapstart sb) buf.

Definition din_addr (din : dinode) (i : Z) : Z := default 0 (di_addrs din !! Z.to_nat i).
Definition set_din_addr (i v : Z) (din : dinode) : dinode :=
  Dinode (di_type din) (di_major din) (di_minor din) (di_nlink din) (di_size din) (<[Z.to_nat i := v]> (di_addrs din)).
Definition set_din_size (v : Z) (din : dinode) : dinode :=
  Dinode (di_type din) (di_major din) (di_minor din) (di_nlink din) v (di_addrs din).

(** [if(xint(din.addrs[i]) == 0) din.addrs[i] = xint(freeblock++)] *)
Definition need_addr (i : Z) (din : dinode) : MK dinode :=
  if xint (din_addr din i) =? 0 then b ← take_block; mret (set_din_addr i (xint b) din) else mret din.

(** The block [x] of the image that is block [fbn] of the file. *)
Definition iappend_block (fbn : Z) (din : dinode) : MK (dinode * Z) :=
  if fbn <? NDIRECT then
    din ← need_addr fbn din;
    mret (din, xint (din_addr din fbn))
  else
    din ← need_addr NDIRECT din;
    let a := xint (din_addr din NDIRECT) in
    indirect ← rsect a;
    let o := 4 * (fbn - NDIRECT) in
    indirect ← (if rd_le 4 o indirect =? 0 then
                  b ← take_block;
                  let indirect := wr_le 4 o (xint b) indirect in
                  wsect a indirect;;
                  mret indirect
                else mret indirect);
    mret (din, xint (rd_le 4 o indirect)).

(** One round of the loop: the bytes [p] are still to be appended. *)
Definition iappend_round (din : dinode) (off : Z) (p : list Z) : MK (dinode * Z * list Z) :=
  let n := Z.of_nat (length p) in
  let fbn := off / BSIZE in
  assert_ (fbn <? MAXFILE);;
  '(din, x) ← iappend_block fbn din;
  let n1 := Z.min n (u32 ((fbn + 1) * BSIZE - off)) in
  buf ← rsect x;
  wsect x (splice (Z.to_nat (off - fbn * BSIZE)) (take (Z.to_nat n1) p) buf);;
  mret (din, u32 (off + n1), drop (Z.to_nat n1) p).

(** Every round but the first starts at a block boundary. *)
Fixpoint iappend_loop (fuel : nat) (din : dinode) (off : Z) (p : list Z) : MK (dinode * Z) :=
  match p, fuel with
  | [], _ => mret (din, off)
  | _, O => die (str "fuel")
  | _, S fuel =>
      '(din, off, p) ← iappend_round din off p;
      iappend_loop fuel din off p
  end.

Definition iappend (inum : Z) (p : list Z) : MK unit :=
  din ← rinode inum;
  let off := xint (di_size din) in
  '(din, off) ← iappend_loop (S (length p)) din off p;
  winode inum (set_din_size (xint off) din).

(** ** The program *)

(** [struct dirent] with a name of [DIRSIZ] bytes. *)
Definition dirent_bytes (inum : Z) (name : list Z) : list Z := le_bytes 2 inum ++ name.

(** A host file: its name and the pieces [read] returns, or [None] when it
    cannot be opened. *)
Record hostfile := Hostfile { hf_name : list Z; hf_reads : option (list (list Z)) }.

(** The name without its directory, and without the underscore. *)
Definition short_name (arg : list Z) : list Z :=
  if strncmp arg (str "user/") 5 =? 0 then drop 5 arg else arg.
Definition skip_underscore (s : list Z) : list Z := if default 0 (head s) =? chr "_" then tail s else s.

(** Entry [name] of the root directory and the file itself. *)
Definition add_file (rootino : Z) (f : hostfile) : MK unit :=
  let shortname := short_name (hf_name f) in
  assert_ (negb (existsb (Z.eqb (chr "/")) (take (strlen_nat shortname) shortname)));;
  match hf_reads f with
  | None => die (hf_name f)
  | Some pieces =>
      let shortname := skip_underscore shortname in
      assert_ (Z.of_nat (strlen_nat shortname) <=? DIRSIZ);;
      inum ← ialloc T_FILE;
      iappend rootino (dirent_bytes (xshort inum) (strncpy_bytes (Z.to_nat DIRSIZ) shortname));;
      mk_for pieces (iappend inum)
  end.

(** The size of the root directory, rounded up to the block behind it. *)
Definition fix_root (rootino : Z) : MK unit :=
  din ← rinode rootino;
  let off := u32 ((xint (di_size din) / BSIZE + 1) * BSIZE) in
  winode rootino (set_din_size (xint off) din).

(** [main] for an image file that was created empty. *)
Definition mkfs (files : list hostfile) : MK unit :=
  mk_for (seq 0 (Z.to_nat FSSIZE)) (λ i, wsect (Z.of_nat i) zeroes);;
  wsect 1 (splice 0 (sb_bytes sb) zeroes);;
  rootino ← ialloc T_DIR;
  assert_ (rootino =? ROOTINO);;
  iappend rootino (dirent_bytes (xshort rootino) (strncpy_bytes (Z.to_nat DIRSIZ) (str ".")));;
  iappend rootino (dirent_bytes (xshort rootino) (strncpy_bytes (Z.to_nat DIRSIZ) (str "..")));;
  mk_for files (add_file rootino);;
  fix_root rootino;;
  used ← (λ m, Ok (freeblock m) m);
  balloc (i32 used).

(** The image, empty at first, and the counters before the run. *)
Definition mkfs_start : mkst := Mkst (λ _, 0) 0 1 nmeta.
