(* ===== verification/MkfsSpec.v ===== *)
(** * The image builder: the image is a file system in order

    mkfs and the kernel agree on the disk: what mkfs appends to a file is what
    the kernel's theorems read from it.  The first part is about the blocks of
    one file, in the terms of InodeSpec.v; the second follows the program. *)

From S2P Require Import Prelude Decimal Riscv State Boot Spinlock ProcTable Machine CString Kalloc Vm VmSpec UserMem Printf Sched SchedSpec Sleeplock SleeplockSpec FsDefs Virtio Bio BioSpec Frame Log LogSpec DiskSpec CacheSpec PrintfSpec CrashSpec TxnSpec Fs AllocSpec InodeSpec FileSpec TransSpec WriteSpec DinodeSpec Mkfs.

(** ** The blocks of a file that is being built *)

(** An inode with the addresses [A]. *)
Definition node (A : list Z) : inode := Inode 0 0 0 0 0 0 0 0 0 A.
Definition addr (A : list Z) (c : Z → list Z) (bn : Z) : Z := data_addr (node A) c bn.
Definition indir (A : list Z) : Z := ind (node A).

(** The file with addresses [A] has the blocks [0..k-1] and the contents [l], with zeroes
    up to the end of the last block; its blocks lie between the metadata and [f]. *)
Record holds (c : Z → list Z) (f : Z) (A : list Z) (k : Z) (l : list Z) : Prop := Holds {
  ho_len : length A = 13%nat;
  ho_count : 0 ≤ k ≤ MAXFILE;
  ho_size : Z.of_nat (length l) ≤ k * BSIZE;
  ho_mapped : ∀ bn, in_file bn → addr A c bn ≠ 0 ↔ bn < k;
  ho_ind : indir A ≠ 0 ↔ NDIRECT < k;
  ho_range : ∀ bn, in_file bn → addr A c bn ≠ 0 → nmeta ≤ addr A c bn < f;
  ho_irange : indir A ≠ 0 → nmeta ≤ indir A < f;
  ho_ne : ∀ bn, in_file bn → addr A c bn ≠ 0 → addr A c bn ≠ indir A;
  ho_inj : ∀ bn bn', in_file bn → in_file bn' → addr A c bn ≠ 0 → addr A c bn = addr A c bn' → bn = bn';
  ho_bytes : ∀ i, 0 ≤ i < k * BSIZE → file_byte (node A) c i = default 0 (l !! Z.to_nat i)
}.

(** The blocks of the file. *)
Definition owned (c : Z → list Z) (A : list Z) (b : Z) : Prop :=
  b ≠ 0 ∧ (b = indir A ∨ ∃ bn, in_file bn ∧ b = addr A c bn).

Lemma addr_same c c' A bn : (indir A ≠ 0 → c' (indir A) = c (indir A)) → addr A c' bn = addr A c bn.
Proof.
  intros Hi. unfold addr, data_addr. destruct (bn <? NDIRECT); [done|].
  fold (indir A). destruct (Z.eqb_spec (indir A) 0) as [|Hne]; [done|]. by rewrite Hi.
Qed.

Lemma in_file_div o k : 0 ≤ o < k * BSIZE → k ≤ MAXFILE → in_file (o / BSIZE) ∧ o / BSIZE < k.
Proof.
  intros Ho Hk. assert (o / BSIZE < k) by (apply Z.div_lt_upper_bound; unfold BSIZE in *; lia).
  unfold in_file. split; [split; [apply Z.div_pos; [lia|done]|lia]|done].
Qed.

(** A file depends only on its own blocks. *)
Lemma holds_frame c c' f f' A k l :
  holds c f A k l → f ≤ f' → (∀ b, owned c A b → c' b = c b) → holds c' f' A k l.
Proof.
  intros [Hlen Hk Hs Hm Hi Hr Hir Hne Hinj Hb] Hf Hc.
  assert (∀ bn, addr A c' bn = addr A c bn) as Ha.
  { intros bn. apply addr_same. intros Hz. apply Hc. split; [done|by left]. }
  split; try done.
  - intros bn Hbn. rewrite Ha. by apply Hm.
  - intros bn Hbn. rewrite Ha. intros Hz. specialize (Hr bn Hbn Hz). lia.
  - intros Hz. specialize (Hir Hz). lia.
  - intros bn Hbn. rewrite Ha. by apply Hne.
  - intros bn bn' Hbn Hbn'. rewrite !Ha. by apply Hinj.
  - intros i Hx. rewrite <-(Hb i Hx). unfold file_byte. fold (addr A c' (i / BSIZE)) (addr A c (i / BSIZE)).
    rewrite Ha. destruct (in_file_div i k) as [Hin Hlt]; [done|lia|].
    rewrite Hc; [done|]. split; [by apply Hm|]. right. by exists (i / BSIZE).
Qed.

(** One more block. *)
Lemma holds_add c c' f f' A A' k l r :
  holds c f A k l → k < MAXFILE → length A' = 13%nat → nmeta ≤ f → f ≤ r < f' →
  (∀ bn, in_file bn → addr A' c' bn = if bn =? k then r else addr A c bn) →
  (indir A' = indir A ∨ indir A = 0 ∧ f ≤ indir A' < f' ∧ indir A' ≠ r) → (indir A' ≠ 0 ↔ NDIRECT < k + 1) →
  (∀ bn, in_file bn → addr A c bn ≠ 0 → c' (addr A c bn) = c (addr A c bn)) → c' r = zero_block →
  holds c' f' A' (k + 1) l ∧ addr A' c' k = r ∧ (∀ b, owned c' A' b → owned c A b ∨ f ≤ b < f').
Proof.
  intros [Hlen Hk Hs Hm Hi Hr Hir Hne Hinj Hb] Hmax Hlen' Hnf Hf Ha HI Hi' Hc Hzero.
  assert (in_file k) as Hkin by (unfold in_file; lia). assert (0 < nmeta) as Hn0 by done.
  assert (Hri : r ≠ indir A').
  { destruct HI as [->|(_ & _ & ?)]; [|lia]. intros ->. destruct (decide (indir A = 0)); [lia|]. specialize (Hir ltac:(done)). lia. }
  split; [|split; [rewrite Ha, Z.eqb_refl by done; done|]].
  2: { intros b [Hb0 [->|(bn & Hbn & ->)]].
       - destruct HI as [E|(_ & ? & _)]; [|by right]. rewrite E in *. left. by split; [|left].
       - rewrite Ha in * by done. destruct (bn =? k); [right; lia|]. left. split; [done|]. right. by exists bn. }
  split; try done.
  - lia.
  - unfold BSIZE in Hs |- *. lia.
  - intros bn Hbn. rewrite Ha by done. destruct (Z.eqb_spec bn k); [lia|]. rewrite Hm by done. lia.
  - intros bn Hbn. rewrite Ha by done. destruct (Z.eqb_spec bn k); [lia|]. intros Hz. specialize (Hr bn Hbn Hz). lia.
  - intros Hz. destruct HI as [E|(_ & ? & _)]; [|lia]. rewrite E in *. specialize (Hir Hz). lia.
  - intros bn Hbn. rewrite Ha by done. destruct (Z.eqb_spec bn k); [done|]. intros Hz. specialize (Hr bn Hbn Hz).
    destruct HI as [->|(_ & ? & _)]; [by apply Hne|lia].
  - intros bn bn' Hbn Hbn'. rewrite !Ha by done. destruct (Z.eqb_spec bn k) as [->|], (Z.eqb_spec bn' k) as [->|]; try done.
    + intros Hz E. rewrite E in Hz. specialize (Hr bn' Hbn' Hz). lia.
    + intros Hz E. specialize (Hr bn Hbn Hz). lia.
    + by apply Hinj.
  - intros i Hx. unfold file_byte. fold (addr A' c' (i / BSIZE)). destruct (in_file_div i (k + 1) Hx) as [Hin Hlt]; [lia|].
    pose proof (Z.div_mod i BSIZE ltac:(done)) as Hdm. pose proof (Z.mod_pos_bound i BSIZE ltac:(done)) as Hmod.
    rewrite Ha by done. destruct (Z.eqb_spec (i / BSIZE) k) as [E|E].
    + rewrite Hzero, (lookup_ge_None_2 l) by (unfold BSIZE in *; lia). unfold zero_block. by rewrite lookup_replicate_2 by lia.
    + rewrite Hc by (done || by apply Hm; [done|lia]). apply Hb. unfold BSIZE in *. lia.
Qed.

(** Bytes at the end of the file. *)
Lemma holds_append c c' f A k l q :
  holds c f A k l → (∀ b, length (c b) = Z.to_nat BSIZE) →
  let off := Z.of_nat (length l) in
  off / BSIZE < k → off mod BSIZE + Z.of_nat (length q) ≤ BSIZE →
  let x := addr A c (off / BSIZE) in
  (∀ b, c' b = (<[x := splice (Z.to_nat (off mod BSIZE)) q (c x)]> c) b) →
  holds c' f A k (l ++ q).
Proof.
  intros Hh Hcl off Hlt Hq x Hc. pose proof Hh as [Hlen Hk Hs Hm Hi Hr Hir Hne Hinj Hb].
  pose proof (Z.mod_pos_bound off BSIZE ltac:(done)) as Hmod. pose proof (Z.div_mod off BSIZE ltac:(done)) as Hdm.
  assert (in_file (off / BSIZE)) as Hin by (unfold in_file; split; [apply Z.div_pos; [lia|done]|lia]).
  assert (x ≠ 0) as Hx by (by apply Hm). assert (x ≠ indir A) as Hxi by (by apply Hne).
  assert (∀ bn, addr A c' bn = addr A c bn) as Ha.
  { intros bn. apply addr_same. intros _. rewrite Hc. by apply fn_lookup_insert_ne. }
  split; try done.
  - rewrite length_app, Nat2Z.inj_add. fold off. assert ((off / BSIZE + 1) * BSIZE ≤ k * BSIZE) by (apply Z.mul_le_mono_nonneg_r; [done|lia]). lia.
  - intros bn Hbn. rewrite Ha. by apply Hm.
  - intros bn Hbn. rewrite Ha. by apply Hr.
  - intros bn Hbn. rewrite Ha. by apply Hne.
  - intros bn bn' Hbn Hbn'. rewrite !Ha. by apply Hinj.
  - intros i Hi'. unfold file_byte. fold (addr A c' (i / BSIZE)). rewrite Ha, Hc.
    assert (Hlx : (Z.to_nat (off mod BSIZE) + length q ≤ length (c x))%nat) by (rewrite Hcl; lia).
    destruct (in_file_div i k Hi') as [Hiin Hilt]; [lia|].
    pose proof (Z.mod_pos_bound i BSIZE ltac:(done)) as Himod. pose proof (Z.div_mod i BSIZE ltac:(done)) as Hidm.
    pose proof (Hb i Hi') as Hold. unfold file_byte in Hold. fold (addr A c (i / BSIZE)) in Hold.
    destruct (decide (i / BSIZE = off / BSIZE)) as [E|E].
    + rewrite E in *. fold x in Hold |- *. rewrite fn_lookup_insert, lookup_splice by done. case_decide as Hd.
      * rewrite lookup_app_r by lia. do 2 f_equal. lia.
      * rewrite Hold. destruct (Z.lt_ge_cases i off) as [Hlo|Hlo]; [by rewrite lookup_app_l by lia|].
        rewrite !lookup_ge_None_2; [done|rewrite length_app|]; lia.
    + rewrite fn_lookup_insert_ne, Hold; [|intros Hxe; apply E; symmetry; by apply Hinj].
      destruct (Z.lt_ge_cases i off) as [Hlo|Hlo]; [by rewrite lookup_app_l by lia|].
      assert (off / BSIZE ≤ i / BSIZE) by (apply Z.div_le_mono; [done|lia]).
      rewrite !lookup_ge_None_2; [done|rewrite length_app|]; unfold BSIZE in *; lia.
Qed.

(** ** Running the program *)

Lemma mk_step {A B} (p : MK A) (f : A → MK B) m a m' : p m = Ok a m' → (p ≫= f) m = f a m'.
Proof. intros Hp. unfold mbind, mk_bind. by rewrite Hp. Qed.

Lemma xint_small x : 0 ≤ x < 2 ^ 32 → xint x = x.
Proof.
  intros Hx. rewrite <-(le_val_bytes 4 x) at 2 by done. unfold xint, u8.
  rewrite !Z.shiftr_div_pow2 by lia. cbn [le_bytes].
  change (2 ^ 8) with 256. change (2 ^ 16) with (256 * 256). change (2 ^ 24) with (256 * (256 * 256)).
  rewrite <-!Z.div_div by lia. done.
Qed.

Lemma xshort_small x : 0 ≤ x < 2 ^ 16 → xshort x = x.
Proof.
  intros Hx. rewrite <-(le_val_bytes 2 x) at 2 by done. unfold xshort, u8.
  rewrite Z.shiftr_div_pow2 by lia. done.
Qed.

(** The blocks of the image. *)
Definition view (m : mkst) : Z → list Z := block (img m).

Lemma length_view m b : length (view m b) = Z.to_nat BSIZE.
Proof. apply length_block. Qed.

(** [m] with the block [sec] replaced. *)
Definition put (sec : Z) (buf : list Z) (m : mkst) : mkst :=
  Mkst (wr_block sec buf (img m)) (img_blocks m) (freeinode m) (freeblock m).

Lemma view_put sec buf m b : length buf = Z.to_nat BSIZE → view (put sec buf m) b = (<[sec := buf]> (view m)) b.
Proof.
  intros Hl. unfold view, put. simpl. destruct (decide (sec = b)) as [->|Hne].
  - by rewrite fn_lookup_insert, block_wr_same.
  - by rewrite fn_lookup_insert_ne, block_wr_other.
Qed.

(** The image has its size, and the blocks behind the first free one are
    cleared. *)
Record image_ok (m : mkst) : Prop := ImageOk {
  im_blocks : img_blocks m = FSSIZE;
  im_free : nmeta ≤ freeblock m ≤ FSSIZE;
  im_fresh : ∀ b, freeblock m ≤ b < FSSIZE → view m b = zero_block
}.

Lemma sector_small sec : 0 ≤ sec < FSSIZE → u32 (sec * BSIZE) = sec * BSIZE ∧ sec * BSIZE / BSIZE = sec.
Proof. intros Hs. unfold FSSIZE, BSIZE in *. rewrite u32_small by lia. by rewrite Z.div_mul. Qed.

Lemma rsect_run m sec : image_ok m → 0 ≤ sec < FSSIZE → rsect sec m = Ok (view m sec) m.
Proof.
  intros [Hb _ _] Hs. unfold rsect. destruct (sector_small sec Hs) as [-> ->]. rewrite Hb.
  by rewrite (proj2 (Z.ltb_lt _ _)) by lia.
Qed.

Lemma wsect_run m sec buf : image_ok m → 0 ≤ sec < FSSIZE → wsect sec buf m = Ok tt (put sec buf m).
Proof.
  intros [Hb _ _] Hs. unfold wsect. destruct (sector_small sec Hs) as [-> ->].
  unfold put. rewrite Z.max_l by lia. done.
Qed.

Lemma image_ok_put m sec buf : image_ok m → length buf = Z.to_nat BSIZE → sec < freeblock m → image_ok (put sec buf m).
Proof.
  intros [Hb Hf Hz] Hl Hs. split; [done|done|]. intros b Hbb. rewrite view_put by done.
  simpl in Hbb. rewrite fn_lookup_insert_ne by lia. by apply Hz.
Qed.

(** [freeblock++] *)
Definition used_one (m : mkst) : mkst := Mkst (img m) (img_blocks m) (freeinode m) (freeblock m + 1).

Lemma take_block_run m : image_ok m → freeblock m < FSSIZE → take_block m = Ok (freeblock m) (used_one m) ∧ image_ok (used_one m).
Proof.
  intros [Hb Hf Hz] Hlt. split.
  - unfold take_block, used_one. rewrite u32_small; [done|]. assert (0 < nmeta) by done. unfold FSSIZE in *. lia.
  - split; [done|simpl; lia|]. intros b Hbb. simpl in Hbb. apply (Hz b). lia.
Qed.

Definition same_attr (x y : dinode) : Prop :=
  di_type y = di_type x ∧ di_major y = di_major x ∧ di_minor y = di_minor x ∧ di_nlink y = di_nlink x ∧ di_size y = di_size x.

Lemma din_addr_node din i : din_addr din i = addr_at i (node (di_addrs din)).
Proof. done. Qed.

Lemma addr_set A bn r n : length A = 13%nat → 0 ≤ bn ≤ NDIRECT → 0 ≤ n →
  addr_at n (node (<[Z.to_nat bn := r]> A)) = if n =? bn then r else addr_at n (node A).
Proof. intros HA Hbn Hn. apply (addr_at_set bn n r (node A)); done. Qed.

Lemma need_addr_new din i m :
  image_ok m → freeblock m < FSSIZE → din_addr din i = 0 →
  need_addr i din m = Ok (set_din_addr i (freeblock m) din) (used_one m).
Proof.
  intros Hm Hf Hz. unfold need_addr. rewrite Hz. change (xint 0 =? 0) with true. cbv iota.
  destruct (take_block_run m Hm Hf) as [Ht _]. rewrite (mk_step _ _ _ _ _ Ht).
  rewrite xint_small; [done|]. destruct Hm as [_ ? _]. assert (0 < nmeta) by done. unfold FSSIZE in *. lia.
Qed.

Lemma need_addr_old din i m : 0 < din_addr din i < 2 ^ 32 → need_addr i din m = Ok din m.
Proof. intros Hz. unfold need_addr. rewrite xint_small by lia. by rewrite (proj2 (Z.eqb_neq _ _)) by lia. Qed.

(** ** The blocks a file grows by *)

(** The blocks that are taken for block [k] of a file, and for its first [k]
    blocks. *)
Definition grow (k : Z) : Z := if k =? NDIRECT then 2 else 1.
Definition cost (k : Z) : Z := k + (if NDIRECT <? k then 1 else 0).

Lemma cost_succ k : cost (k + 1) = cost k + grow k.
Proof. unfold cost, grow, NDIRECT. destruct (Z.ltb_spec 12 (k + 1)), (Z.ltb_spec 12 k), (Z.eqb_spec k 12); lia. Qed.

Lemma cost_mono k k' : k ≤ k' → cost k ≤ cost k'.
Proof. unfold cost, NDIRECT. intros Hk. destruct (Z.ltb_spec 12 k), (Z.ltb_spec 12 k'); lia. Qed.

(** What [iappend_block] leaves: block [k] of the file is [x], and no block in
    use but those of the file has changed. *)
Record grown (m : mkst) (din : dinode) (k : Z) (l : list Z) (din' : dinode) (x : Z) (m' : mkst) : Prop := Grown {
  gw_ok : image_ok m';
  gw_holds : holds (view m') (freeblock m') (di_addrs din') (k + 1) l ∧ addr (di_addrs din') (view m') k = x ∧
    (∀ b, owned (view m') (di_addrs din') b → owned (view m) (di_addrs din) b ∨ freeblock m ≤ b < freeblock m');
  gw_new : freeblock m ≤ x;
  gw_free : freeblock m' = freeblock m + grow k;
  gw_attr : same_attr din din';
  gw_inum : freeinode m' = freeinode m;
  gw_frame : ∀ b, b < freeblock m → b ≠ indir (di_addrs din) → view m' b = view m b;
  gw_zero : indir (di_addrs din) = 0 → view m' 0 = view m 0
}.

Lemma nmeta_eq : nmeta = 47.
Proof. reflexivity. Qed.

Lemma addr_direct A c bn : bn < NDIRECT → addr A c bn = addr_at bn (node A).
Proof. intros Hb. unfold addr, data_addr. by rewrite (proj2 (Z.ltb_lt _ _)) by done. Qed.

Lemma addr_indirect A c bn : NDIRECT ≤ bn → addr A c bn = if indir A =? 0 then 0 else rd_le 4 (4 * (bn - NDIRECT)) (c (indir A)).
Proof. intros Hb. unfold addr, data_addr. by rewrite (proj2 (Z.ltb_ge _ _)) by done. Qed.

Lemma mk_grow_direct m din k l :
  image_ok m → holds (view m) (freeblock m) (di_addrs din) k l → k < NDIRECT → freeblock m + grow k ≤ FSSIZE →
  ∃ din' x m', iappend_block k din m = Ok (din', x) m' ∧ grown m din k l din' x m'.
Proof.
  intros Hm Hh Hk Hf. assert (grow k = 1) as Hg by (unfold grow; destruct (Z.eqb_spec k NDIRECT); lia). rewrite Hg in Hf. pose proof (ho_len _ _ _ _ _ Hh) as Hlen. pose proof (ho_count _ _ _ _ _ Hh) as [Hk0 Hkm].
  pose proof (im_free _ Hm) as Hfr. assert (in_file k) as Hin by (unfold in_file; rewrite MAXFILE_eq; unfold NDIRECT in *; lia).
  assert (din_addr din k = 0) as Hz.
  { rewrite din_addr_node, <-(addr_direct _ (view m)) by done.
    destruct (decide (addr (di_addrs din) (view m) k = 0)) as [|Hne]; [done|]. apply (ho_mapped _ _ _ _ _ Hh) in Hne; [lia|done]. }
  set (f := freeblock m) in *. set (A' := <[Z.to_nat k := f]> (di_addrs din)).
  assert (Hset : ∀ n, 0 ≤ n → addr_at n (node A') = if n =? k then f else addr_at n (node (di_addrs din))).
  { intros n Hn. by apply addr_set; [|lia|]. }
  assert (Hind : indir A' = indir (di_addrs din)).
  { unfold indir, ind. rewrite Hset by done. destruct (Z.eqb_spec NDIRECT k); [lia|done]. }
  exists (set_din_addr k f din), f, (used_one m). split.
  - unfold iappend_block. rewrite (proj2 (Z.ltb_lt _ _)) by done.
    rewrite (mk_step _ _ _ _ _ (need_addr_new din k m Hm ltac:(lia) Hz)).
    unfold mret, mk_ret. f_equal. f_equal. rewrite din_addr_node. simpl. fold A'. rewrite Hset, Z.eqb_refl by lia.
    rewrite nmeta_eq in Hfr. apply xint_small. unfold FSSIZE in *. lia.
  - destruct (take_block_run m Hm ltac:(lia)) as [_ Hok]. split; try done; [|simpl; fold f; lia].
    apply (holds_add (view m) _ f _ (di_addrs din)); try done; simpl; fold f A'.
    + rewrite MAXFILE_eq. unfold NDIRECT in *. lia.
    + unfold A'. by rewrite length_insert.
    + lia.
    + lia.
    + intros bn [Hbn _]. destruct (Z.lt_ge_cases bn NDIRECT) as [Hd|Hd].
      * rewrite !addr_direct by done. by apply Hset.
      * rewrite !addr_indirect, Hind by done. destruct (Z.eqb_spec bn k); [lia|done].
    + left. exact Hind.
    + rewrite Hind, (ho_ind _ _ _ _ _ Hh). lia.
    + apply (im_fresh _ Hm). unfold f. lia.
Qed.

Lemma iappend_block_ind k din m : NDIRECT ≤ k →
  iappend_block k din m = (din ← need_addr NDIRECT din;
    let a := xint (din_addr din NDIRECT) in
    indirect ← rsect a;
    let o := 4 * (k - NDIRECT) in
    indirect ← (if rd_le 4 o indirect =? 0 then
                  b ← take_block; let indirect := wr_le 4 o (xint b) indirect in wsect a indirect;; mret indirect
                else mret indirect);
    mret (din, xint (rd_le 4 o indirect))) m.
Proof. intros Hk. unfold iappend_block. by rewrite (proj2 (Z.ltb_ge _ _)) by done. Qed.

(** The entry of block [k] in the indirect block [a]. *)
Lemma entry_new (m : mkst) a k :
  image_ok m → 0 ≤ a < freeblock m → freeblock m < FSSIZE → NDIRECT ≤ k < MAXFILE →
  rd_le 4 (4 * (k - NDIRECT)) (view m a) = 0 →
  let o := 4 * (k - NDIRECT) in
  let f := freeblock m in
  let m' := put a (wr_le 4 o f (view m a)) (used_one m) in
  (indirect ← rsect a;
   indirect ← (if rd_le 4 o indirect =? 0 then
                 b ← take_block; let indirect := wr_le 4 o (xint b) indirect in wsect a indirect;; mret indirect
               else mret indirect);
   mret (xint (rd_le 4 o indirect))) m = Ok f m' ∧ image_ok m' ∧
  (∀ n, NDIRECT ≤ n < MAXFILE → rd_le 4 (4 * (n - NDIRECT)) (view m' a) = if n =? k then f else rd_le 4 (4 * (n - NDIRECT)) (view m a)).
Proof.
  intros Hm Ha Hf Hk Hz o f m'. destruct (take_block_run m Hm Hf) as [Ht Hok].
  pose proof (im_free _ Hm) as Hfr. rewrite nmeta_eq in Hfr. rewrite MAXFILE_eq in Hk. unfold NDIRECT in Hk.
  assert (0 ≤ f < 2 ^ 32) as Hf32 by (unfold f, FSSIZE in *; lia).
  assert (length (view m a) = 1024%nat) as Hl by (by rewrite length_view).
  assert (Ho : 0 ≤ o ∧ o + 4 ≤ Z.of_nat (length (view m a))) by (unfold o, NDIRECT; lia).
  assert (length (wr_le 4 o f (view m a)) = Z.to_nat BSIZE) as Hlw by (unfold wr_le; by rewrite length_splice, Hl).
  split; [|split].
  - rewrite (mk_step _ _ _ _ _ (rsect_run m a Hm ltac:(lia))). fold o in Hz. rewrite Hz. cbv iota zeta.
    change (0 =? 0) with true. cbv iota.
    assert ((b ← take_block; wsect a (wr_le 4 o (xint b) (view m a));; mret (wr_le 4 o (xint b) (view m a))) m =
      Ok (wr_le 4 o f (view m a)) m') as Hw.
    { rewrite (mk_step _ _ _ _ _ Ht). fold f. rewrite (xint_small f) by done.
      rewrite (mk_step _ _ _ _ _ (wsect_run (used_one m) a _ Hok ltac:(lia))). done. }
    rewrite (mk_step _ _ _ _ _ Hw). unfold mret, mk_ret. rewrite rd_wr_same by (done || lia). by rewrite xint_small.
  - apply image_ok_put; [done|done|simpl; fold f; lia].
  - intros n Hn. rewrite MAXFILE_eq in Hn. unfold NDIRECT in Hn. unfold m'. rewrite view_put by done. rewrite fn_lookup_insert.
    destruct (Z.eqb_spec n k) as [->|Hne]; [by apply rd_wr_same; lia|]. unfold o, NDIRECT in *. by rewrite rd_wr_other by lia.
Qed.

Lemma entry_unmapped m din k l a :
  holds (view m) (freeblock m) (di_addrs din) k l → NDIRECT ≤ k < MAXFILE → a = indir (di_addrs din) → a ≠ 0 →
  rd_le 4 (4 * (k - NDIRECT)) (view m a) = 0.
Proof.
  intros Hh Hk -> Hz. assert (in_file k) as Hin by (unfold in_file, NDIRECT in *; lia).
  pose proof (addr_indirect (di_addrs din) (view m) k ltac:(lia)) as Ha. rewrite (proj2 (Z.eqb_neq _ _) Hz) in Ha.
  rewrite <-Ha. destruct (decide (addr (di_addrs din) (view m) k = 0)) as [|Hne]; [done|].
  apply (ho_mapped _ _ _ _ _ Hh) in Hne; [lia|done].
Qed.

(** The addresses behind the indirect block with one more entry. *)
Lemma grown_entry m m1 m2 din din1 k l a :
  image_ok m → holds (view m) (freeblock m) (di_addrs din) k l → NDIRECT ≤ k < MAXFILE →
  length (di_addrs din1) = 13%nat → indir (di_addrs din1) = a → 0 < a →
  (∀ n, 0 ≤ n < NDIRECT → addr_at n (node (di_addrs din1)) = addr_at n (node (di_addrs din))) →
  (indir (di_addrs din) = a ∨ indir (di_addrs din) = 0 ∧ a = freeblock m) →
  (∀ n, NDIRECT ≤ n < MAXFILE → rd_le 4 (4 * (n - NDIRECT)) (view m2 a) =
     if n =? k then freeblock m1 else addr (di_addrs din) (view m) n) →
  freeblock m ≤ freeblock m1 < freeblock m2 → freeblock m1 ≠ a →
  (∀ b, b ≠ a → view m2 b = view m b) → freeblock m1 < FSSIZE →
  holds (view m2) (freeblock m2) (di_addrs din1) (k + 1) l ∧ addr (di_addrs din1) (view m2) k = freeblock m1 ∧
    (∀ b, owned (view m2) (di_addrs din1) b → owned (view m) (di_addrs din) b ∨ freeblock m ≤ b < freeblock m2).
Proof.
  intros Hm Hh Hk Hlen Hi Ha Hd Hia He Hf Hne Hv Hlim. pose proof (im_free _ Hm) as Hfr.
  apply (holds_add (view m) _ (freeblock m) _ (di_addrs din)); try done; try lia.
  - intros n [Hn Hn2]. destruct (Z.lt_ge_cases n NDIRECT) as [Hlt|Hge].
    + rewrite !addr_direct, Hd by done. destruct (Z.eqb_spec n k); [lia|done].
    + rewrite (addr_indirect (di_addrs din1)) by done. rewrite Hi. rewrite (proj2 (Z.eqb_neq a 0)) by lia. by apply He.
  - intros n Hn Hz. apply Hv. intros E. destruct Hia as [Hia|[_ Hia]].
    + apply (ho_ne _ _ _ _ _ Hh n Hn Hz). congruence.
    + pose proof (ho_range _ _ _ _ _ Hh n Hn Hz). lia.
  - rewrite Hv by done. apply (im_fresh _ Hm). lia.
Qed.

Lemma view_used_one m : view (used_one m) = view m.
Proof. done. Qed.

Lemma mk_grow_under m din k l :
  image_ok m → holds (view m) (freeblock m) (di_addrs din) k l → NDIRECT ≤ k < MAXFILE → indir (di_addrs din) ≠ 0 →
  freeblock m + grow k ≤ FSSIZE →
  ∃ din' x m', iappend_block k din m = Ok (din', x) m' ∧ grown m din k l din' x m'.
Proof.
  intros Hm Hh Hk Hi Hf. assert (grow k = 1) as Hg.
  { unfold grow. apply (ho_ind _ _ _ _ _ Hh) in Hi. destruct (Z.eqb_spec k NDIRECT); lia. }
  rewrite Hg in Hf. set (a := indir (di_addrs din)) in *. pose proof (ho_irange _ _ _ _ _ Hh Hi) as Ha. fold a in Ha.
  pose proof (im_free _ Hm) as Hfr. rewrite nmeta_eq in *.
  destruct (entry_new m a k Hm ltac:(lia) ltac:(lia) Hk (entry_unmapped _ _ _ _ _ Hh Hk eq_refl Hi)) as (Hrun & Hok & Hent).
  set (m2 := put a _ _) in *. exists din, (freeblock m), m2.
  assert (Hv : ∀ b, b ≠ a → view m2 b = view m b).
  { intros b Hb. unfold m2. rewrite view_put; [by rewrite fn_lookup_insert_ne|]. unfold wr_le. by rewrite length_splice, length_view. }
  split.
  - rewrite iappend_block_ind by lia. assert (din_addr din NDIRECT = a) as Hda by done.
    assert (0 < a < 2 ^ 32) as Ha32 by (unfold FSSIZE in *; lia).
    rewrite (mk_step _ _ _ _ _ (need_addr_old din NDIRECT m ltac:(rewrite Hda; lia))). cbv zeta.
    rewrite Hda, (xint_small a) by lia. revert Hrun. unfold mbind, mk_bind, mret, mk_ret.
    destruct (rsect a m) as [ind m1| |]; [|done..].
    destruct (rd_le 4 _ ind =? 0); [destruct (take_block m1) as [b m3| |]; [|done..];
      destruct (wsect a _ m3) as [u m4| |]; [|done..]|]; cbn beta iota; intros E; by injection E as -> ->.
  - split; try done.
    + apply (grown_entry m m m2 din din k l a); try done; try (simpl; lia).
      * apply (ho_len _ _ _ _ _ Hh).
      * intros n Hn. rewrite Hent by done. destruct (n =? k); [done|].
        rewrite addr_indirect by lia. fold a. by rewrite (proj2 (Z.eqb_neq a 0)).
    + simpl. lia.
    + intros b Hb Hba. by apply Hv.
Qed.

Lemma zero_view m b : image_ok m → freeblock m ≤ b < FSSIZE → ∀ o, rd_le 4 o (view m b) = 0.
Proof. intros Hm Hb o. rewrite (im_fresh _ Hm) by done. apply rd_zero_block. Qed.

Lemma mk_grow_fresh m din k l :
  image_ok m → holds (view m) (freeblock m) (di_addrs din) k l → NDIRECT ≤ k < MAXFILE → indir (di_addrs din) = 0 →
  freeblock m + grow k ≤ FSSIZE →
  ∃ din' x m', iappend_block k din m = Ok (din', x) m' ∧ grown m din k l din' x m'.
Proof.
  intros Hm Hh Hk Hi Hf. assert (grow k = 2) as Hg.
  { unfold grow. destruct (Z.eqb_spec k NDIRECT) as [|Hne]; [done|]. exfalso. apply (ho_ind _ _ _ _ _ Hh) in Hi; [done|lia]. }
  rewrite Hg in Hf. set (f := freeblock m). pose proof (im_free _ Hm) as Hfr. rewrite nmeta_eq in *.
  pose proof (ho_len _ _ _ _ _ Hh) as Hlen. assert (0 < f < 2 ^ 32) as Hf32 by (unfold f, FSSIZE in *; lia).
  set (din1 := set_din_addr NDIRECT f din). destruct (take_block_run m Hm ltac:(lia)) as [_ Hm1].
  assert (Hset : ∀ n, 0 ≤ n → addr_at n (node (di_addrs din1)) = if n =? NDIRECT then f else addr_at n (node (di_addrs din))).
  { intros n Hn. by apply addr_set. }
  assert (Hi1 : indir (di_addrs din1) = f) by (unfold indir, ind; by rewrite Hset).
  destruct (entry_new (used_one m) f k Hm1) as (Hrun & Hok & Hent); try done.
  { simpl. fold f. lia. }
  { simpl. lia. }
  { rewrite view_used_one. apply zero_view; [done|]. fold f. unfold f in *. lia. }
  set (m2 := put f _ _) in *. exists din1, (freeblock (used_one m)), m2.
  assert (Hv : ∀ b, b ≠ f → view m2 b = view m b).
  { intros b Hb. unfold m2. rewrite view_put; [by rewrite fn_lookup_insert_ne|]. unfold wr_le. by rewrite length_splice, length_view. }
  split.
  - rewrite iappend_block_ind by lia.
    rewrite (mk_step _ _ _ _ _ (need_addr_new din NDIRECT m Hm ltac:(lia) Hi)). fold f din1. cbv zeta.
    assert (din_addr din1 NDIRECT = f) as -> by done. rewrite (xint_small f) by lia.
    revert Hrun. unfold mbind, mk_bind, mret, mk_ret.
    destruct (rsect f (used_one m)) as [ind m1| |]; [|done..].
    destruct (rd_le 4 _ ind =? 0); [destruct (take_block m1) as [b m3| |]; [|done..];
      destruct (wsect f _ m3) as [u m4| |]; [|done..]|]; cbn beta iota; intros E; by injection E as -> ->.
  - split; try done.
    + apply (grown_entry m (used_one m) m2 din din1 k l f); try done.
      * simpl. by rewrite length_insert.
      * lia.
      * intros n Hn. rewrite Hset by lia. destruct (Z.eqb_spec n NDIRECT); [lia|done].
      * by right.
      * intros n Hn. rewrite Hent by done. destruct (n =? k); [done|].
        rewrite addr_indirect by lia. rewrite Hi. rewrite view_used_one. apply zero_view; [done|]. unfold f in *. lia.
      * simpl. unfold f in *. lia.
      * simpl. unfold f. lia.
      * change (freeblock (used_one m)) with (freeblock m + 1). lia.
    + simpl. lia.
    + simpl. lia.
    + intros b Hb Hba. apply Hv. unfold f. lia.
    + intros _. apply Hv. lia.
Qed.

(** [iappend_block] on the block behind the last one. *)
Lemma block_new m din k l :
  image_ok m → holds (view m) (freeblock m) (di_addrs din) k l → k < MAXFILE → freeblock m + grow k ≤ FSSIZE →
  ∃ din' x m', iappend_block k din m = Ok (din', x) m' ∧ grown m din k l din' x m'.
Proof.
  intros Hm Hh Hk Hf. destruct (Z.lt_ge_cases k NDIRECT); [by apply mk_grow_direct|].
  destruct (decide (indir (di_addrs din) = 0)); [by apply mk_grow_fresh|by apply mk_grow_under].
Qed.

(** [iappend_block] on a block that is there. *)
Lemma block_old m din bn k l :
  image_ok m → holds (view m) (freeblock m) (di_addrs din) k l → 0 ≤ bn < k →
  iappend_block bn din m = Ok (din, addr (di_addrs din) (view m) bn) m.
Proof.
  intros Hm Hh Hb. pose proof (ho_count _ _ _ _ _ Hh) as Hk. pose proof (im_free _ Hm) as Hfr. rewrite nmeta_eq in Hfr.
  assert (in_file bn) as Hin by (unfold in_file; lia).
  assert (addr (di_addrs din) (view m) bn ≠ 0) as Hz by (apply (ho_mapped _ _ _ _ _ Hh); [done|lia]).
  pose proof (ho_range _ _ _ _ _ Hh bn Hin Hz) as Hr. rewrite nmeta_eq in Hr.
  assert (∀ a, 47 ≤ a < freeblock m → 0 < a < 2 ^ 32) as H32 by (unfold FSSIZE in *; lia).
  specialize (H32 _ Hr) as Hx. destruct (Z.lt_ge_cases bn NDIRECT) as [Hlt|Hge].
  - unfold iappend_block. rewrite (proj2 (Z.ltb_lt _ _)) by done. rewrite addr_direct in * by done.
    rewrite (mk_step _ _ _ _ _ (need_addr_old din bn m Hx)). rewrite din_addr_node, xint_small by lia. done.
  - rewrite iappend_block_ind by done. rewrite addr_indirect in * by done.
    destruct (Z.eqb_spec (indir (di_addrs din)) 0) as [|Hi]; [done|].
    pose proof (ho_irange _ _ _ _ _ Hh Hi) as Hir. rewrite nmeta_eq in Hir.
    assert (din_addr din NDIRECT = indir (di_addrs din)) as Hda by done.
    rewrite (mk_step _ _ _ _ _ (need_addr_old din NDIRECT m ltac:(rewrite Hda; by apply H32))). cbv zeta.
    rewrite Hda. specialize (H32 _ Hir). rewrite (xint_small (indir _)) by lia.
    rewrite (mk_step _ _ _ _ _ (rsect_run m (indir (di_addrs din)) Hm ltac:(lia))).
    rewrite (proj2 (Z.eqb_neq _ _) Hz). cbv iota.
    unfold mbind, mk_bind, mret, mk_ret. by rewrite xint_small by lia.
Qed.

(** ** Appending to a file *)

(** The blocks of a file of [n] bytes. *)
Definition nblk (n : Z) : Z := (n + BSIZE - 1) / BSIZE.

Lemma nblk_spec n : 0 ≤ n → (nblk n - 1) * BSIZE < n ≤ nblk n * BSIZE.
Proof.
  intros Hn. unfold nblk. pose proof (Z.div_mod (n + BSIZE - 1) BSIZE ltac:(done)).
  pose proof (Z.mod_pos_bound (n + BSIZE - 1) BSIZE ltac:(done)). unfold BSIZE in *. lia.
Qed.

Lemma nblk_unique n k : (k - 1) * BSIZE < n ≤ k * BSIZE → nblk n = k.
Proof. intros Hk. unfold nblk, BSIZE in *. symmetry. apply (Z.div_unique _ _ _ (n + 1024 - 1 - 1024 * k)); lia. Qed.

Lemma nblk_off n : 0 ≤ n → nblk n = n / BSIZE + (if n mod BSIZE =? 0 then 0 else 1).
Proof.
  intros Hn. pose proof (Z.div_mod n BSIZE ltac:(done)). pose proof (Z.mod_pos_bound n BSIZE ltac:(done)).
  apply nblk_unique. unfold BSIZE in *. destruct (Z.eqb_spec (n mod 1024) 0); lia.
Qed.

(** [m'] is [m] with the file at [din] grown into [din'] with contents [l']. *)
Record appended (m : mkst) (din : dinode) (l' : list Z) (din' : dinode) (m' : mkst) : Prop := Appended {
  ap_ok : image_ok m';
  ap_holds : holds (view m') (freeblock m') (di_addrs din') (nblk (Z.of_nat (length l'))) l';
  ap_attr : same_attr din din';
  ap_inum : freeinode m' = freeinode m;
  ap_mono : freeblock m ≤ freeblock m';
  ap_frame : ∀ b, b < freeblock m → ¬ owned (view m) (di_addrs din) b → view m' b = view m b;
  ap_owned : ∀ b, owned (view m') (di_addrs din') b → owned (view m) (di_addrs din) b ∨ freeblock m ≤ b < freeblock m'
}.

(** The block that the next bytes go to. *)
Lemma block_ready m din l (off := Z.of_nat (length l)) :
  image_ok m → holds (view m) (freeblock m) (di_addrs din) (nblk off) l → off < MAXFILE * BSIZE → freeblock m + cost (off / BSIZE + 1) - cost (nblk off) ≤ FSSIZE →
  ∃ din' x m', iappend_block (off / BSIZE) din m = Ok (din', x) m' ∧ image_ok m' ∧
    holds (view m') (freeblock m') (di_addrs din') (off / BSIZE + 1) l ∧ addr (di_addrs din') (view m') (off / BSIZE) = x ∧
    same_attr din din' ∧ freeinode m' = freeinode m ∧ freeblock m' = freeblock m + cost (off / BSIZE + 1) - cost (nblk off) ∧
    (∀ b, b < freeblock m → ¬ owned (view m) (di_addrs din) b → view m' b = view m b ∧ b ≠ x) ∧
    (∀ b, owned (view m') (di_addrs din') b → owned (view m) (di_addrs din) b ∨ freeblock m ≤ b < freeblock m').
Proof.
  intros Hm Hh Hoff Hf. assert (0 ≤ off) as Ho0 by lia. rewrite nblk_off in * by done.
  assert (0 ≤ off / BSIZE < MAXFILE) as Hq by (split; [apply Z.div_pos; [lia|done]|apply Z.div_lt_upper_bound; [done|unfold BSIZE in *; lia]]).
  destruct (Z.eqb_spec (off mod BSIZE) 0) as [Hmod|Hmod].
  - rewrite Z.add_0_r, cost_succ in *. destruct (block_new m din _ l Hm Hh ltac:(lia) ltac:(lia)) as (din' & x & m' & Hrun & [Hok (Hh' & Hx & Hown) Hnew Hfree Hattr Hin Hfr Hz]).
    exists din', x, m'. split_and!; try done; try lia. intros b Hb Hn. split; [|lia].
    destruct (decide (b = indir (di_addrs din))) as [E|E]; [|by apply Hfr].
    destruct (decide (b = 0)) as [->|Hb0]; [apply Hz; by symmetry|]. exfalso. apply Hn. split; [done|by left].
  - exists din, (addr (di_addrs din) (view m) (off / BSIZE)), m.
    assert (in_file (off / BSIZE)) as Hin by (unfold in_file; lia).
    split_and!; try done; try lia; [by apply (block_old m din _ _ l Hm Hh); lia| |by left].
    intros b Hb Hn. split; [done|]. intros ->. apply Hn. split; [|right; by exists (off / BSIZE)].
    apply (ho_mapped _ _ _ _ _ Hh); [done|lia].
Qed.

(** One round of the loop of [iappend]. *)
Lemma round_run m din l p (off := Z.of_nat (length l)) (n1 := Z.min (Z.of_nat (length p)) (BSIZE - off mod BSIZE)) :
  image_ok m → holds (view m) (freeblock m) (di_addrs din) (nblk off) l → p ≠ [] → off < MAXFILE * BSIZE → freeblock m + cost (nblk (off + n1)) - cost (nblk off) ≤ FSSIZE →
  ∃ din' m', iappend_round din off p m = Ok (din', off + n1, drop (Z.to_nat n1) p) m' ∧
    appended m din (l ++ take (Z.to_nat n1) p) din' m' ∧ freeblock m' = freeblock m + cost (nblk (off + n1)) - cost (nblk off) ∧ 0 < n1 ≤ Z.of_nat (length p).
Proof.
  intros Hm Hh Hp Hoff Hf. pose proof (Z.mod_pos_bound off BSIZE ltac:(done)) as Hmod. pose proof (Z.div_mod off BSIZE ltac:(done)) as Hdm.
  assert (0 < length p)%nat as Hlp by (destruct p; [done|simpl; lia]). assert (0 < n1 ≤ Z.of_nat (length p)) as Hn1 by (unfold n1; lia).
  assert (nblk (off + n1) = off / BSIZE + 1) as Hnb by (apply nblk_unique; unfold BSIZE in *; lia). rewrite Hnb in *.
  destruct (block_ready m din l Hm Hh Hoff Hf) as (din' & x & m1 & Hrun & Hok & Hh' & Hx & Hattr & Hin & Hfree & Hfr & Hown). fold off in Hrun, Hh', Hx, Hfree.
  assert (in_file (off / BSIZE)) as Hinf.
  { split; [apply Z.div_pos; [lia|done]|]. apply Z.div_lt_upper_bound; [done|]. unfold BSIZE in *. lia. }
  assert (x ≠ 0) as Hx0 by (rewrite <-Hx; apply (ho_mapped _ _ _ _ _ Hh'); [done|lia]).
  pose proof (ho_range _ _ _ _ _ Hh' _ Hinf ltac:(by rewrite Hx)) as Hxr. rewrite Hx, nmeta_eq in Hxr.
  pose proof (im_free _ Hok) as Hfs. set (q := take (Z.to_nat n1) p).
  set (buf := splice (Z.to_nat (off - off / BSIZE * BSIZE)) q (view m1 x)).
  assert (length buf = Z.to_nat BSIZE) as Hbuf by (unfold buf; by rewrite length_splice, length_view).
  assert (length q = Z.to_nat n1) as Hlq by (unfold q; rewrite length_take; lia).
  exists din', (put x buf m1). split; [|split; [split|]]; [..|split; [exact Hfree|lia]].
  - unfold iappend_round, assert_. fold off. rewrite (proj2 (Z.ltb_lt _ _)) by apply Hinf.
    erewrite mk_step; [|reflexivity]. rewrite (mk_step _ _ _ _ _ Hrun). cbv zeta.
    assert (u32 ((off / BSIZE + 1) * BSIZE - off) = BSIZE - off mod BSIZE) as ->.
    { rewrite u32_small; unfold BSIZE in *; lia. }
    fold n1. rewrite (mk_step _ _ _ _ _ (rsect_run m1 x Hok ltac:(lia))). fold q buf.
    rewrite (mk_step _ _ _ _ _ (wsect_run m1 x buf Hok ltac:(lia))). unfold mret, mk_ret. do 3 f_equal.
    apply u32_small. rewrite MAXFILE_eq in Hoff. unfold BSIZE in *. lia.
  - apply image_ok_put; [done|done|lia].
  - assert (nblk (Z.of_nat (length (l ++ q))) = off / BSIZE + 1) as ->.
    { rewrite length_app, Hlq, Nat2Z.inj_add, Z2Nat.id by lia. exact Hnb. }
    apply (holds_append (view m1)); [done|apply length_view|fold off; lia|rewrite Hlq; fold off; lia|].
    intros b. fold off. rewrite Hx. rewrite view_put by done. unfold buf.
    replace (off - off / BSIZE * BSIZE) with (off mod BSIZE) by lia. done.
  - done.
  - done.
  - simpl. rewrite Hfree. pose proof (cost_mono (nblk off) (off / BSIZE + 1)). assert (nblk off ≤ off / BSIZE + 1) by (rewrite nblk_off by lia; destruct (_ =? _); lia). lia.
  - intros b Hb Hn. destruct (Hfr b Hb Hn) as [Hv Hbx]. rewrite view_put by done. by rewrite fn_lookup_insert_ne.
  - intros b Hb. apply Hown. revert Hb. unfold owned. intros [Hb0 Hb]. split; [done|]. destruct Hb as [?|(bn & Hbn & ->)]; [by left|].
    right. exists bn. split; [done|]. apply addr_same. intros Hz. rewrite view_put by done. apply fn_lookup_insert_ne.
    rewrite <-Hx. apply (ho_ne _ _ _ _ _ Hh'); [done|by rewrite Hx].
Qed.

Lemma appended_refl m din l :
  image_ok m → holds (view m) (freeblock m) (di_addrs din) (nblk (Z.of_nat (length l))) l → appended m din l din m.
Proof. intros. split; try done. by left. Qed.

Lemma appended_trans m d l1 d1 m1 l2 d2 m2 : appended m d l1 d1 m1 → appended m1 d1 l2 d2 m2 → appended m d l2 d2 m2.
Proof.
  intros [Ho1 Hh1 (? & ? & ? & ? & ?) Hi1 Hm1 Hf1 Hw1] [Ho2 Hh2 (? & ? & ? & ? & ?) Hi2 Hm2 Hf2 Hw2].
  split; try done; [split_and!; congruence|congruence|lia| |].
  - intros b Hb Hn. rewrite Hf2; [by apply Hf1|lia|]. intros [?|?]%Hw1; [done|lia].
  - intros b [[?|?]%Hw1|?]%Hw2; [by left|right; lia|right; lia].
Qed.

(** The loop appends all of [p] and takes exactly the blocks it needs. *)
Lemma loop_run fuel m din l p (off := Z.of_nat (length l)) (lim := off + Z.of_nat (length p)) :
  image_ok m → holds (view m) (freeblock m) (di_addrs din) (nblk off) l → lim ≤ MAXFILE * BSIZE →
  freeblock m + cost (nblk lim) - cost (nblk off) ≤ FSSIZE → (length p ≤ fuel)%nat →
  ∃ din' m', iappend_loop fuel din off p m = Ok (din', lim) m' ∧ appended m din (l ++ p) din' m' ∧
    freeblock m' = freeblock m + cost (nblk lim) - cost (nblk off).
Proof.
  unfold lim, off. clear lim off. revert m din l p. induction fuel as [|fuel IH]; intros m din l p Hm Hh Hlim Hf Hfuel.
  { destruct p as [|c p]; [|simpl in Hfuel; lia]. rewrite app_nil_r, Z.add_0_r in *. exists din, m.
    split_and!; [done|by apply appended_refl|lia]. }
  destruct p as [|c p].
  { rewrite app_nil_r, Z.add_0_r in *. exists din, m. split_and!; [done|by apply appended_refl|lia]. }
  set (P := c :: p) in *. set (off := Z.of_nat (length l)) in *.
  set (n1 := Z.min (Z.of_nat (length P)) (BSIZE - off mod BSIZE)).
  pose proof (Z.mod_pos_bound off BSIZE ltac:(done)) as Hmod.
  assert (0 < Z.of_nat (length P)) as HP0 by (unfold P; simpl; lia).
  assert (cost (nblk (off + n1)) ≤ cost (nblk (off + Z.of_nat (length P)))) as Hmono.
  { apply cost_mono. unfold nblk. apply Z.div_le_mono; [done|]. unfold n1. lia. }
  destruct (round_run m din l P Hm Hh) as (d1 & m1 & Hrun & Hap & Hf1 & Hn1); [done|fold off; lia|fold off n1; lia|].
  fold off n1 in Hrun, Hap, Hf1, Hn1. set (q := take (Z.to_nat n1) P) in *.
  assert (Z.of_nat (length (l ++ q)) = off + n1) as Hoff'.
  { unfold q. rewrite length_app, length_take. unfold off in *. lia. }
  destruct (IH m1 d1 (l ++ q) (drop (Z.to_nat n1) P)) as (d2 & m2 & Hrun2 & Hap2 & Hf2).
  - apply Hap.
  - apply Hap.
  - rewrite Hoff', length_drop. lia.
  - rewrite Hoff', length_drop. replace (off + n1 + Z.of_nat (length P - Z.to_nat n1)) with (off + Z.of_nat (length P)) by lia. lia.
  - rewrite length_drop. unfold P in *. simpl in *. lia.
  - rewrite Hoff', length_drop in *. replace (off + n1 + Z.of_nat (length P - Z.to_nat n1)) with (off + Z.of_nat (length P)) in * by lia.
    exists d2, m2. split_and!; [|eapply appended_trans; [exact Hap|]|lia].
    + cbn [iappend_loop]. unfold P at 1. by rewrite (mk_step _ _ _ _ _ Hrun).
    + rewrite <-app_assoc in Hap2. unfold q in Hap2. by rewrite take_drop in Hap2.
Qed.
