(* ===== verification/MkfsImage.v ===== *)
(** * The image builder: the whole program

    What mkfs has written after each of its steps, and the file system it leaves
    for the kernel. *)

From S2P Require Import Prelude Decimal Riscv State Boot Spinlock ProcTable Machine CString Kalloc Vm VmSpec UserMem Printf Sched SchedSpec Sleeplock SleeplockSpec FsDefs Virtio Bio BioSpec Frame Log LogSpec DiskSpec CacheSpec PrintfSpec CrashSpec TxnSpec Fs AllocSpec InodeSpec FileSpec TransSpec WriteSpec DinodeSpec Mkfs MkfsSpec.

(** ** Inodes *)

Lemma sb_eq : sb = Superblock FSMAGIC 2000 1953 200 31 2 33 46.
Proof. vm_compute. reflexivity. Qed.

(** The inodes that have a place in front of the bitmap. *)
Definition inum_ok (i : Z) : Prop := 0 ≤ i < NINODES.

Lemma IBLOCK_sb i : inum_ok i → IBLOCK i sb = i / IPB + 33 ∧ 33 ≤ IBLOCK i sb < 46.
Proof.
  intros Hi. unfold inum_ok, NINODES in Hi. unfold IBLOCK. rewrite sb_eq. cbn [sb_inodestart]. change IPB with 16.
  assert (0 ≤ i / 16 < 13) by (split; [apply Z.div_pos; lia|apply Z.div_lt_upper_bound; lia]). rewrite u32_small; lia.
Qed.

Lemma same_slot i j : inum_ok i → inum_ok j → IBLOCK i sb = IBLOCK j sb → i mod IPB = j mod IPB → i = j.
Proof.
  intros Hi Hj. destruct (IBLOCK_sb i Hi) as [-> _]. destruct (IBLOCK_sb j Hj) as [-> _]. intros Hd Hm.
  rewrite (Z.div_mod i IPB), (Z.div_mod j IPB) by done. rewrite Hm. do 2 f_equal. lia.
Qed.

(** The 64 bytes of slot [k] of a block of inodes. *)
Definition slot (k : Z) (data : list Z) : list Z := slice (Z.to_nat (DINODE_SIZE * k)) 64 data.

(** Inode [i] of the image is [x]. *)
Definition inode_is (m : mkst) (i : Z) (x : dinode) : Prop :=
  dinode_ok x ∧ slot (i mod IPB) (view m (IBLOCK i sb)) = dinode_bytes x.

Lemma splice_slice {A} i n (l : list A) : (i + n ≤ length l)%nat → splice i (slice i n l) l = l.
Proof.
  intros Hl. unfold splice, slice. rewrite (take_ge (take n (drop i l))) by (rewrite length_take, length_drop; lia).
  rewrite length_take, length_drop, Nat.min_l by lia. rewrite <-drop_drop. by rewrite !take_drop.
Qed.

Lemma inode_is_put m i x : inode_is m i x → dinode_put (i mod IPB) x (view m (IBLOCK i sb)) = view m (IBLOCK i sb).
Proof.
  intros [_ Hs]. unfold dinode_put. rewrite <-Hs. unfold slot. apply splice_slice. rewrite length_view.
  pose proof (Z.mod_pos_bound i IPB ltac:(done)) as Hi. change IPB with 16 in *. unfold DINODE_SIZE, BSIZE. lia.
Qed.

Lemma inode_is_get m i x : inode_is m i x → dinode_get (i mod IPB) (view m (IBLOCK i sb)) = x.
Proof.
  intros Hx. rewrite <-(inode_is_put m i x Hx). apply dinode_get_put; [by apply Z.mod_pos_bound|apply length_view|apply Hx].
Qed.

(** [winode] *)
Definition set_inode (i : Z) (x : dinode) (m : mkst) : mkst :=
  put (IBLOCK i sb) (dinode_put (i mod IPB) x (view m (IBLOCK i sb))) m.

Lemma length_put_slot i x m : length (dinode_put (i mod IPB) x (view m (IBLOCK i sb))) = Z.to_nat BSIZE.
Proof. unfold dinode_put. by rewrite length_splice, length_view. Qed.

Lemma view_set_inode i x m b : b ≠ IBLOCK i sb → view (set_inode i x m) b = view m b.
Proof. intros Hb. unfold set_inode. rewrite view_put by apply length_put_slot. by rewrite fn_lookup_insert_ne. Qed.

Lemma winode_run m i x : image_ok m → inum_ok i → winode i x m = Ok tt (set_inode i x m) ∧ image_ok (set_inode i x m).
Proof.
  intros Hm Hi. destruct (IBLOCK_sb i Hi) as [_ Hb]. pose proof (im_free _ Hm) as Hf. rewrite nmeta_eq in Hf. split.
  - unfold winode. rewrite (mk_step _ _ _ _ _ (rsect_run m (IBLOCK i sb) Hm ltac:(unfold FSSIZE; lia))).
    apply wsect_run; [done|unfold FSSIZE; lia].
  - apply image_ok_put; [done|apply length_put_slot|lia].
Qed.

Lemma rinode_run m i x : image_ok m → inum_ok i → inode_is m i x → rinode i m = Ok x m.
Proof.
  intros Hm Hi Hx. destruct (IBLOCK_sb i Hi) as [_ Hb]. unfold rinode.
  rewrite (mk_step _ _ _ _ _ (rsect_run m (IBLOCK i sb) Hm ltac:(unfold FSSIZE; lia))). cbv zeta. by rewrite (inode_is_get m i x).
Qed.

Lemma inode_set m i x : inode_is (set_inode i x m) i x ↔ dinode_ok x.
Proof.
  split; [by intros []|]. intros Hx. split; [done|]. unfold set_inode. rewrite view_put, fn_lookup_insert by apply length_put_slot.
  unfold slot, dinode_put. pose proof (length_dinode_bytes x (dk_len _ Hx)) as Hl. rewrite <-Hl. apply slice_splice_same.
  rewrite Hl, length_view. pose proof (Z.mod_pos_bound i IPB ltac:(done)) as Hi. change IPB with 16 in *. unfold DINODE_SIZE, BSIZE. lia.
Qed.

(** Other slots. *)
Lemma slot_set m i j x : inum_ok i → inum_ok j → i ≠ j → dinode_ok x →
  slot (j mod IPB) (view (set_inode i x m) (IBLOCK j sb)) = slot (j mod IPB) (view m (IBLOCK j sb)).
Proof.
  intros Hi Hj Hne Hx. destruct (decide (IBLOCK j sb = IBLOCK i sb)) as [E|E]; [|by rewrite view_set_inode].
  assert (i mod IPB ≠ j mod IPB) as Hs by (intros Hs; apply Hne; by apply same_slot). rewrite E.
  unfold set_inode. rewrite view_put, fn_lookup_insert by apply length_put_slot. unfold slot, dinode_put.
  pose proof (length_dinode_bytes x (dk_len _ Hx)) as Hl.
  pose proof (Z.mod_pos_bound i IPB ltac:(done)) as Hi'. pose proof (Z.mod_pos_bound j IPB ltac:(done)) as Hj'. change IPB with 16 in *.
  apply slice_splice_other; rewrite Hl, ?length_view; unfold DINODE_SIZE, BSIZE; lia.
Qed.

Lemma inode_is_set m i j x y : inum_ok i → inum_ok j → i ≠ j → dinode_ok x → inode_is m j y → inode_is (set_inode i x m) j y.
Proof. intros Hi Hj Hne Hx [Hy Hs]. split; [done|]. by rewrite slot_set. Qed.

Lemma inode_is_view m m' i x : view m' (IBLOCK i sb) = view m (IBLOCK i sb) → inode_is m i x → inode_is m' i x.
Proof. intros Hv [Hy Hs]. split; [done|]. by rewrite Hv. Qed.

(** The addresses fit. *)
Lemma holds_addrs c f A k l : holds c f A k l → f ≤ FSSIZE → Forall (λ a, 0 ≤ a < 2 ^ 32) A.
Proof.
  intros Hh Hf. apply list.Forall_lookup_2. intros n a Hn. pose proof (ho_len _ _ _ _ _ Hh) as Hlen. apply lookup_lt_Some in Hn as Hlt.
  assert (∀ z, z ≠ 0 → nmeta ≤ z < f → 0 ≤ z < 2 ^ 32) as Hr by (intros z _; rewrite nmeta_eq; unfold FSSIZE in Hf; lia).
  destruct (decide (a = 0)) as [->|Hz]; [lia|]. apply Hr; [done|]. destruct (decide (n = 12)%nat) as [->|Hne].
  - assert (indir A = a) as <- by (unfold indir, ind, addr_at; simpl; change (Z.to_nat NDIRECT) with 12%nat; by rewrite Hn).
    by apply (ho_irange _ _ _ _ _ Hh).
  - assert (addr A c (Z.of_nat n) = a) as <-.
    { rewrite addr_direct by (unfold NDIRECT; lia). unfold addr_at. simpl. by rewrite Nat2Z.id, Hn. }
    apply (ho_range _ _ _ _ _ Hh); [|done]. unfold in_file. rewrite MAXFILE_eq. lia.
Qed.

(** ** The files of the image *)

(** The files in the order of their inodes, from inode 1: type and contents. *)
Abbreviation files := (list (Z * list Z)).
Definition inum_of (i : nat) : Z := Z.of_nat i + 1.

(** Blocks of the data region in use. *)
Fixpoint space (F : files) : Z :=
  match F with [] => 0 | e :: F => cost (nblk (Z.of_nat (length e.2))) + space F end.

Lemma space_app F G : space (F ++ G) = space F + space G.
Proof. induction F as [|e F IH]; simpl; [done|]. rewrite IH. lia. Qed.

Lemma space_insert F i e e' : F !! i = Some e →
  space (<[i := e']> F) = space F - cost (nblk (Z.of_nat (length e.2))) + cost (nblk (Z.of_nat (length e'.2))).
Proof. revert i. induction F as [|e0 F IH]; intros [|i] Hi; simpl in *; [done|done|injection Hi as ->; lia|]. rewrite (IH i) by done. lia. Qed.

(** File [i] with its blocks [A]. *)
Record file_in (m : mkst) (i : nat) (e : Z * list Z) (A : list Z) : Prop := FileIn {
  fi_inode : inode_is m (inum_of i) (Dinode e.1 0 0 1 (Z.of_nat (length e.2)) A);
  fi_holds : holds (view m) (freeblock m) A (nblk (Z.of_nat (length e.2))) e.2
}.

(** The image holds the files [F]; [As] are their addresses. *)
Record built (m : mkst) (F : files) (As : list (list Z)) : Prop := Built {
  bu_ok : image_ok m;
  bu_num : freeinode m = inum_of (length F);
  bu_max : Z.of_nat (length F) < NINODES;
  bu_len : length As = length F;
  bu_file : ∀ i e A, F !! i = Some e → As !! i = Some A → file_in m i e A;
  bu_apart : ∀ i j A B b, As !! i = Some A → As !! j = Some B → owned (view m) A b → owned (view m) B b → i = j;
  bu_space : freeblock m = nmeta + space F;
  bu_spare : ∀ i, freeinode m ≤ i < NINODES → slot (i mod IPB) (view m (IBLOCK i sb)) = replicate 64 0;
  bu_meta : ∀ b, 0 ≤ b < 33 → view m b = if b =? 1 then splice 0 (sb_bytes sb) zero_block else zero_block;
  bu_bitmap : view m 46 = zero_block
}.

Lemma inum_of_ok (F : files) i e : Z.of_nat (length F) < NINODES → F !! i = Some e → inum_ok (inum_of i).
Proof. intros Hl Hi. apply lookup_lt_Some in Hi. unfold inum_ok, inum_of. lia. Qed.

Lemma cost_nblk n : 0 ≤ n → 0 ≤ cost (nblk n).
Proof. intros Hn. pose proof (nblk_spec n Hn). assert (0 ≤ nblk n) by (unfold BSIZE in *; lia). unfold cost. destruct (NDIRECT <? nblk n); lia. Qed.

Lemma space_pos F : 0 ≤ space F.
Proof. induction F as [|e F IH]; simpl; [done|]. pose proof (cost_nblk (Z.of_nat (length e.2)) ltac:(lia)). lia. Qed.

(** An own block is a data block in use. *)
Lemma owned_range c f A k l b : holds c f A k l → owned c A b → 47 ≤ b < f.
Proof.
  intros Hh [Hb0 [->|(bn & Hbn & ->)]]; rewrite <-nmeta_eq; [by apply (ho_irange _ _ _ _ _ Hh)|by apply (ho_range _ _ _ _ _ Hh)].
Qed.

Lemma inode_block_not_owned c f A k l i : holds c f A k l → inum_ok i → ¬ owned c A (IBLOCK i sb).
Proof. intros Hh Hi Ho. destruct (IBLOCK_sb i Hi) as [_ ?]. pose proof (owned_range _ _ _ _ _ _ Hh Ho). lia. Qed.

(** A file does not see changes to the blocks of inodes. *)
Lemma holds_set_inode m i x f A k l : holds (view m) f A k l → inum_ok i → holds (view (set_inode i x m)) f A k l.
Proof.
  intros Hh Hi. apply (holds_frame (view m) _ f); [done|lia|]. intros b Hb. apply view_set_inode.
  intros ->. by eapply inode_block_not_owned.
Qed.

Lemma owned_same c c' A b : (indir A ≠ 0 → c' (indir A) = c (indir A)) → owned c' A b ↔ owned c A b.
Proof. intros Hi. unfold owned. by setoid_rewrite (addr_same c c' A _ Hi). Qed.

Lemma owned_set_inode m i x f A k l b : holds (view m) f A k l → inum_ok i → owned (view (set_inode i x m)) A b ↔ owned (view m) A b.
Proof.
  intros Hh Hi. apply owned_same. intros Hz. apply view_set_inode. intros E.
  apply (inode_block_not_owned _ _ _ _ _ i Hh Hi). rewrite <-E. split; [done|by left].
Qed.

(** [ialloc] adds an empty file. *)
Lemma holds_empty c f : holds c f (replicate 13 0) 0 [].
Proof.
  assert (∀ bn, addr (replicate 13 0) c bn = 0) as Ha.
  { intros bn. unfold addr, data_addr. assert (ind (node (replicate 13 0)) = 0) as -> by done. destruct (bn <? NDIRECT); [|done].
    unfold addr_at. cbn [i_addrs node]. destruct (replicate 13 0 !! _) eqn:E; [|done]. by apply lookup_replicate in E as [-> _]. }
  split; try done.
  - intros bn [Hb _]. rewrite Ha. lia.
  - intros bn _. by rewrite Ha.
  - intros bn bn' _ _. by rewrite Ha.
  - intros i Hi. lia.
Qed.

Lemma owned_empty c b : ¬ owned c (replicate 13 0) b.
Proof.
  intros [Hb0 [?|(bn & Hbn & E)]]; [by subst|]. apply Hb0. rewrite E.
  destruct (decide (addr (replicate 13 0) c bn = 0)) as [|Hz]; [done|].
  apply (ho_mapped _ _ _ _ _ (holds_empty c 0)) in Hz; [|done]. destruct Hbn. lia.
Qed.

Lemma ialloc_run m F As t :
  built m F As → Z.of_nat (length F) + 1 < NINODES → t = T_DIR ∨ t = T_FILE →
  ∃ m', ialloc t m = Ok (inum_of (length F)) m' ∧ built m' (F ++ [(t, [])]) (As ++ [replicate 13 0]).
Proof.
  intros [Hm Hnum Hmax Hlen Hfile Hap Hsp Hspare Hmeta Hbm] Hroom Ht. set (n := inum_of (length F)) in *.
  assert (inum_ok n) as Hn by (unfold inum_ok, n, inum_of; lia).
  set (m1 := Mkst (img m) (img_blocks m) (n + 1) (freeblock m)). assert (image_ok m1) as Hm1 by (by destruct Hm).
  set (x := Dinode t 0 0 1 0 (replicate 13 0)).
  assert (dinode_ok x) as Hx by (split; simpl; try (lia || done); [destruct Ht as [-> | ->]; unfold T_DIR, T_FILE; lia|by repeat constructor]).
  destruct (winode_run m1 n x Hm1 Hn) as [Hrun Hok]. exists (set_inode n x m1). split.
  - unfold ialloc. erewrite mk_step; [|reflexivity]. rewrite Hnum.
    assert (Mkst (img m) (img_blocks m) (u32 (n + 1)) (freeblock m) = m1) as ->.
    { unfold m1. f_equal. apply u32_small. unfold inum_ok, NINODES in Hn. lia. }
    assert (Dinode (i16 (xshort t)) 0 0 (i16 (xshort 1)) (xint 0) (replicate 13 0) = x) as -> by (by destruct Ht as [-> | ->]).
    by rewrite (mk_step _ _ _ _ _ Hrun).
  - assert (∀ i e A, F !! i = Some e → As !! i = Some A → holds (view m1) (freeblock m) A (nblk (Z.of_nat (length e.2))) e.2) as Hh by (intros; by eapply Hfile).
    assert (∀ i A, As !! i = Some A → ∃ e, F !! i = Some e) as Hex.
    { intros i A Hi. apply lookup_lt_is_Some. rewrite <-Hlen. by eapply lookup_lt_Some. }
    pose proof owned_empty as Hno. split; [exact Hok|..].
    + simpl. rewrite length_app. simpl. unfold n, inum_of. lia.
    + rewrite length_app. simpl. lia.
    + rewrite !length_app. simpl. lia.
    + intros i e A Hi HA. apply lookup_app_Some in HA as [HA|[Hge HA]].
      * destruct (Hex i A HA) as [e' Hi']. rewrite lookup_app_l in Hi by (by eapply lookup_lt_Some). rewrite Hi in Hi'. injection Hi' as <-.
        destruct (Hfile i e A Hi HA) as [Hin Hho]. split; [|by apply (holds_set_inode m1)].
        apply inode_is_set; try done; [by eapply inum_of_ok|]. apply lookup_lt_Some in Hi. unfold n, inum_of. lia.
      * apply list_lookup_singleton_Some in HA as [Hz <-]. rewrite Hlen in *. rewrite lookup_app_r in Hi by lia.
        apply list_lookup_singleton_Some in Hi as [_ <-]. replace i with (length F) by lia. split; [by apply inode_set|apply holds_empty].
    + intros i j A B b HA HB. apply lookup_app_Some in HA as [HA|[_ HA]]; [|apply list_lookup_singleton_Some in HA as [_ <-]; by intros ?%Hno].
      apply lookup_app_Some in HB as [HB|[_ HB]]; [|apply list_lookup_singleton_Some in HB as [_ <-]; by intros _ ?%Hno].
      destruct (Hex i A HA) as [e He]. destruct (Hex j B HB) as [e' He'].
      rewrite (owned_set_inode m1 n x _ A _ _ b (Hh i e A He HA) Hn), (owned_set_inode m1 n x _ B _ _ b (Hh j e' B He' HB) Hn). by apply Hap.
    + rewrite space_app. simpl. rewrite Hsp. change (cost (nblk (Z.of_nat 0))) with 0. lia.
    + simpl. intros i Hi. rewrite slot_set; [|done|unfold inum_ok in *; lia|lia|done]. apply (Hspare i). lia.
    + intros b Hb. rewrite view_set_inode; [by apply Hmeta|]. destruct (IBLOCK_sb n Hn). lia.
    + rewrite view_set_inode; [done|]. destruct (IBLOCK_sb n Hn). lia.
Qed.

(** [iappend] appends to one file and leaves the others as they are. *)
Lemma off_cost n k : 0 ≤ n → 0 ≤ k → cost (nblk n) ≤ cost (nblk (n + k)).
Proof. intros Hn Hk. apply cost_mono. apply Z.div_le_mono; [done|lia]. Qed.

Lemma append_apart m din l' din' m' c A k l :
  appended m din l' din' m' → holds c (freeblock m) A k l → (∀ b, owned c A b → ¬ owned (view m) (di_addrs din) b) →
  ∀ b, owned c A b → ¬ owned (view m') (di_addrs din') b.
Proof.
  intros Hap Hh Hno b Hb [?|Hr]%(ap_owned _ _ _ _ _ Hap); [by eapply Hno|]. pose proof (owned_range _ _ _ _ _ _ Hh Hb). lia.
Qed.

(** The data is appended, the inode not yet written. *)
Lemma append_data m F As i e A p :
  built m F As → F !! i = Some e → As !! i = Some A → Z.of_nat (length e.2) + Z.of_nat (length p) ≤ MAXFILE * BSIZE →
  nmeta + space (<[i := (e.1, e.2 ++ p)]> F) ≤ FSSIZE →
  ∃ A' m', iappend (inum_of i) p m = winode (inum_of i) (Dinode e.1 0 0 1 (Z.of_nat (length (e.2 ++ p))) A') m' ∧
    appended m (Dinode e.1 0 0 1 (Z.of_nat (length e.2)) A) (e.2 ++ p) (Dinode e.1 0 0 1 (Z.of_nat (length e.2)) A') m' ∧
    freeblock m' = nmeta + space (<[i := (e.1, e.2 ++ p)]> F).
Proof.
  intros Hb Hi HA Hmax Hroom. destruct (bu_file _ _ _ Hb i e A Hi HA) as [Hin Hh].
  pose proof (inum_of_ok F i e (bu_max _ _ _ Hb) Hi) as Hok. rewrite (space_insert F i e) in * by done. cbn [snd] in *.
  rewrite length_app, Nat2Z.inj_add in *. set (x := Dinode e.1 0 0 1 (Z.of_nat (length e.2)) A) in *. pose proof (bu_space _ _ _ Hb) as Hsp.
  assert (Z.of_nat (length e.2) + Z.of_nat (length p) < 2 ^ 32) as H32 by (rewrite MAXFILE_eq in Hmax; unfold BSIZE in Hmax; lia).
  destruct (loop_run (S (length p)) m x e.2 p (bu_ok _ _ _ Hb) Hh Hmax ltac:(lia) ltac:(lia)) as (din' & m' & Hrun & Hap & Hf).
  destruct din' as [ty ma mi nl sz A']. pose proof (ap_attr _ _ _ _ _ Hap) as (E1 & E2 & E3 & E4 & E5). simpl in E1, E2, E3, E4, E5. subst.
  exists A', m'. split; [|split; [exact Hap|rewrite Hf; lia]].
  unfold iappend. rewrite (mk_step _ _ _ _ _ (rinode_run m _ x (bu_ok _ _ _ Hb) Hok Hin)). cbv zeta.
  change (di_size x) with (Z.of_nat (length e.2)). rewrite xint_small by lia. rewrite (mk_step _ _ _ _ _ Hrun).
  unfold set_din_size. simpl. by rewrite xint_small by lia.
Qed.

(** The other files when the data of file [i] has been appended. *)
Section append.
Context (m : mkst) (F : files) (As : list (list Z)) (Hb : built m F As).
Context (i : nat) (e : Z * list Z) (A : list Z) (Hi : F !! i = Some e) (HA : As !! i = Some A) (Hty : e.1 = T_DIR ∨ e.1 = T_FILE).
Context (l' A' : list Z) (m1 : mkst) (sz : Z).
Context (Hap : appended m (Dinode e.1 0 0 1 sz A) l' (Dinode e.1 0 0 1 sz A') m1) (Hl' : Z.of_nat (length l') < 2 ^ 32).

Let n := inum_of i.
Let x' := Dinode e.1 0 0 1 (Z.of_nat (length l')) A'.
Let m2 := set_inode n x' m1.

Lemma append_inum : inum_ok n.
Proof. exact (inum_of_ok F i e (bu_max _ _ _ Hb) Hi). Qed.

Lemma append_meta b : b < 47 → view m1 b = view m b.
Proof.
  intros Hb47. destruct (bu_file _ _ _ Hb i e A Hi HA) as [_ Hho]. pose proof (im_free _ (bu_ok _ _ _ Hb)) as Hfm. rewrite nmeta_eq in Hfm.
  apply (ap_frame _ _ _ _ _ Hap); [lia|]. intros Ho. pose proof (owned_range _ _ _ _ _ _ Hho Ho). lia.
Qed.

Lemma append_inode : dinode_ok x'.
Proof.
  pose proof (ap_holds _ _ _ _ _ Hap) as Hh. pose proof (im_free _ (ap_ok _ _ _ _ _ Hap)) as [_ Hf].
  pose proof (ho_len _ _ _ _ _ Hh) as HL. pose proof (holds_addrs _ _ _ _ _ Hh Hf) as HA'.
  assert (- 2 ^ 15 ≤ e.1 < 2 ^ 15) by (destruct Hty as [-> | ->]; unfold T_DIR, T_FILE; lia). split; simpl; (lia || done).
Qed.

Lemma append_other j B f : j ≠ i → F !! j = Some f → As !! j = Some B →
  holds (view m1) (freeblock m1) B (nblk (Z.of_nat (length f.2))) f.2 ∧ (∀ b, owned (view m1) B b ↔ owned (view m) B b).
Proof.
  intros Hj HFj HB. destruct (bu_file _ _ _ Hb j f B HFj HB) as [_ Hhj].
  assert (∀ b, owned (view m) B b → view m1 b = view m b) as Hsame.
  { intros b Hob. apply (ap_frame _ _ _ _ _ Hap); [pose proof (owned_range _ _ _ _ _ _ Hhj Hob); lia|].
    intros Ho. apply Hj. exact (bu_apart _ _ _ Hb j i B A b HB HA Hob Ho). }
  split; [apply (holds_frame (view m) _ (freeblock m)); [done|apply Hap|done]|].
  intros b. apply owned_same. intros Hz. apply Hsame. split; [done|by left].
Qed.

Lemma append_file j f B : <[i := (e.1, l')]> F !! j = Some f → <[i := A']> As !! j = Some B → file_in m2 j f B.
Proof.
  intros HF HB. destruct (decide (j = i)) as [->|Hne].
  - rewrite list_lookup_insert_eq in HB by (by eapply lookup_lt_Some). rewrite list_lookup_insert_eq in HF by (by eapply lookup_lt_Some).
    injection HB as <-. injection HF as <-. split; [apply inode_set; exact append_inode|apply holds_set_inode; [apply Hap|exact append_inum]].
  - rewrite list_lookup_insert_ne in HB by done. rewrite list_lookup_insert_ne in HF by done. destruct (bu_file _ _ _ Hb j f B HF HB) as [Hij _].
    pose proof (inum_of_ok F j f (bu_max _ _ _ Hb) HF) as Hjn. split; [|apply (holds_set_inode m1); [exact (proj1 (append_other j B f Hne HF HB))|exact append_inum]].
    apply inode_is_set; [exact append_inum|done|unfold n, inum_of; lia|exact append_inode|].
    apply (inode_is_view m); [|done]. apply append_meta. destruct (IBLOCK_sb _ Hjn). lia.
Qed.

Lemma append_gone j B b : j ≠ i → As !! j = Some B → owned (view m2) B b → owned (view m) B b ∧ ¬ owned (view m1) A' b.
Proof.
  intros Hj HB. assert (∃ f, F !! j = Some f) as [f HFj] by (apply lookup_lt_is_Some; rewrite <-(bu_len _ _ _ Hb); by eapply lookup_lt_Some).
  destruct (append_other j B f Hj HFj HB) as [Hhj Hoj]. unfold m2. rewrite (owned_set_inode m1 n x' _ B _ _ b Hhj append_inum), Hoj. intros Hob. split; [done|].
  apply (append_apart _ _ _ _ _ (view m) B _ _ Hap (fi_holds _ _ _ _ (bu_file _ _ _ Hb j f B HFj HB))); [|done].
  intros b' Hb1 Hb2. apply Hj. exact (bu_apart _ _ _ Hb j i B A b' HB HA Hb1 Hb2).
Qed.

Lemma append_blocks j k B C b : <[i := A']> As !! j = Some B → <[i := A']> As !! k = Some C → owned (view m2) B b → owned (view m2) C b → j = k.
Proof.
  assert (Hi' : owned (view m2) A' b → owned (view m1) A' b) by (apply (owned_set_inode m1 n x' _ A' _ _ b (ap_holds _ _ _ _ _ Hap) append_inum)).
  assert (i < length As)%nat as Hil by (by eapply lookup_lt_Some).
  intros HB HC. destruct (decide (j = i)) as [->|Hj], (decide (k = i)) as [->|Hk]; [done| | |];
    rewrite ?(list_lookup_insert_eq As), ?(list_lookup_insert_ne As) in HB by done;
    rewrite ?(list_lookup_insert_eq As), ?(list_lookup_insert_ne As) in HC by done.
  - injection HB as <-. intros Ho1%Hi' Ho2. by destruct (append_gone k C b Hk HC Ho2).
  - injection HC as <-. intros Ho1 Ho2%Hi'. by destruct (append_gone j B b Hj HB Ho1).
  - intros Ho1 Ho2. apply (bu_apart _ _ _ Hb j k B C b HB HC); [by apply (append_gone j)|by apply (append_gone k)].
Qed.

Lemma append_built : freeblock m1 = nmeta + space (<[i := (e.1, l')]> F) → built m2 (<[i := (e.1, l')]> F) (<[i := A']> As).
Proof.
  intros Hf. pose proof append_inum as Hn. destruct (IBLOCK_sb n Hn) as [_ Hnb]. pose proof (ap_inum _ _ _ _ _ Hap) as Hin.
  pose proof (bu_num _ _ _ Hb) as Hnum. apply lookup_lt_Some in Hi as Hlt.
  split; [by apply winode_run; [apply Hap|]| | | |exact append_file|exact append_blocks|exact Hf| | |].
  - change (freeinode m1 = inum_of (length (<[i := (e.1, l')]> F))). by rewrite length_insert, Hin.
  - rewrite length_insert. apply (bu_max _ _ _ Hb).
  - rewrite !length_insert. apply (bu_len _ _ _ Hb).
  - intros j Hj. change (freeinode m1 ≤ j < NINODES) in Hj. rewrite Hin, Hnum in Hj.
    assert (inum_ok j) as Hjn by (unfold inum_ok, inum_of in *; lia). assert (n ≠ j) as Hnj by (unfold n, inum_of in *; lia).
    unfold m2. rewrite slot_set by (done || exact append_inode). rewrite append_meta by (destruct (IBLOCK_sb _ Hjn); lia).
    apply (bu_spare _ _ _ Hb). lia.
  - intros b Hb33. unfold m2. rewrite view_set_inode, append_meta by lia. by apply (bu_meta _ _ _ Hb).
  - unfold m2. rewrite view_set_inode, append_meta by lia. apply (bu_bitmap _ _ _ Hb).
Qed.
End append.

Lemma iappend_run m F As i e p :
  built m F As → F !! i = Some e → Z.of_nat (length e.2) + Z.of_nat (length p) ≤ MAXFILE * BSIZE → e.1 = T_DIR ∨ e.1 = T_FILE →
  nmeta + space (<[i := (e.1, e.2 ++ p)]> F) ≤ FSSIZE →
  ∃ m' As', iappend (inum_of i) p m = Ok tt m' ∧ built m' (<[i := (e.1, e.2 ++ p)]> F) As'.
Proof.
  intros Hb Hi Hmax Hty Hroom. assert (∃ A, As !! i = Some A) as [A HA].
  { apply lookup_lt_is_Some. rewrite (bu_len _ _ _ Hb). by eapply lookup_lt_Some. }
  destruct (append_data m F As i e A p Hb Hi HA Hmax Hroom) as (A' & m1 & -> & Hap & Hf).
  assert (Z.of_nat (length (e.2 ++ p)) < 2 ^ 32) as Hl by (rewrite length_app; rewrite MAXFILE_eq in Hmax; unfold BSIZE in Hmax; lia).
  pose proof (append_built m F As Hb i e A Hi HA Hty _ A' m1 _ Hap Hl Hf) as Hb'. eexists _, _. split; [|exact Hb'].
  apply winode_run; [apply Hap|by eapply inum_of_ok; [apply Hb|]].
Qed.

(** ** The program *)

#[local] Arguments Z.mul : simpl never.
#[local] Arguments Z.add : simpl never.
#[local] Arguments Z.of_nat : simpl never.
#[local] Arguments nmeta : simpl never.
#[local] Arguments FSSIZE : simpl never.
#[local] Arguments NINODES : simpl never.
#[local] Arguments cost : simpl never.
#[local] Arguments nblk : simpl never.
#[local] Arguments MAXFILE : simpl never.

(** What a host file becomes. *)
Definition entry_name (f : hostfile) : list Z := skip_underscore (short_name (hf_name f)).
Definition contents (f : hostfile) : list Z := concat (default [] (hf_reads f)).
Definition entry (inum : Z) (name : list Z) : list Z := dirent_bytes inum (strncpy_bytes (Z.to_nat DIRSIZ) name).

#[local] Arguments entry : simpl never.

(** The host can open the file, its name is one, and it is not too large. *)
Record host_ok (f : hostfile) : Prop := HostOk {
  ho_open : is_Some (hf_reads f);
  ho_slash : chr "/" ∉ take (strlen_nat (short_name (hf_name f))) (short_name (hf_name f));
  ho_name : Z.of_nat (strlen_nat (entry_name f)) ≤ DIRSIZ;
  ho_max : Z.of_nat (length (contents f)) ≤ MAXFILE * BSIZE
}.

(** The entries of the files [fs] from inode [i]. *)
Fixpoint entries (i : Z) (fs : list hostfile) : list Z :=
  match fs with [] => [] | f :: fs => entry i (entry_name f) ++ entries (i + 1) fs end.
Definition root_dir (fs : list hostfile) : list Z := entry ROOTINO (str ".") ++ entry ROOTINO (str "..") ++ entries 2 fs.
Definition data_file (f : hostfile) : Z * list Z := (T_FILE, contents f).
(** The files of the image. *)
Definition image_files (fs : list hostfile) : files := (T_DIR, root_dir fs) :: (data_file <$> fs).

Lemma length_entry i name : length (entry i name) = 16%nat.
Proof. unfold entry, dirent_bytes. by rewrite length_app, length_le_bytes, length_strncpy_bytes. Qed.

Lemma length_entries i fs : length (entries i fs) = (16 * length fs)%nat.
Proof. revert i. induction fs as [|f fs IH]; intros i; cbn [entries]; [reflexivity|]. rewrite length_app, length_entry, IH. cbn [length]. lia. Qed.

(** The pieces of a file, one after the other. *)
Lemma append_pieces ps m F As i e :
  built m F As → F !! i = Some e → e.1 = T_DIR ∨ e.1 = T_FILE → Z.of_nat (length e.2) + Z.of_nat (length (concat ps)) ≤ MAXFILE * BSIZE →
  nmeta + space (<[i := (e.1, e.2 ++ concat ps)]> F) ≤ FSSIZE →
  ∃ m' As', mk_for ps (iappend (inum_of i)) m = Ok tt m' ∧ built m' (<[i := (e.1, e.2 ++ concat ps)]> F) As'.
Proof.
  revert m F As e. induction ps as [|p ps IH]; intros m F As [t l] Hb Hi Ht Hmax Hroom; cbn [fst snd mk_for concat] in *.
  { exists m, As. split; [done|]. rewrite app_nil_r. by rewrite list_insert_id. }
  rewrite length_app in Hmax. pose proof Hi as Hil. apply lookup_lt_Some in Hil.
  pose proof (space_insert F i (t, l) (t, l ++ p ++ concat ps) Hi) as Hs2. pose proof (space_insert F i (t, l) (t, l ++ p) Hi) as Hs1.
  cbn [snd] in Hs1, Hs2. rewrite !length_app, !Nat2Z.inj_add in Hs2. rewrite length_app, Nat2Z.inj_add in Hs1.
  pose proof (off_cost (Z.of_nat (length l) + Z.of_nat (length p)) (Z.of_nat (length (concat ps))) ltac:(lia) ltac:(lia)) as Hc.
  rewrite <-Z.add_assoc in Hc. destruct (iappend_run m F As i (t, l) p Hb Hi) as (m1 & As1 & Hrun & Hb1); [simpl; lia|done|cbn [fst snd]; lia|].
  cbn [fst snd] in Hb1. destruct (IH m1 _ As1 (t, l ++ p) Hb1) as (m2 & As2 & Hrun2 & Hb2); cbn [fst snd].
  - by apply list_lookup_insert_eq.
  - done.
  - rewrite length_app. lia.
  - rewrite list_insert_insert_eq, <-app_assoc. done.
  - cbn [fst snd] in Hb2. rewrite list_insert_insert_eq, <-app_assoc in Hb2. exists m2, As2. split; [|exact Hb2]. by rewrite (mk_step _ _ _ _ _ Hrun).
Qed.

Lemma no_slash l : chr "/" ∉ l → existsb (Z.eqb (chr "/")) l = false.
Proof.
  intros Hn. destruct (existsb _ l) eqn:E; [|done]. apply existsb_exists in E as (x & Hx & He%Z.eqb_eq). subst.
  by apply list_elem_of_In in Hx.
Qed.

(** One file. *)
Lemma space_cons e F : space (e :: F) = cost (nblk (Z.of_nat (length e.2))) + space F.
Proof. done. Qed.
Lemma space_snoc F e : space (F ++ [e]) = space F + cost (nblk (Z.of_nat (length e.2))).
Proof. rewrite space_app, space_cons. unfold space at 2. lia. Qed.
Lemma insert_head (x y : Z * list Z) F : <[0%nat := y]> (x :: F) = y :: F.
Proof. done. Qed.
Lemma insert_last (x y : Z * list Z) e F : <[S (length F) := y]> (e :: F ++ [x]) = e :: F ++ [y].
Proof. change (e :: <[length F := y]> (F ++ [x]) = e :: F ++ [y]). by rewrite insert_app_r_alt, Nat.sub_diag. Qed.
Lemma lookup_last (x : Z * list Z) e F : (e :: F ++ [x]) !! S (length F) = Some x.
Proof. change ((F ++ [x]) !! length F = Some x). by rewrite lookup_app_r, Nat.sub_diag. Qed.

Lemma add_file_run m r G As f (n := inum_of (S (length G))) :
  built m ((T_DIR, r) :: G) As → host_ok f → Z.of_nat (length G) + 2 < NINODES → Z.of_nat (length r) + 16 ≤ MAXFILE * BSIZE →
  nmeta + space ((T_DIR, r ++ entry n (entry_name f)) :: G ++ [data_file f]) ≤ FSSIZE →
  ∃ m' As', add_file ROOTINO f m = Ok tt m' ∧ built m' ((T_DIR, r ++ entry n (entry_name f)) :: G ++ [data_file f]) As'.
Proof.
  intros Hb [[ps Hps] Hslash Hname Hmax] Hroom Hr Hsp. unfold data_file, contents in *. rewrite Hps in *. cbn [default from_option id] in *.
  rewrite space_cons, space_snoc in Hsp. cbn [snd] in Hsp. set (r' := r ++ entry n (entry_name f)) in *.
  destruct (ialloc_run m _ As T_FILE Hb) as (m1 & Hrun1 & Hb1); [cbn [length]; lia|by right|]. change (inum_of (length (_ :: G))) with n in Hrun1.
  rewrite <-app_comm_cons in Hb1. pose proof (cost_nblk (Z.of_nat (length (concat ps))) ltac:(lia)) as Hc.
  destruct (iappend_run m1 _ _ 0 (T_DIR, r) (entry n (entry_name f)) Hb1 eq_refl) as (m2 & As2 & Hrun2 & Hb2); cbn [fst snd].
  { by rewrite length_entry. }
  { by left. }
  { fold r'. rewrite insert_head, space_cons, space_snoc. cbn [snd]. change (cost (nblk (Z.of_nat (length (@nil Z))))) with 0. lia. }
  cbn [fst snd] in Hb2. fold r' in Hb2. rewrite insert_head in Hb2.
  destruct (append_pieces ps m2 _ As2 (S (length G)) (T_FILE, []) Hb2 (lookup_last _ _ _)) as (m3 & As3 & Hrun3 & Hb3); cbn [fst snd].
  { by right. }
  { exact Hmax. }
  { rewrite insert_last, space_cons, space_snoc. exact Hsp. }
  cbn [fst snd] in Hb3. rewrite insert_last in Hb3. exists m3, As3. split; [|exact Hb3].
  unfold add_file, assert_. rewrite (no_slash _ Hslash). erewrite mk_step; [|reflexivity]. rewrite Hps.
  fold (entry_name f). rewrite (proj2 (Z.leb_le _ _) Hname). erewrite mk_step; [|reflexivity]. rewrite (mk_step _ _ _ _ _ Hrun1).
  rewrite xshort_small by (unfold n, inum_of, NINODES in *; lia). fold (entry n (entry_name f)). change ROOTINO with (inum_of 0).
  rewrite (mk_step _ _ _ _ _ Hrun2). exact Hrun3.
Qed.

(** All files. *)
Lemma add_files_run fs m r G As (n := inum_of (S (length G))) :
  built m ((T_DIR, r) :: G) As → Forall host_ok fs → Z.of_nat (length G + length fs) + 1 < NINODES →
  Z.of_nat (length r + 16 * length fs) ≤ MAXFILE * BSIZE →
  nmeta + space ((T_DIR, r ++ entries n fs) :: G ++ (data_file <$> fs)) ≤ FSSIZE →
  ∃ m' As', mk_for fs (add_file ROOTINO) m = Ok tt m' ∧ built m' ((T_DIR, r ++ entries n fs) :: G ++ (data_file <$> fs)) As'.
Proof.
  unfold n. clear n. revert m r G As. induction fs as [|f fs IH]; intros m r G As Hb Hok Hn Hr Hsp; cbn [entries fmap list_fmap mk_for].
  { exists m, As. split; [done|]. by rewrite !app_nil_r. }
  set (n := inum_of (S (length G))) in *. apply list.Forall_cons in Hok as [Hf Hok]. cbn [entries fmap list_fmap length] in Hsp, Hn, Hr.
  assert (n + 1 = inum_of (S (length (G ++ [data_file f])))) as Hn1 by (unfold n, inum_of; rewrite length_app; cbn [length]; lia).
  assert (G ++ data_file f :: (data_file <$> fs) = (G ++ [data_file f]) ++ (data_file <$> fs)) as HG by (by rewrite <-app_assoc).
  rewrite app_assoc, HG, Hn1 in Hsp |- *.
  destruct (add_file_run m r G As f Hb Hf) as (m1 & As1 & Hrun & Hb1); [lia|lia| |].
  { fold n. rewrite space_cons, space_app in Hsp. rewrite space_cons. cbn [snd] in *. set (r' := r ++ _) in *. rewrite (length_app r'), Nat2Z.inj_add in Hsp.
    pose proof (off_cost (Z.of_nat (length r')) (Z.of_nat (length (entries (inum_of (S (length (G ++ [data_file f])))) fs))) ltac:(lia) ltac:(lia)) as Hc.
    pose proof (space_pos (data_file <$> fs)). lia. }
  fold n in Hb1. destruct (IH m1 _ _ As1 Hb1 Hok) as (m2 & As2 & Hrun2 & Hb2).
  - rewrite length_app. cbn [length]. lia.
  - rewrite length_app, length_entry. lia.
  - exact Hsp.
  - exists m2, As2. split; [|exact Hb2]. by rewrite (mk_step _ _ _ _ _ Hrun).
Qed.

(** The empty image. *)
Definition blank (m : mkst) (k : Z) : Prop :=
  (∀ a, img m a = 0) ∧ img_blocks m = k ∧ freeinode m = 1 ∧ freeblock m = nmeta.

Lemma blank_view m k b : blank m k → view m b = zero_block.
Proof.
  intros (Hi & _). unfold view, block, zero_block. apply list_eq. intros i. destruct (decide (i < Z.to_nat BSIZE)%nat).
  - rewrite rd_disk_lookup, lookup_replicate_2 by done. by rewrite Hi.
  - rewrite !lookup_ge_None_2; [done|rewrite length_replicate; lia|]. fold (block (img m) b). rewrite length_block. lia.
Qed.

Lemma clear_run n k m : blank m (Z.of_nat k) → Z.of_nat k + Z.of_nat n ≤ FSSIZE →
  ∃ m', mk_for (seq k n) (λ i, wsect (Z.of_nat i) zeroes) m = Ok tt m' ∧ blank m' (Z.of_nat k + Z.of_nat n).
Proof.
  revert k m. induction n as [|n IH]; intros k m (Hi & Hb & Hn & Hf) Hmax.
  { exists m. split; [done|]. by rewrite Z.add_0_r. }
  destruct (sector_small (Z.of_nat k)) as [H1 H2]; [lia|].
  set (m1 := Mkst (pwrite (Z.of_nat k * BSIZE) zeroes (img m)) (Z.max (img_blocks m) (Z.of_nat k + 1)) (freeinode m) (freeblock m)).
  assert (wsect (Z.of_nat k) zeroes m = Ok tt m1) as Hw by (unfold wsect; by rewrite H1, H2).
  destruct (IH (S k) m1) as (m2 & Hrun & Hm2); [|lia|].
  - split_and!; [|cbn [img_blocks m1]; lia|done|done]. intros a. cbn [img m1]. unfold pwrite.
    destruct (_ && _); [|apply Hi]. unfold zeroes. destruct (replicate _ 0 !! _) eqn:E; [|done]. by apply lookup_replicate in E as [-> _].
  - exists m2. replace (Z.of_nat k + Z.of_nat (S n)) with (Z.of_nat (S k) + Z.of_nat n) by lia. split; [|done].
    cbn [seq mk_for]. by rewrite (mk_step _ _ _ _ _ Hw).
Qed.

Lemma slot_zero k : 0 ≤ k < IPB → slot k zero_block = replicate 64 0.
Proof.
  intros Hk. change IPB with 16 in Hk. unfold slot, slice, zero_block. rewrite drop_replicate, take_replicate. f_equal.
  unfold DINODE_SIZE, BSIZE. lia.
Qed.

Lemma slot_type k data : 0 ≤ k → slot k data = replicate 64 0 → di_type (dinode_get k data) = 0.
Proof.
  intros Hk Hs. cbn [di_type dinode_get]. unfold rd_le. unfold slot in Hs.
  assert (slice (Z.to_nat (DINODE_SIZE * k)) 2 data = replicate 2 0) as ->; [|done].
  transitivity (slice 0 2 (slice (Z.to_nat (DINODE_SIZE * k)) 64 data)); [|by rewrite Hs].
  unfold slice. by rewrite drop_0, take_take.
Qed.

(** The image with its superblock. *)
Definition with_sb (m : mkst) : mkst := put 1 (splice 0 (sb_bytes sb) zeroes) m.

Lemma view_with_sb m b : blank m FSSIZE → view (with_sb m) b = if b =? 1 then splice 0 (sb_bytes sb) zero_block else zero_block.
Proof.
  intros Hm. unfold with_sb. rewrite view_put by (vm_compute; reflexivity). destruct (Z.eqb_spec b 1) as [->|Hne].
  - by rewrite fn_lookup_insert.
  - rewrite fn_lookup_insert_ne by done. by eapply blank_view.
Qed.

Lemma built_start m : blank m FSSIZE → wsect 1 (splice 0 (sb_bytes sb) zeroes) m = Ok tt (with_sb m) ∧ built (with_sb m) [] [].
Proof.
  intros Hm. pose proof (λ b, view_with_sb m b Hm) as Hv. pose proof Hm as (_ & Hb & Hn & Hf).
  assert (image_ok m) as Hok.
  { split; [done|rewrite Hf; split; [lia|vm_compute; discriminate]|]. intros b _. by eapply blank_view. }
  split; [by apply wsect_run|]. split; try done.
  - apply image_ok_put; [done|vm_compute; reflexivity|]. rewrite Hf. done.
  - intros i Hi. assert (inum_ok i) as Hi' by (unfold inum_ok; cbn [freeinode with_sb put] in Hi; lia).
    destruct (IBLOCK_sb i Hi') as [_ ?]. rewrite Hv, (proj2 (Z.eqb_neq _ _)) by lia. apply slot_zero. by apply Z.mod_pos_bound.
Qed.

(** The bitmap. *)
Definition mark_block (buf : list Z) (i : nat) : list Z :=
  <[(i / 8)%nat := u8 (Z.lor (default 0 (buf !! (i / 8)%nat)) (Z.shiftl 1 (Z.of_nat (i mod 8))))]> buf.

Lemma mark_block_bit buf i bi : length buf = Z.to_nat BSIZE → Z.of_nat i < BPB → 0 ≤ bi < BPB →
  bit_at (mark_block buf i) bi = (bi =? Z.of_nat i) || bit_at buf bi.
Proof.
  intros Hl Hi Hbi. unfold mark_block.
  assert ((i / 8)%nat = Z.to_nat (Z.of_nat i / 8)) as E by (by rewrite <-(Nat2Z.id (i / 8)), Nat2Z.inj_div). rewrite E.
  assert (Z.of_nat (i mod 8) = Z.of_nat i mod 8) as -> by (by rewrite Nat2Z.inj_mod).
  unfold bit_at. rewrite bit_byte_insert by (lia || done). rewrite <-(same_bit bi (Z.of_nat i)), (Z.eqb_sym (bi / 8)), (Z.eqb_sym (bi mod 8)).
  pose proof (Z.mod_pos_bound bi 8 ltac:(lia)) as Hm. pose proof (Z.mod_pos_bound (Z.of_nat i) 8 ltac:(lia)) as Hm'.
  destruct (Z.eqb_spec (Z.of_nat i / 8) (bi / 8)) as [Hd|]; [|done]. unfold u8.
  rewrite Z.mod_pow2_bits_low, Z.lor_spec, Z.shiftl_1_l, Z.pow2_bits_eqb, orb_comm by lia. cbn [andb]. f_equal.
  unfold bit_byte. by rewrite Hd.
Qed.

Lemma bitmap_bits n buf : length buf = Z.to_nat BSIZE → Z.of_nat n ≤ BPB → (∀ bi, 0 ≤ bi < BPB → bit_at buf bi = false) →
  length (foldl mark_block buf (seq 0 n)) = Z.to_nat BSIZE ∧
  ∀ bi, 0 ≤ bi < BPB → bit_at (foldl mark_block buf (seq 0 n)) bi = (bi <? Z.of_nat n).
Proof.
  intros Hl Hn Hz. induction n as [|n IH].
  - split; [done|]. intros bi Hbi. cbn [seq foldl]. rewrite Hz by done. symmetry. apply Z.ltb_ge. lia.
  - destruct IH as [IHl IHb]; [lia|]. rewrite seq_S, foldl_app. cbn [foldl]. split; [unfold mark_block at 1; by rewrite length_insert|].
    intros bi Hbi. rewrite mark_block_bit by (done || lia). rewrite IHb by done. rewrite Nat.add_0_l.
    destruct (Z.eqb_spec bi (Z.of_nat n)), (Z.ltb_spec bi (Z.of_nat n)), (Z.ltb_spec bi (Z.of_nat (S n))); (done || lia).
Qed.

Lemma zero_bit bi : bit_at zeroes bi = false.
Proof.
  unfold bit_at, bit_byte, zeroes. destruct (replicate _ 0 !! _) eqn:E; [apply lookup_replicate in E as [-> _]|]; by apply Z.testbit_0_l.
Qed.

Lemma balloc_run m used : image_ok m → 0 ≤ used < BPB → ∃ buf, balloc used m = Ok tt (put 46 buf m) ∧ length buf = Z.to_nat BSIZE ∧
  ∀ bi, 0 ≤ bi < BPB → bit_at buf bi = (bi <? used).
Proof.
  intros Hm Hu. destruct (bitmap_bits (Z.to_nat used) zeroes) as [Hl Hb]; [done|lia|intros; apply zero_bit|].
  eexists. split; [|split; [exact Hl|intros bi Hbi; rewrite Hb by done; f_equal; lia]].
  unfold balloc, assert_. rewrite (proj2 (Z.ltb_lt _ _)) by lia. erewrite mk_step; [|reflexivity]. by apply (wsect_run m 46).
Qed.

(** All of the program but its last two steps. *)
Lemma files_run fs :
  Forall host_ok fs → Z.of_nat (length fs) + 1 < NINODES → nmeta + space (image_files fs) ≤ FSSIZE →
  ∃ m As, mkfs fs mkfs_start = (fix_root ROOTINO;; used ← (λ m, Ok (freeblock m) m); balloc (i32 used)) m ∧ built m (image_files fs) As.
Proof.
  intros Hok Hn Hsp. assert (blank mkfs_start (Z.of_nat 0)) as Hb0 by done.
  destruct (clear_run (Z.to_nat FSSIZE) 0 mkfs_start Hb0 ltac:(rewrite Z2Nat.id; done)) as (m1 & Hrun1 & Hm1). rewrite Z.add_0_l, Z2Nat.id in Hm1 by done.
  destruct (built_start m1 Hm1) as [Hrun2 Hb2].
  destruct (ialloc_run _ _ _ T_DIR Hb2) as (m3 & Hrun3 & Hb3); [done|by left|]. change (inum_of (length (@nil (Z * list Z)))) with 1 in Hrun3. rewrite app_nil_l in Hb3.
  set (dot := entry ROOTINO (str ".")). set (dotdot := entry ROOTINO (str "..")).
  assert (length dot = 16%nat ∧ length dotdot = 16%nat) as [Hl1 Hl2] by (split; apply length_entry).
  destruct (iappend_run m3 _ _ 0 (T_DIR, []) dot Hb3 eq_refl) as (m4 & As4 & Hrun4 & Hb4); [cbn [snd]; by rewrite Hl1|by left| |].
  { cbn [fst snd]. rewrite insert_head, space_cons. cbn [snd app]. rewrite Hl1. by vm_compute. }
  cbn [fst snd app] in Hb4. rewrite insert_head in Hb4.
  destruct (iappend_run m4 _ _ 0 (T_DIR, dot) dotdot Hb4 eq_refl) as (m5 & As5 & Hrun5 & Hb5); [cbn [snd]; by rewrite Hl1, Hl2|by left| |].
  { cbn [fst snd]. rewrite insert_head, space_cons. cbn [snd]. rewrite length_app, Hl1, Hl2. by vm_compute. }
  cbn [fst snd] in Hb5. rewrite insert_head in Hb5.
  destruct (add_files_run fs m5 (dot ++ dotdot) [] As5 Hb5 Hok) as (m6 & As6 & Hrun6 & Hb6).
  { exact Hn. }
  { rewrite length_app, Hl1, Hl2, MAXFILE_eq. unfold NINODES in Hn. unfold BSIZE. lia. }
  { rewrite <-app_assoc. exact Hsp. }
  exists m6, As6. split; [|rewrite <-app_assoc in Hb6; exact Hb6].
  unfold mkfs. rewrite (mk_step _ _ _ _ _ Hrun1), (mk_step _ _ _ _ _ Hrun2), (mk_step _ _ _ _ _ Hrun3).
  change (assert_ (1 =? ROOTINO)) with (assert_ true). erewrite mk_step; [|reflexivity]. change (xshort 1) with ROOTINO. fold dot dotdot.
  change 1 with (inum_of 0) at 1 2. rewrite (mk_step _ _ _ _ _ Hrun4), (mk_step _ _ _ _ _ Hrun5).
  change (inum_of 0) with ROOTINO. by rewrite (mk_step _ _ _ _ _ Hrun6).
Qed.

(** What the kernel finds on the disk. *)
Section image.
Context `{IM : Image, DV : Device, PT : Patience, OW : Own, SS : !Session} (Hlog : log_start = sb_logstart sb).

Definition root_size (fs : list hostfile) : Z := (Z.of_nat (length (root_dir fs)) / BSIZE + 1) * BSIZE.

Record file_system (fs : list hostfile) (c : Z → list Z) : Prop := FileSystem {
  fs_super : superblock_get (c 1) = sb;
  fs_geo : geometry sb;
  fs_log : hd_n (c log_start) = 0;
  fs_used : ∀ b, is_block sb b → used sb c b = (b <? nmeta + space (image_files fs));
  fs_files : ∀ i f, fs !! i = Some f → ∃ A,
    let x := Inode dev (Z.of_nat i + 2) 0 0 T_FILE 0 0 1 (Z.of_nat (length (contents f))) A in
    file_on sb c x ∧ file_bytes x c = contents f;
  fs_root : Z.of_nat (length (root_dir fs)) mod BSIZE ≠ 0 → ∃ A,
    let x := Inode dev ROOTINO 0 0 T_DIR 0 0 1 (root_size fs) A in
    file_on sb c x ∧ file_bytes x c = root_dir fs ++ replicate (Z.to_nat (root_size fs) - length (root_dir fs)) 0;
  fs_spare : ∀ i, Z.of_nat (length fs) + 2 ≤ i < sb_ninodes sb → di_type (dinode_get (i mod IPB) (c (IBLOCK i sb))) = 0
}.

Lemma sb_fields : sb_size sb = 2000 ∧ sb_ninodes sb = 200 ∧ sb_inodestart sb = 33 ∧ sb_bmapstart sb = 46 ∧ sb_logstart sb = 2.
Proof. rewrite sb_eq. done. Qed.

Lemma BBLOCK_sb b : is_block sb b → BBLOCK b sb = 46.
Proof.
  destruct sb_fields as (Es & _ & _ & Eb & _). unfold is_block, BBLOCK. rewrite Es, Eb. intros Hb. change BPB with 8192. by rewrite Z.div_small by lia.
Qed.

Lemma home_sb b : 33 ≤ b < 2000 → home b.
Proof. destruct sb_fields as (_ & _ & _ & _ & El). intros Hb. unfold home, is_home, blockno_ok. rewrite Hlog, El. unfold LOGBLOCKS, MAXOPBLOCKS. lia. Qed.

Lemma inum_ok_sb i : 0 ≤ i < sb_ninodes sb ↔ inum_ok i.
Proof. destruct sb_fields as (_ & -> & _). done. Qed.

Lemma mkfs_geometry : geometry sb.
Proof.
  destruct sb_fields as (Es & En & Ei & Eb & _). split; rewrite ?Es, ?En, ?Ei, ?Eb.
  - lia.
  - change (2000 / BPB) with 0. lia.
  - change (200 / IPB) with 12. lia.
  - intros i b Hi Hb. rewrite BBLOCK_sb by (unfold is_block; lia). destruct (IBLOCK_sb i); [done|]. lia.
  - intros b Hb. rewrite BBLOCK_sb by (unfold is_block; lia). by apply home_sb.
  - intros i Hi. destruct (IBLOCK_sb i); [done|]. apply home_sb. lia.
Qed.

Lemma mkfs_data b : 47 ≤ b < 2000 → data_block sb b.
Proof.
  destruct sb_fields as (Es & _). intros Hb. split.
  - unfold is_block. lia.
  - lia.
  - intros b' Hb'. rewrite BBLOCK_sb by done. lia.
  - intros i Hi%inum_ok_sb. destruct (IBLOCK_sb i Hi). lia.
  - apply home_sb. lia.
Qed.

(** The layout and the contents of a file that has been built. *)
Lemma holds_file_ok c f A k l i t sz : holds c f A k l → 47 ≤ f ≤ 2000 → (∀ b, is_block sb b → used sb c b = (b <? f)) →
  Z.of_nat (length l) ≤ sz ≤ k * BSIZE → file_ok sb c (Inode dev i 0 0 t 0 0 1 sz A).
Proof.
  intros Hh Hf Hu Hsz. set (x := Inode _ _ _ _ _ _ _ _ _ _). pose proof (ho_count _ _ _ _ _ Hh) as Hk. destruct sb_fields as (Es & _).
  assert (∀ b, nmeta ≤ b < f → data_block sb b ∧ used sb c b = true) as Hd.
  { intros b Hb. rewrite nmeta_eq in Hb. split; [apply mkfs_data; lia|]. rewrite Hu by (unfold is_block; lia). apply Z.ltb_lt. lia. }
  split.
  - apply (ho_len _ _ _ _ _ Hh).
  - cbn [i_size x]. unfold BSIZE in *. lia.
  - done.
  - intros bn Hb0 Hb. cbn [i_size x] in Hb. assert (bn < k) by (unfold BSIZE in *; lia). apply (ho_mapped _ _ _ _ _ Hh); [unfold in_file; lia|done].
  - split.
    + intros bn Hbn Hz. apply Hd. by apply (ho_range _ _ _ _ _ Hh).
    + intros Hz. apply Hd. by apply (ho_irange _ _ _ _ _ Hh).
    + intros bn Hbn Hz. by apply (ho_ne _ _ _ _ _ Hh).
    + intros bn bn' Hbn Hbn' Hz. by apply (ho_inj _ _ _ _ _ Hh).
Qed.

Lemma holds_file_bytes c f A k l i t sz : holds c f A k l → Z.of_nat (length l) ≤ sz ≤ k * BSIZE →
  file_bytes (Inode dev i 0 0 t 0 0 1 sz A) c = l ++ replicate (Z.to_nat sz - length l) 0.
Proof.
  intros Hh Hsz. apply list_eq. intros j. set (x := Inode _ _ _ _ _ _ _ _ _ _).
  destruct (decide (j < Z.to_nat sz)%nat) as [Hj|Hj].
  - rewrite file_bytes_lookup by done. change (file_byte x c (Z.of_nat j)) with (file_byte (node A) c (Z.of_nat j)).
    rewrite (ho_bytes _ _ _ _ _ Hh), Nat2Z.id by lia. destruct (decide (j < length l)%nat) as [Hl|Hl].
    + rewrite lookup_app_l by done. destruct (lookup_lt_is_Some_2 l j Hl) as [y Hy]. by rewrite Hy.
    + rewrite lookup_app_r, lookup_replicate_2, (lookup_ge_None_2 l) by lia. done.
  - rewrite !lookup_ge_None_2; [done|rewrite length_app, length_replicate; lia|]. rewrite length_file_bytes. cbn [i_size x]. lia.
Qed.

(** The inode of a file that has been built. *)
Lemma holds_file_on m f A k l i t sz : holds (view m) f A k l → 47 ≤ f ≤ 2000 → (∀ b, is_block sb b → used sb (view m) b = (b <? f)) →
  Z.of_nat (length l) ≤ sz ≤ k * BSIZE → inum_ok i → inode_is m i (Dinode t 0 0 1 sz A) → file_on sb (view m) (Inode dev i 0 0 t 0 0 1 sz A).
Proof.
  intros Hh Hf Hu Hsz Hi Hx. split.
  - by eapply holds_file_ok.
  - intros b Hb. rewrite Hu by done. intros Hlt%Z.ltb_ge. destruct sb_fields as (Es & _). unfold is_block in Hb. apply mkfs_data. lia.
  - by apply inum_ok_sb.
  - symmetry. by apply (inode_is_put m i).
Qed.

(** The last two steps: the size of the root directory and the bitmap. *)
Lemma finish_run m fs As : built m (image_files fs) As → freeblock m ≤ FSSIZE →
  ∃ A buf, As !! 0%nat = Some A ∧ length buf = Z.to_nat BSIZE ∧ (∀ bi, 0 ≤ bi < BPB → bit_at buf bi = (bi <? freeblock m)) ∧
  let x := Dinode T_DIR 0 0 1 (root_size fs) A in dinode_ok x ∧
  (fix_root ROOTINO;; used ← (λ m, Ok (freeblock m) m); balloc (i32 used)) m = Ok tt (put 46 buf (set_inode ROOTINO x m)).
Proof.
  intros Hb Hf. assert (∃ A, As !! 0%nat = Some A) as [A HA] by (apply lookup_lt_is_Some; rewrite (bu_len _ _ _ Hb); unfold image_files; cbn [length]; lia).
  destruct (bu_file _ _ _ Hb 0 _ A eq_refl HA) as [Hin Hh]. cbn [fst snd] in Hin, Hh. change (inum_of 0) with ROOTINO in Hin.
  pose proof (bu_ok _ _ _ Hb) as Hok. pose proof (im_free _ Hok) as Hfr. rewrite nmeta_eq in Hfr. assert (inum_ok ROOTINO) as Hr by done.
  set (x := Dinode T_DIR 0 0 1 (root_size fs) A). destruct (winode_run m ROOTINO x Hok Hr) as [Hrun2 Hok2].
  pose proof (ho_size _ _ _ _ _ Hh) as Hs. pose proof (ho_count _ _ _ _ _ Hh) as Hk. rewrite MAXFILE_eq in Hk.
  assert (0 ≤ root_size fs < 2 ^ 32 ∧ Z.of_nat (length (root_dir fs)) < 2 ^ 32) as [Hsz Hlen].
  { unfold root_size. set (n := Z.of_nat (length (root_dir fs))) in *. pose proof (Z.div_mod n BSIZE ltac:(done)). pose proof (Z.mod_pos_bound n BSIZE ltac:(done)).
    assert (0 ≤ n) by lia. unfold BSIZE in *. lia. }
  destruct (balloc_run (set_inode ROOTINO x m) (freeblock m) Hok2) as (buf & Hrun3 & Hlb & Hbits).
  { change BPB with 8192. unfold FSSIZE in Hf. lia. }
  exists A, buf. split; [done|]. split; [done|]. split; [done|]. cbv zeta. fold x. split.
  { split; cbn [di_type di_major di_minor di_nlink di_size di_addrs x]; try (unfold T_DIR; lia); [apply (ho_len _ _ _ _ _ Hh)|by apply (holds_addrs _ _ _ _ _ Hh)]. }
  assert (fix_root ROOTINO m = winode ROOTINO x m) as Hfix.
  { unfold fix_root. rewrite (mk_step _ _ _ _ _ (rinode_run m _ _ Hok Hr Hin)). cbn [di_size]. rewrite (xint_small (Z.of_nat _)) by lia.
    cbv zeta. fold (root_size fs). rewrite u32_small, xint_small by lia. done. }
  rewrite <-Hfix in Hrun2. rewrite (mk_step _ _ _ _ _ Hrun2).
  erewrite mk_step; [|reflexivity]. change (freeblock (set_inode ROOTINO x m)) with (freeblock m).
  assert (i32 (freeblock m) = freeblock m) as -> by (unfold FSSIZE in Hf; apply i32_small; lia). exact Hrun3.
Qed.

(** C10: The image that mkfs writes is the file system the kernel expects.  When every host file
    can be opened, has a name of at most DIRSIZ characters and fits an inode, and there are inodes
    and blocks for all of them, mkfs ends without an error, and the disk has its superblock, whose regions
    are apart ([geometry]), an empty log, a bitmap that marks just the blocks in use, each host
    file under its inode number, in the form in which [fileread] and [filewrite] are proved to work on it
    and with exactly the host's bytes, and the root directory with an entry for each of them,
    followed by zeroes up to the end of its block; the remaining inodes are free. *)
Theorem mkfs_makes_file_system fs :
  Forall host_ok fs → Z.of_nat (length fs) + 1 < NINODES → nmeta + space (image_files fs) ≤ FSSIZE →
  ∃ m, mkfs fs mkfs_start = Ok tt m ∧ file_system fs (block (img m)).
Proof.
  intros Hok Hn Hsp. destruct (files_run fs Hok Hn Hsp) as (m & As & -> & Hb). pose proof (bu_space _ _ _ Hb) as Hfree.
  destruct (finish_run m fs As Hb) as (A0 & buf & HA0 & Hlb & Hbits & Hx0 & Hrun); [lia|]. cbv zeta in Hrun, Hx0.
  set (x0 := Dinode T_DIR 0 0 1 (root_size fs) A0) in *. set (m1 := set_inode ROOTINO x0 m) in *. exists (put 46 buf m1). split; [exact Hrun|].
  set (m2 := put 46 buf m1). change (block (img m2)) with (view m2). assert (inum_ok ROOTINO) as Hr by done.
  pose proof (im_free _ (bu_ok _ _ _ Hb)) as Hfr. rewrite nmeta_eq in Hfr. change FSSIZE with 2000 in Hfr.
  assert (Hv : ∀ b, b ≠ 46 → view m2 b = view m1 b) by (intros b Hb46; unfold m2; rewrite view_put by done; by rewrite fn_lookup_insert_ne).
  assert (Hu : ∀ b, is_block sb b → used sb (view m2) b = (b <? freeblock m)).
  { intros b Hbk. unfold used. rewrite BBLOCK_sb by done. unfold m2. rewrite view_put, fn_lookup_insert by done.
    destruct sb_fields as (Es & _). unfold is_block in Hbk. change BPB with 8192 in *. rewrite Z.mod_small by lia. apply Hbits. lia. }
  assert (Hinode : ∀ i x, inum_ok i → inode_is m1 i x → inode_is m2 i x).
  { intros i x Hi. apply inode_is_view, Hv. destruct (IBLOCK_sb i Hi). lia. }
  assert (Hholds : ∀ i e A, image_files fs !! i = Some e → As !! i = Some A → holds (view m2) (freeblock m) A (nblk (Z.of_nat (length e.2))) e.2).
  { intros i e A Hi HA. apply (holds_frame (view m1) _ (freeblock m)); [|lia|].
    - apply holds_set_inode; [by apply (bu_file _ _ _ Hb i)|done].
    - intros b Ho. apply Hv. intros ->. pose proof (bu_file _ _ _ Hb i e A Hi HA) as [_ Hh].
      apply (owned_set_inode m ROOTINO x0 _ _ _ _ _ Hh Hr) in Ho. pose proof (owned_range _ _ _ _ _ _ Hh Ho). lia. }
  split.
  - rewrite Hv by done. unfold m1. rewrite view_set_inode by done. rewrite (bu_meta _ _ _ Hb) by done. vm_compute. reflexivity.
  - exact mkfs_geometry.
  - rewrite Hlog. change (sb_logstart sb) with 2. rewrite Hv by done. unfold m1. rewrite view_set_inode by done. rewrite (bu_meta _ _ _ Hb) by done. vm_compute. reflexivity.
  - intros b Hbk. rewrite Hu by done. by rewrite Hfree.
  - intros i f Hi. assert (image_files fs !! S i = Some (data_file f)) as Hi' by (change ((data_file <$> fs) !! i = Some (data_file f)); by rewrite list_lookup_fmap, Hi).
    assert (∃ A, As !! S i = Some A) as [A HA] by (apply lookup_lt_is_Some; rewrite (bu_len _ _ _ Hb); by eapply lookup_lt_Some).
    pose proof (Hholds _ _ _ Hi' HA) as Hh. cbn [data_file fst snd] in Hh. pose proof (nblk_spec (Z.of_nat (length (contents f))) ltac:(lia)) as Hnb.
    pose proof (inum_of_ok _ _ _ (bu_max _ _ _ Hb) Hi') as Hin. exists A. replace (Z.of_nat i + 2) with (inum_of (S i)) by (unfold inum_of; lia). split.
    + eapply holds_file_on; [exact Hh|lia|exact Hu|lia|done|]. apply Hinode; [done|].
      apply inode_is_set; [done|done|unfold inum_of, ROOTINO; lia|done|]. by apply (bu_file _ _ _ Hb (S i) (data_file f)).
    + rewrite (holds_file_bytes _ _ _ _ _ _ _ _ Hh), Nat2Z.id, Nat.sub_diag by lia. by rewrite app_nil_r.
  - intros Hm. pose proof (Hholds 0%nat _ _ eq_refl HA0) as Hh. cbn [fst snd] in Hh. exists A0.
    set (n := Z.of_nat (length (root_dir fs))) in *. assert (root_size fs = nblk n * BSIZE) as Hrs.
    { unfold root_size. fold n. rewrite nblk_off by lia. by rewrite (proj2 (Z.eqb_neq _ _) Hm). }
    pose proof (nblk_spec n ltac:(lia)) as Hnb. split.
    + eapply holds_file_on; [exact Hh|lia|exact Hu|fold n; lia|done|]. apply Hinode; [done|]. by apply inode_set.
    + rewrite (holds_file_bytes _ _ _ _ _ _ _ _ Hh); [done|fold n; lia].
  - intros i Hi. destruct sb_fields as (_ & En & _). rewrite En in Hi. assert (inum_ok i) as Hio by (unfold inum_ok, NINODES; lia).
    assert (view m2 (IBLOCK i sb) = view m1 (IBLOCK i sb)) as -> by (apply Hv; destruct (IBLOCK_sb i Hio); lia).
    assert (slot (i mod IPB) (view m1 (IBLOCK i sb)) = replicate 64 0) as Hs.
    { unfold m1. rewrite slot_set; [|done|done|unfold ROOTINO; lia|done]. apply (bu_spare _ _ _ Hb). rewrite (bu_num _ _ _ Hb).
      unfold image_files, inum_of. cbn [length]. rewrite length_fmap. unfold NINODES. lia. }
    apply slot_type; [by apply Z.mod_pos_bound|done].
Qed.

End image.

(** ** Two files *)

#[local] Existing Instance demo_image.
#[local] Existing Instance demo_device.
#[local] Instance mk_patience : Patience := {| patience := 1 |}.
#[local] Instance mk_own : Own :=
  {| own_mem := λ _, True; own_file := λ _, True; own_kstack := 0x80200000; own_pagetable := demo_pg 1 |}.
#[local] Instance mk_session : Session :=
  {| serve := demo_serve; serve_ok := demo_serve_ok; me := 3; my_pid := 4; dev := 1;
     dev_ok := conj eq_refl eq_refl; log_start := 2; log_start_ok := ltac:(unfold LOGBLOCKS, MAXOPBLOCKS; lia);
     patient := le_n 1; uart_ok := demo_uart |}.

(** A program that is read in two pieces and a file that needs an indirect block. *)
Definition mk_files : list hostfile :=
  [Hostfile (str "user/_hello") (Some [str "hel"; str "lo"]);
   Hostfile (str "README") (Some (replicate 13 (replicate 1024 7)))].

Example mk_names : entry_name <$> mk_files = [str "hello"; str "README"].
Proof. reflexivity. Qed.

Lemma mk_files_ok : Forall host_ok mk_files.
Proof. repeat constructor; try done; by vm_compute; set_solver. Qed.

Lemma mk_log : log_start = sb_logstart sb.
Proof. vm_compute. reflexivity. Qed.

Lemma mkfs_makes_file_system_witness : ∃ m, mkfs mk_files mkfs_start = Ok tt m ∧ file_system mk_files (block (img m)).
Proof. apply (mkfs_makes_file_system mk_log mk_files mk_files_ok); [done|vm_compute; discriminate]. Defined.
