(* ===== verification/Llmhelper.v ===== *)
(** * The advice helper: user/llmhelper.c *)

From S2P Require Import Prelude User Ulib.

Definition BUF_SZ : Z := 512.

Definition prefix : list Z := str "ADVICE:PID=".

(** [while ( *line == ' ' || *line == '\t') line++;] *)
Fixpoint skip_blanks (line : list Z) : list Z :=
  match line with
  | c :: rest => if (c =? 32) || (c =? 9) then skip_blanks rest else line
  | [] => []
  end.

(** The comparison with the prefix: [line[i] == prefix[i]] for every [i]. *)
Fixpoint has_prefix (prefix line : list Z) : bool :=
  match prefix with
  | [] => true
  | c :: prefix => (ch line 0 =? c) && has_prefix prefix (tail line)
  end.

(** [while ( *p >= '0' && *p <= '9') pid = pid * 10 + ( *p - '0');] *)
Fixpoint pid_loop (p : list Z) (pid : Z) : Z :=
  match p with
  | [] => pid
  | c :: p => if is_digit c then pid_loop p (i32 (pid * 10 + (c - chr "0"))) else pid
  end.

(** The pid a line asks for, when the line has the right form. *)
Definition line_pid (line : list Z) : option Z :=
  let line := skip_blanks line in
  if negb (has_prefix prefix line) then None else
  let p := drop 11 line in
  if negb (is_digit (ch p 0)) then None else
  let pid := pid_loop p 0 in
  if pid <=? 0 then None else Some pid.

Definition handle_line (line : list Z) : prog unit :=
  match line_pid line with
  | None => mret tt
  | Some pid =>
      r ← sysv (U_set_llm_advice pid);
      if r <? 0 then printf (str "llmhelper: set_llm_advice(%d) failed" ++ [10]) [VInt pid]
      else printf (str "llmhelper: applied advice for pid %d" ++ [10]) [VInt pid]
  end.

(** The scan for complete lines, from index [i] on; the result is the buffer
    and the new [start].  It runs at most [end - i] rounds. *)
Definition scan_lines (buf : list Z) (start i end_ : Z) : prog (list Z * Z) :=
  uloop (S (Z.to_nat (end_ - i)))
    (λ '(buf, start, i),
      if i <? end_ then
        c ← aget i buf;
        if c =? 10 then
          buf ← aset i 0 buf;
          handle_line (drop (Z.to_nat start) buf);;
          mret (inl (buf, i + 1, i + 1))
        else mret (inl (buf, start, i + 1))
      else mret (inr (buf, start)))
    (buf, start, i).

(** One round of the loop of [main]. *)
Definition main_round (st : list Z * Z * Z) : prog (list Z * Z * Z + unit) :=
  let '(buf, start, end_) := st in
  let end_ := if (BUF_SZ - 1 <=? end_) && (start =? 0) then 0 else end_ in
  r ← sys (U_read 0 (BUF_SZ - 1 - end_));
  let n := r_val r in
  if n <=? 0 then mret (inr tt) else
  let buf := splice (Z.to_nat end_) (r_buf r) buf in
  let end_ := end_ + n in
  buf ← aset end_ 0 buf;
  '(buf, start) ← scan_lines buf start start end_;
  if start =? end_ then mret (inl (buf, 0, 0))
  else if 0 <? start then
    let remaining := end_ - start in
    buf ← memmove buf 0 start remaining;
    buf ← aset remaining 0 buf;
    mret (inl (buf, 0, remaining))
  else mret (inl (buf, start, end_)).

(** [main], its endless loop cut after [rounds] reads; [buf] is uninitialised. *)
Definition main (rounds : nat) (buf : list Z) : prog unit :=
  printf (str "llmhelper: started, waiting for LLM advice on stdin..." ++ [10]) [];;
  uloop rounds main_round (buf, 0, 0);;
  printf (str "llmhelper: exiting (input closed)" ++ [10]) [];;
  Exit 0.
