(* ===== verification/Init.v ===== *)
(** * The first user program: user/init.c *)

From S2P Require Import Prelude User Ulib.

Definition LINE_BUF : Z := 512.

Definition argv_sh : list (list Z) := [str "sh"].
Definition argv_llm : list (list Z) := [str "llmhelper"].

(** [s[i] == prefix[i]] up to the end of the prefix. *)
Fixpoint starts_with (prefix s : list Z) : bool :=
  match prefix with
  | [] => true
  | c :: prefix => (ch s 0 =? c) && starts_with prefix (tail s)
  end.
Definition is_advice_line (s : list Z) : bool := starts_with (str "ADVICE:PID=") s.

(** A completed line of [n] bytes goes to one of the pipes. *)
Definition forward_line (sh_fd llm_fd : Z) (buf : list Z) (n : Z) : prog unit :=
  if (0 <? n) && is_advice_line buf then
    uwhen (0 <=? llm_fd)
      (sysv (U_write llm_fd (take (Z.to_nat n) buf));; sysv (U_write llm_fd [10]);; mret tt)
  else
    uwhen (0 <=? sh_fd)
      (sysv (U_write sh_fd (take (Z.to_nat n) buf));; sysv (U_write sh_fd [10]);; mret tt).

(** One round of the router's endless loop. *)
Definition router_round (sh_fd llm_fd : Z) (st : list Z * Z) : prog (list Z * Z + unit) :=
  let '(buf, n) := st in
  r ← sys (U_read 0 1);
  if r_val r <? 1 then Exit 0 else
  let c := ch (r_buf r) 0 in
  let c := if c =? 13 then 10 else c in
  if c =? 10 then
    buf ← aset n 0 buf;
    forward_line sh_fd llm_fd buf n;;
    mret (inl (buf, 0))
  else if n <? LINE_BUF - 1 then
    buf ← aset n c buf;
    mret (inl (buf, n + 1))
  else mret (inl (buf, n)).

Definition router_loop (rounds : nat) (sh_fd llm_fd : Z) (buf : list Z) : prog unit :=
  uloop rounds (router_round sh_fd llm_fd) (buf, 0).

(** The two descriptors [pipe] stores. *)
Definition pipe_fds (r : resp) : Z * Z := (ch (r_buf r) 0, ch (r_buf r) 1).

(** Wait until the shell exits; [true] when it did. *)
Definition wait_shell (rounds : nat) (shpid : Z) : prog unit :=
  uloop rounds (λ _ : unit,
    wpid ← sysv U_wait;
    if wpid =? shpid then mret (inr tt)
    else if wpid <? 0 then printf (str "init: wait returned an error" ++ [10]) [];; Exit 1
    else mret (inl tt)) tt.

(** One round of the loop that keeps a shell running. *)
Definition shell_round (rounds : nat) (sh0 llm0 : Z) : prog unit :=
  printf (str "init: starting sh" ++ [10]) [];;
  shpid ← sysv U_fork;
  if shpid <? 0 then printf (str "init: fork sh failed" ++ [10]) [];; Exit 1
  else if shpid =? 0 then
    sysv (U_close 0);;
    sysv (U_dup sh0);;
    sysv (U_close sh0);;
    sysv (U_close llm0);;
    sysv (U_exec (str "sh") argv_sh);;
    printf (str "init: exec sh failed" ++ [10]) [];;
    Exit 1
  else
    printf (str "init: started sh (pid=%d)" ++ [10]) [VInt shpid];;
    wait_shell rounds shpid.

Definition O_RDWR : Z := 2.

Definition main (rounds : nat) (buf : list Z) : prog unit :=
  fd ← sysv (U_open (str "console") O_RDWR);
  uwhen (fd <? 0)
    (sysv (U_mknod (str "console") 1 0);; sysv (U_open (str "console") O_RDWR);; mret tt);;
  sysv (U_dup 0);;
  sysv (U_dup 0);;
  r1 ← sys U_pipe;
  r2 ← (if r_val r1 <? 0 then mret (Resp (-1) []) else sys U_pipe);
  if (r_val r1 <? 0) || (r_val r2 <? 0) then
    printf (str "init: pipe failed" ++ [10]) [];; Exit 1
  else
  let '(sh0, sh1) := pipe_fds r1 in
  let '(llm0, llm1) := pipe_fds r2 in
  pid ← sysv U_fork;
  if pid <? 0 then printf (str "init: fork router failed" ++ [10]) [];; Exit 1
  else if pid =? 0 then
    sysv (U_close sh0);;
    sysv (U_close llm0);;
    router_loop rounds sh1 llm1 buf;;
    Exit 0
  else
  sysv (U_close sh1);;
  sysv (U_close llm1);;
  pid ← sysv U_fork;
  (if pid <? 0 then printf (str "init: fork llmhelper failed" ++ [10]) []
   else if pid =? 0 then
     sysv (U_close 0);;
     sysv (U_dup llm0);;
     sysv (U_close llm0);;
     sysv (U_close sh0);;
     sysv (U_exec (str "llmhelper") argv_llm);;
     printf (str "init: exec llmhelper failed" ++ [10]) [];;
     Exit 1
   else mret tt);;
  printf (str "init: started llmhelper (pid=%d)" ++ [10]) [VInt pid];;
  ufor (seq 0 rounds) (λ _, shell_round rounds sh0 llm0).
