(* ===== verification/Workload.v ===== *)
(** * Workloads for the scheduler: cpubound, iobound, mixed

    The programs that the scheduler and its advisor are tried on.  Each forks
    its workers, runs its loop in every worker, and collects the children in the
    first one.  [rounds] bounds the loop over [wait]. *)

From S2P Require Import Prelude User Ulib.

(** [int x = dflt; if(argc > i){ int v = atoi(argv[i]); if(v > 0) x = v; }] *)
Definition arg_or (argv : list (list Z)) (i : nat) (dflt : Z) : Z :=
  match argv !! i with
  | Some a => if 0 <? atoi a then atoi a else dflt
  | None => dflt
  end.

(** Between 1 and 16 workers. *)
Definition clamp_workers (w : Z) : Z :=
  let w := if w <? 1 then 1 else w in
  if 16 <? w then 16 else w.

(** The share of one worker, at least 1. *)
Definition share (total workers : Z) : Z :=
  let l := Z.quot total workers in if l <? 1 then 1 else l.

(** Fork [n] children; a child leaves the loop. *)
Fixpoint fork_workers (n : nat) (failed : list Z) : prog unit :=
  match n with
  | O => mret tt
  | S n =>
      pid ← sysv U_fork;
      if pid <? 0 then printf failed []
      else if pid =? 0 then mret tt
      else fork_workers n failed
  end.

(** [while((w = wait(0)) > 0) printf(fmt, w)] *)
Definition collect (rounds : nat) (fmt : list Z) : prog unit :=
  uloop rounds (λ _ : unit,
    w ← sysv U_wait;
    if 0 <? w then printf fmt [VInt w];; mret (inl tt) else mret (inr tt)) tt.

(** ** user/cpubound.c *)
Module Cpubound.
(** [for(i = 0; i < this_chunk; i++) acc += (done + i)], [n] rounds from [i]. *)
Fixpoint burst (n : nat) (i done acc : Z) : Z :=
  match n with
  | O => acc
  | S n => burst n (i32 (i + 1)) done (i32 (acc + i32 (done + i)))
  end.

Record work := Work { w_acc : Z; w_done : Z; w_chunk : Z }.

(** One round of the loop over the chunks. *)
Definition chunk_round (mypid local_iters chunk_iters chunks sleep_ticks : Z) (w : work) : prog (work + work) :=
  if negb (w_done w <? local_iters) then mret (inr w) else
  let this_chunk := if local_iters - w_done w <? chunk_iters then local_iters - w_done w else chunk_iters in
  let acc := burst (Z.to_nat this_chunk) 0 (w_done w) (w_acc w) in
  let done := i32 (w_done w + this_chunk) in
  let chunk := i32 (w_chunk w + 1) in
  uwhen ((0 <? sleep_ticks) && (1 <? chunks) && (done <? local_iters))
    (printf (str "cpubound(pid=%d): chunk %d/%d done, pausing %d ticks" ++ [10])
       [VInt mypid; VInt chunk; VInt chunks; VInt sleep_ticks];;
     sysv (U_pause sleep_ticks);; mret tt);;
  mret (inl (Work acc done chunk)).

Definition main (rounds : nat) (argv : list (list Z)) : prog unit :=
  let total_iters := arg_or argv 1 100000000 in
  let workers := clamp_workers (arg_or argv 2 4) in
  let chunks := arg_or argv 3 1 in
  let sleep_ticks := arg_or argv 4 0 in
  let chunks := if chunks <? 1 then 1 else chunks in
  let local_iters := share total_iters workers in
  let chunk_iters := share local_iters chunks in
  parent_pid ← sysv U_getpid;
  printf (str "cpubound: parent pid=%d, workers=%d, total_iters=%d, " ++
          str "per_worker=%d, chunks=%d, chunk_iters=%d, sleep=%d" ++ [10])
    [VInt parent_pid; VInt workers; VInt total_iters; VInt local_iters; VInt chunks; VInt chunk_iters; VInt sleep_ticks];;
  fork_workers (Z.to_nat (workers - 1)) (str "cpubound: fork failed" ++ [10]);;
  mypid ← sysv U_getpid;
  printf (str "cpubound(pid=%d): starting CPU-intensive work (iters=%d)" ++ [10]) [VInt mypid; VInt local_iters];;
  w ← uloop rounds (chunk_round mypid local_iters chunk_iters chunks sleep_ticks) (Work 0 0 0);
  printf (str "cpubound(pid=%d): finished (acc=%d)" ++ [10]) [VInt mypid; VInt (Z.land (w_acc w) 0x7fffffff)];;
  uwhen (mypid =? parent_pid)
    (collect rounds (str "cpubound: child %d exited" ++ [10]);;
     printf (str "cpubound(pid=%d): all children finished" ++ [10]) [VInt parent_pid]);;
  Exit 0.
End Cpubound.

(** ** user/iobound.c *)
Module Iobound.
(** [for(j = 0; j < 1000; j++) spin += (j ^ mypid)]: the sum is not used. *)
Fixpoint spin_loop (n : nat) (j mypid spin : Z) : Z :=
  match n with
  | O => spin
  | S n => spin_loop n (i32 (j + 1)) mypid (i32 (spin + Z.lxor j mypid))
  end.

(** The [i]-th operation. *)
Definition io_op (mypid local_iters sleep_ticks i : Z) : prog unit :=
  printf (str "iobound(pid=%d): I/O op %d/%d" ++ [10]) [VInt mypid; VInt (i32 (i + 1)); VInt local_iters];;
  uwhen (0 <? sleep_ticks) (sysv (U_pause sleep_ticks);; mret tt);;
  let spin := spin_loop 1000 0 mypid 0 in
  mret tt.

Definition main (rounds : nat) (argv : list (list Z)) : prog unit :=
  let total_iters := arg_or argv 1 1200 in
  let sleep_ticks := arg_or argv 2 10 in
  let workers := clamp_workers (arg_or argv 3 4) in
  let local_iters := share total_iters workers in
  parent_pid ← sysv U_getpid;
  printf (str "iobound: parent pid=%d, workers=%d, total_iters=%d, per_worker=%d, sleep=%d" ++ [10])
    [VInt parent_pid; VInt workers; VInt total_iters; VInt local_iters; VInt sleep_ticks];;
  fork_workers (Z.to_nat (workers - 1)) (str "iobound: fork failed" ++ [10]);;
  mypid ← sysv U_getpid;
  printf (str "iobound(pid=%d): starting I/O-heavy loop (iters=%d, sleep=%d ticks)" ++ [10])
    [VInt mypid; VInt local_iters; VInt sleep_ticks];;
  ufor (seq 0 (Z.to_nat local_iters)) (λ i, io_op mypid local_iters sleep_ticks (Z.of_nat i));;
  printf (str "iobound(pid=%d): finished" ++ [10]) [VInt mypid];;
  uwhen (mypid =? parent_pid)
    (collect rounds (str "iobound: child %d exited" ++ [10]);;
     printf (str "iobound(pid=%d): all children finished" ++ [10]) [VInt parent_pid]);;
  Exit 0.
End Iobound.

(** ** user/mixed.c *)
Module Mixed.
(** [for(j = 0; j < inner_loops; j++) x += (j ^ mypid)] *)
Definition burst := Iobound.spin_loop.

(** The loop over the iterations, which carries [x]. *)
Fixpoint mixed_loop (n : nat) (i iterations inner_loops sleep_ticks mypid x : Z) : prog Z :=
  match n with
  | O => mret x
  | S n =>
      let x := burst (Z.to_nat inner_loops) 0 mypid x in
      printf (str "mixed(pid=%d): iteration %d/%d complete" ++ [10]) [VInt mypid; VInt (i32 (i + 1)); VInt iterations];;
      uwhen (0 <? sleep_ticks) (sysv (U_pause sleep_ticks);; mret tt);;
      mixed_loop n (i32 (i + 1)) iterations inner_loops sleep_ticks mypid x
  end.

Definition main (rounds : nat) (argv : list (list Z)) : prog unit :=
  let iterations := arg_or argv 1 150 in
  let inner_loops := arg_or argv 2 50000 in
  let sleep_ticks := arg_or argv 3 20 in
  let workers := clamp_workers (arg_or argv 4 1) in
  parent_pid ← sysv U_getpid;
  printf (str "mixed: parent pid=%d, workers=%d, iterations=%d, inner_loops=%d, sleep=%d" ++ [10])
    [VInt parent_pid; VInt workers; VInt iterations; VInt inner_loops; VInt sleep_ticks];;
  fork_workers (Z.to_nat (workers - 1)) (str "mixed: fork failed" ++ [10]);;
  mypid ← sysv U_getpid;
  printf (str "mixed(pid=%d): starting (iters=%d, inner_loops=%d, sleep=%d ticks)" ++ [10])
    [VInt mypid; VInt iterations; VInt inner_loops; VInt sleep_ticks];;
  x ← mixed_loop (Z.to_nat iterations) 0 iterations inner_loops sleep_ticks mypid 0;
  printf (str "mixed(pid=%d): finished (final x=%d)" ++ [10]) [VInt mypid; VInt x];;
  uwhen (mypid =? parent_pid)
    (collect rounds (str "mixed: child %d exited" ++ [10]);;
     printf (str "mixed(pid=%d): all children finished" ++ [10]) [VInt parent_pid]);;
  Exit 0.
End Mixed.
