(* ===== verification/Grind.v ===== *)
(** * The stress programs: stressfs, logstress, forktest, dorphan, forphan and grind

    Programs that put the kernel under load, a Module each.  [rounds] bounds
    the loops that end only with the process. *)

From S2P Require Import Prelude User Ulib Init.

Definition O_CREATE : Z := 0x200.
Definition O_WRONLY : Z := 0x001.
Definition CREATE_RDWR : Z := Z.lor O_CREATE O_RDWR.

(** A call for its effect. *)
Definition run (c : ucall) : prog unit := sysv c;; mret tt.

(** A message and [exit(status)]. *)
Definition fail {A} (fd : Z) (fmt : list Z) (ap : list varg) (status : Z) : prog A :=
  fprintf fd fmt ap;; Exit status.

(** [for(;;) pause(1000)] *)
Definition sit (rounds : nat) : prog unit := uloop rounds (λ _ : unit, run (U_pause 1000);; mret (inl tt)) tt.

(** ** user/stressfs.c *)
Module Stressfs.
Definition data : list Z := replicate 512 (chr "a").

(** The [i] at which the fork loop stops: the first process that has a
    child, or 4. *)
Fixpoint fork_chain (n : nat) (i : Z) : prog Z :=
  match n with
  | O => mret i
  | S n => pid ← sysv U_fork; if 0 <? pid then mret i else fork_chain n (i + 1)
  end.

(** [path[8] += i] *)
Definition path (i : Z) : list Z := str "stressfs" ++ [i8 (chr "0" + i)].

Definition main : prog unit :=
  printf (str "stressfs starting" ++ [10]) [];;
  i ← fork_chain 4 0;
  printf (str "write %d" ++ [10]) [VInt i];;
  fd ← sysv (U_open (path i) CREATE_RDWR);
  ufor (seq 0 20) (λ _, run (U_write fd data));;
  run (U_close fd);;
  printf (str "read" ++ [10]) [];;
  fd ← sysv (U_open (path i) 0);
  ufor (seq 0 20) (λ _, run (U_read fd 512));;
  run (U_close fd);;
  run U_wait;;
  Exit 0.
End Stressfs.

(** ** user/logstress.c *)
Module Logstress.
Definition BUFSZ : Z := 500.
Definition N : nat := 250.
Definition SZ : Z := 2000.

(** A child: [buf] is the global array of [BUFSZ] bytes. *)
Definition child (name arg : list Z) (i : Z) (buf : list Z) : prog unit :=
  fd ← sysv (U_open arg CREATE_RDWR);
  if fd <? 0 then fail 1 (str "%s: create %s failed" ++ [10]) [VStr (Some name); VStr (Some arg)] 1 else
  buf ← memset buf (i32 (chr "0" + i)) SZ;
  ufor (seq 0 N) (λ _,
    n ← sysv (U_write fd (take (Z.to_nat SZ) buf));
    if negb (n =? SZ) then fail 1 (str "write failed %d" ++ [10]) [VInt n] 1 else mret tt);;
  Exit 0.

Fixpoint children (name : list Z) (args : list (list Z)) (i : Z) (buf : list Z) : prog unit :=
  match args with
  | [] => mret tt
  | a :: args =>
      pid1 ← sysv U_fork;
      if pid1 <? 0 then fail 1 (str "%s: fork failed" ++ [10]) [VStr (Some name)] 1 else
      if pid1 =? 0 then child name a i buf else
      children name args (i + 1) buf
  end.

(** [wait(&xstatus)], which stores nothing when there is no child;
    [xstatus] starts without a value. *)
Fixpoint wait_all (n : nat) (xstatus : option Z) : prog unit :=
  match n with
  | O => mret tt
  | S n =>
      r ← sys U_wait;
      let xstatus := if r_val r <? 0 then xstatus else Some (i32 (le_val (r_buf r))) in
      match xstatus with
      | None => Wild
      | Some x => if negb (x =? 0) then Exit x else wait_all n (Some x)
      end
  end.

Definition main (argv : list (list Z)) : prog Z :=
  children (default [] (head argv)) (tail argv) 1 (replicate (Z.to_nat BUFSZ) 0);;
  wait_all (length (tail argv)) None;;
  mret 0.
End Logstress.

(** ** user/forktest.c *)
Module Forktest.
Definition N : nat := 1000.

Definition print (s : list Z) : prog unit := run (U_write 1 (take (strlen_nat s) s)).

(** [for(n = 0; n < N; n++)]: the children that were created. *)
Fixpoint fork_loop (k : nat) (n : nat) : prog nat :=
  match k with
  | O => mret n
  | S k =>
      pid ← sysv U_fork;
      if pid <? 0 then mret n
      else if pid =? 0 then Exit 0
      else fork_loop k (S n)
  end.

Fixpoint wait_loop (n : nat) : prog unit :=
  match n with
  | O => mret tt
  | S n =>
      r ← sysv U_wait;
      if r <? 0 then print (str "wait stopped early" ++ [10]);; Exit 1 else wait_loop n
  end.

Definition forktest : prog unit :=
  print (str "fork test" ++ [10]);;
  n ← fork_loop N 0;
  if (n =? N)%nat then print (str "fork claimed to work N times!" ++ [10]);; Exit 1 else
  wait_loop n;;
  r ← sysv U_wait;
  if negb (r =? -1) then print (str "wait got too many" ++ [10]);; Exit 1 else
  print (str "fork test OK" ++ [10]).

Definition main : prog unit := forktest;; Exit 0.
End Forktest.

(** ** user/dorphan.c *)
Module Dorphan.
Definition main (rounds : nat) (argv : list (list Z)) : prog unit :=
  let s := VStr (head argv) in
  r ← sysv (U_mkdir (str "dd"));
  if negb (r =? 0) then fail 1 (str "%s: mkdir dd failed" ++ [10]) [s] 1 else
  r ← sysv (U_chdir (str "dd"));
  if negb (r =? 0) then fail 1 (str "%s: chdir dd failed" ++ [10]) [s] 1 else
  r ← sysv (U_unlink (str "../dd"));
  if r <? 0 then fail 1 (str "%s: unlink failed" ++ [10]) [s] 1 else
  printf (str "wait for kill and reclaim" ++ [10]) [];;
  sit rounds.
End Dorphan.

(** ** user/forphan.c *)
Module Forphan.
Definition ff : list Z := str "file0".
Definition main (rounds : nat) (argv : list (list Z)) : prog unit :=
  let s := VStr (head argv) in
  fd ← sysv (U_open ff (Z.lor O_CREATE O_WRONLY));
  if fd <? 0 then fail 1 (str "%s: open failed" ++ [10]) [s] 1 else
  st ← sys (U_fstat fd);
  if r_val st <? 0 then fail 2 (str "%s: cannot stat %s" ++ [10]) [s; VStr (Some (str "ff"))] 1 else
  r ← sysv (U_unlink ff);
  if r <? 0 then fail 1 (str "%s: unlink failed" ++ [10]) [s] 1 else
  r ← sysv (U_open ff 0);
  if negb (r =? -1) then fail 1 (str "%s: open successed" ++ [10]) [s] 1 else
  printf (str "wait for kill and reclaim %d" ++ [10]) [VInt (le_val (slice 4 4 (r_buf st)))];;
  sit rounds.
End Forphan.

(** ** user/grind.c *)
Module Grind.
(** The generator of Park and Miller: the new state, which is also the number
    returned. *)
Definition do_rand (ctx : Z) : Z :=
  let x := i64 (u64 ctx mod 0x7ffffffe + 1) in
  let hi := Z.quot x 127773 in
  let lo := Z.rem x 127773 in
  let x := i64 (16807 * lo - 2836 * hi) in
  let x := if x <? 0 then i64 (x + 0x7fffffff) else x in
  i64 (x - 1).

(** [rand()]: the number, an [int], and the next state. *)
Definition rand (rand_next : Z) : Z * Z := let x := do_rand rand_next in (i32 x, u64 x).

(** [close(open(path, O_CREATE|O_RDWR))] *)
Definition touch (path : list Z) : prog unit := fd ← sysv (U_open path CREATE_RDWR); run (U_close fd).

Definition chdir_or_fail (path msg : list Z) : prog unit :=
  r ← sysv (U_chdir path);
  if negb (r =? 0) then fail 1 msg [] 1 else mret tt.

(** [pid = fork()] with the child's code; the parent goes on with the pid. *)
Definition fork_child (fd status : Z) (child : prog unit) : prog Z :=
  pid ← sysv U_fork;
  if pid =? 0 then child;; Exit 0
  else if pid <? 0 then fail fd (str "grind: fork failed" ++ [10]) [] status
  else mret pid.

Definition fork_and_wait (child : prog unit) : prog unit := fork_child 1 1 child;; run U_wait.

Definition pipe_or_fail (fd : Z) : prog (Z * Z) :=
  r ← sys U_pipe;
  if r_val r <? 0 then fail fd (str "grind: pipe failed" ++ [10]) [] 1 else mret (pipe_fds r).

Definition st_size (st : list Z) : Z := le_val (slice 16 8 st).
Definition st_ino (st : list Z) : Z := le_val (slice 4 4 st).

(** The state of [go]: the descriptor, [buf] and the seed. *)
Record gst := Gst { g_fd : Z; g_buf : list Z; g_seed : Z }.

Definition act_pipe : prog unit :=
  fds ← pipe_or_fail 1;
  fork_child 1 1
    (run U_fork;; run U_fork;;
     r ← sysv (U_write (snd fds) (str "x"));
     uwhen (negb (r =? 1)) (printf (str "grind: pipe write failed" ++ [10]) []);;
     r ← sysv (U_read (fst fds) 1);
     uwhen (negb (r =? 1)) (printf (str "grind: pipe read failed" ++ [10]) []));;
  run (U_close (fst fds));; run (U_close (snd fds));; run U_wait.

Definition act_file : prog unit :=
  run (U_unlink (str "c"));;
  fd1 ← sysv (U_open (str "c") CREATE_RDWR);
  if fd1 <? 0 then fail 1 (str "grind: create c failed" ++ [10]) [] 1 else
  r ← sysv (U_write fd1 (str "x"));
  if negb (r =? 1) then fail 1 (str "grind: write c failed" ++ [10]) [] 1 else
  st ← sys (U_fstat fd1);
  if negb (r_val st =? 0) then fail 1 (str "grind: fstat failed" ++ [10]) [] 1 else
  if negb (st_size (r_buf st) =? 1) then
    fail 1 (str "grind: fstat reports wrong size %d" ++ [10]) [VInt (i32 (st_size (r_buf st)))] 1 else
  if 200 <? st_ino (r_buf st) then
    fail 1 (str "grind: fstat reports crazy i-number %d" ++ [10]) [VInt (st_ino (r_buf st))] 1 else
  run (U_close fd1);;
  run (U_unlink (str "c")).

(** A side of the pipeline: the standard descriptor [fd] becomes [end_]. *)
Definition redirect (fd end_ status : Z) : prog unit :=
  run (U_close fd);;
  r ← sysv (U_dup end_);
  if negb (r =? fd) then fail 2 (str "grind: dup failed" ++ [10]) [] status else run (U_close end_).

(** [echo hi | cat], read back byte by byte. *)
Definition act_pipeline : prog unit :=
  aa ← pipe_or_fail 2;
  bb ← pipe_or_fail 2;
  pid1 ← sysv U_fork;
  if pid1 =? 0 then
    run (U_close (fst bb));; run (U_close (snd bb));; run (U_close (fst aa));;
    redirect 1 (snd aa) 1;;
    run (U_exec (str "grindir/../echo") [str "echo"; str "hi"]);;
    fail 2 (str "grind: echo: not found" ++ [10]) [] 2
  else if pid1 <? 0 then fail 2 (str "grind: fork failed" ++ [10]) [] 3 else
  pid2 ← sysv U_fork;
  if pid2 =? 0 then
    run (U_close (snd aa));; run (U_close (fst bb));;
    redirect 0 (fst aa) 4;;
    redirect 1 (snd bb) 5;;
    run (U_exec (str "/cat") [str "cat"]);;
    fail 2 (str "grind: cat: not found" ++ [10]) [] 6
  else if pid2 <? 0 then fail 2 (str "grind: fork failed" ++ [10]) [] 7 else
  run (U_close (fst aa));; run (U_close (snd aa));; run (U_close (snd bb));;
  b0 ← sys (U_read (fst bb) 1);
  b1 ← sys (U_read (fst bb) 1);
  b2 ← sys (U_read (fst bb) 1);
  run (U_close (fst bb));;
  s1 ← sys U_wait;
  s2 ← sys U_wait;
  (if (r_val s1 <? 0) || (r_val s2 <? 0) then Wild else
   let got r := if 0 <? r_val r then ch (r_buf r) 0 else 0 in
   let buf := [got b0; got b1; got b2; 0] in
   let st1 := i32 (le_val (r_buf s1)) in
   let st2 := i32 (le_val (r_buf s2)) in
   if negb (st1 =? 0) || negb (st2 =? 0) || negb (strcmp buf (str "hi" ++ [10]) =? 0) then
     fail 1 (str "grind: exec pipeline failed %d %d " ++ [34] ++ str "%s" ++ [34; 10]) [VInt st1; VInt st2; VStr (Some buf)] 1
   else mret tt).

(** The action [what]. *)
Definition act (break0 what : Z) (g : gst) : prog gst :=
  let then_ (p : prog unit) := p;; mret g in
  let reopen (path : list Z) :=
    run (U_close (g_fd g));; fd ← sysv (U_open path CREATE_RDWR); mret (Gst fd (g_buf g) (g_seed g)) in
  match what with
  | 1 => then_ (touch (str "grindir/../a"))
  | 2 => then_ (touch (str "grindir/../grindir/../b"))
  | 3 => then_ (run (U_unlink (str "grindir/../a")))
  | 4 => then_ (chdir_or_fail (str "grindir") (str "grind: chdir grindir failed" ++ [10]);;
                run (U_unlink (str "../b"));; run (U_chdir (str "/")))
  | 5 => reopen (str "/grindir/../a")
  | 6 => reopen (str "/./grindir/./../b")
  | 7 => then_ (run (U_write (g_fd g) (g_buf g)))
  | 8 => r ← sys (U_read (g_fd g) 999);
         mret (Gst (g_fd g) (if 0 <? r_val r then splice 0 (r_buf r) (g_buf g) else g_buf g) (g_seed g))
  | 9 => then_ (run (U_mkdir (str "grindir/../a"));; touch (str "a/../a/./a");; run (U_unlink (str "a/a")))
  | 10 => then_ (run (U_mkdir (str "/../b"));; touch (str "grindir/../b/b");; run (U_unlink (str "b/b")))
  | 11 => then_ (run (U_unlink (str "b"));; run (U_link (str "../grindir/./../a") (str "../b")))
  | 12 => then_ (run (U_unlink (str "../grindir/../a"));; run (U_link (str ".././b") (str "/grindir/../a")))
  | 13 => then_ (fork_and_wait (mret tt))
  | 14 => then_ (fork_and_wait (run U_fork;; run U_fork))
  | 15 => then_ (sbrk 6011;; mret tt)
  | 16 => then_ (b ← sbrk 0;
                 uwhen (u64 break0 <? u64 b) (b ← sbrk 0; sbrk (i32 (- (b - break0)));; mret tt))
  | 17 => then_ (pid ← fork_child 1 1 (touch (str "a"));
                 chdir_or_fail (str "../grindir/..") (str "grind: chdir failed" ++ [10]);;
                 run (U_kill pid);; run U_wait)
  | 18 => then_ (fork_and_wait (pid ← sysv U_getpid; run (U_kill pid)))
  | 19 => then_ act_pipe
  | 20 => then_ (fork_and_wait (run (U_unlink (str "a"));; run (U_mkdir (str "a"));; run (U_chdir (str "a"));;
                                run (U_unlink (str "../a"));; run (U_open (str "x") CREATE_RDWR);; run (U_unlink (str "x"))))
  | 21 => then_ act_file
  | 22 => then_ act_pipeline
  | _ => mret g
  end.

(** One round of the endless loop of [go]. *)
Definition go_round (which_child break0 : Z) (st : gst * Z) : prog (gst * Z + unit) :=
  let '(g, iters) := st in
  let iters := u64 (iters + 1) in
  uwhen (iters mod 500 =? 0) (run (U_write 1 (if truth which_child then str "B" else str "A")));;
  let '(x, seed) := rand (g_seed g) in
  g ← act break0 (Z.rem x 23) (Gst (g_fd g) (g_buf g) seed);
  mret (inl (g, iters)).

Definition go (rounds : nat) (which_child rand_next : Z) : prog unit :=
  break0 ← sbrk 0;
  run (U_mkdir (str "grindir"));;
  chdir_or_fail (str "grindir") (str "grind: chdir grindir failed" ++ [10]);;
  run (U_chdir (str "/"));;
  uloop rounds (go_round which_child break0) (Gst (-1) (replicate 999 0) rand_next, 0).

(** [iter]: two processes at random work, the second stopped when the first
    ends badly. *)
Definition iter (rounds : nat) (rand_next : Z) : prog unit :=
  let fork_failed : prog unit := fail 1 (str "grind: fork failed" ++ [10]) [] 1 in
  run (U_unlink (str "a"));;
  run (U_unlink (str "b"));;
  pid1 ← sysv U_fork;
  if pid1 <? 0 then fork_failed else
  if pid1 =? 0 then go rounds 0 (Z.lxor rand_next 31);; Exit 0 else
  pid2 ← sysv U_fork;
  if pid2 <? 0 then fork_failed else
  if pid2 =? 0 then go rounds 1 (Z.lxor rand_next 7177);; Exit 0 else
  r ← sys U_wait;
  let st1 := if r_val r <? 0 then -1 else i32 (le_val (r_buf r)) in
  uwhen (negb (st1 =? 0)) (run (U_kill pid1);; run (U_kill pid2));;
  run U_wait;;
  Exit 0.

Definition main (rounds : nat) : prog unit :=
  uloop rounds (λ rand_next,
    pid ← sysv U_fork;
    (if pid =? 0 then iter rounds rand_next;; Exit 0 else mret tt);;
    uwhen (0 <? pid) (run U_wait);;
    run (U_pause 20);;
    mret (inl (u64 (rand_next + 1)))) 1.
End Grind.
