(* ===== verification/StressSpec.v ===== *)
(** * Workloads and stress programs: what they compute

    The random numbers of grind, the loop of cpubound, the overrun in
    logstress, and forktest on a kernel with room for a number of processes. *)

From S2P Require Import Prelude User Ulib UlibSpec Init Workload Grind.

(** ** The generator of grind *)

Lemma i64_small x : - 2 ^ 63 ≤ x < 2 ^ 63 → i64 x = x.
Proof. intros Hx. unfold i64. rewrite Z.mod_small; lia. Qed.

(** [do_rand] without the widths. *)
Definition seed_step (x : Z) : Z :=
  let y := i64 (16807 * Z.rem (i64 x) 127773 - 2836 * Z.quot (i64 x) 127773) in
  i64 ((if y <? 0 then i64 (y + 0x7fffffff) else y) - 1).

Lemma schrage_nonzero hi lo : 0 ≤ hi → 0 ≤ lo < 127773 → 1 ≤ 127773 * hi + lo ≤ 2 ^ 31 - 2 → 16807 * lo ≠ 2836 * hi.
Proof.
  intros Hhi Hlo Hx E. assert (16807 | hi) as [k Hk].
  { apply (Z.gauss _ 2836); [exists lo; lia|done]. }
  assert (k = 0 ∨ 1 ≤ k) as [->|Hk1] by lia; lia.
Qed.

(** [do_rand] computes (7^5 * x mod (2^31 - 1)) - 1 on x between 1 and
    2^31 - 2, with 64-bit arithmetic that never wraps and an intermediate value
    below 2^31 in size, as its comment says; the result is between 0 and 2^31 - 3,
    so it is the [int] that [rand] returns. *)
Theorem do_rand_park_miller ctx :
  let x := u64 ctx mod (2 ^ 31 - 2) + 1 in
  Grind.do_rand ctx = (7 ^ 5 * x) mod (2 ^ 31 - 1) - 1 ∧
  - 2 ^ 31 < 16807 * (x mod 127773) - 2836 * (x / 127773) < 2 ^ 31 ∧
  0 ≤ Grind.do_rand ctx ≤ 2 ^ 31 - 3 ∧ fst (Grind.rand ctx) = Grind.do_rand ctx.
Proof.
  intros x. assert (Grind.do_rand ctx = seed_step x) as Hd.
  { unfold Grind.do_rand, seed_step. change 0x7ffffffe with (2 ^ 31 - 2). fold x. done. }
  rewrite Hd.
  assert (1 ≤ x ≤ 2 ^ 31 - 2) as Hx.
  { unfold x. pose proof (Z.mod_pos_bound (u64 ctx) (2 ^ 31 - 2)). lia. }
  clearbody x. pose proof (Z.div_mod x 127773 ltac:(done)) as Hdm.
  pose proof (Z.mod_pos_bound x 127773 ltac:(done)) as Hlo.
  assert (0 ≤ x / 127773 ≤ 16807) as Hhi.
  { split; [apply Z.div_pos; lia|]. apply Z.lt_succ_r, Z.div_lt_upper_bound; lia. }
  set (hi := x / 127773) in *. set (lo := x mod 127773) in *.
  pose proof (schrage_nonzero hi lo ltac:(lia) Hlo ltac:(lia)) as Hnz.
  assert (seed_step x = (7 ^ 5 * x) mod (2 ^ 31 - 1) - 1 ∧ 0 ≤ seed_step x ≤ 2 ^ 31 - 3) as [Hstep Hrange].
  { unfold seed_step. rewrite (i64_small x) by lia.
    rewrite Z.rem_mod_nonneg, Z.quot_div_nonneg by lia. fold hi lo.
    rewrite (i64_small (16807 * lo - 2836 * hi)) by lia.
    destruct (Z.ltb_spec (16807 * lo - 2836 * hi) 0).
    - rewrite (i64_small (_ + _)), (i64_small (_ - 1)) by lia. split; [|lia]. f_equal.
      apply (Z.mod_unique _ _ (hi - 1)); lia.
    - rewrite (i64_small (_ - 1)) by lia. split; [|lia]. f_equal. apply (Z.mod_unique _ _ hi); lia. }
  split; [done|]. split; [lia|]. split; [done|]. unfold Grind.rand.
  rewrite Hd. cbn [fst]. rewrite i32_small; lia.
Qed.

(** ** The loop of cpubound *)

Section cpubound.
Import Cpubound.

Lemma burst_app n m i d acc :
  0 ≤ i → i + Z.of_nat n < 2 ^ 31 →
  burst (n + m) i d acc = burst m (i + Z.of_nat n) d (burst n i d acc).
Proof.
  revert i acc. induction n as [|n IH]; intros i acc Hi Hn; simpl; [by rewrite Z.add_0_r|].
  rewrite (i32_small (i + 1)) by lia. rewrite IH by lia. f_equal. lia.
Qed.

(** Only the sum of the index and the offset counts. *)
Lemma burst_shift n i d acc :
  0 ≤ i → i + Z.of_nat n < 2 ^ 31 → burst n i d acc = burst n 0 (d + i) acc.
Proof.
  assert (∀ j, 0 ≤ i → 0 ≤ j → i + j + Z.of_nat n < 2 ^ 31 → ∀ acc, burst n (i + j) d acc = burst n j (d + i) acc) as H.
  { clear acc. induction n as [|n IH]; intros j Hi Hj Hn acc; [done|]. simpl.
    rewrite (i32_small (i + j + 1)), (i32_small (j + 1)) by lia. replace (i + j + 1) with (i + (j + 1)) by lia. rewrite IH by lia.
    do 2 f_equal. f_equal. f_equal. lia. }
  intros Hi Hn. specialize (H 0). rewrite Z.add_0_r in H. apply H; lia.
Qed.

Lemma burst_split n m acc :
  Z.of_nat (n + m) < 2 ^ 31 → burst (n + m) 0 0 acc = burst m 0 (Z.of_nat n) (burst n 0 0 acc).
Proof. intros Hn. rewrite burst_app, burst_shift by lia. f_equal. Qed.

Lemma chunk_loop_ends mypid local ci chunks sleep rounds w :
  1 ≤ ci → 0 ≤ w_done w ≤ local → local < 2 ^ 31 → local - w_done w ≤ ci * (Z.of_nat rounds - 1) →
  w_acc w = burst (Z.to_nat (w_done w)) 0 0 0 →
  always (λ w', w_done w' = local ∧ w_acc w' = burst (Z.to_nat local) 0 0 0)
    (uloop rounds (chunk_round mypid local ci chunks sleep) w).
Proof.
  revert w. induction rounds as [|rounds IH]; intros w Hci Hd Hl Hr Hacc; [lia|].
  apply always_loop. unfold chunk_round. destruct (Z.ltb_spec (w_done w) local) as [Hlt|Hge]; cbn [negb].
  2: { replace local with (w_done w) by lia. by split. }
  set (t := if _ <? ci then _ else _).
  assert (1 ≤ t ≤ local - w_done w ∧ (t = ci ∨ t = local - w_done w)) as [Ht Ht'].
  { unfold t. destruct (Z.ltb_spec (local - w_done w) ci); lia. }
  clearbody t. cbv zeta. rewrite i32_small by lia.
  assert (local - (w_done w + t) ≤ ci * (Z.of_nat rounds - 1)) as Hr'.
  { rewrite Nat2Z.inj_succ in Hr. assert (1 ≤ Z.of_nat rounds) by (destruct rounds; lia).
    replace (ci * (Z.succ (Z.of_nat rounds) - 1)) with (ci * (Z.of_nat rounds - 1) + ci) in Hr by ring.
    destruct Ht' as [->| ->]; [lia|]. assert (0 ≤ ci * (Z.of_nat rounds - 1)) by (apply Z.mul_nonneg_nonneg; lia). lia. }
  eapply always_bind.
  { apply always_uwhen. eapply always_bind; [by apply always_printf|]. intros _ _.
    eapply always_bind; [apply always_sysv|done]. }
  intros _ _. cbn [always mret prog_ret]. apply IH; cbn [w_done w_acc]; [done|lia|done|done|].
  rewrite Z2Nat.inj_add, burst_split, Z2Nat.id, Hacc by lia. done.
Qed.

(** However cpubound splits the iterations of a worker into chunks, and
    whether or not it pauses between them, the loop ends with every iteration done
    once and the sum of one unbroken run. *)
Theorem cpubound_chunks {S} (env : ucall → S → resp * S) mypid local chunks sleep rounds st :
  1 ≤ local < 2 ^ 31 → local ≤ share local chunks * (Z.of_nat rounds - 1) →
  ∃ w st', exec_user env (uloop rounds (chunk_round mypid local (share local chunks) chunks sleep) (Work 0 0 0)) st = (O_done w, st') ∧
    w_done w = local ∧ w_acc w = burst (Z.to_nat local) 0 0 0.
Proof.
  intros Hl Hr. eapply always_exec, chunk_loop_ends; cbn [w_done w_acc]; [|lia..|done].
  unfold share. cbv zeta. destruct (Z.ltb_spec (Z.quot local chunks) 1); lia.
Qed.

Lemma cpubound_chunks_witness :
  ∃ w st', exec_user (λ _ (n : nat), (Resp 0 [], Datatypes.S n)) (uloop 6 (chunk_round 3 10 (share 10 4) 4 2) (Work 0 0 0)) 0%nat = (O_done w, st') ∧
    w_acc w = 45.
Proof.
  destruct (cpubound_chunks (λ _ (n : nat), (Resp 0 [], Datatypes.S n)) 3 10 4 2 6 0%nat) as (w & st' & He & _ & Ha).
  - lia.
  - vm_compute. done.
  - exists w, st'. split; [exact He|]. rewrite Ha. vm_compute. reflexivity.
Defined.
End cpubound.

(** ** logstress *)

(** Every child of logstress that opens its file writes outside its
    buffer: [memset] clears SZ = 2000 bytes of an array of BUFSZ = 500. *)
Theorem logstress_overruns {S} (env : ucall → S → resp * S) name arg i st r st' :
  env (U_open arg CREATE_RDWR) st = (r, st') → 0 ≤ r_val r →
  exec_user env (Logstress.child name arg i (replicate (Z.to_nat Logstress.BUFSZ) 0)) st = (O_wild, st').
Proof.
  intros Ho Hr. unfold Logstress.child. set (buf := replicate _ 0).
  assert (∀ c, memset buf c Logstress.SZ = Wild) as Hw by (intros c; reflexivity).
  rewrite Hw. clearbody buf. simpl. rewrite Ho. by destruct (Z.ltb_spec (r_val r) 0); [lia|].
Qed.

Lemma logstress_overruns_witness :
  exec_user (λ _ (n : nat), (Resp 3 [], Datatypes.S n)) (Logstress.child (str "logstress") (str "f1") 1 (replicate (Z.to_nat Logstress.BUFSZ) 0)) 0%nat = (O_wild, 1%nat).
Proof. apply (logstress_overruns _ _ _ _ _ (Resp 3 []) _); [reflexivity|simpl; lia]. Defined.

(** ** forktest *)

(** A kernel with room for [limit] more processes; the state is the number of
    children. *)
Definition fork_env (limit : nat) (c : ucall) (n : nat) : resp * nat :=
  match c with
  | U_fork => if (n <? limit)%nat then (Resp (Z.of_nat n + 1) [], Datatypes.S n) else (Resp (-1) [], n)
  | U_wait => match n with O => (Resp (-1) [], O) | Datatypes.S n => (Resp (Z.of_nat n + 1) [0; 0; 0; 0], n) end
  | _ => (Resp 0 [], n)
  end.

Lemma fork_loop_limit limit k n : (n ≤ limit)%nat →
  exec_user (fork_env limit) (Forktest.fork_loop k n) n = (O_done (Nat.min (n + k) limit), Nat.min (n + k) limit).
Proof.
  revert n. induction k as [|k IH]; intros n Hn.
  - simpl. rewrite Nat.add_0_r, Nat.min_l by lia. done.
  - cbn [Forktest.fork_loop]. unfold sysv, sys. simpl. destruct (Nat.ltb_spec n limit) as [Hlt|Hge]; simpl.
    + destruct (Z.ltb_spec (Z.of_nat n + 1) 0); [lia|]. destruct (Z.eqb_spec (Z.of_nat n + 1) 0); [lia|].
      rewrite IH by lia. by rewrite Nat.add_succ_r.
    + rewrite Nat.min_r by lia. by replace n with limit by lia.
Qed.

Lemma wait_loop_all limit n : exec_user (fork_env limit) (Forktest.wait_loop n) n = (O_done tt, O).
Proof.
  induction n as [|n IH]; [done|]. cbn [Forktest.wait_loop]. simpl.
  destruct (Z.ltb_spec (Z.of_nat n + 1) 0); [lia|]. apply IH.
Qed.

(** forktest on a kernel that can create [limit] processes exits with
    status 0 and no child left when [limit] is below 1000, and with status 1
    when [fork] never fails. *)
Theorem forktest_result limit :
  exec_user (fork_env limit) Forktest.main 0%nat =
  if (limit <? 1000)%nat then (O_exit 0, 0%nat) else (O_exit 1, 1000%nat).
Proof.
  assert (∀ A (f : unit → prog A) s n, exec_user (fork_env limit) (Forktest.print s ≫= f) n = exec_user (fork_env limit) (f tt) n) as Hp.
  { intros A f s n. by rewrite (exec_bind _ _ _ _ tt n). }
  unfold Forktest.main, Forktest.forktest.
  destruct (Nat.ltb_spec limit 1000) as [Hl|Hl].
  - rewrite (exec_bind _ _ _ _ tt 0%nat); [done|]. rewrite Hp.
    rewrite (exec_bind _ _ _ _ _ _ (fork_loop_limit limit _ 0 ltac:(lia))).
    replace (Nat.min (0 + Forktest.N) limit) with limit by (unfold Forktest.N; lia).
    destruct (Nat.eqb_spec limit Forktest.N); [unfold Forktest.N in *; lia|].
    rewrite (exec_bind _ _ _ _ _ _ (wait_loop_all limit limit)). done.
  - rewrite (exec_bind_exit _ _ _ _ 1 1000%nat); [done|]. rewrite Hp.
    rewrite (exec_bind _ _ _ _ _ _ (fork_loop_limit limit _ 0 ltac:(lia))).
    replace (Nat.min (0 + Forktest.N) limit) with Forktest.N by (unfold Forktest.N; lia).
    rewrite Nat.eqb_refl. by rewrite Hp.
Qed.
