(* ===== verification/Usertests.v ===== *)
(** * The test suite: user/usertests.c

    The tests that exercise files, directories, pipes and processes, as programs
    over system calls, a definition per test with the name [s] it is run under,
    and the driver that runs a table of them.  [rounds] bounds the loops that only
    the answers of the kernel end.  Tests that are about addresses (wild pointers,
    the break, stack and lazy pages) have no counterpart here, since a system call
    receives the bytes of its buffer; they are among the driver's tests as
    parameters. *)

From S2P Require Import Prelude Riscv FsDefs User Ulib Init Grind.

(** The global array [buf], cleared, as each test finds it. *)
Definition BUFSZ : Z := (MAXOPBLOCKS + 2) * BSIZE.
Definition buf0 : list Z := replicate (Z.to_nat BUFSZ) 0.

(** ** What the tests share *)

(** [if(bad) { printf("%s: ...", s, ...); exit(1); }] *)
Definition oops {A} (fmt : list Z) (ap : list varg) : prog A := printf fmt ap;; Exit 1.
Definition check (bad : bool) (fmt : list Z) (ap : list varg) : prog unit := if bad then oops fmt ap else mret tt.
Definition must_not (bad : bool) (s msg : list Z) (ap : list varg) : prog unit :=
  check bad (str "%s: " ++ msg) (VStr (Some s) :: ap).
Definition line (msg : string) : list Z := str msg ++ [10].

(** A call that fails the test when its answer is negative, is not, is not
    zero, or is zero. *)
Definition no_error (c : ucall) (s msg : list Z) : prog Z := r ← sysv c; must_not (r <? 0) s msg [];; mret r.
Definition an_error (c : ucall) (s msg : list Z) : prog unit := r ← sysv c; must_not (0 <=? r) s msg [].
Definition zero (c : ucall) (s msg : list Z) : prog unit := r ← sysv c; must_not (negb (r =? 0)) s msg [].
Definition not_zero (c : ucall) (s msg : list Z) : prog unit := r ← sysv c; must_not (r =? 0) s msg [].

(** [read] into an array: its answer and the array after it. *)
Definition read_into (fd n : Z) (a : list Z) : prog (Z * list Z) :=
  r ← sys (U_read fd n);
  mret (r_val r, if 0 <? r_val r then splice 0 (r_buf r) a else a).

(** [wait(&xstatus)]: the pid, and [xstatus] afterwards; a failing [wait]
    leaves it, and without a value it cannot be used. *)
Definition wait_into (x : option Z) : prog (Z * option Z) :=
  r ← sys U_wait;
  mret (r_val r, if r_val r <? 0 then x else Some (i32 (le_val (r_buf r)))).
Definition value (x : option Z) : prog Z := match x with Some v => mret v | None => Wild end.
Definition wait_status : prog Z := '(_, x) ← wait_into None; value x.

(** [if(fork() == 0) { child; exit(0); }]; a failing fork ends the test with
    the message. *)
Definition fork_or (msg : list Z) (ap : list varg) : prog Z := pid ← sysv U_fork; check (pid <? 0) msg ap;; mret pid.
Definition with_child (s msg : list Z) (child : prog unit) : prog Z :=
  pid ← fork_or (str "%s: " ++ msg) [VStr (Some s)];
  if pid =? 0 then child;; Exit 0 else mret pid.

(** A loop over a list with a state. *)
Fixpoint ufold {A X} (l : list A) (body : A → X → prog X) (x : X) : prog X :=
  match l with
  | [] => mret x
  | a :: l => x ← body a x; ufold l body x
  end.

Definition forever (rounds : nat) (body : prog unit) : prog unit := uloop rounds (λ _ : unit, body;; mret (inl tt)) tt.

(** [for(i = 0; i < n; i++)] *)
Definition up_to (n : Z) : list Z := Z.of_nat <$> seq 0 (Z.to_nat n).

(** ** Truncation and reference counts *)

Definition copyinstr2 : prog unit :=
  let b := replicate MAXPATH (chr "x") in
  ret ← sysv (U_unlink b);
  check (negb (ret =? -1)) (line "unlink(%s) returned %d, not -1") [VStr (Some b); VInt ret];;
  fd ← sysv (U_open b (Z.lor O_CREATE O_WRONLY));
  check (negb (fd =? -1)) (line "open(%s) returned %d, not -1") [VStr (Some b); VInt fd];;
  ret ← sysv (U_link b b);
  check (negb (ret =? -1)) (line "link(%s, %s) returned %d, not -1") [VStr (Some b); VStr (Some b); VInt ret];;
  ret ← sysv (U_exec b [str "xx"]);
  check (negb (ret =? -1)) (line "exec(%s) returned %d, not -1") [VStr (Some b); VInt fd];;
  pid ← fork_or (line "fork failed") [];
  (if pid =? 0 then
     let big := replicate (Z.to_nat PGSIZE) (chr "x") in
     ret ← sysv (U_exec (str "echo") [big; big; big]);
     check (negb (ret =? -1)) (line "exec(echo, BIG) returned %d, not -1") [VInt fd];;
     Exit 747
   else mret tt);;
  '(_, x) ← wait_into (Some 0);
  st ← value x;
  check (negb (st =? 747)) (line "exec(echo, BIG) succeeded, should have failed") [].

(** A read of at most 32 bytes that has to deliver [want]. *)
Definition expect_bytes (fd want : Z) (s msg : list Z) (pre : prog unit) : prog unit :=
  n ← sysv (U_read fd 32);
  (if negb (n =? want) then pre else mret tt);;
  must_not (negb (n =? want)) s msg [VInt n].

Definition truncate1 (s : list Z) : prog unit :=
  let f := str "truncfile" in
  run (U_unlink f);;
  fd1 ← sysv (U_open f (Z.lor (Z.lor O_CREATE O_WRONLY) O_TRUNC));
  run (U_write fd1 (str "abcd"));;
  run (U_close fd1);;
  fd2 ← sysv (U_open f O_RDONLY);
  expect_bytes fd2 4 s (line "read %d bytes, wanted 4") (mret tt);;
  fd1 ← sysv (U_open f (Z.lor O_WRONLY O_TRUNC));
  fd3 ← sysv (U_open f O_RDONLY);
  expect_bytes fd3 0 s (line "read %d bytes, wanted 0") (printf (line "aaa fd3=%d") [VInt fd3]);;
  expect_bytes fd2 0 s (line "read %d bytes, wanted 0") (printf (line "bbb fd2=%d") [VInt fd2]);;
  run (U_write fd1 (str "abcdef"));;
  expect_bytes fd3 6 s (line "read %d bytes, wanted 6") (mret tt);;
  expect_bytes fd2 2 s (line "read %d bytes, wanted 2") (mret tt);;
  run (U_unlink f);;
  run (U_close fd1);; run (U_close fd2);; run (U_close fd3).

Definition truncate2 (s : list Z) : prog unit :=
  let f := str "truncfile" in
  run (U_unlink f);;
  fd1 ← sysv (U_open f (Z.lor (Z.lor O_CREATE O_TRUNC) O_WRONLY));
  run (U_write fd1 (str "abcd"));;
  fd2 ← sysv (U_open f (Z.lor O_TRUNC O_WRONLY));
  n ← sysv (U_write fd1 (str "x"));
  must_not (negb (n =? -1)) s (line "write returned %d, expected -1") [VInt n];;
  run (U_unlink f);;
  run (U_close fd1);; run (U_close fd2).

Definition truncate3 (s : list Z) : prog unit :=
  let f := str "truncfile" in
  fd ← sysv (U_open f (Z.lor (Z.lor O_CREATE O_TRUNC) O_WRONLY)); run (U_close fd);;
  with_child s (line "fork failed")
    (ufor (seq 0 100) (λ _,
       fd ← no_error (U_open f O_WRONLY) s (line "open failed");
       n ← sysv (U_write fd (str "1234567890"));
       must_not (negb (n =? 10)) s (line "write got %d, expected 10") [VInt n];;
       run (U_close fd);;
       fd ← sysv (U_open f O_RDONLY);
       run (U_read fd 32);;
       run (U_close fd)));;
  ufor (seq 0 150) (λ _,
    fd ← no_error (U_open f (Z.lor (Z.lor O_CREATE O_WRONLY) O_TRUNC)) s (line "open failed");
    n ← sysv (U_write fd (str "xxx"));
    must_not (negb (n =? 3)) s (line "write got %d, expected 3") [VInt n];;
    run (U_close fd));;
  '(_, x) ← wait_into None;
  run (U_unlink f);;
  xstatus ← value x;
  Exit xstatus.

Definition iputtest (s : list Z) : prog unit :=
  no_error (U_mkdir (str "iputdir")) s (line "mkdir failed");;
  no_error (U_chdir (str "iputdir")) s (line "chdir iputdir failed");;
  no_error (U_unlink (str "../iputdir")) s (line "unlink ../iputdir failed");;
  no_error (U_chdir (str "/")) s (line "chdir / failed");;
  mret tt.

Definition exitiputtest (s : list Z) : prog unit :=
  with_child s (line "fork failed")
    (no_error (U_mkdir (str "iputdir")) s (line "mkdir failed");;
     no_error (U_chdir (str "iputdir")) s (line "child chdir failed");;
     no_error (U_unlink (str "../iputdir")) s (line "unlink ../iputdir failed");; mret tt);;
  xstatus ← wait_status;
  Exit xstatus.

Definition openiputtest (s : list Z) : prog unit :=
  no_error (U_mkdir (str "oidir")) s (line "mkdir oidir failed");;
  with_child s (line "fork failed")
    (an_error (U_open (str "oidir") O_RDWR) s (line "open directory for write succeeded"));;
  run (U_pause 1);;
  zero (U_unlink (str "oidir")) s (line "unlink failed");;
  xstatus ← wait_status;
  Exit xstatus.

(** ** Simple files *)

Definition opentest (s : list Z) : prog unit :=
  fd ← no_error (U_open (str "echo") 0) s (line "open echo failed!");
  run (U_close fd);;
  an_error (U_open (str "doesnotexist") 0) s (line "open doesnotexist succeeded!").

Definition writetest (s : list Z) : prog unit :=
  let small := str "small" in
  fd ← no_error (U_open small CREATE_RDWR) s (line "error: creat small failed!");
  ufor (up_to 100) (λ i,
    r ← sysv (U_write fd (str "aaaaaaaaaa"));
    must_not (negb (r =? 10)) s (line "error: write aa %d new file failed") [VInt i];;
    r ← sysv (U_write fd (str "bbbbbbbbbb"));
    must_not (negb (r =? 10)) s (line "error: write bb %d new file failed") [VInt i]);;
  run (U_close fd);;
  fd ← no_error (U_open small O_RDONLY) s (line "error: open small failed!");
  i ← sysv (U_read fd (100 * 10 * 2));
  must_not (negb (i =? 100 * 10 * 2)) s (line "read failed") [];;
  run (U_close fd);;
  no_error (U_unlink small) s (line "unlink small failed");; mret tt.

(** The loop that reads the blocks back, [n] of them so far. *)
Definition writebig_round (s : list Z) (fd : Z) (st : list Z * Z) : prog (list Z * Z + unit) :=
  let '(a, n) := st in
  '(i, a) ← read_into fd BSIZE a;
  if i =? 0 then
    must_not (negb (n =? MAXFILE)) s (str "read only %d blocks from big") [VInt n];;
    mret (inr tt)
  else
    must_not (negb (i =? BSIZE)) s (line "read failed %d") [VInt i];;
    let v := i32 (rd_le 4 0 a) in
    must_not (negb (v =? n)) s (line "read content of block %d is %d") [VInt n; VInt v];;
    mret (inl (a, n + 1)).

Definition writebig (rounds : nat) (s : list Z) : prog unit :=
  let big := str "big" in
  fd ← no_error (U_open big CREATE_RDWR) s (line "error: creat big failed!");
  a ← ufold (up_to MAXFILE) (λ i a,
    let a := wr_le 4 0 i a in
    r ← sysv (U_write fd (take (Z.to_nat BSIZE) a));
    must_not (negb (r =? BSIZE)) s (line "error: write big file failed i=%d") [VInt i];;
    mret a) buf0;
  run (U_close fd);;
  fd ← no_error (U_open big O_RDONLY) s (line "error: open big failed!");
  uloop rounds (writebig_round s fd) (a, 0);;
  run (U_close fd);;
  no_error (U_unlink big) s (line "unlink big failed");; mret tt.

Definition createtest (s : list Z) : prog unit :=
  let name i := [chr "a"; u8 (chr "0" + i)] in
  ufor (up_to 52) (λ i, Grind.touch (name i));;
  ufor (up_to 52) (λ i, run (U_unlink (name i))).

Definition dirtest (s : list Z) : prog unit :=
  no_error (U_mkdir (str "dir0")) s (line "mkdir failed");;
  no_error (U_chdir (str "dir0")) s (line "chdir dir0 failed");;
  no_error (U_chdir (str "..")) s (line "chdir .. failed");;
  no_error (U_unlink (str "dir0")) s (line "unlink dir0 failed");; mret tt.

Definition exectest (s : list Z) : prog unit :=
  let f := str "echo-ok" in
  run (U_unlink f);;
  pid ← fork_or (line "%s: fork failed") [VStr (Some s)];
  (if pid =? 0 then
     run (U_close 1);;
     fd ← no_error (U_open f (Z.lor O_CREATE O_WRONLY)) s (line "create failed");
     must_not (negb (fd =? 1)) s (line "wrong fd") [];;
     no_error (U_exec (str "echo") [str "echo"; str "OK"]) s (line "exec echo failed");; mret tt
   else mret tt);;
  '(r, x) ← wait_into None;
  uwhen (negb (r =? pid)) (printf (line "%s: wait failed!") [VStr (Some s)]);;
  xstatus ← value x;
  (if negb (xstatus =? 0) then Exit xstatus else mret tt);;
  fd ← no_error (U_open f O_RDONLY) s (line "open failed");
  '(r, b) ← read_into fd 2 (replicate 3 0);
  must_not (negb (r =? 2)) s (line "read failed") [];;
  run (U_unlink f);;
  if (ch b 0 =? chr "O") && (ch b 1 =? chr "K") then Exit 0
  else must_not true s (line "wrong output") [].

(** ** Pipes and processes *)

(** [for(i = 0; i < SZ; i++) buf[i] = seq++] *)
Definition pipe1_data (seq0 : Z) : list Z := (λ i, u8 (seq0 + i)) <$> up_to 1033.

(** A round of the reader: the count so far, the size of the next read, and
    [None] when a byte is not the expected one. *)
Definition pipe1_round (s : list Z) (fd : Z) (st : list Z * Z * Z) : prog (list Z * Z * Z + option Z) :=
  let '(a, total, cc) := st in
  '(n, a) ← read_into fd cc a;
  if n <=? 0 then mret (inr (Some total)) else
  if forallb (λ i, ch a (Z.to_nat i) =? u8 (total + i)) (up_to n) then
    mret (inl (a, total + n, Z.min (cc * 2) BUFSZ))
  else printf (line "%s: pipe1 oops 2") [VStr (Some s)];; mret (inr None).

Definition pipe1 (rounds : nat) (s : list Z) : prog unit :=
  r ← sys U_pipe;
  must_not (negb (r_val r =? 0)) s (line "pipe() failed") [];;
  let fds := pipe_fds r in
  pid ← sysv U_fork;
  if pid =? 0 then
    run (U_close (fst fds));;
    ufor (up_to 5) (λ n,
      w ← sysv (U_write (snd fds) (pipe1_data (n * 1033)));
      must_not (negb (w =? 1033)) s (line "pipe1 oops 1") []);;
    Exit 0
  else if 0 <? pid then
    run (U_close (snd fds));;
    t ← uloop rounds (pipe1_round s (fst fds)) (buf0, 0, 1);
    match t with
    | None => mret tt
    | Some total =>
        must_not (negb (total =? 5 * 1033)) s (line "pipe1 oops 3 total %d") [VInt total];;
        run (U_close (fst fds));;
        xstatus ← wait_status;
        Exit xstatus
    end
  else must_not true s (line "fork() failed") [].

Definition killstatus (rounds : nat) (s : list Z) : prog unit :=
  ufold (seq 0 100) (λ _ x,
    pid1 ← with_child s (line "fork failed") (forever rounds (run U_getpid));
    run (U_pause 1);;
    run (U_kill pid1);;
    '(_, x) ← wait_into x;
    xst ← value x;
    must_not (negb (xst =? -1)) s (line "status should be -1") [];;
    mret x) None;;
  Exit 0.

(** [for(;;) ;] makes no calls. *)
Definition spin_here : prog unit := Tired.

Definition preempt (s : list Z) : prog unit :=
  pid1 ← with_child s (str "fork failed") spin_here;
  pid2 ← with_child s (line "fork failed") spin_here;
  r ← sys U_pipe;
  let pfds := pipe_fds r in
  pid3 ← with_child s (line "fork failed")
    (run (U_close (fst pfds));;
     w ← sysv (U_write (snd pfds) (str "x"));
     uwhen (negb (w =? 1)) (printf (str "%s: preempt write error") [VStr (Some s)]);;
     run (U_close (snd pfds));;
     spin_here);
  run (U_close (snd pfds));;
  n ← sysv (U_read (fst pfds) BUFSZ);
  if negb (n =? 1) then printf (str "%s: preempt read error") [VStr (Some s)] else
  run (U_close (fst pfds));;
  printf (str "kill... ") [];;
  run (U_kill pid1);; run (U_kill pid2);; run (U_kill pid3);;
  printf (str "wait... ") [];;
  run U_wait;; run U_wait;; run U_wait.

Definition exitwait (s : list Z) : prog unit :=
  ufor (up_to 100) (λ i,
    pid ← fork_or (line "%s: fork failed") [VStr (Some s)];
    if pid =? 0 then Exit i else
    '(r, x) ← wait_into None;
    must_not (negb (r =? pid)) s (line "wait wrong pid") [];;
    xstate ← value x;
    must_not (negb (i =? xstate)) s (line "wait wrong exit status") []).

Definition reparent (s : list Z) : prog unit :=
  master_pid ← sysv U_getpid;
  ufor (seq 0 200) (λ _,
    pid ← fork_or (line "%s: fork failed") [VStr (Some s)];
    if pid =? 0 then
      pid2 ← sysv U_fork;
      if pid2 <? 0 then run (U_kill master_pid);; Exit 1 else Exit 0
    else
      r ← sysv U_wait;
      must_not (negb (r =? pid)) s (line "wait wrong pid") []);;
  Exit 0.

Definition twochildren (s : list Z) : prog unit :=
  ufor (seq 0 1000) (λ _,
    with_child s (line "fork failed") (mret tt);;
    with_child s (line "fork failed") (mret tt);;
    run U_wait;; run U_wait).

(** [wait(&xstatus)] for each child, with [bad] for a status other than 0. *)
Definition reap (n : nat) (bad : Z → prog unit) : prog unit :=
  ufold (seq 0 n) (λ _ x,
    '(_, x) ← wait_into x;
    v ← value x;
    uwhen (negb (v =? 0)) (bad v);;
    mret x) None;;
  mret tt.

Definition forkfork (s : list Z) : prog unit :=
  ufor (seq 0 2) (λ _,
    with_child s (str "fork failed")
      (ufor (seq 0 200) (λ _,
         pid1 ← sysv U_fork;
         if pid1 <? 0 then Exit 1 else
         if pid1 =? 0 then Exit 0 else run U_wait));; mret tt);;
  reap 2 (λ _, oops (str "%s: fork in child failed") [VStr (Some s)]).

Definition forkforkfork (rounds : nat) (s : list Z) : prog unit :=
  let f := str "stopforking" in
  run (U_unlink f);;
  with_child s (str "fork failed")
    (forever rounds
       (fd ← sysv (U_open f 0);
        (if 0 <=? fd then Exit 0 else mret tt);;
        pid ← sysv U_fork;
        uwhen (pid <? 0) (Grind.touch f)));;
  run (U_pause 20);;
  Grind.touch f;;
  run U_wait;;
  run (U_pause 10).

Definition reparent2 : prog unit :=
  ufor (seq 0 800) (λ _,
    pid1 ← fork_or (line "fork failed") [];
    (if pid1 =? 0 then run U_fork;; run U_fork;; Exit 0 else mret tt);;
    run U_wait);;
  Exit 0.

(** ** Several processes and files *)

(** The loop that counts the bytes of both writers. *)
Definition sharedfd_round (fd : Z) (st : list Z * Z * Z) : prog (list Z * Z * Z + (Z * Z)) :=
  let '(b, nc, np) := st in
  '(n, b) ← read_into fd 10 b;
  if n <=? 0 then mret (inr (nc, np)) else
  let count c := Z.of_nat (length (filter (λ x, x = chr c) b)) in
  mret (inl (b, nc + count "c"%string, np + count "p"%string)).

Definition sharedfd (rounds : nat) (s : list Z) : prog unit :=
  let f := str "sharedfd" in
  run (U_unlink f);;
  fd ← no_error (U_open f CREATE_RDWR) s (str "cannot open sharedfd for writing");
  pid ← sysv U_fork;
  let b := replicate 10 (if pid =? 0 then chr "c" else chr "p") in
  ufor (seq 0 1000) (λ _,
    r ← sysv (U_write fd b);
    must_not (negb (r =? 10)) s (line "write sharedfd failed") []);;
  (if pid =? 0 then Exit 0 else
   xstatus ← wait_status;
   if negb (xstatus =? 0) then Exit xstatus else mret tt);;
  run (U_close fd);;
  fd ← no_error (U_open f 0) s (line "cannot open sharedfd for reading");
  '(nc, np) ← uloop rounds (sharedfd_round fd) (b, 0, 0);
  run (U_close fd);;
  run (U_unlink f);;
  if (nc =? 1000 * 10) && (np =? 1000 * 10) then Exit 0
  else must_not true s (line "nc/np test fails") [].

(** One of the four files is read back: the bytes so far. *)
Definition fourfiles_round (s : list Z) (fd c : Z) (st : list Z * Z) : prog (list Z * Z + (list Z * Z)) :=
  let '(a, total) := st in
  '(n, a) ← read_into fd BUFSZ a;
  if n <=? 0 then mret (inr (a, total)) else
  must_not (negb (forallb (Z.eqb c) (take (Z.to_nat n) a))) s (line "wrong char") [];;
  mret (inl (a, total + n)).

Definition fourfiles (rounds : nat) (s : list Z) : prog unit :=
  let name i := [chr "f"; chr "0" + i] in
  ufor (up_to 4) (λ pi,
    run (U_unlink (name pi));;
    with_child s (line "fork failed")
      (fd ← no_error (U_open (name pi) CREATE_RDWR) s (line "create failed");
       a ← memset buf0 (chr "0" + pi) 500;
       ufor (seq 0 12) (λ _,
         n ← sysv (U_write fd (take 500 a));
         check (negb (n =? 500)) (line "write failed %d") [VInt n]));; mret tt);;
  reap 4 (λ v, Exit v);;
  ufold (up_to 4) (λ i a,
    fd ← sysv (U_open (name i) 0);
    '(a, total) ← uloop rounds (fourfiles_round s fd (chr "0" + i)) (a, 0);
    run (U_close fd);;
    check (negb (total =? 12 * 500)) (line "wrong length %d") [VInt total];;
    run (U_unlink (name i));;
    mret a) buf0;;
  mret tt.

Definition createdelete (s : list Z) : prog unit :=
  let name pi i := [chr "p" + pi; chr "0" + i] in
  ufor (up_to 4) (λ pi,
    with_child s (line "fork failed")
      (ufor (up_to 20) (λ i,
         fd ← no_error (U_open (name pi i) CREATE_RDWR) s (line "create failed");
         run (U_close fd);;
         uwhen ((0 <? i) && (i mod 2 =? 0))
           (no_error (U_unlink (name pi (i / 2))) s (line "unlink failed");; mret tt)));; mret tt);;
  reap 4 (λ _, Exit 1);;
  ufor (up_to 20) (λ i, ufor (up_to 4) (λ pi,
    fd ← sysv (U_open (name pi i) 0);
    (if ((i =? 0) || (10 <=? i)) && (fd <? 0) then
       must_not true s (line "oops createdelete %s didn't exist") [VStr (Some (name pi i))]
     else must_not ((1 <=? i) && (i <? 10) && (0 <=? fd)) s (line "oops createdelete %s did exist") [VStr (Some (name pi i))]);;
    uwhen (0 <=? fd) (run (U_close fd))));;
  ufor (up_to 20) (λ i, ufor (up_to 4) (λ pi, run (U_unlink (name pi i)))).

Definition unlinkread (s : list Z) : prog unit :=
  let f := str "unlinkread" in
  fd ← no_error (U_open f CREATE_RDWR) s (line "create unlinkread failed");
  run (U_write fd (str "hello"));;
  run (U_close fd);;
  fd ← no_error (U_open f O_RDWR) s (line "open unlinkread failed");
  zero (U_unlink f) s (line "unlink unlinkread failed");;
  fd1 ← sysv (U_open f CREATE_RDWR);
  run (U_write fd1 (str "yyy"));;
  run (U_close fd1);;
  '(r, a) ← read_into fd BUFSZ buf0;
  must_not (negb (r =? 5)) s (str "unlinkread read failed") [];;
  must_not (negb (ch a 0 =? chr "h")) s (line "unlinkread wrong data") [];;
  w ← sysv (U_write fd (take 10 a));
  must_not (negb (w =? 10)) s (line "unlinkread write failed") [];;
  run (U_close fd);;
  run (U_unlink f).

Definition linktest (s : list Z) : prog unit :=
  let lf1 := str "lf1" in
  let lf2 := str "lf2" in
  run (U_unlink lf1);; run (U_unlink lf2);;
  fd ← no_error (U_open lf1 CREATE_RDWR) s (line "create lf1 failed");
  w ← sysv (U_write fd (str "hello"));
  must_not (negb (w =? 5)) s (line "write lf1 failed") [];;
  run (U_close fd);;
  no_error (U_link lf1 lf2) s (line "link lf1 lf2 failed");;
  run (U_unlink lf1);;
  an_error (U_open lf1 0) s (line "unlinked lf1 but it is still there!");;
  fd ← no_error (U_open lf2 0) s (line "open lf2 failed");
  r ← sysv (U_read fd BUFSZ);
  must_not (negb (r =? 5)) s (line "read lf2 failed") [];;
  run (U_close fd);;
  an_error (U_link lf2 lf2) s (line "link lf2 lf2 succeeded! oops");;
  run (U_unlink lf2);;
  an_error (U_link lf2 lf1) s (line "link non-existent succeeded! oops");;
  an_error (U_link (str ".") lf1) s (line "link . lf1 succeeded! oops").

(** A directory entry in the listing: the files found so far and their
    number.  The entry starts as zeroes. *)
Definition concreate_round (s : list Z) (fd : Z) (st : list Z * list Z * Z) : prog (list Z * list Z * Z + (list Z * Z)) :=
  let '(de, fa, n) := st in
  '(r, de) ← read_into fd 16 de;
  if r <=? 0 then mret (inr (fa, n)) else
  let name := drop 2 de in
  if (le_val (take 2 de) =? 0) || negb ((ch name 0 =? chr "C") && (ch name 2 =? 0)) then mret (inl (de, fa, n)) else
  let i := ch name 1 - chr "0" in
  must_not ((i <? 0) || (40 <=? i)) s (line "concreate weird file %s") [VStr (Some name)];;
  must_not (truth (ch fa (Z.to_nat i))) s (line "concreate duplicate file %s") [VStr (Some name)];;
  mret (inl (de, <[Z.to_nat i := 1]> fa, n + 1)).

Definition concreate (rounds : nat) (s : list Z) : prog unit :=
  let file i := [chr "C"; chr "0" + i] in
  let six (p : prog unit) := ufor (seq 0 6) (λ _, p) in
  ufor (up_to 40) (λ i,
    run (U_unlink (file i));;
    pid ← sysv U_fork;
    (if negb (pid =? 0) && (i mod 3 =? 1) then run (U_link (str "C0") (file i))
     else if (pid =? 0) && (i mod 5 =? 1) then run (U_link (str "C0") (file i))
     else
       fd ← sysv (U_open (file i) CREATE_RDWR);
       check (fd <? 0) (line "concreate create %s failed") [VStr (Some (file i))];;
       run (U_close fd));;
    if pid =? 0 then Exit 0 else
    xstatus ← wait_status;
    if negb (xstatus =? 0) then Exit 1 else mret tt);;
  fd ← sysv (U_open (str ".") 0);
  '(_, n) ← uloop rounds (concreate_round s fd) (replicate 16 0, replicate 40 0, 0);
  run (U_close fd);;
  must_not (negb (n =? 40)) s (line "concreate not enough files in directory listing") [];;
  ufor (up_to 40) (λ i,
    pid ← fork_or (line "%s: fork failed") [VStr (Some s)];
    (if ((i mod 3 =? 0) && (pid =? 0)) || ((i mod 3 =? 1) && negb (pid =? 0))
     then six (fd ← sysv (U_open (file i) 0); run (U_close fd))
     else six (run (U_unlink (file i))));;
    if pid =? 0 then Exit 0 else run U_wait).

Definition linkunlink (s : list Z) : prog unit :=
  let f := str "x" in
  run (U_unlink f);;
  pid ← fork_or (line "%s: fork failed") [VStr (Some s)];
  ufold (seq 0 100) (λ _ x,
    let x := u32 (x * 1103515245 + 12345) in
    (if x mod 3 =? 0 then Grind.touch f
     else if x mod 3 =? 1 then run (U_link (str "cat") f)
     else run (U_unlink f));;
    mret x) (if pid =? 0 then 97 else 1);;
  if pid =? 0 then Exit 0 else run U_wait.

(** ** Directories *)

Definition subdir (s : list Z) : prog unit :=
  run (U_unlink (str "ff"));;
  zero (U_mkdir (str "dd")) s (line "mkdir dd failed");;
  fd ← no_error (U_open (str "dd/ff") CREATE_RDWR) s (line "create dd/ff failed");
  run (U_write fd (str "ff"));;
  run (U_close fd);;
  an_error (U_unlink (str "dd")) s (line "unlink dd (non-empty dir) succeeded!");;
  zero (U_mkdir (str "/dd/dd")) s (line "subdir mkdir dd/dd failed");;
  fd ← no_error (U_open (str "dd/dd/ff") CREATE_RDWR) s (line "create dd/dd/ff failed");
  run (U_write fd (str "FF"));;
  run (U_close fd);;
  fd ← no_error (U_open (str "dd/dd/../ff") 0) s (line "open dd/dd/../ff failed");
  '(cc, a) ← read_into fd BUFSZ buf0;
  must_not (negb (cc =? 2) || negb (ch a 0 =? chr "f")) s (line "dd/dd/../ff wrong content") [];;
  run (U_close fd);;
  zero (U_link (str "dd/dd/ff") (str "dd/dd/ffff")) s (line "link dd/dd/ff dd/dd/ffff failed");;
  zero (U_unlink (str "dd/dd/ff")) s (line "unlink dd/dd/ff failed");;
  an_error (U_open (str "dd/dd/ff") O_RDONLY) s (line "open (unlinked) dd/dd/ff succeeded");;
  zero (U_chdir (str "dd")) s (line "chdir dd failed");;
  zero (U_chdir (str "dd/../../dd")) s (line "chdir dd/../../dd failed");;
  zero (U_chdir (str "dd/../../../dd")) s (line "chdir dd/../../../dd failed");;
  zero (U_chdir (str "./..")) s (line "chdir ./.. failed");;
  fd ← no_error (U_open (str "dd/dd/ffff") 0) s (line "open dd/dd/ffff failed");
  r ← sysv (U_read fd BUFSZ);
  must_not (negb (r =? 2)) s (line "read dd/dd/ffff wrong len") [];;
  run (U_close fd);;
  an_error (U_open (str "dd/dd/ff") O_RDONLY) s (line "open (unlinked) dd/dd/ff succeeded!");;
  an_error (U_open (str "dd/ff/ff") CREATE_RDWR) s (line "create dd/ff/ff succeeded!");;
  an_error (U_open (str "dd/xx/ff") CREATE_RDWR) s (line "create dd/xx/ff succeeded!");;
  an_error (U_open (str "dd") O_CREATE) s (line "create dd succeeded!");;
  an_error (U_open (str "dd") O_RDWR) s (line "open dd rdwr succeeded!");;
  an_error (U_open (str "dd") O_WRONLY) s (line "open dd wronly succeeded!");;
  not_zero (U_link (str "dd/ff/ff") (str "dd/dd/xx")) s (line "link dd/ff/ff dd/dd/xx succeeded!");;
  not_zero (U_link (str "dd/xx/ff") (str "dd/dd/xx")) s (line "link dd/xx/ff dd/dd/xx succeeded!");;
  not_zero (U_link (str "dd/ff") (str "dd/dd/ffff")) s (line "link dd/ff dd/dd/ffff succeeded!");;
  not_zero (U_mkdir (str "dd/ff/ff")) s (line "mkdir dd/ff/ff succeeded!");;
  not_zero (U_mkdir (str "dd/xx/ff")) s (line "mkdir dd/xx/ff succeeded!");;
  not_zero (U_mkdir (str "dd/dd/ffff")) s (line "mkdir dd/dd/ffff succeeded!");;
  not_zero (U_unlink (str "dd/xx/ff")) s (line "unlink dd/xx/ff succeeded!");;
  not_zero (U_unlink (str "dd/ff/ff")) s (line "unlink dd/ff/ff succeeded!");;
  not_zero (U_chdir (str "dd/ff")) s (line "chdir dd/ff succeeded!");;
  not_zero (U_chdir (str "dd/xx")) s (line "chdir dd/xx succeeded!");;
  zero (U_unlink (str "dd/dd/ffff")) s (line "unlink dd/dd/ff failed");;
  zero (U_unlink (str "dd/ff")) s (line "unlink dd/ff failed");;
  not_zero (U_unlink (str "dd")) s (line "unlink non-empty dd succeeded!");;
  no_error (U_unlink (str "dd/dd")) s (line "unlink dd/dd failed");;
  no_error (U_unlink (str "dd")) s (line "unlink dd failed");; mret tt.

(** [for(sz = 499; sz < (MAXOPBLOCKS+2)*BSIZE; sz += 471)] *)
Definition bigwrite_sizes : list Z := filter (λ sz, sz < BUFSZ) ((λ k, 499 + 471 * k) <$> up_to 100).

Definition bigwrite (s : list Z) : prog unit :=
  let f := str "bigwrite" in
  run (U_unlink f);;
  ufor bigwrite_sizes (λ sz,
    fd ← no_error (U_open f CREATE_RDWR) s (line "cannot create bigwrite");
    ufor (seq 0 2) (λ _,
      cc ← sysv (U_write fd (take (Z.to_nat sz) buf0));
      must_not (negb (cc =? sz)) s (line "write(%d) ret %d") [VInt sz; VInt cc]);;
    run (U_close fd);;
    run (U_unlink f)).

Definition bigfile_round (s : list Z) (fd : Z) (st : list Z * Z * Z) : prog (list Z * Z * Z + Z) :=
  let '(a, i, total) := st in
  '(cc, a) ← read_into fd 300 a;
  must_not (cc <? 0) s (line "read bigfile failed") [];;
  if cc =? 0 then mret (inr total) else
  must_not (negb (cc =? 300)) s (line "short read bigfile") [];;
  must_not (negb (ch a 0 =? i / 2) || negb (ch a 299 =? i / 2)) s (line "read bigfile wrong data") [];;
  mret (inl (a, i + 1, total + cc)).

Definition bigfile (rounds : nat) (s : list Z) : prog unit :=
  let f := str "bigfile.dat" in
  run (U_unlink f);;
  fd ← no_error (U_open f CREATE_RDWR) s (str "cannot create bigfile");
  a ← ufold (up_to 20) (λ i a,
    a ← memset a i 600;
    r ← sysv (U_write fd (take 600 a));
    must_not (negb (r =? 600)) s (line "write bigfile failed") [];;
    mret a) buf0;
  run (U_close fd);;
  fd ← no_error (U_open f 0) s (line "cannot open bigfile");
  total ← uloop rounds (bigfile_round s fd) (a, 0, 0);
  run (U_close fd);;
  must_not (negb (total =? 20 * 600)) s (line "read bigfile wrong total") [];;
  run (U_unlink f).

Definition fourteen (s : list Z) : prog unit :=
  zero (U_mkdir (str "12345678901234")) s (line "mkdir 12345678901234 failed");;
  zero (U_mkdir (str "12345678901234/123456789012345")) s (line "mkdir 12345678901234/123456789012345 failed");;
  fd ← no_error (U_open (str "123456789012345/123456789012345/123456789012345") O_CREATE) s
    (line "create 123456789012345/123456789012345/123456789012345 failed");
  run (U_close fd);;
  fd ← no_error (U_open (str "12345678901234/12345678901234/12345678901234") 0) s
    (line "open 12345678901234/12345678901234/12345678901234 failed");
  run (U_close fd);;
  not_zero (U_mkdir (str "12345678901234/12345678901234")) s (line "mkdir 12345678901234/12345678901234 succeeded!");;
  not_zero (U_mkdir (str "123456789012345/12345678901234")) s (line "mkdir 12345678901234/123456789012345 succeeded!");;
  run (U_unlink (str "123456789012345/12345678901234"));;
  run (U_unlink (str "12345678901234/12345678901234"));;
  run (U_unlink (str "12345678901234/12345678901234/12345678901234"));;
  run (U_unlink (str "123456789012345/123456789012345/123456789012345"));;
  run (U_unlink (str "12345678901234/123456789012345"));;
  run (U_unlink (str "12345678901234")).

Definition rmdot (s : list Z) : prog unit :=
  zero (U_mkdir (str "dots")) s (line "mkdir dots failed");;
  zero (U_chdir (str "dots")) s (line "chdir dots failed");;
  not_zero (U_unlink (str ".")) s (line "rm . worked!");;
  not_zero (U_unlink (str "..")) s (line "rm .. worked!");;
  zero (U_chdir (str "/")) s (line "chdir / failed");;
  not_zero (U_unlink (str "dots/.")) s (line "unlink dots/. worked!");;
  not_zero (U_unlink (str "dots/..")) s (line "unlink dots/.. worked!");;
  zero (U_unlink (str "dots")) s (line "unlink dots failed!").

Definition dirfile (s : list Z) : prog unit :=
  let xx := str "dirfile/xx" in
  fd ← no_error (U_open (str "dirfile") O_CREATE) s (line "create dirfile failed");
  run (U_close fd);;
  not_zero (U_chdir (str "dirfile")) s (line "chdir dirfile succeeded!");;
  an_error (U_open xx 0) s (line "create dirfile/xx succeeded!");;
  an_error (U_open xx O_CREATE) s (line "create dirfile/xx succeeded!");;
  not_zero (U_mkdir xx) s (line "mkdir dirfile/xx succeeded!");;
  not_zero (U_unlink xx) s (line "unlink dirfile/xx succeeded!");;
  not_zero (U_link (str "README") xx) s (line "link to dirfile/xx succeeded!");;
  zero (U_unlink (str "dirfile")) s (line "unlink dirfile failed!");;
  an_error (U_open (str ".") O_RDWR) s (line "open . for writing succeeded!");;
  fd ← sysv (U_open (str ".") 0);
  w ← sysv (U_write fd (str "x"));
  must_not (0 <? w) s (line "write . succeeded!") [];;
  run (U_close fd).

(** An [open] that may fail. *)
Definition open_close (path : list Z) (mode : Z) : prog unit :=
  fd ← sysv (U_open path mode); uwhen (0 <=? fd) (run (U_close fd)).

Definition iref (s : list Z) : prog unit :=
  let d := str "irefd" in
  ufor (seq 0 (NINODE + 1)) (λ _,
    zero (U_mkdir d) s (line "mkdir irefd failed");;
    zero (U_chdir d) s (line "chdir irefd failed");;
    run (U_mkdir []);;
    run (U_link (str "README") []);;
    open_close [] O_CREATE;;
    open_close (str "xx") O_CREATE;;
    run (U_unlink (str "xx")));;
  ufor (seq 0 (NINODE + 1)) (λ _, run (U_chdir (str ".."));; run (U_unlink d));;
  run (U_chdir (str "/")).

Definition forktest (s : list Z) : prog unit :=
  n ← Forktest.fork_loop 1000 0;
  must_not (n =? 0)%nat s (line "no fork at all!") [];;
  must_not (n =? 1000)%nat s (line "fork claimed to work 1000 times!") [];;
  ufor (seq 0 n) (λ _, no_error U_wait s (line "wait stopped early");; mret tt);;
  r ← sysv U_wait;
  must_not (negb (r =? -1)) s (line "wait got too many") [].

Definition bigargtest (s : list Z) : prog unit :=
  let f := str "bigarg-ok" in
  run (U_unlink f);;
  pid ← sysv U_fork;
  if pid =? 0 then
    let big := replicate 399 (chr " ") in
    run (U_exec (str "echo") (replicate (MAXARG - 1) big));;
    fd ← sysv (U_open f O_CREATE);
    run (U_close fd);;
    Exit 0
  else
    must_not (pid <? 0) s (line "bigargtest: fork failed") [];;
    xstatus ← wait_status;
    if negb (xstatus =? 0) then Exit xstatus else
    fd ← no_error (U_open f 0) s (line "bigarg test failed!");
    run (U_close fd).

(** ** Slow tests *)

(** [name[1] = '0' + (i / d); name[2] = '0' + (i % d)] *)
Definition two_digits (d i : Z) : list Z := [u8 (chr "0" + i / d); u8 (chr "0" + i mod d)].

Definition bigdir (s : list Z) : prog unit :=
  let bd := str "bd" in
  let name i := chr "x" :: two_digits 64 i in
  run (U_unlink bd);;
  fd ← no_error (U_open bd O_CREATE) s (line "bigdir create failed");
  run (U_close fd);;
  ufor (up_to 500) (λ i,
    r ← sysv (U_link bd (name i));
    must_not (negb (r =? 0)) s (line "bigdir i=%d link(bd, %s) failed") [VInt i; VStr (Some (name i))]);;
  run (U_unlink bd);;
  ufor (up_to 500) (λ i, zero (U_unlink (name i)) s (str "bigdir unlink failed")).

Definition manywrites (s : list Z) : prog unit :=
  ufor (up_to 4) (λ ci,
    let name := [chr "b"; chr "a" + ci] in
    pid ← fork_or (line "fork failed") [];
    if pid =? 0 then
      run (U_unlink name);;
      ufor (seq 0 30) (λ _,
        ufor (up_to (ci + 1)) (λ _,
          fd ← sysv (U_open name CREATE_RDWR);
          must_not (fd <? 0) s (line "cannot create %s") [VStr (Some name)];;
          cc ← sysv (U_write fd buf0);
          must_not (negb (cc =? BUFSZ)) s (line "write(%d) ret %d") [VInt BUFSZ; VInt cc];;
          run (U_close fd));;
        run (U_unlink name));;
      run (U_unlink name);;
      Exit 0
    else mret tt);;
  ufor (up_to 4) (λ _,
    '(_, x) ← wait_into (Some 0);
    st ← value x;
    if negb (st =? 0) then Exit st else mret tt);;
  Exit 0.

(** The files that fill the disk: the number of the next one, until an
    [open] or a [write] fails. *)
Definition diskfull_file (s : list Z) (name : list Z) : prog bool :=
  run (U_unlink name);;
  fd ← sysv (U_open name (Z.lor CREATE_RDWR O_TRUNC));
  if fd <? 0 then printf (line "%s: could not create file %s") [VStr (Some s); VStr (Some name)];; mret true else
  done ← uloop (S (Z.to_nat MAXFILE)) (λ i : Z,
    if i <? MAXFILE then
      r ← sysv (U_write fd (replicate (Z.to_nat BSIZE) 0));
      if negb (r =? BSIZE) then run (U_close fd);; mret (inr true) else mret (inl (i + 1))
    else mret (inr false)) 0;
  run (U_close fd);;
  mret done.

(** Creates the files [zz..] until an [open] fails. *)
Definition create_zz (n : Z) : prog unit :=
  uloop (S (Z.to_nat n)) (λ i : Z,
    if i <? n then
      let name := str "zz" ++ two_digits 32 i in
      run (U_unlink name);;
      fd ← sysv (U_open name (Z.lor CREATE_RDWR O_TRUNC));
      if fd <? 0 then mret (inr tt) else run (U_close fd);; mret (inl (i + 1))
    else mret (inr tt)) 0.
Definition unlink_zz (n : Z) : prog unit := ufor (up_to n) (λ i, run (U_unlink (str "zz" ++ two_digits 32 i))).

Definition diskfull (s : list Z) : prog unit :=
  let dir := str "diskfulldir" in
  let name fi := str "big" ++ [chr "0" + fi] in
  run (U_unlink dir);;
  uloop 80 (λ fi : Z,
    if chr "0" + fi <? 127 then
      done ← diskfull_file s (name fi);
      mret (if (done : bool) then inr tt else inl (fi + 1))
    else mret (inr tt)) 0;;
  create_zz 128;;
  r ← sysv (U_mkdir dir);
  uwhen (r =? 0) (printf (line "%s: mkdir(diskfulldir) unexpectedly succeeded!") [VStr (Some s)]);;
  run (U_unlink dir);;
  unlink_zz 128;;
  ufor (up_to 79) (λ i, run (U_unlink (name i))).

Definition outofinodes : prog unit := create_zz (32 * 32);; unlink_zz (32 * 32).

(** The name [f] and four digits. *)
Definition fsfull_name (n : Z) : list Z :=
  [chr "f"; u8 (chr "0" + n / 1000); chr "0" + n mod 1000 / 100; chr "0" + n mod 100 / 10; chr "0" + n mod 10].

(** Writes one file until a write fails: the bytes written. *)
Definition fsfull_file (rounds : nat) (fd : Z) : prog Z :=
  uloop rounds (λ total : Z,
    cc ← sysv (U_write fd (take (Z.to_nat BSIZE) buf0));
    mret (if cc <? BSIZE then inr total else inl (total + cc))) 0.

Definition fsfull (rounds : nat) : prog unit :=
  printf (line "fsfull test") [];;
  nfiles ← uloop rounds (λ n : Z,
    let name := fsfull_name n in
    printf (line "writing %s") [VStr (Some name)];;
    fd ← sysv (U_open name CREATE_RDWR);
    if fd <? 0 then printf (line "open %s failed") [VStr (Some name)];; mret (inr n) else
    total ← fsfull_file rounds fd;
    printf (line "wrote %d bytes") [VInt total];;
    run (U_close fd);;
    mret (if total =? 0 then inr n else inl (n + 1))) 0;
  ufor (rev (up_to (nfiles + 1))) (λ n, run (U_unlink (fsfull_name n)));;
  printf (line "fsfull test finished") [].

(** ** The driver *)

Record test := Test { t_f : list Z → prog unit; t_s : list Z }.

Module Driver.

(** The test in a process of its own: 1 when its exit status is 0. *)
Definition run (t : test) : prog bool :=
  printf (str "test %s: ") [VStr (Some (t_s t))];;
  pid ← sysv U_fork;
  if pid <? 0 then oops (line "runtest: fork error") [] else
  if pid =? 0 then t_f t (t_s t);; Exit 0 else
  xstatus ← wait_status;
  printf (if negb (xstatus =? 0) then line "FAILED" else line "OK") [];;
  mret (xstatus =? 0).

Definition selected (justone : option (list Z)) (t : test) : bool :=
  match justone with None => true | Some n => strcmp (t_s t) n =? 0 end.

Fixpoint runtests_from (ntests : Z) (tests : list test) (justone : option (list Z)) (continuous : Z) : prog Z :=
  match tests with
  | [] => mret ntests
  | t :: tests =>
      if selected justone t then
        ok ← run t;
        if negb ok && negb (continuous =? 2) then printf (line "SOME TESTS FAILED") [];; mret (-1)
        else runtests_from (ntests + 1) tests justone continuous
      else runtests_from ntests tests justone continuous
  end.
Definition runtests (tests : list test) (justone : option (list Z)) (continuous : Z) : prog Z :=
  runtests_from 0 tests justone continuous.

(** The pages that [sbrk] can still get. *)
Definition countfree (rounds : nat) : prog Z :=
  sz0 ← sbrk 0;
  n ← uloop rounds (λ n : Z,
    a ← sbrk PGSIZE;
    mret (if a =? -1 then inr n else inl (n + 1))) 0;
  b ← sbrk 0;
  sbrk (i32 (- (b - sz0)));;
  mret n.

(** One round of the loop: [inr] when [drivetests] returns. *)
Definition drive_round (rounds : nat) (quicktests slowtests : list test) (quick : bool) (continuous : Z) (justone : option (list Z)) : prog (unit + Z) :=
  printf (line "usertests starting") [];;
  free0 ← countfree rounds;
  n ← runtests quicktests justone continuous;
  if (n <? 0) && negb (continuous =? 2) then mret (inr 1) else
  let ntests := if n <? 0 then 0 else n in
  n ← (if quick then mret 0 else
         uwhen (bool_decide (justone = None)) (printf (line "usertests slow tests starting") []);;
         runtests slowtests justone continuous);
  if (n <? 0) && negb (continuous =? 2) then mret (inr 1) else
  let ntests := ntests + if n <? 0 then 0 else n in
  free1 ← countfree rounds;
  let lost := free1 <? free0 in
  uwhen lost (printf (line "FAILED -- lost some free pages %d (out of %d)") [VInt free1; VInt free0]);;
  if lost && negb (continuous =? 2) then mret (inr 1) else
  if bool_decide (is_Some justone) && (ntests =? 0) then printf (line "NO TESTS EXECUTED") [];; mret (inr 1) else
  mret (if continuous =? 0 then inr 0 else inl tt).

Definition drivetests (rounds : nat) (quicktests slowtests : list test) (quick : bool) (continuous : Z) (justone : option (list Z)) : prog Z :=
  uloop rounds (λ _ : unit, drive_round rounds quicktests slowtests quick continuous justone) tt.

(** The arguments: quick, continuous and the name of a single test. *)
Definition options (argv : list (list Z)) : option (bool * Z * option (list Z)) :=
  match tail argv with
  | [] => Some (false, 0, None)
  | [a] =>
      if strcmp a (str "-q") =? 0 then Some (true, 0, None)
      else if strcmp a (str "-c") =? 0 then Some (false, 1, None)
      else if strcmp a (str "-C") =? 0 then Some (false, 2, None)
      else if negb (ch a 0 =? chr "-") then Some (false, 0, Some a)
      else None
  | _ => None
  end.

Definition main (rounds : nat) (quicktests slowtests : list test) (argv : list (list Z)) : prog Z :=
  match options argv with
  | None => oops (line "Usage: usertests [-c] [-C] [-q] [testname]") []
  | Some (quick, continuous, justone) =>
      r ← drivetests rounds quicktests slowtests quick continuous justone;
      if truth r then Exit 1 else printf (line "ALL TESTS PASSED") [];; Exit 0
  end.
End Driver.

(** The entries of the two tables that are modelled, in their order. *)
Definition quick_tests (rounds : nat) : list test :=
  [Test (λ _, copyinstr2) (str "copyinstr2"); Test truncate1 (str "truncate1"); Test truncate2 (str "truncate2");
   Test truncate3 (str "truncate3"); Test openiputtest (str "openiput"); Test exitiputtest (str "exitiput");
   Test iputtest (str "iput"); Test opentest (str "opentest"); Test writetest (str "writetest");
   Test (writebig rounds) (str "writebig"); Test createtest (str "createtest"); Test dirtest (str "dirtest");
   Test exectest (str "exectest"); Test (pipe1 rounds) (str "pipe1"); Test (killstatus rounds) (str "killstatus");
   Test preempt (str "preempt"); Test exitwait (str "exitwait"); Test reparent (str "reparent");
   Test twochildren (str "twochildren"); Test forkfork (str "forkfork"); Test (forkforkfork rounds) (str "forkforkfork");
   Test (λ _, reparent2) (str "reparent2"); Test (sharedfd rounds) (str "sharedfd"); Test (fourfiles rounds) (str "fourfiles");
   Test createdelete (str "createdelete"); Test unlinkread (str "unlinkread"); Test linktest (str "linktest");
   Test (concreate rounds) (str "concreate"); Test linkunlink (str "linkunlink"); Test subdir (str "subdir");
   Test bigwrite (str "bigwrite"); Test (bigfile rounds) (str "bigfile"); Test fourteen (str "fourteen");
   Test rmdot (str "rmdot"); Test dirfile (str "dirfile"); Test iref (str "iref"); Test forktest (str "forktest");
   Test bigargtest (str "bigargtest")].
Definition slow_tests : list test :=
  [Test bigdir (str "bigdir"); Test manywrites (str "manywrites"); Test diskfull (str "diskfull"); Test (λ _, outofinodes) (str "outofinodes")].
