(* ===== verification/UsertestsSpec.v ===== *)
(** * The test suite: its verdict

    The driver on a kernel that answers its calls: what main's exit status says
    about the tests and the memory, and the reader of pipe1 on a pipe that delivers in
    arbitrary portions. *)

From S2P Require Import Prelude Riscv FsDefs User Ulib UlibSpec Init Grind Usertests.

(** ** Programs that make only some calls *)

Fixpoint only_calls {A} (ok : ucall → Prop) (p : prog A) : Prop :=
  match p with
  | Call c k => ok c ∧ ∀ r, only_calls ok (k r)
  | _ => True
  end.

Section only.
Context (ok : ucall → Prop).

Lemma only_bind {A B} (p : prog A) (f : A → prog B) : only_calls ok p → (∀ a, only_calls ok (f a)) → only_calls ok (p ≫= f).
Proof. intros Hp Hf. induction p as [|c k IH| | |]; simpl in *; try done. destruct Hp as [Hc Hp]. split; [done|]. intros r. apply IH, Hp. Qed.

Lemma only_for {A} (l : list A) body : (∀ x, only_calls ok (body x)) → only_calls ok (ufor l body).
Proof. intros Hb. induction l as [|x l IH]; [done|]. apply only_bind; [apply Hb|done]. Qed.

Lemma only_loop {X B} n (body : X → prog (X + B)) x : (∀ x, only_calls ok (body x)) → only_calls ok (uloop n body x).
Proof. intros Hb. revert x. induction n as [|n IH]; intros x; [done|]. apply only_bind; [apply Hb|]. intros [x'|b]; [apply IH|done]. Qed.

(** A program that ends and makes only calls that leave the state. *)
Lemma only_exec {A S} (env : ucall → S → resp * S) (Q : A → Prop) (p : prog A) st :
  (∀ c st, ok c → (env c st).2 = st) → only_calls ok p → always Q p → ∃ a, exec_user env p st = (O_done a, st) ∧ Q a.
Proof.
  intros He. induction p as [a|c k IH| | |]; intros Ho Ha; simpl in *; try done; [by exists a|].
  destruct Ho as [Hc Ho]. specialize (He c st Hc). destruct (env c st) as [r st']. simpl in He. subst. by apply IH.
Qed.
End only.

Definition is_write (c : ucall) : Prop := match c with U_write _ _ => True | _ => False end.

Lemma only_putc fd c : only_calls is_write (putc fd c).
Proof. by split. Qed.

Lemma only_printint fd xx base sgn : only_calls is_write (printint fd xx base sgn).
Proof. apply only_for. intros x. apply only_putc. Qed.

Lemma only_printptr fd x : only_calls is_write (printptr fd x).
Proof.
  unfold printptr. do 2 (apply only_bind; [apply only_putc|intros _]).
  generalize 16%nat as n, x as y. induction n as [|n IH]; intros y; [done|]. apply only_bind; [apply only_putc|]. intros _. apply IH.
Qed.

Lemma only_conv fd fmt ap : only_calls is_write (vprintf_conv fd fmt ap).
Proof.
  unfold vprintf_conv. cbv zeta.
  repeat (match goal with |- context [if ?b then _ else _] => destruct b end);
    repeat first
      [ done
      | apply only_putc | apply only_printint | apply only_printptr
      | apply only_for; intros ?
      | apply only_bind; [|intros ?]
      | match goal with
        | |- only_calls _ (va_int ?ap) => by destruct ap as [|[|] ?]
        | |- only_calls _ (va_str ?ap) => by destruct ap as [|[|] ?]
        | |- only_calls _ (let '(_, _) := ?x in _) => destruct x
        | |- only_calls _ (match ?x with (_, _) => _ end) => destruct x
        end ].
Qed.

Lemma only_printf fmt ap : only_calls is_write (printf fmt ap).
Proof.
  apply only_loop. intros [[f a] b]. cbv zeta. destruct (ch f 0 =? 0); [done|]. destruct (negb b).
  - destruct (ch f 0 =? chr "%"); [done|]. apply only_bind; [apply only_putc|done].
  - apply only_bind; [apply only_conv|]. by intros [? ?].
Qed.

Lemma uprintf_run {S} (env : ucall → S → resp * S) fmt ap st :
  (∀ fd b st, (env (U_write fd b) st).2 = st) → matches (Datatypes.S (length fmt)) fmt ap false = true →
  exec_user env (printf fmt ap) st = (O_done tt, st).
Proof.
  intros Hw Hm. destruct (only_exec is_write env (λ _, True) (printf fmt ap) st) as ([] & He & _); [|apply only_printf|by apply always_printf|done].
  intros c st1 Hc. destruct c; by try apply Hw.
Qed.

(** ** The driver *)

(** A kernel as the driver sees it: for each test to come its exit status and
    the pages it loses, and the break and the address it can grow to. *)
Record tenv := Tenv { te_tests : list (Z * nat); te_brk : Z; te_limit : Z }.

(** One answer.  A child's pid is 3; its parent goes on. *)
Definition answer (c : ucall) (st : tenv) : resp * tenv :=
  match c with
  | U_fork => (Resp 3 [], st)
  | U_wait =>
      match te_tests st with
      | [] => (Resp (-1) [], st)
      | (status, leak) :: l => (Resp 3 (le_bytes 4 status), Tenv l (te_brk st) (te_limit st - PGSIZE * Z.of_nat leak))
      end
  | U_sbrk n _ =>
      if te_limit st <? te_brk st + n then (Resp (-1) [], st)
      else (Resp (te_brk st) [], Tenv (te_tests st) (te_brk st + n) (te_limit st))
  | _ => (Resp 0 [], st)
  end.

Abbreviation exec := (exec_user answer).

Lemma print_step {B} fmt ap (f : unit → prog B) st :
  matches (S (length fmt)) fmt ap false = true → exec (printf fmt ap ≫= f) st = exec (f tt) st.
Proof. intros Hm. apply exec_bind. by apply uprintf_run. Qed.

(** A test in the table: 0 and what it loses. *)
Definition status_ok (v : Z * nat) : Prop := 0 ≤ v.1 < 2 ^ 31.
Definition passed (v : Z * nat) : bool := v.1 =? 0.
Definition after (l : list (Z * nat)) (lost : nat) (st : tenv) : tenv := Tenv l (te_brk st) (te_limit st - PGSIZE * Z.of_nat lost).

Lemma run_verdict t v l st : te_tests st = v :: l → status_ok v →
  exec (Driver.run t) st = (O_done (passed v), after l v.2 st).
Proof.
  intros Hl Hv. unfold Driver.run. rewrite print_step by done. unfold sysv at 1. cbn -[printf wait_status oops].
  unfold wait_status, wait_into, sys. cbn -[printf le_bytes]. rewrite Hl. destruct v as [status leak]. unfold status_ok in Hv. cbn [fst] in Hv.
  cbn -[printf le_bytes]. rewrite le_val_bytes, i32_small by lia.
  assert (∀ b : bool, matches (S (length (if b then line "FAILED" else line "OK"))) (if b then line "FAILED" else line "OK") [] false = true) as Hm by (by intros []).
  rewrite print_step by apply Hm. done.
Qed.

Fixpoint lost (l : list (Z * nat)) : nat := match l with [] => 0 | v :: l => v.2 + lost l end.

Lemma lost_app l l' : lost (l ++ l') = (lost l + lost l')%nat.
Proof. induction l as [|v l IH]; [done|]. cbn [lost app]. lia. Qed.

Lemma after_after l l' a b st : after l' b (after l a st) = after l' (a + b) st.
Proof. unfold after. cbn. f_equal. lia. Qed.

(** [runtests] stops at the first test that fails, or runs them all. *)
Lemma runtests_verdict justone continuous tests n l rest st :
  te_tests st = l ++ rest → Forall status_ok l → length l = length (List.filter (Driver.selected justone) tests) → continuous ≠ 2 →
  ∃ r st', exec (Driver.runtests_from n tests justone continuous) st = (O_done r, st') ∧
    if forallb passed l then r = n + Z.of_nat (length l) ∧ st' = after rest (lost l) st else r = -1.
Proof.
  intros Hl Hok Hlen Hc. revert n l st Hl Hok Hlen. induction tests as [|t tests IH]; intros n l st Hl Hok Hlen; cbn [Driver.runtests_from].
  { destruct l; [|done]. exists n, st. split; [done|]. cbn. split; [lia|]. unfold after. destruct st as [ts brk lim]. cbn in *. subst. f_equal. lia. }
  cbn [List.filter] in Hlen. destruct (Driver.selected justone t); [|by apply IH].
  destruct l as [|v l]; [done|]. apply list.Forall_cons in Hok as [Hv Hok]. injection Hlen as Hlen.
  rewrite (exec_bind _ _ _ _ _ _ (run_verdict t v (l ++ rest) st Hl Hv)). cbn [forallb].
  destruct (passed v); cbn [negb andb].
  - destruct (IH (n + 1) l (after (l ++ rest) v.2 st)) as (r & st' & -> & Hr); [done|done|done|]. exists r, st'. split; [done|].
    destruct (forallb passed l); [|done]. destruct Hr as [-> ->]. rewrite after_after. cbn [length lost]. split; [lia|done].
  - rewrite (proj2 (Z.eqb_neq _ _) Hc). cbn [negb]. rewrite print_step by done. by eexists _, _.
Qed.

(** [countfree] finds the pages up to the limit and gives them back. *)
Definition pages (st : tenv) : Z := (te_limit st - te_brk st) / PGSIZE.

Lemma sbrk_run n st : te_brk st + n ≤ te_limit st → exec (sbrk n) st = (O_done (te_brk st), Tenv (te_tests st) (te_brk st + n) (te_limit st)).
Proof. intros Hn. unfold sbrk, sysv. cbn. by rewrite (proj2 (Z.ltb_ge _ _)) by lia. Qed.

Lemma count_loop fuel n st : 0 ≤ te_brk st ≤ te_limit st → pages st < Z.of_nat fuel →
  exec (uloop fuel (λ n : Z, a ← sbrk PGSIZE; mret (if a =? -1 then inr n else inl (n + 1))) n) st =
    (O_done (n + pages st), Tenv (te_tests st) (te_brk st + PGSIZE * pages st) (te_limit st)).
Proof.
  revert n st. induction fuel as [|fuel IH]; intros n st Hb Hp.
  { pose proof (Z.div_pos (te_limit st - te_brk st) PGSIZE ltac:(lia) ltac:(done)). unfold pages in Hp. lia. }
  cbn [uloop]. change PGSIZE with 4096 in *. unfold pages in *. change PGSIZE with 4096 in *.
  destruct (Z.lt_ge_cases (te_limit st) (te_brk st + 4096)) as [Hlt|Hge].
  - rewrite (Z.div_small (te_limit st - te_brk st)) by lia. unfold sbrk, sysv. cbn. rewrite (proj2 (Z.ltb_lt _ _)) by lia. cbn.
    rewrite !Z.add_0_r. by destruct st.
  - rewrite (exec_bind _ _ _ _ (inl (n + 1)) (Tenv (te_tests st) (te_brk st + 4096) (te_limit st))).
    2: { rewrite (exec_bind _ _ _ _ _ _ (sbrk_run 4096 st Hge)). by rewrite (proj2 (Z.eqb_neq _ _)) by lia. }
    assert ((te_limit st - te_brk st) / 4096 = (te_limit st - (te_brk st + 4096)) / 4096 + 1) as E.
    { rewrite <-Z.div_add by lia. f_equal. lia. }
    rewrite IH; cbn [te_brk te_limit te_tests]; [|lia|lia]. rewrite E. f_equal; [f_equal; lia|f_equal; lia].
Qed.

Lemma countfree_run rounds st : 0 ≤ te_brk st ≤ te_limit st → te_limit st < 2 ^ 31 → pages st < Z.of_nat rounds →
  exec (Driver.countfree rounds) st = (O_done (pages st), st).
Proof.
  intros Hb Hl Hp. unfold Driver.countfree. rewrite (exec_bind _ _ _ _ _ _ (sbrk_run 0 st ltac:(lia))). rewrite Z.add_0_r.
  destruct st as [ts brk lim]. cbn [te_brk te_limit te_tests] in *. rewrite (exec_bind _ _ _ _ _ _ (count_loop rounds 0 (Tenv ts brk lim) Hb Hp)).
  cbn [te_brk te_limit te_tests]. set (st := Tenv ts brk lim) in *. set (p := pages st) in *.
  assert (0 ≤ PGSIZE * p ≤ lim - brk) as Hpp.
  { unfold p, pages, st. cbn. change PGSIZE with 4096. pose proof (Z.div_mod (lim - brk) 4096). pose proof (Z.mod_pos_bound (lim - brk) 4096). lia. }
  set (st1 := Tenv ts (brk + PGSIZE * p) lim). rewrite (exec_bind _ _ _ _ _ _ (sbrk_run 0 st1 ltac:(cbn; lia))). cbn [te_brk te_limit te_tests st1].
  rewrite Z.add_0_r. fold st1. rewrite i32_small by lia.
  rewrite (exec_bind _ _ _ _ _ _ (sbrk_run (- (brk + PGSIZE * p - brk)) st1 ltac:(cbn; lia))). cbn [te_brk te_limit te_tests st1].
  cbn [te_tests te_brk te_limit st1]. unfold mret, prog_ret. cbn [exec_user]. unfold st. repeat f_equal; lia.
Qed.

(** One round without [-c]. *)
Section verdict.
Context (rounds : nat) (quicktests slowtests : list test) (quick : bool) (st : tenv).
Let all := quicktests ++ if quick then [] else slowtests.
Context (Hlen : length (te_tests st) = length all) (Hok : Forall status_ok (te_tests st)).
Context (Hb : 0 ≤ te_brk st) (Hl : te_limit st < 2 ^ 31).
Context (Hroom : te_brk st + PGSIZE * Z.of_nat (lost (te_tests st)) ≤ te_limit st) (Hrounds : pages st < Z.of_nat rounds).

Lemma pages_after l k : (k ≤ lost (te_tests st))%nat → pages (after l k st) = pages st - Z.of_nat k ∧ 0 ≤ te_brk (after l k st) ≤ te_limit (after l k st).
Proof.
  intros Hk. unfold pages, after. cbn [te_limit te_brk]. change PGSIZE with 4096 in *. split; [|lia].
  replace (te_limit st - 4096 * Z.of_nat k - te_brk st) with (te_limit st - te_brk st + - Z.of_nat k * 4096) by lia. rewrite Z.div_add by lia. lia.
Qed.

(** The runs of both tables. *)
Lemma tables_run : ∃ v1 v2 r1 st1 r2 st2, te_tests st = v1 ++ v2 ∧
  exec (Driver.runtests quicktests None 0) st = (O_done r1, st1) ∧
  (if forallb passed v1 then r1 = Z.of_nat (length v1) ∧ st1 = after v2 (lost v1) st ∧
     exec (if quick then mret 0 else Driver.runtests slowtests None 0) st1 = (O_done r2, st2) ∧
     (if forallb passed v2 then r2 = Z.of_nat (length v2) ∧ st2 = after [] (lost v1 + lost v2) st else r2 = -1)
   else r1 = -1).
Proof.
  assert (∀ l, List.filter (Driver.selected None) l = l) as Hf by (induction l as [|t l IH]; [done|cbn; by rewrite IH]).
  set (n := length quicktests). exists (take n (te_tests st)), (drop n (te_tests st)). unfold all in Hlen. rewrite length_app in Hlen.
  assert (Forall status_ok (take n (te_tests st)) ∧ Forall status_ok (drop n (te_tests st))) as [Ho1 Ho2] by (split; [by apply Forall_take|by apply Forall_drop]).
  assert (length (take n (te_tests st)) = n) as Hn by (rewrite length_take; lia).
  assert (length (drop n (te_tests st)) = length (if quick then [] else slowtests)) as Hd by (rewrite length_drop; lia).
  destruct (runtests_verdict None 0 quicktests 0 (take n (te_tests st)) (drop n (te_tests st)) st) as (r1 & st1 & He1 & H1); [by rewrite take_drop|done|by rewrite Hf|done|].
  destruct (forallb passed (take n (te_tests st))) eqn:E1.
  2: { exists r1, st1, 0, st. by rewrite take_drop. }
  destruct H1 as [-> ->]. rewrite Hn in *. set (v1 := take n (te_tests st)) in *. set (v2 := drop n (te_tests st)) in *.
  assert (∃ r2 st2, exec (if quick then mret 0 else Driver.runtests slowtests None 0) (after v2 (lost v1) st) = (O_done r2, st2) ∧
    (if forallb passed v2 then r2 = Z.of_nat (length v2) ∧ st2 = after [] (lost v1 + lost v2) st else r2 = -1)) as (r2 & st2 & He2 & H2).
  { destruct quick.
    - destruct v2; [|done]. exists 0, (after [] (lost v1) st). split; [done|]. cbn. split; [done|]. by rewrite Nat.add_0_r.
    - destruct (runtests_verdict None 0 slowtests 0 v2 [] (after v2 (lost v1) st)) as (r2 & st2 & He2 & H2); [by rewrite app_nil_r|done|by rewrite Hf|done|].
      exists r2, st2. split; [done|]. by rewrite after_after in H2. }
  exists (0 + Z.of_nat n), (after v2 (lost v1) st), r2, st2. split; [unfold v1, v2; by rewrite take_drop|].
  split; [done|]. split; [lia|]. split_and!; done.
Qed.

Lemma drive_verdict : ∃ st', exec (Driver.drive_round rounds quicktests slowtests quick 0 None) st =
  (O_done (inr (if forallb passed (te_tests st) && (lost (te_tests st) =? 0)%nat then 0 else 1)), st').
Proof.
  assert (∀ A (f : unit → prog A) fmt ap st, matches (S (length fmt)) fmt ap false = true → exec (printf fmt ap ≫= f) st = exec (f tt) st) as Hpr by (intros; by apply print_step).
  destruct tables_run as (v1 & v2 & r1 & st1 & r2 & st2 & Hv & He1 & H1). unfold Driver.drive_round.
  assert (0 ≤ te_brk st ≤ te_limit st) as Hbl by (change PGSIZE with 4096 in *; lia).
  rewrite Hpr by done. rewrite (exec_bind _ _ _ _ _ _ (countfree_run rounds st Hbl Hl Hrounds)), (exec_bind _ _ _ _ _ _ He1).
  pose proof (pages_after [] (lost v1 + lost v2)) as Hpa. rewrite Hv, lost_app in Hpa. rewrite Hv, forallb_app, lost_app. destruct (forallb passed v1); cbn [andb].
  2: { subst r1. by exists st1. }
  destruct H1 as (-> & -> & He2 & H2). rewrite (proj2 (Z.ltb_ge _ _)) by lia. cbn [andb].
  rewrite (exec_bind _ _ _ (after v2 (lost v1) st) r2 st2).
  2: { destruct quick; [done|]. cbn [uwhen]. rewrite bool_decide_eq_true_2 by done. cbn [uwhen]. by rewrite Hpr. }
  destruct (forallb passed v2); cbn [andb].
  2: { subst r2. by exists st2. }
  destruct H2 as [-> ->]. rewrite (proj2 (Z.ltb_ge (Z.of_nat (length v2)) 0)) by lia. cbn [andb].
  set (k := (lost v1 + lost v2)%nat). destruct (Hpa ltac:(done)) as [Hp Hb']. fold k in Hp, Hb'.
  rewrite (exec_bind _ _ _ _ _ _ (countfree_run rounds (after [] k st) Hb' ltac:(cbn; change PGSIZE with 4096; lia) ltac:(lia))).
  rewrite Hp. exists (after [] k st). destruct (Nat.eqb_spec k 0) as [->|Hk].
  - rewrite (proj2 (Z.ltb_ge _ _)) by lia. done.
  - rewrite (proj2 (Z.ltb_lt _ _)) by lia. cbn [uwhen]. by rewrite Hpr.
Qed.
End verdict.

(** usertests, run without arguments or with [-q], on a kernel on which the tests of its tables exit with some
    status and lose some pages each, exits with status 0 exactly when every test exits with 0 and no
    page is lost, and with 1 otherwise. *)
Theorem usertests_verdict rounds quicktests slowtests quick argv st :
  Driver.options argv = Some (quick, 0, None) → length (te_tests st) = length (quicktests ++ if quick then [] else slowtests) →
  Forall status_ok (te_tests st) → 0 ≤ te_brk st → te_limit st < 2 ^ 31 →
  te_brk st + PGSIZE * Z.of_nat (lost (te_tests st)) ≤ te_limit st → pages st < Z.of_nat rounds →
  ∃ st', exec (Driver.main rounds quicktests slowtests argv) st =
    (O_exit (if forallb passed (te_tests st) && (lost (te_tests st) =? 0)%nat then 0 else 1), st').
Proof.
  intros Ho Hlen Hok Hb Hl Hroom Hrounds.
  destruct (drive_verdict rounds quicktests slowtests quick st Hlen Hok Hb Hl Hroom Hrounds) as [st' He].
  assert (0 ≤ pages st) as Hp.
  { unfold pages. apply Z.div_pos; [change PGSIZE with 4096 in *; lia|done]. }
  unfold Driver.main. rewrite Ho. exists st'. set (r := if _ && _ then 0 else 1) in *.
  rewrite (exec_bind _ _ _ st r st').
  - unfold r. destruct (_ && _); [|reflexivity]. change (truth 0) with false. cbv iota. by rewrite print_step.
  - unfold Driver.drivetests. destruct rounds as [|n]; [lia|]. cbn [uloop]. by rewrite (exec_bind _ _ _ _ _ _ He).
Qed.

Lemma usertests_verdict_witness : ∃ st',
  exec (Driver.main 20 (quick_tests 5) slow_tests [str "usertests"]) (Tenv (replicate 41 (0, 0%nat) ++ [(1, 0%nat)]) 8192 81920) = (O_exit 1, st').
Proof. apply (usertests_verdict 20 (quick_tests 5) slow_tests false [str "usertests"]); [done|done| |done|done|by vm_compute|done].
  cbn [te_tests replicate app]. repeat (apply list.Forall_cons; split; [unfold status_ok; cbn; lia|]). done.
Defined.
