(* ===== verification/AdvicePath.v ===== *)
(** * The advice path through user space

    A line typed on the console reaches the kernel as a [set_llm_advice] call:
    init's router picks the advice lines out of the input and writes them into
    a pipe, llmhelper reads the pipe in chunks of any size, finds the lines
    again and parses the pid.  The theorems say that no line is lost, split or
    invented on the way. *)

From S2P Require Import Prelude Decimal User Ulib Llmhelper Init.

(** ** Decimal numbers *)

(** The characters [%d] and [%u] print. *)
Definition decimal (z : Z) : list Z := rev (printint_buf (i32 z) 10 true).

Lemma digit_dec d : 0 ≤ d < 10 → digit d = d + 48.
Proof. intros Hd. assert (d = 0 ∨ d = 1 ∨ d = 2 ∨ d = 3 ∨ d = 4 ∨ d = 5 ∨ d = 6 ∨ d = 7 ∨ d = 8 ∨ d = 9) as Hc by lia.
  by repeat destruct Hc as [->|Hc]; [..|subst]. Qed.

Lemma printint_buf_gen xx base sgn : printint_buf xx base sgn = gen_buf digit xx base sgn.
Proof. reflexivity. Qed.

Lemma decimal_pos z :
  0 < z < 2 ^ 31 →
  dec_val (decimal z) 0 = z ∧ Forall (λ c, is_digit c = true) (decimal z) ∧ decimal z ≠ [].
Proof.
  intros Hz. unfold decimal. rewrite printint_buf_gen, i32_small by lia. unfold gen_buf. cbn [andb].
  destruct (Z.ltb_spec z 0); [lia|]. rewrite app_nil_r.
  assert (Hu : u64 z = z) by (apply u64_small; lia). rewrite Hu.
  destruct (gen_digits_val digit digit_dec 64 z) as (Hv & Hd & _); [split; [lia|]; apply Z.lt_trans with (2 ^ 31); [lia|done]|lia|].
  split_and!; [done|by apply Forall_rev|]. intros E. rewrite E in Hv. cbn in Hv. lia.
Qed.

Lemma is_digit_range c : is_digit c = true → 48 ≤ c ≤ 57.
Proof. intros [?%Z.leb_le ?%Z.leb_le]%andb_true_iff. done. Qed.

(** The parser on digits: no intermediate value overflows. *)
Lemma pid_loop_digits l acc rest :
  Forall (λ c, is_digit c = true) l → 0 ≤ acc → dec_val l acc < 2 ^ 31 →
  is_digit (ch rest 0) = false →
  pid_loop (l ++ rest) acc = dec_val l acc.
Proof.
  revert acc. induction l as [|c l IH]; intros acc Hl Hacc Hv Hr.
  - destruct rest as [|c rest]; [done|]. cbn [app pid_loop dec_val]. change (ch (c :: rest) 0) with c in Hr. by rewrite Hr.
  - apply Forall_cons_1 in Hl as [Hc Hl]. cbn [app pid_loop dec_val] in *. rewrite Hc.
    pose proof (is_digit_range c Hc). change (chr "0") with 48 in *.
    pose proof (dec_val_mono l (acc * 10 + (c - 48)) Hl ltac:(lia)).
    rewrite i32_small by lia. apply IH; [done|lia|done|done].
Qed.

(** ** Parsing a line *)

Lemma has_prefix_app p l : Forall (λ c, c ≠ 0) p → has_prefix p (p ++ l) = true.
Proof.
  induction 1 as [|c p Hc Hp IH]; [done|]. cbn [app has_prefix]. change (ch (c :: p ++ l) 0) with c.
  rewrite Z.eqb_refl. exact IH.
Qed.

Lemma starts_with_has_prefix p l : starts_with p l = has_prefix p l.
Proof. revert l. induction p as [|c p IH]; intros l; [done|]. cbn. by rewrite IH. Qed.

(** What follows the terminating NUL in the buffer does not matter. *)
Lemma has_prefix_nul p l r : Forall (λ c, c ≠ 0) p → has_prefix p (l ++ 0 :: r) = has_prefix p l.
Proof.
  intros Hp. revert l. induction Hp as [|c p Hc Hp IH]; intros l; [done|]. cbn [has_prefix].
  destruct l as [|d l]; cbn [app tail].
  - change (ch (0 :: r) 0) with 0. change (ch [] 0) with 0. by destruct (Z.eqb_spec 0 c).
  - change (ch (d :: l ++ 0 :: r) 0) with d. change (ch (d :: l) 0) with d. by rewrite IH.
Qed.

Lemma pid_loop_nul l r acc : pid_loop (l ++ 0 :: r) acc = pid_loop l acc.
Proof.
  revert acc. induction l as [|c l IH]; intros acc; [done|]. cbn [app pid_loop].
  destruct (is_digit c); [apply IH|done].
Qed.

Lemma has_prefix_length p l : Forall (λ c, c ≠ 0) p → has_prefix p l = true → (length p ≤ length l)%nat.
Proof.
  intros Hp. revert l. induction Hp as [|c p Hc Hp IH]; intros l Hl; cbn [length]; [lia|].
  cbn [has_prefix] in Hl. apply andb_true_iff in Hl as [Hc'%Z.eqb_eq Hl].
  destruct l as [|d l]; [by destruct Hc|]. apply IH in Hl. cbn in *. lia.
Qed.

Lemma prefix_nonzero : Forall (λ c, c ≠ 0) prefix.
Proof. repeat constructor; discriminate. Qed.

Lemma skip_blanks_nul l r :
  skip_blanks (l ++ 0 :: r) = skip_blanks l ++ 0 :: r.
Proof.
  induction l as [|c l IH]; [done|]. cbn [app skip_blanks]. by destruct ((c =? 32) || (c =? 9)).
Qed.

Lemma line_pid_nul l r : line_pid (l ++ 0 :: r) = line_pid l.
Proof.
  unfold line_pid. rewrite skip_blanks_nul. set (t := skip_blanks l).
  rewrite has_prefix_nul by apply prefix_nonzero. destruct (has_prefix prefix t) eqn:Hp; cbn [negb]; [|done].
  apply has_prefix_length in Hp; [|apply prefix_nonzero]. change (length prefix) with 11%nat in Hp.
  rewrite drop_app_le by lia. rewrite pid_loop_nul.
  assert (ch (drop 11 t ++ 0 :: r) 0 = ch (drop 11 t) 0) as -> by (by destruct (drop 11 t)). done.
Qed.

(** The line the agent sends for a pid, whatever follows it. *)
Lemma line_pid_advice blanks pid rest :
  Forall (λ c, c = 32 ∨ c = 9) blanks → 0 < pid < 2 ^ 31 → is_digit (ch rest 0) = false →
  line_pid (blanks ++ prefix ++ decimal pid ++ rest) = Some pid.
Proof.
  intros Hb Hpid Hr. unfold line_pid.
  assert (skip_blanks (blanks ++ prefix ++ decimal pid ++ rest) = prefix ++ decimal pid ++ rest) as ->.
  { induction Hb as [|c l Hc Hb IH]; [done|]. cbn [app skip_blanks].
    destruct (Z.eqb_spec c 32), (Z.eqb_spec c 9); cbn [orb]; try done. lia. }
  rewrite has_prefix_app by apply prefix_nonzero. cbn [negb].
  change 11%nat with (length prefix). rewrite drop_app_length.
  destruct (decimal_pos pid Hpid) as (Hv & Hd & Hne).
  rewrite pid_loop_digits; [|done|lia|lia|done]. rewrite Hv.
  destruct (decimal pid) as [|c l] eqn:E; [done|]. change (ch ((c :: l) ++ rest) 0) with c.
  apply Forall_cons_1 in Hd as [Hc _]. rewrite Hc. cbn [negb]. by destruct (Z.leb_spec pid 0); [lia|].
Qed.

(** ** Lines *)

(** The complete lines of a text, and the unfinished one at its end. *)
Fixpoint split_lines (l : list Z) : list (list Z) * list Z :=
  match l with
  | [] => ([], [])
  | c :: l =>
      let '(ls, t) := split_lines l in
      if c =? 10 then ([] :: ls, t)
      else match ls with [] => ([], c :: t) | x :: ls => ((c :: x) :: ls, t) end
  end.

Definition no_nl (l : list Z) : Prop := Forall (λ c, c ≠ 10) l.

Lemma split_no_nl l : no_nl l → split_lines l = ([], l).
Proof.
  induction 1 as [|c l Hc Hl IH]; [done|]. cbn [split_lines]. rewrite IH. by destruct (Z.eqb_spec c 10).
Qed.

Lemma split_line l r :
  no_nl l → split_lines (l ++ 10 :: r) = (l :: (split_lines r).1, (split_lines r).2).
Proof.
  induction 1 as [|c l Hc Hl IH]; cbn [app split_lines].
  - by destruct (split_lines r).
  - rewrite IH. by destruct (Z.eqb_spec c 10).
Qed.

Lemma split_tail_no_nl l : no_nl (split_lines l).2.
Proof.
  induction l as [|c l IH]; [constructor|]. cbn [split_lines]. destruct (split_lines l) as [ls t].
  destruct (Z.eqb_spec c 10); [done|]. destruct ls; [by constructor|done].
Qed.

(** Splitting may start again from the unfinished line. *)
Lemma split_app x y :
  split_lines (x ++ y) =
    ((split_lines x).1 ++ (split_lines ((split_lines x).2 ++ y)).1,
     (split_lines ((split_lines x).2 ++ y)).2).
Proof.
  induction x as [|c x IH]; [cbn; by destruct (split_lines y)|]. cbn [app split_lines]. rewrite IH.
  destruct (split_lines x) as [ls t]. cbn [fst snd].
  destruct (Z.eqb_spec c 10) as [->|Hc]; [done|]. destruct ls as [|l ls]; cbn [app fst snd split_lines].
  - destruct (split_lines (t ++ y)) as [ls' t']. destruct (Z.eqb_spec c 10); [done|]. by destruct ls'.
  - done.
Qed.

Lemma split_prefix t y :
  no_nl t →
  split_lines (t ++ y) =
    match (split_lines y).1 with
    | [] => ([], t ++ (split_lines y).2)
    | x :: ls => ((t ++ x) :: ls, (split_lines y).2)
    end.
Proof.
  induction 1 as [|c t Hc Ht IH]; cbn [app]; [by destruct (split_lines y) as [[] ?]|].
  cbn [split_lines]. rewrite IH. destruct (Z.eqb_spec c 10); [done|].
  by destruct (split_lines y) as [[] ?].
Qed.

(** All lines, the unfinished one included, have at most [b] characters. *)
Definition lines_le (b : nat) (text : list Z) : Prop :=
  Forall (λ l, (length l ≤ b)%nat) (split_lines text).1 ∧ (length (split_lines text).2 ≤ b)%nat.

Lemma lines_le_prefix b t y : no_nl t → lines_le b (t ++ y) → (length t ≤ b)%nat.
Proof.
  intros Ht [Hl Htl]. rewrite split_prefix in Hl, Htl by done.
  destruct (split_lines y) as [[|x ls] z]; cbn [fst snd] in *.
  - rewrite length_app in Htl. lia.
  - apply Forall_cons_1 in Hl as [Hl _]. rewrite length_app in Hl. lia.
Qed.

Lemma lines_le_rest b x y : lines_le b (x ++ y) → lines_le b ((split_lines x).2 ++ y).
Proof.
  intros [Hl Htl]. rewrite split_app in Hl, Htl. cbn [fst snd] in *.
  apply Forall_app in Hl as [_ Hl]. by split.
Qed.

(** Moving bytes down inside an array. *)
Lemma copy_up_lookup n d s a i :
  (d ≤ s)%nat → (s + n ≤ length a)%nat →
  copy_up n d s a !! i = if decide (d ≤ i < d + n)%nat then a !! (s + (i - d))%nat else a !! i.
Proof.
  revert d s a. induction n as [|n IH]; intros d s a Hd Hs; cbn [copy_up].
  { by rewrite decide_False by lia. }
  rewrite IH by (rewrite ?length_insert; lia).
  destruct (lookup_lt_is_Some_2 a s) as [v Hv]; [lia|]. unfold ch. rewrite Hv. cbn [default id].
  destruct (decide (S d ≤ i < S d + n)%nat).
  - rewrite decide_True by lia. rewrite list_lookup_insert_ne by lia. f_equal. lia.
  - destruct (decide (i = d)) as [->|Hne].
    + rewrite decide_True by lia. rewrite list_lookup_insert_eq by lia.
      by rewrite Nat.sub_diag, Nat.add_0_r.
    + rewrite decide_False by lia. by rewrite list_lookup_insert_ne.
Qed.

Lemma length_copy_up n d s a : length (copy_up n d s a) = length a.
Proof. revert d s a. induction n as [|n IH]; intros d s a; cbn [copy_up]; [done|]. by rewrite IH, length_insert. Qed.

Lemma take_copy_up n s a :
  (s + n ≤ length a)%nat → take n (copy_up n 0 s a) = take n (drop s a).
Proof.
  intros Hs. apply list_eq. intros i. destruct (decide (i < n)%nat).
  - rewrite !lookup_take_lt, lookup_drop, copy_up_lookup by lia. rewrite decide_True by lia. f_equal. lia.
  - by rewrite !lookup_take_ge by lia.
Qed.

(** ** The environment of a program on a pipe *)

(** Standard input still to be read, the advice the kernel has received, and
    everything written, by descriptor. *)
Record env := Env { e_in : list Z; e_adv : list Z; e_out : list (Z * list Z) }.

Section handler.
(** A read returns as many bytes as the kernel likes; the kernel may refuse
    advice. *)
Context (pick : list Z → Z → nat) (ans : Z → Z).

Definition handler (c : ucall) (st : env) : resp * env :=
  match c with
  | U_read _ n =>
      if (n <=? 0) || bool_decide (e_in st = []) then (Resp 0 [], st)
      else let k := pick (e_in st) n in
           (Resp (Z.of_nat k) (take k (e_in st)), Env (drop k (e_in st)) (e_adv st) (e_out st))
  | U_write fd b => (Resp (Z.of_nat (length b)) [], Env (e_in st) (e_adv st) (e_out st ++ [(fd, b)]))
  | U_set_llm_advice pid => (Resp (ans pid) [], Env (e_in st) (e_adv st ++ [pid]) (e_out st))
  | _ => (Resp (-1) [], st)
  end.

(** A read returns at least one byte, and no more than asked or available. *)
Definition pick_ok : Prop :=
  ∀ l n, l ≠ [] → 0 < n → (0 < pick l n ≤ length l)%nat ∧ Z.of_nat (pick l n) ≤ n.

Abbreviation run := (exec_user handler).

(** A program that only prints before it yields [a]. *)
Definition prints {A} (p : prog A) (a : A) : Prop :=
  ∀ st, ∃ o, run p st = (O_done a, Env (e_in st) (e_adv st) o).

Lemma prints_bind {A B} (p : prog A) (f : A → prog B) a b :
  prints p a → prints (f a) b → prints (p ≫= f) b.
Proof.
  intros Hp Hf st. destruct (Hp st) as [o Ho]. rewrite (exec_bind _ _ _ _ _ _ Ho).
  destruct (Hf (Env (e_in st) (e_adv st) o)) as [o' Ho']. by exists o'.
Qed.

Lemma prints_ret {A} (a : A) : prints (mret a) a.
Proof. intros st. exists (e_out st). by destruct st. Qed.

Lemma prints_putc fd c : prints (putc fd c) tt.
Proof. intros st. by eexists. Qed.

Lemma prints_for {A} (l : list A) f : (∀ x, prints (f x) tt) → prints (ufor l f) tt.
Proof. intros Hf. induction l as [|x l IH]; [apply prints_ret|]. by eapply prints_bind. Qed.

Lemma prints_loop {X B} n (body : X → prog (X + B)) x x' b :
  prints (body x) (inl x') → prints (uloop n body x') b → prints (uloop (S n) body x) b.
Proof. intros H1 H2. cbn [uloop]. eapply prints_bind; [exact H1|exact H2]. Qed.

(** Formats made of plain characters and [%d]. *)
Fixpoint fmt_ok (fmt : list Z) (ap : list varg) : bool :=
  match fmt with
  | [] => true
  | c :: fmt =>
      if c =? 0 then true
      else if c =? chr "%" then
        match fmt, ap with
        | d :: fmt', VInt _ :: ap' => (d =? chr "d") && fmt_ok fmt' ap'
        | _, _ => false
        end
      else fmt_ok fmt ap
  end.

Lemma prints_conv fd fmt z ap : prints (vprintf_conv fd (chr "d" :: fmt) (VInt z :: ap)) (fmt, ap).
Proof.
  unfold vprintf_conv. change (ch (chr "d" :: fmt) 0) with (chr "d"). rewrite Z.eqb_refl.
  eapply prints_bind; [apply prints_ret|]. cbn beta iota.
  eapply prints_bind; [apply prints_for, prints_putc|apply prints_ret].
Qed.

Lemma prints_vprintf fd fmt ap : fmt_ok fmt ap = true → prints (vprintf fd fmt ap) tt.
Proof.
  unfold vprintf. assert (Hn : (length fmt < S (length fmt))%nat) by lia. revert Hn.
  generalize (S (length fmt)) as n. intros n. revert fmt ap.
  induction (lt_wf n) as [n _ IH]. intros fmt ap Hn Hok.
  destruct n as [|n]; [lia|]. destruct fmt as [|c fmt]; [apply prints_ret|].
  cbn [fmt_ok] in Hok. cbn [length] in Hn.
  destruct (Z.eqb_spec c 0) as [->|Hc0]; [apply prints_ret|].
  destruct (Z.eqb_spec c (chr "%")) as [->|Hcp].
  - destruct fmt as [|d fmt]; [done|]. destruct ap as [|[z|] ap]; [done| |done].
    apply andb_true_iff in Hok as [Hd Hok]. apply Z.eqb_eq in Hd as ->.
    destruct n as [|n]; [cbn in Hn; lia|]. cbn in Hn.
    eapply prints_loop; [apply prints_ret|]. eapply prints_loop.
    { eapply prints_bind; [apply prints_conv|apply prints_ret]. }
    apply IH; [lia|lia|done].
  - eapply prints_loop.
    { cbn zeta. change (ch (c :: fmt) 0) with c. rewrite (proj2 (Z.eqb_neq c 0) Hc0), (proj2 (Z.eqb_neq c _) Hcp).
      eapply prints_bind; [apply prints_putc|apply prints_ret]. }
    apply IH; [lia|cbn; lia|done].
Qed.

Lemma prints_handle_line line :
  ∀ st, ∃ o, run (handle_line line) st =
    (O_done tt, Env (e_in st) (e_adv st ++ option_list (line_pid line)) o).
Proof.
  intros st. unfold handle_line. destruct (line_pid line) as [pid|]; cbn [option_list].
  2:{ exists (e_out st). rewrite app_nil_r. by destruct st. }
  set (st1 := Env (e_in st) (e_adv st ++ [pid]) (e_out st)).
  assert (Hb : run (sysv (U_set_llm_advice pid)) st = (O_done (ans pid), st1)) by done.
  rewrite (exec_bind _ _ _ _ _ _ Hb).
  by destruct (ans pid <? 0); refine (prints_vprintf 1 _ _ _ st1).
Qed.

Lemma aget_run (i : nat) a v : a !! i = Some v → aget (Z.of_nat i) a = mret v.
Proof. intros Hv. unfold aget. destruct (Z.leb_spec 0 (Z.of_nat i)); [|lia]. by rewrite Nat2Z.id, Hv. Qed.

Lemma aset_run (i : nat) v a : (i < length a)%nat → aset (Z.of_nat i) v a = mret (<[i := v]> a).
Proof.
  intros Hi. unfold aset. destruct (Z.leb_spec 0 (Z.of_nat i)); [|lia].
  destruct (Z.ltb_spec (Z.of_nat i) (Z.of_nat (length a))); [|lia]. by rewrite Nat2Z.id.
Qed.

(** The scan of llmhelper: [seg] is the part of the current line already seen,
    [rest] the bytes still to look at. *)
Lemma scan_loop n buf (start i end_ : nat) seg rest st :
  n = length rest → end_ = (i + n)%nat → i = (start + length seg)%nat → (end_ < length buf)%nat →
  take (length seg) (drop start buf) = seg → take n (drop i buf) = rest → no_nl seg →
  let '(ls, t) := split_lines (seg ++ rest) in
  ∃ o buf',
    run (uloop (S n)
      (λ '(buf, start, i),
        if i <? Z.of_nat end_ then
          c ← aget i buf;
          if c =? 10 then
            buf ← aset i 0 buf;
            handle_line (drop (Z.to_nat start) buf);;
            mret (inl (buf, i + 1, i + 1))
          else mret (inl (buf, start, i + 1))
        else mret (inr (buf, start)))
      (buf, Z.of_nat start, Z.of_nat i)) st =
    (O_done (buf', Z.of_nat (end_ - length t)), Env (e_in st) (e_adv st ++ omap line_pid ls) o) ∧
    length buf' = length buf ∧ (length t ≤ end_)%nat ∧
    take (length t) (drop (end_ - length t) buf') = t.
Proof.
  revert buf start i seg rest st. induction n as [|n IH]; intros buf start i seg rest st Hn He Hi Hlen Hseg Hrest Hnl.
  - destruct rest; [|done]. rewrite app_nil_r, split_no_nl by done. exists (e_out st), buf.
    cbn [uloop]. destruct (Z.ltb_spec (Z.of_nat i) (Z.of_nat end_)); [lia|]. cbn [mbind prog_bind exec_user].
    split_and!; [|done|lia|].
    + cbn. rewrite app_nil_r. replace (end_ - length seg)%nat with start by lia. by destruct st.
    + replace (end_ - length seg)%nat with start by lia. done.
  - destruct rest as [|c rest]; [done|]. injection Hn as Hn.
    assert (Hc : buf !! i = Some c).
    { rewrite <- (Nat.add_0_r i), <- lookup_drop, <- (lookup_take_lt _ (S n)) by lia. by rewrite Hrest. }
    assert (Hrest' : take n (drop (S i) buf) = rest).
    { rewrite (drop_S _ _ _ Hc) in Hrest. cbn in Hrest. by simplify_eq. }
    cbn [uloop]. destruct (Z.ltb_spec (Z.of_nat i) (Z.of_nat end_)); [|lia].
    rewrite (aget_run i buf c Hc), Nat2Z.id. replace (Z.of_nat i + 1) with (Z.of_nat (S i)) by lia.
    rewrite ubind_ret. destruct (Z.eqb_spec c 10) as [->|Hc10].
    + rewrite split_line by done. rewrite aset_run by lia. rewrite ubind_ret.
      set (buf1 := <[i := 0]> buf).
      assert (Hline : drop start buf1 = seg ++ 0 :: drop (S i) buf).
      { unfold buf1. rewrite drop_insert_ge by lia.
        rewrite <- (take_drop (length seg) (drop start buf)), Hseg, drop_drop, <- Hi, (drop_S _ _ _ Hc).
        by rewrite insert_app_r_alt, Hi, Nat.add_comm, Nat.add_sub, Nat.sub_diag by lia. }
      destruct (prints_handle_line (drop start buf1) st) as [o1 Ho1].
      pose proof (line_pid_nul seg (drop (S i) buf)) as Hlp. rewrite <- Hline in Hlp. rewrite Hlp in Ho1.
      set (st1 := Env (e_in st) (e_adv st ++ option_list (line_pid seg)) o1) in *.
      pose proof (IH buf1 (S i) (S i) [] rest st1) as Hrec.
      cbn [app] in Hrec. destruct (split_lines rest) as [ls t]. cbn [fst snd].
      destruct Hrec as (o & buf' & Hrun & Hl' & Ht & Htl).
      { done. } { lia. } { cbn. lia. } { unfold buf1. by rewrite length_insert. } { done. }
      { unfold buf1. by rewrite drop_insert_lt by lia. } { constructor. }
      exists o, buf'. split_and!; [|unfold buf1 in Hl'; by rewrite length_insert in Hl'|done|done].
      assert (Hin : ∀ x : list Z * Z * Z + list Z * Z,
        run (handle_line (drop start buf1);; mret x) st = (O_done x, st1)).
      { intros x. by rewrite (exec_bind _ _ _ _ _ _ Ho1). }
      rewrite (exec_bind _ _ _ _ _ _ (Hin _)). etransitivity; [exact Hrun|].
      unfold st1. cbn [e_in e_adv omap list_omap].
      rewrite <- app_assoc. by destruct (line_pid seg).
    + pose proof (IH buf start (S i) (seg ++ [c]) rest st) as Hrec.
      rewrite <- app_assoc in Hrec. cbn [app] in Hrec. destruct (split_lines (seg ++ c :: rest)) as [ls t].
      rewrite ubind_ret. apply Hrec; [done|lia|rewrite length_app; cbn; lia|done| |done|].
      * rewrite length_app. cbn. rewrite Nat.add_1_r.
        rewrite (take_S_r _ _ c), Hseg; [done|]. by rewrite lookup_drop, <- Hi.
      * apply Forall_app_2; [done|]. by constructor.
Qed.

(** One read of llmhelper: [part] is the unfinished line in the buffer. *)
Lemma main_round_run buf part st :
  pick_ok → length buf = 512%nat → (length part ≤ 510)%nat → take (length part) buf = part →
  no_nl part → e_in st ≠ [] →
  ∃ k o buf', (0 < k ≤ length (e_in st))%nat ∧
    let '(ls, t) := split_lines (part ++ take k (e_in st)) in
    run (main_round (buf, 0, Z.of_nat (length part))) st =
      (O_done (inl (buf', 0, Z.of_nat (length t))),
       Env (drop k (e_in st)) (e_adv st ++ omap line_pid ls) o) ∧
    length buf' = 512%nat ∧ take (length t) buf' = t.
Proof.
  intros Hpick Hlen Hp Hbuf Hnl Hin. set (e := length part) in *.
  destruct (Hpick (e_in st) (511 - Z.of_nat e) Hin ltac:(lia)) as [Hk Hk']. set (k := pick _ _) in *.
  unfold main_round.
  assert ((BUF_SZ - 1 <=? Z.of_nat e) && (0 =? 0) = false) as -> by (apply andb_false_iff; left; apply Z.leb_gt; unfold BUF_SZ; lia).
  set (chunk := take k (e_in st)).
  assert (Hch : length chunk = k) by (unfold chunk; rewrite length_take; lia).
  set (st1 := Env (drop k (e_in st)) (e_adv st) (e_out st)).
  assert (Hread : run (sys (U_read 0 (BUF_SZ - 1 - Z.of_nat e))) st = (O_done (Resp (Z.of_nat k) chunk), st1)).
  { cbn [sys exec_user handler]. unfold BUF_SZ. destruct (Z.leb_spec (512 - 1 - Z.of_nat e) 0); [lia|].
    rewrite bool_decide_false by done. done. }
  rewrite (exec_bind _ _ _ _ _ _ Hread). cbn [r_val r_buf].
  destruct (Z.leb_spec (Z.of_nat k) 0); [lia|]. rewrite Nat2Z.id, <- Nat2Z.inj_add.
  set (buf1 := splice e chunk buf).
  assert (Hl1 : length buf1 = 512%nat) by (unfold buf1; by rewrite length_splice).
  rewrite aset_run by lia. rewrite ubind_ret. set (buf2 := <[(e + k)%nat := 0]> buf1).
  assert (Hl2 : length buf2 = 512%nat) by (unfold buf2; by rewrite length_insert).
  assert (Htext : take (e + k) buf2 = part ++ chunk).
  { unfold buf2. rewrite take_insert_ge by lia. unfold buf1, splice. rewrite Hbuf, Hlen.
    rewrite (take_ge chunk) by lia. rewrite app_assoc, take_app_le by (rewrite length_app; lia).
    apply take_ge. rewrite length_app. lia. }
  exists k. fold chunk. pose proof (scan_loop (e + k) buf2 0 0 (e + k) [] (part ++ chunk) st1) as Hscan.
  cbn [app] in Hscan. destruct (split_lines (part ++ chunk)) as [ls t] eqn:Hsplit.
  destruct Hscan as (o & buf3 & Hrun & Hl3 & Ht & Htl).
  { rewrite length_app. lia. } { done. } { done. } { lia. } { done. } { by rewrite drop_0. } { constructor. }
  assert (Hscan : run (scan_lines buf2 0 0 (Z.of_nat (e + k))) st1 =
    (O_done (buf3, Z.of_nat (e + k - length t)), Env (e_in st1) (e_adv st1 ++ omap line_pid ls) o)).
  { unfold scan_lines. rewrite Z.sub_0_r, Nat2Z.id. exact Hrun. }
  exists o. rewrite (exec_bind _ _ _ _ _ _ Hscan). cbn beta iota. cbn [e_in e_adv st1].
  destruct (Z.eqb_spec (Z.of_nat (e + k - length t)) (Z.of_nat (e + k))) as [E|E].
  { assert (t = []) as -> by (apply length_zero_iff_nil; lia). exists buf3. split; [lia|]. split_and!; [done|lia|done]. }
  destruct (Z.ltb_spec 0 (Z.of_nat (e + k - length t))) as [Hs|Hs].
  2:{ assert (Hlt : length t = (e + k)%nat) by lia. exists buf3. rewrite Hlt in Htl |- *.
      rewrite Nat.sub_diag, drop_0 in *. split; [lia|]. split_and!; [done|lia|done]. }
  replace (Z.of_nat (e + k) - Z.of_nat (e + k - length t)) with (Z.of_nat (length t)) by lia.
  set (start := (e + k - length t)%nat) in *. unfold memmove.
  assert ((Z.max 0 (Z.of_nat start) + Z.of_nat (length t) <=? Z.of_nat (length buf3)) && (0 <=? 0) &&
    (0 <=? Z.of_nat start) = true) as ->.
  { rewrite !andb_true_iff, !Z.leb_le. lia. }
  destruct (Z.ltb_spec 0 (Z.of_nat start)); [|lia]. rewrite !Nat2Z.id. change (Z.to_nat 0) with 0%nat.
  rewrite ubind_ret, aset_run, ubind_ret by (rewrite length_copy_up; lia).
  eexists. split; [lia|]. split_and!; [reflexivity|rewrite length_insert, length_copy_up; lia|].
  rewrite take_insert_ge by lia. rewrite take_copy_up by lia. exact Htl.
Qed.

Lemma main_loop n buf part st :
  pick_ok → length buf = 512%nat → take (length part) buf = part → no_nl part →
  lines_le 510 (part ++ e_in st) → (length (e_in st) < n)%nat →
  ∃ o, run (uloop n main_round (buf, 0, Z.of_nat (length part))) st =
    (O_done tt, Env [] (e_adv st ++ omap line_pid (split_lines (part ++ e_in st)).1) o).
Proof.
  intros Hpick. revert buf part st. induction n as [|n IH]; intros buf part st Hlen Hbuf Hnl Hle Hn; [lia|].
  pose proof (lines_le_prefix _ _ _ Hnl Hle) as Hp. cbn [uloop].
  destruct (decide (e_in st = [])) as [Hin|Hin].
  - rewrite Hin, app_nil_r, split_no_nl by done. exists (e_out st).
    assert (Hround : run (main_round (buf, 0, Z.of_nat (length part))) st = (O_done (inr tt), st)).
    { unfold main_round.
      assert ((BUF_SZ - 1 <=? Z.of_nat (length part)) && (0 =? 0) = false) as ->
        by (apply andb_false_iff; left; apply Z.leb_gt; unfold BUF_SZ; lia).
      assert (Hread : run (sys (U_read 0 (BUF_SZ - 1 - Z.of_nat (length part)))) st = (O_done (Resp 0 []), st)).
      { cbn [sys exec_user handler]. rewrite (bool_decide_true _ Hin), orb_true_r. done. }
      by rewrite (exec_bind _ _ _ _ _ _ Hread). }
    rewrite (exec_bind _ _ _ _ _ _ Hround). cbn. rewrite app_nil_r. destruct st. cbn in *. by subst.
  - destruct (main_round_run buf part st Hpick Hlen Hp Hbuf Hnl Hin) as (k & o & buf' & Hk & Hround).
    assert (Hsplit : split_lines (part ++ e_in st) =
      ((split_lines (part ++ take k (e_in st))).1 ++
       (split_lines ((split_lines (part ++ take k (e_in st))).2 ++ drop k (e_in st))).1,
       (split_lines ((split_lines (part ++ take k (e_in st))).2 ++ drop k (e_in st))).2)).
    { rewrite <- split_app, <- app_assoc, take_drop. done. }
    pose proof (split_tail_no_nl (part ++ take k (e_in st))) as Hnl'.
    assert (Hle' : lines_le 510 ((split_lines (part ++ take k (e_in st))).2 ++ drop k (e_in st))).
    { apply lines_le_rest. by rewrite <- app_assoc, take_drop. }
    rewrite Hsplit. destruct (split_lines (part ++ take k (e_in st))) as [ls t]. cbn [fst snd] in *.
    destruct Hround as (Hrun & Hl' & Ht). rewrite (exec_bind _ _ _ _ _ _ Hrun). cbn beta iota.
    destruct (IH buf' t (Env (drop k (e_in st)) (e_adv st ++ omap line_pid ls) o)) as [o' Ho'];
      [done|done|done|done|cbn; rewrite length_drop; lia|].
    exists o'. rewrite Ho'. cbn [e_in e_adv]. by rewrite omap_app, app_assoc.
Qed.

Lemma main_run rounds buf text adv out :
  pick_ok → length buf = 512%nat → lines_le 510 text → (length text < rounds)%nat →
  ∃ o, run (Llmhelper.main rounds buf) (Env text adv out) =
    (O_exit 0, Env [] (adv ++ omap line_pid (split_lines text).1) o).
Proof.
  intros Hpick Hlen Hle Hn. unfold Llmhelper.main.
  destruct (prints_vprintf 1 (str "llmhelper: started, waiting for LLM advice on stdin..." ++ [10]) [] eq_refl
    (Env text adv out)) as [o1 H1].
  rewrite (exec_bind _ _ _ _ _ _ H1). cbn [e_in e_adv].
  destruct (main_loop rounds buf [] (Env text adv o1) Hpick Hlen) as [o2 H2]; [done|constructor|done|done|].
  cbn [length app e_in e_adv] in H2. rewrite (exec_bind _ _ _ _ _ _ H2).
  destruct (prints_vprintf 1 (str "llmhelper: exiting (input closed)" ++ [10]) [] eq_refl
    (Env [] (adv ++ omap line_pid (split_lines text).1) o2)) as [o3 H3].
  rewrite (exec_bind _ _ _ _ _ _ H3). by exists o3.
Qed.

(** ** The router *)

(** A carriage return ends a line like a newline. *)
Definition norm (c : Z) : Z := if c =? 13 then 10 else c.

(** What the router writes for a line: its first 511 characters and a newline. *)
Definition routed (sh_fd llm_fd : Z) (line : list Z) : list (Z * list Z) :=
  let fd := if is_advice_line line then llm_fd else sh_fd in
  [(fd, take 511 line); (fd, [10])].

Lemma is_advice_nul l r : is_advice_line (l ++ 0 :: r) = is_advice_line l.
Proof. unfold is_advice_line. rewrite !starts_with_has_prefix. apply has_prefix_nul, prefix_nonzero. Qed.

Lemma has_prefix_take p l n : (length p ≤ n)%nat → has_prefix p (take n l) = has_prefix p l.
Proof.
  revert l n. induction p as [|c p IH]; intros l n Hn; [done|]. cbn in Hn.
  destruct n as [|n]; [lia|]. destruct l as [|d l]; [done|]. cbn [take has_prefix tail].
  change (ch (d :: take n l) 0) with d. change (ch (d :: l) 0) with d. by rewrite IH by lia.
Qed.

Lemma is_advice_take l : is_advice_line (take 511 l) = is_advice_line l.
Proof. unfold is_advice_line. rewrite !starts_with_has_prefix. apply has_prefix_take. cbn. lia. Qed.

Lemma forward_line_run sh_fd llm_fd buf cur st :
  0 ≤ sh_fd → 0 ≤ llm_fd → (length (take 511 cur) < length buf)%nat →
  take (length (take 511 cur)) buf = take 511 cur →
  run (forward_line sh_fd llm_fd (<[length (take 511 cur) := 0]> buf) (Z.of_nat (length (take 511 cur)))) st =
    (O_done tt, Env (e_in st) (e_adv st) (e_out st ++ routed sh_fd llm_fd cur)).
Proof.
  intros Hs Hl Hlen Hbuf. set (t := take 511 cur) in *. unfold forward_line, routed.
  assert (Hadv : is_advice_line (<[length t := 0]> buf) = is_advice_line cur).
  { rewrite <- (take_drop (length t) buf), Hbuf, insert_app_r_alt, Nat.sub_diag by lia.
    destruct (drop (length t) buf) as [|x r] eqn:E.
    { apply (f_equal length) in E. rewrite length_drop in E. cbn in E. lia. }
    cbn [insert list_insert]. rewrite is_advice_nul. apply is_advice_take. }
  assert (Htake : take (length t) (<[length t := 0]> buf) = t) by (by rewrite take_insert_ge by lia).
  rewrite Hadv, Nat2Z.id, Htake. destruct (is_advice_line cur) eqn:Ea.
  - assert (Hpos : 0 < Z.of_nat (length t)).
    { destruct cur; [done|]. unfold t. cbn. lia. }
    destruct (Z.ltb_spec 0 (Z.of_nat (length t))); [|lia]. cbn [andb]. unfold uwhen.
    destruct (Z.leb_spec 0 llm_fd); [|lia]. cbn. by rewrite <- app_assoc.
  - rewrite andb_false_r. unfold uwhen. destruct (Z.leb_spec 0 sh_fd); [|lia]. cbn. by rewrite <- app_assoc.
Qed.

Lemma router_loop_run n sh_fd llm_fd buf cur st :
  pick_ok → 0 ≤ sh_fd → 0 ≤ llm_fd → length buf = 512%nat →
  take (length (take 511 cur)) buf = take 511 cur → no_nl cur → (length (e_in st) < n)%nat →
  run (uloop n (router_round sh_fd llm_fd) (buf, Z.of_nat (length (take 511 cur)))) st =
    (O_exit 0, Env [] (e_adv st)
       (e_out st ++ mjoin (routed sh_fd llm_fd <$> (split_lines (cur ++ (norm <$> e_in st))).1))).
Proof.
  intros Hpick Hs Hl. revert buf cur st. induction n as [|n IH]; intros buf cur st Hlen Hbuf Hnl Hn; [lia|].
  cbn [uloop]. assert (Ht : (length (take 511 cur) ≤ 511)%nat) by (rewrite length_take; lia).
  destruct (e_in st) as [|c text] eqn:Hin.
  - cbn [fmap list_fmap]. rewrite app_nil_r, split_no_nl by done. cbn. rewrite Hin. cbn.
    rewrite app_nil_r. destruct st. cbn in *. by subst.
  - destruct (Hpick (c :: text) 1) as [Hk1 Hk2]; [done|lia|].
    set (st1 := Env text (e_adv st) (e_out st)).
    assert (Hread : run (sys (U_read 0 1)) st = (O_done (Resp 1 [c]), st1)).
    { cbn [sys exec_user handler]. rewrite Hin. cbn [Z.leb Z.compare orb]. rewrite bool_decide_false by done.
      assert (pick (c :: text) 1 = 1%nat) as -> by lia. done. }
    cbn [fmap list_fmap]. fold (norm c). set (d := norm c).
    destruct (decide (d = 10)) as [Hd|Hd].
    + rewrite Hd, split_line by done. cbn [fst].
      set (buf1 := <[length (take 511 cur) := 0]> buf).
      set (st2 := Env text (e_adv st) (e_out st ++ routed sh_fd llm_fd cur)).
      assert (Hround : run (router_round sh_fd llm_fd (buf, Z.of_nat (length (take 511 cur)))) st =
        (O_done (inl (buf1, 0)), st2)).
      { unfold router_round. rewrite (exec_bind _ _ _ _ _ _ Hread). cbn [r_val r_buf]. change (1 <? 1) with false.
        change (ch [c] 0) with c. fold (norm c). fold d. rewrite Hd. cbn [Z.eqb Pos.eqb].
        rewrite aset_run, ubind_ret by lia.
        by rewrite (exec_bind _ _ _ _ _ _ (forward_line_run sh_fd llm_fd buf cur st1 Hs Hl ltac:(lia) Hbuf)). }
      rewrite (exec_bind _ _ _ _ _ _ Hround). cbn beta iota.
      pose proof (IH buf1 [] st2) as Hrec. change (Z.of_nat (length (take 511 []))) with 0 in Hrec.
      rewrite Hrec; [|unfold buf1; by rewrite length_insert|done|constructor|cbn in Hn |- *; lia].
      cbn [e_in e_adv e_out st2 app fmap list_fmap mjoin list_join]. by rewrite <- app_assoc.
    + assert (Hcur : no_nl (cur ++ [d])) by (apply Forall_app_2; [done|by constructor]).
      assert (Hround : ∃ buf1, length buf1 = 512%nat ∧
        take (length (take 511 (cur ++ [d]))) buf1 = take 511 (cur ++ [d]) ∧
        run (router_round sh_fd llm_fd (buf, Z.of_nat (length (take 511 cur)))) st =
          (O_done (inl (buf1, Z.of_nat (length (take 511 (cur ++ [d]))))), st1)).
      { unfold router_round. rewrite (exec_bind _ _ _ _ _ _ Hread). cbn [r_val r_buf]. change (1 <? 1) with false.
        change (ch [c] 0) with c. fold (norm c). fold d. rewrite (proj2 (Z.eqb_neq d 10) Hd). unfold LINE_BUF.
        destruct (Z.ltb_spec (Z.of_nat (length (take 511 cur))) (512 - 1)) as [Hlt|Hge].
        - assert (Hc : take 511 cur = cur) by (apply take_ge; rewrite length_take in Hlt; lia).
          assert (Hc' : take 511 (cur ++ [d]) = cur ++ [d]).
          { apply take_ge. rewrite length_app. rewrite Hc in Hlt. cbn. lia. }
          rewrite Hc' in *. rewrite Hc in *. exists (<[length cur := d]> buf).
          rewrite aset_run, ubind_ret by lia. split_and!; [by rewrite length_insert| |].
          + rewrite length_app. cbn. rewrite Nat.add_1_r. rewrite (take_S_r _ _ d), take_insert_ge, Hbuf by (try lia; by rewrite list_lookup_insert_eq by lia). done.
          + rewrite length_app. cbn [length]. by replace (Z.of_nat (length cur) + 1) with (Z.of_nat (length cur + 1)) by lia.
        - assert (Hc' : take 511 (cur ++ [d]) = take 511 cur).
          { apply take_app_le. rewrite length_take in Hge. lia. }
          rewrite Hc'. by exists buf. }
      destruct Hround as (buf1 & Hl1 & Hb1 & Hround). rewrite (exec_bind _ _ _ _ _ _ Hround). cbn beta iota.
      rewrite (IH buf1 (cur ++ [d]) st1 Hl1 Hb1 Hcur); [|cbn in Hn |- *; lia].
      cbn [e_in e_adv e_out st1]. by rewrite <- app_assoc.
Qed.

End handler.

(** ** Theorems *)

(** The bytes written to descriptor [fd]. *)
Definition written (fd : Z) (w : list (Z * list Z)) : list Z :=
  mjoin (snd <$> filter (λ x, x.1 = fd) w).

(** The advice line for a pid, as the agent writes it. *)
Definition advice_line (pid : Z) (rest : list Z) : list Z := prefix ++ decimal pid ++ rest.

(** A text made of whole lines. *)
Definition unlines (ls : list (list Z)) : list Z := mjoin ((λ l, l ++ [10]) <$> ls).

Lemma unlines_cons l ls : unlines (l :: ls) = l ++ 10 :: unlines ls.
Proof. unfold unlines. cbn. by rewrite <- app_assoc. Qed.

Lemma split_unlines ls : Forall no_nl ls → split_lines (unlines ls) = (ls, []).
Proof.
  induction 1 as [|l ls Hl Hls IH]; [done|]. by rewrite unlines_cons, split_line, IH.
Qed.

Lemma split_lines_no_nl text : Forall no_nl (split_lines text).1.
Proof.
  induction text as [|c text IH]; [constructor|]. cbn [split_lines].
  destruct (split_lines text) as [ls t]. cbn [fst] in IH. destruct (Z.eqb_spec c 10); cbn [fst]; [by constructor; [constructor|]|].
  destruct ls as [|l ls]; [constructor|]. apply Forall_cons_1 in IH as [Hl Hls].
  constructor; [by constructor|done].
Qed.

Lemma written_app fd w w' : written fd (w ++ w') = written fd w ++ written fd w'.
Proof. unfold written. by rewrite list.filter_app, fmap_app, join_app. Qed.

Lemma written_routed fd sh_fd llm_fd ls :
  written fd (mjoin (routed sh_fd llm_fd <$> ls)) =
  unlines (take 511 <$> filter (λ l, (if is_advice_line l then llm_fd else sh_fd) = fd) ls).
Proof.
  induction ls as [|l ls IH]; [done|].
  change (mjoin (routed sh_fd llm_fd <$> l :: ls)) with (routed sh_fd llm_fd l ++ mjoin (routed sh_fd llm_fd <$> ls)).
  rewrite written_app, IH, filter_cons. unfold routed, written at 1.
  destruct (decide _) as [E|E].
  - rewrite !filter_cons_True by done. cbn [fmap list_fmap]. rewrite unlines_cons. cbn. by rewrite <- app_assoc.
  - by rewrite !filter_cons_False by done.
Qed.

Lemma decimal_no_nl pid : 0 < pid < 2 ^ 31 → no_nl (decimal pid).
Proof.
  intros Hp. destruct (decimal_pos pid Hp) as (_ & Hd & _). eapply list.Forall_impl; [exact Hd|].
  intros c Hc%is_digit_range. cbn beta. lia.
Qed.

Lemma written_to_advice (sh_fd llm_fd : Z) (ls : list (list Z)) :
  sh_fd ≠ llm_fd →
  filter (λ l, (if is_advice_line l then llm_fd else sh_fd) = llm_fd) ls =
  filter (λ l, is_advice_line l = true) ls.
Proof. intros Hne. apply list_filter_iff. intros l. destruct (is_advice_line l); split; congruence. Qed.

Lemma map_id_le (ls : list (list Z)) : Forall (λ l, (length l ≤ 510)%nat) ls → take 511 <$> ls = ls.
Proof.
  induction 1 as [|l ls Hl _ IH]; [done|]. cbn [fmap list_fmap]. by rewrite IH, take_ge by lia.
Qed.

Lemma length_unlines_filter (P : list Z → Prop) `{∀ l, Decision (P l)} ls :
  (length (unlines (filter P ls)) ≤ length (unlines ls))%nat.
Proof.
  induction ls as [|l ls IH]; [done|]. rewrite filter_cons. destruct (decide (P l));
    rewrite !unlines_cons, !length_app; cbn [length]; lia.
Qed.

Lemma length_unlines_split text : (length (unlines (split_lines text).1) ≤ length text)%nat.
Proof.
  induction text as [|c text IH]; [done|]. cbn [split_lines]. destruct (split_lines text) as [ls t].
  cbn [fst] in *. destruct (c =? 10); cbn [fst].
  - rewrite unlines_cons. cbn. lia.
  - destruct ls as [|l ls]; [cbn; lia|]. cbn [fst]. rewrite unlines_cons, length_app in *. cbn in *. lia.
Qed.

Section theorems.
Context (pick : list Z → Z → nat) (ans : Z → Z).

(** C17: llmhelper applies every advice line once and in order.  However the
    kernel cuts the input into reads, lines of the agent's form
    [ADVICE:PID=<pid>...], of at most 510 characters, lead to exactly one
    [set_llm_advice(pid)] call each; the program stays inside its buffer and
    exits when the input is closed. *)
Theorem llmhelper_applies_every_line rounds buf msgs adv out :
  pick_ok pick → length buf = 512%nat →
  Forall (λ '(pid, rest), 0 < pid < 2 ^ 31 ∧ is_digit (ch rest 0) = false ∧ no_nl rest ∧
    (length (advice_line pid rest) ≤ 510)%nat) msgs →
  let text := unlines ((λ '(pid, rest), advice_line pid rest) <$> msgs) in
  (length text < rounds)%nat →
  ∃ o, exec_user (handler pick ans) (Llmhelper.main rounds buf) (Env text adv out) =
    (O_exit 0, Env [] (adv ++ msgs.*1) o).
Proof.
  intros Hpick Hlen Hmsgs text Hn.
  assert (Hnl : Forall no_nl ((λ '(pid, rest), advice_line pid rest) <$> msgs)).
  { apply Forall_fmap. eapply list.Forall_impl; [exact Hmsgs|]. intros [pid rest] (Hp & _ & Hr & _).
    apply Forall_app_2; [repeat constructor; discriminate|].
    apply Forall_app_2; [by apply decimal_no_nl|done]. }
  assert (Hle : lines_le 510 text).
  { unfold lines_le, text. rewrite split_unlines by done. cbn [fst snd length]. split; [|lia].
    apply Forall_fmap. eapply list.Forall_impl; [exact Hmsgs|]. by intros [pid rest] (_ & _ & _ & ?). }
  destruct (main_run pick ans rounds buf text adv out Hpick Hlen Hle Hn) as [o Ho].
  exists o. rewrite Ho. unfold text. rewrite split_unlines by done. cbn [fst].
  assert (omap line_pid ((λ '(pid, rest), advice_line pid rest) <$> msgs) = msgs.*1) as ->; [|done].
  clear -Hmsgs. induction Hmsgs as [|[pid rest] msgs (Hp & Hr & _ & _) _ IH]; [done|].
  cbn [fmap list_fmap omap list_omap fst].
  assert (line_pid (advice_line pid rest) = Some pid) as -> by (by apply (line_pid_advice [])).
  by rewrite IH.
Qed.

(** C23: init's router sorts console input.  Every completed line (carriage
    return or newline) goes, cut to 511 characters, to the pipe of llmhelper
    when it starts with [ADVICE:PID=], and to the shell's otherwise; nothing
    else is written, the order of the lines is kept, the buffer is never
    overrun, and the router exits at the end of input. *)
Theorem router_sorts_lines rounds sh_fd llm_fd buf text adv out :
  pick_ok pick → 0 ≤ sh_fd → 0 ≤ llm_fd → sh_fd ≠ llm_fd → length buf = 512%nat →
  (length text < rounds)%nat →
  let lines := (split_lines (norm <$> text)).1 in
  ∃ w, exec_user (handler pick ans) (router_loop rounds sh_fd llm_fd buf) (Env text adv out) =
      (O_exit 0, Env [] adv (out ++ w)) ∧
    written llm_fd w = unlines (take 511 <$> filter (λ l, is_advice_line l = true) lines) ∧
    written sh_fd w = unlines (take 511 <$> filter (λ l, is_advice_line l = false) lines).
Proof.
  intros Hpick Hs Hl Hne Hlen Hn lines. exists (mjoin (routed sh_fd llm_fd <$> lines)).
  pose proof (router_loop_run pick ans rounds sh_fd llm_fd buf [] (Env text adv out) Hpick Hs Hl Hlen) as Hrun.
  split_and!; [apply Hrun; [done|constructor|done]| |].
  all: rewrite written_routed; do 2 f_equal; apply list_filter_iff; intros l.
  all: destruct (is_advice_line l); split; congruence.
Qed.

(** C2: advice typed on the console reaches the kernel.  When no advice line
    typed is longer than 510 characters, llmhelper, reading what the router wrote
    into its pipe in whatever portions, makes one [set_llm_advice] call for
    each console line that starts with [ADVICE:PID=] and has a positive pid,
    in order, and no others. *)
Theorem console_advice_reaches_kernel rounds rounds' sh_fd llm_fd buf buf' text adv out out' :
  pick_ok pick → 0 ≤ sh_fd → 0 ≤ llm_fd → sh_fd ≠ llm_fd → length buf = 512%nat → length buf' = 512%nat →
  let lines := (split_lines (norm <$> text)).1 in
  Forall (λ l, (length l ≤ 510)%nat) (filter (λ l, is_advice_line l = true) lines) →
  (length text < rounds)%nat → (length text < rounds')%nat →
  ∃ w o, exec_user (handler pick ans) (router_loop rounds sh_fd llm_fd buf) (Env text adv out) =
      (O_exit 0, Env [] adv (out ++ w)) ∧
    exec_user (handler pick ans) (Llmhelper.main rounds' buf') (Env (written llm_fd w) adv out') =
      (O_exit 0, Env [] (adv ++ omap line_pid (filter (λ l, is_advice_line l = true) lines)) o).
Proof.
  intros Hpick Hs Hl Hne Hlen Hlen' lines Hle Hn Hn'.
  pose proof (router_loop_run pick ans rounds sh_fd llm_fd buf [] (Env text adv out) Hpick Hs Hl Hlen) as Hrun.
  exists (mjoin (routed sh_fd llm_fd <$> lines)).
  assert (Hnl : Forall no_nl lines) by apply split_lines_no_nl.
  set (al := filter (λ l, is_advice_line l = true) lines).
  assert (Hal : ∀ P, Forall P lines → Forall P al).
  { intros P HP. apply list.Forall_forall. intros l [_ Hin]%list_elem_of_filter. by apply (list.Forall_forall P lines). }
  assert (Hw : written llm_fd (mjoin (routed sh_fd llm_fd <$> lines)) = unlines al).
  { rewrite written_routed, (written_to_advice _ _ _ Hne). f_equal. by apply map_id_le. }
  destruct (main_run pick ans rounds' buf' (unlines al) adv out' Hpick Hlen') as [o Ho].
  { unfold lines_le. rewrite split_unlines by (by apply Hal). cbn [fst snd length]. split; [done|lia]. }
  { pose proof (length_unlines_filter (λ l, is_advice_line l = true) lines) as H1.
    pose proof (length_unlines_split (norm <$> text)) as H2. rewrite length_fmap in H2. fold al lines in H1, H2. lia. }
  exists o. rewrite Hw, Ho, split_unlines by (by apply Hal). split; [|done].
  apply Hrun; [done|constructor|done].
Qed.

End theorems.

(** ** The theorems at a concrete console input *)

Definition eager (l : list Z) (n : Z) : nat := Nat.min (length l) (Z.to_nat n).

Lemma eager_ok : pick_ok eager.
Proof.
  intros l n Hl Hn. unfold eager. destruct l as [|c l]; [done|]. cbn [length]. lia.
Qed.

Definition typed : list Z := str "ADVICE:PID=7 TS=12" ++ [13] ++ str "ls" ++ [10] ++ str "ADVICE:PID=12" ++ [10].

Lemma llmhelper_applies_every_line_witness :
  ∃ o, exec_user (handler eager (λ _, 0)) (Llmhelper.main 100 (replicate 512 0))
    (Env (str "ADVICE:PID=7 TS=12" ++ [10] ++ str "ADVICE:PID=12" ++ [10]) [] []) = (O_exit 0, Env [] [7; 12] o).
Proof.
  apply (llmhelper_applies_every_line eager (λ _, 0) 100 (replicate 512 0) [(7, str " TS=12"); (12, [])] [] []).
  - apply eager_ok.
  - reflexivity.
  - repeat constructor; vm_compute; congruence.
  - vm_compute. lia.
Defined.

Lemma router_sorts_lines_witness :
  ∃ w, exec_user (handler eager (λ _, 0)) (router_loop 100 3 5 (replicate 512 0)) (Env typed [] []) =
      (O_exit 0, Env [] [] w) ∧
    written 5 w = str "ADVICE:PID=7 TS=12" ++ [10] ++ str "ADVICE:PID=12" ++ [10] ∧
    written 3 w = str "ls" ++ [10].
Proof.
  apply (router_sorts_lines eager (λ _, 0) 100 3 5 (replicate 512 0) typed [] []).
  - apply eager_ok.
  - lia.
  - lia.
  - lia.
  - reflexivity.
  - vm_compute. lia.
Defined.

Lemma console_advice_reaches_kernel_witness :
  ∃ w o, exec_user (handler eager (λ _, 0)) (router_loop 100 3 5 (replicate 512 0)) (Env typed [] []) =
      (O_exit 0, Env [] [] w) ∧
    exec_user (handler eager (λ _, 0)) (Llmhelper.main 100 (replicate 512 0)) (Env (written 5 w) [] []) =
      (O_exit 0, Env [] [7; 12] o).
Proof.
  apply (console_advice_reaches_kernel eager (λ _, 0) 100 100 3 5 (replicate 512 0) (replicate 512 0) typed [] [] []).
  - apply eager_ok.
  - lia.
  - lia.
  - lia.
  - reflexivity.
  - reflexivity.
  - vm_compute. repeat constructor.
  - vm_compute. lia.
  - vm_compute. lia.
Defined.

(** The router cuts a long advice line to 511 characters, which fill
    llmhelper's buffer before the newline arrives: the line is discarded. *)
Lemma overlong_advice_dropped :
  let line := str "ADVICE:PID=7" ++ replicate 600 32 in
  line_pid line = Some 7 ∧
  e_adv (exec_user (handler eager (λ _, 0)) (Llmhelper.main 1000 (replicate 512 0))
    (Env (unlines [take 511 line]) [] [])).2 = [].
Proof. split; vm_compute; reflexivity. Qed.
