(* ===== verification/Grep.v ===== *)
(** * Pattern search: user/grep.c

    The matcher of Kernighan and Pike, the line reader and [main], and the
    theorem that the matcher decides the language of the pattern. *)

From S2P Require Import Prelude User Ulib.

Definition BUF : Z := 1024.

(** ** The matcher *)

(** [matchstar(c, re, text)], given [matchhere(re, .)]. *)
Definition matchstar (here : list Z → bool) (c : Z) : list Z → bool :=
  fix go text :=
    if here text then true else
    match text with
    | [] => false
    | x :: text => if (negb (x =? 0)) && ((x =? c) || (c =? chr ".")) then go text else false
    end.

(** [re[0]] and [re[1]] are the head and the next character; reading at the
    end of the list yields the terminating NUL. *)
Fixpoint matchhere (re text : list Z) : bool :=
  match re with
  | [] => true
  | c :: re1 =>
      if c =? 0 then true else
      match re1 with
      | d :: re2 =>
          if d =? chr "*" then matchstar (matchhere re2) c text else
          if (c =? chr "$") && (d =? 0) then ch text 0 =? 0 else
          if negb (ch text 0 =? 0) && ((c =? chr ".") || (c =? ch text 0)) then matchhere re1 (tail text) else false
      | [] =>
          if c =? chr "$" then ch text 0 =? 0 else
          if negb (ch text 0 =? 0) && ((c =? chr ".") || (c =? ch text 0)) then matchhere re1 (tail text) else false
      end
  end.

(** The [do ... while] over the starting points. *)
Fixpoint match_from (re text : list Z) : bool :=
  if matchhere re text then true else
  match text with
  | [] => false
  | x :: text => if x =? 0 then false else match_from re text
  end.

Definition match_ (re text : list Z) : bool :=
  if ch re 0 =? chr "^" then matchhere (tail re) text else match_from re text.

(** ** The line reader *)

(** The inner loop over the complete lines in [buf]; [p] is the start of the
    current line.  Every round moves [p] past a newline. *)
Definition grep_lines (pattern buf : list Z) (p : nat) : prog (list Z * nat) :=
  uloop (S (length buf))
    (λ '(buf, p),
      match strchr (drop p buf) 10 with
      | None => mret (inr (buf, p))
      | Some i =>
          let q := (p + i)%nat in
          buf ← aset (Z.of_nat q) 0 buf;
          (if match_ pattern (drop p buf) then
             buf ← aset (Z.of_nat q) 10 buf;
             sysv (U_write 1 (slice p (q + 1 - p) buf));;
             mret (inl (buf, (q + 1)%nat))
           else mret (inl (buf, (q + 1)%nat)))
      end) (buf, p).

(** One round of the reading loop. *)
Definition grep_round (pattern : list Z) (fd : Z) (st : list Z * Z) : prog (list Z * Z + unit) :=
  let '(buf, m) := st in
  r ← sys (U_read fd (BUF - m - 1));
  let n := r_val r in
  if n <=? 0 then mret (inr tt) else
  let buf := splice (Z.to_nat m) (r_buf r) buf in
  let m := m + n in
  buf ← aset m 0 buf;
  '(buf, p) ← grep_lines pattern buf 0;
  if 0 <? m then
    let m := m - Z.of_nat p in
    buf ← memmove buf 0 (Z.of_nat p) m;
    mret (inl (buf, m))
  else mret (inl (buf, m)).

Definition grep (rounds : nat) (buf pattern : list Z) (fd : Z) : prog unit :=
  uloop rounds (grep_round pattern fd) (buf, 0).

Definition main (rounds : nat) (buf : list Z) (argv : list (list Z)) : prog unit :=
  match argv with
  | _ :: pattern :: files =>
      match files with
      | [] => grep rounds buf pattern 0;; Exit 0
      | _ =>
          ufor files (λ f,
            fd ← sysv (U_open f 0);
            if fd <? 0 then printf (str "grep: cannot open %s" ++ [10]) [VStr (Some f)];; Exit 1 else
            grep rounds buf pattern fd;;
            sysv (U_close fd);; mret tt);;
          Exit 0
      end
  | _ => fprintf 2 (str "usage: grep pattern [file ...]" ++ [10]) [];; Exit 1
  end.

(** ** The language of a pattern *)

(** An element matches one character or any number of them. *)
Inductive item := One (c : Z) | Many (c : Z).

(** The elements of a pattern, and whether it ends in the anchor [$]. *)
Fixpoint items (re : list Z) : list item * bool :=
  match re with
  | [] => ([], false)
  | c :: re1 =>
      match re1 with
      | d :: re2 =>
          if d =? chr "*" then (Many c :: (items re2).1, (items re2).2)
          else (One c :: (items re1).1, (items re1).2)
      | [] => if c =? chr "$" then ([], true) else ([One c], false)
      end
  end.

(** A pattern character stands for itself, the dot for every character. *)
Definition sat (c x : Z) : Prop := c = chr "." ∨ c = x.

Fixpoint lang (l : list item) (w : list Z) : Prop :=
  match l with
  | [] => w = []
  | One c :: l => ∃ x w', w = x :: w' ∧ sat c x ∧ lang l w'
  | Many c :: l => ∃ w1 w2, w = w1 ++ w2 ∧ Forall (sat c) w1 ∧ lang l w2
  end.

(** The pattern [re], without [^], matches at the start of [text]. *)
Definition matches_here (re text : list Z) : Prop :=
  ∃ w rest, text = w ++ rest ∧ lang (items re).1 w ∧ ((items re).2 = true → rest = []).

Definition nonul (l : list Z) : Prop := Forall (λ c, c ≠ 0) l.

Lemma matchstar_spec here c text (P : list Z → Prop) :
  nonul text → (∀ t, nonul t → here t = true ↔ P t) →
  matchstar here c text = true ↔ ∃ w rest, text = w ++ rest ∧ Forall (sat c) w ∧ P rest.
Proof.
  intros Ht Hh. induction Ht as [|x text Hx Ht IH]; cbn [matchstar].
  - split.
    + destruct (here []) eqn:E; [|done]. intros _. exists [], []. split_and!; [done|constructor|]. apply Hh; [constructor|done].
    + intros (w & rest & He & _ & HP). symmetry in He. apply app_nil in He as [-> ->].
      apply Hh in HP; [|constructor]. by rewrite HP.
  - destruct (here (x :: text)) eqn:E.
    { split; [|done]. intros _. exists [], (x :: text). split_and!; [done|constructor|].
      apply Hh; [by constructor|done]. }
    assert (Hno : ¬ P (x :: text)) by (intros HP; apply Hh in HP; [congruence|by constructor]).
    destruct (Z.eqb_spec x 0); [done|]. cbn [negb andb].
    destruct ((x =? c) || (c =? chr ".")) eqn:Hs.
    + assert (Hsat : sat c x) by (apply orb_true_iff in Hs as [?%Z.eqb_eq|?%Z.eqb_eq]; [by right|by left]).
      fold (matchstar here c text). rewrite IH. split; intros (w & rest & He & Hw & HP).
      * exists (x :: w), rest. split_and!; [by rewrite He|by constructor|done].
      * destruct w as [|y w]; cbn in He; [by subst|]. simplify_eq. exists w, rest.
        split_and!; [done|by apply Forall_cons_1 in Hw as [_ ?]|done].
    + split; [done|]. intros (w & rest & He & Hw & HP).
      destruct w as [|y w]; cbn in He; [by subst|]. simplify_eq. apply Forall_cons_1 in Hw as [Hw _].
      exfalso. apply orb_false_iff in Hs as [?%Z.eqb_neq ?%Z.eqb_neq]. unfold sat in Hw. destruct Hw; congruence.
Qed.

Lemma nul_head text : nonul text → (ch text 0 =? 0) = true ↔ text = [].
Proof.
  intros Ht. destruct text as [|x t]; [done|]. change (ch (x :: t) 0) with x.
  apply Forall_cons_1 in Ht as [Hx _]. destruct (Z.eqb_spec x 0); [done|]. split; [done|discriminate].
Qed.

(** One ordinary character. *)
Lemma match_one c re text (l : list item) (e : bool) :
  nonul text → (∀ t, nonul t → matchhere re t = true ↔ ∃ w rest, t = w ++ rest ∧ lang l w ∧ (e = true → rest = [])) →
  (if negb (ch text 0 =? 0) && ((c =? chr ".") || (c =? ch text 0)) then matchhere re (tail text) else false) = true ↔
  ∃ w rest, text = w ++ rest ∧ lang (One c :: l) w ∧ (e = true → rest = []).
Proof.
  intros Ht Hm. destruct text as [|x t].
  { split; [done|]. intros (w & rest & He & (y & w' & -> & _) & _). discriminate. }
  change (ch (x :: t) 0) with x. cbn [tail]. apply Forall_cons_1 in Ht as [Hx Ht].
  destruct (Z.eqb_spec x 0); [done|]. cbn [negb andb].
  destruct ((c =? chr ".") || (c =? x)) eqn:Hs.
  - assert (Hsat : sat c x) by (apply orb_true_iff in Hs as [?%Z.eqb_eq|?%Z.eqb_eq]; [by left|by right]).
    rewrite Hm by done. split; intros (w & rest & He & Hl & Hr).
    + exists (x :: w), rest. split_and!; [by rewrite He| |done]. by exists x, w.
    + destruct Hl as (y & w' & -> & _ & Hl). cbn in He. simplify_eq. by exists w', rest.
  - split; [done|]. intros (w & rest & He & (y & w' & -> & Hy & _) & _). cbn in He. simplify_eq.
    exfalso. apply orb_false_iff in Hs as [?%Z.eqb_neq ?%Z.eqb_neq]. destruct Hy; congruence.
Qed.

Lemma matchhere_spec re text : nonul re → nonul text → matchhere re text = true ↔ matches_here re text.
Proof.
  unfold matches_here. intros Hre. revert text. assert (Hn : (length re < S (length re))%nat) by lia. revert Hn.
  generalize (S (length re)) as n. intros n. revert re Hre.
  induction n as [|n IH]; intros re Hre Hn text Ht; [lia|].
  destruct re as [|c re1].
  { split; [|done]. intros _. exists [], text. cbn. by split_and!. }
  apply Forall_cons_1 in Hre as [Hc Hre1]. cbn [length] in Hn. cbn [matchhere items].
  destruct (Z.eqb_spec c 0); [done|]. destruct re1 as [|d re2].
  - destruct (Z.eqb_spec c (chr "$")) as [->|Hd].
    + rewrite nul_head by done. cbn [fst snd]. split.
      * intros ->. exists [], []. by split_and!.
      * intros (w & rest & -> & -> & Hr). by rewrite Hr.
    + apply (match_one c [] text [] false Ht). intros t Htt. cbn. split; [|done].
      intros _. by exists [], t.
  - apply Forall_cons_1 in Hre1 as [Hd Hre2]. cbn [length] in Hn. destruct (Z.eqb_spec d (chr "*")) as [->|Hds].
    + rewrite (matchstar_spec _ c text (matches_here re2) Ht).
      2:{ intros t Htt. apply IH; [done|lia|done]. }
      unfold matches_here. cbn [fst snd lang]. split.
      * intros (w & r & -> & Hw & w2 & rest & -> & Hl & Hr). exists (w ++ w2), rest.
        split_and!; [by rewrite app_assoc| |done]. by exists w, w2.
      * intros (w & rest & -> & (w1 & w2 & -> & Hw & Hl) & Hr). exists w1, (w2 ++ rest).
        split_and!; [by rewrite app_assoc|done|]. by exists w2, rest.
    + destruct (Z.eqb_spec d 0); [done|]. rewrite andb_false_r.
      apply (match_one c (d :: re2) text); [done|]. intros t Htt.
      apply (IH (d :: re2)); [by constructor|cbn; lia|done].
Qed.

Lemma match_from_spec re text :
  nonul re → nonul text → match_from re text = true ↔ ∃ pre t, text = pre ++ t ∧ matches_here re t.
Proof.
  intros Hre Ht. induction Ht as [|x t Hx Ht IH]; cbn [match_from].
  - destruct (matchhere re []) eqn:E.
    + split; [|done]. intros _. exists [], []. split; [done|]. apply matchhere_spec; [done|constructor|done].
    + split; [done|]. intros (pre & t & He & Hm). symmetry in He. apply app_nil in He as [-> ->].
      apply matchhere_spec in Hm; [congruence|done|constructor].
  - assert (Hxt : nonul (x :: t)) by (by constructor). destruct (matchhere re (x :: t)) eqn:E.
    + split; [|done]. intros _. exists [], (x :: t). split; [done|]. by apply matchhere_spec.
    + destruct (Z.eqb_spec x 0); [done|]. rewrite IH. split; intros (pre & t' & He & Hm).
      * exists (x :: pre), t'. by rewrite He.
      * destruct pre as [|y pre]; cbn in He; [|simplify_eq; by exists pre, t'].
        subst. apply matchhere_spec in Hm; [congruence|done|done].
Qed.

(** C38: the matcher decides the language of the pattern.  A pattern is a
    sequence of characters, dots and starred elements, with [^] and [$] as
    anchors; [match] answers yes exactly when the text is [pre ++ w ++ post]
    with [w] in the language of the elements, [pre] empty under [^] and [post]
    empty under [$]. *)
Theorem match_decides_pattern re text :
  nonul re → nonul text →
  let anchored := bool_decide (head re = Some (chr "^")) in
  let body := if anchored then tail re else re in
  match_ re text = true ↔
  ∃ pre w post, text = pre ++ w ++ post ∧ lang (items body).1 w ∧
    (anchored = true → pre = []) ∧ ((items body).2 = true → post = []).
Proof.
  intros Hre Ht. cbn zeta. unfold match_.
  destruct (bool_decide_reflect (head re = Some (chr "^"))) as [Ha|Ha].
  - destruct re as [|c re]; [done|]. injection Ha as ->. change (ch (chr "^" :: re) 0) with (chr "^").
    rewrite Z.eqb_refl. cbn [tail]. apply Forall_cons_1 in Hre as [_ Hre]. rewrite matchhere_spec by done. split.
    + intros (w & rest & He & Hl & Hr). by exists [], w, rest.
    + intros (pre & w & post & -> & Hl & Hp & Hr). rewrite (Hp eq_refl). by exists w, post.
  - assert ((ch re 0 =? chr "^") = false) as ->.
    { destruct re as [|c re]; [done|]. change (ch (c :: re) 0) with c. apply Z.eqb_neq. intros ->. by apply Ha. }
    rewrite match_from_spec by done. split.
    + intros (pre & t & -> & w & rest & -> & Hl & Hr). by exists pre, w, rest.
    + intros (pre & w & post & -> & Hl & _ & Hr). exists pre, (w ++ post). split; [done|]. by exists w, post.
Qed.

Lemma match_decides_pattern_witness :
  match_ (str "^a.*d$") (str "abcd") = true ∧ lang (items (str "a.*d$")).1 (str "abcd").
Proof.
  assert (Hm : match_ (str "^a.*d$") (str "abcd") = true) by (vm_compute; reflexivity).
  split; [exact Hm|]. destruct (match_decides_pattern (str "^a.*d$") (str "abcd")) as [H _].
  - repeat constructor; discriminate.
  - repeat constructor; discriminate.
  - destruct (H Hm) as (pre & w & post & He & Hl & Hp & Hr). rewrite (Hp eq_refl), (Hr eq_refl), app_nil_r in He.
    cbn [app] in He. rewrite He. exact Hl.
Defined.
