(* ===== verification/Tools.v ===== *)
(** * Small user programs: cat, echo, wc, kill, ln, mkdir, rm, ls, zombie

    Each program is a Module with the definitions of the C file.  [argv] is
    the argument vector with the program's name first. *)

From S2P Require Import Prelude User Ulib.

(** [for(i = 1; i < argc; i++)] with the file opened, processed and closed;
    [bad] reports a file that cannot be opened. *)
Definition each_file (files : list (list Z)) (bad : list Z → prog unit) (work : Z → list Z → prog unit) : prog unit :=
  ufor files (λ f,
    fd ← sysv (U_open f 0);
    if fd <? 0 then bad f;; Exit 1 else
    work fd f;;
    sysv (U_close fd);; mret tt).

(** ** user/cat.c *)
Module Cat.
Definition cat_round (fd : Z) (_ : unit) : prog (unit + Z) :=
  r ← sys (U_read fd 512);
  let n := r_val r in
  if n <=? 0 then mret (inr n) else
  w ← sysv (U_write 1 (r_buf r));
  if negb (w =? n) then fprintf 2 (str "cat: write error" ++ [10]) [];; Exit 1 else mret (inl tt).

Definition cat (rounds : nat) (fd : Z) : prog unit :=
  n ← uloop rounds (cat_round fd) tt;
  if n <? 0 then fprintf 2 (str "cat: read error" ++ [10]) [];; Exit 1 else mret tt.

Definition main (rounds : nat) (argv : list (list Z)) : prog unit :=
  match argv with
  | _ :: (_ :: _) as files =>
      each_file files (λ f, fprintf 2 (str "cat: cannot open %s" ++ [10]) [VStr (Some f)]) (λ fd _, cat rounds fd);;
      Exit 0
  | _ => cat rounds 0;; Exit 0
  end.
End Cat.

(** ** user/echo.c *)
Module Echo.
Fixpoint echo_args (args : list (list Z)) : prog unit :=
  match args with
  | [] => mret tt
  | a :: args =>
      sysv (U_write 1 (take (strlen_nat a) a));;
      sysv (U_write 1 (match args with [] => [10] | _ => [32] end));;
      echo_args args
  end.
Definition main (argv : list (list Z)) : prog unit := echo_args (tail argv);; Exit 0.
End Echo.

(** ** user/wc.c *)
Module Wc.
Definition blanks : list Z := [32; 13; 9; 10; 11].

(** The counters [l], [w], [c] and the flag [inword].  [strchr] does not find
    a NUL byte, which is therefore part of a word. *)
Record counts := Counts { wc_l : Z; wc_w : Z; wc_c : Z; inword : bool }.

Definition wc_char (x : counts) (b : Z) : counts :=
  let c := i32 (wc_c x + 1) in
  let l := if b =? 10 then i32 (wc_l x + 1) else wc_l x in
  match strchr blanks b with
  | Some _ => Counts l (wc_w x) c false
  | None => if inword x then Counts l (wc_w x) c true else Counts l (i32 (wc_w x + 1)) c true
  end.

Definition wc_round (fd : Z) (x : counts) : prog (counts + counts * Z) :=
  r ← sys (U_read fd 512);
  let n := r_val r in
  if n <=? 0 then mret (inr (x, n)) else
  mret (inl (foldl wc_char x (r_buf r))).

Definition wc (rounds : nat) (fd : Z) (name : list Z) : prog unit :=
  '(x, n) ← uloop rounds (wc_round fd) (Counts 0 0 0 false);
  if n <? 0 then printf (str "wc: read error" ++ [10]) [];; Exit 1 else
  printf (str "%d %d %d %s" ++ [10]) [VInt (wc_l x); VInt (wc_w x); VInt (wc_c x); VStr (Some name)].

Definition main (rounds : nat) (argv : list (list Z)) : prog unit :=
  match argv with
  | _ :: (_ :: _) as files =>
      each_file files (λ f, printf (str "wc: cannot open %s" ++ [10]) [VStr (Some f)]) (wc rounds);;
      Exit 0
  | _ => wc rounds 0 [];; Exit 0
  end.
End Wc.

(** ** user/kill.c, ln.c, mkdir.c, rm.c, zombie.c *)
Module Kill.
Definition main (argv : list (list Z)) : prog unit :=
  if (length argv <? 2)%nat then fprintf 2 (str "usage: kill pid..." ++ [10]) [];; Exit 1 else
  ufor (tail argv) (λ a, sysv (U_kill (atoi a));; mret tt);;
  Exit 0.
End Kill.

Module Ln.
Definition main (argv : list (list Z)) : prog unit :=
  match argv with
  | [_; old; new] =>
      r ← sysv (U_link old new);
      uwhen (r <? 0) (fprintf 2 (str "link %s %s: failed" ++ [10]) [VStr (Some old); VStr (Some new)]);;
      Exit 0
  | _ => fprintf 2 (str "Usage: ln old new" ++ [10]) [];; Exit 1
  end.
End Ln.

(** A loop that stops at the first failure. *)
Fixpoint until_fails (args : list (list Z)) (call : list Z → ucall) (msg : list Z) : prog unit :=
  match args with
  | [] => mret tt
  | a :: args =>
      r ← sysv (call a);
      if r <? 0 then fprintf 2 msg [VStr (Some a)] else until_fails args call msg
  end.

Module Mkdir.
Definition main (argv : list (list Z)) : prog unit :=
  if (length argv <? 2)%nat then fprintf 2 (str "Usage: mkdir files..." ++ [10]) [];; Exit 1 else
  until_fails (tail argv) U_mkdir (str "mkdir: %s failed to create" ++ [10]);;
  Exit 0.
End Mkdir.

Module Rm.
Definition main (argv : list (list Z)) : prog unit :=
  if (length argv <? 2)%nat then fprintf 2 (str "Usage: rm files..." ++ [10]) [];; Exit 1 else
  until_fails (tail argv) U_unlink (str "rm: %s failed to delete" ++ [10]);;
  Exit 0.
End Rm.

Module Zombie.
Definition main : prog unit :=
  pid ← sysv U_fork;
  uwhen (0 <? pid) (sysv (U_pause 5);; mret tt);;
  Exit 0.
End Zombie.

(** ** user/ls.c *)
Module Ls.
Definition DIRSIZ : Z := 14.

(** The part of a path after its last slash. *)
Fixpoint after_slash (p best : list Z) : list Z :=
  match p with
  | [] => best
  | c :: p => after_slash p (if c =? 47 then p else best)
  end.

Definition fmtname (path : list Z) : list Z :=
  let path := take (strlen_nat path) path in
  let p := after_slash path path in
  if DIRSIZ <=? Z.of_nat (length p) then p else p ++ replicate (14 - length p) 32.

(** The fields of [struct stat] and [struct dirent] at their offsets. *)
Definition st_ino (b : list Z) : Z := le_val (slice 4 4 b).
Definition st_type (b : list Z) : Z := i16 (le_val (slice 8 2 b)).
Definition st_size (b : list Z) : Z := le_val (slice 16 8 b).
Definition de_inum (b : list Z) : Z := le_val (slice 0 2 b).
Definition de_name (b : list Z) : list Z := slice 2 14 b.

Definition print_entry (name st : list Z) : prog unit :=
  printf (str "%s %d %d %d" ++ [10])
    [VStr (Some (fmtname name)); VInt (st_type st); VInt (st_ino st); VInt (i32 (st_size st))].

(** The loop over the entries of the directory [path]. *)
Definition ls_entries (rounds : nat) (fd : Z) (path : list Z) : prog unit :=
  uloop rounds (λ _ : unit,
    r ← sys (U_read fd 16);
    if negb (r_val r =? 16) then mret (inr tt) else
    let de := r_buf r in
    if de_inum de =? 0 then mret (inl tt) else
    let name := path ++ [47] ++ de_name de ++ [0] in
    '(r, st) ← stat name;
    if r <? 0 then printf (str "ls: cannot stat %s" ++ [10]) [VStr (Some name)];; mret (inl tt)
    else print_entry name st;; mret (inl tt)) tt.

Definition ls (rounds : nat) (path : list Z) : prog unit :=
  let path := take (strlen_nat path) path in
  fd ← sysv (U_open path 0);
  if fd <? 0 then fprintf 2 (str "ls: cannot open %s" ++ [10]) [VStr (Some path)] else
  r ← sys (U_fstat fd);
  if r_val r <? 0 then
    fprintf 2 (str "ls: cannot stat %s" ++ [10]) [VStr (Some path)];; sysv (U_close fd);; mret tt
  else
  let st := r_buf r in
  (if (st_type st =? 3) || (st_type st =? 2) then print_entry path st
   else if st_type st =? 1 then
     if 512 <? Z.of_nat (length path) + 1 + DIRSIZ + 1 then printf (str "ls: path too long" ++ [10]) []
     else ls_entries rounds fd path
   else mret tt);;
  sysv (U_close fd);; mret tt.

Definition main (rounds : nat) (argv : list (list Z)) : prog unit :=
  match argv with
  | _ :: (_ :: _) as files => ufor files (ls rounds);; Exit 0
  | _ => ls rounds (str ".");; Exit 0
  end.
End Ls.
