(* ===== verification/Sh.v ===== *)
(** * The shell: user/sh.c

    The parser builds the command in memory: nodes are allocated on a heap,
    one node pointing to others, and the arguments are pointers into the
    command line, which [nulterminate] cuts into strings afterwards.  A pointer
    to a node is an index into the heap ([None] is null), a pointer into the
    line an index into [buf].  [malloc] is taken to succeed: a node is appended
    to the heap. *)

From S2P Require Import Prelude User Ulib.

Definition MAXARGS : nat := 10.
Definition O_RDONLY : Z := 0.
Definition O_WRONLY : Z := 1.
Definition O_RDWR : Z := 2.
Definition O_CREATE : Z := 0x200.
Definition O_TRUNC : Z := 0x400.

(** ** Nodes *)

Definition ptr := option nat.

(** [struct execcmd], [redircmd], [pipecmd], [listcmd] and [backcmd]. *)
Inductive node :=
| EXEC (argv eargv : list (option nat))
| REDIR (cmd : ptr) (file efile : nat) (mode fd : Z)
| PIPE (left right : ptr)
| LIST (left right : ptr)
| BACK (cmd : ptr).

Abbreviation heap := (list node).

Definition panic {A} (s : list Z) : prog A := fprintf 2 (str "%s" ++ [10]) [VStr (Some s)];; Exit 1.

Definition fork1 : prog Z :=
  pid ← sysv U_fork;
  if pid =? -1 then panic (str "fork") else mret pid.

(** The string at index [i] of the line. *)
Definition cstr (buf : list Z) (i : nat) : list Z := take (strlen_nat (drop i buf)) (drop i buf).

(** ** The parser's state: the position in the line and the heap *)

Definition pstate : Type := nat * heap.
Definition parser (A : Type) : Type := pstate → prog (A * pstate).
#[export] Instance parser_ret : MRet parser := λ A a st, mret (a, st).
#[export] Instance parser_bind : MBind parser := λ A B f m st, m st ≫= λ '(a, st'), f a st'.

Definition lift {A} (p : prog A) : parser A := λ st, a ← p; mret (a, st).

Fixpoint ploop {X B} (fuel : nat) (body : X → parser (X + B)) (x : X) : parser B :=
  match fuel with
  | O => lift Tired
  | S fuel => r ← body x; match r with inl x' => ploop fuel body x' | inr b => mret b end
  end.

(** [malloc], [memset] and the assignments of a constructor. *)
Definition alloc (n : node) : parser ptr := λ '(s, h), mret (Some (length h), (s, h ++ [n])).

Definition execcmd : parser ptr := alloc (EXEC (replicate MAXARGS None) (replicate MAXARGS None)).
Definition redircmd (subcmd : ptr) (file efile : nat) (mode fd : Z) : parser ptr := alloc (REDIR subcmd file efile mode fd).
Definition pipecmd (left right : ptr) : parser ptr := alloc (PIPE left right).
Definition listcmd (left right : ptr) : parser ptr := alloc (LIST left right).
Definition backcmd (subcmd : ptr) : parser ptr := alloc (BACK subcmd).

(** [cmd->argv[i] = q; cmd->eargv[i] = eq] *)
Definition set_arg (cmd : ptr) (i : nat) (q eq : option nat) : parser unit := λ '(s, h),
  match cmd ≫= (h !!.) with
  | Some (EXEC argv eargv) =>
      if bool_decide (i < MAXARGS)%nat
      then mret (tt, (s, <[default 0%nat cmd := EXEC (<[i := q]> argv) (<[i := eq]> eargv)]> h)) else Wild
  | _ => Wild
  end.

(** ** Tokens *)

Definition whitespace : list Z := [32; 9; 13; 10; 11].
Definition symbols : list Z := str "<|>&;()".

Definition in_str (s : list Z) (c : Z) : bool := bool_decide (is_Some (strchr s c)).

(** [while(s < es && f( *s)) s++] *)
Fixpoint advance (f : Z → bool) (buf : list Z) (n s : nat) : nat :=
  match n with
  | O => s
  | S n => if f (ch buf s) then advance f buf n (S s) else s
  end.
Definition skip_while (f : Z → bool) (buf : list Z) (s es : nat) : nat := advance f buf (es - s) s.

Definition word_char (c : Z) : bool := negb (in_str whitespace c) && negb (in_str symbols c).

Section parser.
Context (buf : list Z) (es : nat).

(** The token, and the bounds [q] and [eq] of its text. *)
Definition gettoken : parser (Z * nat * nat) := λ '(s, h),
  let s := skip_while (in_str whitespace) buf s es in
  let q := s in
  let c := ch buf s in
  let '(ret, s) :=
    if c =? 0 then (c, s)
    else if in_str (str "|();&<") c then (c, S s)
    else if c =? chr ">" then
      if ch buf (S s) =? chr ">" then (chr "+", S (S s)) else (c, S s)
    else (chr "a", skip_while word_char buf s es) in
  let eq := s in
  mret ((ret, q, eq), (skip_while (in_str whitespace) buf s es, h)).

Definition peek (toks : list Z) : parser bool := λ '(s, h),
  let s := skip_while (in_str whitespace) buf s es in
  let c := ch buf s in
  mret (truth c && in_str toks c, (s, h)).

(** ** The parser *)

Definition parseredirs (cmd : ptr) : parser ptr :=
  ploop (S es)
    (λ cmd,
      b ← peek (str "<>");
      if (b : bool) then
        '(tok, _, _) ← gettoken;
        '(tok', q, eq) ← gettoken;
        if negb (tok' =? chr "a") then lift (panic (str "missing file for redirection")) else
        cmd ← (if tok =? chr "<" then redircmd cmd q eq O_RDONLY 0
               else if tok =? chr ">" then redircmd cmd q eq (Z.lor (Z.lor O_WRONLY O_CREATE) O_TRUNC) 1
               else if tok =? chr "+" then redircmd cmd q eq (Z.lor O_WRONLY O_CREATE) 1
               else mret cmd);
        mret (inl cmd)
      else mret (inr cmd)) cmd.

(** The loop over the arguments of a simple command. *)
Definition parseargs (cmd ret : ptr) : parser (ptr * nat) :=
  ploop (S es)
    (λ '(ret, argc),
      b ← peek (str "|)&;");
      if (b : bool) then mret (inr (ret, argc)) else
      '(tok, q, eq) ← gettoken;
      if tok =? 0 then mret (inr (ret, argc)) else
      if negb (tok =? chr "a") then lift (panic (str "syntax")) else
      set_arg cmd argc (Some q) (Some eq);;
      let argc := S argc in
      if (MAXARGS <=? argc)%nat then lift (panic (str "too many args")) else
      ret ← parseredirs ret;
      mret (inl (ret, argc))) (ret, 0%nat).

Fixpoint parseline (fuel : nat) : parser ptr :=
  match fuel with
  | O => lift Tired
  | S fuel =>
      cmd ← parsepipe fuel;
      cmd ← ploop (S es)
        (λ cmd,
          b ← peek (str "&");
          if (b : bool) then gettoken;; cmd ← backcmd cmd; mret (inl cmd) else mret (inr cmd)) cmd;
      b ← peek (str ";");
      if (b : bool) then gettoken;; r ← parseline fuel; listcmd cmd r else mret cmd
  end
with parsepipe (fuel : nat) : parser ptr :=
  match fuel with
  | O => lift Tired
  | S fuel =>
      cmd ← parseexec fuel;
      b ← peek (str "|");
      if (b : bool) then gettoken;; r ← parsepipe fuel; pipecmd cmd r else mret cmd
  end
with parseblock (fuel : nat) : parser ptr :=
  match fuel with
  | O => lift Tired
  | S fuel =>
      b ← peek (str "(");
      if negb b then lift (panic (str "parseblock")) else
      gettoken;;
      cmd ← parseline fuel;
      b ← peek (str ")");
      if negb b then lift (panic (str "syntax - missing )")) else
      gettoken;;
      parseredirs cmd
  end
with parseexec (fuel : nat) : parser ptr :=
  match fuel with
  | O => lift Tired
  | S fuel =>
      b ← peek (str "(");
      if (b : bool) then parseblock fuel else
      ret ← execcmd;
      let cmd := ret in
      ret ← parseredirs ret;
      '(ret, argc) ← parseargs cmd ret;
      set_arg cmd argc None None;;
      mret ret
  end.

End parser.

(** [for(i=0; ecmd->argv[i]; i++) *ecmd->eargv[i] = 0] *)
Fixpoint terminate_args (argv eargv : list (option nat)) (buf : list Z) : prog (list Z) :=
  match argv, eargv with
  | None :: _, _ => mret buf
  | Some _ :: argv, Some e :: eargv => buf ← aset (Z.of_nat e) 0 buf; terminate_args argv eargv buf
  | _, _ => Wild
  end.

(** A node points only to nodes allocated before it, so the depth of a command
    is at most the number of nodes. *)
Fixpoint nulterminate (fuel : nat) (h : heap) (cmd : ptr) (buf : list Z) : prog (list Z) :=
  match fuel with
  | O => Tired
  | S fuel =>
      match cmd with
      | None => mret buf
      | Some i =>
          match h !! i with
          | Some (EXEC argv eargv) => terminate_args argv eargv buf
          | Some (REDIR c _ efile _ _) => buf ← nulterminate fuel h c buf; aset (Z.of_nat efile) 0 buf
          | Some (PIPE l r) => buf ← nulterminate fuel h l buf; nulterminate fuel h r buf
          | Some (LIST l r) => buf ← nulterminate fuel h l buf; nulterminate fuel h r buf
          | Some (BACK c) => nulterminate fuel h c buf
          | None => Wild
          end
      end
  end.

(** The calls of [parseline] and the functions below it nest at most four deep
    for every character of the line. *)
Definition parse_fuel (n : nat) : nat := 4 * S n.

(** [parsecmd(s)] on the line that starts at index [s]: the command, the heap
    and the line with its strings terminated. *)
Definition parsecmd (buf : list Z) (s : nat) : prog (ptr * heap * list Z) :=
  let es := (s + strlen_nat (drop s buf))%nat in
  '(cmd, (s, h)) ← parseline buf es (parse_fuel es) (s, []);
  '(_, (s, h)) ← peek buf es [] (s, h);
  if negb (s =? es)%nat then
    fprintf 2 (str "leftovers: %s" ++ [10]) [VStr (Some (cstr buf s))];; panic (str "syntax")
  else
  buf ← nulterminate (S (length h)) h cmd buf;
  mret (cmd, h, buf).

(** ** Execution *)

(** The argument vector [exec] gets: the strings up to the null pointer. *)
Fixpoint arg_strings (buf : list Z) (argv : list (option nat)) : list (list Z) :=
  match argv with
  | Some q :: argv => cstr buf q :: arg_strings buf argv
  | _ => []
  end.

(** [pipe(p)] returns its status and stores two descriptors. *)
Fixpoint runcmd (fuel : nat) (h : heap) (buf : list Z) (cmd : ptr) : prog unit :=
  match fuel with
  | O => Tired
  | S fuel =>
      match cmd with
      | None => Exit 1
      | Some i =>
          match h !! i with
          | Some (EXEC argv _) =>
              match argv with
              | Some q :: _ =>
                  sysv (U_exec (cstr buf q) (arg_strings buf argv));;
                  fprintf 2 (str "exec %s failed" ++ [10]) [VStr (Some (cstr buf q))];;
                  Exit 0
              | _ => Exit 1
              end
          | Some (REDIR c file _ mode fd) =>
              sysv (U_close fd);;
              r ← sysv (U_open (cstr buf file) mode);
              if r <? 0 then fprintf 2 (str "open %s failed" ++ [10]) [VStr (Some (cstr buf file))];; Exit 1 else
              runcmd fuel h buf c
          | Some (LIST l r) =>
              pid ← fork1;
              if pid =? 0 then runcmd fuel h buf l else
              sysv U_wait;;
              runcmd fuel h buf r
          | Some (PIPE l r) =>
              p ← sys U_pipe;
              if r_val p <? 0 then panic (str "pipe") else
              let p0 := ch (r_buf p) 0 in
              let p1 := ch (r_buf p) 1 in
              pid ← fork1;
              if pid =? 0 then
                sysv (U_close 1);; sysv (U_dup p1);; sysv (U_close p0);; sysv (U_close p1);;
                runcmd fuel h buf l
              else
              pid ← fork1;
              if pid =? 0 then
                sysv (U_close 0);; sysv (U_dup p0);; sysv (U_close p0);; sysv (U_close p1);;
                runcmd fuel h buf r
              else
              sysv (U_close p0);; sysv (U_close p1);;
              sysv U_wait;; sysv U_wait;;
              Exit 0
          | Some (BACK c) =>
              pid ← fork1;
              if pid =? 0 then runcmd fuel h buf c else Exit 0
          | None => Wild
          end
      end
  end.

Definition getcmd (buf : list Z) (nbuf : Z) : prog (Z * list Z) :=
  sysv (U_write 2 (str "$ "));;
  buf ← memset buf 0 nbuf;
  buf ← gets buf nbuf;
  mret (if ch buf 0 =? 0 then -1 else 0, buf).

(** One round of the command loop. *)
Definition sh_round (buf : list Z) : prog (list Z + unit) :=
  '(r, buf) ← getcmd buf 100;
  if r <? 0 then mret (inr tt) else
  let cmd := advance (λ c, (c =? 32) || (c =? 9)) buf (length buf) 0 in
  if ch buf cmd =? 10 then mret (inl buf) else
  if (ch buf cmd =? chr "c") && (ch buf (cmd + 1) =? chr "d") && (ch buf (cmd + 2) =? 32) then
    buf ← aset (Z.of_nat cmd + strlen (drop cmd buf) - 1) 0 buf;
    r ← sysv (U_chdir (cstr buf (cmd + 3)));
    uwhen (r <? 0) (fprintf 2 (str "cannot cd %s" ++ [10]) [VStr (Some (cstr buf (cmd + 3)))]);;
    mret (inl buf)
  else
    pid ← fork1;
    if pid =? 0 then
      '(c, h, buf) ← parsecmd buf cmd;
      runcmd (S (length h)) h buf c;;
      mret (inr tt)
    else
    sysv U_wait;;
    mret (inl buf).

Definition main (rounds : nat) : prog unit :=
  uloop rounds
    (λ _ : unit,
      fd ← sysv (U_open (str "console") O_RDWR);
      if fd <? 0 then mret (inr tt) else
      if 3 <=? fd then sysv (U_close fd);; mret (inr tt) else mret (inl tt)) tt;;
  uloop rounds sh_round (replicate 100 0);;
  Exit 0.
