(* ===== verification/ShParse.v ===== *)
(** * Parsing what was printed

    Commands are printed with their tokens separated by blanks and with
    parentheses where the grammar needs them; the shell parses the text back
    to the command. *)

From S2P Require Import Prelude User Ulib Sh ShSpec.

(** ** Tokens and their text *)

Inductive tok := TkSym (c : Z) | TkApp | TkWord (w : list Z).

Definition tok_text (t : tok) : list Z :=
  match t with TkSym c => [c] | TkApp => str ">>" | TkWord w => w end.
Definition tok_code (t : tok) : Z :=
  match t with TkSym c => c | TkApp => chr "+" | TkWord _ => chr "a" end.

Definition word_ok (w : list Z) : Prop := w ≠ [] ∧ Forall (λ c, c ≠ 0 ∧ word_char c = true) w.
Definition tok_wf (t : tok) : Prop :=
  match t with TkSym c => c ∈ symbols | TkApp => True | TkWord w => word_ok w end.

(** A blank after every token, and a newline after the last. *)
Definition sep (ts : list tok) : Z := match ts with [] => 10 | _ => 32 end.
Fixpoint render (ts : list tok) : list Z :=
  match ts with [] => [] | t :: ts => tok_text t ++ sep ts :: render ts end.

Lemma length_render_app ts us : length (render (ts ++ us)) = (length (render ts) + length (render us))%nat.
Proof. induction ts as [|t ts IH]; [done|]. cbn [render app]. rewrite !length_app. cbn [length]. rewrite IH. lia. Qed.

Lemma sep_ok ts : in_str whitespace (sep ts) = true ∧ word_char (sep ts) = false ∧ (sep ts =? chr ">") = false.
Proof. by destruct ts. Qed.

Definition hd_char (t : tok) : Z := ch (tok_text t) 0.

Lemma tok_text_cons t : tok_wf t → ∃ l, tok_text t = hd_char t :: l.
Proof. destruct t as [c| |w]; [by exists []|by eexists|]. intros [Hw _]. destruct w as [|c w]; [done|]. by exists w. Qed.

Lemma symbol_cases c : c ∈ symbols → c = chr "<" ∨ c = chr "|" ∨ c = chr ">" ∨ c = chr "&" ∨ c = chr ";" ∨ c = chr "(" ∨ c = chr ")".
Proof.
  change symbols with [chr "<"; chr "|"; chr ">"; chr "&"; chr ";"; chr "("; chr ")"].
  rewrite !elem_of_cons, elem_of_nil. tauto.
Qed.

Lemma hd_char_ok t : tok_wf t → hd_char t ≠ 0 ∧ in_str whitespace (hd_char t) = false.
Proof.
  destruct t as [c| |w]; [|done|].
  - intros Hc%symbol_cases. by destruct_or! Hc; subst c.
  - intros [Hw Hall]. destruct w as [|c w]; [done|]. apply Forall_cons_1 in Hall as [[H0 Hc] _].
    change (hd_char (TkWord (c :: w))) with c. split; [done|]. unfold word_char in Hc.
    apply andb_true_iff in Hc as [Hc _]. by apply negb_true_iff in Hc.
Qed.

Lemma word_not_symbol c toks : word_char c = true → Forall (λ x, x ∈ symbols) toks → in_str toks c = false.
Proof.
  intros Hc Hall. assert (Hnz : Forall (λ x, x ≠ 0) toks).
  { eapply list.Forall_impl; [exact Hall|]. intros x Hx%symbol_cases. by destruct_or! Hx; subst x. }
  rewrite in_str_elem by done. apply bool_decide_eq_false. intros Hin.
  rewrite list.Forall_forall in Hall. apply Hall in Hin. unfold word_char in Hc. apply andb_true_iff in Hc as [_ Hc].
  rewrite in_str_elem in Hc by (by repeat constructor). apply negb_true_iff, bool_decide_eq_false in Hc. done.
Qed.

(** ** Printing commands *)

(** The three redirections the shell has. *)
Definition O_NEW : Z := Z.lor (Z.lor O_WRONLY O_CREATE) O_TRUNC.
Definition O_APPEND : Z := Z.lor O_WRONLY O_CREATE.
Definition redir_wf (mode fd : Z) : Prop :=
  (mode = O_RDONLY ∧ fd = 0) ∨ (mode = O_NEW ∧ fd = 1) ∨ (mode = O_APPEND ∧ fd = 1).
Definition redir_op (mode : Z) : tok :=
  if mode =? O_RDONLY then TkSym (chr "<") else if mode =? O_NEW then TkSym (chr ">") else TkApp.

Definition paren (b : bool) (ts : list tok) : list tok :=
  if b then TkSym (chr "(") :: ts ++ [TkSym (chr ")")] else ts.

(** Level 0 is a line, 1 an element of a line, 2 a pipeline and 3 an element
    of a pipeline. *)
Fixpoint show (lvl : nat) (t : tree) : list tok :=
  match t with
  | TExec args => TkWord <$> args
  | TRedir t file mode _ => show 3 t ++ [redir_op mode; TkWord file]
  | TPipe l r => paren (2 <? lvl)%nat (show 3 l ++ TkSym (chr "|") :: show 2 r)
  | TBack t => paren (1 <? lvl)%nat (show 1 t ++ [TkSym (chr "&")])
  | TList l r => paren (0 <? lvl)%nat (show 1 l ++ TkSym (chr ";") :: show 0 r)
  end.

(** Commands that can be typed: words without special characters, at most nine
    of them in a simple command, and the redirections of the shell. *)
Fixpoint tree_wf (t : tree) : Prop :=
  match t with
  | TExec args => (length args < MAXARGS)%nat ∧ Forall word_ok args
  | TRedir t file mode fd => tree_wf t ∧ word_ok file ∧ redir_wf mode fd
  | TPipe l r | TList l r => tree_wf l ∧ tree_wf r
  | TBack t => tree_wf t
  end.

Lemma redir_op_wf mode : tok_wf (redir_op mode).
Proof. unfold redir_op. by repeat case_match; repeat constructor. Qed.

Lemma paren_wf b ts : Forall tok_wf ts → Forall tok_wf (paren b ts).
Proof.
  intros Hts. destruct b; [|done]. constructor; [by repeat constructor|]. apply Forall_app. split; [done|].
  by repeat constructor.
Qed.

Lemma show_wf lvl t : tree_wf t → Forall tok_wf (show lvl t).
Proof.
  revert lvl. induction t as [args|t IH file mode fd|l IHl r IHr|l IHl r IHr|t IH]; intros lvl; cbn [show tree_wf].
  - intros [_ Hall]. by apply Forall_fmap.
  - intros (Ht & Hf & _). apply Forall_app. split; [by apply IH|]. constructor; [apply redir_op_wf|by apply Forall_singleton].
  - intros [Hl Hr]. apply paren_wf, Forall_app. split; [by apply IHl|]. constructor; [by repeat constructor|by apply IHr].
  - intros [Hl Hr]. apply paren_wf, Forall_app. split; [by apply IHl|]. constructor; [by repeat constructor|by apply IHr].
  - intros Ht. apply paren_wf, Forall_app. split; [by apply IH|]. by repeat constructor.
Qed.

(** Redirections applied one after the other. *)
Abbreviation redirs := (list (list Z * Z * Z)).
Definition wrap (t : tree) (rs : redirs) : tree := foldl (λ t r, TRedir t r.1.1 r.1.2 r.2) t rs.
Definition show_redirs (rs : redirs) : list tok := rs ≫= λ r, [redir_op r.1.2; TkWord r.1.1].
Definition redirs_wf (rs : redirs) : Prop := Forall (λ r, word_ok r.1.1 ∧ redir_wf r.1.2 r.2) rs.

Lemma show_redirs_wf rs : redirs_wf rs → Forall tok_wf (show_redirs rs).
Proof.
  intros Hall. induction Hall as [|[[f m] fd] rs [Hf _] _ IH]; [done|]. cbn. constructor; [apply redir_op_wf|].
  by constructor.
Qed.

(** The next token is one of the symbols [cs], or there is none. *)
Definition follows (cs : list Z) (ts : list tok) : Prop :=
  match ts with [] => True | TkSym c :: _ => c ∈ cs | _ => False end.

Section line.
Context (buf : list Z) (es : nat).
Hypothesis Hend : ch buf es = 0.

(** The line from position [s] on is [txt]. *)
Definition rest (s : nat) (txt : list Z) : Prop :=
  (s + length txt = es)%nat ∧ ∀ i, (i < length txt)%nat → ch buf (s + i) = ch txt i.

Lemma rest_app s a b : rest s (a ++ b) → rest (s + length a) b.
Proof.
  intros [Hl Hc]. rewrite length_app in *. split; [lia|]. intros i Hi.
  replace (s + length a + i)%nat with (s + (length a + i))%nat by lia. rewrite Hc by lia.
  unfold ch. by rewrite lookup_app_r, Nat.add_comm, Nat.add_sub by lia.
Qed.

Lemma rest_at s a b i : rest s (a ++ b) → (i < length a)%nat → ch buf (s + i) = ch a i.
Proof.
  intros [Hl Hc] Hi. rewrite Hc by (rewrite length_app; lia). unfold ch. by rewrite lookup_app_l.
Qed.

Lemma rest_cons s c b : rest s (c :: b) → (s < es)%nat ∧ ch buf s = c ∧ rest (S s) b.
Proof.
  intros Hr. pose proof Hr as [Hl _]. cbn in Hl. split; [lia|]. change (c :: b) with ([c] ++ b) in Hr. split.
  - rewrite <- (Nat.add_0_r s). rewrite (rest_at s [c] b 0 Hr); [done|cbn; lia].
  - apply rest_app in Hr. cbn in Hr. by rewrite Nat.add_1_r in Hr.
Qed.

Lemma skip_while_eq f s n :
  (s + n ≤ es)%nat → (∀ i, (i < n)%nat → f (ch buf (s + i)) = true) →
  (s + n = es ∨ f (ch buf (s + n)) = false)%nat → skip_while f buf s es = (s + n)%nat.
Proof.
  intros Hn Hi He. destruct (skip_while_spec f buf s es ltac:(lia)) as (H1 & H2 & H3).
  set (r := skip_while f buf s es) in *. destruct (decide (r = s + n)%nat) as [|Hne]; [done|exfalso].
  destruct (decide (r < s + n)%nat) as [Hlt|Hge].
  - specialize (Hi (r - s)%nat ltac:(lia)). replace (s + (r - s))%nat with r in Hi by lia.
    rewrite (H3 ltac:(lia)) in Hi. done.
  - destruct He as [He|He]; [lia|]. by rewrite (H2 (s + n)%nat ltac:(lia)) in He.
Qed.

(** At the start of a token, or at the end, there is no white space to skip. *)
Lemma skip_none ts s : Forall tok_wf ts → rest s (render ts) → skip_while (in_str whitespace) buf s es = s.
Proof.
  intros Hall Hr. pose proof Hr as [Hl _]. rewrite <- (Nat.add_0_r s) at 2. apply skip_while_eq; [lia|lia|].
  rewrite Nat.add_0_r. destruct ts as [|t ts]; [left; cbn in Hl; lia|right].
  apply Forall_cons_1 in Hall as [Ht _]. destruct (tok_text_cons t Ht) as [l Hl']. cbn in Hr. rewrite Hl' in Hr.
  apply rest_cons in Hr as (_ & -> & _). by apply hd_char_ok.
Qed.

(** The first character of the remaining line. *)
Lemma ch_next ts s :
  Forall tok_wf ts → rest s (render ts) → ch buf s = match ts with [] => 0 | t :: _ => hd_char t end.
Proof.
  intros Hall Hr. pose proof Hr as [Hl _]. destruct ts as [|t ts]; [cbn in Hl; by replace s with es by lia|].
  apply Forall_cons_1 in Hall as [Ht _]. destruct (tok_text_cons t Ht) as [l Hl']. cbn in Hr. rewrite Hl' in Hr.
  by apply rest_cons in Hr as (_ & -> & _).
Qed.

Definition nexts (ts : list tok) (toks : list Z) : bool :=
  match ts with [] => false | t :: _ => in_str toks (hd_char t) end.

Lemma peek_run ts toks s h :
  Forall tok_wf ts → rest s (render ts) → peek buf es toks (s, h) = Done (nexts ts toks, (s, h)).
Proof.
  intros Hall Hr. unfold peek. rewrite (skip_none ts) by done. rewrite (ch_next ts) by done. destruct ts as [|t ts]; [done|].
  apply Forall_cons_1 in Hall as [Ht _]. destruct (hd_char_ok t Ht) as [H0 _]. cbn [nexts].
  unfold truth. by destruct (Z.eqb_spec (hd_char t) 0).
Qed.

Lemma gettoken_end s h : rest s (render []) → gettoken buf es (s, h) = Done ((0, s, s), (s, h)).
Proof.
  intros Hr. unfold gettoken. rewrite (skip_none []) by done. rewrite (ch_next []) by done. cbn [Z.eqb].
  by rewrite (skip_none []).
Qed.

(** The blank after a token. *)
Lemma skip_blank ts s :
  Forall tok_wf ts → rest s (sep ts :: render ts) → skip_while (in_str whitespace) buf s es = S s ∧ rest (S s) (render ts).
Proof.
  intros Hall Hr. destruct (rest_cons s _ _ Hr) as (Hlt & Hc & Hr'). split; [|done].
  rewrite <- Nat.add_1_r. apply skip_while_eq; [lia| |].
  - intros i Hi. replace (s + i)%nat with s by lia. rewrite Hc. apply sep_ok.
  - rewrite Nat.add_1_r. pose proof Hr' as [Hl _]. destruct ts as [|t ts]; [left; cbn in Hl; lia|right].
    rewrite (ch_next (t :: ts)) by done. apply hd_char_ok. by apply Forall_cons_1 in Hall as [? _].
Qed.

Lemma gettoken_tok t ts s h :
  Forall tok_wf (t :: ts) → rest s (render (t :: ts)) →
  let e := (s + length (tok_text t))%nat in
  gettoken buf es (s, h) = Done ((tok_code t, s, e), (S e, h)) ∧ rest (S e) (render ts) ∧
  (s < e)%nat ∧ ∀ i, (i < length (tok_text t))%nat → ch buf (s + i) = ch (tok_text t) i.
Proof.
  intros Hall Hr e. pose proof Hall as [Ht Hts]%Forall_cons_1. cbn [render] in Hr.
  pose proof (rest_app _ _ _ Hr) as Hre. fold e in Hre. destruct (skip_blank ts e Hts Hre) as [Hskip Hr2].
  destruct (tok_text_cons t Ht) as [l Hl]. destruct (hd_char_ok t Ht) as [Hnz Hws].
  assert (Hlt : (s < e)%nat) by (unfold e; rewrite Hl; cbn; lia).
  split; [|split; [done|split; [done|intros i Hi; by eapply rest_at]]].
  unfold gettoken. rewrite (skip_none (t :: ts)) by done. rewrite (ch_next (t :: ts)) by done.
  destruct (Z.eqb_spec (hd_char t) 0); [done|]. destruct t as [c| |w].
  - change (hd_char (TkSym c)) with c. change (length (tok_text (TkSym c))) with 1%nat in *. cbn [tok_text] in *.
    destruct (rest_cons e _ _ Hre) as (_ & Hsp & _).
    assert (He : e = S s) by (unfold e; cbn; lia).
    apply symbol_cases in Ht. destruct_or! Ht; subst c; cbn [tok_code];
      try (replace (in_str (str "|();&<") _) with true by (vm_compute; reflexivity); rewrite <- He, Hskip; done).
    change (in_str (str "|();&<") (chr ">")) with false. rewrite Z.eqb_refl, <- He, Hsp. destruct (sep_ok ts) as (_ & _ & ->).
    cbv iota. by rewrite Hskip.
  - change (hd_char TkApp) with (chr ">"). change (in_str (str "|();&<") (chr ">")) with false. rewrite Z.eqb_refl.
    replace (ch buf (S s)) with (chr ">").
    2:{ rewrite <- (Nat.add_1_r s). symmetry. change (chr ">") with (ch (tok_text TkApp) 1). apply (rest_at s _ _ 1 Hr). cbn. lia. }
    rewrite Z.eqb_refl. replace (S (S s)) with e by (unfold e; cbn; lia). cbv iota. by rewrite Hskip.
  - destruct Ht as [Hne Hw]. destruct w as [|c w]; [done|]. change (hd_char (TkWord (c :: w))) with c in *.
    pose proof Hw as [[_ Hc] _]%Forall_cons_1. cbn [tok_text tok_code] in *.
    rewrite (word_not_symbol c (str "|();&<") Hc) by (by repeat constructor).
    destruct (Z.eqb_spec c (chr ">")) as [->|]; [by vm_compute in Hc|].
    rewrite (skip_while_eq word_char s (length (c :: w))); [fold e; by rewrite Hskip| | |].
    + fold e. destruct Hre as [? _]. lia.
    + intros i Hi. rewrite (rest_at _ _ _ i Hr Hi). unfold ch. destruct (lookup_lt_is_Some_2 (c :: w) i Hi) as [x Hx].
      rewrite Hx. cbn. eapply Forall_lookup_1 in Hw; [|exact Hx]. by destruct Hw.
    + right. fold e. destruct (rest_cons e _ _ Hre) as (_ & -> & _). apply sep_ok.
Qed.

(** The words of the line are the words of the tokens. *)
Lemma word_at_tok w ts s :
  Forall tok_wf (TkWord w :: ts) → rest s (render (TkWord w :: ts)) → (es < length buf)%nat →
  word_at buf s (s + length w) = w.
Proof.
  intros Hall Hr Hlen. cbn [render tok_text] in Hr. pose proof Hr as [Hl _]. rewrite length_app in Hl.
  unfold word_at, slice. replace (s + length w - s)%nat with (length w) by lia.
  apply list_eq. intros i. destruct (decide (i < length w)%nat) as [Hi|Hi].
  - rewrite lookup_take_lt, lookup_drop by done. pose proof (rest_at _ _ _ i Hr Hi) as Hc. unfold ch in Hc.
    destruct (lookup_lt_is_Some_2 w i Hi) as [x Hx]. destruct (lookup_lt_is_Some_2 buf (s + i)) as [y Hy]; [lia|].
    rewrite Hx, Hy in *. by cbn in Hc; subst.
  - rewrite lookup_take_ge by lia. symmetry. apply lookup_ge_None. lia.
Qed.

Hypothesis Hlen : (es < length buf)%nat.

(** [m] parses the tokens up to [ts] as the command [t]. *)
Definition runs (m : parser ptr) (s : nat) (h : heap) (ts : list tok) (t : tree) : Prop :=
  ∃ p s' h', m (s, h) = Done (p, (s', h')) ∧ rest s' (render ts) ∧ h `prefix_of` h' ∧ denotes (word_at buf) h' p t.

Lemma pbind_run {A B} (m : parser A) (f : A → parser B) st a st' : m st = Done (a, st') → (m ≫= f) st = f a st'.
Proof. intros Hm. unfold mbind, parser_bind. by rewrite Hm. Qed.

(** Run the next call, whose outcome is [H]. *)
Ltac prun H := erewrite pbind_run; [|first [exact H|by apply H]]; cbv beta iota.

Definition redirs_body (cmd : ptr) : parser (ptr + ptr) :=
  b ← peek buf es (str "<>");
  if (b : bool) then
    '(tok, _, _) ← gettoken buf es;
    '(tok', q, eq) ← gettoken buf es;
    if negb (tok' =? chr "a") then lift (panic (str "missing file for redirection")) else
    cmd ← (if tok =? chr "<" then redircmd cmd q eq O_RDONLY 0
           else if tok =? chr ">" then redircmd cmd q eq (Z.lor (Z.lor O_WRONLY O_CREATE) O_TRUNC) 1
           else if tok =? chr "+" then redircmd cmd q eq (Z.lor O_WRONLY O_CREATE) 1
           else mret cmd);
    mret (inl cmd)
  else mret (inr cmd).

Lemma alloc_run n s h : alloc n (s, h) = Done (Some (length h), (s, h ++ [n])).
Proof. done. Qed.

Lemma redirs_round f mode fd rs ts s h p t :
  redirs_wf ((f, mode, fd) :: rs) → Forall tok_wf ts →
  rest s (render (show_redirs ((f, mode, fd) :: rs) ++ ts)) → denotes (word_at buf) h p t →
  ∃ p' s' h', redirs_body p (s, h) = Done (inl p', (s', h')) ∧ rest s' (render (show_redirs rs ++ ts)) ∧
    h `prefix_of` h' ∧ denotes (word_at buf) h' p' (TRedir t f mode fd).
Proof.
  intros [[Hf Hm] Hrs]%Forall_cons_1 Hts Hr Hd. cbn [fst snd] in *.
  change (show_redirs ((f, mode, fd) :: rs) ++ ts) with (redir_op mode :: TkWord f :: show_redirs rs ++ ts) in Hr.
  assert (Hall : Forall tok_wf (TkWord f :: show_redirs rs ++ ts)).
  { constructor; [done|]. apply Forall_app. split; [by apply show_redirs_wf|done]. }
  assert (Hall2 : Forall tok_wf (redir_op mode :: TkWord f :: show_redirs rs ++ ts)) by (constructor; [apply redir_op_wf|done]).
  destruct (gettoken_tok _ _ s h Hall2 Hr) as (Hg1 & Hr1 & _).
  set (s1 := S (s + length (tok_text (redir_op mode)))) in *.
  destruct (gettoken_tok _ _ s1 h Hall Hr1) as (Hg2 & Hr2 & _). cbn [tok_text tok_code] in Hg2, Hr2.
  pose proof (word_at_tok _ _ s1 Hall Hr1 Hlen) as Hw.
  assert (Hpk : nexts (redir_op mode :: TkWord f :: show_redirs rs ++ ts) (str "<>") = true).
  { unfold redir_op. by repeat case_match. }
  exists (Some (length h)), (S (s1 + length f)), (h ++ [REDIR p s1 (s1 + length f) mode fd]). split; [|split; [exact Hr2|split; [by eexists|]]].
  - unfold redirs_body. prun peek_run. rewrite Hpk. prun Hg1. prun Hg2. rewrite Z.eqb_refl. cbn [negb].
    destruct Hm as [[-> ->]|[[-> ->]|[-> ->]]]; reflexivity.
  - assert (Hd' : denotes (word_at buf) (h ++ [REDIR p s1 (s1 + length f) mode fd]) (Some (length h))
      (TRedir t (word_at buf s1 (s1 + length f)) mode fd)); [|by rewrite Hw in Hd'].
    eapply d_redir; [by apply list_lookup_middle|]. eapply denotes_mono; [|exact Hd]. by eexists.
Qed.

Lemma redirs_none ts n s h p :
  Forall tok_wf ts → nexts ts (str "<>") = false → rest s (render ts) → ploop (S n) redirs_body p (s, h) = Done (p, (s, h)).
Proof.
  intros Hts Hnx Hr. cbn [ploop].
  assert (E : redirs_body p (s, h) = Done (inr p, (s, h))) by (unfold redirs_body; prun peek_run; by rewrite Hnx).
  by prun E.
Qed.

Lemma redirs_run rs ts n s h p t :
  (length rs < n)%nat → redirs_wf rs → Forall tok_wf ts → nexts ts (str "<>") = false →
  rest s (render (show_redirs rs ++ ts)) → denotes (word_at buf) h p t →
  runs (ploop n redirs_body p) s h ts (wrap t rs).
Proof.
  revert n s h p t. induction rs as [|[[f mode] fd] rs IH]; intros n s h p t Hn Hrs Hts Hnx Hr Hd;
    (destruct n as [|n]; [cbn in Hn; lia|]); cbn [ploop length] in *.
  - exists p, s, h. split; [by apply (redirs_none ts n)|by split].
  - destruct (redirs_round f mode fd rs ts s h p t) as (p1 & s1 & h1 & Hrun & Hr1 & Hpre & Hd1); [done..|].
    destruct (IH n s1 h1 p1 (TRedir t f mode fd)) as (p' & s' & h' & Hrun' & Hr' & Hpre' & Hd'); [lia|by apply Forall_cons_1 in Hrs as [_ ?]|done..|].
    exists p', s', h'. erewrite pbind_run; [|exact Hrun]. split; [exact Hrun'|]. split; [done|]. split; [by etrans|done].
Qed.

(** A line has at least two characters for every token. *)
Lemma tokens_le ts s : Forall tok_wf ts → rest s (render ts) → (2 * length ts + s ≤ es)%nat.
Proof.
  intros Hall [Hl _]. assert (2 * length ts ≤ length (render ts))%nat; [|lia]. clear Hl.
  induction Hall as [|t ts Ht _ IH]; [done|]. cbn [render length]. destruct (tok_text_cons t Ht) as [l ->].
  rewrite length_app. cbn [length]. lia.
Qed.

Definition args_body (cmd : ptr) : ptr * nat → parser (ptr * nat + ptr * nat) :=
  λ '(ret, argc),
    b ← peek buf es (str "|)&;");
    if (b : bool) then mret (inr (ret, argc)) else
    '(tok, q, eq) ← gettoken buf es;
    if tok =? 0 then mret (inr (ret, argc)) else
    if negb (tok =? chr "a") then lift (panic (str "syntax")) else
    set_arg cmd argc (Some q) (Some eq);;
    let argc := S argc in
    if (MAXARGS <=? argc)%nat then lift (panic (str "too many args")) else
    ret ← ploop (S es) redirs_body ret;
    mret (inl (ret, argc)).

Lemma args_exit cmd ts p argc s h n :
  Forall tok_wf ts → follows (str "|)&;") ts → rest s (render ts) →
  ploop (S n) (args_body cmd) (p, argc) (s, h) = Done ((p, argc), (s, h)).
Proof.
  intros Hts Hf Hr. assert (E : args_body cmd (p, argc) (s, h) = Done (inr (p, argc), (s, h))).
  { unfold args_body. prun peek_run. destruct ts as [|[c| |] ts]; [|cbn [follows] in Hf|done|done].
    - cbn [nexts]. prun (gettoken_end s h Hr). done.
    - replace (nexts (TkSym c :: ts) (str "|)&;")) with true; [done|]. cbn [nexts]. rewrite in_str_elem by (by repeat constructor).
      symmetry. by apply bool_decide_eq_true. }
  cbn [ploop]. by prun E.
Qed.

Definition words (toks : list (nat * nat)) : list (list Z) := (λ t, word_at buf t.1 t.2) <$> toks.

(** One word is taken. *)
Lemma args_round w ts us toks s hp p :
  word_ok w → Forall tok_wf ts → rest s (render (TkWord w :: ts)) → (length toks + 1 < MAXARGS)%nat →
  ∃ toks' s', words toks' = words toks ++ [w] ∧ length toks' = S (length toks) ∧ rest s' (render ts) ∧
    args_body (Some (length hp)) (p, length toks) (s, hp ++ exec_node toks :: us) =
      (ret ← ploop (S es) redirs_body p; mret (inl (ret, length toks'))) (s', hp ++ exec_node toks' :: us).
Proof.
  intros Hw Hts Hr Hl. assert (Hall : Forall tok_wf (TkWord w :: ts)) by (by constructor).
  destruct (gettoken_tok _ _ s (hp ++ exec_node toks :: us) Hall Hr) as (Hg & Hr' & _). cbn [tok_text tok_code] in *.
  pose proof (word_at_tok _ _ s Hall Hr Hlen) as Hwd.
  exists (toks ++ [(s, (s + length w)%nat)]), (S (s + length w)). split_and!; [|by rewrite length_app, Nat.add_1_r|done|].
  - unfold words. rewrite fmap_app. cbn [fmap list_fmap fst snd]. by rewrite Hwd.
  - unfold args_body. prun peek_run.
    assert (Hnx : nexts (TkWord w :: ts) (str "|)&;") = false).
    { cbn [nexts]. destruct Hw as [Hne Hall']. destruct w as [|c w]; [done|]. apply Forall_cons_1 in Hall' as [[_ Hc] _].
      apply word_not_symbol; [done|by repeat constructor]. }
    rewrite Hnx. prun Hg. change (chr "a" =? 0) with false. rewrite Z.eqb_refl. cbv iota. cbn [negb].
    assert (Hset : set_arg (Some (length hp)) (length toks) (Some s) (Some (s + length w)%nat) (S (s + length w), hp ++ exec_node toks :: us) =
      Done (tt, (S (s + length w), hp ++ exec_node (toks ++ [(s, (s + length w)%nat)]) :: us))).
    { rewrite (set_arg_run (length hp) toks) by (by apply list_lookup_middle || lia).
      rewrite insert_app_r_alt by lia. by rewrite Nat.sub_diag. }
    prun Hset. cbv zeta. rewrite (proj2 (Nat.leb_gt _ _)) by lia. by rewrite length_app, Nat.add_1_r.
Qed.

Lemma follows_nexts cs toks ts :
  follows cs ts → Forall (λ x, x ≠ 0) toks → Forall (λ c, c ∉ toks) cs → nexts ts toks = false.
Proof.
  intros Hf Hnz Hdis. destruct ts as [|[c| |] ts]; [done| |done|done]. cbn [nexts follows] in *.
  rewrite in_str_elem by done. apply bool_decide_eq_false. rewrite list.Forall_forall in Hdis. by apply Hdis.
Qed.

Lemma word_nexts w ts toks : word_ok w → Forall (λ x, x ∈ symbols) toks → nexts (TkWord w :: ts) toks = false.
Proof.
  intros [Hne Hall] Hs. destruct w as [|c w]; [done|]. apply Forall_cons_1 in Hall as [[_ Hc] _].
  by apply word_not_symbol.
Qed.

(** Decidable facts about concrete lists of characters. *)
Ltac decided := apply (bool_decide_unpack _); vm_compute; exact I.

Lemma length_show_redirs rs : length (show_redirs rs) = (2 * length rs)%nat.
Proof. unfold show_redirs. induction rs as [|r rs IH]; [done|]. cbn. rewrite IH. lia. Qed.

(** The arguments and then the redirections. *)
Lemma args_run rs ts ws : ∀ w n toks s hp,
  redirs_wf rs → Forall tok_wf ts → follows (str "|)&;") ts → word_ok w → Forall word_ok ws →
  (length toks + S (length ws) < MAXARGS)%nat → (S (length ws) < n)%nat →
  rest s (render ((TkWord <$> w :: ws) ++ show_redirs rs ++ ts)) →
  ∃ toks' p s' l, ploop n (args_body (Some (length hp))) (Some (length hp), length toks) (s, hp ++ [exec_node toks]) =
      Done ((p, length toks'), (s', hp ++ exec_node toks' :: l)) ∧
    rest s' (render ts) ∧ (length toks' < MAXARGS)%nat ∧
    denotes (word_at buf) (hp ++ exec_node toks' :: l) p (wrap (TExec (words toks ++ w :: ws)) rs).
Proof.
  induction ws as [|w' ws IH]; intros w n toks s hp Hrs Hts Hf Hw Hws Hl Hn Hr; (destruct n as [|n]; [lia|]); cbn [length] in *.
  - cbn [fmap list_fmap app] in Hr.
    assert (Hall : Forall tok_wf (show_redirs rs ++ ts)) by (apply Forall_app; split; [by apply show_redirs_wf|done]).
    destruct (args_round w (show_redirs rs ++ ts) [] toks s hp (Some (length hp)) Hw Hall Hr) as (toks' & s1 & Hwd & Hlt & Hr1 & Hb); [lia|].
    pose proof (tokens_le _ _ Hall Hr1) as Hle.
    destruct (redirs_run rs ts (S es) s1 (hp ++ [exec_node toks']) (Some (length hp)) (TExec (words toks'))) as (p & s2 & h2 & Hrun & Hr2 & [l Hpre] & Hd); try done.
    { rewrite length_app, length_show_redirs in Hle. lia. }
    { eapply follows_nexts; [exact Hf|decided|decided]. }
    { apply d_exec. by apply list_lookup_middle. }
    assert (E : args_body (Some (length hp)) (Some (length hp), length toks) (s, hp ++ [exec_node toks]) =
      Done (inl (p, length toks'), (s2, h2))) by (etrans; [exact Hb|]; by prun Hrun).
    exists toks', p, s2, l. rewrite Hpre, <- app_assoc in *. cbn [app] in *. rewrite Hwd in Hd. split_and!; [|done|lia|done].
    cbn [ploop]. prun E. destruct n as [|n]; [lia|]. by apply (args_exit _ ts).
  - apply Forall_cons_1 in Hws as [Hw' Hws].
    change ((TkWord <$> w :: w' :: ws) ++ show_redirs rs ++ ts) with (TkWord w :: (TkWord <$> w' :: ws) ++ show_redirs rs ++ ts) in Hr.
    assert (Hall : Forall tok_wf ((TkWord <$> w' :: ws) ++ show_redirs rs ++ ts)).
    { apply Forall_app. split; [by apply Forall_fmap; constructor|]. apply Forall_app. split; [by apply show_redirs_wf|done]. }
    destruct (args_round w _ [] toks s hp (Some (length hp)) Hw Hall Hr) as (toks1 & s1 & Hwd & Hlt & Hr1 & Hb); [lia|].
    destruct (IH w' n toks1 s1 hp) as (toks' & p & s' & l & Hrun & Hr' & Hl' & Hd); [done|done|done|done|done|lia|lia|done|].
    exists toks', p, s', l. split_and!; [|done|done|by rewrite Hwd, <- app_assoc in Hd].
    assert (E : args_body (Some (length hp)) (Some (length hp), length toks) (s, hp ++ [exec_node toks]) =
      Done (inl (Some (length hp), length toks1), (s1, hp ++ [exec_node toks1]))).
    2:{ cbn [ploop]. prun E. exact Hrun. }
    etrans; [exact Hb|].
    by prun (redirs_none _ es s1 (hp ++ [exec_node toks1]) (Some (length hp)) Hall (word_nexts w' _ (str "<>") Hw' ltac:(decided)) Hr1).
Qed.

Lemma redirs_nexts rs ts toks cs :
  follows cs ts → Forall (λ x, x ≠ 0) toks → Forall (λ c, c ∉ toks) (cs ++ str "<>") →
  nexts (show_redirs rs ++ ts) toks = false.
Proof.
  intros Hf Hnz [Hd1 Hd2]%Forall_app. destruct rs as [|[[f m] fd] rs]; [by apply (follows_nexts cs)|].
  cbn [show_redirs mbind list_bind app nexts fst snd]. rewrite in_str_elem by done. apply bool_decide_eq_false.
  apply Forall_cons_1 in Hd2 as [Hlt Hd2]. apply Forall_cons_1 in Hd2 as [Hgt _]. unfold redir_op. by repeat case_match.
Qed.

(** A simple command. *)
Lemma exec_run args rs ts s h fuel :
  (length args < MAXARGS)%nat → Forall word_ok args → redirs_wf rs → Forall tok_wf ts → follows (str "|)&;") ts →
  rest s (render ((TkWord <$> args) ++ show_redirs rs ++ ts)) →
  runs (parseexec buf es (S fuel)) s h ts (wrap (TExec args) rs).
Proof.
  intros Hl Hargs Hrs Hts Hf Hr.
  assert (Hall2 : Forall tok_wf (show_redirs rs ++ ts)) by (apply Forall_app; split; [by apply show_redirs_wf|done]).
  assert (Hall : Forall tok_wf ((TkWord <$> args) ++ show_redirs rs ++ ts)) by (apply Forall_app; split; [by apply Forall_fmap|done]).
  assert (Hnx : nexts ((TkWord <$> args) ++ show_redirs rs ++ ts) (str "(") = false).
  { destruct args as [|w args]; [eapply redirs_nexts; [exact Hf|decided|decided]|].
    apply word_nexts; [by apply Forall_cons_1 in Hargs as [? _]|decided]. }
  pose proof (peek_run _ (str "(") s h Hall Hr) as Hpk. rewrite Hnx in Hpk.
  pose proof (tokens_le _ _ Hall Hr) as Hle. rewrite !length_app, length_show_redirs, length_fmap in Hle.
  cbn [parseexec]. destruct args as [|w ws].
  - cbn [fmap list_fmap app] in Hr.
    destruct (redirs_run rs ts (S es) s (h ++ [exec_node []]) (Some (length h)) (TExec [])) as (p & s2 & h2 & Hrun & Hr2 & [l Hpre] & Hd); try done.
    { lia. } { eapply follows_nexts; [exact Hf|decided|decided]. } { apply (d_exec _ _ _ []). by apply list_lookup_middle. }
    assert (Hc : h2 !! length h = Some (exec_node [])).
    { rewrite Hpre, <- app_assoc. by apply list_lookup_middle. }
    exists p, s2, h2. split; [|split; [done|split; [rewrite Hpre; by do 2 apply prefix_app_r|done]]].
    prun Hpk. prun (alloc_run (exec_node []) s h). cbv zeta. prun Hrun.
    prun (args_exit (Some (length h)) ts p 0 s2 h2 es Hts Hf Hr2).
    by prun (set_arg_end (length h) [] s2 h2 Hc Hl).
  - apply Forall_cons_1 in Hargs as [Hw Hws]. cbn [length] in *.
    destruct (args_run rs ts ws w (S es) [] s h) as (toks & p & s2 & l & Hrun & Hr2 & Hlt & Hd); try done; [lia|].
    exists p, s2, (h ++ exec_node toks :: l). split; [|split; [done|split; [by eexists|done]]].
    prun Hpk. prun (alloc_run (exec_node []) s h). cbv zeta.
    prun (redirs_none _ es s (h ++ [exec_node []]) (Some (length h)) Hall (word_nexts w _ (str "<>") Hw ltac:(decided)) Hr).
    prun Hrun.
    by prun (set_arg_end (length h) toks s2 (h ++ exec_node toks :: l) ltac:(by apply list_lookup_middle) Hlt).
Qed.

(** ** The levels of the grammar *)

Definition amp_body (cmd : ptr) : parser (ptr + ptr) :=
  b ← peek buf es (str "&");
  if (b : bool) then gettoken buf es;; cmd ← backcmd cmd; mret (inl cmd) else mret (inr cmd).

Definition L3 (t : tree) : Prop := ∀ rs ts s h fuel,
  redirs_wf rs → Forall tok_wf ts → follows (str "|)&;") ts →
  rest s (render (show 3 t ++ show_redirs rs ++ ts)) → enough es fuel 2 s →
  runs (parseexec buf es fuel) s h ts (wrap t rs).
Definition L2 (t : tree) : Prop := ∀ ts s h fuel,
  Forall tok_wf ts → follows (str ")&;") ts → rest s (render (show 2 t ++ ts)) → enough es fuel 3 s →
  runs (parsepipe buf es fuel) s h ts t.
(** After the pipeline, the loop that looks for [&] has got past [t]. *)
Definition L1 (t : tree) : Prop := ∀ ts s h fuel,
  Forall tok_wf ts → follows (str ")&;") ts → rest s (render (show 1 t ++ ts)) → enough es fuel 3 s →
  ∃ p0 st0 n p s' h', parsepipe buf es fuel (s, h) = Done (p0, st0) ∧
    ploop (S es) amp_body p0 st0 = ploop n amp_body p (s', h') ∧ (es - s' < n)%nat ∧
    rest s' (render ts) ∧ h `prefix_of` h' ∧ denotes (word_at buf) h' p t.
Definition L0 (t : tree) : Prop := ∀ ts s h fuel,
  Forall tok_wf ts → follows (str ")") ts → rest s (render (show 0 t ++ ts)) → enough es fuel 4 s →
  runs (parseline buf es fuel) s h ts t.

Lemma follows_mono cs cs' ts : Forall (λ c, c ∈ cs') cs → follows cs ts → follows cs' ts.
Proof. intros Hall. destruct ts as [|[c| |] ts]; cbn; [done| |done|done]. rewrite list.Forall_forall in Hall. apply Hall. Qed.

Lemma step_32 t : tree_wf t → L3 t → show 2 t = show 3 t → L2 t.
Proof.
  intros Hwf IH Hsh ts s h fuel Hts Hf Hr He. destruct fuel as [|fuel]; [unfold enough in He; lia|]. rewrite Hsh in Hr.
  destruct (IH [] ts s h fuel) as (p & s' & h' & Hrun & Hr' & Hpre & Hd); [by apply Forall_nil|done| |done|unfold enough in *; lia|].
  { eapply follows_mono; [|exact Hf]. decided. }
  exists p, s', h'. split; [|by split_and!]. cbn [parsepipe]. prun Hrun. prun peek_run.
  by rewrite (follows_nexts (str ")&;")) by (done || decided).
Qed.

Lemma step_21 t : tree_wf t → L2 t → show 1 t = show 2 t → L1 t.
Proof.
  intros Hwf IH Hsh ts s h fuel Hts Hf Hr He. rewrite Hsh in Hr.
  destruct (IH ts s h fuel) as (p & s' & h' & Hrun & Hr' & Hpre & Hd); [done..|].
  exists p, (s', h'), (S es), p, s', h'. by split_and!; [| |lia| | |].
Qed.

Lemma amp_exit ts n p s h :
  Forall tok_wf ts → follows (str ");") ts → rest s (render ts) → (0 < n)%nat → ploop n amp_body p (s, h) = Done (p, (s, h)).
Proof.
  intros Hts Hf Hr Hn. destruct n as [|n]; [lia|]. cbn [ploop].
  assert (E : amp_body p (s, h) = Done (inr p, (s, h))).
  { unfold amp_body. prun peek_run. by rewrite (follows_nexts (str ");")) by (done || decided). }
  by prun E.
Qed.

Lemma step_10 t : tree_wf t → L1 t → show 0 t = show 1 t → L0 t.
Proof.
  intros Hwf IH Hsh ts s h fuel Hts Hf Hr He. destruct fuel as [|fuel]; [unfold enough in He; lia|]. rewrite Hsh in Hr.
  destruct (IH ts s h fuel) as (p0 & st0 & n & p & s' & h' & Hrun & Hloop & Hn & Hr' & Hpre & Hd);
    [done|eapply follows_mono; [|exact Hf]; decided|done|unfold enough in *; lia|].
  exists p, s', h'. split; [|by split_and!]. cbn [parseline]. prun Hrun.
  assert (Hx : ploop (S es) amp_body p0 st0 = Done (p, (s', h'))).
  { rewrite Hloop. apply (amp_exit ts); [done|eapply follows_mono; [|exact Hf]; decided|done|lia]. }
  prun Hx. prun peek_run. by rewrite (follows_nexts (str ")")) by (done || decided).
Qed.

Lemma rest_mono ts us s s' : rest s (render (ts ++ us)) → rest s' (render us) → (s ≤ s' ≤ es)%nat.
Proof. intros [H1 _] [H2 _]. rewrite length_render_app in H1. lia. Qed.

(** A symbol that is next is seen and taken. *)
Lemma symbol_run c ts s h :
  c ∈ symbols → Forall tok_wf ts → rest s (render (TkSym c :: ts)) →
  (∀ toks, peek buf es toks (s, h) = Done (in_str toks c, (s, h))) ∧
  (∃ x, gettoken buf es (s, h) = Done (x, (S (S s), h))) ∧ rest (S (S s)) (render ts).
Proof.
  intros Hc Hts Hr. assert (Hall : Forall tok_wf (TkSym c :: ts)) by (by constructor).
  destruct (gettoken_tok _ _ s h Hall Hr) as (Hg & Hr' & _). cbn [tok_text length tok_code] in *.
  rewrite Nat.add_1_r in *. split_and!; [|by eexists|done]. intros toks. by rewrite (peek_run _ toks s h Hall Hr).
Qed.

Ltac syms := cbn [tok_wf follows]; decided.

Lemma pipe_2 l r : tree_wf (TPipe l r) → L3 l → L2 r → L2 (TPipe l r).
Proof.
  intros Hwf IHl IHr ts s h fuel Hts Hf Hr He. destruct fuel as [|fuel]; [unfold enough in He; lia|].
  cbn [show paren Nat.ltb Nat.leb] in Hr. rewrite <- app_assoc in Hr. cbn [app] in Hr. pose proof Hwf as [Hwl Hwr].
  assert (Hall : Forall tok_wf (show 2 r ++ ts)) by (apply Forall_app; split; [by apply show_wf|done]).
  destruct (IHl [] (TkSym (chr "|") :: show 2 r ++ ts) s h fuel) as (p & s1 & h1 & Hrun & Hr1 & Hpre & Hd);
    [by apply Forall_nil|constructor; [syms|done]|syms|done|unfold enough in *; lia|].
  pose proof (rest_mono _ _ _ _ Hr Hr1).
  destruct (symbol_run (chr "|") _ s1 h1 ltac:(syms) Hall Hr1) as (Hpk & [x Hg] & Hr2).
  pose proof Hr2 as [Hle2 _].
  destruct (IHr ts (S (S s1)) h1 fuel) as (p' & s' & h' & Hrun' & Hr' & Hpre' & Hd'); [done|done|done|unfold enough in *; lia|].
  exists (Some (length h')), s', (h' ++ [PIPE p p']). split; [|split; [done|split]].
  - cbn [parsepipe]. prun Hrun. prun (Hpk (str "|")). change (in_str (str "|") (chr "|")) with true. cbv iota.
    prun Hg. by prun Hrun'.
  - etrans; [exact Hpre|]. etrans; [exact Hpre'|]. by eexists.
  - assert (Hm : h1 `prefix_of` h' ++ [PIPE p p']) by (etrans; [exact Hpre'|by eexists]).
    eapply d_pipe; [by apply list_lookup_middle|by eapply denotes_mono|eapply denotes_mono; [|exact Hd']; by eexists].
Qed.

Lemma back_1 t : tree_wf t → L1 t → L1 (TBack t).
Proof.
  intros Hwf IH ts s h fuel Hts Hf Hr He. cbn [show paren Nat.ltb Nat.leb] in Hr. rewrite <- app_assoc in Hr. cbn [app] in Hr.
  destruct (IH (TkSym (chr "&") :: ts) s h fuel) as (p0 & st0 & n & p & s1 & h1 & Hrun & Hloop & Hn & Hr1 & Hpre & Hd);
    [constructor; [syms|done]|syms|done|done|].
  destruct (symbol_run (chr "&") _ s1 h1 ltac:(syms) Hts Hr1) as (Hpk & [x Hg] & Hr2).
  destruct n as [|n]; [lia|]. pose proof Hr2 as [Hle _].
  exists p0, st0, n, (Some (length h1)), (S (S s1)), (h1 ++ [BACK p]). split_and!; [done| |lia|done|etrans; [exact Hpre|by eexists]|].
  - rewrite Hloop. cbn [ploop].
    assert (E : amp_body p (s1, h1) = Done (inl (Some (length h1)), (S (S s1), h1 ++ [BACK p]))).
    { unfold amp_body. prun (Hpk (str "&")). change (in_str (str "&") (chr "&")) with true. cbv iota. by prun Hg. }
    by prun E.
  - eapply d_back; [by apply list_lookup_middle|]. eapply denotes_mono; [|exact Hd]. by eexists.
Qed.

Lemma list_0 l r : tree_wf (TList l r) → L1 l → L0 r → L0 (TList l r).
Proof.
  intros Hwf IHl IHr ts s h fuel Hts Hf Hr He. destruct fuel as [|fuel]; [unfold enough in He; lia|].
  cbn [show paren Nat.ltb Nat.leb] in Hr. rewrite <- app_assoc in Hr. cbn [app] in Hr. pose proof Hwf as [Hwl Hwr].
  assert (Hall : Forall tok_wf (show 0 r ++ ts)) by (apply Forall_app; split; [by apply show_wf|done]).
  assert (Hall2 : Forall tok_wf (TkSym (chr ";") :: show 0 r ++ ts)) by (constructor; [syms|done]).
  destruct (IHl (TkSym (chr ";") :: show 0 r ++ ts) s h fuel) as (p0 & st0 & n & p & s1 & h1 & Hrun & Hloop & Hn & Hr1 & Hpre & Hd);
    [done|syms|done|unfold enough in *; lia|].
  pose proof (rest_mono _ _ _ _ Hr Hr1).
  destruct (symbol_run (chr ";") _ s1 h1 ltac:(syms) Hall Hr1) as (Hpk & [x Hg] & Hr2).
  assert (Hx : ploop (S es) amp_body p0 st0 = Done (p, (s1, h1))).
  { rewrite Hloop. apply (amp_exit (TkSym (chr ";") :: show 0 r ++ ts)); [done|syms|done|lia]. }
  pose proof Hr2 as [Hle2 _].
  destruct (IHr ts (S (S s1)) h1 fuel) as (p' & s' & h' & Hrun' & Hr' & Hpre' & Hd'); [done|done|done|unfold enough in *; lia|].
  exists (Some (length h')), s', (h' ++ [LIST p p']). split; [|split; [done|split]].
  - cbn [parseline]. prun Hrun. prun Hx. prun (Hpk (str ";")). change (in_str (str ";") (chr ";")) with true. cbv iota.
    prun Hg. by prun Hrun'.
  - etrans; [exact Hpre|]. etrans; [exact Hpre'|]. by eexists.
  - assert (Hm : h1 `prefix_of` h' ++ [LIST p p']) by (etrans; [exact Hpre'|by eexists]).
    eapply d_list; [by apply list_lookup_middle|by eapply denotes_mono|eapply denotes_mono; [|exact Hd']; by eexists].
Qed.

Lemma step_03 t : tree_wf t → L0 t → show 3 t = paren true (show 0 t) → L3 t.
Proof.
  intros Hwf IH Hsh rs ts s h fuel Hrs Hts Hf Hr He. destruct fuel as [|[|fuel]]; [unfold enough in He; lia..|].
  rewrite Hsh in Hr. cbn [paren app] in Hr. rewrite <- app_assoc in Hr. cbn [app] in Hr.
  assert (Hall1 : Forall tok_wf (show_redirs rs ++ ts)) by (apply Forall_app; split; [by apply show_redirs_wf|done]).
  assert (Hall2 : Forall tok_wf (TkSym (chr ")") :: show_redirs rs ++ ts)) by (constructor; [syms|done]).
  assert (Hall3 : Forall tok_wf (show 0 t ++ TkSym (chr ")") :: show_redirs rs ++ ts)) by (apply Forall_app; split; [by apply show_wf|done]).
  destruct (symbol_run (chr "(") _ s h ltac:(syms) Hall3 Hr) as (Hpk & [x Hg] & Hr1). pose proof Hr1 as [Hle1 _].
  destruct (IH (TkSym (chr ")") :: show_redirs rs ++ ts) (S (S s)) h fuel) as (p & s2 & h2 & Hrun & Hr2 & Hpre & Hd);
    [done|syms|done|unfold enough in *; lia|].
  destruct (symbol_run (chr ")") _ s2 h2 ltac:(syms) Hall1 Hr2) as (Hpk2 & [x2 Hg2] & Hr3).
  pose proof (tokens_le _ _ Hall1 Hr3) as Hle. rewrite length_app, length_show_redirs in Hle.
  destruct (redirs_run rs ts (S es) (S (S s2)) h2 p t) as (p' & s' & h' & Hrun' & Hr' & Hpre' & Hd'); try done.
  { lia. } { eapply follows_nexts; [exact Hf|decided|decided]. }
  exists p', s', h'. split; [|split; [done|split; [by etrans|done]]].
  cbn [parseexec]. prun (Hpk (str "(")). change (in_str (str "(") (chr "(")) with true. cbv iota.
  cbn [parseblock]. prun (Hpk (str "(")). change (in_str (str "(") (chr "(")) with true. cbn [negb].
  prun Hg. prun Hrun. prun (Hpk2 (str ")")). change (in_str (str ")") (chr ")")) with true. cbn [negb].
  prun Hg2. exact Hrun'.
Qed.

(** Every level parses every command. *)
Lemma parse_levels t : tree_wf t → L3 t ∧ L2 t ∧ L1 t ∧ L0 t.
Proof.
  induction t as [args|t IH file mode fd|l IHl r IHr|l IHl r IHr|t IH]; intros Hwf; pose proof Hwf as Hwf'; cbn [tree_wf] in Hwf'.
  - assert (H3 : L3 (TExec args)).
    { intros rs ts s h fuel Hrs Hts Hf Hr He. destruct fuel as [|fuel]; [unfold enough in He; lia|]. destruct Hwf'. by apply exec_run. }
    assert (H2 : L2 (TExec args)) by (by apply step_32). assert (H1 : L1 (TExec args)) by (by apply step_21).
    split_and!; [done|done|done|by apply step_10].
  - destruct Hwf' as (Ht & Hfile & Hred). destruct (IH Ht) as [IH3 _].
    assert (H3 : L3 (TRedir t file mode fd)).
    { intros rs ts s h fuel Hrs Hts Hf Hr He. cbn [show] in Hr. rewrite <- app_assoc in Hr.
      apply (IH3 ((file, mode, fd) :: rs)); [by constructor|done|done|exact Hr|done]. }
    assert (H2 : L2 (TRedir t file mode fd)) by (by apply step_32). assert (H1 : L1 (TRedir t file mode fd)) by (by apply step_21).
    split_and!; [done|done|done|by apply step_10].
  - destruct Hwf' as [Hl Hr]. destruct (IHl Hl) as [IHl3 _]. destruct (IHr Hr) as (_ & IHr2 & _).
    assert (H2 : L2 (TPipe l r)) by (by apply pipe_2). assert (H1 : L1 (TPipe l r)) by (by apply step_21).
    assert (H0 : L0 (TPipe l r)) by (by apply step_10). split_and!; [by apply step_03|done|done|done].
  - destruct Hwf' as [Hl Hr]. destruct (IHl Hl) as (_ & _ & IHl1 & _). destruct (IHr Hr) as (_ & _ & _ & IHr0).
    assert (H0 : L0 (TList l r)) by (by apply list_0). assert (H3 : L3 (TList l r)) by (by apply step_03).
    assert (H2 : L2 (TList l r)) by (by apply step_32). split_and!; [done|done|by apply step_21|done].
  - destruct (IH Hwf') as (_ & _ & IH1 & _). assert (H1 : L1 (TBack t)) by (by apply back_1).
    assert (H0 : L0 (TBack t)) by (by apply step_10). assert (H3 : L3 (TBack t)) by (by apply step_03).
    split_and!; [done|by apply step_32|done|done].
Qed.

End line.

(** ** Theorems *)

(** The text of a command and the line buffer that holds it. *)
Definition typed (t : tree) (tl : list Z) : list Z := render (show 0 t) ++ 0 :: tl.

Lemma render_nonul ts : Forall tok_wf ts → Forall (λ c, c ≠ 0) (render ts).
Proof.
  induction 1 as [|t ts Ht _ IH]; [done|]. cbn [render]. apply Forall_app. split; [|by constructor; [destruct ts|]].
  destruct t as [c| |w]; cbn [tok_text].
  - apply Forall_singleton. by destruct (hd_char_ok (TkSym c) Ht).
  - by repeat constructor.
  - destruct Ht as [_ Ht]. eapply list.Forall_impl; [exact Ht|]. by intros c [? _].
Qed.

Lemma strlen_typed t tl : tree_wf t → strlen_nat (typed t tl) = length (render (show 0 t)).
Proof.
  intros Hwf. pose proof (render_nonul _ (show_wf 0 t Hwf)) as Hnz. unfold typed. apply strlen_nat_at.
  - intros i Hi. unfold ch. rewrite lookup_app_l by done. destruct (lookup_lt_is_Some_2 _ _ Hi) as [c Hc]. rewrite Hc. cbn.
    by eapply Forall_lookup_1 in Hnz; [|exact Hc].
  - unfold ch. by rewrite list_lookup_middle.
Qed.

Lemma parse_typed t tl :
  tree_wf t → let buf := typed t tl in
  ∃ p h b, parsecmd buf 0 = Done (p, h, b) ∧ denotes (λ q _, cstr b q) h p t ∧ (depth t ≤ S (length h))%nat.
Proof.
  intros Hwf buf. pose proof (strlen_typed t tl Hwf) as Hes. fold buf in Hes. set (es := strlen_nat buf) in *.
  assert (Hlen : (es < length buf)%nat) by (rewrite Hes; unfold buf, typed; rewrite length_app; cbn; lia).
  destruct (parse_levels buf es (ch_at_strlen buf) Hlen t Hwf) as (_ & _ & _ & H0).
  destruct (H0 [] 0%nat [] (parse_fuel es)) as (p & s & h & Hrun & Hr & _ & Hd); [done|done| |unfold enough, parse_fuel; lia|].
  { rewrite app_nil_r. split; [lia|]. intros i Hi. cbn [Nat.add]. unfold buf, typed, ch. by rewrite lookup_app_l. }
  destruct (parser_ok buf es (ch_at_strlen buf) (ch_below_strlen buf) (parse_fuel es)) as [Hl _].
  assert (Hok : parses buf es (parseline buf es (parse_fuel es)) 0 []).
  { apply Hl; [lia|by intros ? ? ?|unfold enough, parse_fuel; lia]. }
  unfold parses, pwp in Hok. rewrite Hrun in Hok. destruct Hok as [(Hs & Hh & _) Hp]. cbn [fst snd] in *.
  destruct (terminate_run buf h p Hlen Hh Hp) as (b & Hterm & _ & Hden). exists p, h, b. split; [|split; [by apply Hden|]].
  - unfold parsecmd. rewrite drop_0. cbn [Nat.add]. fold es. rewrite Hrun. cbn [mbind prog_bind].
    rewrite (peek_run buf es (ch_at_strlen buf) []) by done. cbn [mbind prog_bind].
    pose proof Hr as [Hs' _]. cbn in Hs'. rewrite Nat.add_0_r in Hs'. rewrite Hs', Nat.eqb_refl. cbn [negb]. by rewrite Hterm.
  - destruct (denotes_depth _ _ _ _ _ _ Hh Hd) as (i & -> & Hi). destruct Hp as (j & E & Hj). simplify_eq. lia.
Qed.

(** C31: printing and parsing.  A command, printed as a line with its tokens
    separated by blanks and with parentheses where the grammar needs them, is
    parsed by the shell to nodes that represent exactly that command: the same
    structure, redirections and words. *)
Theorem parse_show t tl :
  tree_wf t → ∃ p h b, parsecmd (typed t tl) 0 = Done (p, h, b) ∧ denotes (λ q _, cstr b q) h p t.
Proof. intros Hwf. destruct (parse_typed t tl Hwf) as (p & h & b & Hr & Hd & _). by exists p, h, b. Qed.

(** C30: what the shell does with a typed command.  For every answer of the
    kernel, the child that parses the line and runs the nodes makes the system
    calls of the command: for a simple command [exec] with its words, for a
    redirection [close] and [open] first, for a pipeline a [pipe] whose ends
    become the standard output of the left and the standard input of the right
    child, both ends closed everywhere else and both children waited for, for a
    list the left command in a child that is waited for, and for [&] a child
    that is not. *)
Theorem shell_runs_command {S} (env : ucall → S → resp * S) t tl st :
  tree_wf t →
  exec_user env ('(c, h, b) ← parsecmd (typed t tl) 0; runcmd (Datatypes.S (length h)) h b c) st =
  exec_user env (run_tree t) st.
Proof.
  intros Hwf. destruct (parse_typed t tl Hwf) as (p & h & b & Hr & Hd & Hdep). rewrite Hr. cbn [mbind prog_bind].
  by apply runcmd_same.
Qed.

(** [cat a < in | wc & ; ( ls ; ls ) > out] *)
Definition demo_tree : tree :=
  TList (TBack (TPipe (TRedir (TExec [str "cat"; str "a"]) (str "in") O_RDONLY 0) (TExec [str "wc"])))
        (TRedir (TList (TExec [str "ls"]) (TExec [str "ls"])) (str "out") O_NEW 1).

Lemma demo_tree_wf : tree_wf demo_tree.
Proof.
  assert (Hw : ∀ w, bool_decide (w ≠ [] ∧ Forall (λ c, c ≠ 0 ∧ word_char c = true) w) = true → word_ok w).
  { intros w Hb. by apply bool_decide_eq_true in Hb. }
  assert (Hws : ∀ ws, bool_decide (Forall (λ w, w ≠ [] ∧ Forall (λ c, c ≠ 0 ∧ word_char c = true) w) ws) = true → Forall word_ok ws).
  { intros ws Hb. by apply bool_decide_eq_true in Hb. }
  cbn [tree_wf demo_tree].
  split_and!; first [apply Hws; vm_compute; reflexivity|apply Hw; vm_compute; reflexivity|by left|by right; left|vm_compute; lia].
Qed.

Lemma parse_show_witness :
  ∃ p h b, parsecmd (typed demo_tree [7; 7]) 0 = Done (p, h, b) ∧ denotes (λ q _, cstr b q) h p demo_tree.
Proof. exact (parse_show demo_tree [7; 7] demo_tree_wf). Defined.

Lemma shell_runs_command_witness :
  exec_user (λ c st, (Resp 5 [3; 4], c :: st))
    ('(c, h, b) ← parsecmd (typed demo_tree []) 0; runcmd (Datatypes.S (length h)) h b c) [] =
  exec_user (λ c st, (Resp 5 [3; 4], c :: st)) (run_tree demo_tree) [].
Proof. exact (shell_runs_command (λ c st, (Resp 5 [3; 4], c :: st)) demo_tree [] [] demo_tree_wf). Defined.
